(* ===== verification/_CoqProject ===== *)
-Q . S2P
Prelude.v
GoStd.v
PolicyTypes.v
Window.v
Budget.v
Regex.v
Refusal.v
Document.v
Gate.v
Samples.v
GateSafety.v
GateEffects.v
GateBatch.v
GateWiden.v
GateBudget.v
Sha256.v
Principal.v
Envbind.v
EnvLabels.v
ToolClass.v
Decide.v
DecideSafety.v
DecideRate.v
ColumnClass.v
ColumnStore.v
ColumnProposals.v
Earned.v
EarnedEvidence.v
EarnedLedger.v
EarnedService.v
EarnedLimiter.v
GateConfine.v
EarnedGate.v
EarnedHistory.v
EarnedOps.v
EarnedRuns.v
EarnedDemote.v
AuditChain.v
AuditVerify.v
AuditSample.v
AuditSafety.v
AuditExact.v
AuditWriters.v
AuditTamper.v
AuditGaps.v
Interleave.v
Leader.v
LeaderSafety.v
Siem.v
SiemSafety.v
Rollout.v
RolloutSafety.v
Canary.v
CanarySafety.v
PolicyStore.v
PolicySafety.v
Lease.v
LeaseNames.v
LeaseStore.v
LeaseQueue.v
LeaseSafety.v
LeaseExclusive.v
LeaseMoves.v
LeaseFifo.v
LeaseDepth.v
LeaseWait.v
Guard.v
GuardRoles.v
GuardRestore.v
GuardKill.v
GuardSafety.v
PrincipalStore.v
PrincipalFile.v
PrincipalApply.v
PrincipalCore.v
PrincipalSafety.v
Apply.v
ApplyProtocol.v
ApplySafety.v
