(* ===== verification/Prelude.v ===== *)
(** * pg_sage sidecar: the authorization pipeline

    pg_sage is a PostgreSQL agent: its sidecar (src/sidecar, in Go) watches a
    database, proposes changes and, where it is allowed to, carries them out.
    This development models the part that decides whether a change may run, by
    itself or for an agent, the ledgers behind that decision, the pipeline that
    carries it out and the leases that keep two changes off one object, the switch
    that stops agents, the files that declare the agents, the hash chain that makes
    the records tamper-evident and its export, the election of the sidecar that leads,
    and the rollout of a verified change to other databases: the packages policy,
    agentguard (with envbind, decide and classify), principalfile, earned, auditchain,
    siem, leader and rollout, and the core of executor, under src/sidecar/internal.

    ** How the parts interact

    A change asks [policy.Gate.Authorize].  The gate (Gate.v) reads the runtime
    state, the standing policy document, the maintenance window and the usage
    budgets through callbacks, and answers execute, queue, observe or block with
    a reason.  Four other parts plug into it as callbacks:
    - the earned-autonomy ledger (Earned*.v), which limits what an unattended
      change may do to the level its family and class have earned;
    - the agent decider (Decide.v), which judges an agent's request by its
      principal (Principal.v), the tool it calls (ToolClass.v) and the
      environment of the database (Envbind.v, EnvLabels.v);
    - the usage ledger behind the budgets, stated as an interface
      (GateBudget.v, class [BudgetLedger]);
    - the recorder of decisions.
    Column classifications (Column*.v) are agentguard's other store: they decide
    which columns a grant to an agent may list.  The tables the recorder and the
    other stores write (action log, sign-ins, configuration, agent queries) are
    each chained by triggers (AuditChain.v), which a verifier (AuditVerify.v)
    checks from outside; an exporter (Siem.v) sends the links to sinks from the sidecar
    that leads by the election of Leader.v.

    What may run runs through the executor's [Apply] (Apply.v): authorize, take a
    lease on the objects touched (Lease*.v: at once or by waiting its turn in a
    queue) and a DDL slot, authorize again, hold the agent's principal active
    (GuardKill.v, [HoldActive]), execute, verify, give everything back.  The kill
    switch (Guard*.v) works against it on the same control database: it freezes
    principals, waiting for holds, disables their roles on every cluster, and lets
    them go only on the sign-off of two people.  The principals it freezes are rows of
    the principal store (PrincipalStore.v), which principals files write
    (PrincipalFile.v, through the backend of PrincipalCore.v).

    A change carried out and verified on one database is offered to the others of a
    fleet by a canary (Canary.v): the service is the verifier and the applier of the
    rollout engine (Rollout.v) and executes on each database by that database's target.

    ** Files

    Shared:
    - Prelude.v: Go's [(value, error)] as [result], the state monad [M W] over
      a world [W] that every callback acts on, what a computation [returns],
      list and option lemmas, notations in [go_scope];
    - GoStd.v: 64-bit arithmetic that wraps, [time] (an instant is a number of
      nanoseconds since year 1, saturating where Go saturates), [strings],
      [strconv], [fmt] verbs, float64 through Floats of the standard library;
    - Regex.v, Sha256.v: the matcher and the hash the modelled packages call;
    - Interleave.v: operations of several processes as programs whose statements
      interleave on a shared world (class [Machine]), with what every reachable
      system keeps;
    - Samples.v: concrete configurations and requests for the witnesses.

    internal/policy:
    - PolicyTypes.v: types.go and the data types of the package;
    - Window.v: window.go, window_days.go, window_cron.go;
    - Budget.v: budget.go, lock_ceiling.go;
    - Refusal.v: refusal.go;
    - Document.v: document.go, budget_document.go, widen.go;
    - Gate.v: gate.go, gate_operator.go, agent_gate.go, agent_classes.go,
      autonomy.go, autonomy_trusted.go, facts.go, verification_wait.go,
      provider_decision.go, budget_lock.go, window_status.go;
    - GateBatch.v: gate_batch.go;
    - PolicyStore.v: store.go, store_approvals.go, store_queries.go,
      store_types.go, ddl_agent_policy.go, as programs over the policy tables;
    - Lease.v: lease.go, typed_target.go, change_table.go, the keys of
      lease_conflict.go;
    - LeaseStore.v: the statements of postgres_lease.go, lease_queue.go and
      lease_queue_wait.go on the server and on the process's own tables;
      LeaseQueue.v: the operations of these files as programs, and the system
      in which they interleave.

    internal/agentguard:
    - Principal.v: principal.go, access.go, errors.go;
    - Envbind.v, EnvLabels.v: envbind (evaluation; the label table), with the
      clone receipts of internal/clone/receipt.go;
    - ToolClass.v, Decide.v: decide (hold.go is in GuardKill.v);
    - ColumnClass.v, ColumnStore.v, ColumnProposals.v: classify;
    - Guard.v: the requests of kill_types.go and unfreeze.go, the tables of
      guard_core_migration.go and guard_kill_migration.go; GuardKill.v:
      kill_control.go, unfreeze.go, store_update.go and decide/hold.go as
      transactions on them, kill_switch.go as programs of these; GuardRoles.v: the
      steps on a cluster: disabling (kill_run.go, kill_cluster.go), restoring
      (unfreeze_roles.go) and verifying (kill_verify.go, kill_replica.go).

    internal/executor:
    - Apply.v: apply.go, apply_lease.go, agent_gate.go, lease_park.go,
      lock_ceiling.go, quiesce.go and the decisions of finding_policy.go, and the
      system in which changes, drains and the kill switch interleave.

    internal/earned:
    - Earned.v: levels, classes, families, caps, carry-over, the time ramp;
    - EarnedEvidence.v: what evidence a level needs, and its SQL counts as
      functions of the tables;
    - EarnedLedger.v: the tables, statements and transactions;
    - EarnedService.v: the operations (evaluate, approve, reject, downgrade,
      record outcomes and reviews, seed, adopt);
    - EarnedLimiter.v: the gate's [AutonomyLimiter] over the ledger.

    internal/agentguard and internal/principalfile, the principals:
    - PrincipalStore.v: agentguard's store.go and store_update.go as programs;
    - PrincipalFile.v: file.go, plan.go and apply.go, programs of the calls they make
      of the backend and the catalog; PrincipalCore.v: core.go, that backend, and that
      it keeps the laws of PrincipalApply.v (class [LawfulBackend]).

    internal/auditchain:
    - AuditChain.v: spec.go, link.go and the trigger functions of install.go,
      as committed changes of a chained table;
    - AuditVerify.v: verify.go and rows.go, each query reading the tables as
      they are when it runs; AuditSample.v: a sample chain.

    internal/leader, internal/siem, internal/rollout:
    - Leader.v: elector.go and postgres.go;
    - Siem.v: exporter.go, cursor.go and records.go, with the leader's fence of
      cmd/pg_sage_sidecar/audit_wiring.go;
    - Rollout.v: types.go, policy.go and engine.go; Canary.v: canary.go, postgres.go
      and postgres_canary.go, the engine's calls run by the service's backend.

    ** What the theorems show

    - GateSafety.v: what an execute verdict implies (the three authorities:
      narrowing, an operator, the document), the hard stop, irreversible changes,
      the scope of unattended execution; GateEffects.v: a verdict's record, the
      restrictions only restrict, the ramp is a floor; GateWiden.v: for a gate
      over a frozen snapshot the authority is also sufficient, and a document
      that does not widen another never lets more execute; GateBatch.v: a batch
      explains what each request's own explanation says; GateBudget.v: calls of
      Authorize as phases (the gate's mutex, the database's lock, evaluate, record,
      give back), which no interleaving lets oversubscribe a budget.
    - Window.v, Budget.v, Refusal.v, Document.v: what their routines compute,
      against declarative readings; documents round-trip through JSON.
    - PolicySafety.v: every policy version in force was ratified with the
      approvals its widening needs, and the history of versions is exact.
    - LeaseSafety.v: what an operation owns, as an invariant of every reachable
      system; LeaseExclusive.v: two leases held at once share no object;
      LeaseMoves.v: what a statement does to the queue; LeaseFifo.v: nobody is
      granted past an earlier request for the same object; LeaseDepth.v: the
      queue's bounds; LeaseWait.v: a waiter always leaves; LeaseNames.v: lease
      names are canonical.
    - GuardSafety.v: what every statement keeps of the kill switch's tables;
      GuardRestore.v: after any kills an unfreeze restores a role's first
      attributes, and a verified report says what was seen; ApplyProtocol.v: the
      pipeline's protocol (admission, lease, slot, both decisions, what may run holding
      what, verification, the budget asked back) and that every operation keeps to it;
      ApplySafety.v: what every reachable system keeps: an agent's change runs only
      while its agent is held active, slots are bounded and given back, and a kill is
      lifted by two people, with SetStatus among the operations that race; the gaps
      this leaves, as runs: an unrecorded kill is lifted by one, SetStatus activates
      under a freeze, actions whose caller holds no slot run beside a full drain.
    - DecideSafety.v: an allowed agent request passed D1 to D10, the hourly rate
      included; the gate and the decider composed; DecideRate.v: the hourly rate holds
      and the advertised wait suffices.
    - PrincipalApply.v, PrincipalSafety.v: for any backend with the laws, and so for
      the core's, an applied file is what is stored, a plan that was not approved widens
      nothing, and changes are made in order up to the first that fails.
    - LeaderSafety.v: no two sidecars lead a scope, and epochs only go on;
      SiemSafety.v: a cursor never passes what its sink took, and a drain catches up;
      RolloutSafety.v, CanarySafety.v: the engine's and the service's protocols, one
      canary at a time, and what is reported as rolled back was undone.
    - Envbind.v, EnvLabels.v: a database evaluates below production exactly on
      verified evidence, and a widening label takes two people.
    - ColumnStore.v, ColumnProposals.v: a grant lists exactly the allowed
      columns, and proposals, the model's included, only narrow.
    - EarnedHistory.v, EarnedOps.v, EarnedRuns.v: the ledger's transactions as a
      step relation, every operation as a sequence of steps that each meet the checks
      owed to them on the tables they change ([checked]), and what every run
      keeps: typed rows and proposals, a history that replays to the levels, and
      no rise without a person's approval on met evidence (or a first seed).
      EarnedDemote.v: a harmful incident outcome takes the family's autonomy.
      EarnedGate.v: gate and ledger composed (GateConfine.v carries the gate's
      theorems to worlds where the ledger's tables stand still).
    - AuditSafety.v, AuditExact.v: the verifier's steps and exactly what a clean
      report says, on tables that stand still; AuditWriters.v: no chain the
      triggers wrote is reported; AuditTamper.v: two clean states with one head
      have one history, up to a collision among the texts they hash;
      AuditGaps.v: runs with changes the verifier does not see, and where it is
      wrong.

    ** Modelling choices and bounds

    - Callbacks (readers, recorders, limiters, evidence sources, tz data, the
      SQL statement splitter of migration) are parameters acting on the world:
      theorems hold whatever they answer, unless a hypothesis says so.
    - A Go nil pointer, nil map or absent optional interface is [None].
    - JSON is modelled at the level of decoded values: bytes, key order and
      number syntax are encoding/json's.
    - Case and space functions are exact on ASCII; other bytes are
      neither letters nor space.
    - A cron field's progression is followed with fuel 128, enough for its 60
      values whatever the step; [granted] recurses with fuel 2, since the
      components of a composite class are plain classes.  Both are proved or
      evident from the tables.  The verifier's walk has fuel, [None] when it
      runs out: more fuel than links is enough on tables that stand still, and
      no fuel is when a link sits at the last 64-bit position.  A lease waiter
      polls at most as often as told, [None] when that was not enough; enough is
      what it takes to reach its deadline.  Everything else is structural.
    - A critical section under a Go mutex, and a SQL transaction, is one atomic
      step; interleavings are sequences of such steps.  A transaction that fails
      changes nothing.
    - A component whose operations race is an instance of [Machine] (Interleave.v); its
      state is a record of its own, and a step of the world (time, lost
      sessions, clocks) may come between any two statements.
    - SQL tables are maps and lists; statements are functions of them with
      [now()], generated ids and catalog lookups as arguments.  CHECK
      constraints, evidence JSON columns and texts only shown to people are left
      out.  A chained row is its two canonical texts, sealed and state; a chain's
      writers are ordered by their advisory lock, so a commit and its link are
      one step.
    - The lease manager and queue run statement by statement: any number of
      operations of any processes interleave on one server, any statement may
      fail with or without its effect, sessions may be lost and time passes.
      A lock statement that fails has no effect or its session is lost; random
      lease ids never repeat; database and process read one clock.
    - The policy store runs the same way; a statement that violates a constraint
      fails, and Ratify's transaction, serialized by its advisory lock, is one
      step.
    - So does the kill switch.  A hold is a row of its own, there until its
      transaction ends or its session is lost; a transaction that locks a held row
      cannot run until then, and may time out instead.  Freezing is two statements,
      the scan and the transaction that reads again what it locked.  Its steps on a
      cluster are one statement there and sequential operations in GuardRoles.v.
    - In GateBudget.v one call at a time is inside a gate's mutex and one holds the
      database's lock; an approval is not spent while the very same request is judged.
    - In Leader.v a lease is in the database's whole seconds, every clock runs no slower
      than the margin allows, and a statement whose failure is reported was carried out
      by then or never is.  A sink's acceptances and what a target executes are outside:
      they answer arbitrarily.
    - The YAML decoder and url.Parse are parameters of PrincipalFile.v, whose digests
      hash the JSON byte for byte; names are compared byte by byte, and listing the
      principals page by page has fuel, enough by [list_all_answers].
    - In Apply the gate, the callers' hooks, the executed change and the lease
      queue answer arbitrarily: the gate's answers are Gate.v's concern and a
      lease's exclusivity Lease*.v's.  Slots are one executor's; an executor
      without a semaphore has none to take.

    ** Not modelled, and why

    Of the modelled packages: agentguard's role creation, grants, broker and upkeep;
    the kill switch's cancelling of approvals and applies in flight, its memory
    revokers, standby reports and local log; the executor's workflows, their action
    queue, the producers of its intents and what they execute; policy's
    recommendations; the DDL classifier of migration (a parameter); earned's
    reconcilers, report parsing, provenance, views and model-root events; the sinks of
    siem.
    Outside them: retention and partition upkeep, collectors, advisors, tuners, LLM
    clients, API and UI, cloud and fleet code, schema bootstrap: I/O and analysis whose
    only power over the database is through this gate. *)

From stdpp Require Export base list strings gmap sets pretty.
From Stdlib Require Export ZArith Lia Ascii.

(** ** Results: Go's [(value, error)] pairs *)

(** An error is its message; the code paths that distinguish errors by
    identity have their own inductive type. *)
Abbreviation error := string (only parsing).

Inductive result (A : Type) : Type :=
| Ok (a : A)
| Err (e : error).
Arguments Ok {A} a.
Arguments Err {A} e.

Definition is_ok {A} (r : result A) : bool :=
  match r with Ok _ => true | Err _ => false end.

Definition rbind {A B} (r : result A) (k : A -> result B) : result B :=
  match r with Ok a => k a | Err e => Err e end.

(** Runs [f] on every element and stops at the first error, like the
    [for ... { if err != nil { return err } }] loops of the source. *)
Fixpoint rmap {A B} (f : A -> result B) (l : list A) : result (list B) :=
  match l with
  | [] => Ok []
  | a :: l' => rbind (f a) (fun b => rbind (rmap f l') (fun bs => Ok (b :: bs)))
  end.

Fixpoint first_error {A} (f : A -> result unit) (l : list A) : result unit :=
  match l with
  | [] => Ok tt
  | a :: l' => rbind (f a) (fun _ => first_error f l')
  end.

(** ** Effects: a state monad over the world the gate's callbacks act on *)

Definition M (W A : Type) : Type := W -> A * W.

Definition ret {W A} (a : A) : M W A := fun w => (a, w).

Definition bind {W A B} (m : M W A) (k : A -> M W B) : M W B :=
  fun w => match m w with (a, w') => k a w' end.

(** A computation of one component of a pair of worlds. *)
Definition on_snd {V W A} (m : M W A) : M (V * W) A :=
  fun vw => let '(a, w') := m vw.2 in (a, (vw.1, w')).
Definition on_fst {V W A} (m : M V A) : M (V * W) A :=
  fun vw => let '(a, v') := m vw.1 in (a, (v', vw.2)).

Declare Scope go_scope.
Delimit Scope go_scope with go.
Notation "'let!' x ':=' m 'in' k" := (bind m (fun x => k))
  (at level 10, x pattern, m at level 200, k at level 200) : go_scope.
Notation "'let?' x ':=' r 'in' k" := (rbind r (fun x => k))
  (at level 10, x pattern, r at level 200, k at level 200) : go_scope.
(** String equality as Go's [==]. *)
Notation "a =s b" := (String.eqb a b) (at level 70, no associativity) : go_scope.
Notation "a <>s b" := (negb (String.eqb a b)) (at level 70, no associativity) : go_scope.
Open Scope Z_scope.
Open Scope go_scope.
Open Scope stdpp_scope.

(** ** Running and specifying effectful code *)

(** The value a computation returns from world [w]. *)
Definition value_at {W A} (m : M W A) (w : W) : A := fst (m w).

(** [yields m Q]: from every world, [m] returns a value satisfying [Q]. *)
Definition yields {W A} (m : M W A) (Q : A -> Prop) : Prop :=
  forall w, Q (value_at m w).

Lemma yields_ret {W A} (a : A) (Q : A -> Prop) : Q a -> yields (W:=W) (ret a) Q.
Proof. intros H w. exact H. Qed.

Lemma yields_bind {W A B} (m : M W A) (k : A -> M W B) (P : A -> Prop) (Q : B -> Prop) :
  yields m P -> (forall a, P a -> yields (k a) Q) -> yields (bind m k) Q.
Proof.
  intros Hm Hk w. unfold value_at, bind. specialize (Hm w). unfold value_at in Hm.
  destruct (m w) as [a w'] eqn:E. apply (Hk a Hm w').
Qed.

Lemma yields_bind_any {W A B} (m : M W A) (k : A -> M W B) (Q : B -> Prop) :
  (forall a, yields (k a) Q) -> yields (bind m k) Q.
Proof. intros H. eapply (yields_bind _ _ (fun _ => True)); [done|]. intros a _. apply H. Qed.

Lemma yields_mono {W A} (m : M W A) (P Q : A -> Prop) :
  yields m P -> (forall a, P a -> Q a) -> yields m Q.
Proof. intros Hm HPQ w. apply HPQ, Hm. Qed.

Lemma yields_value {W A} (m : M W A) (Q : A -> Prop) w a w' :
  yields m Q -> m w = (a, w') -> Q a.
Proof. intros H E. specialize (H w). unfold value_at in H. by rewrite E in H. Qed.

(** [returns m a]: from some world, [m] returns [a]. *)
Definition returns {W A} (m : M W A) (a : A) : Prop := exists w, value_at m w = a.

Lemma yields_bind_returns {W A B} (m : M W A) (k : A -> M W B) (Q : B -> Prop) :
  (forall a, returns m a -> yields (k a) Q) -> yields (bind m k) Q.
Proof.
  intros H. apply (yields_bind _ _ (returns m)); [|done]. intros w. by exists w.
Qed.

Lemma yields_returns {W A} (m : M W A) (Q : A -> Prop) a : yields m Q -> returns m a -> Q a.
Proof. intros H [w <-]. apply H. Qed.

Lemma returns_ret {W A} (a b : A) : returns (W:=W) (ret a) b -> b = a.
Proof. by intros [w <-]. Qed.

Lemma returns_on_snd {V W A} (m : M W A) (a : A) :
  returns (on_snd (V:=V) m) a -> returns m a.
Proof.
  intros [[v w] <-]. exists w. unfold value_at, on_snd. simpl. by destruct (m w).
Qed.

(** [does m w a w']: from [w] the computation returns [a] and leaves [w']. *)
Definition does {W A} (m : M W A) (w : W) (a : A) (w' : W) : Prop := m w = (a, w').

Lemma does_ret {W A} (a b : A) (w w' : W) : does (ret a) w b w' <-> b = a /\ w' = w.
Proof. unfold does, ret. split; [by intros [= <- <-] | by intros [-> ->]]. Qed.

Lemma does_bind {W A B} (m : M W A) (k : A -> M W B) w b w'' :
  does (bind m k) w b w'' <-> exists a w', does m w a w' /\ does (k a) w' b w''.
Proof.
  unfold does, bind. destruct (m w) as [a w'] eqn:E. split.
  - intros H. eauto.
  - intros (a' & w1 & [= <- <-] & H). exact H.
Qed.

(** ** Filtered lists *)

Lemma filter_ext_in {A} (f g : A -> bool) l :
  (forall a, a ∈ l -> f a = g a) -> List.filter f l = List.filter g l.
Proof. intros H. apply List.filter_ext_in. intros a Ha. by apply H, list_elem_of_In. Qed.

Lemma filter_all {A} (f : A -> bool) l : (forall x, x ∈ l -> f x = true) -> List.filter f l = l.
Proof.
  induction l as [|x l IH]; intros Hf; simpl; [done|].
  rewrite Hf by (apply elem_of_cons; by left). f_equal. apply IH. intros y Hy. apply Hf.
  apply elem_of_cons. by right.
Qed.

Lemma filter_none {A} (f : A -> bool) l : (forall x, x ∈ l -> f x = false) -> List.filter f l = [].
Proof.
  induction l as [|x l IH]; intros Hf; simpl; [done|].
  rewrite Hf by (apply elem_of_cons; by left). apply IH. intros y Hy. apply Hf.
  apply elem_of_cons. by right.
Qed.

Lemma filter_filter {A} (f g : A -> bool) l :
  (forall x, f x = true -> g x = true) -> List.filter f (List.filter g l) = List.filter f l.
Proof.
  intros Hfg. induction l as [|x l IH]; simpl; [done|]. destruct (g x) eqn:Eg; simpl; [by rewrite IH|].
  destruct (f x) eqn:Ef; [|exact IH]. rewrite (Hfg x Ef) in Eg. done.
Qed.

Lemma elem_of_filter_in {A} (f : A -> bool) l x : x ∈ List.filter f l <-> x ∈ l /\ f x = true.
Proof. rewrite !list_elem_of_In. apply List.filter_In. Qed.

Lemma last_split {A} (l : list A) x : last l = Some x -> exists l', l = l' ++ [x].
Proof. intros H. apply last_Some in H as [l' ->]. eauto. Qed.

(** ** Boolean and string equality *)

Lemma eqb_str (a b : string) : (a =s b) = true <-> a = b.
Proof. apply String.eqb_eq. Qed.

Lemma eqb_str_refl (a : string) : (a =s a) = true.
Proof. apply String.eqb_refl. Qed.

Lemma neqb_str (a b : string) : (a =s b) = false <-> a <> b.
Proof. apply String.eqb_neq. Qed.

(** Membership of a string in a list: the [for ... if x == y return true]
    helpers of the source. *)
Definition str_in (x : string) (l : list string) : bool :=
  existsb (fun y => y =s x) l.

Lemma str_in_spec x l : str_in x l = true <-> x ∈ l.
Proof.
  unfold str_in. rewrite existsb_exists. split.
  - intros (y & Hy & E). apply eqb_str in E as ->. by apply list_elem_of_In.
  - intros Hx. exists x. split; [by apply list_elem_of_In | apply eqb_str_refl].
Qed.

(** [sub] is contained in [super], as sets of strings. *)
Definition str_subset (sub super : list string) : bool :=
  forallb (fun s => str_in s super) sub.

Lemma str_subset_spec sub super : str_subset sub super = true <-> sub ⊆ super.
Proof.
  unfold str_subset. rewrite forallb_forall. split.
  - intros H x Hx. apply str_in_spec, H, list_elem_of_In, Hx.
  - intros H x Hx. apply str_in_spec, H, list_elem_of_In, Hx.
Qed.

(** [find] the first element satisfying a test, with its properties. *)
Lemma elem_of_snoc {A} (l : list A) x y : x ∈ l ++ [y] <-> x ∈ l \/ x = y.
Proof. by rewrite elem_of_app, list_elem_of_singleton. Qed.

Lemma nodup_map_inj {A B} (f : A -> B) l x y : NoDup (map f l) -> x ∈ l -> y ∈ l -> f x = f y -> x = y.
Proof.
  intros Hd (i & Hi)%list_elem_of_lookup (j & Hj)%list_elem_of_lookup E.
  assert (i = j) as ->; [|congruence].
  apply (NoDup_lookup _ _ _ (f x) Hd); apply list_lookup_fmap_Some; [by exists x|by exists y].
Qed.

Lemma find_some_in {A} (f : A -> bool) l x :
  List.find f l = Some x -> x ∈ l /\ f x = true.
Proof. intros H. apply find_some in H as [H1 H2]. split; [by apply list_elem_of_In | done]. Qed.

(** [find] splits the list at the first element satisfying the test. *)
Lemma find_split {A} (f : A -> bool) l x :
  List.find f l = Some x ->
  exists before after, l = before ++ x :: after /\ f x = true /\
    Forall (fun y => f y = false) before.
Proof.
  induction l as [|a l IH]; simpl; [done|]. destruct (f a) eqn:E.
  - intros [= ->]. by exists [], l.
  - intros (before & after & -> & Hx & Hb)%IH. exists (a :: before), after. auto.
Qed.

Lemma find_none_forall {A} (f : A -> bool) l :
  List.find f l = None -> Forall (fun y => f y = false) l.
Proof.
  intros H. apply List.Forall_forall. intros y Hy. by apply (find_none f l).
Qed.

Lemma first_error_Ok {A} (f : A -> result unit) l :
  first_error f l = Ok tt <-> Forall (fun a => f a = Ok tt) l.
Proof.
  induction l as [|a l IH]; simpl; [by rewrite Forall_nil|].
  rewrite Forall_cons, <- IH. destruct (f a) as [[]|e]; simpl; naive_solver.
Qed.

Lemma rbind_Ok {A B} (r : result A) (k : A -> result B) b :
  rbind r k = Ok b <-> exists a, r = Ok a /\ k a = Ok b.
Proof. destruct r; simpl; naive_solver. Qed.

(** ** Automation *)

(** [lia] on goals with [/] and [mod] by constants. *)
Ltac div_lia := Z.to_euclidean_division_equations; lia.

Create HintDb sage.
Create Rewrite HintDb sage.
Create Rewrite HintDb reflect.
#[export] Hint Resolve eqb_str_refl yields_ret : sage.
#[export] Hint Rewrite @orb_true_iff @andb_true_iff @negb_true_iff @orb_false_iff
  @andb_false_iff @negb_false_iff eqb_str neqb_str str_in_spec str_subset_spec
  Z.ltb_lt Z.leb_le Z.ltb_ge Z.leb_gt Z.eqb_eq Z.eqb_neq : reflect.

(** Turns every boolean test in the context into the proposition it decides. *)
Ltac reflect_in H := autorewrite with reflect in H.
Ltac reflect_all :=
  repeat match goal with
  | H : context [_ = true] |- _ => progress reflect_in H
  | H : context [_ = false] |- _ => progress reflect_in H
  end; autorewrite with reflect.

(** Case analysis on the scrutinee of the first [match]/[if] of the goal or of
    a hypothesis, keeping the equation. *)
Ltac case_goal :=
  match goal with
  | |- context [match ?x with _ => _ end] =>
      lazymatch x with context [match _ with _ => _ end] => fail | _ => destruct x eqn:? end
  end.
Ltac case_hyp H :=
  match type of H with
  | context [match ?x with _ => _ end] =>
      lazymatch x with context [match _ with _ => _ end] => fail | _ => destruct x eqn:? end
  end.

(** Splits every remaining branch of the goal and closes the impossible and
    the immediate ones. *)
Ltac branches := repeat (case_goal; simplify_eq/=; try done).

(** Walks a [yields] goal through its binds, ignoring what the callbacks
    return. *)
Ltac yields_step :=
  match goal with
  | |- yields (ret _) _ => apply yields_ret
  | |- yields (bind _ _) _ => apply yields_bind_returns; intros ? ?
  | |- yields (match ?x with _ => _ end) _ => destruct x eqn:?
  end.
