(* ===== verification/GoStd.v ===== *)
(** * The Go standard library, as far as the modelled packages use it

    Machine integers, [time], [strings], [strconv] and the few [fmt] verbs.
    Strings are byte strings.  The case and white-space functions are exact on
    bytes below 0x80; a byte from 0x80 up is treated as a caseless non-space,
    non-letter byte (see the header of [Prelude]). *)

From S2P Require Import Prelude.
From Stdlib Require Import Floats.SpecFloat.

(** ** 64-bit integers *)

Definition max_int64 : Z := 2 ^ 63 - 1.
Definition min_int64 : Z := - 2 ^ 63.

(** Two's complement wrap-around of an [int64]/[int] result. *)
Definition wrap64 (z : Z) : Z := (z + 2 ^ 63) mod 2 ^ 64 - 2 ^ 63.

Lemma wrap64_id z : min_int64 <= z <= max_int64 -> wrap64 z = z.
Proof. unfold wrap64, min_int64, max_int64. intros H. rewrite Z.mod_small; lia. Qed.

Lemma wrap64_above z : max_int64 < z <= max_int64 + 2 ^ 64 -> wrap64 z = z - 2 ^ 64.
Proof.
  unfold wrap64, max_int64. intros H.
  replace (z + 2 ^ 63) with ((z + 2 ^ 63 - 2 ^ 64) + 1 * 2 ^ 64) by lia.
  rewrite Z.mod_add, Z.mod_small; lia.
Qed.

(** ** Durations and instants

    A [time.Duration] is an [int64] of nanoseconds.  A [time.Time] is its
    absolute instant: the nanoseconds since January 1, year 1, 00:00 UTC, so
    the zero value is 0.  Its location is passed where a wall clock is read. *)

Abbreviation Duration := Z (only parsing).
Abbreviation Time := Z (only parsing).

Definition Nanosecond : Duration := 1.
Definition Microsecond : Duration := 1000.
Definition Millisecond : Duration := 1000000.
Definition Second : Duration := 1000000000.
Definition Minute : Duration := 60 * Second.
Definition Hour : Duration := 60 * Minute.

Definition time_IsZero (t : Time) : bool := t =? 0.
Definition time_After (t u : Time) : bool := u <? t.
Definition time_Before (t u : Time) : bool := t <? u.
Definition time_Add (t : Time) (d : Duration) : Time := t + d.

(** [t.Sub(u)] saturates at the limits of a [Duration]. *)
Definition time_Sub (t u : Time) : Duration := Z.max min_int64 (Z.min max_int64 (t - u)).

Lemma time_Sub_exact t u : min_int64 <= t - u <= max_int64 -> time_Sub t u = t - u.
Proof. unfold time_Sub. lia. Qed.

Lemma time_Sub_mono t1 t2 u : t1 <= t2 -> time_Sub t1 u <= time_Sub t2 u.
Proof. unfold time_Sub. lia. Qed.

(** [t.Truncate(d)] rounds down to a multiple of [d] since the zero time. *)
Definition time_Truncate (t : Time) (d : Duration) : Time :=
  if d <=? 0 then t else t - t mod d.

(** ** Locations and the wall clock *)

(** A location gives the offset from UTC, in seconds, at an instant (in
    seconds since the zero time). *)
Abbreviation Location := (Z -> Z) (only parsing).
Definition UTC : Location := fun _ => 0.

(** Seconds of the wall clock of [loc] at [t]. *)
Definition wall_seconds (t : Time) (loc : Location) : Z := t / Second + loc (t / Second).

Definition time_Hour (t : Time) (loc : Location) : Z := wall_seconds t loc mod 86400 / 3600.
Definition time_Minute (t : Time) (loc : Location) : Z := wall_seconds t loc mod 3600 / 60.
Definition time_Second (t : Time) (loc : Location) : Z := wall_seconds t loc mod 60.

(** Days of the wall clock since January 1, year 1 (a Monday). *)
Definition wall_day (t : Time) (loc : Location) : Z := wall_seconds t loc / 86400.

(** [time.Weekday]: Sunday is 0. *)
Definition Sunday : Z := 0.
Definition Monday : Z := 1.
Definition Tuesday : Z := 2.
Definition Wednesday : Z := 3.
Definition Thursday : Z := 4.
Definition Friday : Z := 5.
Definition Saturday : Z := 6.

Definition weekday_of_day (day : Z) : Z := (day + 1) mod 7.
Definition time_Weekday (t : Time) (loc : Location) : Z := weekday_of_day (wall_day t loc).

(** Proleptic Gregorian year, month and day of a day number, in years that
    start in March. *)
Definition civil_of_day (day : Z) : Z * Z * Z :=
  let z := day + 306 in
  let era := z / 146097 in
  let doe := z mod 146097 in
  let yoe := (doe - doe / 1460 + doe / 36524 - doe / 146096) / 365 in
  let doy := doe - (365 * yoe + yoe / 4 - yoe / 100) in
  let mp := (5 * doy + 2) / 153 in
  let d := doy - (153 * mp + 2) / 5 + 1 in
  let m := if mp <? 10 then mp + 3 else mp - 9 in
  let y := yoe + era * 400 + (if m <=? 2 then 1 else 0) in
  (y, m, d).

Definition time_Year (t : Time) (loc : Location) : Z := (civil_of_day (wall_day t loc)).1.1.
Definition time_Month (t : Time) (loc : Location) : Z := (civil_of_day (wall_day t loc)).1.2.
Definition time_Day (t : Time) (loc : Location) : Z := (civil_of_day (wall_day t loc)).2.

(** The inverse: the day number of a civil date. *)
Definition day_of_civil (y m d : Z) : Z :=
  let y := if m <=? 2 then y - 1 else y in
  let era := y / 400 in
  let yoe := y mod 400 in
  let doy := (153 * (if 2 <? m then m - 3 else m + 9) + 2) / 5 + d - 1 in
  let doe := yoe * 365 + yoe / 4 - yoe / 100 + doy in
  era * 146097 + doe - 306.

(** [time.Date(y, m, d, hh, mm, ss, 0, time.UTC)] for in-range fields. *)
Definition time_Date (y m d hh mm ss : Z) : Time :=
  ((day_of_civil y m d * 24 + hh) * 60 + mm) * Minute + ss * Second.

Example date_of_2026_10_04 :
  civil_of_day (day_of_civil 2026 10 4) = (2026, 10, 4) /\
  weekday_of_day (day_of_civil 2026 10 4) = Sunday.
Proof. by vm_compute. Qed.

(** What the process is run with: the embedded time-zone database and the
    process-local location. *)
Class GoEnv := {
  tz_lookup : string -> option Location;
  time_Local : Location;
}.

(** ** Numbers as text *)

Definition itoa (z : Z) : string := pretty z.

(** [%0<n>d] for a non-negative number. *)
Fixpoint zeros (n : nat) : string :=
  match n with O => "" | S n' => "0" +:+ zeros n' end.
Definition pad0 (n : nat) (z : Z) : string :=
  let s := itoa z in zeros (n - String.length s) +:+ s.

(** [t.UTC().Format(time.RFC3339)] and [Format("2006-01-02")]. *)
Definition format_date (t : Time) : string :=
  pad0 4 (time_Year t UTC) +:+ "-" +:+ pad0 2 (time_Month t UTC) +:+ "-" +:+
  pad0 2 (time_Day t UTC).
Definition format_rfc3339 (t : Time) : string :=
  format_date t +:+ "T" +:+ pad0 2 (time_Hour t UTC) +:+ ":" +:+ pad0 2 (time_Minute t UTC)
  +:+ ":" +:+ pad0 2 (time_Second t UTC) +:+ "Z".

Example format_example :
  format_rfc3339 (time_Date 2026 10 4 18 10 0) = "2026-10-04T18:10:00Z".
Proof. by vm_compute. Qed.

(** ** Characters *)

Definition code (c : ascii) : Z := Z.of_nat (Ascii.nat_of_ascii c).
Definition of_code (z : Z) : ascii := Ascii.ascii_of_nat (Z.to_nat z).

Definition is_digit (c : ascii) : bool := (48 <=? code c) && (code c <=? 57).
Definition digit_val (c : ascii) : Z := code c - 48.
Definition is_upper (c : ascii) : bool := (65 <=? code c) && (code c <=? 90).
Definition is_lower (c : ascii) : bool := (97 <=? code c) && (code c <=? 122).
Definition is_letter (c : ascii) : bool := is_upper c || is_lower c.
Definition is_space (c : ascii) : bool :=
  ((9 <=? code c) && (code c <=? 13)) || (code c =? 32).
Definition lower_char (c : ascii) : ascii := if is_upper c then of_code (code c + 32) else c.
Definition upper_char (c : ascii) : ascii := if is_lower c then of_code (code c - 32) else c.
Definition char_eqb (a b : ascii) : bool := Ascii.eqb a b.

(** ** Package strings *)

Fixpoint str_map (f : ascii -> ascii) (s : string) : string :=
  match s with
  | EmptyString => EmptyString
  | String c s' => String (f c) (str_map f s')
  end.

Definition ToLower (s : string) : string := str_map lower_char s.
Definition ToUpper (s : string) : string := str_map upper_char s.
Definition EqualFold (a b : string) : bool := ToLower a =s ToLower b.

Fixpoint trim_left (s : string) : string :=
  match s with
  | String c s' => if is_space c then trim_left s' else s
  | EmptyString => EmptyString
  end.
Definition TrimSpace (s : string) : string :=
  String.rev (trim_left (String.rev (trim_left s))).

Fixpoint HasPrefix (s prefix : string) : bool :=
  match prefix, s with
  | EmptyString, _ => true
  | String p prefix', String c s' => char_eqb p c && HasPrefix s' prefix'
  | String _ _, EmptyString => false
  end.

Fixpoint drop_chars (n : nat) (s : string) : string :=
  match n, s with
  | S n', String _ s' => drop_chars n' s'
  | _, _ => s
  end.
(** [s[:n]] of a longer text *)
Fixpoint take_chars (n : nat) (s : string) : string :=
  match n, s with
  | S n', String c s' => String c (take_chars n' s')
  | _, _ => EmptyString
  end.

Definition TrimPrefix (s prefix : string) : string :=
  if HasPrefix s prefix then drop_chars (String.length prefix) s else s.

Fixpoint Contains (s sub : string) : bool :=
  HasPrefix s sub || match s with String _ s' => Contains s' sub | EmptyString => false end.

Definition cons_head (c : ascii) (l : list string) : list string :=
  match l with [] => [String c EmptyString] | x :: l' => String c x :: l' end.

(** [strings.Split(s, string(sep))]: always at least one piece. *)
Fixpoint Split (s : string) (sep : ascii) : list string :=
  match s with
  | EmptyString => [EmptyString]
  | String c s' => if char_eqb c sep then EmptyString :: Split s' sep
                   else cons_head c (Split s' sep)
  end.

(** [strings.Cut(s, string(sep))]. *)
Fixpoint Cut (s : string) (sep : ascii) : string * string * bool :=
  match s with
  | EmptyString => (EmptyString, EmptyString, false)
  | String c s' =>
      if char_eqb c sep then (EmptyString, s', true)
      else let '(before, after, found) := Cut s' sep in (String c before, after, found)
  end.

(** [strings.Fields]: the maximal runs of non-space characters. *)
Fixpoint fields_go (s : string) : list string * bool :=
  (* the boolean: does the first field start at the first character? *)
  match s with
  | EmptyString => ([], false)
  | String c s' =>
      let '(fs, touching) := fields_go s' in
      if is_space c then (fs, false)
      else if touching then (cons_head c fs, true)
      else (String c EmptyString :: fs, true)
  end.
Definition Fields (s : string) : list string := (fields_go s).1.

Fixpoint Join (l : list string) (sep : string) : string :=
  match l with
  | [] => ""
  | [x] => x
  | x :: l' => x +:+ sep +:+ Join l' sep
  end.

Fixpoint str_chars (s : string) : list ascii :=
  match s with EmptyString => [] | String c s' => c :: str_chars s' end.

Definition head_char (s : string) : option ascii :=
  match s with String c _ => Some c | EmptyString => None end.

(** ** Package strconv *)

Fixpoint digits_val (acc : Z) (s : string) : option Z :=
  match s with
  | EmptyString => Some acc
  | String c s' => if is_digit c then digits_val (acc * 10 + digit_val c) s' else None
  end.

(** [strconv.Atoi]: an optional sign and decimal digits that fit an [int]. *)
Definition Atoi (s : string) : result Z :=
  let fail := Err ("strconv.Atoi: parsing " +:+ s) in
  let '(neg, digits) :=
    match s with
    | String "-" s' => (true, s')
    | String "+" s' => (false, s')
    | _ => (false, s)
    end%char in
  match digits with
  | EmptyString => fail
  | _ => match digits_val 0 digits with
         | None => fail
         | Some n =>
             let v := if neg : bool then - n else n in
             if (min_int64 <=? v) && (v <=? max_int64) then Ok v else fail
         end
  end.

(** [%q]: a Go-quoted string (printable ASCII and the common escapes). *)
Definition hex_digit (z : Z) : ascii := of_code (if z <? 10 then 48 + z else 87 + z).
Definition quote_char (c : ascii) : string :=
  let z := code c in
  if z =? 34 then "\" +:+ String (of_code 34) "" else
  if z =? 92 then "\\" else
  if z =? 9 then "\t" else
  if z =? 10 then "\n" else
  if z =? 13 then "\r" else
  if (32 <=? z) && (z <=? 126) then String c ""
  else "\x" +:+ String (hex_digit (z / 16)) (String (hex_digit (z mod 16)) "").
Fixpoint quote_body (s : string) : string :=
  match s with EmptyString => "" | String c s' => quote_char c +:+ quote_body s' end.
Definition dquote : string := String (of_code 34) EmptyString.
Definition quote (s : string) : string := dquote +:+ quote_body s +:+ dquote.

(** ** float64, through the standard library's exact specification floats *)

Definition float64 : Type := spec_float.
Definition f64_of_Z (z : Z) : float64 :=
  match z with
  | Z0 => S754_zero false
  | Zpos _ | Zneg _ => binary_normalize 53 1024 z 0 false
  end.
Definition f64_mul : float64 -> float64 -> float64 := SFmul 53 1024.
Definition f64_div : float64 -> float64 -> float64 := SFdiv 53 1024.
Definition f64_ltb : float64 -> float64 -> bool := SFltb.
Definition f64_leb : float64 -> float64 -> bool := SFleb.

(** [uint64(x)] of a non-negative finite float: truncation. *)
Definition f64_to_uint (x : float64) : Z :=
  match x with
  | S754_finite false m e => Z.shiftl (Zpos m) e
  | _ => 0
  end.

Definition f64_add : float64 -> float64 -> float64 := SFadd 53 1024.

(** [int(x)] of a finite float in range: truncation toward zero. *)
Definition f64_to_int (x : float64) : Z :=
  match x with
  | S754_finite s m e => let n := Z.shiftl (Zpos m) e in if s then - n else n
  | _ => 0
  end.

(** [d.Seconds()] *)
Definition Duration_Seconds (d : Duration) : float64 :=
  f64_add (f64_of_Z (Z.quot d Second)) (f64_div (f64_of_Z (Z.rem d Second)) (f64_of_Z Second)).

(** ** time.ParseDuration *)

Definition duration_unit (u : string) : option Z :=
  if u =s "ns" then Some Nanosecond else
  if (u =s "us") || (u =s "µs") || (u =s "μs") then Some Microsecond else
  if u =s "ms" then Some Millisecond else
  if u =s "s" then Some Second else
  if u =s "m" then Some Minute else
  if u =s "h" then Some Hour else None.

(** [leadingInt]: the leading digits, or an overflow. *)
Fixpoint leading_int (x : Z) (s : string) : option (Z * string) :=
  match s with
  | String c s' =>
      if is_digit c then
        if (2 ^ 63 / 10 <? x) || (2 ^ 63 <? x * 10 + digit_val c) then None
        else leading_int (x * 10 + digit_val c) s'
      else Some (x, s)
  | EmptyString => Some (x, s)
  end.

(** [leadingFraction]: digits past the precision of an [int64] are dropped. *)
Fixpoint leading_fraction (x : Z) (scale : float64) (overflow : bool) (s : string)
    : Z * float64 * string :=
  match s with
  | String c s' =>
      if is_digit c then
        if overflow || (max_int64 / 10 <? x) || (2 ^ 63 <? x * 10 + digit_val c)
        then leading_fraction x scale true s'
        else leading_fraction (x * 10 + digit_val c) (f64_mul scale (f64_of_Z 10)) false s'
      else (x, scale, s)
  | EmptyString => (x, scale, s)
  end.

(** The unit: everything up to the next dot or digit. *)
Fixpoint unit_prefix (s : string) : string * string :=
  match s with
  | String c s' => if is_digit c || char_eqb c "."%char then (EmptyString, s)
                   else let '(u, rest) := unit_prefix s' in (String c u, rest)
  | EmptyString => (EmptyString, EmptyString)
  end.

(** One [number unit] group: the nanoseconds it stands for and the rest. *)
Definition duration_group (s : string) : option (Z * string) :=
  match leading_int 0 s with
  | None => None
  | Some (v, s1) =>
      let pre := negb (Nat.eqb (String.length s) (String.length s1)) in
      let '(f, scale, s2, post) :=
        match s1 with
        | String "." s1' =>
            let '(f, scale, s2) := leading_fraction 0 (f64_of_Z 1) false s1' in
            (f, scale, s2, negb (Nat.eqb (String.length s1') (String.length s2)))
        | _ => (0, f64_of_Z 1, s1, false)
        end%char in
      if negb pre && negb post then None else
      let '(u, rest) := unit_prefix s2 in
      match duration_unit u with
      | None => None
      | Some unit_ns =>
          if 2 ^ 63 / unit_ns <? v then None else
          let whole := v * unit_ns in
          let total :=
            if 0 <? f
            then whole + f64_to_uint (f64_mul (f64_of_Z f) (f64_div (f64_of_Z unit_ns) scale))
            else whole in
          if 2 ^ 63 <? total then None else Some (total, rest)
      end
  end.

(** The groups; each consumes a character, so the length is enough fuel. *)
Fixpoint duration_groups (fuel : nat) (acc : Z) (s : string) : option Z :=
  match s, fuel with
  | EmptyString, _ => Some acc
  | _, O => None
  | String c _, S fuel' =>
      if is_digit c || char_eqb c "."%char then
        match duration_group s with
        | None => None
        | Some (v, rest) =>
            if 2 ^ 63 <? acc + v then None else duration_groups fuel' (acc + v) rest
        end
      else None
  end.

Definition ParseDuration (text : string) : result Duration :=
  let fail := Err ("time: invalid duration " +:+ quote text) in
  let '(neg, s) :=
    match text with
    | String "-" s' => (true, s')
    | String "+" s' => (false, s')
    | _ => (false, text)
    end%char in
  if s =s "0" then Ok 0 else
  match s with
  | EmptyString => fail
  | _ => match duration_groups (String.length s) 0 s with
         | None => fail
         | Some d => if neg : bool then Ok (- d)
                     else if max_int64 <? d then fail else Ok d
         end
  end.

Example durations :
  ParseDuration "1h30m" = Ok (90 * Minute) /\ ParseDuration "1.5h" = Ok (90 * Minute) /\
  ParseDuration "-250ms" = Ok (- 250 * Millisecond) /\ is_ok (ParseDuration "90") = false.
Proof. by vm_compute. Qed.

(** ** Sorting strings: [sort.Strings] *)

Fixpoint insert_sorted (x : string) (l : list string) : list string :=
  match l with
  | [] => [x]
  | y :: l' => if String.leb x y then x :: l else y :: insert_sorted x l'
  end.
Definition sort_strings (l : list string) : list string := foldr insert_sorted [] l.

(** ** The characters of a text *)

Lemma str_chars_rev_app s t : str_chars (String.rev_app s t) = rev (str_chars s) ++ str_chars t.
Proof.
  revert t. induction s as [|c s IH]; intros t; simpl; [done|]. by rewrite IH, <- app_assoc.
Qed.

Lemma str_chars_app s t : str_chars (s +:+ t) = str_chars s ++ str_chars t.
Proof. induction s as [|c s IH]; simpl; [done|by rewrite IH]. Qed.

Lemma str_chars_rev_eq s : str_chars (String.rev s) = rev (str_chars s).
Proof. unfold String.rev. by rewrite str_chars_rev_app, app_nil_r. Qed.

Lemma str_chars_inj s t : str_chars s = str_chars t -> s = t.
Proof.
  revert t. induction s as [|c s IH]; intros [|d t] E; try done.
  injection E as -> E. by rewrite (IH t E).
Qed.

Lemma trim_left_id s : (forall c, head (str_chars s) = Some c -> is_space c = false) ->
  trim_left s = s.
Proof. destruct s as [|c s]; [done|]. intros H. cbn. by rewrite (H c eq_refl). Qed.

(** A text that neither starts nor ends with a space is trimmed to itself. *)
Lemma TrimSpace_id s :
  (forall c, head (str_chars s) = Some c -> is_space c = false) ->
  (forall c, last (str_chars s) = Some c -> is_space c = false) -> TrimSpace s = s.
Proof.
  intros Hh Hl. unfold TrimSpace. rewrite (trim_left_id s Hh), trim_left_id.
  - apply str_chars_inj. by rewrite !str_chars_rev_eq, rev_involutive.
  - intros c. rewrite str_chars_rev_eq, <- last_reverse. unfold reverse.
    rewrite <- rev_alt, rev_involutive. apply Hl.
Qed.
