(* ===== verification/PolicyTypes.v ===== *)
(** * The vocabulary of the policy gate

    internal/policy/types.go, the data types of document.go, budget.go,
    autonomy.go, agent_gate.go, facts.go and verification_wait.go.

    Go's string types whose values come from stored documents, contracts and
    requests (risk tiers, guardrails, change classes, trust levels, reasons)
    stay strings, because the code has to handle unknown ones; [Verdict], which
    only the gate and the agent decider produce, is an inductive type with a
    constructor for any other string. *)

From S2P Require Import Prelude.
From S2P Require Import GoStd.

(** ** Verdicts, tiers, reasons *)

Inductive Verdict : Type :=
| VerdictExecute
| VerdictQueueApproval
| VerdictPark
| VerdictBlocked
| VerdictObserveOnly
| VerdictOther (s : string).

#[export] Instance Verdict_eq_dec : EqDecision Verdict.
Proof. solve_decision. Defined.

Definition verdict_eqb (a b : Verdict) : bool := bool_decide (a = b).

Abbreviation RiskTier := string (only parsing).
Definition RiskReadOnly : RiskTier := "read_only".
Definition RiskSafe : RiskTier := "safe".
Definition RiskModerate : RiskTier := "moderate".
Definition RiskHigh : RiskTier := "high".

Abbreviation Guardrail := string (only parsing).
Definition GuardrailApprovalRequired : Guardrail := "approval_required".

Abbreviation Reason := string (only parsing).
Definition ReasonAuthorized : Reason := "authorized".
Definition ReasonExecutorDisabled : Reason := "executor_disabled".
Definition ReasonEmergencyStop : Reason := "emergency_stop".
Definition ReasonReplicaMutation : Reason := "replica_mutation".
Definition ReasonNoTypedContract : Reason := "no_typed_contract".
Definition ReasonObserveOnly : Reason := "observe_only".
Definition ReasonPolicyUnavailable : Reason := "policy_unavailable".
Definition ReasonApprovalRequired : Reason := "approval_required".
Definition ReasonUnknownGuardrail : Reason := "unknown_guardrail".
Definition ReasonBudgetExceeded : Reason := "budget_exceeded".
Definition ReasonBlastRadiusExceeded : Reason := "blast_radius_exceeded".
Definition ReasonRateLimitExceeded : Reason := "rate_limit_exceeded".
Definition ReasonOutsideMaintenanceWindow : Reason := "outside_maintenance_window".
Definition ReasonDeadlineOverride : Reason := "deadline_override".
Definition ReasonUnknownRiskTier : Reason := "unknown_risk_tier".
Definition ReasonChangeClassNotAllowed : Reason := "change_class_not_allowed".
Definition ReasonTrustRampNotSatisfied : Reason := "trust_ramp_not_satisfied".
Definition ReasonProviderUnsupported : Reason := "provider_unsupported".
Definition ReasonOperatorApproved : Reason := "operator_approved".
Definition ReasonUnknownTrustLevel : Reason := "unknown_trust_level".
Definition ReasonSQLValidationDegraded : Reason := "sql_validation_degraded".
Definition ReasonRefusedByPolicy : Reason := "refused_by_policy".
Definition ReasonDDLConflict : Reason := "ddl_conflict".
Definition ReasonNarrowing : Reason := "narrowing".
Definition ReasonNarrowingDuringStop : Reason := "narrowing_during_stop".

(** autonomy.go, agent_gate.go, facts.go, verification_wait.go *)
Definition ReasonAutonomyLevel : Reason := "autonomy_level".
Definition ReasonAutonomyHandoff : Reason := "autonomy_handoff".
Definition ReasonAutonomyL3 : Reason := "autonomy_l3".
Definition ReasonAutonomyDowngraded : Reason := "autonomy_downgraded".
Definition ReasonAutonomyUnavailable : Reason := "autonomy_unavailable".
Definition ReasonAgentLevel0 : Reason := "agent_level0".
Definition ReasonAgentProposalRecorded : Reason := "agent_proposal_recorded".
Definition ReasonAgentL3Envelope : Reason := "agent_l3_envelope".
Definition ReasonBoundByFact : Reason := "bound_by_fact".
Definition ReasonFactsUnavailable : Reason := "facts_unavailable".
Definition ReasonAwaitingVerification : Reason := "awaiting_verification".

Abbreviation RollbackClass := string (only parsing).
Definition RollbackReversible : RollbackClass := "reversible".
Definition RollbackNoRollbackNeeded : RollbackClass := "no_rollback_needed".
Definition RollbackNotApplicable : RollbackClass := "not_applicable".
Definition RollbackApplication : RollbackClass := "application_rollback".
Definition RollbackForwardFixOnly : RollbackClass := "forward_fix_only".
Definition RollbackNotReversible : RollbackClass := "not_reversible".
Definition RollbackMitigationOnly : RollbackClass := "mitigation_only".

Abbreviation DropKind := string (only parsing).
Definition DropDerivable : DropKind := "derivable".
Definition DropNonDerivable : DropKind := "non_derivable".

Abbreviation DeadlineKind := string (only parsing).
Definition DeadlineXID : DeadlineKind := "xid".
Definition DeadlineDisk : DeadlineKind := "disk".

Abbreviation Urgency := string (only parsing).
Definition UrgencyCritical : Urgency := "critical".

Definition TrustObservation : string := "observation".
Definition TrustAdvisory : string := "advisory".
Definition TrustAutonomous : string := "autonomous".
Definition ExecutionAuto : string := "auto".
Definition ExecutionApproval : string := "approval".
Definition ExecutionManual : string := "manual".

(** ** Requests *)

Record DeadlineContext : Type := {
  dl_Kind : DeadlineKind;
  dl_Urgency : Urgency;
  dl_HardAt : Time;
}.

Record ActionContract : Type := {
  ac_ActionType : string;
  ac_RiskTier : RiskTier;
  ac_Guardrails : list Guardrail;
  ac_ProviderSupport : list string;
  ac_RollbackClass : RollbackClass;
  ac_DropKind : DropKind;
  ac_Narrowing : bool;
}.

Record PrincipalRef : Type := {
  pr_ID : string;
  pr_SponsorID : Z;
  pr_TaskID : string;
  pr_OnBehalfOf : string;
  pr_Tool : string;
}.

(** A nil pointer is [None].  [Arguments] (raw JSON) and [Evidence] are carried
    but never read by the gate. *)
Record ActionRequest : Type := {
  req_DatabaseID : option Z;
  req_Contract : option ActionContract;
  req_Arguments : string;
  req_InternalControl : bool;
  req_SQL : string;
  req_TargetObjs : list string;
  req_Feature : string;
  req_Deadline : option DeadlineContext;
  req_Evidence : gmap string string;
  req_IsReplica : bool;
  req_ExplainFamily : bool;
  req_OperatorApproved : bool;
  req_OwnerDeclared : bool;
  req_IncidentFamily : string;
  req_EvidenceObservedAt : Time;
  req_LeaseHeld : bool;
  req_Rollback : bool;
  req_Principal : option PrincipalRef;
  req_CapabilityClass : string;
  req_ArtifactHash : string;
}.

(** The two fields the gate itself fills in. *)
Definition set_ExplainFamily (b : bool) (r : ActionRequest) : ActionRequest :=
  {| req_DatabaseID := req_DatabaseID r; req_Contract := req_Contract r;
     req_Arguments := req_Arguments r; req_InternalControl := req_InternalControl r;
     req_SQL := req_SQL r; req_TargetObjs := req_TargetObjs r; req_Feature := req_Feature r;
     req_Deadline := req_Deadline r; req_Evidence := req_Evidence r;
     req_IsReplica := req_IsReplica r; req_ExplainFamily := b;
     req_OperatorApproved := req_OperatorApproved r; req_OwnerDeclared := req_OwnerDeclared r;
     req_IncidentFamily := req_IncidentFamily r;
     req_EvidenceObservedAt := req_EvidenceObservedAt r; req_LeaseHeld := req_LeaseHeld r;
     req_Rollback := req_Rollback r; req_Principal := req_Principal r;
     req_CapabilityClass := req_CapabilityClass r; req_ArtifactHash := req_ArtifactHash r |}.

Definition set_Principal (p : option PrincipalRef) (r : ActionRequest) : ActionRequest :=
  {| req_DatabaseID := req_DatabaseID r; req_Contract := req_Contract r;
     req_Arguments := req_Arguments r; req_InternalControl := req_InternalControl r;
     req_SQL := req_SQL r; req_TargetObjs := req_TargetObjs r; req_Feature := req_Feature r;
     req_Deadline := req_Deadline r; req_Evidence := req_Evidence r;
     req_IsReplica := req_IsReplica r; req_ExplainFamily := req_ExplainFamily r;
     req_OperatorApproved := req_OperatorApproved r; req_OwnerDeclared := req_OwnerDeclared r;
     req_IncidentFamily := req_IncidentFamily r;
     req_EvidenceObservedAt := req_EvidenceObservedAt r; req_LeaseHeld := req_LeaseHeld r;
     req_Rollback := req_Rollback r; req_Principal := p;
     req_CapabilityClass := req_CapabilityClass r; req_ArtifactHash := req_ArtifactHash r |}.

(** ** Decisions *)

Abbreviation BudgetKind := string (only parsing).
Definition BudgetPerformance : BudgetKind := "performance".
Definition BudgetHygiene : BudgetKind := "hygiene".
Definition BudgetBypass : BudgetKind := "bypass".

Record TrustedVerdict : Type := {
  tv_Verdict : Verdict;
  tv_Reason : Reason;
  tv_Detail : string;
  tv_Granted : Z;
  tv_Level : Z;
}.

Record PendingVerification : Type := {
  pv_ActionID : Z;
  pv_DecisionID : Z;
  pv_Object : string;
  pv_Until : Time;
  pv_HardDeadline : Time;
  pv_Release : string;
}.

Record VerificationWait : Type := {
  vw_Pending : list PendingVerification;
  vw_Released : list PendingVerification;
  vw_Overridden : bool;
}.

Record Decision : Type := {
  dec_Verdict : Verdict;
  dec_RiskTier : RiskTier;
  dec_Reason : Reason;
  dec_Detail : string;
  dec_Guardrails : list Guardrail;
  dec_OffWindowOK : bool;
  dec_EvidenceID : string;
  dec_DecisionID : Z;
  dec_LockCeilingMS : Z;
  dec_SerializeMode : string;
  dec_BudgetKind : BudgetKind;
  dec_RowsRewritten : Z;
  dec_Trusted : option TrustedVerdict;
  dec_VerificationWait : option VerificationWait;
}.

(** [Decision{Verdict: v, Reason: r, Detail: d}]. *)
Definition mk_decision (v : Verdict) (r : Reason) (d : string) : Decision :=
  {| dec_Verdict := v; dec_RiskTier := ""; dec_Reason := r; dec_Detail := d;
     dec_Guardrails := []; dec_OffWindowOK := false; dec_EvidenceID := ""; dec_DecisionID := 0;
     dec_LockCeilingMS := 0; dec_SerializeMode := ""; dec_BudgetKind := "";
     dec_RowsRewritten := 0; dec_Trusted := None; dec_VerificationWait := None |}.

(** Assignments to the fields of a decision. *)
Definition set_verdict_fields (risk : RiskTier) (guards : list Guardrail) (d : Decision) :=
  {| dec_Verdict := dec_Verdict d; dec_RiskTier := risk; dec_Reason := dec_Reason d;
     dec_Detail := dec_Detail d; dec_Guardrails := guards;
     dec_OffWindowOK := dec_OffWindowOK d; dec_EvidenceID := dec_EvidenceID d;
     dec_DecisionID := dec_DecisionID d; dec_LockCeilingMS := dec_LockCeilingMS d;
     dec_SerializeMode := dec_SerializeMode d; dec_BudgetKind := dec_BudgetKind d;
     dec_RowsRewritten := dec_RowsRewritten d; dec_Trusted := dec_Trusted d;
     dec_VerificationWait := dec_VerificationWait d |}.

Definition set_reason_detail (reason : Reason) (off : bool) (detail : string) (d : Decision) :=
  {| dec_Verdict := dec_Verdict d; dec_RiskTier := dec_RiskTier d; dec_Reason := reason;
     dec_Detail := detail; dec_Guardrails := dec_Guardrails d;
     dec_OffWindowOK := off; dec_EvidenceID := dec_EvidenceID d;
     dec_DecisionID := dec_DecisionID d; dec_LockCeilingMS := dec_LockCeilingMS d;
     dec_SerializeMode := dec_SerializeMode d; dec_BudgetKind := dec_BudgetKind d;
     dec_RowsRewritten := dec_RowsRewritten d; dec_Trusted := dec_Trusted d;
     dec_VerificationWait := dec_VerificationWait d |}.

Definition set_Detail (detail : string) (d : Decision) : Decision :=
  set_reason_detail (dec_Reason d) (dec_OffWindowOK d) detail d.

Definition set_OffWindowOK (off : bool) (d : Decision) : Decision :=
  set_reason_detail (dec_Reason d) off (dec_Detail d) d.

Definition set_record_ids (evidence : string) (id : Z) (d : Decision) : Decision :=
  {| dec_Verdict := dec_Verdict d; dec_RiskTier := dec_RiskTier d; dec_Reason := dec_Reason d;
     dec_Detail := dec_Detail d; dec_Guardrails := dec_Guardrails d;
     dec_OffWindowOK := dec_OffWindowOK d; dec_EvidenceID := evidence; dec_DecisionID := id;
     dec_LockCeilingMS := dec_LockCeilingMS d;
     dec_SerializeMode := dec_SerializeMode d; dec_BudgetKind := dec_BudgetKind d;
     dec_RowsRewritten := dec_RowsRewritten d; dec_Trusted := dec_Trusted d;
     dec_VerificationWait := dec_VerificationWait d |}.

Definition set_bounds (ceiling : Z) (mode : string) (d : Decision) : Decision :=
  {| dec_Verdict := dec_Verdict d; dec_RiskTier := dec_RiskTier d; dec_Reason := dec_Reason d;
     dec_Detail := dec_Detail d; dec_Guardrails := dec_Guardrails d;
     dec_OffWindowOK := dec_OffWindowOK d; dec_EvidenceID := dec_EvidenceID d;
     dec_DecisionID := dec_DecisionID d; dec_LockCeilingMS := ceiling;
     dec_SerializeMode := mode; dec_BudgetKind := dec_BudgetKind d;
     dec_RowsRewritten := dec_RowsRewritten d; dec_Trusted := dec_Trusted d;
     dec_VerificationWait := dec_VerificationWait d |}.

Definition set_budget (kind : BudgetKind) (rows : Z) (d : Decision) : Decision :=
  {| dec_Verdict := dec_Verdict d; dec_RiskTier := dec_RiskTier d; dec_Reason := dec_Reason d;
     dec_Detail := dec_Detail d; dec_Guardrails := dec_Guardrails d;
     dec_OffWindowOK := dec_OffWindowOK d; dec_EvidenceID := dec_EvidenceID d;
     dec_DecisionID := dec_DecisionID d; dec_LockCeilingMS := dec_LockCeilingMS d;
     dec_SerializeMode := dec_SerializeMode d; dec_BudgetKind := kind;
     dec_RowsRewritten := rows; dec_Trusted := dec_Trusted d;
     dec_VerificationWait := dec_VerificationWait d |}.

Definition set_Trusted (t : option TrustedVerdict) (d : Decision) : Decision :=
  {| dec_Verdict := dec_Verdict d; dec_RiskTier := dec_RiskTier d; dec_Reason := dec_Reason d;
     dec_Detail := dec_Detail d; dec_Guardrails := dec_Guardrails d;
     dec_OffWindowOK := dec_OffWindowOK d; dec_EvidenceID := dec_EvidenceID d;
     dec_DecisionID := dec_DecisionID d; dec_LockCeilingMS := dec_LockCeilingMS d;
     dec_SerializeMode := dec_SerializeMode d; dec_BudgetKind := dec_BudgetKind d;
     dec_RowsRewritten := dec_RowsRewritten d; dec_Trusted := t;
     dec_VerificationWait := dec_VerificationWait d |}.

Definition set_VerificationWait (w : VerificationWait) (d : Decision) : Decision :=
  {| dec_Verdict := dec_Verdict d; dec_RiskTier := dec_RiskTier d; dec_Reason := dec_Reason d;
     dec_Detail := dec_Detail d; dec_Guardrails := dec_Guardrails d;
     dec_OffWindowOK := dec_OffWindowOK d; dec_EvidenceID := dec_EvidenceID d;
     dec_DecisionID := dec_DecisionID d; dec_LockCeilingMS := dec_LockCeilingMS d;
     dec_SerializeMode := dec_SerializeMode d; dec_BudgetKind := dec_BudgetKind d;
     dec_RowsRewritten := dec_RowsRewritten d; dec_Trusted := dec_Trusted d;
     dec_VerificationWait := Some w |}.

Definition set_Overridden (w : VerificationWait) : VerificationWait :=
  {| vw_Pending := vw_Pending w; vw_Released := vw_Released w; vw_Overridden := true |}.

(** The decision constructors of gate.go and budget.go. *)
Definition blocked (reason : Reason) (detail : string) : Decision :=
  mk_decision VerdictBlocked reason detail.
Definition blockedAs (verdict : Verdict) (reason : Reason) : Decision :=
  mk_decision verdict reason "".
Definition parked (reason : Reason) (detail : string) : Decision :=
  mk_decision VerdictPark reason detail.

Definition decisionForRequest (req : ActionRequest) (decision : Decision) : Decision :=
  match req_Contract req with
  | None => decision
  | Some c => set_verdict_fields (ac_RiskTier c) (ac_Guardrails c) decision
  end.

(** ** The runtime snapshot and the usage of the rolling window *)

Record RuntimeState : Type := {
  rt_ExecutorEnabled : bool;
  rt_EmergencyStop : bool;
  rt_IsReplica : bool;
  rt_TrustLevel : string;
  rt_ExecutionMode : string;
  rt_Tier3Safe : bool;
  rt_Tier3Moderate : bool;
  rt_RampStart : Time;
  rt_SafeRampAge : Duration;
  rt_ModerateRampAge : Duration;
  rt_InConfiguredWindow : bool;
  rt_Provider : string;
  rt_WindowConfigured : bool;
  rt_SQLValidationDegraded : bool;
}.

Record LimitUsage : Type := {
  lu_StorageBytes : Z;
  lu_RowsRewritten : Z;
  lu_RequestRowsRewritten : Z;
  lu_TablesInWindow : Z;
  lu_SelfInitiatedChangesInWindow : Z;
  lu_TablesFreeAt : Time;
  lu_ChangesFreeAt : Time;
  lu_RowsFreeAt : Time;
}.

Definition zero_usage : LimitUsage :=
  {| lu_StorageBytes := 0; lu_RowsRewritten := 0; lu_RequestRowsRewritten := 0;
     lu_TablesInWindow := 0; lu_SelfInitiatedChangesInWindow := 0; lu_TablesFreeAt := 0;
     lu_ChangesFreeAt := 0; lu_RowsFreeAt := 0 |}.

(** ** Policy documents *)

Abbreviation ChangeClass := string (only parsing).
Definition ChangeIndex : ChangeClass := "index".
Definition ChangeAnalyze : ChangeClass := "analyze".
Definition ChangeVacuum : ChangeClass := "vacuum".
Definition ChangeFreeze : ChangeClass := "freeze".
Definition ChangeAutovacuumTuning : ChangeClass := "autovacuum_tuning".
Definition ChangeConfigGUC : ChangeClass := "config_guc".
Definition ChangeRetention : ChangeClass := "retention".
Definition ChangeFKIndex : ChangeClass := "fk_index".
Definition ChangeOnlineMigration : ChangeClass := "online_migration".
Definition ChangeBackendSignal : ChangeClass := "backend_signal".
Definition ChangeQueryHint : ChangeClass := "query_hint".
Definition ChangeSchemaChange : ChangeClass := "schema_change".
Definition ChangeAgentAccess : ChangeClass := "agent_access".
Definition ChangeAgentDataWrite : ChangeClass := "agent_data_write".
Definition ChangeAgentSchemaChange : ChangeClass := "agent_schema_change".
Definition ChangeAgentMaintenance : ChangeClass := "agent_maintenance".
Definition ChangeAgentSandbox : ChangeClass := "agent_sandbox".
Definition ChangeAgentEstate : ChangeClass := "agent_estate".

Abbreviation Profile := string (only parsing).
Definition ProfileStaffed : Profile := "staffed".
Definition ProfileUnattended : Profile := "unattended".

(** [bl_Present] with no value is the JSON [null]: no cap. *)
Record BudgetLimit : Type := {
  bl_Present : bool;
  bl_value : option Z;
}.
Definition NewBudgetLimit (value : Z) : BudgetLimit :=
  {| bl_Present := true; bl_value := Some value |}.
Definition NoCapBudget : BudgetLimit := {| bl_Present := true; bl_value := None |}.
Definition NoCap (l : BudgetLimit) : bool :=
  bl_Present l && match bl_value l with None => true | Some _ => false end.

Record Budgets : Type := {
  bu_StorageBytes : BudgetLimit;
  bu_SpendDaily : BudgetLimit;
  bu_LLMTokensDaily : BudgetLimit;
}.

Record KindBudget : Type := {
  kb_MaxTablesPerWindow : Z;
  kb_MaxChangesPerWindow : Z;
}.

Record BlastRadius : Type := {
  br_MaxRowsRewritten : Z;
  br_MaxTablesPerWindow : Z;
  br_Hygiene : KindBudget;
}.

(** [RateLimits] has the single field
    [MaxSelfInitiatedChangesPerWindow], kept in the document itself. *)
Record Document : Type := {
  doc_Profile : Profile;
  doc_AllowedChangeClasses : list ChangeClass;
  doc_ApprovalRequiredClasses : list ChangeClass;
  doc_MaintenanceWindows : list string;
  doc_LockDurationCeilingMS : Z;
  doc_BlastRadius : BlastRadius;
  doc_Budgets : Budgets;
  doc_MaxSelfInitiatedChangesPerWindow : Z;
  doc_DeadlineOverrides : gmap DeadlineKind bool;
  doc_RefusalSet : list string;
  doc_UnknownClassification : string;
  doc_SerializeMode : string;
}.

(** Reading an absent key of a Go map gives the zero value. *)
Definition override_on (overrides : gmap DeadlineKind bool) (kind : DeadlineKind) : bool :=
  default false (overrides !! kind).

Definition containsChangeClass (classes : list ChangeClass) (target : ChangeClass) : bool :=
  str_in target classes.

(** ** Small predicates the components share *)

Definition requestIsReadOnly (req : ActionRequest) : bool :=
  match req_Contract req with Some c => ac_RiskTier c =s RiskReadOnly | None => false end.

Definition IsNarrowing (req : ActionRequest) : bool :=
  match req_Contract req with Some c => ac_Narrowing c | None => false end.

Definition knownRisk (risk : RiskTier) : bool :=
  (risk =s RiskReadOnly) || (risk =s RiskSafe) || (risk =s RiskModerate) || (risk =s RiskHigh).

(** ** Lemmas *)

Lemma decisionForRequest_verdict req d :
  dec_Verdict (decisionForRequest req d) = dec_Verdict d.
Proof. unfold decisionForRequest. by destruct (req_Contract req). Qed.

Lemma decisionForRequest_reason req d :
  dec_Reason (decisionForRequest req d) = dec_Reason d.
Proof. unfold decisionForRequest. by destruct (req_Contract req). Qed.

Lemma decisionForRequest_detail req d :
  dec_Detail (decisionForRequest req d) = dec_Detail d.
Proof. unfold decisionForRequest. by destruct (req_Contract req). Qed.

Lemma decisionForRequest_idem req d :
  decisionForRequest req (decisionForRequest req d) = decisionForRequest req d.
Proof. unfold decisionForRequest. by destruct (req_Contract req). Qed.

#[export] Hint Rewrite decisionForRequest_verdict decisionForRequest_reason
  decisionForRequest_detail : sage.

(** ** Sample values, for concrete instances *)

(** [ActionRequest{}] *)
Definition empty_request : ActionRequest :=
  {| req_DatabaseID := None; req_Contract := None; req_Arguments := "";
     req_InternalControl := false; req_SQL := ""; req_TargetObjs := []; req_Feature := "";
     req_Deadline := None; req_Evidence := ∅; req_IsReplica := false;
     req_ExplainFamily := false; req_OperatorApproved := false; req_OwnerDeclared := false;
     req_IncidentFamily := ""; req_EvidenceObservedAt := 0; req_LeaseHeld := false;
     req_Rollback := false; req_Principal := None; req_CapabilityClass := "";
     req_ArtifactHash := "" |}.

Definition sample_contract (action : string) (risk : RiskTier) (rollback : RollbackClass)
    : ActionContract :=
  {| ac_ActionType := action; ac_RiskTier := risk; ac_Guardrails := [];
     ac_ProviderSupport := []; ac_RollbackClass := rollback; ac_DropKind := "";
     ac_Narrowing := false |}.

(** A self-initiated request for one object. *)
Definition sample_request (c : ActionContract) (feature sql object : string) : ActionRequest :=
  {| req_DatabaseID := Some 1; req_Contract := Some c; req_Arguments := "";
     req_InternalControl := false; req_SQL := sql; req_TargetObjs := [object];
     req_Feature := feature; req_Deadline := None; req_Evidence := ∅; req_IsReplica := false;
     req_ExplainFamily := false; req_OperatorApproved := false; req_OwnerDeclared := false;
     req_IncidentFamily := ""; req_EvidenceObservedAt := 0; req_LeaseHeld := false;
     req_Rollback := false; req_Principal := None; req_CapabilityClass := "";
     req_ArtifactHash := "" |}.

Definition sample_runtime (trust mode : string) : RuntimeState :=
  {| rt_ExecutorEnabled := true; rt_EmergencyStop := false; rt_IsReplica := false;
     rt_TrustLevel := trust; rt_ExecutionMode := mode; rt_Tier3Safe := true;
     rt_Tier3Moderate := true; rt_RampStart := 1; rt_SafeRampAge := 0;
     rt_ModerateRampAge := 0; rt_InConfiguredWindow := true; rt_Provider := "";
     rt_WindowConfigured := false; rt_SQLValidationDegraded := false |}.

(** One table and two changes of each kind per window, index changes only. *)
Definition sample_document : Document :=
  {| doc_Profile := ProfileUnattended; doc_AllowedChangeClasses := [ChangeIndex];
     doc_ApprovalRequiredClasses := []; doc_MaintenanceWindows := ["always"];
     doc_LockDurationCeilingMS := 3000;
     doc_BlastRadius := {| br_MaxRowsRewritten := 1000; br_MaxTablesPerWindow := 1;
       br_Hygiene := {| kb_MaxTablesPerWindow := 1; kb_MaxChangesPerWindow := 2 |} |};
     doc_Budgets := {| bu_StorageBytes := NoCapBudget; bu_SpendDaily := NoCapBudget;
       bu_LLMTokensDaily := NewBudgetLimit 500000 |};
     doc_MaxSelfInitiatedChangesPerWindow := 2;
     doc_DeadlineOverrides := {[DeadlineDisk := true]};
     doc_RefusalSet := ["rls_change"; "grant_expansion"];
     doc_UnknownClassification := "fail_closed"; doc_SerializeMode := "park" |}.
