(* ===== verification/Window.v ===== *)
(** * Maintenance windows

    internal/policy/window.go, window_days.go and window_cron.go: the grammar
    of window expressions and what instants a parsed window contains. *)

From S2P Require Import Prelude.
From S2P Require Import GoStd.

(** ** Days: window_days.go *)

(** A [map[time.Weekday]bool] built by assignments of [true] is the set of its
    keys. *)
Abbreviation DaySet := (gset Z) (only parsing).

Definition weekdayDays : DaySet := {[ Monday; Tuesday; Wednesday; Thursday; Friday ]}.
Definition weekendDays : DaySet := {[ Saturday; Sunday ]}.

(** [for day := time.Sunday; day <= time.Saturday; day++ { days[day] = true }] *)
Definition allDays : DaySet := list_to_set (seqZ Sunday 7).

Definition dayNumber (name : string) : option Z :=
  let n := ToLower name in
  if str_in n ["sun"; "sunday"] then Some Sunday else
  if str_in n ["mon"; "monday"] then Some Monday else
  if str_in n ["tue"; "tues"; "tuesday"] then Some Tuesday else
  if str_in n ["wed"; "weds"; "wednesday"] then Some Wednesday else
  if str_in n ["thu"; "thur"; "thurs"; "thursday"] then Some Thursday else
  if str_in n ["fri"; "friday"] then Some Friday else
  if str_in n ["sat"; "saturday"] then Some Saturday else None.

(** [for day := start; ; day = (day + 1) % 7 { days[day] = true; if day == end
    { return true } }]; [None] when the fuel runs out. *)
Fixpoint fill_days (fuel : nat) (day end_ : Z) (days : DaySet) : option DaySet :=
  match fuel with
  | O => None
  | S fuel' =>
      let days' := {[ day ]} ∪ days in
      if day =? end_ then Some days' else fill_days fuel' ((day + 1) mod 7) end_ days'
  end.

(** Seven steps reach every weekday ([fill_days_spec]). *)
Definition addDayPart (days : DaySet) (part : string) : option DaySet :=
  let '(startText, endText, isRange) := Cut part "-" in
  match dayNumber startText with
  | None => None
  | Some start =>
      if negb isRange then Some ({[ start ]} ∪ days) else
      match dayNumber endText with
      | None => None
      | Some end_ => fill_days 7 start end_ days
      end
  end.

Fixpoint addDayParts (days : DaySet) (parts : list string) : option DaySet :=
  match parts with
  | [] => Some days
  | part :: parts' =>
      match addDayPart days part with
      | None => None
      | Some days' => addDayParts days' parts'
      end
  end.

Definition parseDaySpec (spec : string) : option DaySet :=
  let s := ToLower spec in
  if str_in s ["daily"; "everyday"; "every-day"; "all"; "all-days"] then Some allDays else
  if str_in s ["weekdays"; "weekday"] then Some weekdayDays else
  if str_in s ["weekends"; "weekend"] then Some weekendDays else
  addDayParts ∅ (Split spec ",").

(** ** Clock ranges: window.go *)

Record minuteRange : Type := { mr_start : Z; mr_end : Z }.

Definition range_contains (r : minuteRange) (minute : Z) : bool :=
  if mr_start r <=? mr_end r
  then (mr_start r <=? minute) && (minute <? mr_end r)
  else (mr_start r <=? minute) || (minute <? mr_end r).

Definition fullDayRange : minuteRange := {| mr_start := 0; mr_end := 24 * 60 |}.

(** [for _, char := range value]: a rune outside '0'..'9' is an error whether
    it is one byte or several. *)
Definition parseDigits (value : string) : result Z :=
  if (value =s "") || (2 <? Z.of_nat (String.length value)) then Err "invalid"
  else match digits_val 0 value with Some n => Ok n | None => Err "invalid" end.

Definition parseClock (value : string) : result Z :=
  let '(hourText, minuteText, found) := Cut value ":" in
  let fail := Err ("clock " +:+ quote value +:+ " is not HH:MM (00:00-23:59)") in
  match parseDigits hourText, parseDigits minuteText with
  | Ok hour, Ok minute =>
      if negb found || (23 <? hour) || (59 <? minute) then fail else Ok (hour * 60 + minute)
  | _, _ => fail
  end.

Definition parseClockRange (value : string) : result minuteRange :=
  match Split value "-" with
  | [startText; endText] =>
      let? start := parseClock startText in
      let? end_ := parseClock endText in
      if start =? end_ then Err ("range " +:+ quote value +:+ " has zero duration")
      else Ok {| mr_start := start; mr_end := end_ |}
  | _ => Err ("range " +:+ quote value +:+ " is not HH:MM-HH:MM")
  end.

(** A window's test, on an instant and the location its wall clock is read in. *)
Abbreviation WindowTest := (Time -> Location -> bool) (only parsing).

Definition dayWindow (days : DaySet) (active : minuteRange) : WindowTest := fun at_ loc =>
  let minute := time_Hour at_ loc * 60 + time_Minute at_ loc in
  let day := time_Weekday at_ loc in
  let day := if (mr_end active <? mr_start active) && (minute <? mr_end active)
             then (day + 6) mod 7 else day in
  bool_decide (day ∈ days) && range_contains active minute.

Definition parseFriendlyWindow (fields : list string) : result WindowTest :=
  match fields with
  | [f] =>
      if Contains f ":" then
        let? active := parseClockRange f in Ok (dayWindow allDays active)
      else match parseDaySpec f with
           | None => Err (quote f +:+ " is not a day list or preset")
           | Some days => Ok (dayWindow days fullDayRange)
           end
  | [f; g] =>
      match parseDaySpec f with
      | None => Err (quote f +:+ " is not a day list or preset")
      | Some days => let? active := parseClockRange g in Ok (dayWindow days active)
      end
  | _ => Err "is not a recognized window"
  end.

Definition windowPresets : list (string * string) :=
  [("nights", "daily 22:00-06:00"); ("nightly", "daily 22:00-06:00");
   ("overnight", "daily 22:00-06:00"); ("weeknights", "weekdays 22:00-06:00");
   ("off-hours", "daily 20:00-08:00"); ("off-peak", "daily 20:00-08:00");
   ("business-hours", "weekdays 09:00-17:00")].

Definition preset (token : string) : option string :=
  snd <$> List.find (fun p => p.1 =s token) windowPresets.

Definition keywordWindow (token : string) : option WindowTest :=
  if str_in (ToLower token) ["always"; "anytime"; "24x7"; "24/7"]
  then Some (fun _ _ => true)
  else match preset (ToLower token) with
       | Some expansion =>
           match parseFriendlyWindow (Fields expansion) with
           | Ok contains => Some contains
           | Err _ => None
           end
       | None => None
       end.

(** ** Cron windows: window_cron.go *)

Record cronField : Type := { cf_values : gset Z; cf_wildcard : bool }.

Record cronWindow : Type := {
  cw_minute : cronField;
  cw_hour : cronField;
  cw_day : cronField;
  cw_month : cronField;
  cw_week : cronField;
}.

Definition defaultCronWidth : Duration := Hour.
Definition maxCronWidth : Duration := 24 * Hour.

Definition parseCronWidth (token : string) : result Duration :=
  let fail := Err ("duration " +:+ quote token +:+
                   " must be whole minutes from @1m to @24h") in
  match ParseDuration (ToLower (TrimPrefix token "@")) with
  | Err _ => fail
  | Ok width =>
      if (width <? Minute) || (maxCronWidth <? width) || negb (width mod Minute =? 0)
      then fail else Ok width
  end.

Definition boundedInteger (value : string) (minValue maxValue : Z) : result Z :=
  let fail := Err ("value " +:+ quote value +:+ " is outside " +:+ itoa minValue +:+ "-"
                   +:+ itoa maxValue) in
  match Atoi value with
  | Err _ => fail
  | Ok number => if (number <? minValue) || (maxValue <? number) then fail else Ok number
  end.

Definition cronBounds (base : string) (minValue maxValue : Z) : result (Z * Z) :=
  if base =s "*" then Ok (minValue, maxValue) else
  match Split base "-" with
  | [p] => let? start := boundedInteger p minValue maxValue in Ok (start, start)
  | [p; q] =>
      let? start := boundedInteger p minValue maxValue in
      match boundedInteger q minValue maxValue with
      | Err _ => Err ("invalid range " +:+ quote base)
      | Ok end_ => if end_ <? start then Err ("invalid range " +:+ quote base)
                   else Ok (start, end_)
      end
  | _ => Err ("invalid range " +:+ quote base)
  end.

Definition splitStep (item : string) : result (string * Z) :=
  match Split item "/" with
  | [base] => Ok (base, 1)
  | [base; stepText] =>
      match Atoi stepText with
      | Err _ => Err ("invalid step " +:+ quote item)
      | Ok step => if step <=? 0 then Err ("invalid step " +:+ quote item) else Ok (base, step)
      end
  | _ => Err ("invalid step " +:+ quote item)
  end.

(** [for value := start; value <= end; value += step { field.values[value] =
    true }] on 64-bit integers; [None] when the fuel runs out. *)
Fixpoint fill_values (fuel : nat) (value end_ step : Z) (values : gset Z) : option (gset Z) :=
  if value <=? end_ then
    match fuel with
    | O => None
    | S fuel' => fill_values fuel' (wrap64 (value + step)) end_ step ({[ value ]} ∪ values)
    end
  else Some values.

(** More steps than any field needs, wrap-around included
    ([fill_values_terminates]). *)
Definition cron_fuel : nat := 128.

Definition addCronItem (values : gset Z) (item : string) (minValue maxValue : Z)
    : result (gset Z) :=
  let? (base, step) := splitStep item in
  let? (start, end_) := cronBounds base minValue maxValue in
  match fill_values cron_fuel start end_ step values with
  | Some values' => Ok values'
  | None => Err "out of fuel"
  end.

Fixpoint addCronItems (values : gset Z) (items : list string) (minValue maxValue : Z)
    : result (gset Z) :=
  match items with
  | [] => Ok values
  | item :: items' =>
      let? values' := addCronItem values item minValue maxValue in
      addCronItems values' items' minValue maxValue
  end.

Definition parseCronField (expression : string) (minValue maxValue : Z) : result cronField :=
  let? values := addCronItems ∅ (Split expression ",") minValue maxValue in
  if bool_decide (values = ∅) then Err "has no values"
  else Ok {| cf_values := values; cf_wildcard := expression =s "*" |}.

Definition has_value (f : cronField) (v : Z) : bool := bool_decide (v ∈ cf_values f).

Definition cron_matches (cron : cronWindow) (at_ : Time) (loc : Location) : bool :=
  if negb (has_value (cw_minute cron) (time_Minute at_ loc)) ||
     negb (has_value (cw_hour cron) (time_Hour at_ loc)) ||
     negb (has_value (cw_month cron) (time_Month at_ loc))
  then false
  else
    let dayMatch := has_value (cw_day cron) (time_Day at_ loc) in
    let weekDay := time_Weekday at_ loc in
    let weekMatch := has_value (cw_week cron) weekDay ||
                     ((weekDay =? 0) && has_value (cw_week cron) 7) in
    let dayWild := cf_wildcard (cw_day cron) in
    let weekWild := cf_wildcard (cw_week cron) in
    if dayWild || weekWild then (dayWild || dayMatch) && (weekWild || weekMatch)
    else dayMatch || weekMatch.

(** [for opened := at.Truncate(time.Minute); opened.After(earliest); { ...;
    opened = opened.Add(-time.Minute) }] *)
Fixpoint opened_loop (fuel : nat) (cron : cronWindow) (loc : Location)
    (opened earliest : Time) : bool :=
  match fuel with
  | O => false
  | S fuel' =>
      if time_After opened earliest then
        if cron_matches cron opened loc then true
        else opened_loop fuel' cron loc (time_Add opened (- Minute)) earliest
      else false
  end.

(** One step per minute of the width, and one more for a partial minute, are
    all the steps the loop takes ([openedWithin_opened]). *)
Definition openedWithin (cron : cronWindow) (at_ : Time) (loc : Location)
    (width : Duration) : bool :=
  opened_loop (S (Z.to_nat (width / Minute))) cron loc (time_Truncate at_ Minute)
    (time_Add at_ (- width)).

Definition cron_bounds : list (Z * Z) := [(0, 59); (0, 23); (1, 31); (1, 12); (0, 7)].

Fixpoint parseCronFields (parts : list string) (bounds : list (Z * Z))
    : result (list cronField) :=
  match parts, bounds with
  | part :: parts', (lo, hi) :: bounds' =>
      match parseCronField part lo hi with
      | Err e => Err ("cron field " +:+ quote part +:+ ": " +:+ e)
      | Ok field => let? rest := parseCronFields parts' bounds' in Ok (field :: rest)
      end
  | _, _ => Ok []
  end.

Definition parseCronWindow (fields : list string) : result WindowTest :=
  let last_ := List.last fields "" in
  let? (width, fields) :=
    (if HasPrefix last_ "@"
     then let? parsed := parseCronWidth last_ in Ok (parsed, removelast fields)
     else Ok (defaultCronWidth, fields)) in
  if negb (length fields =? 5)%nat
  then Err ("a cron window needs 5 fields (minute hour day month " +:+
            "weekday); a @duration applies only to a cron window")
  else
    let? parsed := parseCronFields fields cron_bounds in
    match parsed with
    | [mi; ho; da; mo; we] =>
        let cron := {| cw_minute := mi; cw_hour := ho; cw_day := da; cw_month := mo;
                       cw_week := we |} in
        Ok (fun at_ loc => openedWithin cron at_ loc width)
    | _ => Err "out of range"
    end.

(** What a parse result contains: nothing, when it is an error. *)
Definition run_test (r : result WindowTest) (at_ : Time) (loc : Location) : bool :=
  match r with Ok test => test at_ loc | Err _ => false end.

(** ** The window expression *)

Record Window : Type := {
  w_contains : option WindowTest;
  w_location : option Location;
}.

Definition windowGrammar : string :=
  "expected always, a preset (nights, weeknights, weekdays, " +:+
  "weekends, business-hours, off-hours), " +:+ dquote +:+ "[days] HH:MM-HH:MM" +:+ dquote +:+
  " (days: daily, " +:+
  "weekdays, weekends, Mon-Fri, sat,sun), or a 5-field cron with an optional " +:+
  "@<duration> (default @1h), optionally followed by an IANA time zone such as " +:+
  dquote +:+ "weekdays 01:00-05:00 America/Chicago" +:+ dquote.

Definition parseWindowBody (fields : list string) : result WindowTest :=
  match (match fields with [f] => keywordWindow f | _ => None end) with
  | Some contains => Ok contains
  | None =>
      if HasPrefix (List.last fields "") "@" || (length fields =? 5)%nat
      then parseCronWindow fields
      else parseFriendlyWindow fields
  end.

Section Zones.
Context {ENV : GoEnv}.

(** [time.LoadLocation]: UTC and Local by name, everything else from the
    embedded database. *)
Definition LoadLocation (name : string) : option Location :=
  if (name =s "") || (name =s "UTC") then Some UTC
  else if name =s "Local" then Some time_Local
  else tz_lookup name.

Definition starts_with_letter (s : string) : bool :=
  match head_char s with Some c => is_letter c | None => false end.

Definition splitZone (fields : list string) : result (option Location * list string) :=
  let last_ := List.last fields "" in
  if (length fields <? 2)%nat || negb (starts_with_letter last_) then Ok (None, fields) else
  if last_ =s "Local" then
    Err ("time zone " +:+ dquote +:+ "Local" +:+ dquote +:+ " is ambiguous; name the zone " +:+
         "(for example UTC or America/Chicago) or omit it")
  else match LoadLocation last_ with
       | None => Err ("unknown time zone " +:+ quote last_)
       | Some location => Ok (Some location, removelast fields)
       end.

Definition parseWindow (expression : string) : result Window :=
  let fields := Fields expression in
  if (length fields =? 0)%nat then Err "is empty" else
  let? (location, fields) := splitZone fields in
  let? contains := parseWindowBody fields in
  Ok {| w_contains := Some contains; w_location := location |}.

Definition ParseWindow (expression : string) : result Window :=
  match parseWindow expression with
  | Err e => Err ("window " +:+ quote expression +:+ ": " +:+ e +:+ "; " +:+ windowGrammar)
  | Ok window => Ok window
  end.

(** A window without a zone reads the instant in its own location, which for
    the gate's clock is the process-local one. *)
Definition Window_Contains (w : Window) (at_ : Time) : bool :=
  match w_contains w with
  | None => false
  | Some contains => contains at_ (default time_Local (w_location w))
  end.

(** gate.go *)
Definition inAnyWindow (expressions : list string) (now : Time) : bool :=
  existsb (fun expression =>
    match ParseWindow expression with
    | Ok window => Window_Contains window now
    | Err _ => false
    end) expressions.

End Zones.

(** * Properties *)

(** ** Days *)

(** [d] is at or after [start] and at or before [end_] on the week's circle. *)
Definition cyclic_between (start end_ d : Z) : Prop :=
  0 <= d < 7 /\ (d - start) mod 7 <= (end_ - start) mod 7.

Lemma fill_days_spec fuel : forall day end_ days,
  0 <= day < 7 -> 0 <= end_ < 7 -> (end_ - day) mod 7 < Z.of_nat fuel ->
  exists s, fill_days fuel day end_ days = Some s /\
    forall d, d ∈ s <-> d ∈ days \/ cyclic_between day end_ d.
Proof.
  induction fuel as [|fuel IH]; intros day end_ days Hd He Hf; [div_lia|]. simpl.
  destruct (Z.eqb_spec day end_) as [->|Hne].
  - eexists. split; [done|]. intros d. unfold cyclic_between.
    rewrite elem_of_union, elem_of_singleton, Z.sub_diag, Z.mod_0_l by div_lia.
    split; [|intuition div_lia]. intros [->|?]; [right|by left].
    rewrite Z.sub_diag, Z.mod_0_l; div_lia.
  - destruct (IH ((day + 1) mod 7) end_ ({[day]} ∪ days)) as (s & -> & Hs); [div_lia..|].
    eexists. split; [done|]. intros d. rewrite (Hs d). unfold cyclic_between.
    rewrite elem_of_union, elem_of_singleton. split; [intros [[->|?]|?]|intros [?|?]];
      [right; div_lia|by left|right; div_lia|by left; right|].
    destruct (decide (d = day)); [by left; left|right; div_lia].
Qed.

Lemma dayNumber_range name d : dayNumber name = Some d -> 0 <= d < 7.
Proof.
  unfold dayNumber, Sunday, Monday, Tuesday, Wednesday, Thursday, Friday, Saturday.
  repeat case_match; intros; simplify_eq; div_lia.
Qed.

(** ** Wall-clock minutes *)

(** Minutes of the wall clock since January 1, year 1. *)
Definition wall_minute (t : Time) (loc : Location) : Z := wall_seconds t loc / 60.

Lemma minute_of_day t loc :
  time_Hour t loc * 60 + time_Minute t loc = wall_minute t loc mod 1440.
Proof.
  unfold time_Hour, time_Minute, wall_minute. generalize (wall_seconds t loc). intros s. div_lia.
Qed.

Lemma day_of_minute t loc : wall_day t loc = wall_minute t loc / 1440.
Proof. unfold wall_day, wall_minute. generalize (wall_seconds t loc). intros s. div_lia. Qed.

(** The abstract window: an interval opened on an allowed day, that runs to the
    end of the range, on the next day when the range wraps. *)
Definition range_length (r : minuteRange) : Z :=
  if mr_start r <=? mr_end r then mr_end r - mr_start r
  else mr_end r + 1440 - mr_start r.

Definition opened_on (days : DaySet) (r : minuteRange) (minute : Z) : Prop :=
  exists day, weekday_of_day day ∈ days /\
    day * 1440 + mr_start r <= minute < day * 1440 + mr_start r + range_length r.

Definition clock_range (r : minuteRange) : Prop :=
  0 <= mr_start r < 1440 /\ 0 <= mr_end r <= 1440.

Lemma previous_weekday day : (weekday_of_day day + 6) mod 7 = weekday_of_day (day - 1).
Proof. unfold weekday_of_day. div_lia. Qed.

Lemma dayWindow_opened days r at_ loc :
  clock_range r ->
  dayWindow days r at_ loc = true <-> opened_on days r (wall_minute at_ loc).
Proof.
  intros [Hs He]. unfold dayWindow, opened_on, range_length, range_contains, time_Weekday.
  rewrite minute_of_day, day_of_minute. set (L := wall_minute at_ loc).
  rewrite andb_true_iff, bool_decide_eq_true.
  destruct (Z.leb_spec (mr_start r) (mr_end r)) as [Hle|Hgt].
  - replace (mr_end r <? mr_start r) with false by div_lia. simpl.
    rewrite andb_true_iff, Z.leb_le, Z.ltb_lt. split.
    + intros [Hd Hm]. exists (L / 1440). split; [done|div_lia].
    + intros (day & Hd & Hm). assert (day = L / 1440) as -> by div_lia. split; [done|div_lia].
  - replace (mr_end r <? mr_start r) with true by div_lia. simpl.
    rewrite orb_true_iff, Z.leb_le, Z.ltb_lt, previous_weekday.
    destruct (Z.ltb_spec (L mod 1440) (mr_end r)) as [Hm|Hm]; split.
    + intros [Hd _]. exists (L / 1440 - 1). split; [done|div_lia].
    + intros (day & Hd & Hday). split; [|by right].
      assert (day = L / 1440 - 1) as -> by div_lia. done.
    + intros [Hd ?]. exists (L / 1440). split; [done|div_lia].
    + intros (day & Hd & Hday). assert (day = L / 1440) as -> by div_lia. split; [done|div_lia].
Qed.

(** ** Clocks *)

Lemma digits_val_nonneg s : forall acc n, 0 <= acc -> digits_val acc s = Some n -> 0 <= n.
Proof.
  induction s as [|c s IH]; intros acc n Ha; simpl; [intros; simplify_eq; div_lia|].
  unfold is_digit. destruct (_ && _) eqn:E; [|done]. reflect_in E.
  apply IH. unfold digit_val. div_lia.
Qed.

Lemma parseDigits_nonneg s n : parseDigits s = Ok n -> 0 <= n.
Proof.
  unfold parseDigits. destruct (_ || _); [done|].
  destruct (digits_val 0 s) eqn:E; [|done]. intros [= <-]. by eapply digits_val_nonneg.
Qed.

Lemma parseClock_range s n : parseClock s = Ok n -> 0 <= n < 1440.
Proof.
  unfold parseClock. destruct (Cut s ":") as [[h m] found].
  destruct (parseDigits h) as [hour|] eqn:Eh; [|done].
  destruct (parseDigits m) as [minute|] eqn:Em; [|done].
  apply parseDigits_nonneg in Eh, Em. destruct (_ || _) eqn:E; [done|].
  reflect_in E. intros [= <-]. div_lia.
Qed.


Lemma parseClockRange_clock s r : parseClockRange s = Ok r -> clock_range r /\
  mr_start r <> mr_end r.
Proof.
  unfold parseClockRange. destruct (Split s "-") as [|p [|q [|]]]; try done.
  rewrite rbind_Ok. intros (start & Hs & H). apply rbind_Ok in H as (end_ & He & H).
  apply parseClock_range in Hs, He. destruct (Z.eqb_spec start end_); [done|].
  simplify_eq. unfold clock_range. simpl. div_lia.
Qed.

(** Every friendly expression denotes a day window on a clock range. *)
Lemma parseFriendlyWindow_form fields test :
  parseFriendlyWindow fields = Ok test ->
  exists days r, test = dayWindow days r /\ clock_range r /\ 0 < range_length r.
Proof.
  assert (Hr : forall r, clock_range r /\ mr_start r <> mr_end r ->
    clock_range r /\ 0 < range_length r).
  { intros r [H ?]. split; [done|]. destruct H as [? ?]. unfold range_length.
    destruct (Z.leb_spec (mr_start r) (mr_end r)); div_lia. }
  unfold parseFriendlyWindow. destruct fields as [|f [|g [|]]]; try done.
  - destruct (Contains f ":").
    + rewrite rbind_Ok. intros (r & E & [= <-]). destruct (Hr r (parseClockRange_clock _ _ E)); eauto.
    + destruct (parseDaySpec f); [|done]. intros [= <-]. eexists _, _.
      split; [done|]. unfold clock_range, range_length. simpl. div_lia.
  - destruct (parseDaySpec f); [|done]. rewrite rbind_Ok.
    intros (r & E & [= <-]). destruct (Hr r (parseClockRange_clock _ _ E)); eauto.
Qed.

(** ** Cron fields *)

(** Without wrap-around a step fills the arithmetic progression. *)
Lemma fill_values_progression fuel : forall value end_ step values,
  min_int64 <= value -> 1 <= step -> end_ + step <= max_int64 ->
  end_ - value < Z.of_nat fuel ->
  exists s, fill_values fuel value end_ step values = Some s /\
    forall v, v ∈ s <-> v ∈ values \/
      exists k, 0 <= k /\ v = value + k * step /\ v <= end_.
Proof.
  induction fuel as [|fuel IH]; intros value end_ step values Hv Hs Hmax Hf; simpl;
    destruct (Z.leb_spec value end_) as [Hle|Hgt]; try lia.
  1,3: eexists; split; [done|]; intros v; split; [by left|]; intros [?|(k & ? & -> & ?)];
    [done|nia].
  destruct (IH (wrap64 (value + step)) end_ step ({[value]} ∪ values)) as (s & -> & H);
    rewrite ?wrap64_id by lia; try lia.
  rewrite wrap64_id in H by lia. eexists. split; [done|]. intros v. rewrite (H v).
  rewrite elem_of_union, elem_of_singleton. split.
  - intros [[->|?]|(k & ? & -> & ?)]; [right; exists 0; lia|by left|right].
    exists (k + 1). lia.
  - intros [?|(k & ? & -> & ?)]; [by left; right|].
    destruct (Z.eq_dec k 0) as [->|]; [left; left; lia|right; exists (k - 1); lia].
Qed.

(** With a step so large that the addition wraps around, the loop still leaves
    the field's range after a bounded number of steps. *)
Lemma fill_values_wrapping fuel : forall value end_ step k values,
  step = 2 ^ 63 - k -> 1 <= k <= 59 -> -59 <= value -> end_ <= 59 ->
  value + 3 <= Z.of_nat fuel -> 1 <= Z.of_nat fuel ->
  is_Some (fill_values fuel value end_ step values).
Proof.
  induction fuel as [fuel IH] using lt_wf_ind.
  intros value end_ step k values -> Hk Hv He Hf Hf1.
  destruct fuel as [|fuel]; [lia|]. simpl.
  destruct (Z.leb_spec value end_) as [Hle|]; [|eauto].
  destruct (Z.lt_ge_cases value k) as [Hsmall|Hbig].
  - rewrite wrap64_id by (unfold min_int64, max_int64; lia).
    destruct fuel; simpl; (destruct (Z.leb_spec (value + (2 ^ 63 - k)) end_); [lia|eauto]).
  - rewrite wrap64_above by (unfold max_int64; lia).
    destruct fuel as [|fuel]; [lia|]. simpl.
    destruct (Z.leb_spec (value + (2 ^ 63 - k) - 2 ^ 64) end_) as [_|]; [|eauto].
    rewrite wrap64_id by (unfold min_int64, max_int64; lia).
    apply (IH fuel ltac:(lia) _ _ _ k); [done|lia..].
Qed.

Lemma fill_values_stop fuel value end_ step values :
  end_ < value -> fill_values fuel value end_ step values = Some values.
Proof. intros H. destruct fuel; simpl; by rewrite (proj2 (Z.leb_gt _ _) H). Qed.

Lemma fill_values_terminates start end_ step values :
  0 <= start -> end_ <= 59 -> 1 <= step <= max_int64 ->
  is_Some (fill_values cron_fuel start end_ step values).
Proof.
  intros Hs He Hstep.
  destruct (Z.le_gt_cases (end_ + step) max_int64) as [Hsmall|Hbig].
  - destruct (Z.le_gt_cases start end_) as [Hle|Hgt].
    + destruct (fill_values_progression cron_fuel start end_ step values) as (s & -> & _);
        [unfold min_int64, cron_fuel; lia..|eauto].
    + rewrite fill_values_stop by lia. eauto.
  - destruct (Z.le_gt_cases start end_) as [Hle|Hgt].
    + eapply (fill_values_wrapping _ _ _ _ (2 ^ 63 - step));
        unfold max_int64, cron_fuel in *; lia.
    + rewrite fill_values_stop by lia. eauto.
Qed.

Lemma Atoi_range s n : Atoi s = Ok n -> min_int64 <= n <= max_int64.
Proof.
  unfold Atoi. destruct (match s with EmptyString => _ | _ => _ end) as [neg digits].
  destruct digits as [|c digits']; [done|]. destruct (digits_val 0 _); [|done].
  destruct (_ && _) eqn:E; [|done]. reflect_in E. intros [= <-]. lia.
Qed.

Lemma splitStep_range item base step :
  splitStep item = Ok (base, step) -> 1 <= step <= max_int64.
Proof.
  unfold splitStep. destruct (Split item "/") as [|p [|q [|]]]; try done.
  - intros [= <- <-]. unfold max_int64. lia.
  - destruct (Atoi q) as [n|] eqn:E; [|done]. apply Atoi_range in E.
    destruct (Z.leb_spec n 0); [done|]. intros [= <- <-]. lia.
Qed.

Lemma cronBounds_range base lo hi start end_ :
  lo <= hi -> cronBounds base lo hi = Ok (start, end_) -> lo <= start <= end_ /\ end_ <= hi.
Proof.
  assert (Hb : forall v n, boundedInteger v lo hi = Ok n -> lo <= n <= hi).
  { intros v n. unfold boundedInteger. destruct (Atoi v); [|done].
    destruct (_ || _) eqn:E; [done|]. reflect_in E. intros [= <-]. lia. }
  intros Hlh. unfold cronBounds. destruct (base =s "*"); [intros [= <- <-]; lia|].
  destruct (Split base "-") as [|p [|q [|]]]; try done.
  - rewrite rbind_Ok. intros (n & E & [= <- <-]). apply Hb in E. lia.
  - rewrite rbind_Ok. intros (n & E & H). apply Hb in E.
    destruct (boundedInteger q lo hi) eqn:E'; [|done]. apply Hb in E'.
    destruct (Z.ltb_spec a n); simplify_eq. lia.
Qed.

(** ** Cron windows *)

Lemma opened_loop_spec fuel : forall cron loc opened earliest,
  (opened - earliest) <= Z.of_nat fuel * Minute ->
  opened_loop fuel cron loc opened earliest = true <->
  exists k, 0 <= k /\ earliest < opened - k * Minute /\
    cron_matches cron (opened - k * Minute) loc = true.
Proof.
  induction fuel as [|fuel IH]; intros cron loc opened earliest Hf; simpl.
  - split; [done|]. unfold Minute, Second in *. intros (k & ? & ? & _). lia.
  - unfold time_After. destruct (Z.ltb_spec earliest opened) as [Hlt|Hge].
    + destruct (cron_matches cron opened loc) eqn:E.
      * split; [|done]. intros _. exists 0. rewrite Z.sub_0_r. repeat split; [lia|done..].
      * rewrite IH by (unfold time_Add; lia). unfold time_Add. split.
        -- intros (k & ? & ? & Hm). exists (k + 1).
           replace (opened - (k + 1) * Minute) with (opened + - Minute - k * Minute) by lia.
           repeat split; [lia|done..].
        -- intros (k & ? & ? & Hm). destruct (Z.eq_dec k 0) as [->|].
           { rewrite Z.sub_0_r in Hm. congruence. }
           exists (k - 1).
           replace (opened + - Minute - (k - 1) * Minute) with (opened - k * Minute) by lia.
           repeat split; [lia|done..].
    + split; [done|]. unfold Minute, Second in *. intros (k & ? & ? & _). lia.
Qed.

(** A whole minute opens a window of [width] that still covers [at_]. *)
Definition opened_by (cron : cronWindow) (loc : Location) (width : Duration)
    (at_ opened : Time) : Prop :=
  opened mod Minute = 0 /\ opened <= at_ /\ at_ < opened + width /\
  cron_matches cron opened loc = true.

Lemma openedWithin_opened cron at_ loc width :
  0 <= width ->
  openedWithin cron at_ loc width = true <-> exists opened, opened_by cron loc width at_ opened.
Proof.
  intros Hw. unfold openedWithin, opened_by, time_Truncate, time_Add.
  assert (Hmin : 0 < Minute) by (unfold Minute, Second; lia).
  replace (Minute <=? 0) with false by lia.
  pose proof (Z.mod_pos_bound at_ Minute Hmin) as Hmod.
  rewrite opened_loop_spec.
  2: { rewrite Nat2Z.inj_succ, Z2Nat.id by (apply Z.div_pos; lia).
       pose proof (Z.mul_succ_div_gt width Minute Hmin). lia. }
  set (base := at_ - at_ mod Minute).
  assert (Hbase : base mod Minute = 0).
  { unfold base. rewrite Zminus_mod_idemp_r, Z.sub_diag. apply Z.mod_0_l. lia. }
  split.
  - intros (k & ? & ? & Hm). exists (base - k * Minute).
    split; [rewrite Zminus_mod, Hbase, Z.mod_mul; [by apply Z.mod_0_l; lia|lia]|].
    repeat split; [unfold base; nia|lia|done].
  - intros (opened & Ho & ? & ? & Hm).
    exists ((base - opened) / Minute).
    assert (base - opened = (base - opened) / Minute * Minute) as E.
    { rewrite Z.mul_comm. apply Z.div_exact; [lia|].
      rewrite Zminus_mod, Hbase, Ho. apply Z.mod_0_l. lia. }
    assert (opened <= base).
    { assert (opened / Minute <= at_ / Minute) by (apply Z.div_le_mono; lia).
      pose proof (Z.div_mod at_ Minute). pose proof (Z.div_mod opened Minute).
      unfold base. nia. }
    rewrite <- E. replace (base - (base - opened)) with opened by lia.
    repeat split; [apply Z.div_pos; lia|lia|done].
Qed.

Lemma parseCronWidth_range token w :
  parseCronWidth token = Ok w -> Minute <= w <= maxCronWidth /\ w mod Minute = 0.
Proof.
  unfold parseCronWidth. destruct (ParseDuration _); [|done].
  destruct (_ || _) eqn:E; [done|]. intros [= <-].
  apply orb_false_iff in E as [E1 E3]. apply orb_false_iff in E1 as [E1 E2].
  apply negb_false_iff, Z.eqb_eq in E3. lia.
Qed.

Lemma parseCronFields_length parts bounds fs :
  parseCronFields parts bounds = Ok fs -> (length fs <= length bounds)%nat.
Proof.
  revert bounds fs. induction parts as [|p parts IH]; intros [|[lo hi] bounds] fs; simpl;
    try (intros [= <-]; simpl; lia).
  destruct (parseCronField p lo hi); [|done].
  rewrite rbind_Ok. intros (rest & E & [= <-]). apply IH in E. simpl. lia.
Qed.

(** ** The properties *)

(** a day-and-clock window contains an instant exactly when the wall-clock
    minute lies in an interval that was opened at the range's start on one of
    the listed days; a range that wraps midnight belongs to the day it starts
    on and runs into the next one. *)
Theorem friendly_window_contains fields test :
  parseFriendlyWindow fields = Ok test ->
  exists days r, clock_range r /\ 0 < range_length r <= 1440 /\
    forall at_ loc, test at_ loc = true <-> opened_on days r (wall_minute at_ loc).
Proof.
  intros H. apply parseFriendlyWindow_form in H as (days & r & -> & Hr & Hl).
  exists days, r. repeat split; [apply Hr..|done| |by apply dayWindow_opened|
    by apply dayWindow_opened].
  destruct Hr as [? ?]. unfold range_length in *.
  destruct (Z.leb_spec (mr_start r) (mr_end r)); lia.
Qed.

Lemma friendly_window_contains_witness :
  (* Saturday 2026-10-03, 02:00: Friday night's window *)
  run_test (parseFriendlyWindow ["weekdays"; "22:00-06:00"]) (time_Date 2026 10 3 2 0 0) UTC
    = true /\
  (* Monday 2026-10-05, 02:00: Sunday night has no window *)
  run_test (parseFriendlyWindow ["weekdays"; "22:00-06:00"]) (time_Date 2026 10 5 2 0 0) UTC
    = false /\
  exists test, parseFriendlyWindow ["weekdays"; "22:00-06:00"] = Ok test /\
    exists days r, clock_range r /\ 0 < range_length r <= 1440 /\
      forall at_ loc, test at_ loc = true <-> opened_on days r (wall_minute at_ loc).
Proof.
  split; [vm_compute; reflexivity|]. split; [vm_compute; reflexivity|].
  pose proof (friendly_window_contains ["weekdays"; "22:00-06:00"]) as C.
  assert (is_ok (parseFriendlyWindow ["weekdays"; "22:00-06:00"]) = true) as H
    by (vm_compute; reflexivity).
  destruct (parseFriendlyWindow _) as [test|e]; [|discriminate].
  exists test. split; [reflexivity|]. apply (C test). reflexivity.
Defined.

(** A cron window contains an instant exactly when some whole minute that
    matches the five fields opened a window of the width (one hour unless
    "@<duration>" gives whole minutes from one minute to 24 hours) that still
    covers it. *)
Theorem cron_window_contains fields test :
  parseCronWindow fields = Ok test ->
  exists cron width, Minute <= width <= maxCronWidth /\ width mod Minute = 0 /\
    forall at_ loc, test at_ loc = true <-> exists opened, opened_by cron loc width at_ opened.
Proof.
  unfold parseCronWindow. rewrite rbind_Ok. intros ([width parts] & Hw & H).
  assert (Hrange : Minute <= width <= maxCronWidth /\ width mod Minute = 0).
  { destruct (HasPrefix _ _).
    - apply rbind_Ok in Hw as (parsed & Hp & [= <- <-]). by apply parseCronWidth_range in Hp.
    - injection Hw as <- <-. by vm_compute. }
  destruct (negb _); [done|]. apply rbind_Ok in H as (fs & _ & H).
  destruct fs as [|mi [|ho [|da [|mo [|we [|]]]]]]; try done. injection H as <-.
  eexists _, width. split; [apply Hrange|]. split; [apply Hrange|].
  intros at_ loc. apply openedWithin_opened. unfold Minute, Second in *. lia.
Qed.

Lemma cron_window_contains_witness :
  run_test (parseCronWindow ["0"; "2"; "*"; "*"; "1-5"; "@90m"])
    (time_Date 2026 10 5 3 29 59) UTC = true /\
  run_test (parseCronWindow ["0"; "2"; "*"; "*"; "1-5"; "@90m"])
    (time_Date 2026 10 5 3 30 0) UTC = false /\
  exists test, parseCronWindow ["0"; "2"; "*"; "*"; "1-5"; "@90m"] = Ok test /\
    exists cron width, Minute <= width <= maxCronWidth /\ width mod Minute = 0 /\
      forall at_ loc, test at_ loc = true <->
        exists opened, opened_by cron loc width at_ opened.
Proof.
  split; [vm_compute; reflexivity|]. split; [vm_compute; reflexivity|].
  pose proof (cron_window_contains ["0"; "2"; "*"; "*"; "1-5"; "@90m"]) as C.
  assert (is_ok (parseCronWindow ["0"; "2"; "*"; "*"; "1-5"; "@90m"]) = true) as H
    by (vm_compute; reflexivity).
  destruct (parseCronWindow _) as [test|e]; [|discriminate].
  exists test. split; [reflexivity|]. apply (C test). reflexivity.
Defined.

(** adding a cron item terminates for every step a 64-bit integer can
    hold, wrap-around included, and a step that cannot wrap adds exactly the
    progression from the range's start to its end. *)
Theorem cron_item_fills values item lo hi base step start end_ :
  0 <= lo <= hi -> hi <= 59 ->
  splitStep item = Ok (base, step) -> cronBounds base lo hi = Ok (start, end_) ->
  exists values', addCronItem values item lo hi = Ok values' /\
    (step <= max_int64 - 59 -> forall v, v ∈ values' <-> v ∈ values \/
      exists k, 0 <= k /\ v = start + k * step /\ v <= end_).
Proof.
  intros Hlo Hhi Es Eb. unfold addCronItem. rewrite Es. cbn [rbind]. rewrite Eb. cbn [rbind].
  pose proof (splitStep_range _ _ _ Es). apply cronBounds_range in Eb; [|lia].
  destruct (fill_values_terminates start end_ step values) as [s E]; [lia..|].
  rewrite E. exists s. split; [done|]. intros Hstep.
  destruct (fill_values_progression cron_fuel start end_ step values) as (s' & E' & Hs');
    [unfold min_int64, cron_fuel; lia..|].
  assert (s = s') as -> by congruence. exact Hs'.
Qed.

Lemma cron_item_fills_witness :
  exists values', addCronItem ∅ "10-50/20" 0 59 = Ok values' /\
    (20 <= max_int64 - 59 -> forall v, v ∈ values' <-> v ∈ (∅ : gset Z) \/
      exists k, 0 <= k /\ v = 10 + k * 20 /\ v <= 50).
Proof.
  apply (cron_item_fills ∅ "10-50/20" 0 59 "10-50" 20 10 50);
    [lia|lia|vm_compute; reflexivity|vm_compute; reflexivity].
Defined.

(** a step near the largest 64-bit integer wraps around: the minute field
    "2/9223372036854775807", whose only minute in range is 2, is accepted and
    also matches minute 0. *)
Theorem cron_step_wraps_around :
  exists f, parseCronField "2/9223372036854775807" 0 59 = Ok f /\
    cf_values f = {[ 2; 0; 2 - 2 ^ 63 + 1 - 2 ]} /\ has_value f 0 = true.
Proof. eexists. split; [vm_compute; reflexivity|]. split; vm_compute; reflexivity. Qed.
