(* ===== verification/Budget.v ===== *)
(** * Blast-radius budgets

    internal/policy/budget.go: the budget kinds, the usage limits of a document
    and the emergency bypass. *)

From S2P Require Import Prelude.
From S2P Require Import GoStd.
From S2P Require Import PolicyTypes.

Definition BudgetWindow : Duration := 24 * Hour.

Definition DefaultPerformanceTablesPerWindow : Z := 10.
Definition DefaultPerformanceChangesPerWindow : Z := 25.
Definition DefaultHygieneTablesPerWindow : Z := 10.
Definition DefaultHygieneChangesPerWindow : Z := 25.

Definition DefaultHygieneBudget : KindBudget :=
  {| kb_MaxTablesPerWindow := DefaultHygieneTablesPerWindow;
     kb_MaxChangesPerWindow := DefaultHygieneChangesPerWindow |}.

Definition BudgetKindFor (req : ActionRequest) : BudgetKind :=
  match req_Contract req with
  | None => BudgetPerformance
  | Some c =>
      if str_in (ac_ActionType c) ["drop_unused_index"; "vacuum_table"; "analyze_table"]
      then BudgetHygiene else BudgetPerformance
  end.

(** [Document.Budget] *)
Definition Budget (doc : Document) (kind : BudgetKind) : KindBudget :=
  if kind =s BudgetHygiene then br_Hygiene (doc_BlastRadius doc)
  else {| kb_MaxTablesPerWindow := br_MaxTablesPerWindow (doc_BlastRadius doc);
          kb_MaxChangesPerWindow := doc_MaxSelfInitiatedChangesPerWindow doc |}.

Definition spendsBudget (req : ActionRequest) : bool :=
  negb (req_OperatorApproved req) &&
  match req_Contract req with
  | None => false
  | Some c => (ac_RiskTier c <>s RiskReadOnly) && negb (ac_Narrowing c)
  end.

Record budgetNote : Type := {
  bn_read : bool;
  bn_kind : BudgetKind;
  bn_rows : Z;
  bn_bypass : string;
}.

(** [budgetNote{}] *)
Definition no_note : budgetNote :=
  {| bn_read := false; bn_kind := ""; bn_rows := 0; bn_bypass := "" |}.

Definition stamp (note : budgetNote) (decision : Decision) : Decision :=
  let decision := if bn_read note then set_budget (bn_kind note) (bn_rows note) decision
                  else decision in
  if bn_bypass note <>s "" then
    let decision := set_budget BudgetBypass (dec_RowsRewritten decision) decision in
    if dec_Detail decision =s "" then set_Detail ("budget bypass: " +:+ bn_bypass note) decision
    else decision
  else decision.

Definition budgetExceeded (limit : BudgetLimit) (usage : Z) : bool :=
  if NoCap limit then false
  else match bl_value limit with
       | None => true
       | Some value => (value =? 0) || (value <? usage)
       end.

Definition positiveExceeded (limit usage : Z) (includeEqual : bool) : bool :=
  if limit =? 0 then 0 <? usage
  else if includeEqual then limit <=? usage
  else limit <? usage.

Definition freesAt (at_ : Time) : string :=
  if time_IsZero at_ then "it does not free until the policy limit is raised"
  else "next frees at " +:+ format_rfc3339 at_.

(** [fmt.Sprintf("%.0fh", BudgetWindow.Hours())] of a whole number of hours. *)
Definition windowName : string := itoa (BudgetWindow / Hour) +:+ "h".

Definition kindDetail (kind : BudgetKind) (unit_ : string) (used limit : Z) (freeAt : Time)
    : string :=
  kind +:+ " budget full: " +:+ itoa used +:+ " of " +:+ itoa limit +:+ " " +:+ unit_ +:+
  " in the " +:+ windowName +:+ " window; " +:+ freesAt freeAt.

Definition rowsDetail (doc : Document) (usage : LimitUsage) : string :=
  let limit := br_MaxRowsRewritten (doc_BlastRadius doc) in
  let free :=
    if limit <? lu_RequestRowsRewritten usage
    then "this change alone exceeds the limit; " +:+ freesAt 0
    else freesAt (lu_RowsFreeAt usage) in
  "rows rewritten budget full (shared by all kinds): " +:+ itoa (lu_RowsRewritten usage) +:+
  " of " +:+ itoa limit +:+ " rows " +:+ "in the " +:+ windowName +:+ " window, " +:+
  itoa (lu_RequestRowsRewritten usage) +:+ " of them this change's; " +:+ free.

(** [Some d]: the limits stop the request with decision [d]. *)
Definition limitDecision (doc : Document) (kind : BudgetKind) (usage : LimitUsage)
    (bypass : bool) : option Decision :=
  if budgetExceeded (bu_StorageBytes (doc_Budgets doc)) (lu_StorageBytes usage)
  then Some (blockedAs VerdictPark ReasonBudgetExceeded) else
  if positiveExceeded (br_MaxRowsRewritten (doc_BlastRadius doc)) (lu_RowsRewritten usage) false
  then Some (parked ReasonBlastRadiusExceeded (rowsDetail doc usage)) else
  if bypass then None else
  let budget := Budget doc kind in
  if positiveExceeded (kb_MaxTablesPerWindow budget) (lu_TablesInWindow usage) false
  then Some (parked ReasonBlastRadiusExceeded
               (kindDetail kind "tables" (lu_TablesInWindow usage)
                  (kb_MaxTablesPerWindow budget) (lu_TablesFreeAt usage))) else
  let changes := lu_SelfInitiatedChangesInWindow usage in
  if positiveExceeded (kb_MaxChangesPerWindow budget) changes true
  then Some (parked ReasonRateLimitExceeded
               (kindDetail kind "changes" changes (kb_MaxChangesPerWindow budget)
                  (lu_ChangesFreeAt usage)))
  else None.

Definition diskMitigation (actionType : string) : bool :=
  str_in actionType ["vacuum_table"; "drop_unused_index"; "reindex_concurrently"].

Definition BudgetBypassFor (req : ActionRequest) (now : Time) : string :=
  match req_Contract req with
  | None => ""
  | Some c =>
      let action := ac_ActionType c in
      if action =s "revert_created_index" then "revert of an index pg_sage created" else
      if req_Rollback req then "rollback of pg_sage's own change" else
      match req_Deadline req with
      | None => ""
      | Some deadline =>
          if (dl_Urgency deadline <>s UrgencyCritical) ||
             negb (time_After (dl_HardAt deadline) now) then ""
          else
            let hardAt := format_rfc3339 (dl_HardAt deadline) in
            if (dl_Kind deadline =s DeadlineXID) && (action =s "vacuum_table")
            then "xid runway critical, wraparound hard deadline " +:+ hardAt else
            if (dl_Kind deadline =s DeadlineDisk) && diskMitigation action
            then "disk runway critical, hard deadline " +:+ hardAt else ""
      end
  end.

(** internal/policy/lock_ceiling.go *)
Definition EffectiveLockTimeoutMS (ceilingMS safetyMS : Z) : Z :=
  if ceilingMS <=? 0 then safetyMS
  else if safetyMS <=? 0 then ceilingMS
  else Z.min ceilingMS safetyMS.

Definition withDocumentBounds (doc : Document) (decision : Decision) : Decision :=
  if verdict_eqb (dec_Verdict decision) VerdictExecute then
    set_bounds (if 0 <? doc_LockDurationCeilingMS doc then doc_LockDurationCeilingMS doc
                else dec_LockCeilingMS decision) (doc_SerializeMode doc) decision
  else decision.

(** * Properties *)

Lemma limitDecision_parks doc kind usage bypass d :
  limitDecision doc kind usage bypass = Some d -> dec_Verdict d = VerdictPark.
Proof. unfold limitDecision. intros H. repeat case_hyp H; by simplify_eq/=. Qed.

Lemma stamp_verdict note d : dec_Verdict (stamp note d) = dec_Verdict d.
Proof. unfold stamp. repeat case_goal; done. Qed.

Lemma stamp_reason note d : dec_Reason (stamp note d) = dec_Reason d.
Proof. unfold stamp. repeat case_goal; done. Qed.

Lemma withDocumentBounds_verdict doc d :
  dec_Verdict (withDocumentBounds doc d) = dec_Verdict d.
Proof. unfold withDocumentBounds. by destruct (verdict_eqb _ _). Qed.

Lemma withDocumentBounds_reason doc d :
  dec_Reason (withDocumentBounds doc d) = dec_Reason d.
Proof. unfold withDocumentBounds. by destruct (verdict_eqb _ _). Qed.

#[export] Hint Rewrite stamp_verdict stamp_reason withDocumentBounds_verdict
  withDocumentBounds_reason : sage.

(** What the limits let through, in words of the document. *)
Definition within_limit (limit : BudgetLimit) (usage : Z) : Prop :=
  NoCap limit = true \/ exists v, bl_value limit = Some v /\ v <> 0 /\ usage <= v.

Lemma budgetExceeded_within limit usage :
  budgetExceeded limit usage = false <-> within_limit limit usage.
Proof.
  unfold budgetExceeded, within_limit, NoCap. destruct limit as [[] [v|]]; simpl;
    reflect_all; naive_solver lia.
Qed.

Lemma positiveExceeded_strict limit usage :
  0 <= limit -> positiveExceeded limit usage false = false <-> usage <= limit.
Proof.
  intros H. unfold positiveExceeded. destruct (Z.eqb_spec limit 0); reflect_all; lia.
Qed.

(** A zero limit compares like one: [usage > 0] and [usage >= 1] agree. *)
Lemma positiveExceeded_inclusive limit usage :
  0 <= limit -> positiveExceeded limit usage true = false <-> usage < Z.max 1 limit.
Proof.
  intros H. unfold positiveExceeded. destruct (Z.eqb_spec limit 0); reflect_all; lia.
Qed.

Lemma limitDecision_None doc kind usage bypass :
  0 <= br_MaxRowsRewritten (doc_BlastRadius doc) ->
  0 <= kb_MaxTablesPerWindow (Budget doc kind) ->
  0 <= kb_MaxChangesPerWindow (Budget doc kind) ->
  limitDecision doc kind usage bypass = None <->
    within_limit (bu_StorageBytes (doc_Budgets doc)) (lu_StorageBytes usage) /\
    lu_RowsRewritten usage <= br_MaxRowsRewritten (doc_BlastRadius doc) /\
    (bypass = true \/
      lu_TablesInWindow usage <= kb_MaxTablesPerWindow (Budget doc kind) /\
      lu_SelfInitiatedChangesInWindow usage
        < Z.max 1 (kb_MaxChangesPerWindow (Budget doc kind))).
Proof.
  intros H1 H2 H3. rewrite <- budgetExceeded_within, <- positiveExceeded_strict by done.
  rewrite <- (positiveExceeded_strict (kb_MaxTablesPerWindow _)) by done.
  rewrite <- positiveExceeded_inclusive by done.
  unfold limitDecision. repeat case_goal; naive_solver.
Qed.

(** Raising every limit of a kind lets through whatever the lower ones did. *)
Lemma positiveExceeded_mono lo hi usage b :
  0 <= lo <= hi -> positiveExceeded lo usage b = false -> positiveExceeded hi usage b = false.
Proof.
  intros H. destruct b.
  - rewrite !positiveExceeded_inclusive; lia.
  - rewrite !positiveExceeded_strict; lia.
Qed.

Lemma BudgetBypassFor_no_contract req now : req_Contract req = None -> BudgetBypassFor req now = "".
Proof. unfold BudgetBypassFor. by intros ->. Qed.

(** ** The properties *)

(** the limits let a self-initiated change run exactly when storage is
    under its cap (a cap of 0 admits nothing), the shared rows rewritten
    (recorded plus its own) are within the limit and, unless it bypasses the
    kind budget, its tables are within the table limit and the changes already
    in the window leave a slot; every refusal is a park. *)
Theorem limits_admit doc kind usage bypass :
  0 <= br_MaxRowsRewritten (doc_BlastRadius doc) ->
  0 <= kb_MaxTablesPerWindow (Budget doc kind) ->
  0 <= kb_MaxChangesPerWindow (Budget doc kind) ->
  (limitDecision doc kind usage bypass = None <->
    within_limit (bu_StorageBytes (doc_Budgets doc)) (lu_StorageBytes usage) /\
    lu_RowsRewritten usage <= br_MaxRowsRewritten (doc_BlastRadius doc) /\
    (bypass = true \/
      lu_TablesInWindow usage <= kb_MaxTablesPerWindow (Budget doc kind) /\
      lu_SelfInitiatedChangesInWindow usage
        < Z.max 1 (kb_MaxChangesPerWindow (Budget doc kind)))) /\
  (forall d, limitDecision doc kind usage bypass = Some d -> dec_Verdict d = VerdictPark).
Proof. intros. split; [by apply limitDecision_None|apply limitDecision_parks]. Qed.

Lemma limits_admit_witness :
  (0 <= 1000 /\ 0 <= 1 /\ 0 <= 2) /\
  limitDecision sample_document BudgetHygiene zero_usage false = None.
Proof.
  split; [lia|]. apply (proj1 (limits_admit sample_document BudgetHygiene zero_usage false
    ltac:(simpl; lia) ltac:(simpl; lia) ltac:(simpl; lia))).
  split; [by left|]. split; [simpl; lia|]. right. simpl. lia.
Defined.

(** an emergency bypasses the kind budget only for a revert or rollback of
    pg_sage's own change, or before a critical deadline that is still ahead: a
    vacuum for transaction ids, a space-freeing action for disk. *)
Theorem bypass_only_emergencies req now :
  BudgetBypassFor req now <> "" ->
  exists c, req_Contract req = Some c /\
    (ac_ActionType c = "revert_created_index" \/ req_Rollback req = true \/
     exists dl, req_Deadline req = Some dl /\ dl_Urgency dl = UrgencyCritical /\
       now < dl_HardAt dl /\
       (dl_Kind dl = DeadlineXID /\ ac_ActionType c = "vacuum_table" \/
        dl_Kind dl = DeadlineDisk /\
        ac_ActionType c ∈ ["vacuum_table"; "drop_unused_index"; "reindex_concurrently"])).
Proof.
  unfold BudgetBypassFor, diskMitigation, time_After.
  destruct (req_Contract req) as [c|]; [|done]. intros H. exists c. split; [done|].
  repeat case_hyp H; try done; reflect_all; [by left|by right; left|right; right|right; right];
    eexists; (split; [done|]); naive_solver.
Qed.

Definition vacuum_before_disk_full : ActionRequest :=
  {| req_DatabaseID := None;
     req_Contract := Some (sample_contract "vacuum_table" RiskSafe RollbackNoRollbackNeeded);
     req_Arguments := ""; req_InternalControl := false; req_SQL := "VACUUM t";
     req_TargetObjs := ["t"]; req_Feature := ChangeVacuum;
     req_Deadline := Some {| dl_Kind := DeadlineDisk; dl_Urgency := UrgencyCritical;
                             dl_HardAt := 5 * Hour |};
     req_Evidence := ∅; req_IsReplica := false; req_ExplainFamily := false;
     req_OperatorApproved := false; req_OwnerDeclared := false; req_IncidentFamily := "";
     req_EvidenceObservedAt := 0; req_LeaseHeld := false; req_Rollback := false;
     req_Principal := None; req_CapabilityClass := ""; req_ArtifactHash := "" |}.

Lemma bypass_only_emergencies_witness :
  BudgetBypassFor vacuum_before_disk_full Hour <> "" /\
  exists c, req_Contract vacuum_before_disk_full = Some c.
Proof.
  assert (H : BudgetBypassFor vacuum_before_disk_full Hour <> "") by (vm_compute; discriminate).
  split; [exact H|].
  destruct (bypass_only_emergencies _ _ H) as (c & Hc & _). by exists c.
Defined.
