(* ===== verification/Regex.v ===== *)
(** * Regular expressions, as far as the policy package uses package regexp

    A [regexp.MatchString] search over byte strings: literals and classes
    (case-insensitive where the pattern starts with [(?i)]), concatenation,
    alternation, repetition, the start of the text and word boundaries.  A
    position is the character before it, if any, and the rest of the text, so
    that the boundary assertions can look both ways. *)

From S2P Require Import Prelude.
From S2P Require Import GoStd.

Inductive re : Type :=
| Eps
| Chr (p : ascii -> bool)
| Cat (a b : re)
| Alt (a b : re)
| Star (a : re)
| Bot           (* ^ *)
| WordBoundary. (* \b *)

Abbreviation position := (option ascii * string)%type (only parsing).

(** ASCII word characters: [0-9A-Za-z_]. *)
Definition is_word (c : ascii) : bool := is_letter c || is_digit c || (code c =? 95).
Definition is_word_opt (c : option ascii) : bool :=
  match c with Some c => is_word c | None => false end.

(** [\s] in RE2 syntax: tab, newline, form feed, carriage return, space. *)
Definition is_re_space (c : ascii) : bool :=
  let z := code c in (z =? 9) || (z =? 10) || (z =? 12) || (z =? 13) || (z =? 32).

(** The end positions of [ends] repeated, each repetition consuming a
    character; [n] bounds the repetitions by the length of the text. *)
Fixpoint star_ends (ends : position -> list position) (n : nat) (p : position)
    : list position :=
  p :: match n with
       | O => []
       | S n' =>
           concat (map (star_ends ends n')
             (List.filter (fun q : position => (String.length q.2 <? String.length p.2)%nat)
                (ends p)))
       end.

(** The positions a match from a position can end at. *)
Fixpoint re_ends (r : re) (p : position) : list position :=
  match r with
  | Eps => [p]
  | Chr f => match p.2 with
             | String c s => if f c then [(Some c, s)] else []
             | EmptyString => []
             end
  | Cat a b => concat (map (re_ends b) (re_ends a p))
  | Alt a b => re_ends a p ++ re_ends b p
  | Star a => star_ends (re_ends a) (String.length p.2) p
  | Bot => match p.1 with None => [p] | Some _ => [] end
  | WordBoundary =>
      if xorb (is_word_opt p.1) (is_word_opt (head_char p.2)) then [p] else []
  end.

Definition re_matches_at (r : re) (p : position) : bool :=
  match re_ends r p with [] => false | _ => true end.

(** The search over every start position. *)
Fixpoint re_search (r : re) (prev : option ascii) (s : string) : bool :=
  re_matches_at r (prev, s) ||
  match s with
  | EmptyString => false
  | String c s' => re_search r (Some c) s'
  end.
Definition MatchString (r : re) (s : string) : bool := re_search r None s.

(** ** Building blocks of the patterns *)

Definition re_char_ci (c : ascii) : re := Chr (fun d => char_eqb (lower_char c) (lower_char d)).
Definition re_char (c : ascii) : re := Chr (char_eqb c).
(** A case-insensitive literal. *)
Fixpoint lit (s : string) : re :=
  match s with
  | EmptyString => Eps
  | String c s' => Cat (re_char_ci c) (lit s')
  end.
Definition plus (r : re) : re := Cat r (Star r).
Definition space0 : re := Star (Chr is_re_space).
Definition space1 : re := plus (Chr is_re_space).
Definition any : re := Star (Chr (fun _ => true)). (* .* with the s flag *)
Fixpoint alts (l : list re) : re :=
  match l with [] => Chr (fun _ => false) | [r] => r | r :: l' => Alt r (alts l') end.
Fixpoint cats (l : list re) : re :=
  match l with [] => Eps | [r] => r | r :: l' => Cat r (cats l') end.

(** * Properties *)

(** What a match means, independently of the search: [matches r p q] when [r]
    takes position [p] to [q]. *)
Inductive matches : re -> position -> position -> Prop :=
| m_eps p : matches Eps p p
| m_chr f c prev s : f c = true -> matches (Chr f) (prev, String c s) (Some c, s)
| m_cat a b p q r : matches a p q -> matches b q r -> matches (Cat a b) p r
| m_alt_l a b p q : matches a p q -> matches (Alt a b) p q
| m_alt_r a b p q : matches b p q -> matches (Alt a b) p q
| m_star_nil a p : matches (Star a) p p
| m_star_cons a p q r : matches a p q -> matches (Star a) q r -> matches (Star a) p r
| m_bot s : matches Bot (None, s) (None, s)
| m_boundary prev s :
    xorb (is_word_opt prev) (is_word_opt (head_char s)) = true ->
    matches WordBoundary (prev, s) (prev, s).
#[export] Hint Constructors matches : sage.

(** Splitting a text: the positions reachable by reading characters. *)
Inductive reads : position -> position -> Prop :=
| reads_refl p : reads p p
| reads_char prev c s q : reads (Some c, s) q -> reads (prev, String c s) q.
#[export] Hint Constructors reads : sage.

Lemma reads_trans p q r : reads p q -> reads q r -> reads p r.
Proof. induction 1; eauto with sage. Qed.

Lemma reads_length p q :
  reads p q -> (String.length q.2 <= String.length p.2)%nat /\
  (String.length q.2 = String.length p.2 -> q = p).
Proof.
  induction 1 as [p|prev c s q H [IH1 IH2]]; [done|]. simpl in *. split; [lia|].
  intros E. lia.
Qed.

Lemma matches_reads r p q : matches r p q -> reads p q.
Proof. induction 1; eauto using reads_trans with sage. Qed.

Lemma star_ends_sound ends a n :
  (forall p q, q ∈ ends p -> matches a p q) ->
  forall p q, q ∈ star_ends ends n p -> matches (Star a) p q.
Proof.
  intros Hends. induction n as [|n IH]; intros p q; simpl.
  - rewrite list_elem_of_singleton. intros ->. constructor.
  - rewrite elem_of_cons. intros [->|Hq]; [constructor|].
    apply list_elem_of_In, in_concat in Hq as (l & Hl & Hq).
    apply in_map_iff in Hl as (p' & <- & Hp'). apply filter_In in Hp' as [Hp' _].
    eapply m_star_cons; [apply Hends, list_elem_of_In, Hp'|apply IH, list_elem_of_In, Hq].
Qed.

Lemma star_ends_complete ends a :
  (forall p q, matches a p q -> q ∈ ends p) ->
  forall r p q, matches r p q -> r = Star a ->
  forall n, (String.length p.2 <= n)%nat -> q ∈ star_ends ends n p.
Proof.
  intros Hends r p q H. induction H as [| | | | |a' p|a' p q r Hm1 _ Hm2 IH| |];
    intros [=]; subst; intros n Hn; [destruct n; apply elem_of_cons; by left|].
  specialize (IH eq_refl). pose proof (matches_reads _ _ _ Hm1) as Hr.
  apply reads_length in Hr as [Hle Heq].
  destruct (Nat.eq_dec (String.length q.2) (String.length p.2)) as [E|Hne].
  { rewrite <- (Heq E). apply IH. lia. }
  destruct n as [|n]; [lia|]. simpl. apply elem_of_cons. right.
  apply list_elem_of_In, in_concat. exists (star_ends ends n q).
  split; [|apply list_elem_of_In, IH; lia].
  apply in_map, filter_In. split; [by apply list_elem_of_In, Hends|].
  apply Nat.ltb_lt. lia.
Qed.

Lemma re_ends_spec r : forall p q, q ∈ re_ends r p <-> matches r p q.
Proof.
  induction r as [|f|a IHa b IHb|a IHa b IHb|a IHa| |]; intros p q; simpl.
  - rewrite list_elem_of_singleton. split; [intros ->; constructor|by inversion 1].
  - destruct p as [prev [|c s]]; simpl; [split; [by intros ?%elem_of_nil|inversion 1]|].
    destruct (f c) eqn:E; split; try by intros ?%elem_of_nil.
    + rewrite list_elem_of_singleton. intros ->. by constructor.
    + inversion 1; subst. by apply list_elem_of_singleton.
    + inversion 1; congruence.
  - rewrite list_elem_of_In, in_concat. setoid_rewrite in_map_iff. split.
    + intros (l & (p' & <- & Hp') & Hq). apply list_elem_of_In in Hp', Hq.
      econstructor; [by apply IHa|by apply IHb].
    + inversion 1; subst. eexists. split; [eexists; split; [done|]|].
      * by apply list_elem_of_In, IHa.
      * by apply list_elem_of_In, IHb.
  - rewrite elem_of_app, IHa, IHb. split; [intros [?|?]; eauto with sage|].
    inversion 1; subst; eauto.
  - split.
    + apply star_ends_sound. intros ??. apply IHa.
    + intros H. eapply star_ends_complete; [intros ??; apply IHa|done|done|done].
  - destruct p as [[c|] s]; simpl; split; try (by intros ?%elem_of_nil); try by inversion 1.
    + rewrite list_elem_of_singleton. intros ->. constructor.
    + inversion 1; subst. by apply list_elem_of_singleton.
  - destruct p as [prev s]; simpl. destruct (xorb _ _) eqn:E; split.
    + rewrite list_elem_of_singleton. intros ->. by constructor.
    + inversion 1; subst. by apply list_elem_of_singleton.
    + by intros ?%elem_of_nil.
    + inversion 1; congruence.
Qed.

Lemma re_matches_at_spec r p : re_matches_at r p = true <-> exists q, matches r p q.
Proof.
  unfold re_matches_at. setoid_rewrite <- re_ends_spec. destruct (re_ends r p) as [|q l].
  - split; [done|]. by intros (q & ?%elem_of_nil).
  - split; [|done]. intros _. exists q. apply elem_of_cons. by left.
Qed.

(** The search finds a match exactly when some position of the text starts
    one. *)
Lemma MatchString_spec r s :
  MatchString r s = true <-> exists p q, reads (None, s) p /\ matches r p q.
Proof.
  unfold MatchString. generalize (None : option ascii) as prev. induction s as [|c s IH];
    intros prev; simpl; rewrite orb_true_iff, re_matches_at_spec.
  - split; [intros [[q H]|?]; [eauto with sage|done]|].
    intros (p & q & Hr & Hm). left. inversion Hr; subst. eauto.
  - rewrite (IH (Some c)). split.
    + intros [[q H]|(p & q & Hr & Hm)]; eauto 6 with sage.
    + intros (p & q & Hr & Hm). inversion Hr; subst; eauto.
Qed.
