(* ===== verification/Refusal.v ===== *)
(** * The refusal set

    internal/policy/refusal.go: the requests a document sends to a human even
    when everything else would let them run. *)

From S2P Require Import Prelude.
From S2P Require Import GoStd.
From S2P Require Import PolicyTypes.
From S2P Require Import Regex.

Definition RefusalRLSChange : string := "rls_change".
Definition RefusalGrantExpansion : string := "grant_expansion".
Definition RefusalMajorUpgrade : string := "major_upgrade".
Definition RefusalNonDupObjectDrop : string := "non_dup_object_drop".
Definition RefusalUnrollbackable : string := "unrollbackable".

(** ** The patterns, all with the flag [i] *)

Definition b_ : re := WordBoundary.
(** [^\s*] *)
Definition stmt_start : re := Cat Bot space0.

Definition rlsChangeSQL : re :=
  Alt (cats [b_; alts [lit "ENABLE"; lit "DISABLE"; lit "FORCE"]; space1; lit "ROW"; space1;
             lit "LEVEL"; space1; lit "SECURITY"; b_])
      (cats [b_; alts [lit "CREATE"; lit "ALTER"; lit "DROP"]; space1; lit "POLICY"; b_]).

Definition grantExpansionSQL : re :=
  alts [cats [stmt_start; lit "GRANT"; b_];
        cats [b_; lit "ALTER"; space1; alts [lit "ROLE"; lit "USER"; lit "GROUP"]; b_];
        cats [b_; lit "OWNER"; space1; lit "TO"; b_];
        cats [b_; lit "ALTER"; space1; lit "DEFAULT"; space1; lit "PRIVILEGES"; b_]].

Definition extensionUpgradeSQL : re :=
  cats [stmt_start; lit "ALTER"; space1; lit "EXTENSION"; b_; any; b_; lit "UPDATE"; b_].

Definition nonDerivableDropSQL : re :=
  Alt (cats [stmt_start; lit "DROP"; space1;
             alts [lit "TABLE"; lit "SCHEMA"; lit "SEQUENCE"; lit "VIEW";
                   cats [lit "MATERIALIZED"; space1; lit "VIEW"]; lit "TYPE"; lit "DOMAIN";
                   lit "FUNCTION"; lit "PROCEDURE"; lit "EXTENSION"; lit "DATABASE";
                   lit "PUBLICATION"; lit "SUBSCRIPTION"]; b_])
      (cats [b_; lit "pg_drop_replication_slot"; space0; re_char "("]).

Definition alterTableSQL : re := cats [stmt_start; lit "ALTER"; space1; lit "TABLE"; b_].

(** [alterTableDropWord.FindAllStringSubmatch(sql, -1)] for
    [(?i)\bDROP\s+(\w+)]: the words after each DROP, left to right; the next
    search starts where the last match ended. *)
Fixpoint take_while (f : ascii -> bool) (s : string) : string * string :=
  match s with
  | String c s' => if f c then let '(a, b) := take_while f s' in (String c a, b)
                   else (EmptyString, s)
  | EmptyString => (EmptyString, EmptyString)
  end.

Definition drop_word_at (prev : option ascii) (s : string) : option (string * string) :=
  if negb (xorb (is_word_opt prev) (is_word_opt (head_char s))) then None else
  if negb (HasPrefix (ToUpper s) "DROP") then None else
  let '(spaces, rest) := take_while is_re_space (drop_chars 4 s) in
  let '(word, rest') := take_while is_word rest in
  if (spaces =s "") || (word =s "") then None else Some (word, rest').

Definition last_char (s : string) : option ascii := head_char (String.rev s).

Fixpoint drop_words (fuel : nat) (prev : option ascii) (s : string) : list string :=
  match fuel with
  | O => []
  | S fuel' =>
      match drop_word_at prev s with
      | Some (word, rest) => word :: drop_words fuel' (last_char word) rest
      | None => match s with
                | EmptyString => []
                | String c s' => drop_words fuel' (Some c) s'
                end
      end
  end.

Definition alterTableDropsObject (sql : string) : bool :=
  if negb (MatchString alterTableSQL sql) then false
  else existsb (fun word =>
         negb (str_in (ToUpper word) ["DEFAULT"; "NOT"; "EXPRESSION"; "IDENTITY"]))
       (drop_words (S (String.length sql)) None sql).

(** ** The predicates *)

Definition rlsChange (req : ActionRequest) : bool := MatchString rlsChangeSQL (req_SQL req).

Definition grantExpansion (req : ActionRequest) : bool :=
  MatchString grantExpansionSQL (req_SQL req).

(** The remaining predicates read the contract, which [RefusedBy] has checked. *)
Definition majorUpgrade (c : ActionContract) (req : ActionRequest) : bool :=
  if str_in (ac_ActionType c) ["major_upgrade"; "extension_update"] then true
  else MatchString extensionUpgradeSQL (req_SQL req).

Definition unrollbackable (c : ActionContract) (req : ActionRequest) : bool :=
  let class := ac_RollbackClass c in
  ((class =s RollbackNotReversible) || (class =s RollbackForwardFixOnly)) &&
  negb (req_OwnerDeclared req).

Definition dropKind (c : ActionContract) (req : ActionRequest) : DropKind :=
  if ac_DropKind c <>s "" then ac_DropKind c else
  if MatchString nonDerivableDropSQL (req_SQL req) || alterTableDropsObject (req_SQL req)
  then DropNonDerivable else "".

Definition nonDerivableDrop (c : ActionContract) (req : ActionRequest) : bool :=
  dropKind c req =s DropNonDerivable.

(** [refusalPredicates]: [None] for an unknown token. *)
Definition refusalPredicate (token : string)
    : option (ActionContract -> ActionRequest -> bool) :=
  if token =s RefusalRLSChange then Some (fun _ => rlsChange) else
  if token =s RefusalGrantExpansion then Some (fun _ => grantExpansion) else
  if token =s RefusalMajorUpgrade then Some majorUpgrade else
  if token =s RefusalNonDupObjectDrop then Some nonDerivableDrop else
  if token =s RefusalUnrollbackable then Some unrollbackable else None.

Definition token_matches (c : ActionContract) (req : ActionRequest) (token : string) : bool :=
  match refusalPredicate token with Some predicate => predicate c req | None => false end.

(** The first token of the set, in document order, whose predicate matches. *)
Definition RefusedBy (doc : Document) (req : ActionRequest) : option string :=
  match req_Contract req with
  | None => None
  | Some c => List.find (token_matches c req) (doc_RefusalSet doc)
  end.

Definition refusalDecision (doc : Document) (req : ActionRequest) : option Decision :=
  if requestIsReadOnly req then None else
  match RefusedBy doc req with
  | None => None
  | Some token =>
      Some (set_Detail token
        (decisionForRequest req (blockedAs VerdictQueueApproval ReasonRefusedByPolicy)))
  end.

(** The tokens in the order of [sort.Strings]. *)
Definition KnownRefusalTokens : list string :=
  [RefusalGrantExpansion; RefusalMajorUpgrade; RefusalNonDupObjectDrop; RefusalRLSChange;
   RefusalUnrollbackable].

Definition validateRefusalSet (tokens : list string) : result unit :=
  first_error (fun token =>
    match refusalPredicate token with
    | Some _ => Ok tt
    | None => Err ("refusal_set: unknown token " +:+ quote token +:+ " (known: "
                   +:+ Join KnownRefusalTokens ", " +:+ ")")
    end) tokens.

Definition knownRollbackClass (class : RollbackClass) : bool :=
  str_in class ["" ; RollbackReversible; RollbackNoRollbackNeeded; RollbackNotApplicable;
    RollbackApplication; RollbackForwardFixOnly; RollbackNotReversible; RollbackMitigationOnly].

Definition knownDropKind (kind : DropKind) : bool :=
  (kind =s "") || (kind =s DropDerivable) || (kind =s DropNonDerivable).

(** * Properties *)

Example drop_words_example :
  drop_words 99 None "ALTER TABLE t DROP COLUMN c, ALTER x drop  default" =
    ["COLUMN"; "default"] /\
  alterTableDropsObject "ALTER TABLE t ALTER COLUMN a DROP NOT NULL" = false /\
  alterTableDropsObject "alter table t drop constraint c" = true.
Proof. by vm_compute. Qed.

Lemma refusalDecision_queues doc req d :
  refusalDecision doc req = Some d ->
  dec_Verdict d = VerdictQueueApproval /\ dec_Reason d = ReasonRefusedByPolicy.
Proof.
  unfold refusalDecision. destruct (requestIsReadOnly req); [done|].
  destruct (RefusedBy doc req); [|done]. intros [= <-]. simpl.
  by rewrite decisionForRequest_verdict, decisionForRequest_reason.
Qed.

Lemma RefusedBy_None doc req c :
  req_Contract req = Some c ->
  RefusedBy doc req = None <-> forall t, t ∈ doc_RefusalSet doc -> token_matches c req t = false.
Proof.
  intros Hc. unfold RefusedBy. rewrite Hc. split.
  - intros H t Ht. eapply find_none; [done|by apply list_elem_of_In].
  - intros H. destruct (List.find _ _) eqn:E; [|done].
    apply find_some_in in E as [Hin Hm]. rewrite (H _ Hin) in Hm. done.
Qed.

(** A larger refusal set refuses more. *)
Lemma refusalDecision_mono base next req :
  doc_RefusalSet base ⊆ doc_RefusalSet next ->
  refusalDecision next req = None -> refusalDecision base req = None.
Proof.
  intros Hsub. unfold refusalDecision. destruct (requestIsReadOnly req); [done|].
  destruct (req_Contract req) as [c|] eqn:Hc; [|unfold RefusedBy; by rewrite Hc].
  destruct (RefusedBy next req) eqn:E; [done|]. intros _.
  rewrite (RefusedBy_None _ _ c Hc) in E.
  destruct (RefusedBy base req) eqn:E'; [|done].
  unfold RefusedBy in E'. rewrite Hc in E'. apply find_some_in in E' as [Hin Hm].
  rewrite E in Hm; [done|by apply Hsub].
Qed.

(** ** A statement keyword is found whatever its case and the white space in
    front of it *)

Lemma matches_spaces ws rest prev :
  forallb is_re_space (str_chars ws) = true ->
  exists prev', matches space0 (prev, ws +:+ rest) (prev', rest) /\
    (ws = "" -> prev' = prev) /\ (ws <> "" -> is_word_opt prev' = false).
Proof.
  revert prev. induction ws as [|c ws IH]; intros prev; simpl.
  - intros _. exists prev. split; [constructor|done].
  - rewrite andb_true_iff. intros [Hc Hws]. destruct (IH (Some c) Hws) as (p & Hp & He & Hn).
    exists p. split; [|split; [done|]].
    + eapply m_star_cons; [by constructor|exact Hp].
    + intros _. destruct ws as [|c' ws']; [|by apply Hn]. rewrite He by done. simpl.
      unfold is_re_space in Hc. unfold is_word, is_letter, is_upper, is_lower, is_digit.
      destruct (code c) as [|p'|p'] eqn:E; try done; reflect_all; lia.
Qed.

(** The character before the rest once [text] has been read. *)
Fixpoint last_read (prev : option ascii) (text : string) : option ascii :=
  match text with EmptyString => prev | String c text' => last_read (Some c) text' end.

Lemma matches_lit kw : forall text rest prev,
  ToLower text = ToLower kw ->
  matches (lit kw) (prev, text +:+ rest) (last_read prev text, rest).
Proof.
  induction kw as [|k kw IH]; intros [|t text] rest prev; try done; simpl.
  - intros _. constructor.
  - intros [= Hc Ht]. eapply m_cat; [|by apply IH].
    constructor. unfold char_eqb. apply Ascii.eqb_eq. done.
Qed.

Lemma is_word_lower c : is_word (lower_char c) = is_word c.
Proof.
  unfold lower_char. destruct (is_upper c) eqn:E; [|done].
  destruct c as [[] [] [] [] [] [] [] []]; done.
Qed.

Lemma last_read_word text prev :
  forallb is_word (str_chars text) = true -> text <> "" ->
  is_word_opt (last_read prev text) = true.
Proof.
  revert prev. induction text as [|c text IH]; intros prev; simpl; [done|].
  rewrite andb_true_iff. intros [Hc Ht] _. destruct text as [|c' text']; [done|].
  by apply IH.
Qed.

Lemma ToLower_word text kw :
  ToLower text = ToLower kw ->
  forallb is_word (str_chars text) = forallb is_word (str_chars kw).
Proof.
  revert kw. induction text as [|c text IH]; intros [|k kw]; try done; simpl.
  intros [= Hc Ht]. rewrite <- (is_word_lower c), <- (is_word_lower k), Hc. by rewrite (IH kw).
Qed.

(** A pattern [^\s*KEYWORD\b] finds the keyword. *)
Lemma stmt_keyword_matches kw ws text rest :
  forallb is_re_space (str_chars ws) = true ->
  ToLower text = ToLower kw -> forallb is_word (str_chars kw) = true -> text <> "" ->
  is_word_opt (head_char rest) = false ->
  exists q, matches (cats [stmt_start; lit kw; b_]) (None, ws +:+ text +:+ rest) q.
Proof.
  intros Hws Hkw Hword Hne Hrest.
  destruct (matches_spaces ws (text +:+ rest) None Hws) as (p & Hp & _).
  assert (Hm : matches (cats [stmt_start; lit kw; b_]) (None, ws +:+ text +:+ rest)
                 (last_read p text, rest)); [|by eexists].
  eapply m_cat; [eapply m_cat; [constructor|exact Hp]|].
  eapply m_cat; [by apply matches_lit|]. constructor.
  rewrite (last_read_word text p), Hrest; [done|by rewrite (ToLower_word _ _ Hkw)|done].
Qed.

(** ** The properties *)

(** A document sends exactly the non-read-only requests one of its tokens
    matches to a human, naming the first matching token in document order; the
    others it leaves alone. *)
Theorem refusal_first_match doc req c :
  req_Contract req = Some c ->
  match refusalDecision doc req with
  | Some d =>
      dec_Verdict d = VerdictQueueApproval /\ dec_Reason d = ReasonRefusedByPolicy /\
      requestIsReadOnly req = false /\
      exists before after, doc_RefusalSet doc = before ++ dec_Detail d :: after /\
        token_matches c req (dec_Detail d) = true /\
        Forall (fun token => token_matches c req token = false) before
  | None =>
      requestIsReadOnly req = true \/
      Forall (fun token => token_matches c req token = false) (doc_RefusalSet doc)
  end.
Proof.
  intros Hc. unfold refusalDecision. destruct (requestIsReadOnly req); [by left|].
  unfold RefusedBy. rewrite Hc. destruct (List.find _ _) as [token|] eqn:E.
  - simpl. rewrite decisionForRequest_verdict, decisionForRequest_reason. split_and!; try done.
    by apply find_split in E.
  - right. by apply find_none_forall.
Qed.

Lemma refusal_first_match_witness :
  exists req c, req_Contract req = Some c /\ requestIsReadOnly req = false /\
    Forall (fun token => token_matches c req token = false) (doc_RefusalSet sample_document).
Proof.
  set (c := sample_contract "create_index_concurrently" RiskSafe RollbackReversible).
  set (req := sample_request c ChangeIndex "CREATE INDEX CONCURRENTLY i ON t (a)" "t").
  exists req, c. split; [done|]. split; [done|].
  pose proof (refusal_first_match sample_document req c eq_refl) as H.
  assert (E : refusalDecision sample_document req = None) by by vm_compute.
  rewrite E in H. by destruct H.
Defined.

(** GRANT is refused however it is written: any white space in front, any
    case, as long as the word ends there. *)
Theorem grant_always_refused req ws text rest :
  req_SQL req = ws +:+ text +:+ rest ->
  forallb is_re_space (str_chars ws) = true -> ToLower text = "grant" ->
  is_word_opt (head_char rest) = false ->
  grantExpansion req = true.
Proof.
  intros Hsql Hws Htext Hrest. unfold grantExpansion. rewrite Hsql. apply MatchString_spec.
  destruct (stmt_keyword_matches "GRANT" ws text rest) as [q Hq]; try done; [by intros ->|].
  eexists _, q. split; [constructor|]. by apply m_alt_l.
Qed.

Lemma grant_always_refused_witness : exists req, req_SQL req = "  gRant select on t to u" /\
  grantExpansion req = true.
Proof.
  exists (sample_request (sample_contract "sql" RiskHigh "") "" "  gRant select on t to u" "t").
  split; [done|].
  by apply (grant_always_refused _ "  " "gRant" " select on t to u").
Defined.
