(* ===== verification/Document.v ===== *)
(** * Policy documents

    internal/policy/document.go and budget_document.go: the validation of
    documents and contracts, the built-in profiles and the JSON wire format
    (on JSON values: the bytes are encoding/json's), and widen.go, the order
    in which one document grants no more than another. *)

From S2P Require Import Prelude.
From S2P Require Import GoStd.
From S2P Require Import PolicyTypes.
From S2P Require Import Window.
From S2P Require Import Budget.
From S2P Require Import Refusal.

(** ** Validation *)

Definition AgentChangeClasses : list ChangeClass :=
  [ChangeAgentAccess; ChangeAgentDataWrite; ChangeAgentSchemaChange;
   ChangeAgentMaintenance; ChangeAgentSandbox; ChangeAgentEstate].

Definition IsAgentChangeClass (class : ChangeClass) : bool :=
  containsChangeClass AgentChangeClasses class.

Definition allChangeClasses : list ChangeClass :=
  [ChangeIndex; ChangeAnalyze; ChangeVacuum; ChangeFreeze;
   ChangeAutovacuumTuning; ChangeConfigGUC; ChangeRetention;
   ChangeFKIndex; ChangeOnlineMigration; ChangeBackendSignal; ChangeQueryHint;
   ChangeSchemaChange; ChangeAgentAccess; ChangeAgentDataWrite; ChangeAgentSchemaChange;
   ChangeAgentMaintenance; ChangeAgentSandbox; ChangeAgentEstate].

Definition validateClasses (classes : list ChangeClass) : result unit :=
  first_error (fun class =>
    if containsChangeClass allChangeClasses class then Ok tt
    else Err ("unknown change class " +:+ quote class)) classes.

Definition BudgetLimit_Value (l : BudgetLimit) : option Z := bl_value l.

(** The source ranges over a map; here the three limits are visited in the
    order of the document, so only which of several errors is reported is
    fixed. *)
Definition validateBudgets (budgets : Budgets) : result unit :=
  first_error (fun '(name, limit) =>
    if negb (bl_Present limit) then Err ("budgets." +:+ name +:+ ": missing") else
    match BudgetLimit_Value limit with
    | Some value => if value <? 0 then Err ("budgets." +:+ name +:+ " cannot be negative")
                    else Ok tt
    | None => Ok tt
    end)
    [("storage_bytes", bu_StorageBytes budgets); ("spend_daily", bu_SpendDaily budgets);
     ("llm_tokens_daily", bu_LLMTokensDaily budgets)].

Definition validateBlastRadius (doc : Document) : result unit :=
  if br_MaxRowsRewritten (doc_BlastRadius doc) <? 0
  then Err "max_rows_rewritten cannot be negative"
  else first_error (fun kind =>
    let budget := Budget doc kind in
    if kb_MaxTablesPerWindow budget <? 0
    then Err ("blast_radius." +:+ kind +:+ ".max_tables_per_window cannot be negative") else
    if kb_MaxChangesPerWindow budget <? 0
    then Err ("blast_radius." +:+ kind +:+ ".max_changes_per_window cannot be negative")
    else Ok tt) [BudgetPerformance; BudgetHygiene].

Definition validateWindows `{GoEnv} (windows : list string) : result unit :=
  match windows with
  | [] => Err "maintenance_windows cannot be empty"
  | _ => first_error (fun expression => rbind (ParseWindow expression) (fun _ => Ok tt)) windows
  end.

Definition ValidateDocument `{GoEnv} (doc : Document) : result unit :=
  if doc_UnknownClassification doc <>s "fail_closed"
  then Err "unknown_classification must be fail_closed" else
  if (doc_SerializeMode doc <>s "park") && (doc_SerializeMode doc <>s "queue")
  then Err ("serialize_mode " +:+ quote (doc_SerializeMode doc) +:+ " is invalid") else
  if doc_LockDurationCeilingMS doc <? 0
  then Err "lock_duration_ceiling_ms cannot be negative" else
  let? _ := validateRefusalSet (doc_RefusalSet doc) in
  let? _ := validateBlastRadius doc in
  let? _ := validateBudgets (doc_Budgets doc) in
  let? _ := validateClasses (doc_AllowedChangeClasses doc) in
  let? _ := validateClasses (doc_ApprovalRequiredClasses doc) in
  validateWindows (doc_MaintenanceWindows doc).

Definition ValidateContract (contract : ActionContract) : result unit :=
  if TrimSpace (ac_ActionType contract) =s "" then Err "action type is missing" else
  if negb (knownRisk (ac_RiskTier contract))
  then Err ("unknown risk tier " +:+ quote (ac_RiskTier contract)) else
  let? _ := first_error (fun guardrail =>
      if guardrail <>s GuardrailApprovalRequired
      then Err ("unknown guardrail " +:+ quote guardrail) else Ok tt)
    (ac_Guardrails contract) in
  if negb (knownRollbackClass (ac_RollbackClass contract))
  then Err ("unknown rollback class " +:+ quote (ac_RollbackClass contract)) else
  if negb (knownDropKind (ac_DropKind contract))
  then Err ("unknown drop kind " +:+ quote (ac_DropKind contract)) else Ok tt.

(** ** The profiles

    [baseProfile] takes the three fields the profiles set after calling it. *)

Definition baseProfile (profile : Profile) (windows : list string)
    (overrides : gmap DeadlineKind bool) : Document :=
  {| doc_Profile := profile;
     doc_AllowedChangeClasses := allChangeClasses;
     doc_ApprovalRequiredClasses := ChangeOnlineMigration :: AgentChangeClasses;
     doc_MaintenanceWindows := windows;
     doc_LockDurationCeilingMS := 3000;
     doc_BlastRadius :=
       {| br_MaxRowsRewritten := 5000000;
          br_MaxTablesPerWindow := DefaultPerformanceTablesPerWindow;
          br_Hygiene := DefaultHygieneBudget |};
     doc_Budgets := {| bu_StorageBytes := NoCapBudget; bu_SpendDaily := NoCapBudget;
                       bu_LLMTokensDaily := NewBudgetLimit 500000 |};
     doc_MaxSelfInitiatedChangesPerWindow := DefaultPerformanceChangesPerWindow;
     doc_DeadlineOverrides := overrides;
     doc_RefusalSet := ["rls_change"; "grant_expansion"; "major_upgrade";
                        "non_dup_object_drop"; "unrollbackable"];
     doc_UnknownClassification := "fail_closed";
     doc_SerializeMode := "park" |}.

Definition StaffedProfile : Document :=
  baseProfile ProfileStaffed ["weekdays 01:00-05:00"]
    {[ DeadlineXID := false; DeadlineDisk := false ]}.

Definition UnattendedProfile : Document :=
  baseProfile ProfileUnattended ["always"; "weekends"]
    {[ DeadlineXID := true; DeadlineDisk := true ]}.

(** ** JSON values and encoding/json's decoding into structs

    An object keeps its members in order.  A member's field is the one with the
    same name, else one that differs only in case; an unknown member is an
    error ([DisallowUnknownFields]); [null] leaves a non-pointer field alone.
    [JNum] is a number literal that is not an integer. *)

#[warnings="-register-all"]
Inductive json : Type :=
| JNull
| JBool (b : bool)
| JInt (z : Z)
| JNum (literal : string)
| JStr (s : string)
| JArr (l : list json)
| JObj (members : list (string * json)).

Definition decoder (T : Type) : Type := T -> json -> result T.

Definition type_error : error := "json: cannot unmarshal value".

Definition decode_int64 : decoder Z := fun cur j =>
  match j with
  | JNull => Ok cur
  | JInt z => if (min_int64 <=? z) && (z <=? max_int64) then Ok z else Err type_error
  | _ => Err type_error
  end.
Definition decode_string : decoder string := fun cur j =>
  match j with JNull => Ok cur | JStr s => Ok s | _ => Err type_error end.
Definition decode_bool : decoder bool := fun cur j =>
  match j with JNull => Ok cur | JBool b => Ok b | _ => Err type_error end.
Definition decode_raw : decoder (option json) := fun _ j => Ok (Some j).
(** A pointer: [null] is nil, else a fresh or the present value is filled. *)
Definition decode_ptr {T} (zero : T) (dec : decoder T) : decoder (option T) := fun cur j =>
  match j with
  | JNull => Ok None
  | _ => let? v := dec (default zero cur) j in Ok (Some v)
  end.
Definition decode_slice {T} (zero : T) (dec : decoder T) : decoder (list T) := fun _ j =>
  match j with
  | JNull => Ok []
  | JArr l => rmap (dec zero) l
  | _ => Err type_error
  end.
Fixpoint decode_members (cur : gmap string bool) (l : list (string * json))
    : result (gmap string bool) :=
  match l with
  | [] => Ok cur
  | (key, j) :: l' => let? b := decode_bool false j in decode_members (<[key := b]> cur) l'
  end.
Definition decode_bool_map : decoder (gmap string bool) := fun cur j =>
  match j with JNull => Ok ∅ | JObj l => decode_members cur l | _ => Err type_error end.

(** The fields of a struct: the JSON name and how the member is stored. *)
Abbreviation fields T := (list (string * decoder T)) (only parsing).

Definition field_for {T} (fs : fields T) (key : string) : option (decoder T) :=
  match List.find (fun f : string * decoder T => f.1 =s key) fs with
  | Some f => Some f.2
  | None => snd <$> List.find (fun f : string * decoder T => EqualFold f.1 key) fs
  end.
Fixpoint decode_fields {T} (fs : fields T) (cur : T) (l : list (string * json)) : result T :=
  match l with
  | [] => Ok cur
  | (key, j) :: l' =>
      match field_for fs key with
      | None => Err ("json: unknown field " +:+ quote key)
      | Some dec => let? cur' := dec cur j in decode_fields fs cur' l'
      end
  end.
Definition decodeStrict {T} (fs : fields T) : decoder T := fun cur j =>
  match j with JNull => Ok cur | JObj l => decode_fields fs cur l | _ => Err type_error end.

(** ** The wire types *)

Record kindBudgetWire : Type := {
  kbw_MaxTablesPerWindow : option Z;
  kbw_MaxChangesPerWindow : option Z;
}.
Record blastRadiusWire : Type := {
  brw_MaxRowsRewritten : Z;
  brw_MaxTablesPerWindow : option Z;
  brw_Performance : option kindBudgetWire;
  brw_Hygiene : option kindBudgetWire;
}.
Record rateLimitsWire : Type := {
  rlw_MaxSelfInitiatedChangesPerWindow : option Z;
}.
Record budgetWire : Type := {
  bw_StorageBytes : option json;
  bw_SpendDaily : option json;
  bw_LLMTokensDaily : option json;
}.
Record documentWire : Type := {
  dw_AllowedChangeClasses : list ChangeClass;
  dw_ApprovalRequiredClasses : list ChangeClass;
  dw_MaintenanceWindows : list string;
  dw_LockDurationCeilingMS : Z;
  dw_BlastRadius : blastRadiusWire;
  dw_Budgets : option json;
  dw_RateLimits : rateLimitsWire;
  dw_DeadlineOverrides : gmap string bool;
  dw_RefusalSet : list string;
  dw_UnknownClassification : string;
  dw_SerializeMode : string;
}.

(** How each struct's members are stored. *)
Definition kindBudgetFields : fields kindBudgetWire :=
  [("max_tables_per_window", fun w j => rbind (decode_ptr 0 decode_int64 (kbw_MaxTablesPerWindow w) j) (fun v => Ok
      {| kbw_MaxTablesPerWindow := v;
         kbw_MaxChangesPerWindow := kbw_MaxChangesPerWindow w |}));
   ("max_changes_per_window", fun w j => rbind (decode_ptr 0 decode_int64 (kbw_MaxChangesPerWindow w) j) (fun v => Ok
      {| kbw_MaxTablesPerWindow := kbw_MaxTablesPerWindow w; kbw_MaxChangesPerWindow := v |}))].
Definition no_kind_budget : kindBudgetWire :=
  {| kbw_MaxTablesPerWindow := None; kbw_MaxChangesPerWindow := None |}.
Definition decode_kind_budget : decoder (option kindBudgetWire) :=
  decode_ptr no_kind_budget (decodeStrict kindBudgetFields).
Definition blastRadiusFields : fields blastRadiusWire :=
  [("max_rows_rewritten", fun w j => rbind (decode_int64 (brw_MaxRowsRewritten w) j) (fun v => Ok
      {| brw_MaxRowsRewritten := v; brw_MaxTablesPerWindow := brw_MaxTablesPerWindow w;
         brw_Performance := brw_Performance w; brw_Hygiene := brw_Hygiene w |}));
   ("max_tables_per_window", fun w j => rbind (decode_ptr 0 decode_int64 (brw_MaxTablesPerWindow w) j) (fun v => Ok
      {| brw_MaxRowsRewritten := brw_MaxRowsRewritten w; brw_MaxTablesPerWindow := v;
         brw_Performance := brw_Performance w; brw_Hygiene := brw_Hygiene w |}));
   ("performance", fun w j => rbind (decode_kind_budget (brw_Performance w) j) (fun v => Ok
      {| brw_MaxRowsRewritten := brw_MaxRowsRewritten w;
         brw_MaxTablesPerWindow := brw_MaxTablesPerWindow w; brw_Performance := v;
         brw_Hygiene := brw_Hygiene w |}));
   ("hygiene", fun w j => rbind (decode_kind_budget (brw_Hygiene w) j) (fun v => Ok
      {| brw_MaxRowsRewritten := brw_MaxRowsRewritten w;
         brw_MaxTablesPerWindow := brw_MaxTablesPerWindow w;
         brw_Performance := brw_Performance w; brw_Hygiene := v |}))].
Definition rateLimitsFields : fields rateLimitsWire :=
  [("max_self_initiated_changes_per_window", fun w j => rbind (decode_ptr 0 decode_int64 (rlw_MaxSelfInitiatedChangesPerWindow w) j) (fun v => Ok
      {| rlw_MaxSelfInitiatedChangesPerWindow := v |}))].
Definition budgetFields : fields budgetWire :=
  [("storage_bytes", fun w j => rbind (decode_raw (bw_StorageBytes w) j) (fun v => Ok
      {| bw_StorageBytes := v; bw_SpendDaily := bw_SpendDaily w;
         bw_LLMTokensDaily := bw_LLMTokensDaily w |}));
   ("spend_daily", fun w j => rbind (decode_raw (bw_SpendDaily w) j) (fun v => Ok
      {| bw_StorageBytes := bw_StorageBytes w; bw_SpendDaily := v;
         bw_LLMTokensDaily := bw_LLMTokensDaily w |}));
   ("llm_tokens_daily", fun w j => rbind (decode_raw (bw_LLMTokensDaily w) j) (fun v => Ok
      {| bw_StorageBytes := bw_StorageBytes w; bw_SpendDaily := bw_SpendDaily w;
         bw_LLMTokensDaily := v |}))].
Definition documentFields : fields documentWire :=
  [("allowed_change_classes", fun w j => rbind (decode_slice "" decode_string (dw_AllowedChangeClasses w) j) (fun v => Ok
      {| dw_AllowedChangeClasses := v;
         dw_ApprovalRequiredClasses := dw_ApprovalRequiredClasses w;
         dw_MaintenanceWindows := dw_MaintenanceWindows w;
         dw_LockDurationCeilingMS := dw_LockDurationCeilingMS w;
         dw_BlastRadius := dw_BlastRadius w; dw_Budgets := dw_Budgets w;
         dw_RateLimits := dw_RateLimits w;
         dw_DeadlineOverrides := dw_DeadlineOverrides w;
         dw_RefusalSet := dw_RefusalSet w;
         dw_UnknownClassification := dw_UnknownClassification w;
         dw_SerializeMode := dw_SerializeMode w |}));
   ("approval_required_classes", fun w j => rbind (decode_slice "" decode_string (dw_ApprovalRequiredClasses w) j) (fun v => Ok
      {| dw_AllowedChangeClasses := dw_AllowedChangeClasses w;
         dw_ApprovalRequiredClasses := v;
         dw_MaintenanceWindows := dw_MaintenanceWindows w;
         dw_LockDurationCeilingMS := dw_LockDurationCeilingMS w;
         dw_BlastRadius := dw_BlastRadius w; dw_Budgets := dw_Budgets w;
         dw_RateLimits := dw_RateLimits w;
         dw_DeadlineOverrides := dw_DeadlineOverrides w;
         dw_RefusalSet := dw_RefusalSet w;
         dw_UnknownClassification := dw_UnknownClassification w;
         dw_SerializeMode := dw_SerializeMode w |}));
   ("maintenance_windows", fun w j => rbind (decode_slice "" decode_string (dw_MaintenanceWindows w) j) (fun v => Ok
      {| dw_AllowedChangeClasses := dw_AllowedChangeClasses w;
         dw_ApprovalRequiredClasses := dw_ApprovalRequiredClasses w;
         dw_MaintenanceWindows := v;
         dw_LockDurationCeilingMS := dw_LockDurationCeilingMS w;
         dw_BlastRadius := dw_BlastRadius w; dw_Budgets := dw_Budgets w;
         dw_RateLimits := dw_RateLimits w;
         dw_DeadlineOverrides := dw_DeadlineOverrides w;
         dw_RefusalSet := dw_RefusalSet w;
         dw_UnknownClassification := dw_UnknownClassification w;
         dw_SerializeMode := dw_SerializeMode w |}));
   ("lock_duration_ceiling_ms", fun w j => rbind (decode_int64 (dw_LockDurationCeilingMS w) j) (fun v => Ok
      {| dw_AllowedChangeClasses := dw_AllowedChangeClasses w;
         dw_ApprovalRequiredClasses := dw_ApprovalRequiredClasses w;
         dw_MaintenanceWindows := dw_MaintenanceWindows w;
         dw_LockDurationCeilingMS := v; dw_BlastRadius := dw_BlastRadius w;
         dw_Budgets := dw_Budgets w; dw_RateLimits := dw_RateLimits w;
         dw_DeadlineOverrides := dw_DeadlineOverrides w;
         dw_RefusalSet := dw_RefusalSet w;
         dw_UnknownClassification := dw_UnknownClassification w;
         dw_SerializeMode := dw_SerializeMode w |}));
   ("blast_radius", fun w j => rbind (decodeStrict blastRadiusFields (dw_BlastRadius w) j) (fun v => Ok
      {| dw_AllowedChangeClasses := dw_AllowedChangeClasses w;
         dw_ApprovalRequiredClasses := dw_ApprovalRequiredClasses w;
         dw_MaintenanceWindows := dw_MaintenanceWindows w;
         dw_LockDurationCeilingMS := dw_LockDurationCeilingMS w; dw_BlastRadius := v;
         dw_Budgets := dw_Budgets w; dw_RateLimits := dw_RateLimits w;
         dw_DeadlineOverrides := dw_DeadlineOverrides w;
         dw_RefusalSet := dw_RefusalSet w;
         dw_UnknownClassification := dw_UnknownClassification w;
         dw_SerializeMode := dw_SerializeMode w |}));
   ("budgets", fun w j => rbind (decode_raw (dw_Budgets w) j) (fun v => Ok
      {| dw_AllowedChangeClasses := dw_AllowedChangeClasses w;
         dw_ApprovalRequiredClasses := dw_ApprovalRequiredClasses w;
         dw_MaintenanceWindows := dw_MaintenanceWindows w;
         dw_LockDurationCeilingMS := dw_LockDurationCeilingMS w;
         dw_BlastRadius := dw_BlastRadius w; dw_Budgets := v;
         dw_RateLimits := dw_RateLimits w;
         dw_DeadlineOverrides := dw_DeadlineOverrides w;
         dw_RefusalSet := dw_RefusalSet w;
         dw_UnknownClassification := dw_UnknownClassification w;
         dw_SerializeMode := dw_SerializeMode w |}));
   ("rate_limits", fun w j => rbind (decodeStrict rateLimitsFields (dw_RateLimits w) j) (fun v => Ok
      {| dw_AllowedChangeClasses := dw_AllowedChangeClasses w;
         dw_ApprovalRequiredClasses := dw_ApprovalRequiredClasses w;
         dw_MaintenanceWindows := dw_MaintenanceWindows w;
         dw_LockDurationCeilingMS := dw_LockDurationCeilingMS w;
         dw_BlastRadius := dw_BlastRadius w; dw_Budgets := dw_Budgets w;
         dw_RateLimits := v; dw_DeadlineOverrides := dw_DeadlineOverrides w;
         dw_RefusalSet := dw_RefusalSet w;
         dw_UnknownClassification := dw_UnknownClassification w;
         dw_SerializeMode := dw_SerializeMode w |}));
   ("deadline_overrides", fun w j => rbind (decode_bool_map (dw_DeadlineOverrides w) j) (fun v => Ok
      {| dw_AllowedChangeClasses := dw_AllowedChangeClasses w;
         dw_ApprovalRequiredClasses := dw_ApprovalRequiredClasses w;
         dw_MaintenanceWindows := dw_MaintenanceWindows w;
         dw_LockDurationCeilingMS := dw_LockDurationCeilingMS w;
         dw_BlastRadius := dw_BlastRadius w; dw_Budgets := dw_Budgets w;
         dw_RateLimits := dw_RateLimits w; dw_DeadlineOverrides := v;
         dw_RefusalSet := dw_RefusalSet w;
         dw_UnknownClassification := dw_UnknownClassification w;
         dw_SerializeMode := dw_SerializeMode w |}));
   ("refusal_set", fun w j => rbind (decode_slice "" decode_string (dw_RefusalSet w) j) (fun v => Ok
      {| dw_AllowedChangeClasses := dw_AllowedChangeClasses w;
         dw_ApprovalRequiredClasses := dw_ApprovalRequiredClasses w;
         dw_MaintenanceWindows := dw_MaintenanceWindows w;
         dw_LockDurationCeilingMS := dw_LockDurationCeilingMS w;
         dw_BlastRadius := dw_BlastRadius w; dw_Budgets := dw_Budgets w;
         dw_RateLimits := dw_RateLimits w;
         dw_DeadlineOverrides := dw_DeadlineOverrides w; dw_RefusalSet := v;
         dw_UnknownClassification := dw_UnknownClassification w;
         dw_SerializeMode := dw_SerializeMode w |}));
   ("unknown_classification", fun w j => rbind (decode_string (dw_UnknownClassification w) j) (fun v => Ok
      {| dw_AllowedChangeClasses := dw_AllowedChangeClasses w;
         dw_ApprovalRequiredClasses := dw_ApprovalRequiredClasses w;
         dw_MaintenanceWindows := dw_MaintenanceWindows w;
         dw_LockDurationCeilingMS := dw_LockDurationCeilingMS w;
         dw_BlastRadius := dw_BlastRadius w; dw_Budgets := dw_Budgets w;
         dw_RateLimits := dw_RateLimits w;
         dw_DeadlineOverrides := dw_DeadlineOverrides w;
         dw_RefusalSet := dw_RefusalSet w; dw_UnknownClassification := v;
         dw_SerializeMode := dw_SerializeMode w |}));
   ("serialize_mode", fun w j => rbind (decode_string (dw_SerializeMode w) j) (fun v => Ok
      {| dw_AllowedChangeClasses := dw_AllowedChangeClasses w;
         dw_ApprovalRequiredClasses := dw_ApprovalRequiredClasses w;
         dw_MaintenanceWindows := dw_MaintenanceWindows w;
         dw_LockDurationCeilingMS := dw_LockDurationCeilingMS w;
         dw_BlastRadius := dw_BlastRadius w; dw_Budgets := dw_Budgets w;
         dw_RateLimits := dw_RateLimits w;
         dw_DeadlineOverrides := dw_DeadlineOverrides w;
         dw_RefusalSet := dw_RefusalSet w;
         dw_UnknownClassification := dw_UnknownClassification w; dw_SerializeMode := v |}))].

Definition zero_budget_wire : budgetWire :=
  {| bw_StorageBytes := None; bw_SpendDaily := None; bw_LLMTokensDaily := None |}.
Definition zero_wire : documentWire :=
  {| dw_AllowedChangeClasses := []; dw_ApprovalRequiredClasses := [];
     dw_MaintenanceWindows := []; dw_LockDurationCeilingMS := 0;
     dw_BlastRadius := {| brw_MaxRowsRewritten := 0; brw_MaxTablesPerWindow := None;
                          brw_Performance := None; brw_Hygiene := None |};
     dw_Budgets := None;
     dw_RateLimits := {| rlw_MaxSelfInitiatedChangesPerWindow := None |};
     dw_DeadlineOverrides := ∅; dw_RefusalSet := []; dw_UnknownClassification := "";
     dw_SerializeMode := "" |}.

(** ** From the wire to a document *)

Definition valueOr (value : option Z) (fallback : Z) : Z := default fallback value.

Definition agreeingLimit (name : string) (current : option Z) (legacyName : string)
    (legacy : option Z) : result Z :=
  match current, legacy with
  | Some c, Some l =>
      if c =? l then Ok c
      else Err ("blast_radius.performance." +:+ name +:+ "=" +:+ itoa c +:+
                " conflicts with " +:+ legacyName +:+ "=" +:+ itoa l)
  | _, _ => Ok (valueOr current (valueOr legacy 0))
  end.

Definition blastRadiusFromWire (radius : blastRadiusWire) (rates : rateLimitsWire)
    : result (BlastRadius * Z) :=
  let performance := default no_kind_budget (brw_Performance radius) in
  let? tables := agreeingLimit "max_tables_per_window" (kbw_MaxTablesPerWindow performance)
                   "blast_radius.max_tables_per_window" (brw_MaxTablesPerWindow radius) in
  let? changes := agreeingLimit "max_changes_per_window" (kbw_MaxChangesPerWindow performance)
                    "rate_limits.max_self_initiated_changes_per_window"
                    (rlw_MaxSelfInitiatedChangesPerWindow rates) in
  let hygiene :=
    match brw_Hygiene radius with
    | None => DefaultHygieneBudget
    | Some h =>
        {| kb_MaxTablesPerWindow := valueOr (kbw_MaxTablesPerWindow h)
             (kb_MaxTablesPerWindow DefaultHygieneBudget);
           kb_MaxChangesPerWindow := valueOr (kbw_MaxChangesPerWindow h)
             (kb_MaxChangesPerWindow DefaultHygieneBudget) |}
    end in
  Ok ({| br_MaxRowsRewritten := brw_MaxRowsRewritten radius; br_MaxTablesPerWindow := tables;
         br_Hygiene := hygiene |}, changes).

Definition parseBudgetLimit (name : string) (raw : option json) : result BudgetLimit :=
  match raw with
  | None => Err ("budgets." +:+ name +:+ ": missing")
  | Some JNull => Ok NoCapBudget
  | Some j => let? value := decode_int64 0 j in Ok (NewBudgetLimit value)
  end.

Definition parseBudgets (raw : option json) : result Budgets :=
  match raw with
  | None => Err "budgets: missing"
  | Some j =>
      let? wire := decodeStrict budgetFields zero_budget_wire j in
      let? storage := parseBudgetLimit "storage_bytes" (bw_StorageBytes wire) in
      let? spend := parseBudgetLimit "spend_daily" (bw_SpendDaily wire) in
      let? tokens := parseBudgetLimit "llm_tokens_daily" (bw_LLMTokensDaily wire) in
      Ok {| bu_StorageBytes := storage; bu_SpendDaily := spend; bu_LLMTokensDaily := tokens |}
  end.

Definition documentFromWire (wire : documentWire) (budgets : Budgets) : result Document :=
  let? (radius, rates) := blastRadiusFromWire (dw_BlastRadius wire) (dw_RateLimits wire) in
  Ok {| doc_Profile := "";
        doc_AllowedChangeClasses := dw_AllowedChangeClasses wire;
        doc_ApprovalRequiredClasses := dw_ApprovalRequiredClasses wire;
        doc_MaintenanceWindows := dw_MaintenanceWindows wire;
        doc_LockDurationCeilingMS := dw_LockDurationCeilingMS wire;
        doc_BlastRadius := radius;
        doc_Budgets := budgets;
        doc_MaxSelfInitiatedChangesPerWindow := rates;
        doc_DeadlineOverrides := dw_DeadlineOverrides wire;
        doc_RefusalSet := dw_RefusalSet wire;
        doc_UnknownClassification := dw_UnknownClassification wire;
        doc_SerializeMode := dw_SerializeMode wire |}.

Definition ParseDocument `{GoEnv} (raw : json) : result Document :=
  let? wire := decodeStrict documentFields zero_wire raw in
  let? budgets := parseBudgets (dw_Budgets wire) in
  let? doc := documentFromWire wire budgets in
  let? _ := ValidateDocument doc in
  Ok doc.

(** ** From a document to JSON

    encoding/json writes the members of a map in key order; an object here
    lists them in the order of the source, which decoding does not see. *)

Definition budgetJSONValue (limit : BudgetLimit) : json :=
  match BudgetLimit_Value limit with Some value => JInt value | None => JNull end.

Definition kindBudgetJSON (b : KindBudget) : json :=
  JObj [("max_tables_per_window", JInt (kb_MaxTablesPerWindow b));
        ("max_changes_per_window", JInt (kb_MaxChangesPerWindow b))].

#[export] Instance KindBudget_eq_dec : EqDecision KindBudget.
Proof. solve_decision. Defined.

Definition blastRadiusJSON (doc : Document) : json :=
  JObj ([("max_rows_rewritten", JInt (br_MaxRowsRewritten (doc_BlastRadius doc)));
         ("max_tables_per_window",
          JInt (kb_MaxTablesPerWindow (Budget doc BudgetPerformance)))] ++
        if decide (Budget doc BudgetHygiene = DefaultHygieneBudget) then []
        else [("hygiene", kindBudgetJSON (Budget doc BudgetHygiene))]).

Definition rateLimitsJSON (doc : Document) : json :=
  JObj [("max_self_initiated_changes_per_window",
         JInt (kb_MaxChangesPerWindow (Budget doc BudgetPerformance)))].

Definition strings_json (l : list string) : json := JArr (map JStr l).

Definition overrides_json (m : gmap DeadlineKind bool) : json :=
  JObj (map (fun p : string * bool => (p.1, JBool p.2)) (map_to_list m)).

Definition document_json (doc : Document) : json :=
  JObj [("allowed_change_classes", strings_json (doc_AllowedChangeClasses doc));
        ("approval_required_classes", strings_json (doc_ApprovalRequiredClasses doc));
        ("maintenance_windows", strings_json (doc_MaintenanceWindows doc));
        ("lock_duration_ceiling_ms", JInt (doc_LockDurationCeilingMS doc));
        ("blast_radius", blastRadiusJSON doc);
        ("budgets", JObj
          [("storage_bytes", budgetJSONValue (bu_StorageBytes (doc_Budgets doc)));
           ("spend_daily", budgetJSONValue (bu_SpendDaily (doc_Budgets doc)));
           ("llm_tokens_daily", budgetJSONValue (bu_LLMTokensDaily (doc_Budgets doc)))]);
        ("rate_limits", rateLimitsJSON doc);
        ("deadline_overrides", overrides_json (doc_DeadlineOverrides doc));
        ("refusal_set", strings_json (doc_RefusalSet doc));
        ("unknown_classification", JStr (doc_UnknownClassification doc));
        ("serialize_mode", JStr (doc_SerializeMode doc))].

Definition MarshalDocument `{GoEnv} (doc : Document) : result json :=
  let? _ := ValidateDocument doc in Ok (document_json doc).

(** ** Widening: widen.go *)

Definition profileWidens (base next : Profile) : bool :=
  (base <>s next) && (next <>s ProfileStaffed).

Definition ceilingWidens (base next : Z) : bool :=
  if base =? 0 then false else (next =? 0) || (base <? next).

Definition limitsWiden (base next : Document) : bool :=
  let b := doc_BlastRadius base in
  let n := doc_BlastRadius next in
  (br_MaxRowsRewritten b <? br_MaxRowsRewritten n) ||
  (br_MaxTablesPerWindow b <? br_MaxTablesPerWindow n) ||
  (kb_MaxTablesPerWindow (br_Hygiene b) <? kb_MaxTablesPerWindow (br_Hygiene n)) ||
  (kb_MaxChangesPerWindow (br_Hygiene b) <? kb_MaxChangesPerWindow (br_Hygiene n)) ||
  (doc_MaxSelfInitiatedChangesPerWindow base <? doc_MaxSelfInitiatedChangesPerWindow next).

Definition limitWidens (base next : BudgetLimit) : bool :=
  if NoCap base then false else
  match BudgetLimit_Value base, BudgetLimit_Value next with
  | None, Some _ => false
  | None, None => negb (Bool.eqb (bl_Present next) (bl_Present base))
  | Some _, None => true
  | Some baseValue, Some nextValue => baseValue <? nextValue
  end.

Definition budgetsWiden (base next : Budgets) : bool :=
  limitWidens (bu_StorageBytes base) (bu_StorageBytes next) ||
  limitWidens (bu_SpendDaily base) (bu_SpendDaily next) ||
  limitWidens (bu_LLMTokensDaily base) (bu_LLMTokensDaily next).

Definition overridesWiden (base next : gmap DeadlineKind bool) : bool :=
  existsb (fun p : DeadlineKind * bool => p.2 && negb (override_on base p.1))
    (map_to_list next).

Definition subsetClasses (sub super : list ChangeClass) : bool :=
  forallb (fun class => containsChangeClass super class) sub.
Definition subsetStrings (sub super : list string) : bool := str_subset sub super.

Definition Widens (base next : Document) : bool :=
  profileWidens (doc_Profile base) (doc_Profile next) ||
  negb (subsetClasses (doc_AllowedChangeClasses next) (doc_AllowedChangeClasses base)) ||
  negb (subsetClasses (doc_ApprovalRequiredClasses base) (doc_ApprovalRequiredClasses next)) ||
  negb (subsetStrings (doc_MaintenanceWindows next) (doc_MaintenanceWindows base)) ||
  ceilingWidens (doc_LockDurationCeilingMS base) (doc_LockDurationCeilingMS next) ||
  limitsWiden base next ||
  budgetsWiden (doc_Budgets base) (doc_Budgets next) ||
  overridesWiden (doc_DeadlineOverrides base) (doc_DeadlineOverrides next) ||
  negb (subsetStrings (doc_RefusalSet base) (doc_RefusalSet next)) ||
  (doc_UnknownClassification base <>s doc_UnknownClassification next) ||
  (doc_SerializeMode base <>s doc_SerializeMode next).

(** The Go function returns the flag together with an error. *)
Definition WidensJSON `{GoEnv} (base next : json) : bool * option error :=
  match ParseDocument next with
  | Err e => (true, Some ("invalid policy document: " +:+ e))
  | Ok nextDoc =>
      match ParseDocument base with
      | Err e => (true, Some ("current policy unreadable: " +:+ e))
      | Ok baseDoc => (Widens baseDoc nextDoc, None)
      end
  end.

(** * Properties *)

(** ** What validation guarantees *)

Definition limit_valid (l : BudgetLimit) : Prop :=
  bl_Present l = true /\ forall v, bl_value l = Some v -> 0 <= v.

Record valid_document `{GoEnv} (doc : Document) : Prop := {
  vd_unknown : doc_UnknownClassification doc = "fail_closed";
  vd_serialize : doc_SerializeMode doc ∈ ["park"; "queue"];
  vd_ceiling : 0 <= doc_LockDurationCeilingMS doc;
  vd_refusal : Forall (fun t => t ∈ KnownRefusalTokens) (doc_RefusalSet doc);
  vd_rows : 0 <= br_MaxRowsRewritten (doc_BlastRadius doc);
  vd_kinds : forall kind, 0 <= kb_MaxTablesPerWindow (Budget doc kind) /\
               0 <= kb_MaxChangesPerWindow (Budget doc kind);
  vd_storage : limit_valid (bu_StorageBytes (doc_Budgets doc));
  vd_spend : limit_valid (bu_SpendDaily (doc_Budgets doc));
  vd_tokens : limit_valid (bu_LLMTokensDaily (doc_Budgets doc));
  vd_allowed : doc_AllowedChangeClasses doc ⊆ allChangeClasses;
  vd_approval : doc_ApprovalRequiredClasses doc ⊆ allChangeClasses;
  vd_some_window : doc_MaintenanceWindows doc <> [];
  vd_windows : Forall (fun e => is_ok (ParseWindow e) = true) (doc_MaintenanceWindows doc);
}.

Lemma validateRefusalSet_Ok tokens :
  validateRefusalSet tokens = Ok tt <-> Forall (fun t => t ∈ KnownRefusalTokens) tokens.
Proof.
  unfold validateRefusalSet. rewrite first_error_Ok. apply Forall_proper; [|done].
  intros t. unfold refusalPredicate, KnownRefusalTokens.
  rewrite !elem_of_cons, elem_of_nil. repeat case_goal; simplify_eq; reflect_all; naive_solver.
Qed.

Lemma validateClasses_Ok classes :
  validateClasses classes = Ok tt <-> classes ⊆ allChangeClasses.
Proof.
  unfold validateClasses. rewrite first_error_Ok, Forall_forall. unfold containsChangeClass.
  split; intros H x Hx; specialize (H x Hx).
  - apply str_in_spec. by destruct (str_in _ _).
  - apply str_in_spec in H. by rewrite H.
Qed.

Lemma validateBlastRadius_Ok doc :
  validateBlastRadius doc = Ok tt <->
  0 <= br_MaxRowsRewritten (doc_BlastRadius doc) /\
  forall kind, 0 <= kb_MaxTablesPerWindow (Budget doc kind) /\
               0 <= kb_MaxChangesPerWindow (Budget doc kind).
Proof.
  unfold validateBlastRadius. destruct (Z.ltb_spec (br_MaxRowsRewritten (doc_BlastRadius doc)) 0);
    [split; [done|lia]|].
  assert (E : forall a b ea eb, (if a <? 0 then Err ea else if b <? 0 then Err eb else Ok tt) =
    Ok tt <-> 0 <= a /\ 0 <= b) by (intros; branches; reflect_all; naive_solver lia).
  rewrite first_error_Ok, !Forall_cons, Forall_nil, !E. unfold Budget.
  change (BudgetPerformance =s BudgetHygiene) with false.
  change (BudgetHygiene =s BudgetHygiene) with true. split.
  - intros (Hp & Hh & _). split; [lia|]. intros kind. by destruct (kind =s BudgetHygiene).
  - intros [_ Hk]. split_and!; try done; [apply (Hk BudgetPerformance)..|
      apply (Hk BudgetHygiene)|apply (Hk BudgetHygiene)].
Qed.

Lemma validateBudgets_Ok b :
  validateBudgets b = Ok tt <->
  limit_valid (bu_StorageBytes b) /\ limit_valid (bu_SpendDaily b) /\
  limit_valid (bu_LLMTokensDaily b).
Proof.
  unfold validateBudgets. rewrite first_error_Ok, !Forall_cons, Forall_nil.
  assert (E : forall n l, (if negb (bl_Present l) then Err ("budgets." +:+ n +:+ ": missing")
      else match BudgetLimit_Value l with
           | Some value => if value <? 0 then Err ("budgets." +:+ n +:+ " cannot be negative")
                           else Ok tt
           | None => Ok tt end) = Ok tt <-> limit_valid l).
  { intros n l. unfold limit_valid, BudgetLimit_Value. destruct (bl_Present l); simpl;
      [|naive_solver]. destruct (bl_value l) as [v|]; [|naive_solver].
    destruct (Z.ltb_spec v 0); (split; [|intros [_ Hv]; specialize (Hv v eq_refl); by try lia]).
    - done.
    - intros _. split; [done|]. intros ? [= <-]. done. }
  rewrite !E. naive_solver.
Qed.

Lemma validateWindows_Ok `{GoEnv} windows :
  validateWindows windows = Ok tt <->
  windows <> [] /\ Forall (fun e => is_ok (ParseWindow e) = true) windows.
Proof.
  unfold validateWindows. destruct windows as [|w ws]; [naive_solver|].
  rewrite first_error_Ok. split; [intros HF; split; [done|]|intros [_ HF]];
    (eapply Forall_impl; [exact HF|]); intros e; simpl; by destruct (ParseWindow e).
Qed.

Lemma ValidateDocument_valid `{GoEnv} doc :
  ValidateDocument doc = Ok tt <-> valid_document doc.
Proof.
  unfold ValidateDocument. split.
  - destruct (_ =s "fail_closed") eqn:E1; [|done]. simpl.
    destruct (_ && _) eqn:E2; [done|]. destruct (_ <? 0) eqn:E3; [done|].
    rewrite !rbind_Ok.
    intros ([] & H1 & H2). rewrite rbind_Ok in H2. destruct H2 as ([] & H2 & H3).
    rewrite rbind_Ok in H3. destruct H3 as ([] & H3 & H4).
    rewrite rbind_Ok in H4. destruct H4 as ([] & H4 & H5).
    rewrite rbind_Ok in H5. destruct H5 as ([] & H5 & H6).
    apply validateRefusalSet_Ok in H1. apply validateBlastRadius_Ok in H2 as [].
    apply validateBudgets_Ok in H3 as (? & ? & ?). apply validateClasses_Ok in H4, H5.
    apply validateWindows_Ok in H6 as [].
    constructor; try done; reflect_all; [done| |lia].
    rewrite !elem_of_cons. destruct E2; naive_solver.
  - intros []. rewrite vd_unknown0. simpl.
    assert (E : (doc_SerializeMode doc <>s "park") && (doc_SerializeMode doc <>s "queue") = false).
    { reflect_all. rewrite !elem_of_cons, elem_of_nil in vd_serialize0. naive_solver. }
    rewrite E. destruct (Z.ltb_spec (doc_LockDurationCeilingMS doc) 0); [lia|].
    rewrite (proj2 (validateRefusalSet_Ok _)) by done. simpl.
    rewrite (proj2 (validateBlastRadius_Ok _)) by done. simpl.
    rewrite (proj2 (validateBudgets_Ok _)) by done. simpl.
    rewrite !(proj2 (validateClasses_Ok _)) by done. simpl.
    by apply validateWindows_Ok.
Qed.

(** ** The JSON round trip *)

(** Every number of the document is an [int64]. *)
Definition int64_ok (z : Z) : Prop := min_int64 <= z <= max_int64.
Definition limit_int64 (l : BudgetLimit) : Prop := forall v, bl_value l = Some v -> int64_ok v.
Record int64_document (doc : Document) : Prop := {
  id_ceiling : int64_ok (doc_LockDurationCeilingMS doc);
  id_rows : int64_ok (br_MaxRowsRewritten (doc_BlastRadius doc));
  id_tables : int64_ok (br_MaxTablesPerWindow (doc_BlastRadius doc));
  id_changes : int64_ok (doc_MaxSelfInitiatedChangesPerWindow doc);
  id_hygiene_tables : int64_ok (kb_MaxTablesPerWindow (br_Hygiene (doc_BlastRadius doc)));
  id_hygiene_changes : int64_ok (kb_MaxChangesPerWindow (br_Hygiene (doc_BlastRadius doc)));
  id_storage : limit_int64 (bu_StorageBytes (doc_Budgets doc));
  id_spend : limit_int64 (bu_SpendDaily (doc_Budgets doc));
  id_tokens : limit_int64 (bu_LLMTokensDaily (doc_Budgets doc));
}.

(** The stored form has no profile. *)
Definition without_profile (doc : Document) : Document :=
  {| doc_Profile := ""; doc_AllowedChangeClasses := doc_AllowedChangeClasses doc;
     doc_ApprovalRequiredClasses := doc_ApprovalRequiredClasses doc;
     doc_MaintenanceWindows := doc_MaintenanceWindows doc;
     doc_LockDurationCeilingMS := doc_LockDurationCeilingMS doc;
     doc_BlastRadius := doc_BlastRadius doc; doc_Budgets := doc_Budgets doc;
     doc_MaxSelfInitiatedChangesPerWindow := doc_MaxSelfInitiatedChangesPerWindow doc;
     doc_DeadlineOverrides := doc_DeadlineOverrides doc;
     doc_RefusalSet := doc_RefusalSet doc;
     doc_UnknownClassification := doc_UnknownClassification doc;
     doc_SerializeMode := doc_SerializeMode doc |}.

Lemma decode_int64_JInt cur z : int64_ok z -> decode_int64 cur (JInt z) = Ok z.
Proof.
  unfold int64_ok, decode_int64. intros [H1 H2].
  by rewrite (proj2 (Z.leb_le _ _) H1), (proj2 (Z.leb_le _ _) H2).
Qed.

Lemma decode_strings l : rmap (decode_string "") (map JStr l) = Ok l.
Proof. induction l as [|s l IH]; simpl; [done|]. by rewrite IH. Qed.

Lemma decode_members_list (l : list (string * bool)) : forall cur,
  decode_members cur (map (fun p : string * bool => (p.1, JBool p.2)) l) =
  Ok (list_to_map (reverse l) ∪ cur).
Proof.
  induction l as [|[k b] l IH]; intros cur; simpl.
  - by rewrite (left_id_L ∅ (∪)).
  - rewrite IH. f_equal. rewrite reverse_cons, list_to_map_app. simpl.
    rewrite insert_union_singleton_l, (assoc_L (∪)), insert_empty. done.
Qed.

Lemma decode_overrides m : decode_bool_map ∅ (overrides_json m) = Ok m.
Proof.
  simpl. rewrite decode_members_list, (right_id_L ∅ (∪)). f_equal.
  rewrite <- (list_to_map_to_list m) at 2. symmetry. apply list_to_map_proper.
  - apply NoDup_fst_map_to_list.
  - symmetry. apply reverse_Permutation.
Qed.

Lemma parseBudgetLimit_JSON name l :
  limit_valid l -> limit_int64 l -> parseBudgetLimit name (Some (budgetJSONValue l)) = Ok l.
Proof.
  intros [Hp _] Hr. destruct l as [present [v|]]; simpl in Hp; subst.
  - cbn -[decode_int64]. by rewrite decode_int64_JInt by by apply Hr.
  - done.
Qed.

Lemma decode_kind_budget_JSON b :
  int64_ok (kb_MaxTablesPerWindow b) -> int64_ok (kb_MaxChangesPerWindow b) ->
  decode_kind_budget None (kindBudgetJSON b) =
  Ok (Some {| kbw_MaxTablesPerWindow := Some (kb_MaxTablesPerWindow b);
              kbw_MaxChangesPerWindow := Some (kb_MaxChangesPerWindow b) |}).
Proof.
  intros H1 H2. cbn -[decode_int64].
  by repeat (rewrite decode_int64_JInt by done; cbn -[decode_int64]).
Qed.

Lemma parse_blastRadius doc :
  int64_document doc ->
  exists w, decodeStrict blastRadiusFields
      {| brw_MaxRowsRewritten := 0; brw_MaxTablesPerWindow := None;
         brw_Performance := None; brw_Hygiene := None |} (blastRadiusJSON doc) = Ok w /\
    exists r, decodeStrict rateLimitsFields
      {| rlw_MaxSelfInitiatedChangesPerWindow := None |} (rateLimitsJSON doc) = Ok r /\
    blastRadiusFromWire w r =
      Ok (doc_BlastRadius doc, doc_MaxSelfInitiatedChangesPerWindow doc).
Proof.
  intros [].
  assert (Hr : decodeStrict rateLimitsFields {| rlw_MaxSelfInitiatedChangesPerWindow := None |}
            (rateLimitsJSON doc) = Ok {| rlw_MaxSelfInitiatedChangesPerWindow :=
              Some (doc_MaxSelfInitiatedChangesPerWindow doc) |}).
  { cbn -[decode_int64]. by rewrite decode_int64_JInt. }
  unfold blastRadiusJSON. change (Budget doc BudgetHygiene) with (br_Hygiene (doc_BlastRadius doc)).
  case_decide as Hd; cbn -[decode_int64 rateLimitsFields rateLimitsJSON decode_kind_budget];
    repeat (rewrite decode_int64_JInt by done; cbn -[decode_int64 rateLimitsFields
      rateLimitsJSON decode_kind_budget]).
  - eexists; split; [done|]. eexists; split; [exact Hr|]. cbn. rewrite <- Hd.
    by destruct (doc_BlastRadius doc).
  - rewrite decode_kind_budget_JSON by done. cbn -[rateLimitsFields rateLimitsJSON].
    eexists; split; [done|]. eexists; split; [exact Hr|]. cbn.
    by destruct (doc_BlastRadius doc) as [? ? []].
Qed.

Lemma decode_fields_cons {T} (fs : fields T) cur key j l dec :
  field_for fs key = Some dec ->
  decode_fields fs cur ((key, j) :: l) = rbind (dec cur j) (fun cur' => decode_fields fs cur' l).
Proof. simpl. by intros ->. Qed.

Lemma decode_slice_strings cur l :
  decode_slice "" decode_string cur (JArr (map JStr l)) = Ok l.
Proof. apply decode_strings. Qed.

(** Decodes the next member of an object. *)
Ltac next_member lemmas :=
  erewrite decode_fields_cons by reflexivity;
  cbn -[decode_int64 blastRadiusFields rateLimitsFields decode_bool_map decode_slice decodeStrict
        decode_fields];
  lemmas;
  cbn -[decode_int64 blastRadiusFields rateLimitsFields decode_bool_map decode_slice decodeStrict
        decode_fields].

Lemma parse_document_json `{GoEnv} doc :
  valid_document doc -> int64_document doc ->
  exists w, decodeStrict documentFields zero_wire (document_json doc) = Ok w /\
    parseBudgets (dw_Budgets w) = Ok (doc_Budgets doc) /\
    documentFromWire w (doc_Budgets doc) = Ok (without_profile doc).
Proof.
  intros Hv Hi. destruct (parse_blastRadius doc Hi) as (wb & Hb & wr & Hr & Hbr).
  pose proof (decode_overrides (doc_DeadlineOverrides doc)) as Ho.
  destruct Hi, Hv. unfold document_json, strings_json.
  remember (blastRadiusJSON doc) as jb. remember (rateLimitsJSON doc) as jr.
  remember (overrides_json (doc_DeadlineOverrides doc)) as jo.
  eexists. split; [|split].
  - change (decodeStrict documentFields zero_wire (JObj ?l))
      with (decode_fields documentFields zero_wire l).
    do 11 (next_member ltac:(first [rewrite decode_slice_strings | rewrite decode_int64_JInt by done
      | rewrite Hb | rewrite Hr | rewrite Ho | idtac])).
    reflexivity.
  - cbn -[parseBudgetLimit]. rewrite !parseBudgetLimit_JSON by done. by destruct (doc_Budgets doc).
  - unfold documentFromWire. cbn [dw_BlastRadius dw_RateLimits]. by rewrite Hbr.
Qed.

(** ** The order of documents *)

Lemma limitWidens_false base next :
  limitWidens base next = false <->
  NoCap base = true \/
  (exists n, bl_value next = Some n /\ forall b, bl_value base = Some b -> n <= b) \/
  (bl_value base = None /\ bl_value next = None /\ bl_Present next = bl_Present base).
Proof.
  unfold limitWidens, NoCap, BudgetLimit_Value.
  destruct base as [[] [b|]], next as [[] [n|]]; simpl; reflect_all; naive_solver lia.
Qed.

Lemma overridesWiden_false base next :
  overridesWiden base next = false <->
  forall kind, override_on next kind = true -> override_on base kind = true.
Proof.
  unfold overridesWiden. rewrite <- not_true_iff_false, existsb_exists. split.
  - intros H kind Hn. destruct (override_on base kind) eqn:E; [done|].
    destruct H. exists (kind, true). unfold override_on in Hn.
    destruct (next !! kind) as [[]|] eqn:Ek; try done. split; [|simpl; by rewrite E].
    by apply list_elem_of_In, elem_of_map_to_list.
  - intros H ([kind on] & Hin & Hon). apply list_elem_of_In, elem_of_map_to_list in Hin.
    simpl in *. apply andb_true_iff in Hon as [-> Hb].
    rewrite (H kind) in Hb; [done|]. unfold override_on. by rewrite Hin.
Qed.

(** What a document that does not widen [base] satisfies. *)
Record no_wider (base next : Document) : Prop := {
  nw_profile : doc_Profile base = doc_Profile next \/ doc_Profile next = ProfileStaffed;
  nw_allowed : doc_AllowedChangeClasses next ⊆ doc_AllowedChangeClasses base;
  nw_approval : doc_ApprovalRequiredClasses base ⊆ doc_ApprovalRequiredClasses next;
  nw_windows : doc_MaintenanceWindows next ⊆ doc_MaintenanceWindows base;
  nw_ceiling : doc_LockDurationCeilingMS base = 0 \/
    doc_LockDurationCeilingMS next <> 0 /\
    doc_LockDurationCeilingMS next <= doc_LockDurationCeilingMS base;
  nw_rows : br_MaxRowsRewritten (doc_BlastRadius next) <=
            br_MaxRowsRewritten (doc_BlastRadius base);
  nw_kinds : forall kind,
    kb_MaxTablesPerWindow (Budget next kind) <= kb_MaxTablesPerWindow (Budget base kind) /\
    kb_MaxChangesPerWindow (Budget next kind) <= kb_MaxChangesPerWindow (Budget base kind);
  nw_storage :
    limitWidens (bu_StorageBytes (doc_Budgets base)) (bu_StorageBytes (doc_Budgets next)) = false;
  nw_spend :
    limitWidens (bu_SpendDaily (doc_Budgets base)) (bu_SpendDaily (doc_Budgets next)) = false;
  nw_tokens : limitWidens (bu_LLMTokensDaily (doc_Budgets base))
                (bu_LLMTokensDaily (doc_Budgets next)) = false;
  nw_overrides : forall kind, override_on (doc_DeadlineOverrides next) kind = true ->
    override_on (doc_DeadlineOverrides base) kind = true;
  nw_refusal : doc_RefusalSet base ⊆ doc_RefusalSet next;
  nw_unknown : doc_UnknownClassification base = doc_UnknownClassification next;
  nw_serialize : doc_SerializeMode base = doc_SerializeMode next;
}.

Lemma limitsWiden_false base next :
  limitsWiden base next = false <->
  br_MaxRowsRewritten (doc_BlastRadius next) <= br_MaxRowsRewritten (doc_BlastRadius base) /\
  forall kind,
    kb_MaxTablesPerWindow (Budget next kind) <= kb_MaxTablesPerWindow (Budget base kind) /\
    kb_MaxChangesPerWindow (Budget next kind) <= kb_MaxChangesPerWindow (Budget base kind).
Proof.
  unfold limitsWiden. rewrite !orb_false_iff, !Z.ltb_ge. unfold Budget. split.
  - intros ((((? & ?) & ?) & ?) & ?). split; [done|]. intros kind.
    by destruct (kind =s BudgetHygiene).
  - intros [? Hk]. pose proof (Hk BudgetPerformance). pose proof (Hk BudgetHygiene).
    simpl in *. naive_solver.
Qed.

Lemma Widens_no_wider base next : Widens base next = false <-> no_wider base next.
Proof.
  assert (Hs : forall a b, subsetClasses a b = true <-> a ⊆ b) by (intros; apply str_subset_spec).
  assert (Hp : profileWidens (doc_Profile base) (doc_Profile next) = false <->
    doc_Profile base = doc_Profile next \/ doc_Profile next = ProfileStaffed).
  { unfold profileWidens. reflect_all. done. }
  assert (Hc : ceilingWidens (doc_LockDurationCeilingMS base) (doc_LockDurationCeilingMS next) =
    false <-> doc_LockDurationCeilingMS base = 0 \/ doc_LockDurationCeilingMS next <> 0 /\
    doc_LockDurationCeilingMS next <= doc_LockDurationCeilingMS base).
  { unfold ceilingWidens. destruct (Z.eqb_spec (doc_LockDurationCeilingMS base) 0);
      reflect_all; naive_solver lia. }
  unfold Widens, budgetsWiden, subsetStrings.
  rewrite !orb_false_iff, !negb_false_iff, !Hs, ?str_subset_spec, Hp, Hc, limitsWiden_false,
    overridesWiden_false, !eqb_str.
  split; [|by intros []]. intros H. decompose [and] H. by constructor.
Qed.

Lemma limitWidens_refl l : limitWidens l l = false.
Proof.
  unfold limitWidens, NoCap, BudgetLimit_Value. destruct l as [[] [?|]]; simpl; reflect_all;
    done || lia.
Qed.

#[export] Instance no_wider_refl : Reflexive no_wider.
Proof.
  intros doc. constructor; try done; try (by left); try lia; try (by intros; split).
  all: apply limitWidens_refl.
Qed.

Lemma limitWidens_trans a b c :
  limitWidens a b = false -> limitWidens b c = false -> limitWidens a c = false.
Proof.
  unfold limitWidens, NoCap, BudgetLimit_Value.
  destruct a as [[] [?|]], b as [[] [?|]], c as [[] [?|]]; simpl; try done;
    rewrite ?Z.ltb_ge; try done; lia.
Qed.

#[export] Instance no_wider_trans : Transitive no_wider.
Proof.
  intros a b c [] []. constructor; try (by etransitivity); try congruence;
    try (by eapply limitWidens_trans).
  - destruct nw_profile1 as [<-|]; tauto.
  - destruct nw_ceiling0; [by left|]. right. lia.
  - intros kind. specialize (nw_kinds0 kind). specialize (nw_kinds1 kind). lia.
  - auto.
Qed.

Lemma without_profile_valid `{GoEnv} doc :
  ValidateDocument (without_profile doc) = ValidateDocument doc.
Proof. reflexivity. Qed.

(** ** The properties *)

(** C40: a document the validator accepts survives saving: it marshals, and
    parsing the JSON gives the document back with every limit, class, window,
    override and refusal token; only the profile, which the JSON does not
    hold, is lost. *)
Theorem document_roundtrip `{GoEnv} doc :
  ValidateDocument doc = Ok tt -> int64_document doc ->
  exists j, MarshalDocument doc = Ok j /\ ParseDocument j = Ok (without_profile doc).
Proof.
  intros Hok Hi. exists (document_json doc). unfold MarshalDocument. rewrite Hok.
  split; [done|]. apply ValidateDocument_valid in Hok as Hv.
  destruct (parse_document_json doc Hv Hi) as (w & Hw & Hb & Hd).
  unfold ParseDocument. rewrite Hw. cbn [rbind]. rewrite Hb. cbn [rbind]. rewrite Hd. cbn [rbind].
  by rewrite without_profile_valid, Hok.
Qed.

Lemma document_roundtrip_witness :
  let env := {| tz_lookup := fun _ => None; time_Local := UTC |} in
  ValidateDocument UnattendedProfile = Ok tt /\
  exists j, ParseDocument j = Ok (without_profile UnattendedProfile).
Proof.
  intros env. assert (Hok : ValidateDocument UnattendedProfile = Ok tt) by by vm_compute.
  split; [exact Hok|].
  destruct (document_roundtrip UnattendedProfile Hok) as (j & _ & Hj); [|by exists j].
  constructor; lazymatch goal with
    | |- limit_int64 _ => intros v [= <-] || intros v [=]
    | _ => idtac end; split; by vm_compute.
Defined.

(** The built-in profiles are valid documents whatever time zones the
    process knows, and switching from the unattended to the staffed one does
    widen: its window is not one of the base's. *)
Theorem profiles_valid `{GoEnv} :
  ValidateDocument StaffedProfile = Ok tt /\ ValidateDocument UnattendedProfile = Ok tt /\
  Widens UnattendedProfile StaffedProfile = true /\
  Widens StaffedProfile UnattendedProfile = true.
Proof. by vm_compute. Qed.

(** "Does not widen" is a preorder: a document never widens itself, and a
    chain of changes none of which widens does not widen overall, so no
    sequence of single-approver edits can reach a wider document. *)
Theorem widens_preorder a b c :
  Widens a a = false /\
  (Widens a b = false -> Widens b c = false -> Widens a c = false).
Proof.
  rewrite !Widens_no_wider. split; [reflexivity|]. intros. by transitivity b.
Qed.

Lemma widens_preorder_witness :
  Widens sample_document sample_document = false.
Proof.
  refine (proj2 (widens_preorder sample_document sample_document sample_document) _ _);
    by vm_compute.
Defined.

(** the comparison of stored documents fails towards two approvers: the
    answer "does not widen" is given only when both documents parse, and then
    the new one allows no class, window or override the old one does not, keeps
    every approval class and refusal token, and raises no limit. *)
Theorem widens_json_safe `{GoEnv} base next err :
  WidensJSON base next = (false, err) ->
  err = None /\ exists b n, ParseDocument base = Ok b /\ ParseDocument next = Ok n /\
    no_wider b n.
Proof.
  unfold WidensJSON. destruct (ParseDocument next) as [n|]; [|done].
  destruct (ParseDocument base) as [b|]; [|done]. intros [= Hw <-]. split; [done|].
  exists b, n. by rewrite <- Widens_no_wider.
Qed.

Lemma widens_json_safe_witness :
  let env := {| tz_lookup := fun _ => None; time_Local := UTC |} in
  let j := document_json sample_document in
  exists b n, ParseDocument j = Ok b /\ ParseDocument j = Ok n /\ no_wider b n.
Proof.
  intros env j. refine (proj2 (widens_json_safe j j None _)). by vm_compute.
Defined.
