(* ===== verification/Gate.v ===== *)
(** * The authorization gate

    internal/policy: gate.go, gate_operator.go, agent_gate.go, autonomy.go,
    autonomy_trusted.go, facts.go, verification_wait.go, provider_decision.go,
    budget_lock.go and window_status.go.

    The callbacks of [GateConfig] read and change the world [W] (the database,
    the clock, the ledger), so the gate's methods are computations of the state
    monad [M W], calling them in the order of the source.  A Go pair
    [(Decision, bool)] whose flag says "stop" is an [option Decision].  The
    in-process mutex [budgetMu] is held for the whole of a budget section: the
    budget section is one atomic computation. *)

From S2P Require Import Prelude.
From S2P Require Import GoStd.
From S2P Require Import PolicyTypes.
From S2P Require Import Window.
From S2P Require Import Budget.
From S2P Require Import Refusal.
From S2P Require Import Document.

(** ** The gate's collaborators *)

(** What a request context carries: the agent bound to it and, inside a budget
    section, the transaction the usage reader and the recorder run in. *)
Record Ctx : Type := {
  ctx_Principal : option PrincipalRef;
  ctx_Tx : option Z;
}.

Definition WithPrincipalRef (ctx : Ctx) (ref : PrincipalRef) : Ctx :=
  {| ctx_Principal := Some ref; ctx_Tx := ctx_Tx ctx |}.
Definition PrincipalRefFromContext (ctx : Ctx) : option PrincipalRef := ctx_Principal ctx.

Record AutonomyLimit : Type := {
  al_Level : Z;
  al_Granted : Z;
  al_Downgraded : bool;
  al_Reasons : list string;
  al_Class : string;
  al_Family : string;
}.

(** An [AutonomyLimiter], with the two optional interfaces
    ([AutonomyScope], [AutonomyDeadlineRecorder]) it may implement. *)
Record AutonomyLimiter (W : Type) : Type := {
  lim_Limit : Ctx -> ActionRequest -> M W (result AutonomyLimit);
  lim_Governs : option (ActionRequest -> bool);
  lim_RecordDeadlineOverride : option (Ctx -> ActionRequest -> Decision -> M W unit);
}.
Arguments lim_Limit {W}.
Arguments lim_Governs {W}.
Arguments lim_RecordDeadlineOverride {W}.

Record FactBinding : Type := {
  fb_FactID : Z;
  fb_Type : string;
  fb_Subject : string;
  fb_Route : string;
  fb_Summary : string;
  fb_Object : string;
  fb_ConfirmedBy : string;
  fb_ConfirmedAt : Time;
}.

(** [gc_SystemNow] is [time.Now], read when no [Now] is configured. *)
Record GateConfig (W : Type) : Type := {
  gc_Runtime : option (Ctx -> ActionRequest -> M W (result RuntimeState));
  gc_ValidateSQL : option (string -> result unit);
  gc_Policy : option (Ctx -> ActionRequest -> M W (result Document));
  gc_Usage : option (Ctx -> ActionRequest -> M W (result LimitUsage));
  gc_WindowObserved : option (M W unit);
  gc_RecordDecision : option (Ctx -> ActionRequest -> Decision -> M W (result string));
  gc_RecordDecisionDetailed :
    option (Ctx -> ActionRequest -> Decision -> M W (result (string * Z)));
  gc_Now : option (M W Time);
  gc_SystemNow : M W Time;
  gc_Autonomy : option (AutonomyLimiter W);
  gc_Serialize :
    option (Ctx -> ActionRequest -> M W (result (Ctx * (bool -> M W (result unit)))));
  gc_Facts : option (Ctx -> ActionRequest -> M W (result (list FactBinding)));
  gc_Verification : option (Ctx -> ActionRequest -> M W (result (list PendingVerification)));
  gc_Agents : option (Ctx -> ActionRequest -> M W (Decision * Z * bool));
}.
Arguments gc_Runtime {W}.
Arguments gc_ValidateSQL {W}.
Arguments gc_Policy {W}.
Arguments gc_Usage {W}.
Arguments gc_WindowObserved {W}.
Arguments gc_RecordDecision {W}.
Arguments gc_RecordDecisionDetailed {W}.
Arguments gc_Now {W}.
Arguments gc_SystemNow {W}.
Arguments gc_Autonomy {W}.
Arguments gc_Serialize {W}.
Arguments gc_Facts {W}.
Arguments gc_Verification {W}.
Arguments gc_Agents {W}.

(** [Document{}], the document a failing policy reader returns. *)
Definition empty_document : Document :=
  {| doc_Profile := ""; doc_AllowedChangeClasses := []; doc_ApprovalRequiredClasses := [];
     doc_MaintenanceWindows := []; doc_LockDurationCeilingMS := 0;
     doc_BlastRadius := {| br_MaxRowsRewritten := 0; br_MaxTablesPerWindow := 0;
       br_Hygiene := {| kb_MaxTablesPerWindow := 0; kb_MaxChangesPerWindow := 0 |} |};
     doc_Budgets :=
       let absent := {| bl_Present := false; bl_value := None |} in
       {| bu_StorageBytes := absent; bu_SpendDaily := absent; bu_LLMTokensDaily := absent |};
     doc_MaxSelfInitiatedChangesPerWindow := 0; doc_DeadlineOverrides := ∅;
     doc_RefusalSet := []; doc_UnknownClassification := ""; doc_SerializeMode := "" |}.

(** ** Stops that need no policy *)

Definition hardStop (runtime : RuntimeState) (req : ActionRequest) : option Decision :=
  if negb (rt_ExecutorEnabled runtime) then Some (blocked ReasonExecutorDisabled "") else
  if rt_EmergencyStop runtime then Some (blocked ReasonEmergencyStop "") else
  if rt_IsReplica runtime && negb (requestIsReadOnly req)
  then Some (blocked ReasonReplicaMutation "") else None.

Definition narrowingDecision (req : ActionRequest) (duringStop : bool) : Decision :=
  let reason := if duringStop then ReasonNarrowingDuringStop else ReasonNarrowing in
  decisionForRequest req (blockedAs VerdictExecute reason).

Definition typedInternalActions : list string :=
  ["declare_table_contract"; "register_consumer"; "retention_delete";
   "guard_role_ensure"; "guard_role_retire"; "guard_freeze"; "guard_unfreeze"; "guard_kill";
   "guard_grant"; "guard_revoke"].

Definition trustedInternalControl (req : ActionRequest) : bool :=
  match req_Contract req with
  | None => false
  | Some c => if negb (req_InternalControl req) || (req_SQL req <>s "") then false
              else str_in (ac_ActionType c) typedInternalActions
  end.

Definition unknownGuardrail (contract : ActionContract) : option Guardrail :=
  List.find (fun guardrail => guardrail <>s GuardrailApprovalRequired) (ac_Guardrails contract).

Definition hasGuardrail (contract : ActionContract) (target : Guardrail) : bool :=
  str_in target (ac_Guardrails contract).

Definition isBackendSignal (actionType : string) : bool :=
  (actionType =s "cancel_backend") || (actionType =s "terminate_backend").

Definition observeOnly (runtime : RuntimeState) : bool :=
  (rt_TrustLevel runtime =s TrustObservation) || (rt_ExecutionMode runtime =s ExecutionManual).

Definition trust_known (trust : string) : bool :=
  (trust =s TrustAdvisory) || (trust =s TrustAutonomous).

(** [gate.decision] *)
Definition decision (req : ActionRequest) (verdict : Verdict) (reason : Reason) : Decision :=
  decisionForRequest req (blockedAs verdict reason).

Definition degradedValidationDecision : Decision :=
  mk_decision VerdictQueueApproval ReasonSQLValidationDegraded
    ("built without cgo: parse-tree SQL validation is unavailable, " +:+
     "so unattended changes need operator approval").

Definition providerDecision (runtime : RuntimeState) (c : ActionContract) : option Decision :=
  let support := ac_ProviderSupport c in
  match support with
  | [] => None
  | _ =>
      let provider := ToLower (TrimSpace (rt_Provider runtime)) in
      let provider := if (provider =s "") || (provider =s "self-managed") then "postgres"
                      else provider in
      if existsb (EqualFold provider) support then None
      else Some (blocked ReasonProviderUnsupported ("provider " +:+ provider))
  end.

(** ** The trust ramp and the tiers *)

Definition autonomyHandoffLevel : Z := 2.
Definition autonomyExecuteLevel : Z := 3.

Definition reversibilityCap (class : RollbackClass) : Z :=
  if (class =s RollbackReversible) || (class =s RollbackNoRollbackNeeded)
  then autonomyExecuteLevel
  else if class =s RollbackMitigationOnly then autonomyHandoffLevel
  else 1.

Definition SpecSafeRampAge : Duration := 8 * 24 * Hour.
Definition SpecModerateRampAge : Duration := 31 * 24 * Hour.
Definition MinRampAge : Duration := Hour.

Definition rampAge (configured spec : Duration) (rollback : RollbackClass) : Duration :=
  if configured <=? 0 then spec
  else if reversibilityCap rollback <? autonomyExecuteLevel then Z.max configured spec
  else Z.max configured MinRampAge.

Definition RampAge (configured spec : Duration) (rollback : RollbackClass) : Duration :=
  rampAge configured spec rollback.

Definition rampSatisfied (runtime : RuntimeState) (minimum : Duration) (now : Time)
    (ledgerDecides : bool) : bool :=
  if ledgerDecides then true
  else negb (time_IsZero (rt_RampStart runtime)) &&
       (minimum <=? time_Sub now (rt_RampStart runtime)).

Definition tierDecision (runtime : RuntimeState) (c : ActionContract) (req : ActionRequest)
    (now : Time) (ledgerDecides : bool) : Decision :=
  if rt_ExecutionMode runtime =s ExecutionApproval
  then decisionForRequest req (blockedAs VerdictQueueApproval ReasonApprovalRequired) else
  let trust := rt_TrustLevel runtime in
  let trusted := trust_known trust in
  let rollback := ac_RollbackClass c in
  let safeRampAge := rampAge (rt_SafeRampAge runtime) SpecSafeRampAge rollback in
  let moderateRampAge := rampAge (rt_ModerateRampAge runtime) SpecModerateRampAge rollback in
  let risk := ac_RiskTier c in
  let execute := decisionForRequest req (blockedAs VerdictExecute ReasonAuthorized) in
  let ramp := decisionForRequest req (blocked ReasonTrustRampNotSatisfied "") in
  let queue := decisionForRequest req (blockedAs VerdictQueueApproval ReasonApprovalRequired) in
  let unknown := decisionForRequest req (blocked ReasonUnknownRiskTier "") in
  if risk =s RiskReadOnly then (if trusted then execute else unknown) else
  if risk =s RiskSafe then
    (if trusted && (negb (rt_Tier3Safe runtime) ||
                    negb (rampSatisfied runtime safeRampAge now ledgerDecides)) then ramp
     else if trusted then execute else unknown) else
  if risk =s RiskModerate then
    (if (trust =s TrustAutonomous) &&
        (negb (rt_Tier3Moderate runtime) ||
         negb (rampSatisfied runtime moderateRampAge now ledgerDecides)) then ramp
     else if trust =s TrustAutonomous then execute
     else if trust =s TrustAdvisory then queue else unknown) else
  if risk =s RiskHigh then queue else unknown.

(** ** Deadlines *)

Definition validDeadlineOverride (doc : Document) (deadline : option DeadlineContext)
    (now : Time) : bool :=
  match deadline with
  | None => false
  | Some d =>
      if negb (time_After (dl_HardAt d) now) then false else
      if (dl_Kind d <>s DeadlineXID) && (dl_Kind d <>s DeadlineDisk) then false
      else override_on (doc_DeadlineOverrides doc) (dl_Kind d)
  end.

Definition mandatoryDeadline (doc : Document) (req : ActionRequest) (now : Time) : bool :=
  match req_Deadline req with
  | None => false
  | Some d => (dl_Urgency d =s UrgencyCritical) && validDeadlineOverride doc (req_Deadline req) now
  end.

(** ** Earned autonomy *)

Definition effectiveAutonomyLevel (limit : AutonomyLimit) (rollback : RollbackClass) : Z :=
  let level := Z.min (Z.max (al_Level limit) 0) autonomyExecuteLevel in
  let level := if al_Downgraded limit then Z.min level 1 else level in
  Z.min level (reversibilityCap rollback).

(** "" when no L3 condition is missed. *)
Definition l3Blocker `{GoEnv} (doc : Document) (runtime : RuntimeState) (req : ActionRequest)
    (now : Time) (self : bool) : string :=
  if negb (Nat.eqb (length (req_TargetObjs req)) 1)
  then "unbounded: L3 acts on exactly one object" else
  if self then "" else
  if negb (inAnyWindow (doc_MaintenanceWindows doc) now) ||
     (rt_WindowConfigured runtime && negb (rt_InConfiguredWindow runtime))
  then "outside_window: L3 acts only inside the maintenance window" else "".

Definition autonomyNote (level : Z) (limit : AutonomyLimit) (base : Decision) : string :=
  let pair := if al_Family limit <>s "" then al_Family limit +:+ "/" +:+ al_Class limit
              else "class " +:+ al_Class limit in
  let note := "autonomy L" +:+ itoa level +:+ " (granted L" +:+ itoa (al_Granted limit) +:+
              ", " +:+ pair +:+ "); restricted " +:+ dec_Reason base in
  let note := if dec_Detail base <>s "" then note +:+ " (" +:+ dec_Detail base +:+ ")"
              else note in
  if al_Downgraded limit then note +:+ "; downgraded: " +:+ Join (al_Reasons limit) ","
  else note.

Definition restricted (req : ActionRequest) (verdict : Verdict) (reason : Reason)
    (detail : string) : Decision :=
  set_Detail detail (decisionForRequest req (blockedAs verdict reason)).

Definition withTrusted (d : Decision) (trusted : option TrustedVerdict) : Decision :=
  set_Trusted trusted d.

(** ** Facts *)

Definition fact_part (b : FactBinding) : string :=
  let part := "fact #" +:+ itoa (fb_FactID b) +:+ ": " +:+ fb_Summary b in
  let part := if fb_ConfirmedBy b <>s ""
              then part +:+ " (confirmed by " +:+ fb_ConfirmedBy b +:+ " on " +:+
                   format_date (fb_ConfirmedAt b) +:+ ")" else part in
  if fb_Route b <>s "" then part +:+ "; route: " +:+ fb_Route b else part.

Definition FactDetail (bindings : list FactBinding) : string :=
  Join (map fact_part bindings) " | ".

(** ** Waiting for verification *)

Definition ReleaseHardDeadline : string := "hard_deadline".
Definition ReleaseDropFirstWindow : string := "drop_first_window".

Definition ReleaseCause (p : PendingVerification) : string :=
  if pv_Release p =s ReleaseDropFirstWindow then ReleaseDropFirstWindow else ReleaseHardDeadline.

Definition ReleaseReason (p : PendingVerification) : string :=
  if ReleaseCause p =s ReleaseDropFirstWindow then "drop's first window concluded"
  else "hard deadline passed without a verdict".

Definition Expired (p : PendingVerification) (now : Time) : bool :=
  negb (time_IsZero (pv_HardDeadline p)) && negb (time_Before now (pv_HardDeadline p)).

Definition waitApplies (req : ActionRequest) (base : Decision) (now : Time) : bool :=
  match req_Contract req with
  | None => false
  | Some _ =>
      if requestIsReadOnly req || req_OwnerDeclared req then false else
      if negb (verdict_eqb (dec_Verdict base) VerdictExecute) &&
         negb (verdict_eqb (dec_Verdict base) VerdictQueueApproval) then false
      else BudgetBypassFor req now =s ""
  end.

Definition splitWaits (pending : list PendingVerification) (now : Time) : VerificationWait :=
  {| vw_Pending := List.filter (fun p => negb (Expired p now)) pending;
     vw_Released := List.filter (fun p => Expired p now) pending;
     vw_Overridden := false |}.

Definition pendingName (p : PendingVerification) : string :=
  if 0 <? pv_ActionID p then "verification of action " +:+ itoa (pv_ActionID p)
  else "the change authorized by decision " +:+ itoa (pv_DecisionID p).

Definition formatWaitTime (at_ : Time) : string :=
  if time_IsZero at_ then "unknown" else format_rfc3339 at_.

Definition wait_part (first : bool) (p : PendingVerification) : string :=
  (if first then "awaiting " else "and ") +:+ pendingName p +:+ " (until " +:+
  formatWaitTime (pv_Until p) +:+ ") on " +:+ pv_Object p.

Definition WaitDetail (pending : list PendingVerification) : string :=
  match pending with
  | [] => ""
  | p :: rest => Join (wait_part true p :: map (wait_part false) rest) "; "
  end.

Definition OverrideDetail (pending : list PendingVerification) : string :=
  match pending with
  | [] => ""
  | _ => "overrides pending " +:+ Join (map pendingName pending) ", "
  end.

Definition release_part (p : PendingVerification) : string :=
  if ReleaseCause p =s ReleaseDropFirstWindow
  then pendingName p +:+ ": " +:+ ReleaseReason p +:+ " at " +:+
       formatWaitTime (pv_HardDeadline p) +:+
       ": wait released (its soft-drop monitoring continues)"
  else pendingName p +:+ " passed its hard deadline " +:+ formatWaitTime (pv_HardDeadline p) +:+
       " without a verdict: wait released".

Definition ReleaseDetail (released : list PendingVerification) : string :=
  Join (map release_part released) "; ".

Definition joinDetail (detail more : string) : string :=
  if more =s "" then detail else if detail =s "" then more else detail +:+ "; " +:+ more.

(** ** Agent levels *)

Definition AgentUngovernedCap : Z := 2.

Definition agentStop (req : ActionRequest) (d : Decision) : Decision :=
  if negb (verdict_eqb (dec_Verdict d) VerdictBlocked) &&
     negb (verdict_eqb (dec_Verdict d) VerdictPark)
  then blocked ReasonPolicyUnavailable
         "agent governance returned a final verdict other than blocked or park"
  else decisionForRequest req d.

Definition agentOperatorCeiling (trust : string) : Z :=
  if trust =s TrustObservation then 1 else
  if trust =s TrustAdvisory then 2 else
  if trust =s TrustAutonomous then 3 else 0.

Definition agentRollbackCap (class : RollbackClass) : Z :=
  if (class =s RollbackReversible) || (class =s RollbackNoRollbackNeeded) ||
     (class =s RollbackNotApplicable) then 3 else 2.

Definition withContextPrincipal (ctx : Ctx) (req : ActionRequest) : ActionRequest :=
  match req_Principal req with
  | Some _ => req
  | None => match PrincipalRefFromContext ctx with
            | Some ref => set_Principal (Some ref) req
            | None => req
            end
  end.

Definition RequestPrincipal (ctx : Ctx) (req : ActionRequest) : option PrincipalRef :=
  req_Principal (withContextPrincipal ctx req).

Definition approvedMitigation (req : ActionRequest) : bool :=
  match req_Contract req with
  | None => false
  | Some c => req_OperatorApproved req && (ac_ActionType c =s "cancel_backend") &&
              (ac_RollbackClass c =s RollbackMitigationOnly)
  end.

Definition moderate_or_high (risk : RiskTier) : bool := (risk =s RiskModerate) || (risk =s RiskHigh).

(** * The gate's methods

    [gate.config] is the section's [config]. *)

Section Methods.
Context `{GoEnv} {W : Type} (config : GateConfig W).

Definition runtime (ctx : Ctx) (req : ActionRequest) : M W (result RuntimeState) :=
  match gc_Runtime config with
  | None => ret (Err "runtime state is unavailable")
  | Some read => read ctx req
  end.

Definition policy (ctx : Ctx) (req : ActionRequest) : M W (result Document) :=
  match gc_Policy config with
  | None => ret (Err "policy not found")
  | Some read => read ctx req
  end.

(** The two lines [doc, err := gate.policy(...)] and
    [err != nil || ValidateDocument(doc) != nil], with their [errorDetail]. *)
Definition errorDetail (err : option error) : string :=
  match err with None => "invalid policy" | Some e => e end.
Definition validated (doc : result Document) : result Document :=
  match doc with
  | Err e => Err (errorDetail (Some e))
  | Ok d => match ValidateDocument d with Ok _ => Ok d | Err _ => Err (errorDetail None) end
  end.

Definition usage (ctx : Ctx) (req : ActionRequest) : M W (result LimitUsage) :=
  match gc_Usage config with
  | None => ret (Ok zero_usage)
  | Some read => read ctx req
  end.

Definition now : M W Time :=
  match gc_Now config with Some read => read | None => gc_SystemNow config end.

Definition validateRequest (req : ActionRequest) : Decision + ActionContract :=
  match req_Contract req with
  | None => inl (blockedAs VerdictPark ReasonNoTypedContract)
  | Some c =>
      if ac_ActionType c =s "" then inl (blockedAs VerdictPark ReasonNoTypedContract) else
      match unknownGuardrail c with
      | Some guardrail =>
          inl (set_Detail guardrail (decision req VerdictBlocked ReasonUnknownGuardrail))
      | None =>
          if trustedInternalControl req || (req_ExplainFamily req && (req_SQL req =s ""))
          then inr c else
          match gc_ValidateSQL config with
          | None => inl (decision req VerdictPark ReasonNoTypedContract)
          | Some ValidateSQL =>
              match ValidateSQL (req_SQL req) with
              | Err e => inl (set_Detail e (decision req VerdictPark ReasonNoTypedContract))
              | Ok _ => inr c
              end
          end
      end
  end.

Definition factDecision (ctx : Ctx) (req : ActionRequest) : M W (option Decision) :=
  match gc_Facts config with
  | None => ret None
  | Some Bind =>
      if req_Rollback req || requestIsReadOnly req then ret None else
      let! bindings := Bind ctx req in
      match bindings with
      | Err e => ret (Some (decisionForRequest req (blocked ReasonFactsUnavailable
                               ("read confirmed facts: " +:+ e))))
      | Ok [] => ret None
      | Ok bindings => ret (Some (decisionForRequest req
                               (blocked ReasonBoundByFact (FactDetail bindings))))
      end
  end.

(** ** Earned autonomy *)

Definition governedByAutonomy (req : ActionRequest) : bool :=
  match gc_Autonomy config, req_Contract req with
  | Some limiter, Some c =>
      if req_OperatorApproved req || req_Rollback req || (ac_RiskTier c =s RiskReadOnly)
      then false
      else if TrimSpace (req_IncidentFamily req) <>s "" then true
      else match lim_Governs limiter with
           | Some Governs => negb (req_OwnerDeclared req) && Governs req
           | None => false
           end
  | _, _ => false
  end.

Definition selfGoverned (req : ActionRequest) : bool :=
  (TrimSpace (req_IncidentFamily req) =s "") && governedByAutonomy req.

Definition trustedVerdict (doc : Document) (rt : RuntimeState) (req : ActionRequest)
    (base : Decision) (limit : AutonomyLimit) (level : Z) : M W (option TrustedVerdict) :=
  if autonomyExecuteLevel <=? level then ret None else
  let verdict v reason detail :=
    Some {| tv_Verdict := v; tv_Reason := reason; tv_Detail := detail;
            tv_Granted := al_Granted limit; tv_Level := level |} in
  if verdict_eqb (dec_Verdict base) VerdictQueueApproval
  then ret (verdict VerdictQueueApproval (dec_Reason base) (dec_Detail base)) else
  let! at_ := now in
  let why := l3Blocker doc rt req at_ (selfGoverned req) in
  if why <>s "" then ret (verdict VerdictQueueApproval ReasonAutonomyHandoff why)
  else ret (verdict VerdictExecute ReasonAutonomyL3 "").

Definition passMandatoryDeadline (limiter : AutonomyLimiter W) (ctx : Ctx)
    (req : ActionRequest) (base : Decision) : M W Decision :=
  if negb (verdict_eqb (dec_Verdict base) VerdictExecute) then ret base else
  match lim_RecordDeadlineOverride limiter with
  | None => ret base
  | Some RecordDeadlineOverride => let! _ := RecordDeadlineOverride ctx req base in ret base
  end.

Definition restrictAutonomy (ctx : Ctx) (doc : Document) (rt : RuntimeState)
    (c : ActionContract) (req : ActionRequest) (base : Decision) : M W Decision :=
  match gc_Autonomy config with
  | None => ret base
  | Some limiter =>
      if negb (governedByAutonomy req) ||
         (negb (verdict_eqb (dec_Verdict base) VerdictExecute) &&
          negb (verdict_eqb (dec_Verdict base) VerdictQueueApproval))
      then ret base else
      let! at_ := now in
      if mandatoryDeadline doc req at_ then passMandatoryDeadline limiter ctx req base else
      let! limit := lim_Limit limiter ctx req in
      match limit with
      | Err e => ret (decisionForRequest req (blocked ReasonAutonomyUnavailable e))
      | Ok limit =>
          let level := effectiveAutonomyLevel limit (ac_RollbackClass c) in
          let note := autonomyNote level limit base in
          let! trusted := trustedVerdict doc rt req base limit level in
          if (level <? autonomyHandoffLevel) && al_Downgraded limit
          then ret (withTrusted (restricted req VerdictObserveOnly ReasonAutonomyDowngraded note)
                      trusted) else
          if level <? autonomyHandoffLevel
          then ret (withTrusted (restricted req VerdictObserveOnly ReasonAutonomyLevel note)
                      trusted) else
          if (level =? autonomyHandoffLevel) ||
             verdict_eqb (dec_Verdict base) VerdictQueueApproval
          then ret (withTrusted (restricted req VerdictQueueApproval ReasonAutonomyHandoff note)
                      trusted) else
          let! at_ := now in
          let why := l3Blocker doc rt req at_ (selfGoverned req) in
          if why <>s ""
          then ret (restricted req VerdictQueueApproval ReasonAutonomyHandoff
                      (why +:+ "; " +:+ note))
          else ret (set_reason_detail ReasonAutonomyL3 false note base)
      end
  end.

(** ** Windows and the self-initiated decision *)

Definition windowDecision (doc : Document) (rt : RuntimeState) (c : ActionContract)
    (req : ActionRequest) : M W (option Decision) :=
  if negb (moderate_or_high (ac_RiskTier c)) then ret None else
  let! _ := match gc_WindowObserved config with Some hook => hook | None => ret tt end in
  let! at_ := now in
  let configured := (ac_RiskTier c <>s RiskModerate) || rt_InConfiguredWindow rt in
  if configured && inAnyWindow (doc_MaintenanceWindows doc) at_ then ret None else
  if validDeadlineOverride doc (req_Deadline req) at_
  then ret (Some (set_OffWindowOK true (decision req VerdictExecute ReasonDeadlineOverride)))
  else ret (Some (decision req VerdictBlocked ReasonOutsideMaintenanceWindow)).

Definition selfInitiatedDecision (doc : Document) (rt : RuntimeState) (c : ActionContract)
    (req : ActionRequest) : M W Decision :=
  let! at_ := now in
  let tier := tierDecision rt c req at_ (selfGoverned req) in
  if negb (verdict_eqb (dec_Verdict tier) VerdictExecute) then ret tier else
  match refusalDecision doc req with
  | Some d => ret d
  | None =>
      if rt_SQLValidationDegraded rt && (ac_RiskTier c <>s RiskReadOnly)
      then ret (decisionForRequest req degradedValidationDecision) else
      let! stop := windowDecision doc rt c req in
      match stop with Some d => ret d | None => ret tier end
  end.

(** The document's own restrictions and the usage limits: the document read,
    the decision that stops the request, if any, and the budget note. *)
Definition documentDecision (ctx : Ctx) (c : ActionContract) (req : ActionRequest)
    : M W (Document * option Decision * budgetNote) :=
  let! read := policy ctx req in
  match validated read with
  | Err detail =>
      let doc := match read with Ok doc => doc | Err _ => empty_document end in
      ret (doc, Some (blocked ReasonPolicyUnavailable detail), no_note)
  | Ok doc =>
      if ac_RiskTier c =s RiskReadOnly then ret (doc, None, no_note) else
      let changeClass := req_Feature req in
      if negb (containsChangeClass (doc_AllowedChangeClasses doc) changeClass)
      then ret (doc, Some (decision req VerdictBlocked ReasonChangeClassNotAllowed), no_note) else
      if hasGuardrail c GuardrailApprovalRequired || isBackendSignal (ac_ActionType c) ||
         containsChangeClass (doc_ApprovalRequiredClasses doc) changeClass
      then ret (doc, Some (decision req VerdictQueueApproval ReasonApprovalRequired), no_note) else
      let! read := usage ctx req in
      match read with
      | Err e => ret (doc, Some (blocked ReasonPolicyUnavailable e), no_note)
      | Ok used =>
          let kind := BudgetKindFor req in
          let! at_ := now in
          let note := {| bn_read := true; bn_kind := kind;
                         bn_rows := lu_RequestRowsRewritten used;
                         bn_bypass := BudgetBypassFor req at_ |} in
          match limitDecision doc kind used (bn_bypass note <>s "") with
          | Some d => ret (doc, Some (decisionForRequest req d), note)
          | None => ret (doc, None, note)
          end
      end
  end.

(** ** Operator approvals *)

Definition operatorWindowDecision (doc : Document) (rt : RuntimeState) (c : ActionContract)
    (req : ActionRequest) : M W (option Decision) :=
  if negb (moderate_or_high (ac_RiskTier c)) then ret None else
  if approvedMitigation req then ret None else
  let! at_ := now in
  let trustWindowOpen := negb (rt_WindowConfigured rt) || rt_InConfiguredWindow rt in
  if trustWindowOpen && inAnyWindow (doc_MaintenanceWindows doc) at_ then ret None else
  if validDeadlineOverride doc (req_Deadline req) at_
  then ret (Some (set_OffWindowOK true (decision req VerdictExecute ReasonDeadlineOverride)))
  else ret (Some (decision req VerdictBlocked ReasonOutsideMaintenanceWindow)).

Definition operatorDecision (ctx : Ctx) (rt : RuntimeState) (c : ActionContract)
    (req : ActionRequest) : M W Decision :=
  if rt_TrustLevel rt =s TrustObservation
  then ret (blockedAs VerdictObserveOnly ReasonObserveOnly) else
  if negb (trust_known (rt_TrustLevel rt))
  then ret (blocked ReasonUnknownTrustLevel (rt_TrustLevel rt)) else
  if negb (knownRisk (ac_RiskTier c)) then ret (blocked ReasonUnknownRiskTier "") else
  let! read := policy ctx req in
  match validated read with
  | Err detail => ret (blocked ReasonPolicyUnavailable detail)
  | Ok doc =>
      if negb (containsChangeClass (doc_AllowedChangeClasses doc) (req_Feature req))
      then ret (decision req VerdictBlocked ReasonChangeClassNotAllowed) else
      let! stop := operatorWindowDecision doc rt c req in
      match stop with
      | Some d => ret (withDocumentBounds doc d)
      | None => ret (withDocumentBounds doc (decision req VerdictExecute ReasonOperatorApproved))
      end
  end.

(** ** One change per object *)

(** The [switch] of [awaitVerification]. *)
Definition applyWait (req : ActionRequest) (base : Decision) (wait : VerificationWait)
    : Decision :=
  match vw_Pending wait, vw_Released wait with
  | [], [] => base
  | [], released =>
      set_VerificationWait wait
        (set_Detail (joinDetail (dec_Detail base) (ReleaseDetail released)) base)
  | pending, _ =>
      if req_OperatorApproved req
      then set_VerificationWait (set_Overridden wait)
             (set_Detail (joinDetail (dec_Detail base) (OverrideDetail pending)) base)
      else if verdict_eqb (dec_Verdict base) VerdictExecute
      then set_VerificationWait wait
             (set_budget (dec_BudgetKind base) (dec_RowsRewritten base)
               (decisionForRequest req
                 (parked ReasonAwaitingVerification (WaitDetail pending))))
      else set_VerificationWait wait
             (set_Detail (joinDetail (dec_Detail base) (WaitDetail pending)) base)
  end.

Definition awaitVerification (ctx : Ctx) (req : ActionRequest) (base : Decision) : M W Decision :=
  match gc_Verification config with
  | None => ret base
  | Some PendingVerifications =>
      let! at_ := now in
      if negb (waitApplies req base at_) then ret base else
      let! pending := PendingVerifications ctx req in
      match pending with
      | Err e =>
          let why := "read in-flight verifications: " +:+ e in
          if req_OperatorApproved req
          then ret (set_Detail (joinDetail (dec_Detail base) why) base)
          else ret (decisionForRequest req (blocked ReasonPolicyUnavailable why))
      | Ok pending =>
          let! at_ := now in
          ret (applyWait req base (splitWaits pending at_))
      end
  end.

(** ** Agents *)

Definition agentLevelDecision (ctx : Ctx) (c : ActionContract) (req : ActionRequest) (level : Z)
    : M W Decision :=
  if level <=? 0 then ret (decision req VerdictBlocked ReasonAgentLevel0) else
  if level =? 1 then ret (decision req VerdictObserveOnly ReasonAgentProposalRecorded) else
  let queue := decision req VerdictQueueApproval ReasonApprovalRequired in
  if ac_RiskTier c =s RiskReadOnly then ret queue else
  let! read := policy ctx req in
  match validated read with
  | Err detail => ret (blocked ReasonPolicyUnavailable detail)
  | Ok doc =>
      if negb (containsChangeClass (doc_AllowedChangeClasses doc) (req_Feature req))
      then ret (decision req VerdictBlocked ReasonChangeClassNotAllowed)
      else ret queue
  end.

(** The part after the decider has answered with a level. *)
Definition agentAtLevel (ctx : Ctx) (rt : RuntimeState) (c : ActionContract)
    (req : ActionRequest) (level : Z) : M W Decision :=
  if agentOperatorCeiling (rt_TrustLevel rt) =? 0
  then ret (blocked ReasonUnknownTrustLevel (rt_TrustLevel rt)) else
  if req_OperatorApproved req && (2 <=? level)
  then (let! base := operatorDecision ctx rt c req in awaitVerification ctx req base) else
  let level := Z.min (Z.min level (agentOperatorCeiling (rt_TrustLevel rt)))
                     (agentRollbackCap (ac_RollbackClass c)) in
  let level := if rt_ExecutionMode rt =s ExecutionManual then Z.min level 1 else level in
  agentLevelDecision ctx c req level.

Definition agentDecision (ctx : Ctx) (rt : RuntimeState) (c : ActionContract)
    (req : ActionRequest) : M W Decision :=
  match gc_Agents config with
  | None => agentAtLevel ctx rt c req AgentUngovernedCap
  | Some Decide =>
      let! (d, maxLevel, stop) := Decide ctx req in
      if stop : bool then ret (agentStop req d) else agentAtLevel ctx rt c req maxLevel
  end.

(** ** The evaluation *)

Definition selfInitiated (ctx : Ctx) (rt : RuntimeState) (c : ActionContract)
    (req : ActionRequest) : M W Decision :=
  let! (doc, stop, note) := documentDecision ctx c req in
  let! base := match stop with
               | Some d => ret d
               | None => (let! d := selfInitiatedDecision doc rt c req in
                          ret (withDocumentBounds doc d))
               end in
  let! base := restrictAutonomy ctx doc rt c req base in
  awaitVerification ctx req (stamp note base).

(** [evaluate] from [validateRequest] on; [stopped] is the hard stop a
    narrowing request passes. *)
Definition judge (ctx : Ctx) (rt : RuntimeState) (stopped : bool) (req : ActionRequest)
    : M W Decision :=
  match validateRequest req with
  | inl d => ret d
  | inr c =>
      match providerDecision rt c with
      | Some d => ret d
      | None =>
          let! fact := factDecision ctx req in
          match fact with
          | Some d => ret d
          | None =>
              if IsNarrowing req then ret (narrowingDecision req stopped) else
              match req_Principal req with
              | Some _ => agentDecision ctx rt c req
              | None =>
                  if req_OperatorApproved req
                  then (let! base := operatorDecision ctx rt c req in
                        awaitVerification ctx req base) else
                  if observeOnly rt
                  then ret (blockedAs VerdictObserveOnly ReasonObserveOnly) else
                  if negb (trust_known (rt_TrustLevel rt))
                  then ret (blocked ReasonUnknownTrustLevel (rt_TrustLevel rt))
                  else selfInitiated ctx rt c req
              end
          end
      end
  end.

Definition evaluate (ctx : Ctx) (req : ActionRequest) : M W Decision :=
  let! read := runtime ctx req in
  match read with
  | Err e => ret (blocked ReasonPolicyUnavailable e)
  | Ok rt =>
      match hardStop rt req with
      | Some d => if IsNarrowing req then judge ctx rt true req else ret d
      | None => judge ctx rt false req
      end
  end.

(** ** Recording *)

(** The recorded decision, and the recorder's error if it failed. *)
Definition record (ctx : Ctx) (req : ActionRequest) (d : Decision)
    : M W (Decision * option error) :=
  let d := decisionForRequest req d in
  match gc_RecordDecisionDetailed config with
  | Some RecordDecisionDetailed =>
      let! r := RecordDecisionDetailed ctx req d in
      match r with
      | Err e => ret (blocked ReasonPolicyUnavailable e, Some e)
      | Ok (evidenceID, decisionID) => ret (set_record_ids evidenceID decisionID d, None)
      end
  | None =>
      match gc_RecordDecision config with
      | None => ret (d, None)
      | Some RecordDecision =>
          let! r := RecordDecision ctx req d in
          match r with
          | Err e => ret (blocked ReasonPolicyUnavailable e, Some e)
          | Ok evidenceID => ret (set_record_ids evidenceID (dec_DecisionID d) d, None)
          end
      end
  end.

Definition finish (ctx : Ctx) (req : ActionRequest) (d : Decision) : M W Decision :=
  let! (recorded, _) := record ctx req d in ret recorded.

Definition authorizeSerialized
    (Serialize : Ctx -> ActionRequest -> M W (result (Ctx * (bool -> M W (result unit)))))
    (ctx : Ctx) (req : ActionRequest) : M W Decision :=
  let! locked := Serialize ctx req in
  match locked with
  | Err e => finish ctx req (blocked ReasonPolicyUnavailable ("budget lock: " +:+ e))
  | Ok (lockedCtx, done_) =>
      let! d := evaluate lockedCtx req in
      let! (d, recordErr) := record lockedCtx req d in
      match recordErr with
      | Some _ =>
          let! rollback := done_ false in
          match rollback with
          | Err e => ret (set_Detail (dec_Detail d +:+ "; budget lock rollback: " +:+ e) d)
          | Ok _ => ret d
          end
      | None =>
          let! commit := done_ true in
          match commit with
          | Err e => ret (decisionForRequest req (blocked ReasonPolicyUnavailable
                        ("budget lock: commit the recorded decision: " +:+ e)))
          | Ok _ => ret d
          end
      end
  end.

Definition Authorize (ctx : Ctx) (req : ActionRequest) : M W Decision :=
  let req := withContextPrincipal ctx (set_ExplainFamily false req) in
  let agent := match req_Principal req with Some _ => true | None => false end in
  if negb (spendsBudget req) || agent
  then (let! d := evaluate ctx req in finish ctx req d)
  else match gc_Serialize config with
       | Some Serialize => authorizeSerialized Serialize ctx req
       | None => let! d := evaluate ctx req in finish ctx req d
       end.

Definition Explain (ctx : Ctx) (req : ActionRequest) : M W Decision :=
  let req := withContextPrincipal ctx req in
  let! d := evaluate ctx req in ret (decisionForRequest req d).

Definition MaintenanceWindowOpen (ctx : Ctx) (req : ActionRequest) : M W (result bool) :=
  let! read := runtime ctx req in
  match read with
  | Err e => ret (Err e)
  | Ok rt =>
      let! read := policy ctx req in
      match read with
      | Err e => ret (Err e)
      | Ok doc =>
          match ValidateDocument doc with
          | Err e => ret (Err e)
          | Ok _ =>
              if rt_InConfiguredWindow rt
              then (let! at_ := now in ret (Ok (inAnyWindow (doc_MaintenanceWindows doc) at_)))
              else ret (Ok false)
          end
      end
  end.

End Methods.
