(* ===== verification/Samples.v ===== *)
(** * Concrete values

    A configuration whose readers answer with constants, and the requests the
    theorems are instantiated with. *)

From S2P Require Import Prelude.
From S2P Require Import GoStd.
From S2P Require Import PolicyTypes.
From S2P Require Import Window.
From S2P Require Import Budget.
From S2P Require Import Refusal.
From S2P Require Import Document.
From S2P Require Import Gate.

(** A process in UTC without a time-zone database. *)
#[export] Instance sample_env : GoEnv := {| tz_lookup := fun _ => None; time_Local := UTC |}.

Definition sample_now : Time := time_Date 2026 10 4 18 10 0.

Definition sample_gate (rt : RuntimeState) (doc : Document) : GateConfig unit :=
  {| gc_Runtime := Some (fun _ _ => ret (Ok rt));
     gc_ValidateSQL := Some (fun _ => Ok tt);
     gc_Policy := Some (fun _ _ => ret (Ok doc));
     gc_Usage := Some (fun _ _ => ret (Ok zero_usage));
     gc_WindowObserved := None; gc_RecordDecision := None;
     gc_RecordDecisionDetailed := Some (fun _ _ _ => ret (Ok ("evidence", 7)));
     gc_Now := Some (ret sample_now); gc_SystemNow := ret sample_now;
     gc_Autonomy := None; gc_Serialize := None; gc_Facts := None; gc_Verification := None;
     gc_Agents := None |}.

(** The same gate with an earned-autonomy limiter. *)
Definition with_autonomy (limiter : AutonomyLimiter unit) (g : GateConfig unit)
    : GateConfig unit :=
  {| gc_Runtime := gc_Runtime g; gc_ValidateSQL := gc_ValidateSQL g; gc_Policy := gc_Policy g;
     gc_Usage := gc_Usage g; gc_WindowObserved := gc_WindowObserved g;
     gc_RecordDecision := gc_RecordDecision g;
     gc_RecordDecisionDetailed := gc_RecordDecisionDetailed g; gc_Now := gc_Now g;
     gc_SystemNow := gc_SystemNow g; gc_Autonomy := Some limiter;
     gc_Serialize := gc_Serialize g; gc_Facts := gc_Facts g;
     gc_Verification := gc_Verification g; gc_Agents := gc_Agents g |}.

(** A limiter that grants L3 to every incident request. *)
Definition sample_limiter : AutonomyLimiter unit :=
  {| lim_Limit := fun _ _ => ret (Ok {| al_Level := 3; al_Granted := 3; al_Downgraded := false;
       al_Reasons := []; al_Class := "index"; al_Family := "slow_query" |});
     lim_Governs := None; lim_RecordDeadlineOverride := None |}.

Definition sample_ctx : Ctx := {| ctx_Principal := None; ctx_Tx := None |}.

Definition autonomous : RuntimeState := sample_runtime TrustAutonomous ExecutionAuto.

Definition stopped_runtime : RuntimeState :=
  {| rt_ExecutorEnabled := true; rt_EmergencyStop := true; rt_IsReplica := false;
     rt_TrustLevel := TrustAutonomous; rt_ExecutionMode := ExecutionAuto;
     rt_Tier3Safe := true; rt_Tier3Moderate := true; rt_RampStart := 1; rt_SafeRampAge := 0;
     rt_ModerateRampAge := 0; rt_InConfiguredWindow := true; rt_Provider := "";
     rt_WindowConfigured := false; rt_SQLValidationDegraded := false |}.

Definition index_contract : ActionContract :=
  sample_contract "create_index_concurrently" RiskSafe RollbackReversible.
Definition index_request : ActionRequest :=
  sample_request index_contract ChangeIndex "CREATE INDEX CONCURRENTLY i ON t (a)" "public.t".

(** The same change as the remedy of an incident. *)
Definition incident_request : ActionRequest :=
  {| req_DatabaseID := Some 1; req_Contract := Some index_contract; req_Arguments := "";
     req_InternalControl := false; req_SQL := "CREATE INDEX CONCURRENTLY i ON t (a)";
     req_TargetObjs := ["public.t"]; req_Feature := ChangeIndex; req_Deadline := None;
     req_Evidence := ∅; req_IsReplica := false; req_ExplainFamily := false;
     req_OperatorApproved := false; req_OwnerDeclared := false;
     req_IncidentFamily := "slow_query"; req_EvidenceObservedAt := 0; req_LeaseHeld := false;
     req_Rollback := false; req_Principal := None; req_CapabilityClass := "";
     req_ArtifactHash := "" |}.

(** A request approved by a person, from an agent when [p] names one. *)
Definition approved_request (p : option PrincipalRef) : ActionRequest :=
  {| req_DatabaseID := Some 1; req_Contract := Some index_contract; req_Arguments := "";
     req_InternalControl := false; req_SQL := "CREATE INDEX CONCURRENTLY i ON t (a)";
     req_TargetObjs := ["public.t"]; req_Feature := ChangeIndex; req_Deadline := None;
     req_Evidence := ∅; req_IsReplica := false; req_ExplainFamily := false;
     req_OperatorApproved := true; req_OwnerDeclared := false;
     req_IncidentFamily := ""; req_EvidenceObservedAt := 0; req_LeaseHeld := false;
     req_Rollback := false; req_Principal := p; req_CapabilityClass := "";
     req_ArtifactHash := "" |}.

Definition sample_agent : PrincipalRef :=
  {| pr_ID := "agp_1"; pr_SponsorID := 4; pr_TaskID := ""; pr_OnBehalfOf := "";
     pr_Tool := "execute_sql" |}.
