(* ===== verification/GateSafety.v ===== *)
(** * What an execute verdict of the gate implies

    One lemma per part of the gate says what holds when that part lets a
    request execute; [evaluate_authorized] composes them.  Everything is said
    about the values the gate's callbacks returned ([returns]): no assumption is
    made on the callbacks. *)

From S2P Require Import Prelude.
From S2P Require Import GoStd.
From S2P Require Import PolicyTypes.
From S2P Require Import Window.
From S2P Require Import Budget.
From S2P Require Import Refusal.
From S2P Require Import Document.
From S2P Require Import Gate.
From S2P Require Import Samples.

Definition read_only (c : ActionContract) : Prop := ac_RiskTier c = RiskReadOnly.

Section Spec.
Context `{GoEnv} {W : Type} (config : GateConfig W) (ctx : Ctx) (req : ActionRequest).

(** What the callbacks answered. *)
Definition saw_runtime (rt : RuntimeState) : Prop := returns (runtime config ctx req) (Ok rt).
Definition saw_policy (doc : Document) : Prop := returns (policy config ctx req) (Ok doc).
Definition saw_usage (u : LimitUsage) : Prop := returns (usage config ctx req) (Ok u).
Definition saw_time (t : Time) : Prop := returns (now config) t.
Definition saw_limit (l : AutonomyLimit) : Prop :=
  exists limiter, gc_Autonomy config = Some limiter /\ returns (lim_Limit limiter ctx req) (Ok l).
Definition saw_pending (p : list PendingVerification) : Prop :=
  exists tracker, gc_Verification config = Some tracker /\ returns (tracker ctx req) (Ok p).
Definition saw_no_facts : Prop :=
  gc_Facts config = None \/
  exists binder, gc_Facts config = Some binder /\ returns (binder ctx req) (Ok []).

(** The maintenance windows let a moderate or high risk change run, or a live
    deadline of a kind the document overrides does. *)
Definition window_or_deadline (doc : Document) (trust_window : bool) : Prop :=
  exists t, saw_time t /\
    (trust_window = true /\ inAnyWindow (doc_MaintenanceWindows doc) t = true \/
     validDeadlineOverride doc (req_Deadline req) t = true).

(** The tier, trust level, execution mode and ramp of an unattended change. *)
Definition tier_allows (rt : RuntimeState) (c : ActionContract) : Prop :=
  rt_ExecutionMode rt <> ExecutionApproval /\ rt_ExecutionMode rt <> ExecutionManual /\
  (rt_TrustLevel rt = TrustAdvisory \/ rt_TrustLevel rt = TrustAutonomous) /\
  (read_only c \/
   (exists t, saw_time t /\
     (ac_RiskTier c = RiskSafe /\ rt_Tier3Safe rt = true /\
      rampSatisfied rt (rampAge (rt_SafeRampAge rt) SpecSafeRampAge (ac_RollbackClass c)) t
        (selfGoverned config req) = true \/
      ac_RiskTier c = RiskModerate /\ rt_TrustLevel rt = TrustAutonomous /\
      rt_Tier3Moderate rt = true /\
      rampSatisfied rt (rampAge (rt_ModerateRampAge rt) SpecModerateRampAge (ac_RollbackClass c))
        t (selfGoverned config req) = true))).

(** The standing document allows the change class without approval, and the
    usage limits of the request's budget kind leave room for it. *)
Definition document_allows (doc : Document) (c : ActionContract) : Prop :=
  valid_document doc /\
  (read_only c \/
   (req_Feature req ∈ doc_AllowedChangeClasses doc) /\
   ~ (req_Feature req ∈ doc_ApprovalRequiredClasses doc) /\
   ~ (GuardrailApprovalRequired ∈ ac_Guardrails c) /\
   isBackendSignal (ac_ActionType c) = false /\
   exists u t, saw_usage u /\ saw_time t /\
     limitDecision doc (BudgetKindFor req) u (BudgetBypassFor req t <>s "") = None).

Definition self_allows (rt : RuntimeState) (doc : Document) (c : ActionContract) : Prop :=
  tier_allows rt c /\ refusalDecision doc req = None /\
  (rt_SQLValidationDegraded rt = true -> read_only c) /\
  (ac_RiskTier c = RiskModerate -> window_or_deadline doc (rt_InConfiguredWindow rt)).

(** The earned-autonomy ledger lets the change run: it does not govern it, a
    mandatory deadline passes it, or its pair has earned L3 now and the change
    is bounded to one object and, for an incident family, inside a window. *)
Definition ledger_allows (rt : RuntimeState) (doc : Document) (c : ActionContract) : Prop :=
  governedByAutonomy config req = false \/
  (exists t, saw_time t /\ mandatoryDeadline doc req t = true) \/
  (exists l t, saw_limit l /\ saw_time t /\
     effectiveAutonomyLevel l (ac_RollbackClass c) = autonomyExecuteLevel /\
     l3Blocker doc rt req t (selfGoverned config req) = "").

(** No change in flight on the request's objects holds it back. *)
Definition wait_allows : Prop :=
  gc_Verification config = None \/ requestIsReadOnly req = true \/
  req_OwnerDeclared req = true \/ req_OperatorApproved req = true \/
  (exists t, saw_time t /\ BudgetBypassFor req t <> "") \/
  (exists p t, saw_pending p /\ saw_time t /\ Forall (fun v => Expired v t = true) p).

Definition operator_allows (rt : RuntimeState) (c : ActionContract) : Prop :=
  (rt_TrustLevel rt = TrustAdvisory \/ rt_TrustLevel rt = TrustAutonomous) /\
  knownRisk (ac_RiskTier c) = true /\
  exists doc, saw_policy doc /\ valid_document doc /\
    req_Feature req ∈ doc_AllowedChangeClasses doc /\
    (moderate_or_high (ac_RiskTier c) = false \/ approvedMitigation req = true \/
     window_or_deadline doc (negb (rt_WindowConfigured rt) || rt_InConfiguredWindow rt)).

(** An agent's approved request still needs its decider to have capped it no
    lower than L2; without a decider the cap is L2. *)
Definition agent_allows : Prop :=
  req_Principal req = None \/ gc_Agents config = None \/
  exists Decide d level, gc_Agents config = Some Decide /\
    returns (Decide ctx req) (d, level, false) /\ 2 <= level.

(** The contract is one the gate knows how to judge. *)
Definition contract_checked (rt : RuntimeState) (c : ActionContract) : Prop :=
  req_Contract req = Some c /\ ac_ActionType c <> "" /\
  Forall (fun g => g = GuardrailApprovalRequired) (ac_Guardrails c) /\
  (trustedInternalControl req = true \/ req_ExplainFamily req = true /\ req_SQL req = "" \/
   exists check, gc_ValidateSQL config = Some check /\ check (req_SQL req) = Ok tt) /\
  providerDecision rt c = None /\
  (req_Rollback req = true \/ read_only c \/ saw_no_facts).

(** The three ways a request gets to execute. *)
Inductive authority (rt : RuntimeState) (c : ActionContract) : Prop :=
| by_narrowing : ac_Narrowing c = true -> authority rt c
| by_operator :
    hardStop rt req = None -> req_OperatorApproved req = true -> agent_allows ->
    operator_allows rt c -> authority rt c
| by_self doc :
    hardStop rt req = None -> req_Principal req = None -> req_OperatorApproved req = false ->
    saw_policy doc -> document_allows doc c -> self_allows rt doc c ->
    ledger_allows rt doc c -> wait_allows -> authority rt c.

Definition authorized : Prop :=
  exists rt c, saw_runtime rt /\ contract_checked rt c /\ authority rt c.

(** ** The parts of the gate *)

Definition executes (d : Decision) : Prop := dec_Verdict d = VerdictExecute.

Lemma verdict_eqb_true a b : verdict_eqb a b = true <-> a = b.
Proof. apply bool_decide_eq_true. Qed.

Lemma decision_verdict v r : dec_Verdict (decision req v r) = v.
Proof. unfold decision. by rewrite decisionForRequest_verdict. Qed.

Lemma validated_Ok r doc : validated r = Ok doc -> r = Ok doc /\ valid_document doc.
Proof.
  unfold validated. destruct r as [d|]; [|done].
  destruct (ValidateDocument d) as [[]|] eqn:E; [|done]. intros [= <-].
  by rewrite <- ValidateDocument_valid.
Qed.

Lemma hardStop_not_execute rt d : hardStop rt req = Some d -> dec_Verdict d = VerdictBlocked.
Proof. unfold hardStop. intros Hd. repeat case_hyp Hd; by simplify_eq. Qed.

Lemma trust_known_spec trust :
  trust_known trust = true <-> trust = TrustAdvisory \/ trust = TrustAutonomous.
Proof. unfold trust_known. by reflect_all. Qed.

Lemma tierDecision_execute rt c t g :
  executes (tierDecision rt c req t g) ->
  rt_ExecutionMode rt <> ExecutionApproval /\
  trust_known (rt_TrustLevel rt) = true /\
  (read_only c \/
   ac_RiskTier c = RiskSafe /\ rt_Tier3Safe rt = true /\
     rampSatisfied rt (rampAge (rt_SafeRampAge rt) SpecSafeRampAge (ac_RollbackClass c)) t g
       = true \/
   ac_RiskTier c = RiskModerate /\ rt_TrustLevel rt = TrustAutonomous /\
     rt_Tier3Moderate rt = true /\
     rampSatisfied rt (rampAge (rt_ModerateRampAge rt) SpecModerateRampAge (ac_RollbackClass c))
       t g = true).
Proof.
  unfold executes, tierDecision, read_only. intros Hx.
  repeat case_hyp Hx; rewrite decisionForRequest_verdict in Hx; simpl in Hx; try done;
    reflect_all; split_and!; first [done | tauto | rewrite trust_known_spec; tauto | naive_solver].
Qed.

Lemma refusalDecision_not_execute doc d :
  refusalDecision doc req = Some d -> dec_Verdict d = VerdictQueueApproval.
Proof. intros Hd. by apply refusalDecision_queues in Hd as []. Qed.

Lemma windowDecision_spec doc rt c :
  yields (windowDecision config doc rt c req) (fun stop =>
    (forall d, stop = Some d -> dec_Verdict d = VerdictExecute \/ dec_Verdict d = VerdictBlocked) /\
    ((stop = None \/ exists d, stop = Some d /\ executes d) -> ac_RiskTier c = RiskModerate ->
     window_or_deadline doc (rt_InConfiguredWindow rt))).
Proof.
  unfold windowDecision. destruct (moderate_or_high (ac_RiskTier c)) eqn:Em; simpl.
  2: { apply yields_ret. split; [done|]. intros _ Hr. unfold moderate_or_high in Em.
       by rewrite Hr in Em. }
  apply yields_bind_any. intros _. apply yields_bind_returns. intros t Ht.
  destruct (_ && _) eqn:Eo; [|destruct (validDeadlineOverride _ _ _) eqn:Ev];
    apply yields_ret; (split; [intros d Hd; simplify_eq/=; rewrite ?decision_verdict; auto|]).
  - intros _ Hr. exists t. split; [done|]. left. apply andb_true_iff in Eo as [Hc ?].
    rewrite Hr in Hc. simpl in Hc. done.
  - intros _ Hr. exists t. split; [done|]. by right.
  - unfold executes. intros [?|(d & ? & Hx)]; simplify_eq/=. by rewrite decision_verdict in Hx.
Qed.

Lemma selfInitiatedDecision_spec doc rt c :
  (rt_TrustLevel rt = TrustAdvisory \/ rt_TrustLevel rt = TrustAutonomous) ->
  rt_ExecutionMode rt <> ExecutionManual ->
  yields (selfInitiatedDecision config doc rt c req) (fun d =>
    executes d -> self_allows rt doc c).
Proof.
  intros Htrust Hmanual. unfold selfInitiatedDecision.
  apply yields_bind_returns. intros t Ht.
  destruct (verdict_eqb _ _) eqn:Etier; simpl.
  2: { apply yields_ret. intros Hx. apply verdict_eqb_true in Hx. congruence. }
  apply verdict_eqb_true in Etier. apply tierDecision_execute in Etier as (Hm & _ & Htier).
  destruct (refusalDecision doc req) as [d|] eqn:Eref.
  { apply yields_ret. intros Hx. apply refusalDecision_not_execute in Eref. congruence. }
  destruct (rt_SQLValidationDegraded rt && _) eqn:Edeg.
  { apply yields_ret. unfold executes. by rewrite decisionForRequest_verdict. }
  assert (Hself : (ac_RiskTier c = RiskModerate ->
    window_or_deadline doc (rt_InConfiguredWindow rt)) -> self_allows rt doc c).
  { intros Hw. split_and!; try done.
    - do 3 (split; [done|]). destruct Htier as [?|?]; [by left|right]. exists t. auto.
    - intros Hd. rewrite Hd in Edeg. unfold read_only. reflect_all. by destruct Edeg. }
  eapply yields_bind; [apply windowDecision_spec|]. intros [d|] [Hv Hw]; apply yields_ret.
  - intros Hx. apply Hself, Hw. eauto.
  - intros _. apply Hself, Hw. auto.
Qed.

Lemma limitDecision_not_execute doc kind u b d :
  limitDecision doc kind u b = Some d -> ~ executes d.
Proof. intros Hd. apply limitDecision_parks in Hd. unfold executes. congruence. Qed.

Lemma documentDecision_spec c :
  yields (documentDecision config ctx c req) (fun '(doc, stop, note) =>
    match stop with
    | Some d => ~ executes d
    | None => saw_policy doc /\ document_allows doc c
    end).
Proof.
  unfold documentDecision, executes. apply yields_bind_returns. intros rd Hrd.
  destruct (validated rd) as [doc|detail] eqn:Ev; [|by apply yields_ret].
  apply validated_Ok in Ev as [-> Hvalid].
  destruct (ac_RiskTier c =s RiskReadOnly) eqn:Er; reflect_all.
  { apply yields_ret. split; [done|]. split; [done|]. by left. }
  destruct (containsChangeClass (doc_AllowedChangeClasses doc) _) eqn:Ea; simpl;
    [|apply yields_ret; by rewrite decision_verdict].
  destruct (_ || _) eqn:Eq; [apply yields_ret; by rewrite decision_verdict|].
  apply yields_bind_returns. intros [u|e] Hu; [|by apply yields_ret].
  apply yields_bind_returns. intros t Ht. cbn [bn_bypass].
  destruct (limitDecision _ _ _ _) as [d|] eqn:El; apply yields_ret.
  { rewrite decisionForRequest_verdict. by eapply limitDecision_not_execute. }
  split; [done|]. split; [done|]. right.
  unfold containsChangeClass, hasGuardrail in *. reflect_all. destruct Eq as [[Hg Hb] Hq].
  split_and!; try done.
  - intros Hin. apply str_in_spec in Hin. congruence.
  - intros Hin. apply str_in_spec in Hin. congruence.
  - exists u, t. auto.
Qed.

Lemma trustedVerdict_any doc rt base limit level Q :
  (forall t, Q t) -> yields (trustedVerdict config doc rt req base limit level) Q.
Proof. intros HQ w. apply HQ. Qed.

Lemma restricted_verdict v r detail : dec_Verdict (restricted req v r detail) = v.
Proof. unfold restricted. simpl. by rewrite decisionForRequest_verdict. Qed.

Lemma withTrusted_verdict d t : dec_Verdict (withTrusted d t) = dec_Verdict d.
Proof. done. Qed.

Lemma effectiveAutonomyLevel_range l rollback :
  0 <= effectiveAutonomyLevel l rollback <= autonomyExecuteLevel.
Proof.
  unfold effectiveAutonomyLevel, reversibilityCap, autonomyExecuteLevel, autonomyHandoffLevel.
  repeat case_goal; lia.
Qed.

(** Only a reversible change reaches L3, and only while nothing downgrades it. *)
Lemma effectiveAutonomyLevel_execute l rollback :
  effectiveAutonomyLevel l rollback = autonomyExecuteLevel ->
  (rollback = RollbackReversible \/ rollback = RollbackNoRollbackNeeded) /\
  autonomyExecuteLevel <= al_Level l /\ al_Downgraded l = false.
Proof.
  unfold effectiveAutonomyLevel, reversibilityCap, autonomyExecuteLevel, autonomyHandoffLevel.
  destruct (_ || _) eqn:E.
  - reflect_all. destruct (al_Downgraded l); intros Hl; [exfalso; lia|].
    split; [done|]. split; [lia|done].
  - destruct (rollback =s RollbackMitigationOnly), (al_Downgraded l); intros Hl; exfalso; lia.
Qed.

Lemma restrictAutonomy_spec doc rt c base :
  yields (restrictAutonomy config ctx doc rt c req base) (fun d =>
    executes d -> executes base /\ ledger_allows rt doc c).
Proof.
  unfold restrictAutonomy, ledger_allows, executes.
  destruct (gc_Autonomy config) as [limiter|] eqn:El.
  2: { apply yields_ret. intros Hx. split; [done|]. left. unfold governedByAutonomy. by rewrite El. }
  destruct (governedByAutonomy config req) eqn:Eg; simpl; [|apply yields_ret; auto].
  destruct (_ && _) eqn:Eb.
  { apply yields_ret. intros Hx. apply andb_true_iff in Eb as [Eb _].
    apply negb_true_iff, bool_decide_eq_false in Eb. done. }
  apply yields_bind_returns. intros t Ht. destruct (mandatoryDeadline _ _ _) eqn:Em.
  { unfold passMandatoryDeadline. repeat yields_step; intros Hx; eauto 8. }
  apply yields_bind_returns. intros [l|e] Hl.
  2: { apply yields_ret. by rewrite decisionForRequest_verdict. }
  apply yields_bind_any. intros trusted.
  destruct (_ && al_Downgraded l); [by apply yields_ret; rewrite withTrusted_verdict,
    restricted_verdict|].
  destruct (_ <? _) eqn:E2; [by apply yields_ret; rewrite withTrusted_verdict,
    restricted_verdict|].
  destruct (_ || _) eqn:E3; [by apply yields_ret; rewrite withTrusted_verdict,
    restricted_verdict|].
  apply orb_false_iff in E3 as [E3 Eq]. apply andb_false_iff in Eb as [Eb|Eb];
    apply negb_false_iff, verdict_eqb_true in Eb; [|by rewrite Eb in Eq].
  apply yields_bind_returns. intros t' Ht'. destruct (l3Blocker _ _ _ _ _ =s "") eqn:Eblk; simpl.
  - apply yields_ret. intros _. split; [done|]. right; right. exists l, t'.
    apply eqb_str in Eblk. split_and!; try done; [by exists limiter|].
    pose proof (effectiveAutonomyLevel_range l (ac_RollbackClass c)).
    unfold autonomyHandoffLevel, autonomyExecuteLevel in *. reflect_all. lia.
  - apply yields_ret. by rewrite restricted_verdict.
Qed.

Lemma filter_nil_forall {A} (f : A -> bool) l :
  List.filter (fun a => negb (f a)) l = [] -> Forall (fun a => f a = true) l.
Proof.
  induction l as [|a l IH]; simpl; [by constructor|]. destruct (f a) eqn:E; simpl; [|done].
  intros Hl. constructor; auto.
Qed.

Lemma applyWait_execute base wait :
  executes (applyWait req base wait) ->
  executes base /\ (req_OperatorApproved req = true \/ vw_Pending wait = []).
Proof.
  unfold applyWait, executes. intros Hx. repeat case_hyp Hx; simpl in Hx;
    rewrite ?decisionForRequest_verdict in Hx; simpl in Hx; try done; auto.
  match goal with Hv : verdict_eqb _ _ = false |- _ => by apply bool_decide_eq_false in Hv end.
Qed.

Lemma awaitVerification_spec base :
  yields (awaitVerification config ctx req base) (fun d =>
    executes d -> executes base /\ (req_Contract req <> None -> wait_allows)).
Proof.
  unfold awaitVerification, wait_allows, executes.
  destruct (gc_Verification config) as [tracker|] eqn:Et; [|apply yields_ret; auto].
  apply yields_bind_returns. intros t Ht. destruct (waitApplies req base t) eqn:Ew; simpl.
  2: { apply yields_ret. intros Hx. split; [done|]. intros Hc. unfold waitApplies in Ew.
       destruct (req_Contract req) eqn:Ec; [|done].
       destruct (requestIsReadOnly req); [tauto|]. destruct (req_OwnerDeclared req); [tauto|].
       simpl in Ew. rewrite Hx in Ew. simpl in Ew. apply neqb_str in Ew.
       do 4 right; left. eauto. }
  apply yields_bind_returns. intros [p|e] Hp.
  2: { destruct (req_OperatorApproved req); apply yields_ret; simpl;
         [tauto|by rewrite decisionForRequest_verdict]. }
  apply yields_bind_returns. intros t' Ht'. apply yields_ret. intros Hx.
  destruct (applyWait_execute _ _ Hx) as (Hb & Hw). split; [done|]. intros _.
  destruct Hw as [Ho|Hnone]; [tauto|]. do 5 right. exists p, t'. split_and!; try done.
  - by exists tracker.
  - by apply filter_nil_forall.
Qed.

Lemma operatorWindowDecision_spec doc rt c :
  yields (operatorWindowDecision config doc rt c req) (fun stop =>
    (stop = None \/ exists d, stop = Some d /\ executes d) ->
    moderate_or_high (ac_RiskTier c) = false \/ approvedMitigation req = true \/
    window_or_deadline doc (negb (rt_WindowConfigured rt) || rt_InConfiguredWindow rt)).
Proof.
  unfold operatorWindowDecision. destruct (moderate_or_high _); simpl; [|apply yields_ret; auto].
  destruct (approvedMitigation req); [apply yields_ret; auto|].
  apply yields_bind_returns. intros t Ht.
  destruct (_ && _) eqn:Eo; [|destruct (validDeadlineOverride _ _ _) eqn:Ev]; apply yields_ret.
  - intros _. right; right. exists t. apply andb_true_iff in Eo. auto.
  - intros _. right; right. exists t. auto.
  - unfold executes. intros [?|(d & ? & Hx)]; simplify_eq/=. by rewrite decision_verdict in Hx.
Qed.

Lemma operatorDecision_spec rt c :
  yields (operatorDecision config ctx rt c req) (fun d =>
    executes d -> operator_allows rt c).
Proof.
  unfold operatorDecision, executes.
  destruct (_ =s TrustObservation); [by apply yields_ret|].
  destruct (trust_known _) eqn:Et; simpl; [|by apply yields_ret].
  apply trust_known_spec in Et.
  destruct (knownRisk _) eqn:Er; simpl; [|by apply yields_ret].
  apply yields_bind_returns. intros rd Hrd. destruct (validated rd) as [doc|] eqn:Ev;
    [|by apply yields_ret]. apply validated_Ok in Ev as [-> Hvalid].
  destruct (containsChangeClass _ _) eqn:Ea; simpl;
    [|apply yields_ret; by rewrite decision_verdict].
  apply str_in_spec in Ea. eapply yields_bind; [apply operatorWindowDecision_spec|].
  intros stop Hstop. assert (Hgoal : (stop = None \/ exists d, stop = Some d /\ executes d) ->
    operator_allows rt c).
  { intros Hx. do 2 (split; [done|]). exists doc. split_and!; auto. }
  destruct stop as [d|]; apply yields_ret; rewrite withDocumentBounds_verdict.
  - intros Hx. apply Hgoal. eauto.
  - intros _. apply Hgoal. auto.
Qed.

Lemma factDecision_spec :
  yields (factDecision config ctx req) (fun stop =>
    match stop with
    | Some d => ~ executes d
    | None => req_Rollback req = true \/ requestIsReadOnly req = true \/ saw_no_facts
    end).
Proof.
  unfold factDecision, saw_no_facts, executes.
  destruct (gc_Facts config) as [binder|] eqn:Ef; [|apply yields_ret; auto].
  destruct (_ || _) eqn:Eo.
  { apply yields_ret. apply orb_true_iff in Eo. tauto. }
  apply yields_bind_returns. intros [[|b bs]|e] Hb; apply yields_ret;
    rewrite ?decisionForRequest_verdict; eauto 6.
Qed.

Lemma providerDecision_not_execute rt c d :
  providerDecision rt c = Some d -> dec_Verdict d = VerdictBlocked.
Proof. unfold providerDecision. intros Hd. repeat case_hyp Hd; by simplify_eq. Qed.

Lemma validateRequest_inl d :
  validateRequest config req = inl d ->
  dec_Verdict d = VerdictPark \/ dec_Verdict d = VerdictBlocked.
Proof.
  unfold validateRequest. intros Hd. repeat case_hyp Hd; simplify_eq/=;
    rewrite ?decision_verdict; auto.
Qed.

Lemma validateRequest_inr rt c :
  validateRequest config req = inr c -> providerDecision rt c = None ->
  (req_Rollback req = true \/ requestIsReadOnly req = true \/ saw_no_facts) ->
  contract_checked rt c.
Proof.
  intros Hv Hp Hf. unfold validateRequest in Hv.
  destruct (req_Contract req) as [c'|] eqn:Ec; [|done].
  destruct (ac_ActionType c' =s "") eqn:Ea; [done|].
  destruct (unknownGuardrail c') eqn:Eg; [done|].
  assert (c' = c /\ (trustedInternalControl req = true \/
    req_ExplainFamily req = true /\ req_SQL req = "" \/
    exists check, gc_ValidateSQL config = Some check /\ check (req_SQL req) = Ok tt)) as [-> Hsql].
  { destruct (_ || _) eqn:Eo; [simplify_eq; split; [done|]; reflect_all; tauto|].
    destruct (gc_ValidateSQL config) as [check|]; [|done].
    destruct (check (req_SQL req)) as [[]|] eqn:Ek; simplify_eq. eauto 6. }
  unfold contract_checked. split_and!; try done.
  - by apply neqb_str.
  - apply find_none_forall in Eg. eapply Forall_impl; [exact Eg|]. simpl. intros g Hg.
    by reflect_all.
  - destruct Hf as [?|[Hr|?]]; [auto| |auto]. right; left. unfold requestIsReadOnly in Hr.
    rewrite Ec in Hr. by apply eqb_str.
Qed.

Lemma agentLevelDecision_spec c level :
  yields (agentLevelDecision config ctx c req level) (fun d => ~ executes d).
Proof.
  unfold agentLevelDecision, executes.
  repeat (yields_step; rewrite ?decision_verdict); done.
Qed.

Lemma agentStop_not_execute d : ~ executes (agentStop req d).
Proof.
  unfold agentStop, executes. destruct (_ && _) eqn:E; [done|].
  rewrite decisionForRequest_verdict. intros Hx. by rewrite Hx in E.
Qed.

Lemma agentAtLevel_spec rt c level :
  yields (agentAtLevel config ctx rt c req level) (fun d =>
    executes d -> req_OperatorApproved req = true /\ 2 <= level /\ operator_allows rt c).
Proof.
  unfold agentAtLevel. destruct (_ =? 0); [by apply yields_ret|].
  destruct (_ && _) eqn:Eo.
  - apply andb_true_iff in Eo as [Ho Hl]. apply Z.leb_le in Hl.
    eapply yields_bind; [apply operatorDecision_spec|]. intros base Hbase.
    eapply yields_mono; [apply awaitVerification_spec|]. intros d Hd Hx.
    apply Hd in Hx as [Hx _]. auto.
  - eapply yields_mono; [apply agentLevelDecision_spec|]. intros d Hd Hx. by destruct Hd.
Qed.

Lemma agentDecision_spec rt c :
  yields (agentDecision config ctx rt c req) (fun d =>
    executes d -> req_OperatorApproved req = true /\ agent_allows /\ operator_allows rt c).
Proof.
  unfold agentDecision, agent_allows. destruct (gc_Agents config) as [Decide|].
  - apply yields_bind_returns. intros [[d level] []] Hd.
    + apply yields_ret. intros Hx. by apply agentStop_not_execute in Hx.
    + eapply yields_mono; [apply agentAtLevel_spec|]. intros d' Hd' Hx.
      destruct (Hd' Hx) as (? & ? & ?). split_and!; try done. right; right. eauto 6.
  - eapply yields_mono; [apply agentAtLevel_spec|]. intros d' Hd' Hx.
    destruct (Hd' Hx) as (? & ? & ?). split_and!; try done. by right; left.
Qed.

Lemma stamp_executes note d : executes (stamp note d) <-> executes d.
Proof. unfold executes. by rewrite stamp_verdict. Qed.

Lemma selfInitiated_spec rt c :
  req_Contract req = Some c ->
  trust_known (rt_TrustLevel rt) = true -> observeOnly rt = false ->
  yields (selfInitiated config ctx rt c req) (fun d => executes d ->
    exists doc, saw_policy doc /\ document_allows doc c /\ self_allows rt doc c /\
      ledger_allows rt doc c /\ wait_allows).
Proof.
  intros Hc Htrust Hobs. unfold selfInitiated.
  apply trust_known_spec in Htrust. unfold observeOnly in Hobs. reflect_all.
  destruct Hobs as [_ Hmanual].
  eapply yields_bind; [apply documentDecision_spec|]. intros [[doc stop] note] Hdoc.
  apply (yields_bind _ _ (fun base => executes base ->
    saw_policy doc /\ document_allows doc c /\ self_allows rt doc c)).
  { destruct stop as [d|]; [by apply yields_ret; intros Hx|].
    eapply yields_bind; [by apply selfInitiatedDecision_spec|]. intros d Hd. apply yields_ret.
    unfold executes. rewrite withDocumentBounds_verdict. intros Hx. destruct Hdoc. auto. }
  intros base Hbase.
  eapply yields_bind; [apply restrictAutonomy_spec|]. intros base' Hbase'.
  eapply yields_mono; [apply awaitVerification_spec|]. intros d Hd Hx.
  apply Hd in Hx as [Hx Hw]. apply stamp_executes, Hbase' in Hx as [Hx Hl].
  apply Hbase in Hx as (? & ? & ?). exists doc. split_and!; try done. apply Hw. congruence.
Qed.

Lemma judge_authorized rt stopped :
  saw_runtime rt -> (IsNarrowing req = true \/ hardStop rt req = None) ->
  yields (judge config ctx rt stopped req) (fun d => executes d -> authorized).
Proof.
  intros Hrt Hgo. unfold judge. destruct (validateRequest config req) as [d|c] eqn:Ev.
  { apply yields_ret. unfold executes. intros Hx. apply validateRequest_inl in Ev as []; congruence. }
  destruct (providerDecision rt c) as [d|] eqn:Ep.
  { apply yields_ret. unfold executes. intros Hx. apply providerDecision_not_execute in Ep.
    congruence. }
  eapply yields_bind; [apply factDecision_spec|]. intros [d|] Hfact.
  { apply yields_ret. intros Hx. by destruct Hfact. }
  pose proof (validateRequest_inr rt c Ev Ep Hfact) as Hck.
  assert (Hc : req_Contract req = Some c) by apply Hck.
  destruct (IsNarrowing req) eqn:En.
  { apply yields_ret. intros _. exists rt, c. split_and!; try done. apply by_narrowing.
    unfold IsNarrowing in En. by rewrite Hc in En. }
  assert (Hs : hardStop rt req = None) by by destruct Hgo.
  destruct (req_Principal req) eqn:Epr.
  { eapply yields_mono; [apply agentDecision_spec|]. intros d Hd Hx.
    apply Hd in Hx as (? & ? & ?). exists rt, c. split_and!; try done. by apply by_operator. }
  destruct (req_OperatorApproved req) eqn:Eo.
  { eapply yields_bind; [apply operatorDecision_spec|]. intros base Hb.
    eapply yields_mono; [apply awaitVerification_spec|]. intros d Hd Hx.
    apply Hd in Hx as [Hx _]. exists rt, c. split_and!; try done.
    apply by_operator; auto. by left. }
  destruct (observeOnly rt) eqn:Eob; [by apply yields_ret|].
  destruct (trust_known _) eqn:Et; simpl; [|by apply yields_ret].
  eapply yields_mono; [by apply selfInitiated_spec|]. intros d Hd Hx.
  apply Hd in Hx as (doc & ? & ? & ? & ? & ?). exists rt, c. split_and!; try done.
  by eapply by_self.
Qed.

(** Everything an execute verdict of one evaluation rests on. *)
Lemma evaluate_authorized :
  yields (evaluate config ctx req) (fun d => executes d -> authorized).
Proof.
  unfold evaluate. apply yields_bind_returns. intros [rt|e] Hrt; [|by apply yields_ret].
  destruct (hardStop rt req) as [d|] eqn:Es; [|by apply judge_authorized; auto].
  destruct (IsNarrowing req) eqn:En; [by apply judge_authorized; auto|].
  apply yields_ret. apply hardStop_not_execute in Es. unfold executes. congruence.
Qed.

(** A failed record is never an execute. *)
Lemma record_execute d :
  yields (record config ctx req d) (fun '(d', err) =>
    executes d' -> err = None /\ executes d).
Proof.
  unfold record, executes.
  repeat (yields_step; simpl; rewrite ?decisionForRequest_verdict); done.
Qed.

Lemma finish_execute d :
  yields (finish config ctx req d) (fun d' => executes d' -> executes d).
Proof.
  unfold finish. eapply yields_bind; [apply record_execute|]. intros [d' err] Hd.
  apply yields_ret. tauto.
Qed.
End Spec.

(** ** Authorize *)

Section Authorize.
Context `{GoEnv} {W : Type} (config : GateConfig W).

(** The request as [Authorize] evaluates it. *)
Definition gate_request (ctx : Ctx) (req : ActionRequest) : ActionRequest :=
  withContextPrincipal ctx (set_ExplainFamily false req).

(** The contexts an evaluation can run in: the caller's, or the one of the
    budget lock. *)
Definition section_of (ctx : Ctx) (req : ActionRequest) (ctx' : Ctx) : Prop :=
  ctx' = ctx \/ exists Serialize done_, gc_Serialize config = Some Serialize /\
    returns (Serialize ctx req) (Ok (ctx', done_)).

Lemma Authorize_authorized ctx req :
  yields (Authorize config ctx req) (fun d => executes d ->
    exists ctx', section_of ctx (gate_request ctx req) ctx' /\
      authorized config ctx' (gate_request ctx req)).
Proof.
  unfold Authorize. fold (gate_request ctx req). cbv zeta. set (r := gate_request ctx req).
  assert (Hplain : yields (bind (evaluate config ctx r) (finish config ctx r)) (fun d =>
    executes d -> exists ctx', section_of ctx r ctx' /\ authorized config ctx' r)).
  { eapply yields_bind; [apply evaluate_authorized|]. intros d Hd.
    eapply yields_mono; [apply finish_execute|]. intros d' Hd' Hx. exists ctx.
    split; [by left|auto]. }
  destruct (_ || _); [exact Hplain|].
  destruct (gc_Serialize config) as [Serialize|] eqn:Es; [|exact Hplain].
  unfold authorizeSerialized. apply yields_bind_returns. intros [[ctx' done_]|e] Hl.
  2: { eapply yields_mono; [apply finish_execute|]. unfold executes. by intros d Hd Hx%Hd. }
  eapply yields_bind; [apply evaluate_authorized|]. intros d Hd.
  eapply yields_bind; [apply record_execute|]. intros [d' [e|]] Hr.
  - yields_step. yields_step; apply yields_ret; unfold executes; simpl; intros Hx;
      by destruct (Hr Hx).
  - yields_step. yields_step; apply yields_ret; unfold executes;
      rewrite ?decisionForRequest_verdict; [|done].
    intros Hx. exists ctx'. split; [right; by exists Serialize, done_|]. apply Hd, Hr, Hx.
Qed.

Lemma gate_request_contract ctx req :
  req_Contract (gate_request ctx req) = req_Contract req.
Proof. unfold gate_request, withContextPrincipal. simpl. by repeat case_goal. Qed.

Lemma gate_request_approved ctx req :
  req_OperatorApproved (gate_request ctx req) = req_OperatorApproved req.
Proof. unfold gate_request, withContextPrincipal. simpl. by repeat case_goal. Qed.

Lemma gate_request_principal ctx req p :
  req_Principal req = Some p \/ ctx_Principal ctx = Some p ->
  exists p', req_Principal (gate_request ctx req) = Some p'.
Proof.
  unfold gate_request, withContextPrincipal, PrincipalRefFromContext. simpl.
  destruct (req_Principal req) as [p'|] eqn:E; [eauto|].
  intros [? | ->]; [done|]. simpl. eauto.
Qed.

Lemma gate_request_feature ctx req : req_Feature (gate_request ctx req) = req_Feature req.
Proof. unfold gate_request, withContextPrincipal. simpl. by repeat case_goal. Qed.

Lemma gate_request_deadline ctx req : req_Deadline (gate_request ctx req) = req_Deadline req.
Proof. unfold gate_request, withContextPrincipal. simpl. by repeat case_goal. Qed.

Lemma hardStop_gate_request rt ctx req :
  hardStop rt (gate_request ctx req) = hardStop rt req.
Proof. unfold hardStop, requestIsReadOnly. by rewrite gate_request_contract. Qed.

End Authorize.

(** * The properties *)

(** C1: whenever Authorize answers execute, the request was authorized: its
    contract is typed and known, its SQL was validated (or it is a typed internal
    action), its provider supports it, no fact binds it, and either the contract
    only narrows access, or a person approved it under the operator ceiling, the
    change-class allowlist and the windows with no hard stop, or it is pg_sage's
    own change and tier, ramp, document, budget, refusal set, window, earned
    autonomy and pending verifications all allow it. *)
Theorem execute_is_authorized `{GoEnv} {W} (config : GateConfig W) ctx req d :
  returns (Authorize config ctx req) d -> dec_Verdict d = VerdictExecute ->
  exists ctx', section_of config ctx (gate_request ctx req) ctx' /\
    authorized config ctx' (gate_request ctx req).
Proof. intros Hd. by apply (yields_returns _ _ _ (Authorize_authorized config ctx req) Hd). Qed.

Lemma execute_is_authorized_witness :
  exists d, returns (Authorize (sample_gate autonomous sample_document) sample_ctx index_request) d
    /\ dec_Verdict d = VerdictExecute /\
    exists ctx', authorized (sample_gate autonomous sample_document) ctx'
      (gate_request sample_ctx index_request).
Proof.
  set (m := Authorize (sample_gate autonomous sample_document) sample_ctx index_request).
  assert (Hd : returns m (value_at m tt)) by by exists tt.
  assert (Hx : dec_Verdict (value_at m tt) = VerdictExecute) by by vm_compute.
  exists (value_at m tt). split; [exact Hd|]. split; [exact Hx|].
  destruct (execute_is_authorized _ _ _ _ Hd Hx) as (ctx' & _ & Ha). by exists ctx'.
Defined.

(** C5: while every runtime state the gate reads is a hard stop for the request
    (executor disabled, emergency stop, or a mutation on a replica), nothing but
    a narrowing contract executes, whatever the other readers, the ledger, the
    agent decider or an approval say. *)
Theorem stopped_gate_executes_nothing `{GoEnv} {W} (config : GateConfig W) ctx req d :
  (forall ctx' rt, returns (runtime config ctx' (gate_request ctx req)) (Ok rt) ->
     hardStop rt req <> None) ->
  IsNarrowing req = false -> returns (Authorize config ctx req) d ->
  dec_Verdict d <> VerdictExecute.
Proof.
  intros Hstop Hn Hd Hx.
  destruct (yields_returns _ _ _ (Authorize_authorized config ctx req) Hd Hx)
    as (ctx' & _ & rt & c & Hrt & Hck & Hauth).
  assert (Hh : hardStop rt (gate_request ctx req) <> None)
    by (rewrite hardStop_gate_request; by apply (Hstop ctx')).
  destruct Hauth as [Hnarrow| |]; try done. destruct Hck as [Hc _].
  rewrite gate_request_contract in Hc. unfold IsNarrowing in Hn. rewrite Hc in Hn. congruence.
Qed.

Lemma stopped_gate_executes_nothing_witness :
  let config := sample_gate stopped_runtime sample_document in
  returns (Authorize config sample_ctx (approved_request None))
    (value_at (Authorize config sample_ctx (approved_request None)) tt) /\
  dec_Verdict (value_at (Authorize config sample_ctx (approved_request None)) tt)
    <> VerdictExecute.
Proof.
  intros config. assert (Hd : returns (Authorize config sample_ctx (approved_request None))
    (value_at (Authorize config sample_ctx (approved_request None)) tt)) by by exists tt.
  split; [exact Hd|]. refine (stopped_gate_executes_nothing _ _ _ _ _ _ Hd); [|done].
  intros ctx' rt Hrt. apply returns_ret in Hrt as [= ->]. by vm_compute.
Defined.

(** C6: an agent never executes on its own authority: a request bound to an
    agent, by the caller or by the context, executes only if its contract only
    narrows access or a person approved it; the decider can block or cap it but
    no level it answers makes it execute. *)
Theorem agents_never_self_execute `{GoEnv} {W} (config : GateConfig W) ctx req p d :
  req_Principal req = Some p \/ ctx_Principal ctx = Some p ->
  returns (Authorize config ctx req) d -> dec_Verdict d = VerdictExecute ->
  IsNarrowing req = true \/ req_OperatorApproved req = true.
Proof.
  intros Hp Hd Hx. apply gate_request_principal in Hp as [p' Hp'].
  destruct (yields_returns _ _ _ (Authorize_authorized config ctx req) Hd Hx)
    as (ctx' & _ & rt & c & _ & [Hc _] & Hauth).
  rewrite gate_request_contract in Hc.
  destruct Hauth as [Hn|? Ho _|]; [left; unfold IsNarrowing; by rewrite Hc| |congruence].
  rewrite gate_request_approved in Ho. by right.
Qed.

Lemma agents_never_self_execute_witness :
  let config := sample_gate autonomous sample_document in
  let req := approved_request (Some sample_agent) in
  exists d, returns (Authorize config sample_ctx req) d /\ dec_Verdict d = VerdictExecute /\
    (IsNarrowing req = true \/ req_OperatorApproved req = true).
Proof.
  intros config req. assert (Hd : returns (Authorize config sample_ctx req)
    (value_at (Authorize config sample_ctx req) tt)) by by exists tt.
  assert (Hx : dec_Verdict (value_at (Authorize config sample_ctx req) tt) = VerdictExecute)
    by by vm_compute.
  eexists. split; [exact Hd|]. split; [exact Hx|].
  exact (agents_never_self_execute config sample_ctx req sample_agent _ (or_introl eq_refl) Hd Hx).
Defined.

(** unattended changes stay small: without an approval, what executes is
    read-only, safe or moderate, never high or of an unknown tier; unless it is
    read-only its contract has no guardrail and it never cancels or terminates
    a session, and the standing document allows its change class without
    approval. *)
Theorem unattended_scope `{GoEnv} {W} (config : GateConfig W) ctx req c d :
  req_Contract req = Some c -> ac_Narrowing c = false -> req_OperatorApproved req = false ->
  returns (Authorize config ctx req) d -> dec_Verdict d = VerdictExecute ->
  ac_RiskTier c ∈ [RiskReadOnly; RiskSafe; RiskModerate] /\
  (ac_RiskTier c <> RiskReadOnly ->
     ac_Guardrails c = [] /\ isBackendSignal (ac_ActionType c) = false /\
     exists ctx' doc, returns (policy config ctx' (gate_request ctx req)) (Ok doc) /\
       req_Feature req ∈ doc_AllowedChangeClasses doc /\
       ~ (req_Feature req ∈ doc_ApprovalRequiredClasses doc)).
Proof.
  intros Hc Hn Ho Hd Hx.
  destruct (yields_returns _ _ _ (Authorize_authorized config ctx req) Hd Hx)
    as (ctx' & _ & rt & c' & _ & (Hc' & _ & Hg & _) & Hauth).
  rewrite gate_request_contract, Hc in Hc'. injection Hc' as <-.
  destruct Hauth as [?|? Ho' _|doc ? ? ? Hdoc [_ Hda] [(_ & _ & _ & Htier) _] _ _];
    [congruence|rewrite gate_request_approved in Ho'; congruence|].
  split.
  - rewrite !elem_of_cons. unfold read_only in Htier. naive_solver.
  - intros Hro. destruct Hda as [?|(Ha & Hq & Hguard & Hs & _)]; [done|]. split_and!; [|done|].
    + destruct (ac_Guardrails c) as [|g gs]; [done|]. apply Forall_cons in Hg as [-> _].
      destruct Hguard. apply elem_of_cons. by left.
    + exists ctx', doc. rewrite gate_request_feature in Ha, Hq. auto.
Qed.

Lemma unattended_scope_witness :
  let config := sample_gate autonomous sample_document in
  exists d, returns (Authorize config sample_ctx index_request) d /\
    dec_Verdict d = VerdictExecute /\
    ac_RiskTier index_contract ∈ [RiskReadOnly; RiskSafe; RiskModerate].
Proof.
  intros config. assert (Hd : returns (Authorize config sample_ctx index_request)
    (value_at (Authorize config sample_ctx index_request) tt)) by by exists tt.
  assert (Hx : dec_Verdict (value_at (Authorize config sample_ctx index_request) tt)
    = VerdictExecute) by by vm_compute.
  eexists. split; [exact Hd|]. split; [exact Hx|].
  exact (proj1 (unattended_scope config sample_ctx index_request index_contract _ eq_refl eq_refl eq_refl Hd Hx)).
Defined.

(** What cannot be undone is never autonomous: a change the earned ledger
    governs (an incident family's, or one a scoped limiter names) executes
    without an approval only if its rollback class is reversible or needs no
    rollback and the ledger answered L3, or a critical deadline of a kind the
    document overrides is still ahead; a ledger that answers any level cannot
    change that. *)
Theorem irreversible_never_autonomous `{GoEnv} {W} (config : GateConfig W) ctx req c d :
  req_Contract req = Some c -> ac_Narrowing c = false ->
  governedByAutonomy config (gate_request ctx req) = true ->
  returns (Authorize config ctx req) d -> dec_Verdict d = VerdictExecute ->
  (ac_RollbackClass c ∈ [RollbackReversible; RollbackNoRollbackNeeded] /\
   exists ctx' l, saw_limit config ctx' (gate_request ctx req) l /\
     autonomyExecuteLevel <= al_Level l /\ al_Downgraded l = false) \/
  (exists dl t, req_Deadline req = Some dl /\ dl_Urgency dl = UrgencyCritical /\
     saw_time config t /\ t < dl_HardAt dl /\ dl_Kind dl ∈ [DeadlineXID; DeadlineDisk]).
Proof.
  intros Hc Hn Hgov Hd Hx.
  destruct (yields_returns _ _ _ (Authorize_authorized config ctx req) Hd Hx)
    as (ctx' & _ & rt & c' & _ & (Hc' & _) & Hauth).
  rewrite gate_request_contract, Hc in Hc'. injection Hc' as <-.
  destruct Hauth as [?|_ Ho' _|doc _ _ _ _ _ _ Hled _]; [congruence| |].
  { unfold governedByAutonomy in Hgov. rewrite Ho' in Hgov.
    destruct (gc_Autonomy config), (req_Contract (gate_request ctx req)); done. }
  destruct Hled as [?|[(t & Ht & Hm)|(l & t & Hl & Ht & Hlev & _)]]; [congruence|right|left].
  - unfold mandatoryDeadline, validDeadlineOverride, time_After in Hm.
    rewrite gate_request_deadline in Hm.
    destruct (req_Deadline req) as [dl|]; [|done]. exists dl, t.
    repeat case_hyp Hm; try (by rewrite andb_false_r in Hm); reflect_all.
    rewrite !elem_of_cons. destruct Hm as [? _]. naive_solver.
  - apply effectiveAutonomyLevel_execute in Hlev as (? & ? & ?). split; [|by exists ctx', l].
    by rewrite !elem_of_cons, elem_of_nil; naive_solver.
Qed.

Lemma irreversible_never_autonomous_witness :
  let config := with_autonomy sample_limiter (sample_gate autonomous sample_document) in
  exists d, returns (Authorize config sample_ctx incident_request) d /\
    dec_Verdict d = VerdictExecute /\ dec_Reason d = ReasonAutonomyL3 /\
    (RollbackReversible ∈ [RollbackReversible; RollbackNoRollbackNeeded] \/ False).
Proof.
  intros config. assert (Hd : returns (Authorize config sample_ctx incident_request)
    (value_at (Authorize config sample_ctx incident_request) tt)) by by exists tt.
  assert (Hx : dec_Verdict (value_at (Authorize config sample_ctx incident_request) tt)
    = VerdictExecute) by by vm_compute.
  eexists. split; [exact Hd|]. split; [exact Hx|]. split; [by vm_compute|].
  destruct (irreversible_never_autonomous config sample_ctx incident_request index_contract _
    eq_refl eq_refl eq_refl Hd Hx) as [[Hr _]|(dl & t & Hdl & _)]; [left; exact Hr|done].
Defined.
