(* ===== verification/GateEffects.v ===== *)
(** * Recording, explaining and restricting

    What the gate writes and when, how [Explain] relates to [Authorize], and
    that the ledger, the pending verifications and the ramp only hold back. *)

From S2P Require Import Prelude.
From S2P Require Import GoStd.
From S2P Require Import PolicyTypes.
From S2P Require Import Window.
From S2P Require Import Budget.
From S2P Require Import Refusal.
From S2P Require Import Document.
From S2P Require Import Gate.
From S2P Require Import Samples.
From S2P Require Import GateSafety.

(** How much a verdict lets happen: run, ask a person, or nothing. *)
Definition rank (v : Verdict) : Z :=
  match v with VerdictExecute => 2 | VerdictQueueApproval => 1 | _ => 0 end.

(** [d] is no more than [base], and is [base] itself when that lets nothing
    happen. *)
Definition restricts (base d : Decision) : Prop :=
  rank (dec_Verdict d) <= rank (dec_Verdict base) /\
  (rank (dec_Verdict base) = 0 -> d = base).

Lemma restricts_refl d : restricts d d.
Proof. by split. Qed.

Lemma rank_nonneg v : 0 <= rank v <= 2.
Proof. destruct v; simpl; lia. Qed.

Lemma restricts_queue_or_less base d :
  dec_Verdict base = VerdictExecute \/ dec_Verdict base = VerdictQueueApproval ->
  rank (dec_Verdict d) <= 1 -> restricts base d.
Proof. unfold restricts. by intros [-> | ->]; simpl; split; lia. Qed.

Lemma not_execute_queue v :
  negb (verdict_eqb v VerdictExecute) && negb (verdict_eqb v VerdictQueueApproval) = false ->
  v = VerdictExecute \/ v = VerdictQueueApproval.
Proof.
  rewrite andb_false_iff, !negb_false_iff. unfold verdict_eqb. rewrite !bool_decide_eq_true. done.
Qed.

#[export] Hint Resolve restricts_refl restricts_queue_or_less : sage.

Section Restriction.
Context `{GoEnv} {W : Type} (config : GateConfig W) (ctx : Ctx) (req : ActionRequest).

Lemma restrictAutonomy_restricts doc rt c base :
  yields (restrictAutonomy config ctx doc rt c req base) (restricts base).
Proof.
  unfold restrictAutonomy. destruct (gc_Autonomy config) as [limiter|];
    [|apply yields_ret, restricts_refl].
  destruct (negb (governedByAutonomy config req)); simpl; [apply yields_ret, restricts_refl|].
  destruct (_ && _) eqn:Eb; [apply yields_ret, restricts_refl|].
  apply not_execute_queue in Eb. apply yields_bind_any. intros t.
  destruct (mandatoryDeadline _ _ _).
  { unfold passMandatoryDeadline. repeat yields_step; apply restricts_refl. }
  apply yields_bind_any. intros [l|e].
  2: { apply yields_ret, restricts_queue_or_less; [done|]. by rewrite decisionForRequest_verdict. }
  apply yields_bind_any. intros trusted.
  assert (Hv : forall v r n, rank v <= 1 ->
    restricts base (withTrusted (restricted req v r n) trusted)).
  { intros v r n Hr. apply restricts_queue_or_less; [done|].
    by rewrite withTrusted_verdict, restricted_verdict. }
  destruct (_ && al_Downgraded l); [by apply yields_ret, Hv|].
  destruct (_ <? _); [by apply yields_ret, Hv|].
  destruct (_ || _); [by apply yields_ret, Hv|].
  apply yields_bind_any. intros t'. destruct (_ <>s ""); apply yields_ret.
  - apply restricts_queue_or_less; [done|]. by rewrite restricted_verdict.
  - split; [done|]. simpl. by destruct Eb as [-> | ->].
Qed.

Lemma awaitVerification_restricts base :
  yields (awaitVerification config ctx req base) (restricts base).
Proof.
  unfold awaitVerification. destruct (gc_Verification config); [|apply yields_ret, restricts_refl].
  apply yields_bind_any. intros t. destruct (waitApplies _ _ _) eqn:Ew; simpl;
    [|apply yields_ret, restricts_refl].
  assert (Hb : dec_Verdict base = VerdictExecute \/ dec_Verdict base = VerdictQueueApproval).
  { unfold waitApplies in Ew. destruct (req_Contract req); [|done].
    destruct (_ || _) in Ew; [done|]. destruct (_ && _) eqn:Eb in Ew; [done|].
    by apply not_execute_queue. }
  assert (Hsame : forall d, dec_Verdict d = dec_Verdict base -> restricts base d).
  { intros d Hd. unfold restricts. rewrite Hd. split; [done|].
    by destruct Hb as [-> | ->]. }
  apply yields_bind_any. intros [p|e].
  2: { destruct (req_OperatorApproved req); apply yields_ret; [by apply Hsame|].
       apply restricts_queue_or_less; [done|]. by rewrite decisionForRequest_verdict. }
  apply yields_bind_any. intros t'. apply yields_ret. unfold applyWait.
  generalize (splitWaits p t'). intros wait. destruct (vw_Pending wait), (vw_Released wait); try (by apply Hsame);
    destruct (req_OperatorApproved req); try (by apply Hsame);
    destruct (verdict_eqb _ _); try (by apply Hsame);
    apply restricts_queue_or_less; try done; simpl; by rewrite decisionForRequest_verdict.
Qed.
End Restriction.

(** ** Explaining *)

Section Explaining.
Context `{GoEnv} {W : Type} (config : GateConfig W).

Lemma record_idem ctx req d w :
  record config ctx req (decisionForRequest req d) w = record config ctx req d w.
Proof. unfold record. by rewrite decisionForRequest_idem. Qed.

Lemma finish_idem ctx req d w :
  finish config ctx req (decisionForRequest req d) w = finish config ctx req d w.
Proof. unfold finish, bind. by rewrite record_idem. Qed.

(** A recorded execute is the decision given to the recorder, with the ids it
    returned. *)
Lemma record_recorded recorder ctx req d w d' err w' :
  gc_RecordDecisionDetailed config = Some recorder ->
  does (record config ctx req d) w (d', err) w' -> dec_Verdict d' = VerdictExecute ->
  err = None /\ exists evidence id,
    does (recorder ctx req (decisionForRequest req d)) w (Ok (evidence, id)) w' /\
    dec_Verdict d = VerdictExecute /\
    d' = set_record_ids evidence id (decisionForRequest req d).
Proof.
  intros Hrec Hr Hx. unfold record in Hr. rewrite Hrec in Hr.
  apply does_bind in Hr as ([[ev id]|e] & w3 & Hw & Hret);
    apply does_ret in Hret as [[= -> ->] ->]; [|done].
  simpl in Hx. rewrite decisionForRequest_verdict in Hx. split; [done|]. eauto 6.
Qed.

Lemma finish_recorded recorder ctx req d w d' w' :
  gc_RecordDecisionDetailed config = Some recorder ->
  does (finish config ctx req d) w d' w' -> dec_Verdict d' = VerdictExecute ->
  exists evidence id d0, does (recorder ctx req d0) w (Ok (evidence, id)) w' /\
    dec_Verdict d0 = VerdictExecute /\ d' = set_record_ids evidence id d0 /\
    d0 = decisionForRequest req d.
Proof.
  intros Hrec Hf Hx. unfold finish in Hf. apply does_bind in Hf as ([d2 err] & w2 & Hr & Hret).
  apply does_ret in Hret as [-> ->].
  destruct (record_recorded _ _ _ _ _ _ _ _ Hrec Hr Hx) as (_ & ev & id & Hw & Hd & ->).
  exists ev, id, (decisionForRequest req d). by rewrite decisionForRequest_verdict.
Qed.

Lemma plain_recorded recorder ctx req w d w' :
  gc_RecordDecisionDetailed config = Some recorder ->
  does (bind (evaluate config ctx req) (finish config ctx req)) w d w' ->
  dec_Verdict d = VerdictExecute ->
  exists evidence id d0 w1, does (recorder ctx req d0) w1 (Ok (evidence, id)) w' /\
    dec_Verdict d0 = VerdictExecute /\ d = set_record_ids evidence id d0.
Proof.
  intros Hrec Hp Hx. apply does_bind in Hp as (d1 & w1 & _ & Hf).
  destruct (finish_recorded _ _ _ _ _ _ _ Hrec Hf Hx) as (ev & id & d0 & ? & ? & ? & _).
  by exists ev, id, d0, w1.
Qed.
End Explaining.

(** ** The ramp *)

Lemma rampAge_floor configured spec rollback :
  MinRampAge <= spec ->
  MinRampAge <= rampAge configured spec rollback /\
  (reversibilityCap rollback < autonomyExecuteLevel -> spec <= rampAge configured spec rollback) /\
  (configured <= 0 -> rampAge configured spec rollback = spec) /\
  (0 < configured -> configured <= rampAge configured spec rollback).
Proof.
  intros Hs. unfold rampAge.
  destruct (Z.leb_spec configured 0); [|destruct (Z.ltb_spec (reversibilityCap rollback)
    autonomyExecuteLevel)]; lia.
Qed.

Lemma rampSatisfied_elapsed rt minimum t :
  rampSatisfied rt minimum t false = true -> 0 <= minimum <= max_int64 ->
  rt_RampStart rt <> 0 /\ rt_RampStart rt + minimum <= t.
Proof.
  unfold rampSatisfied, time_IsZero, time_Sub, max_int64, min_int64. intros Hr Hm. reflect_all. lia.
Qed.

(** ** The properties *)

(** The earned ledger and the pending verifications only hold back: from any
    verdict the ledger's answer gives one that lets no more happen, and leaves
    blocked, parked and observe-only decisions exactly as they are; so does the
    wait for verification. *)
Theorem ledger_and_wait_only_restrict `{GoEnv} {W} (config : GateConfig W) ctx req c doc rt base d :
  returns (restrictAutonomy config ctx doc rt c req base) d \/
  returns (awaitVerification config ctx req base) d ->
  rank (dec_Verdict d) <= rank (dec_Verdict base) /\
  (rank (dec_Verdict base) = 0 -> d = base).
Proof.
  intros [Hd|Hd].
  - by apply (yields_returns _ _ _ (restrictAutonomy_restricts config ctx req doc rt c base) Hd).
  - by apply (yields_returns _ _ _ (awaitVerification_restricts config ctx req base) Hd).
Qed.

Lemma ledger_and_wait_only_restrict_witness :
  let config := with_autonomy sample_limiter (sample_gate autonomous sample_document) in
  let base := mk_decision VerdictPark ReasonBudgetExceeded "" in
  let m := restrictAutonomy config sample_ctx sample_document autonomous index_contract
             incident_request base in
  returns m base /\ rank (dec_Verdict base) <= rank VerdictPark.
Proof.
  intros config base m. assert (Hd : returns m base) by by exists tt.
  split; [exact Hd|].
  exact (proj1 (ledger_and_wait_only_restrict config sample_ctx incident_request index_contract
    sample_document autonomous base base (or_introl Hd))).
Defined.

(** Nothing runs unrecorded: with a recorder configured, an execute answer
    carries the evidence and decision id the recorder returned for exactly this
    decision, and the record is the last effect of the call; inside the budget
    lock it is followed only by the commit, which succeeded. *)
Theorem execute_is_recorded `{GoEnv} {W} (config : GateConfig W) recorder ctx req w d w' :
  gc_RecordDecisionDetailed config = Some recorder ->
  does (Authorize config ctx req) w d w' -> dec_Verdict d = VerdictExecute ->
  exists ctx' d0 evidence id w1 w2,
    does (recorder ctx' (gate_request ctx req) d0) w1 (Ok (evidence, id)) w2 /\
    dec_Verdict d0 = VerdictExecute /\ d = set_record_ids evidence id d0 /\
    (w2 = w' \/ exists Serialize done_ w0 w0', gc_Serialize config = Some Serialize /\
       does (Serialize ctx (gate_request ctx req)) w0 (Ok (ctx', done_)) w0' /\
       does (done_ true) w2 (Ok tt) w').
Proof.
  intros Hrec Hd Hx. unfold Authorize in Hd. fold (gate_request ctx req) in Hd. cbv zeta in Hd.
  set (r := gate_request ctx req) in *.
  destruct (_ || _); [|destruct (gc_Serialize config) as [Serialize|] eqn:Es].
  - destruct (plain_recorded _ _ _ _ _ _ _ Hrec Hd Hx) as (ev & id & d0 & w1 & ? & ? & ?).
    exists ctx, d0, ev, id, w1, w'. auto.
  - unfold authorizeSerialized in Hd.
    apply does_bind in Hd as ([[ctx' done_]|e] & w1 & Hl & Hd).
    2: { apply (finish_recorded _ _ _ _ _ _ _ _ Hrec) in Hd as (? & ? & ? & _ & Hd0 & _ & ->); [|done].
         by rewrite decisionForRequest_verdict in Hd0. }
    apply does_bind in Hd as (d1 & w2 & _ & Hd).
    apply does_bind in Hd as ([d2 [e|]] & w3 & Hr & Hd).
    + apply does_bind in Hd as ([u|e'] & w4 & _ & Hret); apply does_ret in Hret as [-> ->];
        simpl in Hx; by destruct (record_recorded _ _ _ _ _ _ _ _ _ Hrec Hr Hx).
    + apply does_bind in Hd as ([[]|e'] & w4 & Hc & Hret); apply does_ret in Hret as [-> ->];
        [|by rewrite decisionForRequest_verdict in Hx].
      destruct (record_recorded _ _ _ _ _ _ _ _ _ Hrec Hr Hx) as (_ & ev & id & Hw & Hd1 & ->).
      exists ctx', (decisionForRequest r d1), ev, id, w2, w3.
      rewrite decisionForRequest_verdict. split_and!; try done. right.
      exists Serialize, done_, w, w1. done.
  - destruct (plain_recorded _ _ _ _ _ _ _ Hrec Hd Hx) as (ev & id & d0 & w1 & ? & ? & ?).
    exists ctx, d0, ev, id, w1, w'. auto.
Qed.

Lemma execute_is_recorded_witness :
  let config := sample_gate autonomous sample_document in
  exists d, does (Authorize config sample_ctx index_request) tt d tt /\
    exists evidence id d0, d = set_record_ids evidence id d0.
Proof.
  intros config. exists (value_at (Authorize config sample_ctx index_request) tt).
  assert (Hd : does (Authorize config sample_ctx index_request) tt
    (value_at (Authorize config sample_ctx index_request) tt) tt).
  { unfold does, value_at. by destruct (Authorize config sample_ctx index_request tt) as [? []]. }
  split; [exact Hd|].
  destruct (execute_is_recorded config _ sample_ctx index_request tt _ tt eq_refl Hd
    ltac:(by vm_compute)) as (ctx' & d0 & ev & id & w1 & w2 & _ & _ & Heq & _).
  by exists ev, id, d0.
Defined.

(** Explain is Authorize without the record: outside the budget lock,
    authorizing is explaining the same request (with its SQL validated) and then
    recording that decision, from every world and with the same effects. *)
Theorem authorize_is_explain_recorded `{GoEnv} {W} (config : GateConfig W) ctx req w :
  gc_Serialize config = None ->
  Authorize config ctx req w =
  bind (Explain config ctx (set_ExplainFamily false req))
    (finish config ctx (gate_request ctx req)) w.
Proof.
  intros Hs. unfold Authorize, Explain. fold (gate_request ctx req). cbv zeta.
  rewrite Hs. set (r := gate_request ctx req).
  assert (Hb : bind (evaluate config ctx r) (finish config ctx r) w =
    bind (bind (evaluate config ctx r) (fun d => ret (decisionForRequest r d)))
      (finish config ctx r) w).
  { unfold bind, ret. destruct (evaluate config ctx r w) as [d w']. by rewrite finish_idem. }
  destruct (_ || _); exact Hb.
Qed.

Lemma authorize_is_explain_recorded_witness :
  let config := sample_gate autonomous sample_document in
  Authorize config sample_ctx index_request tt =
  bind (Explain config sample_ctx (set_ExplainFamily false index_request))
    (finish config sample_ctx (gate_request sample_ctx index_request)) tt.
Proof. intros config. by apply authorize_is_explain_recorded. Defined.

(** the trust ramp is a floor: a safe or moderate change pg_sage initiates
    itself, that the ledger does not govern, executes only after the ramp start
    is set and at least an hour old; and at least the full spec ramp (8 or 31
    days) old when the change cannot be rolled back, however short a ramp is
    configured. *)
Theorem ramp_is_a_floor `{GoEnv} {W} (config : GateConfig W) ctx req c d :
  req_Contract req = Some c -> ac_Narrowing c = false -> req_OperatorApproved req = false ->
  ac_RiskTier c <> RiskReadOnly -> selfGoverned config (gate_request ctx req) = false ->
  (forall ctx' rt, saw_runtime config ctx' (gate_request ctx req) rt ->
     rt_SafeRampAge rt <= max_int64 /\ rt_ModerateRampAge rt <= max_int64) ->
  returns (Authorize config ctx req) d -> dec_Verdict d = VerdictExecute ->
  exists ctx' rt t, saw_runtime config ctx' (gate_request ctx req) rt /\ saw_time config t /\
    rt_RampStart rt <> 0 /\ rt_RampStart rt + Hour <= t /\
    (reversibilityCap (ac_RollbackClass c) < autonomyExecuteLevel ->
     rt_RampStart rt + (if ac_RiskTier c =s RiskSafe then SpecSafeRampAge
                        else SpecModerateRampAge) <= t).
Proof.
  intros Hc Hn Ho Hro Hself Hw Hd Hx.
  destruct (yields_returns _ _ _ (Authorize_authorized config ctx req) Hd Hx)
    as (ctx' & _ & rt & c' & Hrt & (Hc' & _) & Hauth).
  rewrite gate_request_contract, Hc in Hc'. injection Hc' as <-.
  destruct Hauth as [?|? Ho' _|doc ? ? ? ? _ [(_ & _ & _ & Htier) _] _ _];
    [congruence|rewrite gate_request_approved in Ho'; congruence|].
  destruct Htier as [?|(t & Ht & Htier)]; [done|]. exists ctx', rt, t. do 2 (split; [done|]).
  destruct (Hw ctx' rt Hrt) as [Hsafe Hmod].
  assert (Hage : forall configured spec, configured <= max_int64 -> MinRampAge <= spec <= max_int64 ->
    rampSatisfied rt (rampAge configured spec (ac_RollbackClass c)) t false = true ->
    rt_RampStart rt <> 0 /\ rt_RampStart rt + Hour <= t /\
    (reversibilityCap (ac_RollbackClass c) < autonomyExecuteLevel -> rt_RampStart rt + spec <= t)).
  { intros configured spec Hcfg Hspec Hr.
    destruct (rampAge_floor configured spec (ac_RollbackClass c)) as (Hmin & Hsp & _ & _); [lia|].
    apply rampSatisfied_elapsed in Hr as [? ?].
    - split_and!; [done|unfold MinRampAge in Hmin; lia|]. intros Hcap. specialize (Hsp Hcap). lia.
    - unfold rampAge in *. unfold MinRampAge, Hour, Minute, Second in *.
      repeat case_goal; lia. }
  rewrite Hself in Htier. destruct Htier as [(Hr & _ & Hs)|(Hr & _ & _ & Hs)]; rewrite Hr.
  - apply (Hage _ _ Hsafe); [by vm_compute|done].
  - apply (Hage _ _ Hmod); [by vm_compute|done].
Qed.

Lemma ramp_is_a_floor_witness :
  let config := sample_gate autonomous sample_document in
  exists d, returns (Authorize config sample_ctx index_request) d /\
    dec_Verdict d = VerdictExecute /\
    exists ctx' rt, saw_runtime config ctx' (gate_request sample_ctx index_request) rt /\
      rt_RampStart rt <> 0.
Proof.
  intros config. assert (Hd : returns (Authorize config sample_ctx index_request)
    (value_at (Authorize config sample_ctx index_request) tt)) by by exists tt.
  assert (Hx : dec_Verdict (value_at (Authorize config sample_ctx index_request) tt)
    = VerdictExecute) by by vm_compute.
  eexists. split; [exact Hd|]. split; [exact Hx|].
  destruct (ramp_is_a_floor config sample_ctx index_request index_contract
    (value_at (Authorize config sample_ctx index_request) tt))
    as (ctx' & rt & t & Hrt & _ & Hr & _); try done; [|by exists ctx', rt].
  intros ctx' rt Hrt. apply returns_ret in Hrt as [= ->]. by vm_compute.
Defined.
