(* ===== verification/GateBatch.v ===== *)
(** * Explaining a batch

    internal/policy/gate_batch.go.  The batch's memoized readers keep their
    results beside the world; a simulation carries the whole evaluation from the
    memoized readers to the plain ones. *)

From S2P Require Import Prelude.
From S2P Require Import GoStd.
From S2P Require Import PolicyTypes.
From S2P Require Import Window.
From S2P Require Import Budget.
From S2P Require Import Refusal.
From S2P Require Import Document.
From S2P Require Import Gate.
From S2P Require Import Samples.

(** The variables the memoized readers capture. *)
Record Cache : Type := {
  cache_Runtime : option (result RuntimeState);
  cache_Policy : option (result Document);
  cache_Usage : gmap BudgetKind (result LimitUsage);
}.
Definition empty_cache : Cache :=
  {| cache_Runtime := None; cache_Policy := None; cache_Usage := ∅ |}.
Definition set_cache_Runtime (r : result RuntimeState) (c : Cache) : Cache :=
  {| cache_Runtime := Some r; cache_Policy := cache_Policy c; cache_Usage := cache_Usage c |}.
Definition set_cache_Policy (r : result Document) (c : Cache) : Cache :=
  {| cache_Runtime := cache_Runtime c; cache_Policy := Some r; cache_Usage := cache_Usage c |}.
Definition set_cache_Usage (kind : BudgetKind) (r : result LimitUsage) (c : Cache) : Cache :=
  {| cache_Runtime := cache_Runtime c; cache_Policy := cache_Policy c;
     cache_Usage := <[kind := r]> (cache_Usage c) |}.

(** A computation of the world beside the cache. *)
Definition lift {W A} (m : M W A) : M (W * Cache) A :=
  fun wc => let '(a, w') := m wc.1 in (a, (w', wc.2)).

Section Batch.
Context `{GoEnv} {W : Type} (config : GateConfig W).

Abbreviation reader T := (Ctx -> ActionRequest -> M W (result T)) (only parsing).

(** [memoize]: the cached result if there is one, else read and keep it. *)
Definition memoize {T} (cached : Cache -> option (result T))
    (keep : result T -> Cache -> Cache) (read : reader T)
    : Ctx -> ActionRequest -> M (W * Cache) (result T) :=
  fun ctx req wc =>
    match cached wc.2 with
    | Some r => (r, wc)
    | None => let '(r, w') := read ctx req wc.1 in (r, (w', keep r wc.2))
    end.

Definition memoizeUsageByKind (read : reader LimitUsage)
    : Ctx -> ActionRequest -> M (W * Cache) (result LimitUsage) :=
  fun ctx req =>
    let kind := BudgetKindFor req in
    memoize (fun c => cache_Usage c !! kind) (set_cache_Usage kind) read ctx req.

(** The collaborators that are not memoized act on the world alone. *)
Definition lift2 {T} (f : option (Ctx -> ActionRequest -> M W T))
    : option (Ctx -> ActionRequest -> M (W * Cache) T) :=
  (fun g ctx req => lift (g ctx req)) <$> f.

Definition lift_limiter (l : AutonomyLimiter W) : AutonomyLimiter (W * Cache) :=
  {| lim_Limit := fun ctx req => lift (lim_Limit l ctx req);
     lim_Governs := lim_Governs l;
     lim_RecordDeadlineOverride :=
       (fun g ctx req d => lift (g ctx req d)) <$> lim_RecordDeadlineOverride l |}.

(** [snapshot.config].  [Serialize] is not read when explaining. *)
Definition snapshot : GateConfig (W * Cache) :=
  {| gc_Runtime := memoize cache_Runtime set_cache_Runtime <$> gc_Runtime config;
     gc_ValidateSQL := gc_ValidateSQL config;
     gc_Policy := memoize cache_Policy set_cache_Policy <$> gc_Policy config;
     gc_Usage := memoizeUsageByKind <$> gc_Usage config;
     gc_WindowObserved := lift <$> gc_WindowObserved config;
     gc_RecordDecision := None; gc_RecordDecisionDetailed := None;
     gc_Now := lift <$> gc_Now config; gc_SystemNow := lift (gc_SystemNow config);
     gc_Autonomy := lift_limiter <$> gc_Autonomy config;
     gc_Serialize := None;
     gc_Facts := lift2 (gc_Facts config);
     gc_Verification := lift2 (gc_Verification config);
     gc_Agents := lift2 (gc_Agents config) |}.

Fixpoint each {W' A B} (f : A -> M W' B) (l : list A) : M W' (list B) :=
  match l with
  | [] => ret []
  | a :: l' => let! b := f a in let! bs := each f l' in ret (b :: bs)
  end.

(** The cache is the call's: it starts empty and is dropped at the end. *)
Definition ExplainBatch (ctx : Ctx) (requests : list ActionRequest) : M W (list Decision) :=
  fun w => let '(ds, (w', _)) := each (Explain snapshot ctx) requests (w, empty_cache) in
           (ds, w').
End Batch.

(** * Simulation *)

(** From related worlds, the same value and related worlds. *)
Definition sim {W1 W2 A} (R : W1 -> W2 -> Prop) (m1 : M W1 A) (m2 : M W2 A) : Prop :=
  forall w1 w2, R w1 w2 -> value_at m1 w1 = value_at m2 w2 /\ R (snd (m1 w1)) (snd (m2 w2)).

Section Simulation.
Context {W1 W2 : Type} (R : W1 -> W2 -> Prop).

Lemma sim_ret {A} (a : A) : sim R (ret a) (ret a).
Proof. by intros w1 w2 HR. Qed.

Lemma sim_bind {A B} (m1 : M W1 A) (m2 : M W2 A) (k1 : A -> M W1 B) (k2 : A -> M W2 B) :
  sim R m1 m2 -> (forall a, sim R (k1 a) (k2 a)) -> sim R (bind m1 k1) (bind m2 k2).
Proof.
  intros Hm Hk w1 w2 HR. specialize (Hm w1 w2 HR). unfold value_at, bind in *.
  destruct (m1 w1) as [a1 w1'], (m2 w2) as [a2 w2']. simpl in Hm. destruct Hm as [-> HR'].
  by apply Hk.
Qed.

(** Optional callbacks: both absent, or both present and simulating. *)
Definition sim_opt {T1 T2} (P : T1 -> T2 -> Prop) (o1 : option T1) (o2 : option T2) : Prop :=
  match o1, o2 with Some f1, Some f2 => P f1 f2 | None, None => True | _, _ => False end.

Definition sim2 {T} (ctx : Ctx) (f1 : Ctx -> ActionRequest -> M W1 T)
    (f2 : Ctx -> ActionRequest -> M W2 T) : Prop := forall req, sim R (f1 ctx req) (f2 ctx req).

Record sim_limiter (ctx : Ctx) (l1 : AutonomyLimiter W1) (l2 : AutonomyLimiter W2) : Prop := {
  sl_Limit : sim2 ctx (lim_Limit l1) (lim_Limit l2);
  sl_Governs : lim_Governs l1 = lim_Governs l2;
  sl_Record : sim_opt (fun f1 f2 => forall req d, sim R (f1 ctx req d) (f2 ctx req d))
    (lim_RecordDeadlineOverride l1) (lim_RecordDeadlineOverride l2);
}.

Record sim_config (ctx : Ctx) (c1 : GateConfig W1) (c2 : GateConfig W2) : Prop := {
  sc_Runtime : sim_opt (sim2 ctx) (gc_Runtime c1) (gc_Runtime c2);
  sc_ValidateSQL : gc_ValidateSQL c1 = gc_ValidateSQL c2;
  sc_Policy : sim_opt (sim2 ctx) (gc_Policy c1) (gc_Policy c2);
  sc_Usage : sim_opt (sim2 ctx) (gc_Usage c1) (gc_Usage c2);
  sc_WindowObserved : sim_opt (sim R) (gc_WindowObserved c1) (gc_WindowObserved c2);
  sc_Now : sim R (now c1) (now c2);
  sc_Autonomy : sim_opt (sim_limiter ctx) (gc_Autonomy c1) (gc_Autonomy c2);
  sc_Facts : sim_opt (sim2 ctx) (gc_Facts c1) (gc_Facts c2);
  sc_Verification : sim_opt (sim2 ctx) (gc_Verification c1) (gc_Verification c2);
  sc_Agents : sim_opt (sim2 ctx) (gc_Agents c1) (gc_Agents c2);
}.

Context `{GoEnv} (ctx : Ctx) (c1 : GateConfig W1) (c2 : GateConfig W2)
  (Hc : sim_config ctx c1 c2).

(** Walks two computations in step. *)
Ltac sim_step :=
  match goal with
  | |- sim _ (ret _) (ret _) => apply sim_ret
  | |- sim _ (bind _ _) (bind _ _) => apply sim_bind; [|intros ?]
  | |- sim _ (match ?x with _ => _ end) _ => destruct x eqn:?
  | |- sim _ (if ?x then _ else _) _ => destruct x eqn:?
  | |- sim _ (now _) (now _) => apply (sc_Now _ _ _ Hc)
  | |- forall _, _ => intros ?
  end.
Ltac callback H :=
  pose proof H as Hcb; unfold sim_opt, sim2 in Hcb; repeat case_hyp Hcb; try done;
  try apply sim_ret.

Lemma sim_runtime req : sim R (runtime c1 ctx req) (runtime c2 ctx req).
Proof. unfold runtime. callback (sc_Runtime _ _ _ Hc); auto. Qed.
Lemma sim_policy req : sim R (policy c1 ctx req) (policy c2 ctx req).
Proof. unfold policy. callback (sc_Policy _ _ _ Hc); auto. Qed.
Lemma sim_usage req : sim R (usage c1 ctx req) (usage c2 ctx req).
Proof. unfold usage. callback (sc_Usage _ _ _ Hc); auto. Qed.

Lemma sim_governed req : governedByAutonomy c1 req = governedByAutonomy c2 req.
Proof.
  unfold governedByAutonomy. callback (sc_Autonomy _ _ _ Hc).
  by rewrite (sl_Governs _ _ _ Hcb).
Qed.

Lemma sim_selfGoverned req : selfGoverned c1 req = selfGoverned c2 req.
Proof. unfold selfGoverned. by rewrite sim_governed. Qed.

Lemma sim_validateRequest req : validateRequest c1 req = validateRequest c2 req.
Proof. unfold validateRequest. by rewrite (sc_ValidateSQL _ _ _ Hc). Qed.

Hint Resolve sim_runtime sim_policy sim_usage : core.

Lemma sim_factDecision req : sim R (factDecision c1 ctx req) (factDecision c2 ctx req).
Proof.
  unfold factDecision. callback (sc_Facts _ _ _ Hc).
  repeat (sim_step; auto).
Qed.

Lemma sim_restrictAutonomy doc rt c req base :
  sim R (restrictAutonomy c1 ctx doc rt c req base) (restrictAutonomy c2 ctx doc rt c req base).
Proof.
  unfold restrictAutonomy, trustedVerdict. rewrite !sim_governed, !sim_selfGoverned.
  callback (sc_Autonomy _ _ _ Hc). destruct Hcb.
  unfold passMandatoryDeadline. callback sl_Record0; repeat (sim_step; auto).
Qed.

Lemma sim_windowDecision doc rt c req :
  sim R (windowDecision c1 doc rt c req) (windowDecision c2 doc rt c req).
Proof.
  unfold windowDecision. callback (sc_WindowObserved _ _ _ Hc); repeat (sim_step; auto).
Qed.

Lemma sim_documentDecision c req :
  sim R (documentDecision c1 ctx c req) (documentDecision c2 ctx c req).
Proof. unfold documentDecision. repeat (sim_step; auto). Qed.

Lemma sim_operatorDecision rt c req :
  sim R (operatorDecision c1 ctx rt c req) (operatorDecision c2 ctx rt c req).
Proof. unfold operatorDecision, operatorWindowDecision. repeat (sim_step; auto). Qed.

Lemma sim_awaitVerification req base :
  sim R (awaitVerification c1 ctx req base) (awaitVerification c2 ctx req base).
Proof.
  unfold awaitVerification. callback (sc_Verification _ _ _ Hc).
  repeat (sim_step; auto).
Qed.
Hint Resolve sim_factDecision sim_restrictAutonomy sim_windowDecision sim_documentDecision
  sim_operatorDecision sim_awaitVerification : core.

Lemma sim_selfInitiated rt c req :
  sim R (selfInitiated c1 ctx rt c req) (selfInitiated c2 ctx rt c req).
Proof.
  unfold selfInitiated, selfInitiatedDecision. rewrite !sim_selfGoverned.
  repeat (sim_step; auto).
Qed.

Lemma sim_agentDecision rt c req :
  sim R (agentDecision c1 ctx rt c req) (agentDecision c2 ctx rt c req).
Proof.
  unfold agentDecision, agentAtLevel, agentLevelDecision.
  callback (sc_Agents _ _ _ Hc); repeat (sim_step; auto).
Qed.
Hint Resolve sim_selfInitiated sim_agentDecision : core.

Lemma sim_evaluate req : sim R (evaluate c1 ctx req) (evaluate c2 ctx req).
Proof.
  unfold evaluate, judge. rewrite !sim_validateRequest. repeat (sim_step; auto).
Qed.

Lemma sim_Explain req : sim R (Explain c1 ctx req) (Explain c2 ctx req).
Proof. unfold Explain. repeat (sim_step; auto using sim_evaluate). Qed.

Lemma sim_each reqs : sim R (each (Explain c1 ctx) reqs) (each (Explain c2 ctx) reqs).
Proof.
  induction reqs as [|r reqs IH]; simpl; [apply sim_ret|].
  repeat (sim_step; auto using sim_Explain).
Qed.
End Simulation.

(** ** The batch against one snapshot *)

(** The three memoized readers answer the same throughout the batch and change
    nothing; the clock, the facts, the ledger and the decider are free. *)
Record stable {W} (config : GateConfig W) (ctx : Ctx) (rt : result RuntimeState)
    (doc : result Document) (used : BudgetKind -> result LimitUsage) : Prop := {
  st_runtime : forall read, gc_Runtime config = Some read ->
    forall req w, does (read ctx req) w rt w;
  st_policy : forall read, gc_Policy config = Some read ->
    forall req w, does (read ctx req) w doc w;
  st_usage : forall read, gc_Usage config = Some read ->
    forall req w, does (read ctx req) w (used (BudgetKindFor req)) w;
}.

Section Stable.
Context `{GoEnv} {W : Type} (config : GateConfig W) (ctx : Ctx) (rt : result RuntimeState)
  (doc : result Document) (used : BudgetKind -> result LimitUsage)
  (Hst : stable config ctx rt doc used).

(** The cache holds only what the readers answer. *)
Definition snapshot_of (wc : W * Cache) (w : W) : Prop :=
  wc.1 = w /\
  (forall r, cache_Runtime wc.2 = Some r -> r = rt) /\
  (forall r, cache_Policy wc.2 = Some r -> r = doc) /\
  (forall kind r, cache_Usage wc.2 !! kind = Some r -> r = used kind).

Lemma sim_lift {A} (m : M W A) : sim snapshot_of (lift m) m.
Proof.
  intros [w c] w2 [Hw Hcache]. simpl in Hw. subst w2. unfold value_at, lift. simpl.
  destruct (m w) as [a w'] eqn:E. simpl. split; [done|]. by split.
Qed.

Lemma sim_lift2 {T} (f : option (Ctx -> ActionRequest -> M W T)) :
  sim_opt (sim2 snapshot_of ctx) (lift2 f) f.
Proof. destruct f; simpl; [|done]. intros req. apply sim_lift. Qed.

(** A memoized reader of the snapshot simulates the reader. *)
Lemma sim_memoize {T} (cached : Cache -> option (result T)) keep read req (r : result T) :
  (forall c w, snapshot_of (w, c) w -> forall x, cached c = Some x -> x = r) ->
  (forall c w, snapshot_of (w, c) w -> snapshot_of (w, keep r c) w) ->
  (forall w, does (read ctx req) w r w) ->
  sim snapshot_of (memoize cached keep read ctx req) (read ctx req).
Proof.
  intros Hcached Hkeep Hread [w c] w2 HR. pose proof (proj1 HR) as Hw. simpl in Hw. subst w2.
  unfold memoize, value_at. simpl. rewrite (Hread w). destruct (cached c) as [x|] eqn:E; simpl.
  - split; [by apply (Hcached c w HR)|done].
  - rewrite (Hread w). split; [done|]. by apply Hkeep.
Qed.

Lemma sim_snapshot : sim_config snapshot_of ctx (snapshot config) config.
Proof.
  destruct Hst as [Hrt Hdoc Hused]. constructor; try done; simpl; try apply sim_lift2.
  - destruct (gc_Runtime config) as [read|]; simpl; [|done]. intros req.
    apply (sim_memoize _ _ _ _ rt); [by intros c w (_ & Hr & _)| |by apply Hrt].
    intros c w (? & _ & ? & ?). split_and!; try done. by intros r [= <-].
  - destruct (gc_Policy config) as [read|]; simpl; [|done]. intros req.
    apply (sim_memoize _ _ _ _ doc); [by intros c w (_ & _ & Hp & _)| |by apply Hdoc].
    intros c w (? & ? & _ & ?). split_and!; try done. by intros r [= <-].
  - destruct (gc_Usage config) as [read|]; simpl; [|done]. intros req.
    apply (sim_memoize _ _ _ _ (used (BudgetKindFor req))); [| |by apply Hused].
    + intros c w (_ & _ & _ & Hu) x. apply Hu.
    + intros c w (? & ? & ? & Hu). split_and!; try done. intros kind r. simpl.
      destruct (decide (kind = BudgetKindFor req)) as [->|Hne].
      * rewrite lookup_insert_eq. by intros [= <-].
      * rewrite lookup_insert_ne by done. apply Hu.
  - destruct (gc_WindowObserved config); simpl; [apply sim_lift|done].
  - unfold now, snapshot. simpl. destruct (gc_Now config); simpl; apply sim_lift.
  - destruct (gc_Autonomy config) as [l|]; simpl; [|done]. constructor; simpl; try done.
    + intros req. apply sim_lift.
    + destruct (lim_RecordDeadlineOverride l); simpl; [|done]. intros req d. apply sim_lift.
Qed.
End Stable.

(** Explaining a batch is explaining each request: while the runtime, policy
    and usage readers stay what they were when first read, the batch gives, from
    every world, exactly the decisions and effects of explaining the requests one
    after the other, even when requests of both budget kinds are mixed. *)
Theorem batch_explains_each `{GoEnv} {W} (config : GateConfig W) ctx rt doc used reqs w :
  stable config ctx rt doc used ->
  ExplainBatch config ctx reqs w = each (Explain config ctx) reqs w.
Proof.
  intros Hst. unfold ExplainBatch.
  destruct (sim_each _ ctx _ _ (sim_snapshot config ctx rt doc used Hst) reqs (w, empty_cache) w)
    as [Hv Hw]; [by split_and!|].
  unfold value_at in Hv. destruct (each _ reqs (w, empty_cache)) as [ds [w' c]].
  destruct (each (Explain config ctx) reqs w) as [ds2 w2]. simpl in *.
  destruct Hw as [Hw _]. simpl in Hw. by subst.
Qed.

Lemma batch_explains_each_witness :
  let config := sample_gate autonomous sample_document in
  let reqs := [index_request; approved_request None] in
  ExplainBatch config sample_ctx reqs tt = each (Explain config sample_ctx) reqs tt.
Proof.
  intros config reqs.
  apply (batch_explains_each config sample_ctx (Ok autonomous) (Ok sample_document)
    (fun _ => Ok zero_usage)).
  by constructor; intros read [= <-].
Defined.
