(* ===== verification/GateWiden.v ===== *)
(** * The gate is exactly its specification, and documents order it

    For a gate that reads one frozen snapshot, the authority of [GateSafety] is
    not only necessary but sufficient for an execute verdict; and a document that
    does not widen another never lets more execute. *)

From S2P Require Import Prelude.
From S2P Require Import GoStd.
From S2P Require Import PolicyTypes.
From S2P Require Import Window.
From S2P Require Import Budget.
From S2P Require Import Refusal.
From S2P Require Import Document.
From S2P Require Import Gate.
From S2P Require Import Samples.
From S2P Require Import GateSafety.

(** ** A gate on one snapshot *)

Record Snapshot : Type := {
  sn_runtime : result RuntimeState;
  sn_validate : option (string -> result unit);
  sn_usage : ActionRequest -> result LimitUsage;
  sn_now : Time;
  sn_limit : option (ActionRequest -> result AutonomyLimit);
  sn_governs : option (ActionRequest -> bool);
  sn_facts : option (ActionRequest -> result (list FactBinding));
  sn_pending : option (ActionRequest -> result (list PendingVerification));
  sn_agents : option (ActionRequest -> Decision * Z * bool);
}.

(** Every collaborator answers from the snapshot; the policy is [doc]. *)
Definition frozen (s : Snapshot) (doc : Document) : GateConfig unit :=
  {| gc_Runtime := Some (fun _ _ => ret (sn_runtime s)); gc_ValidateSQL := sn_validate s;
     gc_Policy := Some (fun _ _ => ret (Ok doc));
     gc_Usage := Some (fun _ req => ret (sn_usage s req));
     gc_WindowObserved := None; gc_RecordDecision := None; gc_RecordDecisionDetailed := None;
     gc_Now := Some (ret (sn_now s)); gc_SystemNow := ret (sn_now s);
     gc_Autonomy := (fun limit =>
       {| lim_Limit := fun _ req => ret (limit req); lim_Governs := sn_governs s;
          lim_RecordDeadlineOverride := None |}) <$> sn_limit s;
     gc_Serialize := None;
     gc_Facts := (fun f _ req => ret (f req)) <$> sn_facts s;
     gc_Verification := (fun f _ req => ret (f req)) <$> sn_pending s;
     gc_Agents := (fun f _ req => ret (f req)) <$> sn_agents s |}.

Definition explained `{GoEnv} (s : Snapshot) (doc : Document) (ctx : Ctx) (req : ActionRequest)
    : Decision :=
  value_at (evaluate (frozen s doc) ctx req) tt.

Section Complete.
Context `{GoEnv} (s : Snapshot) (doc : Document) (ctx : Ctx) (req : ActionRequest).
Abbreviation g := (frozen s doc) (only parsing).

(** Running a computation of the frozen gate: worlds are [tt]. *)
Abbreviation run m := (value_at m tt) (only parsing).

Lemma run_bind {A B} (m : M unit A) (k : A -> M unit B) : run (bind m k) = run (k (run m)).
Proof. unfold value_at, bind. by destruct (m tt) as [a []]. Qed.

Lemma run_ret {A} (a : A) : run (ret a : M unit A) = a.
Proof. done. Qed.

Lemma returns_run {A} (m : M unit A) a : returns m a <-> run m = a.
Proof. split; [by intros [[] ?]|by exists tt]. Qed.

Lemma run_now : run (now g) = sn_now s.
Proof. done. Qed.

Lemma saw_time_now t : saw_time g t <-> t = sn_now s.
Proof. unfold saw_time. rewrite returns_run, run_now. done. Qed.

Lemma validated_valid d : valid_document d -> validated (Ok d) = Ok d.
Proof. intros Hv. apply ValidateDocument_valid in Hv. unfold validated. by rewrite Hv. Qed.

Lemma tierDecision_complete rt c :
  tier_allows g req rt c ->
  executes (tierDecision rt c req (sn_now s) (selfGoverned g req)) /\ observeOnly rt = false /\
  trust_known (rt_TrustLevel rt) = true.
Proof.
  intros (Hm & Hman & Htrust & Htier). apply trust_known_spec in Htrust as Hk.
  assert (Ho : observeOnly rt = false).
  { unfold observeOnly. apply neqb_str in Hman. rewrite Hman, orb_false_r.
    by destruct Htrust as [-> | ->]. }
  split_and!; try done. unfold executes, tierDecision, read_only in *.
  apply neqb_str in Hm. rewrite Hm, Hk.
  destruct Htier as [->|(t & Ht & [(-> & -> & Hr)|(-> & -> & -> & Hr)])]; simpl;
    try (by rewrite decisionForRequest_verdict); apply saw_time_now in Ht as ->; rewrite Hr; simpl;
    by rewrite decisionForRequest_verdict.
Qed.

Lemma windowDecision_complete rt c :
  ac_RiskTier c = RiskModerate -> window_or_deadline g req doc (rt_InConfiguredWindow rt) ->
  match run (windowDecision g doc rt c req) with None => True | Some d => executes d end.
Proof.
  intros Hr (t & Ht & Hw). apply saw_time_now in Ht as ->. unfold windowDecision.
  rewrite Hr. cbn -[inAnyWindow]. rewrite !run_bind. cbn -[inAnyWindow].
  destruct (_ && _) eqn:E; [done|]. destruct Hw as [[Hc Hw]|Hw].
  - cbn -[inAnyWindow] in E. rewrite Hc, Hw in E. done.
  - cbn -[inAnyWindow]. rewrite Hw. unfold executes. cbn. by rewrite decision_verdict.
Qed.

Lemma selfInitiatedDecision_complete rt c :
  self_allows g req rt doc c -> executes (run (selfInitiatedDecision g doc rt c req)).
Proof.
  intros (Htier & Href & Hdeg & Hwin). unfold selfInitiatedDecision. rewrite run_bind, run_now.
  pose proof (tierDecision_complete rt c Htier) as (Hx & _). cbv zeta.
  unfold executes in Hx. rewrite Hx. simpl. rewrite Href.
  destruct (rt_SQLValidationDegraded rt && _) eqn:E.
  { apply andb_true_iff in E as [E1 E2]. specialize (Hdeg E1). unfold read_only in Hdeg.
    by rewrite Hdeg in E2. }
  rewrite run_bind. destruct (decide (ac_RiskTier c = RiskModerate)) as [Hm|Hm].
  - pose proof (windowDecision_complete rt c Hm (Hwin Hm)) as Hw.
    destruct (value_at (windowDecision g doc rt c req) tt); [done|by rewrite run_ret].
  - unfold windowDecision. destruct Htier as (_ & _ & _ & [Hr|(t & _ & [[Hr _]|[Hr _]])]);
      [rewrite Hr|rewrite Hr|done]; simpl; by rewrite run_ret.
Qed.

Lemma documentDecision_complete c :
  document_allows g ctx req doc c ->
  exists note, run (documentDecision g ctx c req) = (doc, None, note).
Proof.
  intros [Hv Hd]. unfold documentDecision. rewrite run_bind.
  change (value_at (policy g ctx req) tt) with (Ok doc : result Document).
  rewrite validated_valid by done.
  destruct (ac_RiskTier c =s RiskReadOnly) eqn:Er; [by exists no_note|].
  destruct Hd as [Hr|(Ha & Hq & Hg & Hs & u & t & Hu & Ht & Hl)];
    [unfold read_only in Hr; by rewrite Hr in Er|].
  apply str_in_spec in Ha. unfold containsChangeClass, hasGuardrail. rewrite Ha. simpl.
  rewrite <- str_in_spec in Hq, Hg. apply not_true_is_false in Hq, Hg. rewrite Hg, Hs, Hq. simpl.
  rewrite run_bind. unfold saw_usage in Hu. rewrite returns_run in Hu. rewrite Hu.
  rewrite run_bind, run_now. cbn [bn_bypass]. apply saw_time_now in Ht as ->. rewrite Hl.
  by eexists.
Qed.

Lemma run_passMandatoryDeadline limiter base :
  lim_RecordDeadlineOverride limiter = None ->
  run (passMandatoryDeadline limiter ctx req base) = base.
Proof. intros Hl. unfold passMandatoryDeadline. rewrite Hl. by destruct (negb _). Qed.

Lemma restrictAutonomy_complete rt c base :
  executes base -> ledger_allows g ctx req rt doc c ->
  executes (run (restrictAutonomy g ctx doc rt c req base)).
Proof.
  intros Hb Hled. unfold restrictAutonomy, ledger_allows, saw_limit in *.
  change (gc_Autonomy g) with ((fun limit : ActionRequest -> result AutonomyLimit =>
    {| lim_Limit := fun _ req => ret (W:=unit) (limit req); lim_Governs := sn_governs s;
       lim_RecordDeadlineOverride := None |}) <$> sn_limit s) in *.
  destruct (sn_limit s) as [limit|] eqn:El; simpl in *; [|done].
  destruct (governedByAutonomy g req) eqn:Eg; simpl; [|done].
  unfold executes in Hb. rewrite Hb. simpl. rewrite run_bind, run_now.
  destruct (mandatoryDeadline doc req (sn_now s)) eqn:Em; [by rewrite run_passMandatoryDeadline|].
  destruct Hled as [?|[(t & Ht & Hm)|(l & t & (limiter & [= <-] & Hl) & Ht & Hlev & Hblk)]];
    [done|apply saw_time_now in Ht as ->; congruence|].
  rewrite returns_run in Hl. apply saw_time_now in Ht as ->. simpl in Hl.
  rewrite run_bind. simpl. rewrite run_ret in Hl |- *. rewrite Hl. cbv zeta. rewrite Hlev.
  rewrite run_bind. cbn [andb Z.ltb Z.compare autonomyExecuteLevel autonomyHandoffLevel].
  change (autonomyExecuteLevel <? autonomyHandoffLevel) with false.
  change (autonomyExecuteLevel =? autonomyHandoffLevel) with false. simpl.
  rewrite run_bind, run_now, Hblk. simpl. done.
Qed.

Lemma applyWait_complete base p t :
  executes base -> req_OperatorApproved req = true \/ Forall (fun v => Expired v t = true) p ->
  executes (applyWait req base (splitWaits p t)).
Proof.
  intros Hb Hw. unfold applyWait, executes in *.
  assert (Hnone : req_OperatorApproved req = true \/ vw_Pending (splitWaits p t) = []).
  { destruct Hw as [?|Hall]; [by left|right]. simpl.
    induction Hall as [|v p Hv _ IH]; simpl; [done|]. by rewrite Hv. }
  revert Hnone. generalize (splitWaits p t). intros wait Hnone.
  destruct (vw_Pending wait) as [|v vs]; [by destruct (vw_Released wait)|].
  destruct Hnone as [Ho|?]; [|done]. by rewrite Ho; destruct (vw_Released wait).
Qed.

Lemma awaitVerification_complete base :
  executes base -> wait_allows g ctx req -> executes (run (awaitVerification g ctx req base)).
Proof.
  intros Hb Hw. unfold awaitVerification, wait_allows, saw_pending in *.
  change (gc_Verification g) with ((fun f (_ : Ctx) req =>
    ret (W:=unit) (f req : result (list PendingVerification))) <$> sn_pending s) in *.
  destruct (sn_pending s) as [f|]; simpl in *; [|done]. rewrite run_bind, run_now.
  destruct (waitApplies req base (sn_now s)) eqn:Ew; simpl; [|done].
  rewrite run_bind, run_ret. destruct (f req) as [p|e] eqn:Ef.
  - rewrite run_bind, run_now, run_ret. apply applyWait_complete; [done|].
    unfold waitApplies in Ew. destruct (req_Contract req); [|done].
    destruct Hw as [?|[Hw|[Hw|[Hw|[(t & Ht & Hw)|(p' & t & (tr & [= <-] & Hp) & Ht & Hw)]]]]];
      try done; try (rewrite Hw in Ew; rewrite ?orb_true_r in Ew; done).
    + by left.
    + apply saw_time_now in Ht as ->. unfold executes in Hb. rewrite Hb in Ew. simpl in Ew.
      destruct (_ || _); [done|]. by apply eqb_str in Ew.
    + apply saw_time_now in Ht as ->. apply returns_run in Hp. rewrite run_ret in Hp.
      assert (p' = p) as -> by congruence. by right.
  - destruct Hw as [?|[Hw|[Hw|[Hw|[(t & Ht & Hw)|(p' & t & (tr & [= <-] & Hp) & _)]]]]]; try done;
      try (unfold waitApplies in Ew; destruct (req_Contract req); [|done];
           rewrite Hw in Ew; rewrite ?orb_true_r in Ew; done).
    + by rewrite Hw.
    + apply saw_time_now in Ht as ->. unfold waitApplies in Ew. destruct (req_Contract req); [|done].
      unfold executes in Hb. rewrite Hb in Ew. simpl in Ew.
      destruct (_ || _); [done|]. by apply eqb_str in Ew.
    + apply returns_run in Hp. rewrite run_ret in Hp. congruence.
Qed.

(** A bounded execute decision executes. *)
Ltac bounded_execute :=
  rewrite ?run_ret; cbv iota beta; rewrite ?run_ret, withDocumentBounds_verdict; simpl;
  by rewrite decision_verdict.

Lemma operatorDecision_complete rt c :
  operator_allows g ctx req rt c -> executes (run (operatorDecision g ctx rt c req)).
Proof.
  intros (Htrust & Hrisk & d & Hd & Hv & Ha & Hw). unfold operatorDecision, executes.
  apply trust_known_spec in Htrust as Hk. rewrite Hk, Hrisk.
  replace (rt_TrustLevel rt =s TrustObservation) with false by by destruct Htrust as [-> | ->].
  simpl. rewrite run_bind. apply returns_run in Hd.
  change (value_at (policy g ctx req) tt) with (Ok doc : result Document) in *.
  injection Hd as <-.
  rewrite validated_valid by done. apply str_in_spec in Ha.
  unfold containsChangeClass. rewrite Ha. simpl. rewrite run_bind.
  unfold operatorWindowDecision. destruct (moderate_or_high _) eqn:Em; simpl.
  2: { bounded_execute. }
  destruct (approvedMitigation req) eqn:Eap.
  { bounded_execute. }
  destruct Hw as [?|[?|(t & Ht & Hw)]]; [done|done|]. apply saw_time_now in Ht as ->.
  rewrite run_bind, run_now. destruct (_ && inAnyWindow _ _) eqn:Eo.
  { bounded_execute. }
  destruct Hw as [[Hc Hw]|Hw]; [rewrite Hc, Hw in Eo; done|]. rewrite Hw. bounded_execute.
Qed.

Lemma factDecision_complete c :
  req_Contract req = Some c ->
  (req_Rollback req = true \/ read_only c \/ saw_no_facts g ctx req) ->
  run (factDecision g ctx req) = None.
Proof.
  intros Hc Hf. unfold factDecision, saw_no_facts in *.
  change (gc_Facts g) with ((fun f (_ : Ctx) req =>
    ret (W:=unit) (f req : result (list FactBinding))) <$> sn_facts s) in *.
  destruct (sn_facts s) as [f|]; simpl in *; [|done].
  destruct (_ || _) eqn:Eo; [done|]. apply orb_false_iff in Eo as [Er Ero].
  rewrite run_bind, run_ret.
  destruct Hf as [?|[Hr|[?|(b & [= <-] & Hb)]]]; [congruence| |done|].
  - unfold requestIsReadOnly in Ero. rewrite Hc in Ero. unfold read_only in Hr.
    by rewrite Hr in Ero.
  - apply returns_run in Hb. rewrite run_ret in Hb. by rewrite Hb.
Qed.

Lemma validateRequest_complete rt c :
  contract_checked g ctx req rt c -> validateRequest g req = inr c.
Proof.
  intros (Hc & Ha & Hg & Hsql & _). unfold validateRequest. rewrite Hc.
  apply neqb_str in Ha. rewrite Ha.
  replace (unknownGuardrail c) with (None : option Guardrail).
  2: { symmetry. unfold unknownGuardrail. induction Hg as [|x l -> _ IH]; simpl; [done|].
       apply IH. }
  destruct (_ || _) eqn:Eo; [done|]. apply orb_false_iff in Eo as [Et Ee].
  destruct Hsql as [?|[[He Hs]|(check & -> & ->)]]; [congruence| |done].
  by rewrite He, Hs in Ee.
Qed.

Lemma agentDecision_complete rt c :
  operator_allows g ctx req rt c -> req_OperatorApproved req = true -> req_Principal req <> None ->
  agent_allows g ctx req -> executes (run (agentDecision g ctx rt c req)).
Proof.
  intros Hop Ho Hp Hag. unfold agentDecision.
  assert (Hlevel : forall level, 2 <= level -> executes (run (agentAtLevel g ctx rt c req level))).
  { intros level Hl. unfold agentAtLevel. destruct (_ =? 0) eqn:Ec.
    - destruct Hop as [[Ht|Ht] _]; by rewrite Ht in Ec.
    - rewrite Ho, (proj2 (Z.leb_le _ _) Hl). simpl. rewrite run_bind.
      apply awaitVerification_complete; [by apply operatorDecision_complete|]. do 3 right. by left. }
  unfold agent_allows in Hag.
  change (gc_Agents g) with ((fun f (_ : Ctx) req =>
    ret (W:=unit) (f req : Decision * Z * bool)) <$> sn_agents s) in *.
  destruct (sn_agents s) as [f|]; simpl in *; [|by apply Hlevel].
  destruct Hag as [?|[?|(D & d & level & [= <-] & Hd & Hl)]]; [done|done|].
  rewrite run_bind. apply returns_run in Hd. rewrite run_ret in Hd |- *. rewrite Hd. by apply Hlevel.
Qed.

Lemma selfInitiated_complete rt c :
  document_allows g ctx req doc c -> self_allows g req rt doc c ->
  ledger_allows g ctx req rt doc c -> wait_allows g ctx req ->
  executes (run (selfInitiated g ctx rt c req)).
Proof.
  intros Hdoc Hself Hled Hw. unfold selfInitiated. rewrite run_bind.
  destruct (documentDecision_complete c Hdoc) as [note Hnote]. rewrite Hnote.
  rewrite !run_bind, run_ret. apply awaitVerification_complete; [|done].
  apply stamp_executes, restrictAutonomy_complete; [|done]. unfold executes.
  rewrite withDocumentBounds_verdict. by apply selfInitiatedDecision_complete.
Qed.

Lemma evaluate_complete : authorized g ctx req -> executes (run (evaluate g ctx req)).
Proof.
  intros (rt & c & Hrt & Hck & Hauth). unfold evaluate. rewrite run_bind.
  apply returns_run in Hrt. rewrite Hrt.
  pose proof (validateRequest_complete rt c Hck) as Hval.
  destruct Hck as (Hc & _ & _ & _ & Hprov & Hf).
  pose proof (factDecision_complete c Hc Hf) as Hfact.
  assert (Hjudge : forall b, (b = true -> IsNarrowing req = true) ->
    (IsNarrowing req = true \/ hardStop rt req = None) ->
    executes (run (judge g ctx rt b req))).
  { intros b Hbn Hgo. unfold judge. rewrite Hval, Hprov, run_bind, Hfact.
    destruct (IsNarrowing req) eqn:En.
    { rewrite run_ret. unfold executes, narrowingDecision. by rewrite decisionForRequest_verdict. }
    destruct Hauth as [Hn|Hs Ho Hag Hop|d Hs Hp Ho Hd Hdoc Hself Hled Hw].
    - unfold IsNarrowing in En. rewrite Hc in En. congruence.
    - destruct (req_Principal req) eqn:Ep; [apply agentDecision_complete; congruence || done|].
      rewrite Ho, run_bind. apply awaitVerification_complete; [by apply operatorDecision_complete|].
      do 3 right. by left.
    - rewrite Hp, Ho. apply returns_run in Hd.
      change (value_at (policy g ctx req) tt) with (Ok doc : result Document) in Hd.
      injection Hd as <-.
      destruct (tierDecision_complete rt c) as (_ & Hobs & Hk); [apply Hself|].
      rewrite Hobs, Hk. simpl. by apply selfInitiated_complete. }
  destruct (hardStop rt req) as [d|] eqn:Es; [|apply Hjudge; [done|by right]].
  assert (En : IsNarrowing req = true).
  { unfold IsNarrowing. rewrite Hc. destruct Hauth; congruence. }
  rewrite En. apply Hjudge; [done|by left].
Qed.
End Complete.

(** ** Documents that widen nothing *)

Section Mono.
Context `{GoEnv} (s : Snapshot) (base next : Document) (ctx : Ctx) (req : ActionRequest)
  (Hnw : no_wider base next) (Hvalid : valid_document base).

Lemma inAnyWindow_mono t :
  inAnyWindow (doc_MaintenanceWindows next) t = true ->
  inAnyWindow (doc_MaintenanceWindows base) t = true.
Proof.
  unfold inAnyWindow. rewrite !existsb_exists. intros (e & He & Hm). exists e. split; [|done].
  apply list_elem_of_In, (nw_windows _ _ Hnw), list_elem_of_In, He.
Qed.

Lemma validDeadlineOverride_mono deadline t :
  validDeadlineOverride next deadline t = true -> validDeadlineOverride base deadline t = true.
Proof.
  unfold validDeadlineOverride. destruct deadline as [d|]; [|done].
  destruct (negb _); [done|]. destruct (_ && _); [done|]. apply (nw_overrides _ _ Hnw).
Qed.

Lemma mandatoryDeadline_mono t :
  mandatoryDeadline next req t = true -> mandatoryDeadline base req t = true.
Proof.
  unfold mandatoryDeadline. destruct (req_Deadline req) as [d|]; [|done].
  rewrite !andb_true_iff. intros [? ?%validDeadlineOverride_mono]. done.
Qed.

Lemma l3Blocker_mono rt t self :
  l3Blocker next rt req t self = "" -> l3Blocker base rt req t self = "".
Proof.
  unfold l3Blocker. destruct (negb _); [done|]. destruct self; [done|].
  destruct (inAnyWindow (doc_MaintenanceWindows next) t) eqn:E.
  - by rewrite (inAnyWindow_mono t E).
  - done.
Qed.

Lemma limitDecision_mono kind u bypass :
  valid_document next ->
  limitDecision next kind u bypass = None -> limitDecision base kind u bypass = None.
Proof.
  intros Hn. destruct (vd_kinds _ Hn kind) as [Ht Hc], (vd_kinds _ Hvalid kind) as [Ht' Hc'].
  pose proof (vd_rows _ Hn). pose proof (vd_rows _ Hvalid).
  destruct (nw_kinds _ _ Hnw kind). pose proof (nw_rows _ _ Hnw).
  rewrite !limitDecision_None by done. intros (Hs & Hr & Hb). split_and!; [|lia|].
  - pose proof (nw_storage _ _ Hnw) as Hw. apply limitWidens_false in Hw.
    unfold within_limit in *. destruct (vd_storage _ Hvalid) as [Hp Hpos].
    destruct (vd_storage _ Hn) as [Hpn Hposn].
    unfold NoCap in *. rewrite Hp, Hpn in *. simpl in *.
    destruct (bl_value (bu_StorageBytes (doc_Budgets base))) as [b|]; [|by left]. right.
    destruct (bl_value (bu_StorageBytes (doc_Budgets next))) as [n|] eqn:En;
      [|destruct Hw as [?|[(n & ? & _)|(? & _)]]; done].
    destruct Hw as [?|[(n' & [= <-] & Hle)|(? & _)]]; try done.
    destruct Hs as [?|(v & [= <-] & Hne & Hus)]; [done|]. exists b. specialize (Hle b eq_refl).
    specialize (Hposn n eq_refl). split; [done|]. lia.
  - destruct Hb as [?|[? ?]]; [by left|right]. lia.
Qed.

Lemma document_allows_mono c :
  document_allows (frozen s next) ctx req next c -> document_allows (frozen s base) ctx req base c.
Proof.
  intros [Hn [Hr|(Ha & Hq & Hg & Hs & u & t & Hu & Ht & Hl)]]; (split; [done|]); [by left|right].
  split_and!; try done.
  - by apply (nw_allowed _ _ Hnw).
  - intros Hin. by apply Hq, (nw_approval _ _ Hnw).
  - exists u, t. split_and!; try done. by apply limitDecision_mono.
Qed.

Lemma window_or_deadline_mono w :
  window_or_deadline (frozen s next) req next w -> window_or_deadline (frozen s base) req base w.
Proof.
  intros (t & Ht & [[Hw Hi]|Hd]); exists t; (split; [exact Ht|]).
  - left. split; [done|]. by apply inAnyWindow_mono.
  - right. by apply validDeadlineOverride_mono.
Qed.

Lemma authorized_mono : authorized (frozen s next) ctx req -> authorized (frozen s base) ctx req.
Proof.
  intros (rt & c & Hrt & Hck & Hauth). exists rt, c. split; [exact Hrt|]. split; [exact Hck|].
  destruct Hauth as [Hn|Hs Ho Hag (Htr & Hk & d & Hd & Hv & Ha & Hw)
                    |d Hs Hp Ho Hd Hdoc (Htier & Href & Hdeg & Hwin) Hled Hwait].
  - by apply by_narrowing.
  - apply by_operator; try done. split; [done|]. split; [done|]. exists base.
    apply returns_run in Hd.
    change (value_at (policy (frozen s next) ctx req) tt) with (Ok next : result Document) in Hd.
    injection Hd as <-. split_and!; try done; [by exists tt|by apply (nw_allowed _ _ Hnw)|].
    destruct Hw as [?|[?|?%window_or_deadline_mono]]; auto.
  - apply returns_run in Hd.
    change (value_at (policy (frozen s next) ctx req) tt) with (Ok next : result Document) in Hd.
    injection Hd as <-. apply (by_self _ _ _ _ _ base); try done.
    + by exists tt.
    + by apply document_allows_mono.
    + split_and!; try done.
      * by eapply refusalDecision_mono; [apply (nw_refusal _ _ Hnw)|].
      * intros Hm. by apply window_or_deadline_mono, Hwin.
    + destruct Hled as [?|[(t & Ht & Hm)|(l & t & Hl & Ht & Hlev & Hblk)]]; [by left|right; left|right; right].
      * exists t. split; [done|]. by apply mandatoryDeadline_mono.
      * exists l, t. split_and!; try done. by apply l3Blocker_mono.
Qed.
End Mono.

(** ** The properties *)

(** C2: the gate decides exactly its specification: on one snapshot of its
    readers, and for every request, the verdict is execute if and only if the
    request is authorized in the sense of C1; nothing authorized is held back
    and nothing else runs. *)
Theorem frozen_gate_exact `{GoEnv} (s : Snapshot) doc ctx req :
  dec_Verdict (explained s doc ctx req) = VerdictExecute <-> authorized (frozen s doc) ctx req.
Proof.
  split.
  - intros Hx. apply (evaluate_authorized (frozen s doc) ctx req tt Hx).
  - exact (evaluate_complete s doc ctx req).
Qed.

(** C3: what "does not widen" promises is what the gate does: when the new
    policy document does not widen the current valid one, every request that
    executes under the new document, whoever sent or approved it and whatever
    the runtime, the ledger, the clock and the facts say, already executes under
    the current one.  This is why such an edit needs only one approver. *)
Theorem not_widening_is_safe `{GoEnv} (s : Snapshot) base next ctx req :
  Widens base next = false -> ValidateDocument base = Ok tt ->
  dec_Verdict (explained s next ctx req) = VerdictExecute ->
  dec_Verdict (explained s base ctx req) = VerdictExecute.
Proof.
  intros Hw%Widens_no_wider Hv%ValidateDocument_valid Hx.
  refine (evaluate_complete s base ctx req (authorized_mono s base next ctx req Hw Hv _)).
  apply (evaluate_authorized (frozen s next) ctx req tt Hx).
Qed.

Definition sample_snapshot : Snapshot :=
  {| sn_runtime := Ok autonomous; sn_validate := Some (fun _ => Ok tt);
     sn_usage := fun _ => Ok zero_usage; sn_now := sample_now;
     sn_limit := Some (fun _ => Ok {| al_Level := 3; al_Granted := 3; al_Downgraded := false;
       al_Reasons := []; al_Class := "index"; al_Family := "slow_query" |});
     sn_governs := None; sn_facts := Some (fun _ => Ok []); sn_pending := Some (fun _ => Ok []);
     sn_agents := None |}.

Lemma not_widening_is_safe_witness :
  dec_Verdict (explained sample_snapshot sample_document sample_ctx incident_request)
    = VerdictExecute.
Proof.
  refine (not_widening_is_safe sample_snapshot sample_document sample_document sample_ctx
    incident_request _ _ _); by vm_compute.
Defined.
