(* ===== verification/GateBudget.v ===== *)
(** * Budget slots are never oversubscribed

    The gate's usage reader and recorder share a ledger (in the source:
    internal/executor/budget_usage.go, over the decision and action tables).
    [BudgetLedger] states what the gate relies on: what the reader counts, what a
    recorded decision adds, and the cross-process lock (executor/budget_lock.go).
    Calls of Authorize run in phases that interleave: taking a gate's mutex, taking
    the lock, evaluating, recording, giving the lock back; one call alone runs
    through them exactly as [Authorize] does.  From it: no interleaving of the calls
    of many gates on one database admits more self-initiated changes of a kind in
    any 24 hours than the document allows. *)

From S2P Require Import Prelude.
From S2P Require Import GoStd.
From S2P Require Import PolicyTypes.
From S2P Require Import Window.
From S2P Require Import Budget.
From S2P Require Import Refusal.
From S2P Require Import Document.
From S2P Require Import Gate.
From S2P Require Import Samples.
From S2P Require Import GateSafety.

(** One change charged to a kind: when it was authorized, and while it has not
    run yet, the request holding the slot. *)
Record Charge : Type := {
  ch_kind : BudgetKind;
  ch_at : Time;
  ch_hold : option (string * list string);
}.

#[export] Instance Charge_eq_dec : EqDecision Charge.
Proof. solve_decision. Defined.

Definition request_key (req : ActionRequest) : string * list string :=
  (req_SQL req, req_TargetObjs req).

Definition in_window (kind : BudgetKind) (from to : Time) (c : Charge) : bool :=
  (ch_kind c =s kind) && (from <? ch_at c) && (ch_at c <=? to).

Definition held_by (req : ActionRequest) (c : Charge) : bool :=
  bool_decide (ch_hold c = Some (request_key req)).

Definition count (f : Charge -> bool) (l : list Charge) : Z := Z.of_nat (length (List.filter f l)).

(** The charges of a kind in the window ending at [t]. *)
Definition spent (kind : BudgetKind) (t : Time) (l : list Charge) : Z :=
  count (in_window kind (t - BudgetWindow) t) l.

(** The kind a decision is charged to (stampBudgetEvidence). *)
Definition charged_kind (req : ActionRequest) (d : Decision) : BudgetKind :=
  if dec_BudgetKind d =s BudgetBypass then BudgetBypass else BudgetKindFor req.

Definition self_spending (req : ActionRequest) : bool :=
  spendsBudget req && match req_Principal req with None => true | Some _ => false end.

(** ** What the gate relies on *)

(** [held]: a transaction holds the budget lock of the database. *)
Class BudgetLedger (W : Type) := {
  ledger : W -> list Charge;
  clock : W -> Time;
  held : W -> bool;
}.

(** Time does not run backwards and no charge appears (one may be released). *)
Abbreviation later w w' := (clock w <= clock w' /\ ledger w' ⊆+ ledger w) (only parsing).

(** That, and the lock stays as it is. *)
Definition steady {W A} `{BudgetLedger W} (m : M W A) : Prop :=
  forall w, later w (snd (m w)) /\ held (snd (m w)) = held w.

Record keeps_ledger {W} `{BudgetLedger W} (config : GateConfig W) : Prop := {
  kl_runtime : forall f ctx req, gc_Runtime config = Some f -> steady (f ctx req);
  kl_policy : forall f ctx req, gc_Policy config = Some f -> steady (f ctx req);
  kl_usage : forall f ctx req, gc_Usage config = Some f -> steady (f ctx req);
  kl_hook : forall m, gc_WindowObserved config = Some m -> steady m;
  kl_now : steady (now config);
  kl_limit : forall l ctx req, gc_Autonomy config = Some l -> steady (lim_Limit l ctx req);
  kl_override : forall l f ctx req d, gc_Autonomy config = Some l ->
    lim_RecordDeadlineOverride l = Some f -> steady (f ctx req d);
  kl_facts : forall f ctx req, gc_Facts config = Some f -> steady (f ctx req);
  kl_pending : forall f ctx req, gc_Verification config = Some f -> steady (f ctx req);
  kl_agents : forall f ctx req, gc_Agents config = Some f -> steady (f ctx req);
  kl_serialize : forall f ctx req w r w', gc_Serialize config = Some f -> does (f ctx req) w r w' ->
    later w w' /\ match r with Ok _ => held w = false /\ held w' = true | Err _ => held w' = held w end;
  kl_done : forall f ctx req ctx' done_ b w r w', gc_Serialize config = Some f ->
    returns (f ctx req) (Ok (ctx', done_)) -> does (done_ b) w r w' -> later w w' /\ held w' = false;
}.

(** The usage reader counts at least the window's charges of the request's kind
    that the request does not hold itself; the recorder charges an execute
    decision of a self-spending request, in place of the holds the request had.
    The lock is granted while no one has it, and is free once its transaction ends. *)
Record reads_ledger {W} `{BudgetLedger W} (config : GateConfig W) : Prop := {
  rl_usage : exists read, gc_Usage config = Some read /\
    forall ctx req w u w', does (read ctx req) w (Ok u) w' ->
      exists t, clock w <= t <= clock w' /\
        count (fun c => in_window (BudgetKindFor req) (t - BudgetWindow) t c &&
                        negb (held_by req c)) (ledger w')
          <= lu_SelfInitiatedChangesInWindow u;
  rl_record : exists recorder, gc_RecordDecisionDetailed config = Some recorder /\
    forall ctx req d w r w', does (recorder ctx req d) w r w' ->
      held w' = held w /\ exists t, clock w <= t <= clock w' /\
        ledger w' ⊆+
          if verdict_eqb (dec_Verdict d) VerdictExecute && self_spending req
          then {| ch_kind := charged_kind req d; ch_at := t; ch_hold := Some (request_key req) |}
               :: List.filter (fun c => negb (held_by req c)) (ledger w)
          else ledger w;
}.

(** ** Counting *)

Lemma count_cons f c l : count f (c :: l) = (if f c then 1 else 0) + count f l.
Proof. unfold count. simpl. destruct (f c); simpl; lia. Qed.

Lemma count_nonneg f l : 0 <= count f l.
Proof. unfold count. lia. Qed.

Lemma count_submseteq f l1 l2 : l1 ⊆+ l2 -> count f l1 <= count f l2.
Proof.
  induction 1 as [|x l1 l2 _ IH|x y l|x l1 l2 _ IH|l1 l2 l3 _ IH1 _ IH2];
    rewrite ?count_cons; try lia. destruct (f x); lia.
Qed.

Lemma count_impl f h l : (forall c, c ∈ l -> f c = true -> h c = true) -> count f l <= count h l.
Proof.
  induction l as [|c l IH]; intros Hfh; [done|]. rewrite !count_cons.
  assert (Hl : count f l <= count h l).
  { apply IH. intros c' Hc'. apply Hfh. apply elem_of_cons. by right. }
  specialize (Hfh c ltac:(apply elem_of_cons; by left)).
  destruct (f c); [rewrite Hfh by done|destruct (h c)]; lia.
Qed.

Lemma count_filter f h l : count f (List.filter h l) = count (fun c => f c && h c) l.
Proof.
  induction l as [|c l IH]; [done|]. rewrite count_cons. simpl.
  destruct (h c); rewrite ?count_cons, ?andb_true_r, ?andb_false_r, ?IH; lia.
Qed.

(** ** Walking the gate with a steady world *)

Section Steady.
Context {W : Type} `{BudgetLedger W}.

Lemma steady_ret {A} (a : A) : steady (ret a : M W A).
Proof. intros w. split; [split; simpl; [lia|done]|done]. Qed.

Lemma steady_bind {A B} (m : M W A) (k : A -> M W B) :
  steady m -> (forall a, steady (k a)) -> steady (bind m k).
Proof.
  intros Hm Hk w. unfold bind. specialize (Hm w). destruct (m w) as [a w']. simpl in Hm.
  destruct (Hk a w') as [[? ?] ->]. destruct Hm as [[? ?] ?]. split; [split; [lia|by etransitivity]|done].
Qed.

Lemma steady_does {A} (m : M W A) w a w' :
  steady m -> does m w a w' -> later w w'.
Proof. intros Hm Hd. specialize (Hm w). unfold does in Hd. rewrite Hd in Hm. apply Hm. Qed.

Lemma steady_held {A} (m : M W A) w a w' : steady m -> does m w a w' -> held w' = held w.
Proof. intros Hm Hd. specialize (Hm w). unfold does in Hd. rewrite Hd in Hm. apply Hm. Qed.

Context `{GoEnv} (config : GateConfig W) (Hk : keeps_ledger config).

Ltac steady_step :=
  match goal with
  | |- steady (ret _) => apply steady_ret
  | |- steady (bind _ _) => apply steady_bind; [|intros ?]
  | |- steady (match ?x with _ => _ end) => destruct x eqn:?
  | |- steady (now _) => apply (kl_now _ Hk)
  end.
Ltac steady_walk := repeat steady_step; eauto using kl_runtime, kl_policy, kl_usage, kl_hook,
  kl_limit, kl_override, kl_facts, kl_pending, kl_agents.

Lemma steady_restrictAutonomy ctx doc rt c req base :
  steady (restrictAutonomy config ctx doc rt c req base).
Proof. unfold restrictAutonomy, passMandatoryDeadline, trustedVerdict. steady_walk. Qed.

Lemma steady_awaitVerification ctx req base : steady (awaitVerification config ctx req base).
Proof. unfold awaitVerification. steady_walk. Qed.

Lemma steady_policy ctx req : steady (policy config ctx req).
Proof. unfold policy. steady_walk. Qed.

Lemma steady_selfInitiatedDecision doc rt c req :
  steady (selfInitiatedDecision config doc rt c req).
Proof. unfold selfInitiatedDecision, windowDecision. steady_walk. Qed.

Lemma steady_operatorDecision ctx rt c req : steady (operatorDecision config ctx rt c req).
Proof.
  unfold operatorDecision, operatorWindowDecision. steady_walk; apply steady_policy.
Qed.

Lemma steady_agentDecision ctx rt c req : steady (agentDecision config ctx rt c req).
Proof.
  unfold agentDecision, agentAtLevel, agentLevelDecision.
  steady_walk; eauto using steady_policy, steady_awaitVerification, steady_operatorDecision.
Qed.

Lemma steady_factDecision ctx req : steady (factDecision config ctx req).
Proof. unfold factDecision. steady_walk. Qed.

Lemma steady_runtime ctx req : steady (runtime config ctx req).
Proof. unfold runtime. steady_walk. Qed.

Lemma steady_documentDecision ctx c req : steady (documentDecision config ctx c req).
Proof. unfold documentDecision, usage. steady_walk; apply steady_policy. Qed.

Lemma steady_evaluate ctx req : steady (evaluate config ctx req).
Proof.
  unfold evaluate, judge, selfInitiated.
  steady_walk; eauto using steady_runtime, steady_factDecision, steady_agentDecision,
    steady_operatorDecision, steady_awaitVerification, steady_documentDecision,
    steady_selfInitiatedDecision, steady_restrictAutonomy.
Qed.
End Steady.

(** ** Admission *)

Section Admission.
Context {W : Type} `{BudgetLedger W} `{GoEnv} (config : GateConfig W)
  (Hk : keeps_ledger config) (Hr : reads_ledger config).

(** The changes of the request's kind by others in the window ending at [t]. *)
Definition others (req : ActionRequest) (t : Time) (l : list Charge) : Z :=
  count (fun c => in_window (BudgetKindFor req) (t - BudgetWindow) t c && negb (held_by req c)) l.

(** A slot of [doc]'s budget was free at [t]. *)
Definition slot_free (doc : Document) (req : ActionRequest) (t : Time) (l : list Charge) : Prop :=
  others req t l < Z.max 1 (kb_MaxChangesPerWindow (Budget doc (BudgetKindFor req))).

Lemma others_submseteq req t l1 l2 : l1 ⊆+ l2 -> others req t l1 <= others req t l2.
Proof. apply count_submseteq. Qed.

Lemma documentDecision_slot ctx c req w doc note w' :
  does (documentDecision config ctx c req) w (doc, None, note) w' ->
  ac_RiskTier c <> RiskReadOnly ->
  saw_policy config ctx req doc /\ bn_read note = true /\
  (bn_bypass note = "" -> exists t, clock w <= t <= clock w' /\ slot_free doc req t (ledger w')).
Proof.
  intros Hd Hro. unfold documentDecision in Hd.
  apply does_bind in Hd as (rd & w1 & Hp & Hd).
  pose proof (steady_does _ _ _ _ (steady_policy config Hk ctx req) Hp) as [Hc1 _].
  destruct (validated rd) as [doc'|] eqn:Ev; [|by apply does_ret in Hd as [[=] _]].
  apply validated_Ok in Ev as [-> Hvalid]. apply neqb_str in Hro. rewrite Hro in Hd.
  destruct (negb _); [by apply does_ret in Hd as [[=] _]|].
  destruct (_ || _); [by apply does_ret in Hd as [[=] _]|].
  apply does_bind in Hd as (ru & w2 & Hu & Hd).
  destruct ru as [u|]; [|by apply does_ret in Hd as [[=] _]].
  apply does_bind in Hd as (t & w3 & Hn & Hd).
  pose proof (steady_does _ _ _ _ (kl_now _ Hk) Hn) as [Hc3 Hl3]. cbn [bn_bypass] in Hd.
  destruct (limitDecision _ _ _ _) eqn:El; apply does_ret in Hd as [[= -> ->] ->].
  split; [by exists w; unfold value_at; rewrite Hp|]. split; [done|]. intros Hb. simpl in Hb.
  rewrite Hb in El. simpl in El. destruct (vd_kinds _ Hvalid (BudgetKindFor req)) as [? ?].
  rewrite limitDecision_None in El by (done || apply (vd_rows _ Hvalid)).
  destruct El as (_ & _ & [?|[_ Hlim]]); [done|].
  destruct (rl_usage _ Hr) as (read & Hread & Hlaw). unfold usage in Hu. rewrite Hread in Hu.
  destruct (Hlaw _ _ _ _ _ Hu) as (t' & Ht' & Hcount). exists t'. split; [lia|].
  unfold slot_free. pose proof (others_submseteq req t' _ _ Hl3). unfold others in *. lia.
Qed.

Lemma applyWait_kind req base wait :
  executes (applyWait req base wait) ->
  dec_BudgetKind (applyWait req base wait) = dec_BudgetKind base.
Proof.
  unfold applyWait, executes. intros Hx. repeat case_hyp Hx; simpl in Hx |- *;
    rewrite ?decisionForRequest_verdict in Hx; done.
Qed.

Lemma awaitVerification_kind ctx req base :
  yields (awaitVerification config ctx req base) (fun d =>
    executes d -> dec_BudgetKind d = dec_BudgetKind base).
Proof.
  unfold awaitVerification.
  repeat yields_step; unfold executes; rewrite ?decisionForRequest_verdict; try done.
  apply applyWait_kind.
Qed.

Lemma stamp_kind note d :
  bn_read note = true -> bn_bypass note <> "" -> dec_BudgetKind (stamp note d) = BudgetBypass.
Proof.
  intros Hread Hb. unfold stamp. rewrite Hread. apply neqb_str in Hb. rewrite Hb. simpl.
  by case_goal.
Qed.

Lemma selfInitiated_slot ctx rt c req w d w' :
  does (selfInitiated config ctx rt c req) w d w' -> executes d ->
  ac_RiskTier c <> RiskReadOnly -> charged_kind req d <> BudgetBypass ->
  exists doc t, saw_policy config ctx req doc /\ clock w <= t <= clock w' /\
    slot_free doc req t (ledger w').
Proof.
  intros Hd Hx Hro Hkind. unfold selfInitiated in Hd.
  apply does_bind in Hd as ([[doc stop] note] & w1 & Hdoc & Hd).
  apply does_bind in Hd as (base & w2 & Hbase & Hd).
  apply does_bind in Hd as (base' & w3 & Hres & Haw).
  assert (Hs2 : later w1 w2).
  { eapply steady_does; [|exact Hbase]. destruct stop; [apply steady_ret|].
    apply steady_bind; [by apply steady_selfInitiatedDecision|]. intros ?. apply steady_ret. }
  pose proof (steady_does _ _ _ _ (steady_restrictAutonomy config Hk _ _ _ _ _ _) Hres) as Hs3.
  pose proof (steady_does _ _ _ _ (steady_awaitVerification config Hk _ _ _) Haw) as Hs4.
  assert (Hxb : executes (stamp note base') /\ dec_BudgetKind d = dec_BudgetKind (stamp note base')).
  { split.
    - by apply (yields_value _ _ _ _ _ (awaitVerification_spec config ctx req _) Haw) in Hx as [? _].
    - by apply (yields_value _ _ _ _ _ (awaitVerification_kind ctx req _) Haw). }
  destruct Hxb as [Hxb Hkd]. apply stamp_executes in Hxb.
  apply (yields_value _ _ _ _ _ (restrictAutonomy_spec config ctx req doc rt c base) Hres)
    in Hxb as [Hxb _].
  pose proof (yields_value _ _ _ _ _ (documentDecision_spec config ctx req c) Hdoc) as Hspec.
  simpl in Hspec. destruct stop as [d0|].
  { apply does_ret in Hbase as [-> _]. done. }
  destruct (documentDecision_slot _ _ _ _ _ _ _ Hdoc Hro) as (Hp & Hread & Hslot).
  assert (Hb : bn_bypass note = "").
  { destruct (decide (bn_bypass note = "")) as [|Hne]; [done|]. destruct Hkind.
    unfold charged_kind. by rewrite Hkd, (stamp_kind _ _ Hread Hne). }
  destruct (Hslot Hb) as (t & Ht & Hfree). exists doc, t. split; [done|]. split; [lia|].
  unfold slot_free in *. destruct Hs2 as [_ Hl2], Hs3 as [_ Hl3], Hs4 as [_ Hl4].
  pose proof (others_submseteq req t _ _ Hl2). pose proof (others_submseteq req t _ _ Hl3).
  pose proof (others_submseteq req t _ _ Hl4). lia.
Qed.

Lemma self_spending_spec req c :
  req_Contract req = Some c -> self_spending req = true ->
  req_OperatorApproved req = false /\ req_Principal req = None /\
  ac_RiskTier c <> RiskReadOnly /\ IsNarrowing req = false.
Proof.
  unfold self_spending, spendsBudget, IsNarrowing. intros ->.
  destruct (req_Principal req); [by rewrite andb_false_r|]. rewrite andb_true_r.
  rewrite !andb_true_iff, !negb_true_iff, neqb_str. tauto.
Qed.

(** Only [selfInitiated] executes a self-spending request. *)
Lemma evaluate_slot ctx req w d w' :
  does (evaluate config ctx req) w d w' -> executes d -> self_spending req = true ->
  charged_kind req d <> BudgetBypass ->
  exists doc t, saw_policy config ctx req doc /\ clock w <= t <= clock w' /\
    slot_free doc req t (ledger w').
Proof.
  intros Hd Hx Hspend Hkind. unfold evaluate in Hd.
  apply does_bind in Hd as ([rt|e] & w1 & Hrt & Hd); [|by apply does_ret in Hd as [-> _]].
  pose proof (steady_does _ _ _ _ (steady_runtime config Hk _ _) Hrt) as [Hc1 _].
  destruct (req_Contract req) as [c|] eqn:Ec;
    [|by unfold self_spending, spendsBudget in Hspend; rewrite Ec, andb_false_r in Hspend].
  destruct (self_spending_spec req c Ec Hspend) as (Ho & Hp & Hro & Hn).
  destruct (hardStop rt req) as [s|] eqn:Es; rewrite ?Hn in Hd.
  { apply does_ret in Hd as [-> _]. apply hardStop_not_execute in Es. unfold executes in Hx.
    congruence. }
  unfold judge in Hd. destruct (validateRequest config req) as [d0|c'] eqn:Ev.
  { apply does_ret in Hd as [-> _]. apply validateRequest_inl in Ev. unfold executes in Hx.
    destruct Ev; congruence. }
  assert (c' = c) as ->.
  { unfold validateRequest in Ev. rewrite Ec in Ev. by repeat case_hyp Ev; simplify_eq. }
  destruct (providerDecision rt c) as [d0|] eqn:Ep.
  { apply does_ret in Hd as [-> _]. apply providerDecision_not_execute in Ep. unfold executes in Hx.
    congruence. }
  apply does_bind in Hd as (fact & w2 & Hf & Hd).
  pose proof (steady_does _ _ _ _ (steady_factDecision config Hk _ _) Hf) as [Hc2 _].
  destruct fact as [d0|].
  { apply does_ret in Hd as [-> _].
    by destruct (yields_value _ _ _ _ _ (factDecision_spec config ctx req) Hf). }
  rewrite Hn, Hp, Ho in Hd.
  destruct (observeOnly rt); [by apply does_ret in Hd as [-> _]|].
  destruct (negb _); [by apply does_ret in Hd as [-> _]|].
  destruct (selfInitiated_slot _ _ _ _ _ _ _ Hd Hx Hro Hkind) as (doc & t & ? & ? & ?).
  exists doc, t. split_and!; try done; lia.
Qed.

(** ** The invariant *)

Context (lim : BudgetKind -> Z)
  (Hlim : forall ctx req doc kind, saw_policy config ctx req doc ->
     kb_MaxChangesPerWindow (Budget doc kind) <= lim kind).

(** Charges lie in the past, and no window of a kind holds more than its limit
    (a limit of 0 counts as 1, see [positiveExceeded_inclusive]). *)
Definition within_budget (w : W) : Prop :=
  (forall c, c ∈ ledger w -> ch_at c <= clock w) /\
  forall kind t, kind = BudgetPerformance \/ kind = BudgetHygiene ->
    spent kind t (ledger w) <= Z.max 1 (lim kind).

Lemma within_budget_steady w w' :
  clock w <= clock w' -> ledger w' ⊆+ ledger w -> within_budget w -> within_budget w'.
Proof.
  intros Hc Hl [Hpast Hsp]. split.
  - intros c Hin. apply (elem_of_submseteq _ _ _ Hin) in Hl as Hin2; clear Hin; rename Hin2 into Hin. specialize (Hpast c Hin). lia.
  - intros kind t Hkind. specialize (Hsp kind t Hkind).
    pose proof (count_submseteq (in_window kind (t - BudgetWindow) t) _ _ Hl). unfold spent in *. lia.
Qed.

Lemma BudgetKindFor_kinds req :
  BudgetKindFor req = BudgetPerformance \/ BudgetKindFor req = BudgetHygiene.
Proof. unfold BudgetKindFor. repeat case_goal; auto. Qed.

(** Charging a request that found a slot free keeps every window in budget. *)
Lemma charge_within w w' doc req d t t' :
  within_budget w -> t <= clock w <= t' -> t' <= clock w' ->
  (forall c, c ∈ ledger w -> ch_at c <= t) ->
  (charged_kind req d <> BudgetBypass ->
     slot_free doc req t (ledger w) /\
     kb_MaxChangesPerWindow (Budget doc (BudgetKindFor req)) <= lim (BudgetKindFor req)) ->
  ledger w' ⊆+ {| ch_kind := charged_kind req d; ch_at := t'; ch_hold := Some (request_key req) |}
               :: List.filter (fun c => negb (held_by req c)) (ledger w) ->
  within_budget w'.
Proof.
  intros [Hpast Hsp] Ht Ht' Hold Hfree Hl. split.
  - intros c Hin. apply (elem_of_submseteq _ _ _ Hin) in Hl as Hin2; clear Hin; rename Hin2 into Hin. apply elem_of_cons in Hin as [->|Hin];
      [done|]. apply list_elem_of_In, filter_In in Hin as [Hin _]. apply list_elem_of_In in Hin.
    specialize (Hpast c Hin). lia.
  - intros kind T Hkind. unfold spent. eapply Z.le_trans; [by apply count_submseteq|].
    rewrite count_cons, count_filter.
    assert (Hbefore : count (fun c => in_window kind (T - BudgetWindow) T c && negb (held_by req c))
      (ledger w) <= spent kind T (ledger w)).
    { apply count_impl. intros c _. rewrite andb_true_iff. tauto. }
    specialize (Hsp kind T Hkind).
    destruct (in_window kind (T - BudgetWindow) T _) eqn:Ein; [|lia].
    unfold in_window in Ein. simpl in Ein. reflect_all. destruct Ein as [[Ek Efrom] Eto].
    assert (Hnb : charged_kind req d <> BudgetBypass) by (rewrite Ek; by destruct Hkind as [-> | ->]).
    destruct (Hfree Hnb) as [Hslot Hle]. unfold slot_free, others in Hslot.
    assert (Hkf : BudgetKindFor req = kind).
    { unfold charged_kind in *. by destruct (_ =s BudgetBypass). }
    rewrite Hkf in *.
    assert (Hmove : count (fun c => in_window kind (T - BudgetWindow) T c && negb (held_by req c))
      (ledger w) <= count (fun c => in_window kind (t - BudgetWindow) t c && negb (held_by req c))
      (ledger w)).
    { apply count_impl. intros c Hin. specialize (Hold c Hin). unfold in_window.
      rewrite !andb_true_iff, !Z.ltb_lt, !Z.leb_le. intros [[[? ?] ?] ?]. split_and!; try done; lia. }
    lia.
Qed.
End Admission.

(** ** Judging and recording *)

Section Preserve.
Context {W : Type} `{BudgetLedger W} `{GoEnv} (config : GateConfig W)
  (Hk : keeps_ledger config) (Hr : reads_ledger config) (lim : BudgetKind -> Z)
  (Hlim : forall ctx req doc kind, saw_policy config ctx req doc ->
     kb_MaxChangesPerWindow (Budget doc kind) <= lim kind).

(** What recording a decision to execute relies on: a slot was free after every charge
    there is. *)
Definition ready (req : ActionRequest) (d : Decision) (w : W) : Prop :=
  executes d -> self_spending req = true -> charged_kind req d <> BudgetBypass ->
  exists doc t, kb_MaxChangesPerWindow (Budget doc (BudgetKindFor req)) <= lim (BudgetKindFor req) /\
    t <= clock w /\ slot_free doc req t (ledger w) /\ forall c, c ∈ ledger w -> ch_at c <= t.

Lemma ready_later req d w w' : later w w' -> ready req d w -> ready req d w'.
Proof.
  intros [Hc Hl] Hd Hx Hs Hb. destruct (Hd Hx Hs Hb) as (doc & t & Hdoc & Ht & Hfree & Hpast).
  exists doc, t. split; [done|]. split; [lia|]. split.
  - unfold slot_free in *. pose proof (others_submseteq req t _ _ Hl). lia.
  - intros c Hin. eapply elem_of_submseteq in Hin; [|exact Hl]. auto.
Qed.

Lemma evaluate_ready ctx req w d w' : within_budget lim w -> does (evaluate config ctx req) w d w' ->
  ready req d w'.
Proof.
  intros [Hpast _] Hev Hx Hspend Hb.
  destruct (evaluate_slot config Hk Hr _ _ _ _ _ Hev Hx Hspend Hb) as (doc & t & Hp & Ht & Hfree).
  pose proof (steady_does _ _ _ _ (steady_evaluate config Hk ctx req) Hev) as [_ Hl].
  exists doc, t. split; [by eapply Hlim|]. split; [lia|]. split; [done|].
  intros c Hin. eapply elem_of_submseteq in Hin; [|exact Hl]. apply Hpast in Hin. lia.
Qed.

Lemma record_within ctx req d w r w' : within_budget lim w -> ready req d w ->
  does (record config ctx req d) w r w' ->
  within_budget lim w' /\ held w' = held w /\ (executes d /\ self_spending req = true \/ later w w').
Proof.
  intros Hw Hready Hrec. destruct (rl_record _ Hr) as (recorder & Hrecorder & Hlaw).
  unfold record in Hrec. rewrite Hrecorder in Hrec.
  apply does_bind in Hrec as (x & w3 & Hx & Hret).
  assert (w' = w3) as -> by (destruct x as [[]|]; by apply does_ret in Hret as [_ ->]).
  destruct (Hlaw _ _ _ _ _ _ Hx) as (Hh & t' & Ht' & Hl).
  rewrite decisionForRequest_verdict in Hl. unfold charged_kind in Hl.
  replace (dec_BudgetKind (decisionForRequest req d)) with (dec_BudgetKind d) in Hl
    by (unfold decisionForRequest; by destruct (req_Contract req)).
  fold (charged_kind req d) in Hl.
  destruct (_ && _) eqn:Espend; [|split; [apply (within_budget_steady lim w); (lia || done)|]].
  2: { split; [done|]. right. split; [lia|done]. }
  apply andb_true_iff in Espend as [Ex Hspend]. apply verdict_eqb_true in Ex. split; [|by auto].
  destruct (decide (charged_kind req d = BudgetBypass)) as [Eb|Eb].
  - apply (charge_within lim w w3 empty_document req d (clock w) t'); try done; [lia|lia|].
    apply Hw.
  - destruct (Hready Ex Hspend Eb) as (doc & t & Hdoc & Ht & Hfree & Hpast).
    apply (charge_within lim w w3 doc req d t t'); try done; lia.
Qed.

End Preserve.


(** ** A call, phase by phase *)

Section Calls.
Context {W : Type} `{GoEnv}.

Inductive call : Type :=
| Starting (config : GateConfig W) (ctx : Ctx) (req : ActionRequest)
| Entered (config : GateConfig W) (ctx : Ctx) (req : ActionRequest)
| Locked (config : GateConfig W) (ctx : Ctx) (req : ActionRequest) (done_ : bool -> M W (result unit))
| Judged (config : GateConfig W) (ctx : Ctx) (req : ActionRequest)
    (done_ : option (bool -> M W (result unit))) (d : Decision)
| Recorded (req : ActionRequest) (done_ : option (bool -> M W (result unit))) (d : Decision) (err : option error)
| Returned (d : Decision).

(** What takes the gate's mutex. *)
Definition guarded_request (req : ActionRequest) : bool := self_spending req.

(** One phase: the mutex (whose exclusion is the system's), the lock, judging,
    recording, and the end of the lock's transaction. *)
Definition call_step (c : call) : M W call :=
  match c with
  | Starting config ctx req =>
      if guarded_request req then ret (Entered config ctx req) else
      let! d := evaluate config ctx req in ret (Judged config ctx req None d)
  | Entered config ctx req =>
      match gc_Serialize config with
      | Some Serialize =>
          let! locked := Serialize ctx req in
          ret (match locked with
               | Err e => Judged config ctx req None (blocked ReasonPolicyUnavailable ("budget lock: " +:+ e))
               | Ok (lockedCtx, done_) => Locked config lockedCtx req done_
               end)
      | None => let! d := evaluate config ctx req in ret (Judged config ctx req None d)
      end
  | Locked config ctx req done_ => let! d := evaluate config ctx req in ret (Judged config ctx req (Some done_) d)
  | Judged config ctx req done_ d =>
      let! (d, err) := record config ctx req d in ret (Recorded req done_ d err)
  | Recorded req None d _ => ret (Returned d)
  | Recorded req (Some done_) d (Some _) =>
      let! rollback := done_ false in
      ret (Returned (match rollback with
                     | Err e => set_Detail (dec_Detail d +:+ "; budget lock rollback: " +:+ e) d
                     | Ok _ => d
                     end))
  | Recorded req (Some done_) d None =>
      let! commit := done_ true in
      ret (Returned (match commit with
                     | Err e => decisionForRequest req (blocked ReasonPolicyUnavailable
                                  ("budget lock: commit the recorded decision: " +:+ e))
                     | Ok _ => d
                     end))
  | Returned d => ret (Returned d)
  end.

Fixpoint call_steps (n : nat) (c : call) : M W call :=
  match n with O => ret c | S n => let! c := call_step c in call_steps n c end.

(** A call of Authorize with nothing else going on. *)
Definition alone (config : GateConfig W) (ctx : Ctx) (req : ActionRequest) : M W call :=
  call_steps 5 (Starting config ctx (gate_request ctx req)).

Lemma guarded_spec req : negb (spendsBudget req) || match req_Principal req with Some _ => true | None => false end =
  negb (guarded_request req).
Proof. unfold guarded_request, self_spending. by destruct (spendsBudget req), (req_Principal req). Qed.

(** The phases of one call are Authorize. *)
Lemma alone_Authorize config ctx req w :
  alone config ctx req w = (Returned (Authorize config ctx req w).1, (Authorize config ctx req w).2).
Proof.
  unfold alone, Authorize. fold (gate_request ctx req). cbv zeta. set (r := gate_request ctx req).
  rewrite guarded_spec. unfold authorizeSerialized, finish, bind, ret.
  cbn [call_steps]. unfold bind, ret. cbn [call_step]. destruct (guarded_request r); cbn [negb].
  2: { unfold bind, ret. destruct (evaluate config ctx r w) as [d w1]. cbn.
       unfold bind, ret. destruct (record config ctx r d w1) as [[d2 e] w2]. reflexivity. }
  unfold ret. cbn [call_step]. destruct (gc_Serialize config) as [Serialize|].
  2: { unfold bind, ret. destruct (evaluate config ctx r w) as [d w1]. cbn.
       unfold bind, ret. destruct (record config ctx r d w1) as [[d2 e] w2]. reflexivity. }
  unfold bind, ret. destruct (Serialize ctx r w) as [[[lctx done_]|e] w1]; cbn [call_step]; unfold bind, ret.
  - destruct (evaluate config lctx r w1) as [d w2]. cbn [call_step]. unfold bind, ret.
    destruct (record config lctx r d w2) as [[d2 [e|]] w3]; cbn [call_step]; unfold bind, ret.
    + destruct (done_ false w3) as [[]]; reflexivity.
    + destruct (done_ true w3) as [[]]; reflexivity.
  - destruct (record config ctx r _ w1) as [[d2 e2] w2]. reflexivity.
Qed.

(** The call holds the mutex of its gate. *)
Definition in_section (c : call) : bool :=
  match c with
  | Entered _ _ _ | Locked _ _ _ _ => true
  | Judged _ _ req _ _ | Recorded req _ _ _ => guarded_request req
  | Starting _ _ _ | Returned _ => false
  end.

(** The call's transaction holds the budget lock. *)
Definition holds_lock (c : call) : bool :=
  match c with
  | Locked _ _ _ _ | Judged _ _ _ (Some _) _ | Recorded _ (Some _) _ _ => true
  | _ => false
  end.

Definition request_of (c : call) : option ActionRequest :=
  match c with
  | Starting _ _ req | Entered _ _ req | Locked _ _ req _ | Judged _ _ req _ _ | Recorded req _ _ _ => Some req
  | Returned _ => None
  end.
End Calls.

(** ** Changes that run *)

(** What of a charge a window counts. *)
Definition charge_of (c : Charge) : BudgetKind * Time := (ch_kind c, ch_at c).

Definition in_window_of (kind : BudgetKind) (from to : Time) (p : BudgetKind * Time) : bool :=
  (p.1 =s kind) && (from <? p.2) && (p.2 <=? to).

Lemma count_map kind from to l :
  count (in_window kind from to) l =
  Z.of_nat (length (List.filter (in_window_of kind from to) (map charge_of l))).
Proof.
  induction l as [|c l IH]; [done|]. rewrite count_cons, IH. simpl.
  change (in_window_of kind from to (charge_of c)) with (in_window kind from to c).
  destruct (in_window kind from to c); simpl; lia.
Qed.

Lemma filter_submseteq {A} (f : A -> bool) l1 l2 :
  l1 ⊆+ l2 -> (length (List.filter f l1) <= length (List.filter f l2))%nat.
Proof.
  induction 1 as [|x l1 l2 _ IH|x y l|x l1 l2 _ IH|l1 l2 l3 _ IH1 _ IH2]; simpl; try lia.
  - destruct (f x); simpl; lia.
  - destruct (f x), (f y); simpl; lia.
  - destruct (f x); simpl; lia.
Qed.

Lemma progress_within {W} `{BudgetLedger W} lim (w w' : W) :
  clock w <= clock w' -> map charge_of (ledger w') ⊆+ map charge_of (ledger w) ->
  within_budget lim w -> within_budget lim w'.
Proof.
  intros Hc Hl [Hpast Hsp]. split.
  - intros c Hin. assert (Hm : charge_of c ∈ map charge_of (ledger w')).
    { apply list_elem_of_In, in_map, list_elem_of_In, Hin. }
    eapply elem_of_submseteq in Hm; [|exact Hl]. apply list_elem_of_In, in_map_iff in Hm
      as (c' & [= _ Hat] & Hin'). apply list_elem_of_In, Hpast in Hin'. lia.
  - intros kind t Hkind. specialize (Hsp kind t Hkind). unfold spent in *.
    rewrite count_map in *. pose proof (filter_submseteq
      (in_window_of kind (t - BudgetWindow) t) _ _ Hl). lia.
Qed.

(** A change runs: the slot its request held is used for good. *)
Definition run_hold (key : string * list string) (l : list Charge) : list Charge :=
  map (fun c => if bool_decide (ch_hold c = Some key)
                then {| ch_kind := ch_kind c; ch_at := ch_at c; ch_hold := None |} else c) l.

Lemma run_hold_charges key l : map charge_of (run_hold key l) = map charge_of l.
Proof. unfold run_hold. rewrite map_map. apply map_ext. intros c. by destruct (bool_decide _). Qed.

Lemma run_hold_others key req t l : request_key req <> key -> others req t (run_hold key l) = others req t l.
Proof.
  intros Hk. unfold others, run_hold. induction l as [|c l IH]; [done|]. cbn [map]. rewrite !count_cons, IH. f_equal.
  destruct (bool_decide_reflect (ch_hold c = Some key)) as [Hc|]; [|done]. unfold in_window, held_by. cbn.
  rewrite Hc. rewrite !bool_decide_eq_false_2 by congruence. done.
Qed.

(** ** The system *)

Section System.
Context {W : Type} `{BudgetLedger W} `{GoEnv}.

(** The calls under way, each of a gate, that is of a process. *)
Record System : Type := { bs_world : W; bs_calls : gmap nat (nat * @call W) }.

Context (gates : nat -> option (GateConfig W)).

(** A call arrives; a call goes on, into its gate's mutex only when it is free; time
    passes and charges are released; a held change runs, whose very request no call is
    judging. *)
Inductive sys_step : System -> System -> Prop :=
| call_arrives i g config ctx req sy :
    gates g = Some config -> bs_calls sy !! i = None ->
    sys_step sy {| bs_world := bs_world sy;
                   bs_calls := <[i := (g, Starting config ctx (gate_request ctx req))]> (bs_calls sy) |}
| call_goes_on i g c c' w' sy :
    bs_calls sy !! i = Some (g, c) -> does (call_step c) (bs_world sy) c' w' ->
    (in_section c = false -> in_section c' = true ->
     forall j cj, bs_calls sy !! j = Some (g, cj) -> in_section cj = false) ->
    sys_step sy {| bs_world := w'; bs_calls := <[i := (g, c')]> (bs_calls sy) |}
| time_passes w' sy :
    later (bs_world sy) w' -> held w' = held (bs_world sy) ->
    sys_step sy {| bs_world := w'; bs_calls := bs_calls sy |}
| change_runs key w' sy :
    clock (bs_world sy) <= clock w' -> ledger w' = run_hold key (ledger (bs_world sy)) ->
    held w' = held (bs_world sy) ->
    (forall i g c req, bs_calls sy !! i = Some (g, c) -> in_section c = true -> request_of c = Some req ->
       request_key req <> key) ->
    sys_step sy {| bs_world := w'; bs_calls := bs_calls sy |}.

Context (lim : BudgetKind -> Z)
  (Hgates : forall g config, gates g = Some config -> keeps_ledger config /\ reads_ledger config /\
     forall ctx req doc kind, saw_policy config ctx req doc -> kb_MaxChangesPerWindow (Budget doc kind) <= lim kind)
  (Hlocks : forall g g' config, gates g = Some config -> is_Some (gates g') -> g <> g' ->
     gc_Serialize config <> None).

Definition its_done (config : GateConfig W) (done_ : bool -> M W (result unit)) : Prop :=
  exists S ctx req lctx, gc_Serialize config = Some S /\ returns (S ctx req) (Ok (lctx, done_)).

Definition call_ok (g : nat) (c : call) (w : W) : Prop :=
  match c with
  | Starting config _ _ => gates g = Some config
  | Entered config _ req => gates g = Some config /\ guarded_request req = true
  | Locked config _ req done_ => gates g = Some config /\ guarded_request req = true /\ its_done config done_
  | Judged config _ req done_ d =>
      gates g = Some config /\ ready lim req d w /\
      match done_ with
      | Some done_ => guarded_request req = true /\ its_done config done_
      | None => guarded_request req = true -> gc_Serialize config <> None -> ~ executes d
      end
  | Recorded req (Some done_) _ _ =>
      guarded_request req = true /\ exists config, gates g = Some config /\ its_done config done_
  | Recorded _ None _ _ | Returned _ => True
  end.

Record fine (sy : System) : Prop := {
  fn_budget : within_budget lim (bs_world sy);
  fn_calls : forall i g c, bs_calls sy !! i = Some (g, c) -> call_ok g c (bs_world sy);
  fn_mutex : forall i j g c c', i <> j -> bs_calls sy !! i = Some (g, c) -> bs_calls sy !! j = Some (g, c') ->
    in_section c = true -> in_section c' = false;
  fn_lock : forall i j g g' c c', i <> j -> bs_calls sy !! i = Some (g, c) -> bs_calls sy !! j = Some (g', c') ->
    holds_lock c = true -> holds_lock c' = false;
  fn_held : forall i g c, bs_calls sy !! i = Some (g, c) -> holds_lock c = true -> held (bs_world sy) = true;
}.

Lemma call_ok_later g c w w' : later w w' -> call_ok g c w -> call_ok g c w'.
Proof.
  intros Hl. destruct c as [| | |config ctx req done_ d|req [done_|] d err|]; cbn; try done.
  intros (Hg & Hr & Hd). split; [done|]. split; [by eapply ready_later|done].
Qed.

(** One call goes on to a phase that holds no more than it may. *)
Lemma fine_step sy i g c c' w' : fine sy -> bs_calls sy !! i = Some (g, c) ->
  within_budget lim w' -> call_ok g c' w' ->
  (forall j gj cj, j <> i -> bs_calls sy !! j = Some (gj, cj) -> call_ok gj cj w') ->
  (in_section c' = true -> in_section c = true \/
     forall j cj, bs_calls sy !! j = Some (g, cj) -> in_section cj = false) ->
  (holds_lock c' = true -> held w' = true /\
     forall j gj cj, j <> i -> bs_calls sy !! j = Some (gj, cj) -> holds_lock cj = false) ->
  (forall j gj cj, j <> i -> bs_calls sy !! j = Some (gj, cj) -> holds_lock cj = true -> held w' = true) ->
  fine {| bs_world := w'; bs_calls := <[i := (g, c')]> (bs_calls sy) |}.
Proof.
  intros [Hb Hc Hm Hl Hh] Hi Hb' Hok Hoks Hin Hlk Hhs. split; cbn; [done|..].
  - intros j gj cj. destruct (decide (j = i)) as [->|Hne]; [by rewrite lookup_insert_eq; intros [= <- <-]|].
    rewrite lookup_insert_ne by done. eauto.
  - intros j k gj cj ck Hne. destruct (decide (j = i)) as [->|Hj]; [|destruct (decide (k = i)) as [->|Hk]].
    + rewrite lookup_insert_eq, lookup_insert_ne by done. intros [= <- <-] Hck Hs.
      destruct (Hin Hs) as [Hs0|Hfree]; eauto.
    + rewrite lookup_insert_ne, lookup_insert_eq by done. intros Hcj [= <- <-] Hs.
      destruct (in_section c') eqn:Es; [|done]. destruct (Hin eq_refl) as [Hs0|Hfree].
      * by rewrite (Hm j i g cj c Hne Hcj Hi Hs) in Hs0.
      * by rewrite (Hfree _ _ Hcj) in Hs.
    + rewrite !lookup_insert_ne by done. eauto.
  - intros j k gj gk cj ck Hne. destruct (decide (j = i)) as [->|Hj]; [|destruct (decide (k = i)) as [->|Hk]].
    + rewrite lookup_insert_eq, lookup_insert_ne by done. intros [= <- <-] Hck Hs. eapply Hlk; eauto.
    + rewrite lookup_insert_ne, lookup_insert_eq by done. intros Hcj [= <- <-] Hs.
      destruct (holds_lock c') eqn:Es; [|done]. destruct (Hlk eq_refl) as [_ Hfree]. by rewrite (Hfree _ _ _ Hj Hcj) in Hs.
    + rewrite !lookup_insert_ne by done. eauto.
  - intros j gj cj. destruct (decide (j = i)) as [->|Hne].
    + rewrite lookup_insert_eq. intros [= <- <-] Hs. by apply Hlk.
    + rewrite lookup_insert_ne by done. eauto.
Qed.

(** It goes on without a charge, the lock as it was. *)
Lemma fine_quiet sy i g c c' w' : fine sy -> bs_calls sy !! i = Some (g, c) ->
  later (bs_world sy) w' -> held w' = held (bs_world sy) -> call_ok g c' w' ->
  (in_section c' = true -> in_section c = true \/
     forall j cj, bs_calls sy !! j = Some (g, cj) -> in_section cj = false) ->
  (holds_lock c' = true -> holds_lock c = true) ->
  fine {| bs_world := w'; bs_calls := <[i := (g, c')]> (bs_calls sy) |}.
Proof.
  intros Hf Hi Hl Hh Hok Hin Hlk. pose proof Hf as [Hb Hc Hm Hu Hd].
  eapply fine_step; try done.
  - destruct Hl. by eapply within_budget_steady.
  - intros j gj cj _ Hj. eapply call_ok_later; [exact Hl|eauto].
  - intros Hs. split; [rewrite Hh; eauto|]. intros j gj cj Hne Hj. eapply (Hu i j); eauto.
  - intros j gj cj _ Hj Hs. rewrite Hh. eauto.
Qed.


(** Recording: whoever else judged a spending request is refused, or kept out. *)
Lemma fine_record sy i g config ctx req done_ d r w' : fine sy ->
  bs_calls sy !! i = Some (g, Judged config ctx req done_ d) ->
  does (record config ctx req d) (bs_world sy) r w' ->
  fine {| bs_world := w'; bs_calls := <[i := (g, Recorded req done_ r.1 r.2)]> (bs_calls sy) |}.
Proof.
  intros Hf Hi Hrec. pose proof Hf as [Hb Hc Hm Hu Hd]. pose proof (Hc _ _ _ Hi) as (Hg & Hready & Hdone).
  destruct (Hgates g config Hg) as (Hk & Hrd & Hlim).
  destruct (record_within config Hrd lim ctx req d _ r w' Hb Hready Hrec) as (Hb' & Hh & Hcase).
  eapply fine_step; try done.
  - destruct done_; cbn; [destruct Hdone; eauto|done].
  - intros j gj cj Hne Hj. pose proof (Hc _ _ _ Hj) as Hok.
    destruct Hcase as [[Hx Hs]|Hl]; [|by eapply call_ok_later].
    destruct cj as [| | |cfg cx rj dj dd|rj [dj|] dd err|]; try done. destruct Hok as (Hgj & _ & Hdj).
    split; [done|]. split; [|exact Hdj]. intros Hxj Hsj _. exfalso.
    destruct (decide (gj = g)) as [->|Hgg].
    + assert (Hf' := Hm i j g _ _ (not_eq_sym Hne) Hi Hj Hs). cbn in Hf'. unfold guarded_request in Hf'. congruence.
    + assert (Hsi : gc_Serialize config <> None) by (eapply (Hlocks g gj); eauto).
      assert (Hsj' : gc_Serialize cfg <> None) by (eapply (Hlocks gj g); eauto).
      destruct done_ as [done_|]; [|by apply (Hdone Hs)]. destruct dj as [dj|]; [|by apply (Hdj Hsj)].
      by assert (Hf' := Hu i j g gj _ _ (not_eq_sym Hne) Hi Hj eq_refl).
  - intros Hs. left. exact Hs.
  - intros Hs. rewrite Hh. split; [eapply Hd; [exact Hi|by destruct done_]|].
    intros j gj cj Hne Hj. eapply (Hu i j); [done|exact Hi|exact Hj|by destruct done_].
  - intros j gj cj _ Hj Hs. rewrite Hh. eauto.
Qed.

(** The lock's transaction ends. *)
Lemma fine_done sy i g req done_ d err d' w' b r : fine sy ->
  bs_calls sy !! i = Some (g, Recorded req (Some done_) d err) -> does (done_ b) (bs_world sy) r w' ->
  fine {| bs_world := w'; bs_calls := <[i := (g, Returned d')]> (bs_calls sy) |}.
Proof.
  intros Hf Hi Hdo. pose proof Hf as [Hb Hc Hm Hu Hd].
  destruct (Hc _ _ _ Hi) as (_ & config & Hg & S & cx & rq & lcx & HS & Hret).
  destruct (kl_done _ (proj1 (Hgates g config Hg)) S cx rq lcx done_ b _ _ _ HS Hret Hdo) as [Hl Hh].
  eapply fine_step; try done.
  - destruct Hl. by eapply within_budget_steady.
  - intros j gj cj _ Hj. eapply call_ok_later; [exact Hl|eauto].
  - intros j gj cj Hne Hj Hs. by rewrite (Hu i j _ _ _ _ (not_eq_sym Hne) Hi Hj eq_refl) in Hs.
Qed.

Lemma fine_goes_on sy i g c c' w' : fine sy -> bs_calls sy !! i = Some (g, c) ->
  does (call_step c) (bs_world sy) c' w' ->
  (in_section c = false -> in_section c' = true ->
   forall j cj, bs_calls sy !! j = Some (g, cj) -> in_section cj = false) ->
  fine {| bs_world := w'; bs_calls := <[i := (g, c')]> (bs_calls sy) |}.
Proof.
  intros Hf Hi Hd Hin. pose proof (fn_calls _ Hf _ _ _ Hi) as Hok.
  assert (Hin' : in_section c' = true -> in_section c = true \/
    forall j cj, bs_calls sy !! j = Some (g, cj) -> in_section cj = false)
    by (destruct (in_section c) eqn:Ec; eauto). clear Hin.
  assert (Hev : forall config ctx req d w1, gates g = Some config -> does (evaluate config ctx req) (bs_world sy) d w1 ->
    later (bs_world sy) w1 /\ held w1 = held (bs_world sy) /\ ready lim req d w1).
  { intros config ctx req d w1 Hg He. destruct (Hgates g config Hg) as (Hk & Hr & Hlim).
    pose proof (steady_evaluate config Hk ctx req) as Hs.
    split; [by eapply steady_does|]. split; [by eapply steady_held|].
    eapply evaluate_ready; [exact Hk|exact Hr|exact Hlim|apply Hf|exact He]. }
  destruct c as [config ctx req|config ctx req|config ctx req done_|config ctx req done_ d|req done_ d err|d]; cbn in Hd, Hok.
  - destruct (guarded_request req) eqn:Eg.
    + apply does_ret in Hd as [-> ->]. by eapply fine_quiet.
    + apply does_bind in Hd as (d & w1 & He & Hd). apply does_ret in Hd as [-> ->].
      destruct (Hev _ _ _ _ _ Hok He) as (Hl & Hh & Hready). eapply fine_quiet; try done. cbn. rewrite Eg. done.
  - destruct Hok as [Hg Hs]. destruct (gc_Serialize config) as [S|] eqn:ES.
    + apply does_bind in Hd as (r & w1 & HS & Hd). apply does_ret in Hd as [-> ->].
      destruct (kl_serialize _ (proj1 (Hgates g config Hg)) S ctx req _ _ _ ES HS) as [Hl Hh].
      destruct r as [[lctx done_]|e].
      * destruct Hh as [Hfree Htaken]. eapply fine_step; try done.
        -- destruct Hl. eapply within_budget_steady; [done|done|apply Hf].
        -- cbn. split; [done|]. split; [done|]. exists S, ctx, req, lctx. split; [done|].
           exists (bs_world sy). unfold value_at. by rewrite HS.
        -- intros j gj cj _ Hj. eapply call_ok_later; [exact Hl|by eapply fn_calls].
        -- intros _. split; [done|]. intros j gj cj _ Hj. destruct (holds_lock cj) eqn:Eh; [|done].
           by rewrite (fn_held _ Hf _ _ _ Hj Eh) in Hfree.
      * by eapply fine_quiet.
    + apply does_bind in Hd as (d & w1 & He & Hd). apply does_ret in Hd as [-> ->].
      destruct (Hev _ _ _ _ _ Hg He) as (Hl & Hh & Hready). by eapply fine_quiet.
  - destruct Hok as (Hg & Hs & Hdone). apply does_bind in Hd as (d & w1 & He & Hd). apply does_ret in Hd as [-> ->].
    destruct (Hev _ _ _ _ _ Hg He) as (Hl & Hh & Hready). by eapply fine_quiet.
  - apply does_bind in Hd as ([d2 err] & w1 & He & Hd). apply does_ret in Hd as [-> ->].
    exact (fine_record _ _ _ _ _ _ _ _ _ _ Hf Hi He).
  - destruct done_ as [done_|]; [destruct err as [e|]|].
    + apply does_bind in Hd as (r & w1 & He & Hd). apply does_ret in Hd as [-> ->]. by eapply fine_done.
    + apply does_bind in Hd as (r & w1 & He & Hd). apply does_ret in Hd as [-> ->]. by eapply fine_done.
    + apply does_ret in Hd as [-> ->]. by eapply fine_quiet.
  - apply does_ret in Hd as [-> ->]. by eapply fine_quiet.
Qed.

Lemma fine_time sy w' : fine sy -> later (bs_world sy) w' -> held w' = held (bs_world sy) ->
  fine {| bs_world := w'; bs_calls := bs_calls sy |}.
Proof.
  intros [Hb Hc Hm Hu Hd] Hl Hh. split; cbn; [|clear Hm Hu|exact Hm|exact Hu|].
  - destruct Hl. by eapply within_budget_steady.
  - intros i g c Hi. eapply call_ok_later; eauto.
  - intros i g c Hi Hs. rewrite Hh. eauto.
Qed.

Lemma fine_runs sy key w' : fine sy -> clock (bs_world sy) <= clock w' ->
  ledger w' = run_hold key (ledger (bs_world sy)) -> held w' = held (bs_world sy) ->
  (forall i g c req, bs_calls sy !! i = Some (g, c) -> in_section c = true -> request_of c = Some req ->
     request_key req <> key) ->
  fine {| bs_world := w'; bs_calls := bs_calls sy |}.
Proof.
  intros [Hb Hc Hm Hu Hd] Hl Hr Hh Hkey. split; cbn; [| |exact Hm|exact Hu|].
  - apply (progress_within lim (bs_world sy)); [done| |done]. by rewrite Hr, run_hold_charges.
  - intros i g c Hi. specialize (Hc _ _ _ Hi).
    destruct c as [| | |cfg cx req done_ d|req [done_|] d err|]; try done.
    destruct Hc as (Hg & Hready & Hdone). split; [done|]. split; [|exact Hdone]. intros Hx Hs Hn.
    assert (Hne : request_key req <> key) by (eapply Hkey; [exact Hi|exact Hs|done]).
    destruct (Hready Hx Hs Hn) as (doc & t & Hdoc & Ht & Hfree & Hpast). exists doc, t. split; [done|]. split; [lia|].
    split.
    + unfold slot_free. by rewrite Hr, run_hold_others.
    + intros c. rewrite Hr. unfold run_hold. intros (c0 & -> & Hin)%list_elem_of_fmap. apply Hpast in Hin.
      by destruct (bool_decide _).
  - intros i g c Hi Hs. rewrite Hh. eauto.
Qed.

Lemma fine_sys_step sy sy' : sys_step sy sy' -> fine sy -> fine sy'.
Proof.
  intros [i g config ctx req s Hg Hi|i g c c' w' s Hi Hd Hin|w' s Hl Hh|key w' s Hl Hr Hh Hkey] Hf.
  - destruct Hf as [Hb Hc Hm Hu Hd]. split; cbn; [done|..].
    + intros j gj cj [[<- [= <- <-]]|[_ Hj]]%lookup_insert_Some; [done|eauto].
    + intros j k gj cj ck Hne [[<- [= <- <-]]|[_ Hj]]%lookup_insert_Some; [done|].
      intros [[<- [= <- <-]]|[_ Hk]]%lookup_insert_Some; [done|eauto].
    + intros j k gj gk cj ck Hne [[<- [= <- <-]]|[_ Hj]]%lookup_insert_Some; [done|].
      intros [[<- [= <- <-]]|[_ Hk]]%lookup_insert_Some; [done|eauto].
    + intros j gj cj [[<- [= <- <-]]|[_ Hj]]%lookup_insert_Some; [done|eauto].
  - by eapply fine_goes_on.
  - by apply fine_time.
  - by eapply fine_runs.
Qed.

Definition quiet_system (w : W) : System := {| bs_world := w; bs_calls := ∅ |}.

Lemma fine_quiet_system w : within_budget lim w -> fine (quiet_system w).
Proof. intros Hw. by split. Qed.
End System.

(** ** The property *)

(** C4: budget slots are never oversubscribed: start from a ledger in budget and
    let any number of calls of the gates of one database, each alone or all taking the
    database's budget lock, interleave phase by phase, with time passing and held
    changes running (not while that very request is judged) or being released in
    between; then in every window of 24 hours, whenever it ends, at most the document's
    limit of self-initiated changes of each kind holds or used a slot, a limit of zero
    counting as one.  A call alone runs through its phases as Authorize does. *)
Theorem budget_never_oversubscribed {W} `{BudgetLedger W} `{GoEnv}
    (gates : nat -> option (GateConfig W)) (lim : BudgetKind -> Z) (w : W) (sy : System) :
  (forall g config, gates g = Some config -> keeps_ledger config /\ reads_ledger config /\
     forall ctx req doc kind, saw_policy config ctx req doc ->
       kb_MaxChangesPerWindow (Budget doc kind) <= lim kind) ->
  (forall g g' config, gates g = Some config -> is_Some (gates g') -> g <> g' -> gc_Serialize config <> None) ->
  within_budget lim w -> rtc (sys_step gates) (quiet_system w) sy ->
  (forall kind t, kind = BudgetPerformance \/ kind = BudgetHygiene ->
     spent kind t (ledger (bs_world sy)) <= Z.max 1 (lim kind)) /\
  forall (config : GateConfig W) ctx req w1,
    alone config ctx req w1 = (Returned (Authorize config ctx req w1).1, (Authorize config ctx req w1).2).
Proof.
  intros Hgates Hlocks Hw Hsteps. split; [|intros; apply alone_Authorize].
  assert (Hf : fine gates lim sy); [|apply Hf].
  assert (Hf0 := fine_quiet_system gates lim w Hw). revert Hf0. induction Hsteps as [|s1 s2 s3 Hstep _ IH]; [done|].
  intros Hf. apply IH. by eapply fine_sys_step.
Qed.

(** ** A concrete ledger *)

(** A list of charges, the time and the lock. *)
Record BudgetWorld : Type := { bw_ledger : list Charge; bw_clock : Time; bw_held : bool }.
#[export] Instance world_ledger : BudgetLedger BudgetWorld :=
  {| ledger := bw_ledger; clock := bw_clock; held := bw_held |}.

Definition set_held (b : bool) (w : BudgetWorld) : BudgetWorld :=
  {| bw_ledger := bw_ledger w; bw_clock := bw_clock w; bw_held := b |}.

Definition world_usage (req : ActionRequest) (w : BudgetWorld) : LimitUsage :=
  {| lu_StorageBytes := 0; lu_RowsRewritten := 0; lu_RequestRowsRewritten := 0;
     lu_TablesInWindow := 0;
     lu_SelfInitiatedChangesInWindow :=
       count (fun c => in_window (BudgetKindFor req) (bw_clock w - BudgetWindow) (bw_clock w) c &&
                       negb (held_by req c)) (bw_ledger w);
     lu_TablesFreeAt := 0; lu_ChangesFreeAt := 0; lu_RowsFreeAt := 0 |}.

Definition world_record (req : ActionRequest) (d : Decision) (w : BudgetWorld) : BudgetWorld :=
  {| bw_ledger :=
       if verdict_eqb (dec_Verdict d) VerdictExecute && self_spending req
       then {| ch_kind := charged_kind req d; ch_at := bw_clock w;
               ch_hold := Some (request_key req) |}
            :: List.filter (fun c => negb (held_by req c)) (bw_ledger w)
       else bw_ledger w;
     bw_clock := bw_clock w; bw_held := bw_held w |}.

Definition ledger_gate (rt : RuntimeState) (doc : Document) : GateConfig BudgetWorld :=
  {| gc_Runtime := Some (fun _ _ => ret (Ok rt)); gc_ValidateSQL := Some (fun _ => Ok tt);
     gc_Policy := Some (fun _ _ => ret (Ok doc));
     gc_Usage := Some (fun _ req w => (Ok (world_usage req w), w));
     gc_WindowObserved := None; gc_RecordDecision := None;
     gc_RecordDecisionDetailed := Some (fun _ req d w => (Ok ("e", 1), world_record req d w));
     gc_Now := None; gc_SystemNow := fun w => (bw_clock w, w);
     gc_Autonomy := None;
     gc_Serialize := Some (fun ctx _ w =>
       if bw_held w then (Err "canceling statement due to lock timeout", w)
       else (Ok (ctx, fun _ w => (Ok tt, set_held false w)), set_held true w));
     gc_Facts := None; gc_Verification := None;
     gc_Agents := None |}.

Lemma ledger_gate_keeps rt doc : keeps_ledger (ledger_gate rt doc).
Proof.
  constructor; try done; cbn.
  1-3: by intros f ctx req [= <-] w.
  - intros f ctx req w r w' [= <-]. unfold does. destruct (bw_held w) eqn:E; intros [= <- <-]; cbn; auto with lia.
  - intros f ctx req ctx' done_ b w r w' [= <-] [w0 Hr] Hd. unfold value_at in Hr. revert Hr.
    destruct (bw_held w0); cbn; [done|]. intros [= <- <-]. injection Hd as <- <-. cbn. auto with lia.
Qed.

Lemma ledger_gate_reads rt doc : reads_ledger (ledger_gate rt doc).
Proof.
  constructor; simpl; (eexists; split; [done|]).
  - intros ctx req w u w' [= <- <-]. exists (bw_clock w). simpl. split; lia.
  - intros ctx req d w r w' [= <- <-]. split; [done|]. exists (bw_clock w). simpl. split; [lia|].
    by destruct (_ && _).
Qed.

Definition empty_world : BudgetWorld := {| bw_ledger := []; bw_clock := sample_now; bw_held := false |}.

(** ** Calls played in turn *)

Section Turns.
Context `{GoEnv} (gates : nat -> option (GateConfig BudgetWorld)).

(** A turn: a new call of a gate, or a call's next phase. *)
Inductive turn : Type :=
| Arrive (i g : nat) (ctx : Ctx) (req : ActionRequest)
| Go (i : nat).

Definition mutex_free (g : nat) (sy : @System BudgetWorld) : bool :=
  forallb (fun x => negb ((x.2.1 =? g)%nat && in_section x.2.2)) (map_to_list (bs_calls sy)).

Definition take_turn (t : turn) (sy : @System BudgetWorld) : option (@System BudgetWorld) :=
  match t with
  | Arrive i g ctx req =>
      match gates g, bs_calls sy !! i with
      | Some config, None =>
          Some {| bs_world := bs_world sy;
                  bs_calls := <[i := (g, Starting config ctx (gate_request ctx req))]> (bs_calls sy) |}
      | _, _ => None
      end
  | Go i =>
      match bs_calls sy !! i with
      | Some (g, c) =>
          let '(c', w') := call_step c (bs_world sy) in
          if negb (in_section c) && in_section c' && negb (mutex_free g sy) then None
          else Some {| bs_world := w'; bs_calls := <[i := (g, c')]> (bs_calls sy) |}
      | None => None
      end
  end.

Fixpoint play (ts : list turn) (sy : @System BudgetWorld) : option (@System BudgetWorld) :=
  match ts with [] => Some sy | t :: ts => match take_turn t sy with Some sy => play ts sy | None => None end end.

Lemma take_turn_step t sy sy' : take_turn t sy = Some sy' -> sys_step gates sy sy'.
Proof.
  destruct t as [i g ctx req|i]; cbn.
  - destruct (gates g) as [config|] eqn:Eg, (bs_calls sy !! i) eqn:Ei; try done. intros [= <-]. by apply call_arrives.
  - destruct (bs_calls sy !! i) as [[g c]|] eqn:Ei; [|done]. destruct (call_step c (bs_world sy)) as [c' w'] eqn:Ed.
    destruct (_ && _) eqn:Em; [done|]. intros [= <-]. eapply call_goes_on; [exact Ei|exact Ed|].
    intros Hc Hc' j cj Hj. rewrite Hc, Hc' in Em. cbn in Em. apply negb_false_iff in Em. unfold mutex_free in Em.
    rewrite forallb_forall in Em. specialize (Em (j, (g, cj)) ltac:(apply list_elem_of_In, elem_of_map_to_list, Hj)).
    cbn in Em. rewrite Nat.eqb_refl in Em. by apply negb_true_iff in Em.
Qed.

Lemma play_steps ts sy sy' : play ts sy = Some sy' -> rtc (sys_step gates) sy sy'.
Proof.
  revert sy. induction ts as [|t ts IH]; intros sy; cbn; [intros [= ->]; apply rtc_refl|].
  destruct (take_turn t sy) as [sy1|] eqn:E; [|done]. intros Hp. eapply rtc_l; [by apply take_turn_step in E|auto].
Qed.
End Turns.

(** Two gates and three different index changes, with room for two: the second call
    arrives while the first judges, and the third, of the first gate, waits for its
    mutex and finds the window full. *)
Definition index_change (t : string) : ActionRequest :=
  sample_request index_contract ChangeIndex ("CREATE INDEX ON " +:+ t) t.

Definition two_gates (g : nat) : option (GateConfig BudgetWorld) :=
  if (g <? 2)%nat then Some (ledger_gate autonomous sample_document) else None.

Definition three_changes : list turn :=
  [Arrive 1 0 sample_ctx (index_change "public.a"); Go 1; Go 1; Arrive 2 1 sample_ctx (index_change "public.b");
   Arrive 3 0 sample_ctx (index_change "public.c"); Go 2; Go 1; Go 1; Go 1; Go 2; Go 2; Go 2; Go 2; Go 3; Go 3; Go 3;
   Go 3; Go 3].

Definition outcome (o : option (@System BudgetWorld)) (i : nat) : option Verdict :=
  match o with
  | Some sy => match bs_calls sy !! i with Some (_, Returned d) => Some (dec_Verdict d) | _ => None end
  | None => None
  end.

Definition after_three : option (@System BudgetWorld) := play two_gates three_changes (quiet_system empty_world).

Lemma budget_never_oversubscribed_witness : exists sy,
  after_three = Some sy /\ map (outcome after_three) [1; 2; 3]%nat = map Some [VerdictExecute; VerdictExecute; VerdictPark] /\
  spent BudgetPerformance sample_now (ledger (bs_world sy)) <= 2.
Proof.
  assert (He : exists sy, after_three = Some sy).
  { assert (Hs : match after_three with Some _ => true | None => false end = true) by (vm_compute; reflexivity).
    destruct after_three as [sy|]; [by exists sy|done]. }
  destruct He as [sy Hsy]. exists sy. split; [exact Hsy|]. split; [vm_compute; reflexivity|].
  assert (Hsteps : rtc (sys_step two_gates) (quiet_system empty_world) sy).
  { unfold after_three in Hsy. exact (play_steps two_gates three_changes _ _ Hsy). }
  clear Hsy. apply (budget_never_oversubscribed two_gates (fun _ => 2) empty_world sy); [| | |exact Hsteps|by left].
  - intros g config. unfold two_gates. destruct (g <? 2)%nat; [|done]. intros [= <-].
    split; [apply ledger_gate_keeps|]. split; [apply ledger_gate_reads|].
    intros ctx req doc kind Hd. apply returns_ret in Hd as [= ->].
    unfold Budget. simpl. destruct (kind =s BudgetHygiene); simpl; lia.
  - intros g g' config. unfold two_gates. destruct (g <? 2)%nat; [|done]. by intros [= <-].
  - split; [by intros c ?%elem_of_nil|]. intros kind t _. done.
Defined.
