(* ===== verification/Sha256.v ===== *)
(** * SHA-256, base32 and hexadecimal text

    crypto/sha256, encoding/base32 and encoding/hex of the Go standard library,
    as the agent role names and the decision hashes use them.  A byte is a
    character; a 32-bit word is a [Z] below [2 ^ 32]. *)

From S2P Require Import Prelude.
From S2P Require Import GoStd.

(** ** 32-bit words *)

Definition mask32 : Z := 2 ^ 32 - 1.
Definition add32 (a b : Z) : Z := Z.land (a + b) mask32.
Definition rotr32 (n x : Z) : Z :=
  Z.lor (Z.shiftr x n) (Z.land (Z.shiftl x (32 - n)) mask32).
Definition not32 (x : Z) : Z := Z.lxor x mask32.

Definition sha_Ch (x y z : Z) : Z := Z.lxor (Z.land x y) (Z.land (not32 x) z).
Definition sha_Maj (x y z : Z) : Z :=
  Z.lxor (Z.lxor (Z.land x y) (Z.land x z)) (Z.land y z).
Definition sha_Sigma0 (x : Z) : Z := Z.lxor (Z.lxor (rotr32 2 x) (rotr32 13 x)) (rotr32 22 x).
Definition sha_Sigma1 (x : Z) : Z := Z.lxor (Z.lxor (rotr32 6 x) (rotr32 11 x)) (rotr32 25 x).
Definition sha_sigma0 (x : Z) : Z :=
  Z.lxor (Z.lxor (rotr32 7 x) (rotr32 18 x)) (Z.shiftr x 3).
Definition sha_sigma1 (x : Z) : Z :=
  Z.lxor (Z.lxor (rotr32 17 x) (rotr32 19 x)) (Z.shiftr x 10).

(** The constants of the standard are the first 32 bits of the fractional parts
    of the cube roots of the first sixty-four primes, and of the square roots of
    the first eight.  They are computed here from that definition. *)
Definition is_prime (n : Z) : bool :=
  forallb (fun d => negb (n mod Z.of_nat d =? 0)) (seq 2 (Z.to_nat n - 2)).

Definition small_primes : list Z :=
  Eval vm_compute in List.filter is_prime (map Z.of_nat (seq 2 310)).

(** The largest [r] with [r ^ 3 <= z], bit by bit from [2 ^ n]. *)
Fixpoint cube_root (n : nat) (z r : Z) : Z :=
  let r' := r + 2 ^ Z.of_nat n in
  let r'' := if r' ^ 3 <=? z then r' else r in
  match n with O => r'' | S n' => cube_root n' z r'' end.

Definition sha_K : list Z :=
  Eval vm_compute in
    map (fun p => Z.land (cube_root 36 (Z.shiftl p 96) 0) mask32) small_primes.

Record sha_state : Type := sha_mk {
  sha_a : Z; sha_b : Z; sha_c : Z; sha_d : Z; sha_e : Z; sha_f : Z; sha_g : Z; sha_h : Z;
}.

Definition sha_init : sha_state :=
  Eval vm_compute in
    let h k := Z.land (Z.sqrt (Z.shiftl (nth k small_primes 0) 64)) mask32 in
    sha_mk (h 0%nat) (h 1%nat) (h 2%nat) (h 3%nat) (h 4%nat) (h 5%nat) (h 6%nat) (h 7%nat).

(** ** The compression function *)

(** The message schedule, newest word first; [n] more words are added. *)
Fixpoint sha_schedule (n : nat) (rev : list Z) : list Z :=
  match n with
  | O => List.rev rev
  | S n' =>
      let w k := nth k rev 0 in
      sha_schedule n'
        (add32 (add32 (sha_sigma1 (w 1%nat)) (w 6%nat)) (add32 (sha_sigma0 (w 14%nat)) (w 15%nat))
         :: rev)
  end.

Definition sha_round (s : sha_state) (kw : Z * Z) : sha_state :=
  let t1 := add32 (add32 (add32 (sha_h s) (sha_Sigma1 (sha_e s)))
                         (sha_Ch (sha_e s) (sha_f s) (sha_g s)))
                  (add32 kw.1 kw.2) in
  let t2 := add32 (sha_Sigma0 (sha_a s)) (sha_Maj (sha_a s) (sha_b s) (sha_c s)) in
  sha_mk (add32 t1 t2) (sha_a s) (sha_b s) (sha_c s) (add32 (sha_d s) t1)
         (sha_e s) (sha_f s) (sha_g s).

Definition sha_block (s : sha_state) (words : list Z) : sha_state :=
  let r := foldl sha_round s (zip sha_K (sha_schedule 48 (List.rev words))) in
  sha_mk (add32 (sha_a s) (sha_a r)) (add32 (sha_b s) (sha_b r)) (add32 (sha_c s) (sha_c r))
         (add32 (sha_d s) (sha_d r)) (add32 (sha_e s) (sha_e r)) (add32 (sha_f s) (sha_f r))
         (add32 (sha_g s) (sha_g r)) (add32 (sha_h s) (sha_h r)).

(** ** Padding and blocks *)

Fixpoint be_bytes (n : nat) (z : Z) : list Z :=
  match n with O => [] | S n' => be_bytes n' (z / 256) ++ [z mod 256] end.

Fixpoint be_word (acc : Z) (l : list Z) : Z :=
  match l with [] => acc | b :: l' => be_word (acc * 256 + b) l' end.

Definition sha_pad (msg : list Z) : list Z :=
  let len := Z.of_nat (length msg) in
  msg ++ [128] ++ replicate (Z.to_nat ((55 - len) mod 64)) 0 ++ be_bytes 8 (len * 8).

(** [n] pieces of [k] elements. *)
Fixpoint chunks {A} (n k : nat) (l : list A) : list (list A) :=
  match n with O => [] | S n' => take k l :: chunks n' k (drop k l) end.

Definition sha_blocks (msg : list Z) : list (list Z) :=
  let bytes := sha_pad msg in
  map (fun block => map (be_word 0) (chunks 16 4 block))
      (chunks (length bytes / 64)%nat 64 bytes).

Definition bytes_of (s : string) : list Z := map code (str_chars s).

Definition sha_digest (s : sha_state) : list Z :=
  concat (map (be_bytes 4)
    [sha_a s; sha_b s; sha_c s; sha_d s; sha_e s; sha_f s; sha_g s; sha_h s]).

(** [sha256.Sum256([]byte(s))] *)
Definition Sum256 (s : string) : list Z :=
  sha_digest (foldl sha_block sha_init (sha_blocks (bytes_of s))).

(** ** Text encodings *)

Fixpoint hex_encode (bytes : list Z) : string :=
  match bytes with
  | [] => ""
  | b :: bytes' => String (hex_digit (b / 16)) (String (hex_digit (b mod 16)) (hex_encode bytes'))
  end.

Example sha256_abc :
  hex_encode (Sum256 "abc") = "ba7816bf8f01cfea414140de5dae2223b00361a396177a9cb410ff61f20015ad".
Proof. by vm_compute. Qed.

(** The bits of a byte, most significant first. *)
Definition byte_bits (b : Z) : list bool := map (Z.testbit b) [7; 6; 5; 4; 3; 2; 1; 0].

Fixpoint bits_val (acc : Z) (l : list bool) : Z :=
  match l with [] => acc | b :: l' => bits_val (2 * acc + Z.b2z b) l' end.

(** Base32 without padding: five bits a character, the last group filled with
    zeros. *)
Definition base32_encode (char : Z -> ascii) (bytes : list Z) : string :=
  let bits := concat (map byte_bits bytes) in
  let n := ((length bits + 4) / 5)%nat in
  foldr (fun group s => String (char (bits_val 0 (take 5 (group ++ replicate 5 false)))) s) ""
    (chunks n 5 bits).

(** ** Lengths *)

Lemma be_bytes_length n z : length (be_bytes n z) = n.
Proof. revert z. induction n; intros; simpl; [done|]. rewrite length_app, IHn. simpl. lia. Qed.

Lemma Sum256_length s : length (Sum256 s) = 32%nat.
Proof. unfold Sum256, sha_digest. cbn [map concat]. by rewrite !length_app, !be_bytes_length. Qed.

Lemma chunks_length {A} n k (l : list A) : length (chunks n k l) = n.
Proof. revert l. induction n; intros; simpl; auto. Qed.

Lemma bits_val_range l acc :
  0 <= acc -> 0 <= bits_val acc l < (acc + 1) * 2 ^ Z.of_nat (length l).
Proof.
  revert acc. induction l as [|b l IH]; intros acc Hacc; simpl length; simpl bits_val; [lia|].
  rewrite Nat2Z.inj_succ, Z.pow_succ_r by lia.
  specialize (IH (2 * acc + Z.b2z b)). destruct b; simpl Z.b2z in *; nia.
Qed.

Lemma five_bits group : 0 <= bits_val 0 (take 5 (group ++ replicate 5 false)) < 32.
Proof.
  pose proof (bits_val_range (take 5 (group ++ replicate 5 false)) 0) as H.
  rewrite length_take, length_app, length_replicate in H.
  replace (5 `min` (length group + 5))%nat with 5%nat in H by lia.
  change (2 ^ Z.of_nat 5) with 32 in H. lia.
Qed.

Lemma string_of_length {A} (f : A -> ascii) l :
  String.length (foldr (fun a s => String (f a) s) "" l) = length l.
Proof. induction l; simpl; auto. Qed.

Lemma base32_length char bytes :
  String.length (base32_encode char bytes) = ((length bytes * 8 + 4) / 5)%nat.
Proof.
  unfold base32_encode. set (bits := concat _).
  assert (Hbits : length bits = (length bytes * 8)%nat).
  { subst bits. induction bytes; simpl; [done|]. lia. }
  by rewrite string_of_length, chunks_length, Hbits.
Qed.

(** Every character is one of the alphabet's. *)
Lemma base32_alphabet char bytes c :
  c ∈ str_chars (base32_encode char bytes) -> exists k, 0 <= k < 32 /\ c = char k.
Proof.
  unfold base32_encode. induction (chunks _ 5 _) as [|g l IH]; simpl; [by intros ?%elem_of_nil|].
  intros [->|Hc]%elem_of_cons; [|auto]. eauto using five_bits.
Qed.
