(* ===== verification/Principal.v ===== *)
(** * Agent principals

    internal/agentguard: principal.go (identities, statuses, environment
    ceilings, role names), access.go (how far a principal may go with a kind of
    tool) and the reason codes and denials of errors.go. *)

From S2P Require Import Prelude.
From S2P Require Import GoStd.
From S2P Require Import Sha256.

(** ** Reasons and denials *)

Abbreviation Reason := string (only parsing).
Definition ReasonFrozen : Reason := "agent_frozen".
Definition ReasonUnsponsored : Reason := "agent_unsponsored".
Definition ReasonLevel0 : Reason := "agent_level0".
Definition ReasonRetired : Reason := "agent_retired".

Record DeniedError : Type := {
  de_Reason : Reason;
  de_Detail : string;
  de_Fix : string;
}.

(** ** Environment ceilings *)

Abbreviation Env := string (only parsing).
Definition EnvBranch : Env := "branch".
Definition EnvDev : Env := "dev".
Definition EnvStage : Env := "stage".
Definition EnvProd : Env := "prod".

(** A missing key reads as 0. *)
Definition envRank (e : Env) : Z :=
  if e =s EnvBranch then 1 else if e =s EnvDev then 2 else
  if e =s EnvStage then 3 else if e =s EnvProd then 4 else 0.

Definition Env_Valid (e : Env) : bool := 0 <? envRank e.
Definition Env_Rank (e : Env) : Z := envRank e.

Definition MinEnv (a b : Env) : Env :=
  if negb (Env_Valid a) || negb (Env_Valid b) then EnvBranch else
  if Env_Rank a <=? Env_Rank b then a else b.

(** ** Statuses and principals *)

Abbreviation Status := string (only parsing).
Definition StatusActive : Status := "active".
Definition StatusFrozen : Status := "frozen".
Definition StatusRetired : Status := "retired".

Definition Status_Valid (s : Status) : bool :=
  (s =s StatusActive) || (s =s StatusFrozen) || (s =s StatusRetired).

Record Principal : Type := {
  p_ID : string;
  p_Name : string;
  p_SponsorUserID : option Z;
  p_Tenant : string;
  p_Profile : string;
  p_EnvCeiling : Env;
  p_Status : Status;
  p_FrozenReason : string;
  p_CreatedBy : string;
  p_CreatedAt : Time;
  p_UpdatedAt : Time;
  p_SponsorActive : bool;
  p_Tainted : bool;
}.

Definition Sponsored (p : Principal) : bool :=
  match p_SponsorUserID p with Some _ => p_SponsorActive p | None => false end.
Definition Frozen (p : Principal) : bool := p_Status p =s StatusFrozen.
Definition Retired (p : Principal) : bool := p_Status p =s StatusRetired.

(** ** Identifiers and role names *)

(** [^[class]{n}$] on the rest of a name. *)
Definition run_of (class : ascii -> bool) (n : nat) (s : string) : bool :=
  Nat.eqb (String.length s) n && forallb class (str_chars s).

(** [[a-z2-7]] *)
Definition is_base32 (c : ascii) : bool := is_lower c || ((50 <=? code c) && (code c <=? 55)).
(** [[a-z0-9-]] *)
Definition is_slug (c : ascii) : bool := is_lower c || is_digit c || (code c =? 45).

(** [prefix] followed by [n] base32 characters. *)
Definition base32_name (prefix : string) (n : nat) (s : string) : bool :=
  HasPrefix s prefix && run_of is_base32 n (drop_chars (String.length prefix) s).

Definition ValidID (id : string) : bool := base32_name "agp_" 20 id.

Definition ValidName (name : string) : bool :=
  match name with
  | EmptyString => false
  | String c rest =>
      is_lower c && ((1 <=? String.length rest)%nat && (String.length rest <=? 62)%nat) &&
      forallb is_slug (str_chars rest)
  end.

Definition IsAgentRoleName (name : string) : bool :=
  base32_name "sage_agent_" 10 name || base32_name "sage_agentb_" 10 name.

Definition lowerBase32_char (k : Z) : ascii :=
  match String.get (Z.to_nat k) "abcdefghijklmnopqrstuvwxyz234567" with
  | Some c => c
  | None => "a"
  end%char.
Definition lowerBase32 (bytes : list Z) : string := base32_encode lowerBase32_char bytes.

(** [rand.Read] of a buffer of the given size is the argument [read]. *)
Definition randomBase32 (read : nat -> result (list Z)) (n : nat) : result string :=
  match read ((n * 5 + 7) / 8)%nat with
  | Err e => Err ("agentguard: random id: " +:+ e)
  | Ok buf => Ok (take_chars n (lowerBase32 buf))
  end.

Definition NewID (read : nat -> result (list Z)) : result string :=
  let? s := randomBase32 read 20 in Ok ("agp_" +:+ s).

Definition roleSuffix (principalID : string) : string :=
  take_chars 10 (ToLower (lowerBase32 (Sum256 principalID))).

Definition LoginRoleName (principalID : string) : string :=
  "sage_agent_" +:+ roleSuffix principalID.
Definition BrokerRoleName (principalID : string) : string :=
  "sage_agentb_" +:+ roleSuffix principalID.
Definition LoginRole (p : Principal) : string := LoginRoleName (p_ID p).
Definition BrokerRole (p : Principal) : string := BrokerRoleName (p_ID p).

(** ** How far a principal may go with a kind of tool: access.go *)

Abbreviation ToolKind := string (only parsing).
Definition ToolRead : ToolKind := "read".
Definition ToolPropose : ToolKind := "propose".
Definition ToolAgent : ToolKind := "agent".

Record Access : Type := {
  acc_Allowed : bool;
  acc_MaxLevel : Z;
  acc_Reason : Reason;
}.
Definition refuse_access (reason : Reason) : Access :=
  {| acc_Allowed := false; acc_MaxLevel := 0; acc_Reason := reason |}.
Definition allow_access (level : Z) : Access :=
  {| acc_Allowed := true; acc_MaxLevel := level; acc_Reason := "" |}.

Definition ProposeCap : Z := 2.

Definition ToolAccess (p : Principal) (kind : ToolKind) : Access :=
  if Retired p || negb (Status_Valid (p_Status p)) then refuse_access ReasonRetired else
  if kind =s ToolRead then allow_access 3 else
  if (kind <>s ToolPropose) && (kind <>s ToolAgent) then refuse_access ReasonLevel0 else
  if Frozen p then refuse_access ReasonFrozen else
  if (kind =s ToolAgent) && negb (Sponsored p) then refuse_access ReasonUnsponsored else
  if (kind =s ToolPropose) || p_Tainted p then allow_access ProposeCap else
  allow_access 3.

(** * Properties *)

(** ** Ceilings *)

Lemma MinEnv_valid a b : Env_Valid (MinEnv a b) = true.
Proof.
  unfold MinEnv. destruct (Env_Valid a) eqn:Ea, (Env_Valid b) eqn:Eb; try done.
  simpl. by destruct (_ <=? _).
Qed.

Lemma MinEnv_lower a b :
  Env_Valid a = true -> Env_Valid b = true ->
  Env_Rank (MinEnv a b) <= Env_Rank a /\ Env_Rank (MinEnv a b) <= Env_Rank b.
Proof.
  intros Ha Hb. unfold MinEnv. rewrite Ha, Hb. simpl. destruct (Z.leb_spec (Env_Rank a) (Env_Rank b)); lia.
Qed.

(** ** Names *)

Lemma HasPrefix_app p s : HasPrefix (p +:+ s) p = true.
Proof. induction p as [|c p IH]; simpl; [by destruct s|]. by rewrite IH, andb_true_r, Ascii.eqb_refl. Qed.

Lemma drop_chars_app p s : drop_chars (String.length p) (p +:+ s) = s.
Proof. induction p; simpl; auto. Qed.

Lemma take_chars_length n s :
  (n <= String.length s)%nat -> String.length (take_chars n s) = n.
Proof.
  revert s. induction n as [|n IH]; intros [|c s] H; simpl in *; [done|done|lia|].
  rewrite IH; lia.
Qed.

Lemma take_chars_in n s c : c ∈ str_chars (take_chars n s) -> c ∈ str_chars s.
Proof.
  revert s. induction n as [|n IH]; intros [|d s]; simpl; try by intros ?%elem_of_nil.
  rewrite !elem_of_cons. naive_solver.
Qed.

Lemma str_map_length f s : String.length (str_map f s) = String.length s.
Proof. induction s; simpl; auto. Qed.

Lemma str_map_in f s c : c ∈ str_chars (str_map f s) -> exists d, d ∈ str_chars s /\ c = f d.
Proof.
  induction s as [|d s IH]; simpl; [by intros ?%elem_of_nil|].
  intros [->|Hc]%elem_of_cons; [exists d; split; [apply elem_of_cons; auto|done]|].
  destruct (IH Hc) as (d' & ? & ->). exists d'. rewrite elem_of_cons. auto.
Qed.

(** The alphabet is in the class, and lower case. *)
Lemma lowerBase32_alphabet k :
  0 <= k < 32 ->
  is_base32 (lowerBase32_char k) = true /\
  lower_char (lowerBase32_char k) = lowerBase32_char k.
Proof.
  intros Hk. set (ok := fun k => let c := lowerBase32_char k in
    is_base32 c && char_eqb (lower_char c) c).
  assert (Hall : forallb ok (seqZ 0 32) = true) by by vm_compute.
  rewrite forallb_forall in Hall. specialize (Hall k).
  rewrite <- list_elem_of_In, elem_of_seqZ in Hall. unfold ok in Hall.
  rewrite andb_true_iff in Hall. unfold char_eqb in Hall. rewrite Ascii.eqb_eq in Hall.
  apply Hall. lia.
Qed.

Lemma base32_name_app prefix n s :
  base32_name prefix n (prefix +:+ s) = run_of is_base32 n s.
Proof. unfold base32_name. by rewrite HasPrefix_app, drop_chars_app. Qed.

Lemma run_of_take class n s :
  (n <= String.length s)%nat -> (forall c, c ∈ str_chars s -> class c = true) ->
  run_of class n (take_chars n s) = true.
Proof.
  intros Hn Hs. unfold run_of. rewrite take_chars_length, Nat.eqb_refl by done. simpl.
  apply forallb_forall. intros c Hc. by apply Hs, (take_chars_in n), list_elem_of_In.
Qed.

Lemma roleSuffix_run id : run_of is_base32 10 (roleSuffix id) = true.
Proof.
  unfold roleSuffix, ToLower, lowerBase32. apply run_of_take.
  - rewrite str_map_length, base32_length, Sum256_length. by vm_compute; lia.
  - intros c (d & (k & Hk & ->)%base32_alphabet & ->)%str_map_in.
    destruct (lowerBase32_alphabet k Hk) as [Hb Hl]. by rewrite Hl.
Qed.

(** The two role names of a principal match the pattern every agent role
    is recognised by, and a direct-lane role is never a brokered-lane role, of
    the same or of another principal. *)
Theorem role_names_recognised id other :
  IsAgentRoleName (LoginRoleName id) = true /\ IsAgentRoleName (BrokerRoleName id) = true /\
  LoginRoleName id <> BrokerRoleName other.
Proof.
  unfold IsAgentRoleName, LoginRoleName, BrokerRoleName.
  rewrite !base32_name_app, !roleSuffix_run, orb_true_r. split_and!; [done..|].
  intros [=].
Qed.

(** An id minted from a full random buffer is a valid principal id. *)
Theorem NewID_valid read buf :
  read 13%nat = Ok buf -> length buf = 13%nat ->
  exists id, NewID read = Ok id /\ ValidID id = true.
Proof.
  intros Hr Hl. unfold NewID, randomBase32. change ((20 * 5 + 7) / 8)%nat with 13%nat.
  rewrite Hr. cbn [rbind]. eexists. split; [reflexivity|]. unfold ValidID.
  rewrite base32_name_app. apply run_of_take.
  - unfold lowerBase32. rewrite base32_length, Hl. by vm_compute; lia.
  - intros c (k & Hk & ->)%base32_alphabet. by apply lowerBase32_alphabet.
Qed.

Lemma NewID_valid_witness :
  let read := fun n : nat => Ok (replicate n 171) in
  exists id, NewID read = Ok id /\ ValidID id = true.
Proof. intros read. apply (NewID_valid read (replicate 13 171)); reflexivity. Defined.

(** ** Access *)

(** What an allowed access says about the principal. *)
Lemma ToolAccess_allowed p kind :
  acc_Allowed (ToolAccess p kind) = true ->
  (p_Status p = StatusActive \/ p_Status p = StatusFrozen /\ kind = ToolRead) /\
  (kind = ToolRead \/ kind = ToolPropose \/ kind = ToolAgent) /\
  (kind = ToolAgent -> Sponsored p = true) /\
  0 <= acc_MaxLevel (ToolAccess p kind) <= 3 /\
  (kind = ToolPropose \/ kind = ToolAgent /\ p_Tainted p = true ->
     acc_MaxLevel (ToolAccess p kind) = ProposeCap).
Proof.
  unfold ToolAccess, Retired, Frozen, Status_Valid.
  destruct (p_Status p =s StatusRetired) eqn:Er; [done|].
  destruct (p_Status p =s StatusActive) eqn:Ea, (p_Status p =s StatusFrozen) eqn:Ef;
    simpl; try done.
  all: destruct (kind =s ToolRead) eqn:Ekr, (kind =s ToolPropose) eqn:Ekp,
    (kind =s ToolAgent) eqn:Eka; simpl; try done.
  all: repeat match goal with
    | H : (_ =s _) = true |- _ => apply eqb_str in H
    | H : (_ =s _) = false |- _ => apply neqb_str in H
    end; subst; try done.
  all: try (destruct (Sponsored p) eqn:Es; simpl; [|done]).
  all: try destruct (p_Tainted p) eqn:Et; simpl; intros _; unfold ProposeCap.
  all: split_and!; intros; simplify_eq; auto; try lia; try (naive_solver congruence).
Qed.
