(* ===== verification/Envbind.v ===== *)
(** * Environments and physical identities

    internal/agentguard/envbind: env.go (labels and identities) and evaluate.go
    (what environment a database evaluates as); the clone receipts it reads are
    those of internal/clone/receipt.go. *)

From S2P Require Import Prelude.
From S2P Require Import GoStd.

(** ** Labels *)

Abbreviation Env := string (only parsing).
Definition EnvBranch : Env := "branch".
Definition EnvDev : Env := "dev".
Definition EnvStage : Env := "stage".
Definition EnvProd : Env := "prod".

(** The map [ranks]. *)
Definition ranks (e : Env) : option Z :=
  if e =s EnvBranch then Some 0 else if e =s EnvDev then Some 1 else
  if e =s EnvStage then Some 2 else if e =s EnvProd then Some 3 else None.

Definition ErrInvalidEnv : string :=
  "envbind: environment must be branch, dev, stage or prod".

Definition ParseEnv (s : string) : result Env :=
  match ranks s with
  | None => Err (ErrInvalidEnv +:+ ": got " +:+ quote s)
  | Some _ => Ok s
  end.

Definition Rank (e : Env) : Z := match ranks e with Some r => r | None => 3 end.

Definition Within (e ceiling : Env) : bool := Rank e <=? Rank ceiling.
Definition Widens (from to : Env) : bool := Rank to <? Rank from.

(** ** Identities *)

Abbreviation Strength := string (only parsing).
Definition StrengthConfigured : Strength := "configured".
Definition StrengthProvider : Strength := "provider".
Definition StrengthCluster : Strength := "cluster".

Definition RefCloudTel : string := "cloudtel".
Definition RefReceipt : string := "receipt".

Record Identity : Type := {
  id_ProviderRef : string;
  id_RefSource : string;
  id_SystemIdentifier : string;
  id_DBOID : Z;
  id_Target : string;
  id_InRecovery : bool;
}.

#[export] Instance Identity_eq_dec : EqDecision Identity.
Proof. solve_decision. Defined.

Definition PhysicalKey (i : Identity) : string :=
  if (id_SystemIdentifier i =s "") || (id_DBOID i =? 0) then ""
  else id_SystemIdentifier i +:+ "/" +:+ itoa (id_DBOID i).

Definition Identity_Strength (i : Identity) : Strength :=
  if PhysicalKey i <>s "" then StrengthCluster else
  if id_ProviderRef i <>s "" then StrengthProvider else StrengthConfigured.

Definition Epoch (i : Identity) : string :=
  if PhysicalKey i <>s "" then PhysicalKey i else
  if id_ProviderRef i <>s "" then id_ProviderRef i else "unknown".

Definition Diff (i other : Identity) : list string :=
  (if id_ProviderRef i <>s id_ProviderRef other then ["provider_ref"] else []) ++
  (if id_SystemIdentifier i <>s id_SystemIdentifier other then ["system_identifier"] else []) ++
  (if negb (id_DBOID i =? id_DBOID other) then ["db_oid"] else []) ++
  (if id_Target i <>s id_Target other then ["target"] else []).

Definition distinguished (a b : Identity) : bool :=
  if id_ProviderRef a =s id_ProviderRef b then false else
  if (id_RefSource a =s RefReceipt) || (id_RefSource b =s RefReceipt) then true else
  (id_ProviderRef a <>s "") && (id_ProviderRef b <>s "").

(** ** Clone receipts *)

Record Receipt : Type := {
  rc_ID : Z;
  rc_DeploymentID : string;
  rc_Adapter : string;
  rc_Scope : string;
  rc_Ref : string;
  rc_Name : string;
  rc_Purpose : string;
  rc_PrincipalID : string;
  rc_SourceDatabaseID : string;
  rc_Masked : bool;
  rc_Status : string;
  rc_ExpiresAt : Time;
  rc_CreatedAt : Time;
  rc_UpdatedAt : Time;
}.

Definition ProviderRef (r : Receipt) : string :=
  if rc_Ref r =s "" then "" else rc_Adapter r +:+ ":" +:+ rc_Ref r.

(** ** What a database evaluates as *)

Definition ReasonDefaultProd : string := "default_prod".
Definition ReasonLabelProd : string := "label_prod".
Definition ReasonVerified : string := "verified".
Definition ReasonLabelUnverified : string := "label_unverified".
Definition ReasonBindingChanged : string := "binding_changed".
Definition ReasonUnverifiable : string := "identity_unverifiable".
Definition ReasonReceiptMissing : string := "receipt_missing".
Definition ReasonReceiptMismatch : string := "receipt_mismatch".
Definition ReasonTwoLabels : string := "two_labels".
Definition ReasonNoControl : string := "no_control_database".
Definition ReasonUnbound : string := "unbound".
Definition ReasonIdentityUnreadable : string := "identity_unreadable".

Record LabelRecord : Type := {
  lr_DatabaseID : string;
  lr_Label : Env;
  lr_Identity : Identity;
  lr_Verified : bool;
  lr_SetBy : string;
  lr_SetAt : Time;
  lr_Observed : option Identity;
  lr_ObservedAt : option Time;
  lr_PendingLabel : Env;
  lr_PendingBy : string;
  lr_PendingAt : option Time;
}.

Record Peer : Type := {
  peer_DatabaseID : string;
  peer_Label : Env;
  peer_Identity : Identity;
}.

Record Evidence : Type := {
  ev_DatabaseID : string;
  ev_Database : string;
  ev_Label : Env;
  ev_Effective : Env;
  ev_Verified : bool;
  ev_Reasons : list string;
  ev_Critical : bool;
  ev_Strength : Strength;
  ev_Live : Identity;
  ev_Snapshot : option Identity;
  ev_Changed : list string;
  ev_Conflicts : list Peer;
  ev_Receipt : option Receipt;
  ev_SetBy : string;
  ev_SetAt : option Time;
}.

(** [ev.Reasons = append(ev.Reasons, reason)], critical or not. *)
Definition add_reason (reason : string) (critical : bool) (ev : Evidence) : Evidence :=
  {| ev_DatabaseID := ev_DatabaseID ev; ev_Database := ev_Database ev;
     ev_Label := ev_Label ev; ev_Effective := ev_Effective ev; ev_Verified := ev_Verified ev;
     ev_Reasons := ev_Reasons ev ++ [reason]; ev_Critical := ev_Critical ev || critical;
     ev_Strength := ev_Strength ev; ev_Live := ev_Live ev; ev_Snapshot := ev_Snapshot ev;
     ev_Changed := ev_Changed ev; ev_Conflicts := ev_Conflicts ev;
     ev_Receipt := ev_Receipt ev; ev_SetBy := ev_SetBy ev; ev_SetAt := ev_SetAt ev |}.
Definition set_Changed (changed : list string) (ev : Evidence) : Evidence :=
  {| ev_DatabaseID := ev_DatabaseID ev; ev_Database := ev_Database ev;
     ev_Label := ev_Label ev; ev_Effective := ev_Effective ev; ev_Verified := ev_Verified ev;
     ev_Reasons := ev_Reasons ev; ev_Critical := ev_Critical ev;
     ev_Strength := ev_Strength ev; ev_Live := ev_Live ev; ev_Snapshot := ev_Snapshot ev;
     ev_Changed := changed; ev_Conflicts := ev_Conflicts ev;
     ev_Receipt := ev_Receipt ev; ev_SetBy := ev_SetBy ev; ev_SetAt := ev_SetAt ev |}.
Definition set_outcome (effective : Env) (verified : bool) (reasons : list string)
    (ev : Evidence) : Evidence :=
  {| ev_DatabaseID := ev_DatabaseID ev; ev_Database := ev_Database ev;
     ev_Label := ev_Label ev; ev_Effective := effective; ev_Verified := verified;
     ev_Reasons := reasons; ev_Critical := ev_Critical ev;
     ev_Strength := ev_Strength ev; ev_Live := ev_Live ev; ev_Snapshot := ev_Snapshot ev;
     ev_Changed := ev_Changed ev; ev_Conflicts := ev_Conflicts ev;
     ev_Receipt := ev_Receipt ev; ev_SetBy := ev_SetBy ev; ev_SetAt := ev_SetAt ev |}.
Definition set_database (id name : string) (ev : Evidence) : Evidence :=
  {| ev_DatabaseID := id; ev_Database := name;
     ev_Label := ev_Label ev; ev_Effective := ev_Effective ev; ev_Verified := ev_Verified ev;
     ev_Reasons := ev_Reasons ev; ev_Critical := ev_Critical ev;
     ev_Strength := ev_Strength ev; ev_Live := ev_Live ev; ev_Snapshot := ev_Snapshot ev;
     ev_Changed := ev_Changed ev; ev_Conflicts := ev_Conflicts ev;
     ev_Receipt := ev_Receipt ev; ev_SetBy := ev_SetBy ev; ev_SetAt := ev_SetAt ev |}.

Record Binding : Type := {
  b_Env : Env;
  b_Evidence : Evidence;
}.

Record evalInput : Type := {
  in_Row : option LabelRecord;
  in_Live : Identity;
  in_Peers : list Peer;
  in_Receipt : option Receipt;
}.

Definition receiptReason (live : Identity) (r : option Receipt) : string :=
  match r with
  | None => ReasonReceiptMissing
  | Some r => if ProviderRef r =s "" then ReasonReceiptMissing else
              if id_ProviderRef live <>s ProviderRef r then ReasonReceiptMismatch else ""
  end.

Definition conflicts (label : Env) (live : Identity) (peers : list Peer) : list Peer :=
  if PhysicalKey live =s "" then [] else
  List.filter (fun p => (PhysicalKey (peer_Identity p) =s PhysicalKey live) &&
                        (peer_Label p <>s label) &&
                        negb (distinguished live (peer_Identity p))) peers.

Definition some_peers (l : list Peer) : bool := match l with [] => false | _ => true end.

(** [checkNonProd], for the stored row. *)
Definition checkNonProd (ev : Evidence) (row : LabelRecord) (live : Identity)
    (receipt : option Receipt) : Evidence :=
  let ev := if negb (lr_Verified row) then add_reason ReasonLabelUnverified false ev else ev in
  let changed := Diff (lr_Identity row) live in
  let ev := set_Changed changed ev in
  let ev := match changed with [] => ev | _ => add_reason ReasonBindingChanged true ev end in
  let ev := if Identity_Strength live =s StrengthConfigured
            then add_reason ReasonUnverifiable false ev else ev in
  if lr_Label row <>s EnvBranch then ev else
  let reason := receiptReason live receipt in
  if reason <>s "" then add_reason reason true ev else ev.

Definition evaluate (i : evalInput) : Evidence :=
  let ev label conf snap setBy setAt := {|
    ev_DatabaseID := ""; ev_Database := ""; ev_Label := label; ev_Effective := EnvProd;
    ev_Verified := false; ev_Reasons := []; ev_Critical := false;
    ev_Strength := Identity_Strength (in_Live i); ev_Live := in_Live i; ev_Snapshot := snap;
    ev_Changed := []; ev_Conflicts := conf; ev_Receipt := in_Receipt i;
    ev_SetBy := setBy; ev_SetAt := setAt |} in
  match in_Row i with
  | None =>
      let conf := conflicts EnvProd (in_Live i) (in_Peers i) in
      add_reason ReasonDefaultProd (some_peers conf) (ev EnvProd conf None "" None)
  | Some row =>
      let conf := conflicts (lr_Label row) (in_Live i) (in_Peers i) in
      let e := ev (lr_Label row) conf (Some (lr_Identity row)) (lr_SetBy row)
                  (Some (lr_SetAt row)) in
      let e := if some_peers conf then add_reason ReasonTwoLabels true e else e in
      if lr_Label row =s EnvProd
      then set_outcome EnvProd false (ReasonLabelProd :: ev_Reasons e) e else
      let e := checkNonProd e row (in_Live i) (in_Receipt i) in
      match ev_Reasons e with
      | [] => set_outcome (lr_Label row) true [ReasonVerified] e
      | _ => e
      end
  end.

(** ** Which labels may be set *)

Record RefusedError : Type := {
  re_Reason : string;
  re_Detail : string;
  re_Fix : string;
}.

Definition checkLabel (label : Env) (live : Identity) (peers : list Peer)
    (r : option Receipt) : option RefusedError :=
  if label =s EnvProd then None else
  if Identity_Strength live =s StrengthConfigured then
    Some {| re_Reason := ReasonUnverifiable;
            re_Detail := "only the connection target is known; a non-prod label needs the " +:+
                         "system identifier or a provider resource id";
            re_Fix := "GRANT EXECUTE ON FUNCTION pg_catalog.pg_control_system() TO <pg_sage role>" |}
  else
  let reason := if label =s EnvBranch then receiptReason live r else "" in
  if reason <>s "" then
    Some {| re_Reason := reason;
            re_Detail := "a branch label needs an active clone receipt naming this database";
            re_Fix := "create the branch through pg_sage so it has a receipt, or label it dev" |}
  else
  match conflicts label live peers with
  | [] => None
  | c :: _ =>
      Some {| re_Reason := ReasonTwoLabels;
              re_Detail := "database " +:+ id_Target live +:+
                " has the same physical identity (" +:+ PhysicalKey live +:+ ") as " +:+
                peer_DatabaseID c +:+ ", labelled " +:+ peer_Label c;
              re_Fix := "this is a copy, standby or re-pointed DSN of that database; give it its " +:+
                "own provider resource id or keep it prod" |}
  end.

(** * Properties *)

Lemma Rank_range e : 0 <= Rank e <= 3.
Proof. unfold Rank, ranks. repeat case_match; simplify_eq; lia. Qed.

Lemma ParseEnv_ok s e : ParseEnv s = Ok e <-> e = s /\ s ∈ [EnvBranch; EnvDev; EnvStage; EnvProd].
Proof.
  unfold ParseEnv, ranks. rewrite !elem_of_cons, elem_of_nil.
  destruct (s =s EnvBranch) eqn:E1; [apply eqb_str in E1; naive_solver|].
  destruct (s =s EnvDev) eqn:E2; [apply eqb_str in E2; naive_solver|].
  destruct (s =s EnvStage) eqn:E3; [apply eqb_str in E3; naive_solver|].
  destruct (s =s EnvProd) eqn:E4; [apply eqb_str in E4; naive_solver|].
  apply neqb_str in E1, E2, E3, E4. naive_solver.
Qed.

Lemma distinguished_sym a b : distinguished a b = distinguished b a.
Proof.
  unfold distinguished. rewrite (String.eqb_sym (id_ProviderRef b) (id_ProviderRef a)).
  rewrite (orb_comm (id_RefSource b =s _)), (andb_comm (id_ProviderRef b <>s "")). done.
Qed.

Lemma Diff_nil i j :
  Diff i j = [] <-> id_ProviderRef i = id_ProviderRef j /\
    id_SystemIdentifier i = id_SystemIdentifier j /\ id_DBOID i = id_DBOID j /\
    id_Target i = id_Target j.
Proof.
  unfold Diff. rewrite !app_nil.
  destruct (String.eqb_spec (id_ProviderRef i) (id_ProviderRef j)),
    (String.eqb_spec (id_SystemIdentifier i) (id_SystemIdentifier j)),
    (Z.eqb_spec (id_DBOID i) (id_DBOID j)), (String.eqb_spec (id_Target i) (id_Target j));
    simpl; naive_solver.
Qed.

(** The receipt a branch needs: complete, and naming the live database. *)
Definition receipt_matches (live : Identity) (r : option Receipt) : Prop :=
  exists r', r = Some r' /\ ProviderRef r' <> "" /\ id_ProviderRef live = ProviderRef r'.

Lemma receiptReason_none live r : receiptReason live r = "" <-> receipt_matches live r.
Proof.
  unfold receiptReason, receipt_matches. destruct r as [r|]; [|split; [done|naive_solver]].
  destruct (String.eqb_spec (ProviderRef r) ""); [split; [done|naive_solver]|].
  destruct (String.eqb_spec (id_ProviderRef live) (ProviderRef r)); simpl;
    split; naive_solver.
Qed.

(** What a non-prod label needs, given the row it would be stored in. *)
Definition label_holds (label : Env) (snapshot : Identity) (i : evalInput) : Prop :=
  Diff snapshot (in_Live i) = [] /\
  Identity_Strength (in_Live i) <> StrengthConfigured /\
  conflicts label (in_Live i) (in_Peers i) = [] /\
  (label = EnvBranch -> receipt_matches (in_Live i) (in_Receipt i)).

Lemma add_reason_nonempty r c ev : ev_Reasons (add_reason r c ev) <> [].
Proof. simpl. intros [_ ?]%app_nil. done. Qed.

(** [checkNonProd] adds no reason exactly when every check holds. *)
Lemma checkNonProd_reasons ev row live r :
  ev_Reasons (checkNonProd ev row live r) = [] <->
  ev_Reasons ev = [] /\ lr_Verified row = true /\ Diff (lr_Identity row) live = [] /\
  Identity_Strength live <> StrengthConfigured /\
  (lr_Label row = EnvBranch -> receipt_matches live r).
Proof.
  unfold checkNonProd. rewrite <- receiptReason_none.
  destruct (lr_Verified row), (Diff (lr_Identity row) live) as [|x l];
    destruct (String.eqb_spec (Identity_Strength live) StrengthConfigured),
      (String.eqb_spec (lr_Label row) EnvBranch),
      (String.eqb_spec (receiptReason live r) ""); cbn -[app];
    rewrite ?app_nil; naive_solver.
Qed.

Lemma evaluate_nonprod i e :
  e <> EnvProd ->
  ev_Effective (evaluate i) = e <->
  exists row, in_Row i = Some row /\ lr_Label row = e /\ lr_Verified row = true /\
    label_holds e (lr_Identity row) i.
Proof.
  intros He. unfold evaluate, label_holds. destruct (in_Row i) as [row|]; simpl; [|naive_solver].
  destruct (String.eqb_spec (lr_Label row) EnvProd) as [Hp|Hp]; simpl; [naive_solver|].
  set (ev0 := if some_peers _ then _ else _).
  assert (H0 : ev_Reasons ev0 = [] <->
    conflicts (lr_Label row) (in_Live i) (in_Peers i) = []).
  { subst ev0. destruct (conflicts _ _ _); simpl; [done|]. split; done. }
  assert (Heff : ev_Effective (checkNonProd ev0 row (in_Live i) (in_Receipt i)) = EnvProd).
  { unfold checkNonProd. subst ev0. repeat case_match; done. }
  pose proof (checkNonProd_reasons ev0 row (in_Live i) (in_Receipt i)) as Hr.
  rewrite H0 in Hr.
  destruct (ev_Reasons (checkNonProd _ _ _ _)) as [|x l]; simpl.
  - destruct Hr as [Hr _]. specialize (Hr eq_refl). naive_solver.
  - rewrite Heff. split; [naive_solver|]. intros (row' & [= <-] & <- & Hv & Hh).
    destruct Hr as [_ Hr]. exfalso. discriminate Hr. naive_solver.
Qed.

(** A database evaluates as anything but prod exactly when it has a row
    with that label, verified, whose recorded identity is the live one, the
    identity is physical, no database with the same physical identity carries
    another label, and a branch has a receipt naming it; everything else, an
    unknown or missing row included, is prod. *)
Theorem evaluate_nonprod_exact i e :
  e <> EnvProd ->
  ev_Effective (evaluate i) = e <->
  exists row, in_Row i = Some row /\ lr_Label row = e /\ lr_Verified row = true /\
    label_holds e (lr_Identity row) i.
Proof. apply evaluate_nonprod. Qed.

(** A verified staging database, and a row for it. *)
Definition sample_identity : Identity :=
  {| id_ProviderRef := "aws:orders"; id_RefSource := RefCloudTel;
     id_SystemIdentifier := "7301"; id_DBOID := 16384; id_Target := "db:5432/orders";
     id_InRecovery := false |}.
Definition sample_row (label : Env) : LabelRecord :=
  {| lr_DatabaseID := "d1"; lr_Label := label; lr_Identity := sample_identity;
     lr_Verified := label <>s EnvProd; lr_SetBy := "ann"; lr_SetAt := 5; lr_Observed := None;
     lr_ObservedAt := None; lr_PendingLabel := ""; lr_PendingBy := ""; lr_PendingAt := None |}.
Definition sample_input (label : Env) (peers : list Peer) : evalInput :=
  {| in_Row := Some (sample_row label); in_Live := sample_identity; in_Peers := peers;
     in_Receipt := None |}.

Lemma evaluate_nonprod_exact_witness :
  EnvStage <> EnvProd /\ ev_Effective (evaluate (sample_input EnvStage [])) = EnvStage /\
  exists row, in_Row (sample_input EnvStage []) = Some row /\ lr_Label row = EnvStage.
Proof.
  split; [done|]. split; [reflexivity|].
  destruct (proj1 (evaluate_nonprod_exact (sample_input EnvStage []) EnvStage ltac:(done))
    ltac:(reflexivity)) as (row & Hrow & Hl & _). eauto.
Defined.

(** One physical database never counts as two non-prod environments: when
    each of two databases sees the other, as it is labelled and observed, under
    the same physical key, and no provider id tells them apart, they cannot
    evaluate as different environments below prod. *)
Theorem one_database_one_environment ia ib rowa rowb ida idb :
  in_Row ia = Some rowa -> in_Row ib = Some rowb ->
  PhysicalKey (in_Live ia) = PhysicalKey (in_Live ib) -> PhysicalKey (in_Live ia) <> "" ->
  distinguished (in_Live ia) (in_Live ib) = false ->
  {| peer_DatabaseID := idb; peer_Label := lr_Label rowb; peer_Identity := in_Live ib |}
    ∈ in_Peers ia ->
  {| peer_DatabaseID := ida; peer_Label := lr_Label rowa; peer_Identity := in_Live ia |}
    ∈ in_Peers ib ->
  let ea := ev_Effective (evaluate ia) in
  let eb := ev_Effective (evaluate ib) in
  (ea <> EnvProd -> lr_Label rowb = ea) /\ (ea <> EnvProd -> eb <> EnvProd -> ea = eb).
Proof.
  intros Ha Hb Hkey Hne Hd Hpa Hpb ea eb.
  assert (Hlabel : ea <> EnvProd -> lr_Label rowb = ea).
  { intros He. destruct (proj1 (evaluate_nonprod ia ea He) eq_refl)
      as (row & Hr & Hl & _ & _ & _ & Hconf & _).
    assert (row = rowa) as -> by congruence.
    unfold conflicts in Hconf. rewrite (proj2 (neqb_str _ _) Hne) in Hconf.
    destruct (String.eqb_spec (lr_Label rowb) ea) as [|Hneq]; [done|]. exfalso.
    eapply in_nil. rewrite <- Hconf. apply filter_In. split; [by apply list_elem_of_In|].
    simpl. rewrite <- Hkey, eqb_str_refl, Hd. apply neqb_str in Hneq. by rewrite Hneq. }
  split; [done|]. intros Hea Heb. rewrite <- (Hlabel Hea).
  destruct (proj1 (evaluate_nonprod ib eb Heb) eq_refl) as (row & Hr & Hl & _).
  congruence.
Qed.

Lemma one_database_one_environment_witness :
  let peer := {| peer_DatabaseID := "d2"; peer_Label := EnvStage;
                 peer_Identity := sample_identity |} in
  let i := sample_input EnvStage [peer] in
  ev_Effective (evaluate i) = EnvStage /\ lr_Label (sample_row EnvStage) = EnvStage.
Proof.
  intros peer i. split; [reflexivity|].
  destruct (one_database_one_environment i i (sample_row EnvStage) (sample_row EnvStage)
    "d2" "d2" eq_refl eq_refl eq_refl) as [H _];
    [done|reflexivity|apply list_elem_of_singleton; reflexivity..|].
  apply H. done.
Defined.

Lemma checkLabel_none label live peers r :
  label <> EnvProd ->
  checkLabel label live peers r = None <->
  Identity_Strength live <> StrengthConfigured /\
  (label = EnvBranch -> receipt_matches live r) /\ conflicts label live peers = [].
Proof.
  intros Hp. rewrite <- receiptReason_none. unfold checkLabel.
  rewrite (proj2 (neqb_str _ _) Hp).
  destruct (String.eqb_spec (Identity_Strength live) StrengthConfigured); [naive_solver|].
  destruct (String.eqb_spec label EnvBranch), (String.eqb_spec (receiptReason live r) "");
    simpl; destruct (conflicts label live peers); naive_solver.
Qed.

Lemma checkLabel_evaluates row peers r :
  lr_Verified row = (lr_Label row <>s EnvProd) ->
  checkLabel (lr_Label row) (lr_Identity row) peers r = None <->
  ev_Effective (evaluate {| in_Row := Some row; in_Live := lr_Identity row;
                            in_Peers := peers; in_Receipt := r |}) = lr_Label row.
Proof.
  intros Hv. destruct (String.eqb_spec (lr_Label row) EnvProd) as [Hp|Hp].
  - unfold checkLabel, evaluate. simpl. rewrite Hp, eqb_str_refl. simpl. split; done.
  - rewrite evaluate_nonprod, checkLabel_none by done. unfold label_holds.
    cbn [in_Row in_Live in_Peers in_Receipt]. simpl in Hv.
    assert (Hself : Diff (lr_Identity row) (lr_Identity row) = []) by by apply Diff_nil.
    split; [intros (? & ? & ?); exists row; split_and!; auto|].
    intros (row' & [= <-] & _ & _ & _ & ? & ? & ?). auto.
Qed.

(** A label is accepted exactly when the row it writes evaluates as that
    label on the same observation; so what an admin sets is what agents are
    held to, and nothing that would evaluate as prod is stored as less. *)
Theorem checkLabel_exact row peers r :
  lr_Verified row = (lr_Label row <>s EnvProd) ->
  checkLabel (lr_Label row) (lr_Identity row) peers r = None <->
  ev_Effective (evaluate {| in_Row := Some row; in_Live := lr_Identity row;
                            in_Peers := peers; in_Receipt := r |}) = lr_Label row.
Proof. apply checkLabel_evaluates. Qed.

Lemma checkLabel_exact_witness :
  checkLabel EnvStage sample_identity [] None = None /\
  ev_Effective (evaluate (sample_input EnvStage [])) = EnvStage.
Proof.
  split; [reflexivity|].
  apply (proj1 (checkLabel_exact (sample_row EnvStage) [] None eq_refl)). reflexivity.
Defined.
