(* ===== verification/EnvLabels.v ===== *)
(** * The environment label table

    internal/agentguard/envbind: labels.go (the table
    sage.guard_environment_labels and its statements), binder.go (evaluating
    and setting labels) and the recording half of reconcile.go.

    The table is a finite map from database ids; a transaction is one function
    of it that a failure leaves unchanged (the row lock of [setInTx] and the
    rollback of pgx.BeginFunc), with the transaction's [now()] as an argument.
    What is read outside the control database (the live identity, the clone
    receipt) is an argument too. *)

From S2P Require Import Prelude.
From S2P Require Import GoStd.
From S2P Require Import Envbind.

(** ** Rows and statements *)

Abbreviation Table := (gmap string LabelRecord) (only parsing).

Definition DefaultSetBy : string := "pg_sage".

(** [ensureRowSQL]: the columns it does not set take their defaults. *)
Definition ensureRowSQL (id : string) (live : Identity) (now : Time) (t : Table) : Table :=
  match t !! id with
  | Some _ => t
  | None => <[id := {| lr_DatabaseID := id; lr_Label := EnvProd; lr_Identity := live;
                       lr_Verified := false; lr_SetBy := DefaultSetBy; lr_SetAt := now;
                       lr_Observed := Some live; lr_ObservedAt := Some now;
                       lr_PendingLabel := ""; lr_PendingBy := ""; lr_PendingAt := None |}]> t
  end.

Definition observed_row (live : Identity) (now : Time) (r : LabelRecord) : LabelRecord :=
  {| lr_DatabaseID := lr_DatabaseID r; lr_Label := lr_Label r; lr_Identity := lr_Identity r;
     lr_Verified := lr_Verified r; lr_SetBy := lr_SetBy r; lr_SetAt := lr_SetAt r;
     lr_Observed := Some live; lr_ObservedAt := Some now;
     lr_PendingLabel := lr_PendingLabel r; lr_PendingBy := lr_PendingBy r;
     lr_PendingAt := lr_PendingAt r |}.

(** [observeSQL]: only when the observed identity is another one. *)
Definition observeSQL (id : string) (live : Identity) (now : Time) (t : Table) : Table :=
  alter (fun r => if bool_decide (lr_Observed r = Some live) then r
                  else observed_row live now r) id t.

Definition observeRow (id : string) (live : Identity) (now : Time) (t : Table) : Table :=
  observeSQL id live now (ensureRowSQL id live now t).

Definition readRow (t : Table) (id : string) : option LabelRecord := t !! id.

(** [COALESCE(observed, identity)] *)
Definition last_observed (r : LabelRecord) : Identity := default (lr_Identity r) (lr_Observed r).

Definition peersSQL (t : Table) (id : string) (live : Identity) : list Peer :=
  omap (fun kr : string * LabelRecord =>
          let seen := last_observed kr.2 in
          if (kr.1 <>s id) && (id_SystemIdentifier seen =s id_SystemIdentifier live) &&
             (id_DBOID seen =? id_DBOID live)
          then Some {| peer_DatabaseID := kr.1; peer_Label := lr_Label kr.2;
                       peer_Identity := seen |}
          else None) (map_to_list t).

Definition readPeers (t : Table) (id : string) (live : Identity) : list Peer :=
  if PhysicalKey live =s "" then [] else peersSQL t id live.

(** [applySQL] *)
Definition applied_row (label : Env) (live : Identity) (actor : string) (now : Time)
    (r : LabelRecord) : LabelRecord :=
  {| lr_DatabaseID := lr_DatabaseID r; lr_Label := label; lr_Identity := live;
     lr_Verified := label <>s EnvProd; lr_SetBy := actor; lr_SetAt := now;
     lr_Observed := Some live; lr_ObservedAt := Some now; lr_PendingLabel := "";
     lr_PendingBy := ""; lr_PendingAt := None |}.

(** [pendingSQL] *)
Definition pending_row (label : Env) (actor : string) (now : Time) (r : LabelRecord)
    : LabelRecord :=
  {| lr_DatabaseID := lr_DatabaseID r; lr_Label := lr_Label r; lr_Identity := lr_Identity r;
     lr_Verified := lr_Verified r; lr_SetBy := lr_SetBy r; lr_SetAt := lr_SetAt r;
     lr_Observed := lr_Observed r; lr_ObservedAt := lr_ObservedAt r;
     lr_PendingLabel := label; lr_PendingBy := actor; lr_PendingAt := Some now |}.

(** The updates return the row they wrote; [row] is the locked row. *)
Definition applyLabel (t : Table) (id : string) (row : LabelRecord) (label : Env)
    (live : Identity) (actor : string) (now : Time) : LabelRecord * Table :=
  let r := applied_row label live actor now row in (r, <[id := r]> t).
Definition setPending (t : Table) (id : string) (row : LabelRecord) (label : Env)
    (actor : string) (now : Time) : LabelRecord * Table :=
  let r := pending_row label actor now row in (r, <[id := r]> t).

Definition pendingFresh (row : LabelRecord) (ttl : Duration) (now : Time) : bool :=
  match lr_PendingAt row with Some at_ => now - ttl <? at_ | None => false end.

(** ** The binder *)

(** [control] is false for a nil pool; [receipts] is false for a nil source. *)
Record Binder : Type := {
  bi_control : bool;
  bi_receipts : bool;
  bi_pendingTTL : Duration;
}.

Record Database : Type := {
  db_ID : string;
  db_Name : string;
  db_ProviderRef : string;
}.

Definition DefaultPendingTTL : Duration := 24 * Hour.

Definition WithPendingTTL (d : Duration) (b : Binder) : Binder :=
  if 0 <? d
  then {| bi_control := bi_control b; bi_receipts := bi_receipts b; bi_pendingTTL := d |}
  else b.

Definition NewBinder (control receipts : bool) (opts : list (Binder -> Binder)) : Binder :=
  foldl (fun b o => o b)
    {| bi_control := control; bi_receipts := receipts; bi_pendingTTL := DefaultPendingTTL |} opts.

Definition prodBinding (db : Database) (reason : string) (live : Identity) : Binding :=
  {| b_Env := EnvProd;
     b_Evidence := {|
       ev_DatabaseID := db_ID db; ev_Database := db_Name db; ev_Label := EnvProd;
       ev_Effective := EnvProd; ev_Verified := false; ev_Reasons := [reason];
       ev_Critical := false; ev_Strength := Identity_Strength live; ev_Live := live;
       ev_Snapshot := None; ev_Changed := []; ev_Conflicts := []; ev_Receipt := None;
       ev_SetBy := ""; ev_SetAt := None |} |}.

(** What a call reads outside the control database: the answers of
    [ReadIdentity] (a partial identity with its error) and of the receipt
    source. *)
Record Readings : Type := {
  rd_Identity : Identity * option error;
  rd_Receipt : result (option Receipt);
}.

Definition zero_identity : Identity :=
  {| id_ProviderRef := ""; id_RefSource := ""; id_SystemIdentifier := ""; id_DBOID := 0;
     id_Target := ""; id_InRecovery := false |}.

Definition with_ref (ref source : string) (i : Identity) : Identity :=
  {| id_ProviderRef := ref; id_RefSource := source;
     id_SystemIdentifier := id_SystemIdentifier i; id_DBOID := id_DBOID i;
     id_Target := id_Target i; id_InRecovery := id_InRecovery i |}.

Definition observe (b : Binder) (db : Database) (rd : Readings)
    : Identity * option Receipt * option error :=
  let '(live, err) := rd_Identity rd in
  match err with
  | Some e => (live, None, Some e)
  | None =>
      if negb (bi_receipts b) then (live, None, None) else
      match rd_Receipt rd with
      | Err e => (live, None, Some ("envbind: read clone receipt of " +:+ db_Name db +:+ ": " +:+ e))
      | Ok None => (live, None, None)
      | Ok (Some r) =>
          let live := if id_ProviderRef live =s "" then with_ref (ProviderRef r) RefReceipt live
                      else live in
          (live, Some r, None)
      end
  end.

(** The answers of [readRow] and [readPeers], which can fail. *)
Definition evaluateLive (row : result (option LabelRecord)) (peers : result (list Peer))
    (db : Database) (live : Identity) (receipt : option Receipt) : Binding * option error :=
  match row with
  | Err e => (prodBinding db ReasonIdentityUnreadable live, Some e)
  | Ok row =>
      match peers with
      | Err e => (prodBinding db ReasonIdentityUnreadable live, Some e)
      | Ok peers =>
          let ev := set_database (db_ID db) (db_Name db)
            (evaluate {| in_Row := row; in_Live := live; in_Peers := peers;
                         in_Receipt := receipt |}) in
          ({| b_Env := ev_Effective ev; b_Evidence := ev |}, None)
      end
  end.

(** [read] is how the control database answers: [Ok t] for the table [t]. *)
Definition EnvironmentOf (b : Binder) (read : result Table) (db : Database) (rd : Readings)
    : Binding * option error :=
  if negb (bi_control b) then (prodBinding db ReasonNoControl zero_identity, None) else
  if db_ID db =s "" then (prodBinding db ReasonUnbound zero_identity, None) else
  match observe b db rd with
  | (live, _, Some e) => (prodBinding db ReasonIdentityUnreadable live, Some e)
  | (live, receipt, None) =>
      evaluateLive (rbind read (fun t => Ok (readRow t (db_ID db))))
                   (rbind read (fun t => Ok (readPeers t (db_ID db) live))) db live receipt
  end.

(** ** Setting a label *)

Inductive SetError : Type :=
| Refused (e : RefusedError)
| SetFailed (e : error).

Record SetResult : Type := {
  sr_Applied : bool;
  sr_Pending : bool;
  sr_Record : LabelRecord;
}.

Definition ErrInvalidActor : string := "envbind: a label change names who made it".
Definition ErrNoControl : string :=
  "envbind: agent governance needs mode: meta or agents.control_database".
Definition ErrUnbound : string := "envbind: the database has no database_id yet".

(** [unicode.IsControl], on ASCII. *)
Definition is_control (c : ascii) : bool := (code c <? 32) || (code c =? 127).

Definition validActor (actor : string) : result string :=
  let actor := TrimSpace actor in
  if (actor =s "") || (200 <? String.length actor)%nat || existsb is_control (str_chars actor)
  then Err ErrInvalidActor else Ok actor.

Definition setInTx (b : Binder) (t : Table) (now : Time) (db : Database) (label : Env)
    (actor : string) (live : Identity) (receipt : option Receipt)
    : (SetResult * Table) + SetError :=
  let t := observeRow (db_ID db) live now t in
  match readRow t (db_ID db) with
  | None => inr (SetFailed "envbind: label row vanished under its lock")
  | Some row =>
      let peers := readPeers t (db_ID db) live in
      match checkLabel label live peers receipt with
      | Some e => inr (Refused e)
      | None =>
          let current := evaluate {| in_Row := Some row; in_Live := live; in_Peers := peers;
                                     in_Receipt := receipt |} in
          if Widens (ev_Effective current) label &&
             (negb (pendingFresh row (bi_pendingTTL b) now) || (lr_PendingLabel row <>s label)
              || (lr_PendingBy row =s actor))
          then let '(rec, t) := setPending t (db_ID db) row label actor now in
               inl ({| sr_Applied := false; sr_Pending := true; sr_Record := rec |}, t)
          else let '(rec, t) := applyLabel t (db_ID db) row label live actor now in
               inl ({| sr_Applied := true; sr_Pending := false; sr_Record := rec |}, t)
      end
  end.

(** [SetLabel] with the table after the transaction: as it was on an error. *)
Definition SetLabel (b : Binder) (t : Table) (now : Time) (db : Database) (label : Env)
    (actor : string) (rd : Readings) : (SetResult + SetError) * Table :=
  match ParseEnv label with
  | Err e => (inr (SetFailed e), t)
  | Ok _ =>
      match validActor actor with
      | Err e => (inr (SetFailed e), t)
      | Ok actor =>
          if negb (bi_control b) then (inr (SetFailed ErrNoControl), t) else
          if db_ID db =s "" then (inr (SetFailed ErrUnbound), t) else
          match observe b db rd with
          | (_, _, Some e) => (inr (SetFailed e), t)
          | (live, receipt, None) =>
              match setInTx b t now db label actor live receipt with
              | inr e => (inr e, t)
              | inl (res, t') => (inl res, t')
              end
          end
      end
  end.

(** ** Reconciling *)

(** sage.sre_database_bindings: the identity strength and the epoch. *)
Abbreviation SREBindings := (gmap string (Strength * string)) (only parsing).

Definition fillSREBinding (id : string) (live : Identity) (sre : SREBindings) : SREBindings :=
  let epoch := Epoch live in
  let epoch := if (128 <? String.length epoch)%nat then take_chars 128 epoch else epoch in
  alter (fun _ => (Identity_Strength live, epoch)) id sre.

(** One fenced transaction over what a pass observed; [fence] is the answer of
    [checkFence]. *)
Definition recordObserved (fence : result unit) (seen : list (string * Identity)) (now : Time)
    (db : Table * SREBindings) : result unit * (Table * SREBindings) :=
  match seen with
  | [] => (Ok tt, db)
  | _ =>
      match fence with
      | Err e => (Err e, db)
      | Ok _ => (Ok tt, foldl (fun db o => (observeRow o.1 o.2 now db.1,
                                            fillSREBinding o.1 o.2 db.2)) db seen)
      end
  end.

(** * Properties *)

(** ** The statements *)

Lemma observeRow_other id id' live now t : id <> id' -> observeRow id live now t !! id' = t !! id'.
Proof.
  intros Hne. unfold observeRow, observeSQL, ensureRowSQL. rewrite lookup_alter_ne by done.
  destruct (t !! id); [done|]. by rewrite lookup_insert_ne.
Qed.

(** Observing never changes a label, its identity or a pending request; a new
    row is an unverified prod row. *)
Lemma observeRow_row id live now t :
  exists r, observeRow id live now t !! id = Some r /\ last_observed r = live /\
    match t !! id with
    | Some r0 => lr_Label r = lr_Label r0 /\ lr_Identity r = lr_Identity r0 /\
                 lr_Verified r = lr_Verified r0 /\ lr_PendingLabel r = lr_PendingLabel r0 /\
                 lr_PendingBy r = lr_PendingBy r0 /\ lr_PendingAt r = lr_PendingAt r0
    | None => lr_Label r = EnvProd /\ lr_Verified r = false /\ lr_PendingLabel r = ""
    end.
Proof.
  unfold observeRow, observeSQL, ensureRowSQL. destruct (t !! id) as [r0|] eqn:E.
  - rewrite lookup_alter_eq, E. simpl. eexists. split; [reflexivity|].
    case_bool_decide as Hseen; simpl; [|done]. unfold last_observed. by rewrite Hseen.
  - rewrite lookup_alter_eq, lookup_insert_eq. simpl. eexists. split; [reflexivity|].
    by rewrite bool_decide_true.
Qed.

(** Rewriting a database's own row does not change its peers. *)
Lemma peersSQL_insert t id r live :
  peersSQL (<[id := r]> t) id live ≡ₚ peersSQL (delete id t) id live.
Proof.
  unfold peersSQL. rewrite <- insert_delete_eq, map_to_list_insert by apply lookup_delete_eq.
  simpl. by rewrite eqb_str_refl.
Qed.

Lemma readPeers_insert t id r live :
  is_Some (t !! id) -> readPeers (<[id := r]> t) id live ≡ₚ readPeers t id live.
Proof.
  intros [r0 Hr0]. unfold readPeers. destruct (_ =s _); [done|].
  rewrite peersSQL_insert. rewrite <- (insert_id t id r0 Hr0) at 2. by rewrite peersSQL_insert.
Qed.

#[export] Instance conflicts_Proper label live :
  Proper ((≡ₚ) ==> (≡ₚ)) (conflicts label live).
Proof.
  intros l l' Hl. unfold conflicts. destruct (_ =s _); [done|].
  induction Hl; simpl; repeat case_match; econstructor; eauto.
Qed.

Lemma conflicts_perm_nil label live peers peers' :
  peers ≡ₚ peers' -> conflicts label live peers = [] -> conflicts label live peers' = [].
Proof. intros Hp Hc. apply Permutation_nil. rewrite <- Hc. by apply conflicts_Proper. Qed.

(** ** What a set label does *)

(** [setInTx] passed its checks, on the observed table [t]. *)
Lemma setInTx_inl b t0 now db label actor live receipt res t' :
  setInTx b t0 now db label actor live receipt = inl (res, t') ->
  exists row, let t := observeRow (db_ID db) live now t0 in
    t !! db_ID db = Some row /\
    checkLabel label live (readPeers t (db_ID db) live) receipt = None /\
    let current := ev_Effective (evaluate {| in_Row := Some row; in_Live := live;
      in_Peers := readPeers t (db_ID db) live; in_Receipt := receipt |}) in
    (sr_Pending res = true /\ sr_Applied res = false /\
     sr_Record res = pending_row label actor now row /\ Widens current label = true /\
     ~ (pendingFresh row (bi_pendingTTL b) now = true /\ lr_PendingLabel row = label /\
        lr_PendingBy row <> actor) /\
     t' = <[db_ID db := sr_Record res]> t \/
     sr_Pending res = false /\ sr_Applied res = true /\
     sr_Record res = applied_row label live actor now row /\
     (Widens current label = true -> pendingFresh row (bi_pendingTTL b) now = true /\
        lr_PendingLabel row = label /\ lr_PendingBy row <> actor) /\
     t' = <[db_ID db := sr_Record res]> t).
Proof.
  unfold setInTx, readRow. set (t := observeRow _ _ _ _).
  destruct (t !! db_ID db) as [row|] eqn:Hrow; [|done].
  destruct (checkLabel _ _ _ _) eqn:Hc; [done|]. intros H. exists row.
  split; [done|]. split; [done|]. revert H. cbv zeta. unfold setPending, applyLabel.
  destruct (Widens _ _); simpl.
  - destruct (pendingFresh _ _ _); simpl; [|intros [= <- <-]; left; split_and!; naive_solver].
    destruct (String.eqb_spec (lr_PendingLabel row) label); simpl;
      [|intros [= <- <-]; left; split_and!; naive_solver].
    destruct (String.eqb_spec (lr_PendingBy row) actor); simpl; intros [= <- <-];
      [left|right]; split_and!; naive_solver.
  - intros [= <- <-]. right. split_and!; naive_solver.
Qed.

(** A successful [SetLabel], down to its transaction. *)
Lemma SetLabel_inl b t now db label actor rd res t' :
  SetLabel b t now db label actor rd = (inl res, t') ->
  exists who live receipt,
    label ∈ [EnvBranch; EnvDev; EnvStage; EnvProd] /\ validActor actor = Ok who /\
    bi_control b = true /\ db_ID db <> "" /\ observe b db rd = (live, receipt, None) /\
    setInTx b t now db label who live receipt = inl (res, t').
Proof.
  unfold SetLabel. destruct (ParseEnv label) eqn:Hp; [|done]. apply ParseEnv_ok in Hp as [-> Hl].
  destruct (validActor actor) as [who|] eqn:Hw; [|done].
  destruct (bi_control b) eqn:Hb; [|done]. simpl.
  destruct (String.eqb_spec (db_ID db) "") as [|Hid]; [done|].
  destruct (observe b db rd) as [[live receipt] [e|]] eqn:Ho; [done|].
  destruct (setInTx _ _ _ _ _ _ _ _) as [[r t1]|] eqn:Hs; [|done].
  intros [= -> ->]. exists who, live, receipt. auto 10.
Qed.

(** What an admin sets is what agents are held to: right after a label is
    applied, the database evaluates as exactly that label while the readings
    stay what they were; the rows of the other databases are untouched. *)
Theorem applied_label_evaluates b t now db label actor rd res t' :
  SetLabel b t now db label actor rd = (inl res, t') -> sr_Applied res = true ->
  b_Env (EnvironmentOf b (Ok t') db rd).1 = label /\
  (EnvironmentOf b (Ok t') db rd).2 = None /\
  forall id, id <> db_ID db -> t' !! id = t !! id.
Proof.
  intros Hset Happ. destruct (SetLabel_inl _ _ _ _ _ _ _ _ _ Hset)
    as (who & live & receipt & Hl & Hw & Hb & Hid & Ho & Htx).
  destruct (setInTx_inl _ _ _ _ _ _ _ _ _ _ Htx) as (row & Hrow & Hc & [H|H]);
    [destruct H as (? & ? & _); congruence|]. destruct H as (_ & _ & Hrec & _ & ->).
  unfold EnvironmentOf. rewrite Hb. simpl. apply neqb_str in Hid as Hid'. rewrite Hid', Ho.
  simpl. unfold readRow. rewrite lookup_insert_eq. split_and!; [|done|].
  - set (peers := readPeers _ _ _). set (new := sr_Record res).
    assert (Hpeers : peers ≡ₚ readPeers (observeRow (db_ID db) live now t) (db_ID db) live)
      by by apply readPeers_insert.
    assert (Hnew : lr_Label new = label /\ lr_Identity new = live /\
      lr_Verified new = (lr_Label new <>s EnvProd)) by by (subst new; rewrite Hrec).
    destruct Hnew as (Hnl & Hni & Hnv).
    assert (Hck : checkLabel (lr_Label new) (lr_Identity new) peers receipt = None).
    { rewrite Hnl, Hni. destruct (String.eqb_spec label EnvProd) as [->|Hp]; [done|].
      rewrite checkLabel_none in Hc |- * by done. destruct Hc as (? & ? & Hconf).
      split_and!; [done..|]. by apply (conflicts_perm_nil _ _ _ _ (symmetry Hpeers)). }
    apply checkLabel_evaluates in Hck; [|done]. by rewrite Hni, Hnl in Hck.
  - intros id Hne. rewrite lookup_insert_ne by done. by apply observeRow_other.
Qed.

(** Labelling an orders database that provider telemetry names. *)
Definition sample_binder : Binder := NewBinder true true [].
Definition sample_database : Database :=
  {| db_ID := "d1"; db_Name := "orders"; db_ProviderRef := "aws:orders" |}.
Definition sample_readings : Readings :=
  {| rd_Identity := (sample_identity, None); rd_Receipt := Ok None |}.

Lemma applied_label_evaluates_witness :
  let t1 := (SetLabel sample_binder ∅ 10 sample_database EnvStage "ann" sample_readings).2 in
  let t2 := (SetLabel sample_binder t1 20 sample_database EnvStage " bob" sample_readings).2 in
  b_Env (EnvironmentOf sample_binder (Ok t2) sample_database sample_readings).1 = EnvStage.
Proof.
  intros t1 t2. unshelve eapply (proj1 (applied_label_evaluates sample_binder t1 20
    sample_database EnvStage " bob" sample_readings _ t2 _ _)).
  - exact {| sr_Applied := true; sr_Pending := false;
             sr_Record := applied_row EnvStage sample_identity "bob" 20 (sample_row EnvProd) |}.
  - by vm_compute.
  - reflexivity.
Defined.

(** ** The two-person rule *)

(** What the label changes leave in an audit trail. *)
Inductive Event : Type :=
| Requested (id : string) (label : Env) (actor : string) (at_ : Time)
| Applied (id : string) (label : Env) (actor : string) (at_ : Time).

Definition event_of (db : Database) (res : SetResult) (now : Time) : Event :=
  let r := sr_Record res in
  if sr_Pending res then Requested (db_ID db) (lr_PendingLabel r) (lr_PendingBy r) now
  else Applied (db_ID db) (lr_Label r) (lr_SetBy r) now.

(** The table and the trail: label changes and reconcile passes in any order,
    at any times, on any readings. *)
Record World : Type := { w_table : Table; w_trail : list Event }.

Inductive label_step (b : Binder) : World -> World -> Prop :=
| step_set t trail now db label actor rd res t' :
    SetLabel b t now db label actor rd = (inl res, t') ->
    label_step b {| w_table := t; w_trail := trail |}
                 {| w_table := t'; w_trail := event_of db res now :: trail |}
| step_set_fails t trail now db label actor rd e t' :
    SetLabel b t now db label actor rd = (inr e, t') ->
    label_step b {| w_table := t; w_trail := trail |} {| w_table := t'; w_trail := trail |}
| step_reconcile t trail now fence seen sre r t' sre' :
    recordObserved fence seen now (t, sre) = (r, (t', sre')) ->
    label_step b {| w_table := t; w_trail := trail |} {| w_table := t'; w_trail := trail |}.

Definition reachable (b : Binder) : World -> Prop :=
  rtc (label_step b) {| w_table := ∅; w_trail := [] |}.

(** Every pending request in the table was made. *)
Definition pending_recorded (w : World) : Prop :=
  forall id r, w_table w !! id = Some r -> lr_PendingLabel r <> "" ->
    exists at_, lr_PendingAt r = Some at_ /\
      Requested id (lr_PendingLabel r) (lr_PendingBy r) at_ ∈ w_trail w.

Lemma observeRow_pending id live now t trail :
  pending_recorded {| w_table := t; w_trail := trail |} ->
  pending_recorded {| w_table := observeRow id live now t; w_trail := trail |}.
Proof.
  intros Hp id' r Hr Hne. simpl in *. destruct (decide (id = id')) as [<-|Hid].
  - destruct (observeRow_row id live now t) as (r' & Hr' & _ & Hrow).
    assert (r' = r) as -> by congruence.
    destruct (t !! id) as [r0|] eqn:E; [|naive_solver].
    destruct Hrow as (_ & _ & _ & El & Eb & Ea). rewrite El, Eb, Ea in *. by apply (Hp id r0).
  - rewrite observeRow_other in Hr by done. by apply (Hp id' r).
Qed.

Lemma recordObserved_pending fence seen now t sre r t' sre' trail :
  recordObserved fence seen now (t, sre) = (r, (t', sre')) ->
  pending_recorded {| w_table := t; w_trail := trail |} ->
  pending_recorded {| w_table := t'; w_trail := trail |}.
Proof.
  intros H. assert (H' : t' = t \/ (t', sre') = foldl (fun db o =>
    (observeRow o.1 o.2 now db.1, fillSREBinding o.1 o.2 db.2)) (t, sre) seen).
  { unfold recordObserved in H. destruct seen, fence; naive_solver. }
  destruct H' as [->|Hf]; [done|]. clear H. revert t sre Hf.
  induction seen as [|o seen IH]; simpl; intros t sre Hf Hp; [naive_solver|].
  apply (IH _ _ Hf). by apply observeRow_pending.
Qed.

Lemma pending_recorded_weaken t trail ev :
  pending_recorded {| w_table := t; w_trail := trail |} ->
  pending_recorded {| w_table := t; w_trail := ev :: trail |}.
Proof.
  intros Hp id r Hr Hne. destruct (Hp id r Hr Hne) as (at_ & ? & ?). exists at_.
  split; [done|]. by apply elem_of_cons; right.
Qed.

Lemma label_step_pending b w w' :
  label_step b w w' -> pending_recorded w -> pending_recorded w'.
Proof.
  intros [t trail now db label actor rd res t' Hset
         |t trail now db label actor rd e t' Hset
         |t trail now fence seen sre r t' sre' Hrec] Hp.
  - destruct (SetLabel_inl _ _ _ _ _ _ _ _ _ Hset) as (who & live & receipt & _ & _ & _ & _ & _ & Htx).
    destruct (setInTx_inl _ _ _ _ _ _ _ _ _ _ Htx) as (row & Hrow & _ & Hcase).
    apply (observeRow_pending (db_ID db) live now), (pending_recorded_weaken _ _ (event_of db res now)) in Hp.
    intros id r. simpl. destruct (decide (db_ID db = id)) as [<-|Hid].
    + destruct Hcase as [(Hs & _ & Hr & _ & _ & ->)|(Hs & _ & Hr & _ & ->)];
        rewrite lookup_insert_eq; intros [= <-]; rewrite Hr; simpl; [|done].
      intros _. exists now. split; [done|]. unfold event_of. rewrite Hs, Hr. by apply elem_of_cons; left.
    + assert (Ht' : t' = <[db_ID db := sr_Record res]> (observeRow (db_ID db) live now t)) by naive_solver.
      rewrite Ht', lookup_insert_ne by done. apply Hp.
  - unfold SetLabel in Hset. assert (t' = t) as -> by (repeat case_match; by simplify_eq). done.
  - by eapply recordObserved_pending.
Qed.

Lemma reachable_pending b w : reachable b w -> pending_recorded w.
Proof.
  intros Hr. unfold reachable in Hr.
  assert (H0 : pending_recorded {| w_table := ∅; w_trail := [] |})
    by (intros id r Hid; simpl in Hid; by rewrite lookup_empty in Hid).
  induction Hr; eauto using label_step_pending.
Qed.

(** C38: two people widen: whatever happened before, a label change that takes
    effect and gives agents more than the database evaluates as at that moment
    was requested before, for the same database and label and no longer ago
    than the pending time, by someone else. *)
Theorem widening_needs_two b w now db label actor rd res t' :
  reachable b w -> SetLabel b (w_table w) now db label actor rd = (inl res, t') ->
  sr_Applied res = true ->
  forall live receipt, observe b db rd = (live, receipt, None) ->
  Widens (b_Env (EnvironmentOf b (Ok (observeRow (db_ID db) live now (w_table w))) db rd).1)
         label = true ->
  exists who first at_, validActor actor = Ok who /\ first <> who /\
    now - bi_pendingTTL b < at_ /\ Requested (db_ID db) label first at_ ∈ w_trail w.
Proof.
  intros Hreach Hset Happ live receipt Ho Hw.
  destruct (SetLabel_inl _ _ _ _ _ _ _ _ _ Hset) as (who & live' & receipt' & Hl & Hwho & Hb & Hid & Ho' & Htx).
  rewrite Ho in Ho'. injection Ho' as <- <-.
  destruct (setInTx_inl _ _ _ _ _ _ _ _ _ _ Htx) as (row & Hrow & _ & [H|H]);
    [destruct H as (_ & ? & _); congruence|]. destruct H as (_ & _ & _ & Htwo & _).
  apply reachable_pending in Hreach. destruct w as [t trail]. simpl in *.
  apply (observeRow_pending (db_ID db) live now) in Hreach.
  unfold EnvironmentOf in Hw. rewrite Hb, (proj2 (neqb_str _ _) Hid), Ho in Hw. simpl in Hw.
  unfold readRow in Hw. rewrite Hrow in Hw. destruct (Htwo Hw) as (Hfresh & Hpl & Hpb).
  destruct (Hreach (db_ID db) row Hrow) as (at_ & Hat & Hreq); simpl in *.
  { rewrite Hpl. intros ->. rewrite !elem_of_cons, elem_of_nil in Hl. naive_solver. }
  exists who, (lr_PendingBy row), at_. split_and!; [done..| |by rewrite <- Hpl].
  unfold pendingFresh in Hfresh. rewrite Hat in Hfresh. by apply Z.ltb_lt.
Qed.

Lemma widening_needs_two_witness :
  let t1 := (SetLabel sample_binder ∅ 10 sample_database EnvStage "ann" sample_readings).2 in
  exists w who first at_, reachable sample_binder w /\ w_table w = t1 /\
    validActor " bob" = Ok who /\ first <> who /\ 20 - DefaultPendingTTL < at_ /\
    Requested "d1" EnvStage first at_ ∈ w_trail w.
Proof.
  intros t1. eset (w := {| w_table := t1; w_trail := [_] |}). exists w.
  assert (Hw : reachable sample_binder w).
  { eapply rtc_l; [|apply rtc_refl]. eapply (step_set _ _ _ 10 sample_database EnvStage "ann"
      sample_readings). reflexivity. }
  destruct (widening_needs_two sample_binder w 20 sample_database EnvStage " bob" sample_readings
    {| sr_Applied := true; sr_Pending := false;
       sr_Record := applied_row EnvStage sample_identity "bob" 20 (sample_row EnvProd) |}
    (SetLabel sample_binder t1 20 sample_database EnvStage " bob" sample_readings).2
    Hw ltac:(by vm_compute) eq_refl sample_identity None eq_refl ltac:(by vm_compute))
    as (who & first & at_ & H1 & H2 & H3 & H4).
  exists who, first, at_. split_and!; try done.
Defined.
