(* ===== verification/ToolClass.v ===== *)
(** * Capability classes of the MCP tools

    internal/agentguard/decide: the capability classes of request.go and the
    tool table and DDL classes of tools.go. *)

From S2P Require Import Prelude.
From S2P Require Import GoStd.
From S2P Require Import Regex.
From S2P Require Import Refusal.
From S2P Require Import Principal.

(** ** Capabilities *)

Abbreviation Capability := string (only parsing).
Definition CapRead : Capability := "read".
Definition CapWriteInsert : Capability := "write_insert".
Definition CapWriteUpdate : Capability := "write_update".
Definition CapWriteDelete : Capability := "write_delete".
Definition CapDDLAdditive : Capability := "ddl_additive".
Definition CapDDLLocking : Capability := "ddl_locking".
Definition CapDDLDestructive : Capability := "ddl_destructive".
Definition CapMaint : Capability := "maint".
Definition CapSandbox : Capability := "sandbox".
Definition CapPolicyProposal : Capability := "policy_proposal".

Definition capabilityRank : list Capability :=
  [CapRead; CapWriteInsert; CapWriteUpdate; CapWriteDelete; CapDDLAdditive; CapDDLLocking;
   CapDDLDestructive; CapMaint; CapSandbox; CapPolicyProposal].

Definition Capability_Valid (c : Capability) : bool := str_in c capabilityRank.
Definition Writes (c : Capability) : bool :=
  (c =s CapWriteInsert) || (c =s CapWriteUpdate) || (c =s CapWriteDelete).
Definition DDL (c : Capability) : bool :=
  (c =s CapDDLAdditive) || (c =s CapDDLLocking) || (c =s CapDDLDestructive).
Definition Mutates (c : Capability) : bool := Writes c || DDL c || (c =s CapMaint).

(** ** The class of a schema change *)

(** The migration package's regular-expression classifier, by the rule ids it
    answers for a text and a server version. *)
Class DDLClassifier := { Classify : string -> Z -> list string }.

Definition destructiveDDL : re :=
  cats [WordBoundary; alts [lit "DROP"; lit "TRUNCATE"]; WordBoundary].

(** How many characters up to the next line feed, or to the end. *)
Fixpoint line_length (s : string) : nat :=
  match s with
  | String c s' => if code c =? 10 then O else S (line_length s')
  | EmptyString => O
  end.

(** How many characters up to and including the first [*/]. *)
Fixpoint block_length (s : string) : option nat :=
  match s with
  | String c s' => if HasPrefix s "*/" then Some 2%nat else S <$> block_length s'
  | EmptyString => None
  end.

(** [sqlComment] at the start of a text: the length of its match. *)
Definition comment_length (s : string) : option nat :=
  if HasPrefix s "--" then Some (2 + line_length (drop_chars 2 s))%nat else
  if HasPrefix s "/*" then (fun n => (2 + n)%nat) <$> block_length (drop_chars 2 s) else None.

Definition is_quote (c : ascii) : bool := code c =? 39.

(** The rest of a literal after its opening quote: as many characters and
    doubled quotes as a closing quote leaves. *)
Fixpoint literal_body (s : string) : option nat :=
  match s with
  | EmptyString => None
  | String c s' =>
      if negb (is_quote c) then S <$> literal_body s' else
      match s' with
      | String d s'' =>
          if is_quote d then match literal_body s'' with
                             | Some n => Some (2 + n)%nat
                             | None => Some 1%nat
                             end
          else Some 1%nat
      | EmptyString => Some 1%nat
      end
  end.

(** [sqlString] at the start of a text. *)
Definition string_length (s : string) : option nat :=
  match s with
  | String c s' => if is_quote c then S <$> literal_body s' else None
  | EmptyString => None
  end.

(** [ReplaceAllString] for a pattern without empty matches, given by the length
    of its match at a position; [skip] characters belong to the last match. *)
Fixpoint replace_from (matched : string -> option nat) (by_ : string) (skip : nat)
    (s : string) : string :=
  match s with
  | EmptyString => EmptyString
  | String c s' =>
      match skip with
      | S k => replace_from matched by_ k s'
      | O => match matched s with
             | Some n => by_ +:+ replace_from matched by_ (n - 1) s'
             | None => String c (replace_from matched by_ 0 s')
             end
      end
  end.
Definition sqlComment (s : string) : string := replace_from comment_length " " 0 s.
Definition sqlString (s : string) : string := replace_from string_length "''" 0 s.

Definition oldestSupportedPG : Z := 140000.

Definition ClassifyDDL `{DDLClassifier} (sql : string) : Capability :=
  let text := sqlString (sqlComment sql) in
  if (TrimSpace text =s "") || MatchString destructiveDDL text then CapDDLDestructive else
  if existsb (fun rule => rule <>s "ddl_missing_lock_timeout") (Classify text oldestSupportedPG)
  then CapDDLLocking else CapDDLAdditive.

(** ** The tools *)

Definition KindApprove : ToolKind := "approve".

Record toolClass : Type := {
  tc_kind : ToolKind;
  tc_cap : Capability;
  tc_ddlFromSQL : bool;
}.
Definition read : toolClass := {| tc_kind := ToolRead; tc_cap := ""; tc_ddlFromSQL := false |}.
Definition propose (c : Capability) : toolClass :=
  {| tc_kind := ToolPropose; tc_cap := c; tc_ddlFromSQL := false |}.
Definition approve : toolClass :=
  {| tc_kind := KindApprove; tc_cap := ""; tc_ddlFromSQL := false |}.
Definition agentTool (c : Capability) : toolClass :=
  {| tc_kind := ToolAgent; tc_cap := c; tc_ddlFromSQL := false |}.
Definition schemaIntent : toolClass :=
  {| tc_kind := ToolPropose; tc_cap := ""; tc_ddlFromSQL := true |}.

Definition toolClasses : gmap string toolClass := list_to_map [
  ("apply_migration", schemaIntent); ("request_change", schemaIntent);
  ("optimize_query", propose CapDDLAdditive); ("ensure_fk_indexes", propose CapDDLAdditive);
  ("sre_propose_action", propose CapMaint); ("sre_request_execution", propose CapMaint);
  ("specialist_request_remediation", propose CapMaint);
  ("set_maintenance_policy", propose CapPolicyProposal);
  ("propose_policy_change", propose CapPolicyProposal);
  ("sre_draft_runbook", propose CapPolicyProposal);
  ("sre_compile_runbook", propose CapPolicyProposal);
  ("propose_fact", propose ""); ("mark_object", propose "");
  ("report_source_fix", propose ""); ("sre_evaluate_autonomy", propose "");
  ("decide_fact", approve); ("declare_table_contract", approve);
  ("register_consumer", approve); ("sre_downgrade_autonomy", approve);
  ("sre_review_investigation", approve);
  ("ask_sage", read); ("explain_query", read); ("fleet_findings", read);
  ("get_guarantee_status", read); ("get_ledger", read); ("get_policy", read);
  ("get_source_fix_packet", read); ("get_value", read); ("lint_migration", read);
  ("list_databases", read); ("list_facts", read); ("query_sources", read);
  ("specialist_investigation_result", read); ("specialist_investigation_status", read);
  ("specialist_investigation_transcript", read); ("specialist_open_investigation", read);
  ("sre_get_autonomy", read); ("sre_get_evidence", read); ("sre_get_investigation", read);
  ("sre_get_runbook", read); ("sre_get_slo", read); ("sre_get_transcript", read);
  ("sre_list_changes", read); ("sre_list_incidents", read); ("sre_list_runbooks", read);
  ("sre_list_slos", read); ("sre_runbook_runs", read); ("sre_similar_incidents", read);
  ("top_queries", read); ("whatif_index", read);
  ("agent_query", agentTool CapRead); ("agent_whoami", agentTool CapRead);
  ("agent_request_capability", agentTool CapRead)].

Definition KindFor (tool : string) : ToolKind :=
  match toolClasses !! tool with Some c => tc_kind c | None => ToolAgent end.

Definition CapabilityFor `{DDLClassifier} (tool sql : string) : Capability :=
  match toolClasses !! tool with
  | None => ""
  | Some c => if tc_ddlFromSQL c then ClassifyDDL sql else tc_cap c
  end.

(** * Properties *)

(** What the table can answer: a tool is one of the four kinds, and a capability
    is one of the ten classes or none. *)
Definition all_kinds : list ToolKind := [ToolRead; ToolPropose; KindApprove; ToolAgent].

Lemma toolClasses_all :
  forallb (fun kc : string * toolClass =>
    str_in (tc_kind kc.2) all_kinds &&
    ((tc_cap kc.2 =s "") || Capability_Valid (tc_cap kc.2)) &&
    ((tc_kind kc.2 <>s ToolAgent) || (tc_cap kc.2 =s CapRead))) (map_to_list toolClasses) = true.
Proof. by vm_compute. Qed.

Lemma toolClasses_entry tool c :
  toolClasses !! tool = Some c ->
  tc_kind c ∈ all_kinds /\ (tc_cap c = "" \/ Capability_Valid (tc_cap c) = true) /\
  (tc_kind c = ToolAgent -> tc_cap c = CapRead).
Proof.
  intros Hc%elem_of_map_to_list. pose proof toolClasses_all as Hall.
  rewrite forallb_forall in Hall. specialize (Hall _ (proj1 (list_elem_of_In _ _) Hc)).
  cbn [fst snd] in Hall. rewrite !andb_true_iff, !orb_true_iff, negb_true_iff, !eqb_str, str_in_spec in Hall.
  destruct Hall as [[? ?] [Hn|?]]; split_and!; try done.
  intros Hk. rewrite Hk in Hn. by apply neqb_str in Hn.
Qed.

Lemma KindFor_cases tool : KindFor tool ∈ all_kinds.
Proof.
  unfold KindFor. destruct (toolClasses !! tool) as [c|] eqn:E; [by apply (toolClasses_entry tool c)|].
  unfold all_kinds. rewrite !elem_of_cons. auto.
Qed.

Lemma ClassifyDDL_DDL `{DDLClassifier} sql : DDL (ClassifyDDL sql) = true.
Proof. unfold ClassifyDDL. repeat case_match; by vm_compute. Qed.

(** ** What is destructive *)

Lemma reads_app pre s prev : reads (prev, pre +:+ s) (last_read prev pre, s).
Proof. revert prev. induction pre; intros; simpl; constructor; auto. Qed.

Lemma destructive_word_found pre word post :
  ToLower word ∈ ["drop"; "truncate"] ->
  is_word_opt (last_read None pre) = false -> is_word_opt (head_char post) = false ->
  MatchString destructiveDDL (pre +:+ word +:+ post) = true.
Proof.
  intros Hw Hpre Hpost. apply MatchString_spec.
  exists (last_read None pre, word +:+ post), (last_read (last_read None pre) word, post).
  split; [apply reads_app|].
  assert (Hkw : exists kw, ToLower word = ToLower kw /\ kw ∈ ["DROP"; "TRUNCATE"]).
  { rewrite !elem_of_cons, elem_of_nil in Hw. destruct Hw as [->|[->|[]]];
      [exists "DROP"|exists "TRUNCATE"]; split; try done; rewrite !elem_of_cons; auto. }
  destruct Hkw as (kw & Hl & Hkw). pose proof (ToLower_word _ _ Hl) as Hword.
  assert (Hne : word <> "" /\ forallb is_word (str_chars word) = true).
  { rewrite Hword. rewrite !elem_of_cons, elem_of_nil in Hkw.
    destruct Hkw as [->|[->|[]]]; by destruct word. }
  destruct Hne as [Hne Hall].
  assert (Hfirst : is_word_opt (head_char (word +:+ post)) = true).
  { destruct word as [|c word]; [done|]. simpl in *. by apply andb_true_iff in Hall as [? _]. }
  eapply m_cat; [by constructor; rewrite Hpre, Hfirst|].
  eapply m_cat; [|constructor; by rewrite Hpost, (last_read_word word _ Hall Hne)].
  rewrite !elem_of_cons, elem_of_nil in Hkw. destruct Hkw as [->|[->|[]]].
  - apply m_alt_l. by apply matches_lit.
  - apply m_alt_r. by apply matches_lit.
Qed.

(** A schema change whose text outside its comments and literals has the
    word DROP or TRUNCATE, in any case, is classed destructive whatever the
    lock classifier says. *)
Theorem destructive_words_classed `{DDLClassifier} sql pre word post :
  sqlString (sqlComment sql) = pre +:+ word +:+ post ->
  ToLower word ∈ ["drop"; "truncate"] ->
  is_word_opt (last_read None pre) = false -> is_word_opt (head_char post) = false ->
  ClassifyDDL sql = CapDDLDestructive.
Proof.
  intros Ht Hw Hpre Hpost. unfold ClassifyDDL. rewrite Ht, destructive_word_found by done.
  by rewrite orb_true_r.
Qed.

(** A classifier that flags nothing. *)
Definition no_rules : DDLClassifier := {| Classify := fun _ _ => [] |}.

Lemma destructive_words_classed_witness :
  @ClassifyDDL no_rules "ALTER TABLE t /* keep */ drop COLUMN c" = CapDDLDestructive.
Proof.
  apply (@destructive_words_classed no_rules _ "ALTER TABLE t   " "drop" " COLUMN c");
    [reflexivity|rewrite !elem_of_cons; left; reflexivity|reflexivity|reflexivity].
Defined.

(** Comments are removed before literals, so a comment marker inside a
    literal hides what follows it: this batch drops a table, and is classed as
    if it only added a column, whatever the lock classifier answers for the
    part that is left. *)
Theorem quoted_dashes_hide_a_drop `{DDLClassifier} :
  ClassifyDDL "ALTER TABLE t ADD COLUMN c text DEFAULT '--'; DROP TABLE u" =
  (if existsb (fun rule => rule <>s "ddl_missing_lock_timeout")
        (Classify "ALTER TABLE t ADD COLUMN c text DEFAULT ' " oldestSupportedPG)
   then CapDDLLocking else CapDDLAdditive).
Proof.
  unfold ClassifyDDL.
  replace (sqlString _) with "ALTER TABLE t ADD COLUMN c text DEFAULT ' " by by vm_compute.
  by replace (_ || _) with false by by vm_compute.
Qed.
