(* ===== verification/Decide.v ===== *)
(** * Agent governance's decision: the D-steps

    internal/agentguard/decide: request.go, config.go, decider.go, steps.go,
    limits.go and policy.go.

    The sources a decider is wired with act on a world [W]; its own state, the
    request times of the last hour, lives beside it.  The two together are the
    world of the gate a decider is plugged into ([Policy]). *)

From S2P Require Import Prelude.
From S2P Require Import GoStd.
From S2P Require Import PolicyTypes.
From S2P Require Import Gate.
From S2P Require Import Principal.
From S2P Require Import Envbind.
From S2P Require Import ToolClass.

(** ** Requests and verdicts: request.go *)

Record Object : Type := {
  ob_Schema : string;
  ob_Relation : string;
  ob_Column : string;
}.

Record Request : Type := {
  rq_PrincipalID : string;
  rq_Tool : string;
  rq_Kind : ToolKind;
  rq_Capability : Capability;
  rq_Database : string;
  rq_Objects : list Object;
  rq_GrantID : string;
  rq_Narrowing : bool;
  rq_OperatorApproved : bool;
  rq_TaskID : string;
}.

Definition zero_principal : Principal :=
  {| p_ID := ""; p_Name := ""; p_SponsorUserID := None; p_Tenant := ""; p_Profile := "";
     p_EnvCeiling := ""; p_Status := ""; p_FrozenReason := ""; p_CreatedBy := "";
     p_CreatedAt := 0; p_UpdatedAt := 0; p_SponsorActive := false; p_Tainted := false |}.

Record Verdict : Type := {
  v_Allowed : bool;
  v_MaxLevel : Z;
  v_Park : bool;
  v_RetryAfter : Duration;
  v_Reason : Reason;
  v_Step : string;
  v_Detail : string;
  v_Fix : string;
  v_Env : Env;
  v_Capability : Capability;
  v_Principal : Principal;
}.

Definition ReasonEnvCeiling : Reason := "agent_env_ceiling".
Definition ReasonCapability : Reason := "agent_capability".
Definition ReasonClassification : Reason := "agent_classification".
Definition ReasonChangeFreeze : Reason := "agent_change_freeze".
Definition ReasonNoPITR : Reason := "agent_no_pitr".
Definition ReasonRate : Reason := "agent_rate".
Definition ReasonBudget : Reason := "agent_budget".
Definition ReasonLeaseExpired : Reason := "agent_lease_expired".
Definition ReasonUnavailable : Reason := "agent_governance_unavailable".

(** ** Profiles and sources: config.go *)

Record Profile : Type := {
  pf_Classes : list Capability;
  pf_EnvCeiling : Env;
  pf_DirectLane : bool;
}.

Definition Allows (p : Profile) (c : Capability) : bool := existsb (fun have => have =s c) (pf_Classes p).

Abbreviation StaticProfiles := (gmap string Profile) (only parsing).
Definition StaticProfiles_Profile (s : StaticProfiles) (name : string) : option Profile := s !! name.

Definition DefaultProfiles : StaticProfiles := list_to_map [
  ("readonly-analyst",
    {| pf_Classes := [CapRead]; pf_EnvCeiling := EnvProd; pf_DirectLane := false |});
  ("app-writer",
    {| pf_Classes := [CapRead; CapWriteInsert; CapWriteUpdate]; pf_EnvCeiling := EnvProd;
       pf_DirectLane := true |});
  ("coding-agent",
    {| pf_Classes := [CapRead; CapWriteInsert; CapWriteUpdate; CapWriteDelete; CapDDLAdditive;
                      CapDDLLocking; CapSandbox];
       pf_EnvCeiling := EnvStage; pf_DirectLane := false |});
  ("legacy",
    {| pf_Classes := [CapRead]; pf_EnvCeiling := EnvProd; pf_DirectLane := false |})].

(** The errors of [Principals.Get] and [CheckObjects], as far as the decider
    tells them apart ([errors.Is(err, ErrNotFound)], [IsDenied(err)]). *)
Inductive GetError : Type :=
| ErrNotFound
| GetFailed (e : error).
Inductive CheckError : Type :=
| Denied (d : DeniedError)
| CheckFailed (e : error).

(** [cfg_SystemNow] is [time.Now], read when no [Now] is configured. *)
Record Config (W : Type) : Type := {
  cfg_Principals : option (Ctx -> string -> M W (Principal + GetError));
  cfg_Environments : option (Ctx -> string -> M W (result Binding));
  cfg_Profiles : option (string -> option Profile);
  cfg_Freezes : option (Ctx -> string -> string -> M W (result (bool * string)));
  cfg_Objects :
    option (Ctx -> Principal -> string -> Env -> list Object -> M W (option CheckError));
  cfg_ChangeFreeze : option (Ctx -> string -> M W (result bool));
  cfg_Recovery : option (Ctx -> string -> M W (result (bool * Time)));
  cfg_Pending : option (Ctx -> string -> M W (result Z));
  cfg_Leases : option (Ctx -> string -> string -> string -> M W (result bool));
  cfg_MaxRequestsPerHour : Z;
  cfg_MaxPendingPerPrincipal : Z;
  cfg_RestoreDrillDays : Z;
  cfg_Now : option (M W Time);
  cfg_SystemNow : M W Time;
}.
Arguments cfg_Principals {W}.
Arguments cfg_Environments {W}.
Arguments cfg_Profiles {W}.
Arguments cfg_Freezes {W}.
Arguments cfg_Objects {W}.
Arguments cfg_ChangeFreeze {W}.
Arguments cfg_Recovery {W}.
Arguments cfg_Pending {W}.
Arguments cfg_Leases {W}.
Arguments cfg_MaxRequestsPerHour {W}.
Arguments cfg_MaxPendingPerPrincipal {W}.
Arguments cfg_RestoreDrillDays {W}.
Arguments cfg_Now {W}.
Arguments cfg_SystemNow {W}.

Definition DefaultMaxRequestsPerHour : Z := 30.
Definition DefaultMaxPendingPerPrincipal : Z := 10.
Definition DefaultRestoreDrillDays : Z := 14.

(** ** The decider: decider.go *)

(** [d.hits]: request times per principal, oldest first. *)
Abbreviation Hits := (gmap string (list Time)) (only parsing).

(** [New]: the configuration with its defaults filled in. *)
Definition New {W} (cfg : Config W) : Config W :=
  {| cfg_Principals := cfg_Principals cfg; cfg_Environments := cfg_Environments cfg;
     cfg_Profiles := cfg_Profiles cfg; cfg_Freezes := cfg_Freezes cfg;
     cfg_Objects := cfg_Objects cfg; cfg_ChangeFreeze := cfg_ChangeFreeze cfg;
     cfg_Recovery := cfg_Recovery cfg; cfg_Pending := cfg_Pending cfg;
     cfg_Leases := cfg_Leases cfg;
     cfg_MaxRequestsPerHour := if cfg_MaxRequestsPerHour cfg <=? 0
       then DefaultMaxRequestsPerHour else cfg_MaxRequestsPerHour cfg;
     cfg_MaxPendingPerPrincipal := if cfg_MaxPendingPerPrincipal cfg <=? 0
       then DefaultMaxPendingPerPrincipal else cfg_MaxPendingPerPrincipal cfg;
     cfg_RestoreDrillDays := if cfg_RestoreDrillDays cfg <=? 0
       then DefaultRestoreDrillDays else cfg_RestoreDrillDays cfg;
     cfg_Now := Some (match cfg_Now cfg with Some f => f | None => cfg_SystemNow cfg end);
     cfg_SystemNow := cfg_SystemNow cfg |}.

(** [state], one decision in progress. *)
Record state : Type := {
  st_req : Request;
  st_p : Principal;
  st_access : Access;
  st_profile : option Profile;
  st_env : Env;
  st_level : Z;
}.
Definition set_env (env : Env) (s : state) : state :=
  {| st_req := st_req s; st_p := st_p s; st_access := st_access s; st_profile := st_profile s;
     st_env := env; st_level := st_level s |}.
Definition set_level (level : Z) (s : state) : state :=
  {| st_req := st_req s; st_p := st_p s; st_access := st_access s; st_profile := st_profile s;
     st_env := st_env s; st_level := level |}.

Definition deny (reason : Reason) (step detail fix_ : string) : Verdict :=
  {| v_Allowed := false; v_MaxLevel := 0; v_Park := false; v_RetryAfter := 0;
     v_Reason := reason; v_Step := step; v_Detail := detail; v_Fix := fix_; v_Env := "";
     v_Capability := ""; v_Principal := zero_principal |}.
Definition unavailable (step what : string) (err : error) : Verdict :=
  deny ReasonUnavailable step ("agent governance failed " +:+ what +:+ ": " +:+ err)
       "check the control database connection".
Definition set_park (retry : Duration) (v : Verdict) : Verdict :=
  {| v_Allowed := v_Allowed v; v_MaxLevel := v_MaxLevel v; v_Park := true;
     v_RetryAfter := retry; v_Reason := v_Reason v; v_Step := v_Step v;
     v_Detail := v_Detail v; v_Fix := v_Fix v; v_Env := v_Env v;
     v_Capability := v_Capability v; v_Principal := v_Principal v |}.
Definition stopped_by (s : state) (capability : Capability) (v : Verdict) : Verdict :=
  {| v_Allowed := v_Allowed v; v_MaxLevel := v_MaxLevel v; v_Park := v_Park v;
     v_RetryAfter := v_RetryAfter v; v_Reason := v_Reason v; v_Step := v_Step v;
     v_Detail := v_Detail v; v_Fix := v_Fix v; v_Env := st_env s;
     v_Capability := capability; v_Principal := st_p s |}.
Definition allow (level : Z) (env : Env) (capability : Capability) (p : Principal) : Verdict :=
  {| v_Allowed := true; v_MaxLevel := level; v_Park := false; v_RetryAfter := 0;
     v_Reason := ""; v_Step := ""; v_Detail := ""; v_Fix := ""; v_Env := env;
     v_Capability := capability; v_Principal := p |}.

(** The unbound stdio agent. *)
Definition stdio_principal : Principal :=
  {| p_ID := ""; p_Name := "stdio"; p_SponsorUserID := None; p_Tenant := ""; p_Profile := "";
     p_EnvCeiling := Principal.EnvProd; p_Status := StatusActive; p_FrozenReason := "";
     p_CreatedBy := ""; p_CreatedAt := 0; p_UpdatedAt := 0; p_SponsorActive := false;
     p_Tainted := false |}.

Definition set_kind_capability (kind : ToolKind) (cap : Capability) (r : Request) : Request :=
  {| rq_PrincipalID := rq_PrincipalID r; rq_Tool := rq_Tool r; rq_Kind := kind;
     rq_Capability := cap; rq_Database := rq_Database r; rq_Objects := rq_Objects r;
     rq_GrantID := rq_GrantID r; rq_Narrowing := rq_Narrowing r;
     rq_OperatorApproved := rq_OperatorApproved r; rq_TaskID := rq_TaskID r |}.

Definition normalize `{DDLClassifier} (req : Request) : Request :=
  set_kind_capability
    (if rq_Kind req =s "" then KindFor (rq_Tool req) else rq_Kind req)
    (if rq_Capability req =s "" then CapabilityFor (rq_Tool req) "" else rq_Capability req) req.

(** An unknown ceiling is the narrowest. *)
Definition ceilingOf (e : Env) : Env :=
  match ParseEnv e with Ok env => env | Err _ => EnvBranch end.

(** min(principal, profile) *)
Definition effective_ceiling (s : state) : Env :=
  let ceiling := ceilingOf (p_EnvCeiling (st_p s)) in
  match st_profile s with
  | Some pf => if (pf_EnvCeiling pf <>s "") &&
                  (Rank (ceilingOf (pf_EnvCeiling pf)) <? Rank ceiling)
               then ceilingOf (pf_EnvCeiling pf) else ceiling
  | None => ceiling
  end.

Definition finalLevel (s : state) : Z :=
  if rq_Capability (st_req s) <>s CapRead then Z.min (st_level s) 2 else st_level s.

Section Decider.
Context `{DDLClassifier} {W : Type} (cfg : Config W).

Abbreviation MD A := (M (gmap string (list Time) * W) A) (only parsing).

(** Asking a source. *)
Definition ask {A} (m : M W A) : MD A := on_snd m.

(** [d.cfg.Now()], set by [New]. *)
Definition now : M W Time := match cfg_Now cfg with Some f => f | None => cfg_SystemNow cfg end.

Definition proceed (s : state) : MD (state * option Verdict) := ret (s, None).
Definition halt (s : state) (v : Verdict) : MD (state * option Verdict) := ret (s, Some v).

(** *** D1 to D7: steps.go *)

Definition d1 (ctx : Ctx) (s : state) : MD (state * option Verdict) :=
  let req := st_req s in
  if negb (acc_Allowed (st_access s)) && (acc_Reason (st_access s) <>s ReasonUnsponsored) then
    let detail := "principal " +:+ p_Name (st_p s) +:+ " is " +:+ p_Status (st_p s) in
    let detail := if p_FrozenReason (st_p s) <>s ""
                  then detail +:+ ": " +:+ p_FrozenReason (st_p s) else detail in
    halt s (deny (acc_Reason (st_access s)) "D1" detail "")
  else
  match cfg_Freezes cfg with
  | None => proceed s
  | Some frozen =>
      if (rq_Capability req =s CapRead) || (rq_Kind req =s ToolRead) then proceed s else
      let! answer := ask (frozen ctx (rq_PrincipalID req) (rq_Database req)) in
      match answer with
      | Err e => halt s (unavailable "D1" "reading the freeze flags" e)
      | Ok (true, why) => halt s (deny ReasonFrozen "D1" ("agent changes are frozen: " +:+ why)
                                       "an admin lifts the freeze in pg_sage")
      | Ok (false, _) => proceed s
      end
  end.

Definition d2 (ctx : Ctx) (s : state) : MD (state * option Verdict) :=
  if acc_Reason (st_access s) =s ReasonUnsponsored
  then halt s (deny ReasonUnsponsored "D2"
                 ("principal " +:+ p_Name (st_p s) +:+ " has no active sponsor")
                 "an admin assigns an active sponsor to the agent")
  else proceed s.

Definition environment (ctx : Ctx) (database : string) : MD Env :=
  match cfg_Environments cfg with
  | None => ret EnvProd
  | Some source =>
      let! b := ask (source ctx database) in
      match b with
      | Err _ => ret EnvProd
      | Ok b => match ParseEnv (b_Env b) with Ok env => ret env | Err _ => ret EnvProd end
      end
  end.

Definition d3 (ctx : Ctx) (s : state) : MD (state * option Verdict) :=
  if rq_Database (st_req s) =s "" then proceed s else
  let! env := environment ctx (rq_Database (st_req s)) in
  let s := set_env env s in
  let ceiling := effective_ceiling s in
  if Within env ceiling then proceed s else
  halt s (deny ReasonEnvCeiling "D3"
    ("database " +:+ rq_Database (st_req s) +:+ " evaluates as " +:+ env +:+
     ", above the agent's effective ceiling " +:+ ceiling)
    ("verify the database's environment label, or have two admins raise the " +:+
     "agent's env_ceiling")).

Definition d4 (ctx : Ctx) (s : state) : MD (state * option Verdict) :=
  let req := st_req s in
  if rq_Kind req <>s ToolAgent then proceed s else
  if negb (Capability_Valid (rq_Capability req)) then
    halt s (deny ReasonCapability "D4"
              (quote (rq_Capability req) +:+ " is not a capability class") "") else
  match st_profile s with
  | None => halt s (deny ReasonCapability "D4"
                      ("profile " +:+ quote (p_Profile (st_p s)) +:+ " is not configured")
                      ("configure agents.profiles." +:+ p_Profile (st_p s)))
  | Some pf =>
      if negb (Allows pf (rq_Capability req)) then
        halt s (deny ReasonCapability "D4"
                  ("profile " +:+ quote (p_Profile (st_p s)) +:+ " does not allow " +:+
                   rq_Capability req)
                  "an admin adds the class to the agent's profile (two people)")
      else proceed s
  end.

Definition d5 (ctx : Ctx) (s : state) : MD (state * option Verdict) :=
  match rq_Objects (st_req s) with
  | [] => proceed s
  | objects =>
      match cfg_Objects cfg with
      | None => halt s (deny ReasonClassification "D5"
                          ("no classification checker is " +:+
                           "configured, so no object can be checked") "")
      | Some check =>
          let! err := ask (check ctx (st_p s) (rq_Database (st_req s)) (st_env s) objects) in
          match err with
          | None => proceed s
          | Some (Denied d) =>
              let detail := if de_Detail d =s "" then de_Reason d else de_Detail d in
              halt s (deny ReasonClassification "D5" detail (de_Fix d))
          | Some (CheckFailed e) => halt s (unavailable "D5" "checking objects" e)
          end
      end
  end.

Definition d6 (ctx : Ctx) (s : state) : MD (state * option Verdict) :=
  match cfg_ChangeFreeze cfg with
  | None => proceed s
  | Some freeze =>
      if negb (Mutates (rq_Capability (st_req s))) then proceed s else
      let! frozen := ask (freeze ctx (rq_Database (st_req s))) in
      match frozen with
      | Err e => halt s (unavailable "D6" "reading the change freeze" e)
      | Ok true => halt s (deny ReasonChangeFreeze "D6"
                             ("a change freeze is on for " +:+ rq_Database (st_req s))
                             "wait for the operator to lift the change freeze")
      | Ok false => proceed s
      end
  end.

Definition drillCap (last : Time) (level : Z) : M W Z :=
  let maxAge := wrap64 (wrap64 (cfg_RestoreDrillDays cfg * 24) * Hour) in
  if time_IsZero last then ret (Z.min level 2) else
  let! at_ := now in
  ret (if maxAge <? time_Sub at_ last then Z.min level 2 else level).

Definition d7 (ctx : Ctx) (s : state) : MD (state * option Verdict) :=
  let cap := rq_Capability (st_req s) in
  if (st_env s <>s EnvProd) || (negb (Writes cap) && negb (DDL cap)) then proceed s else
  let fix_ := "enable point-in-time recovery (WAL archiving or the provider's PITR)" in
  match cfg_Recovery cfg with
  | None => halt s (deny ReasonNoPITR "D7"
                      ("recovery posture is unknown for " +:+ rq_Database (st_req s)) fix_)
  | Some recovery =>
      let! answer := ask (recovery ctx (rq_Database (st_req s))) in
      match answer with
      | Err e => halt s (unavailable "D7" "reading recovery posture" e)
      | Ok (false, _) => halt s (deny ReasonNoPITR "D7"
                                   (rq_Database (st_req s) +:+ " has no PITR posture") fix_)
      | Ok (true, drill) =>
          let! level := ask (drillCap drill (st_level s)) in
          proceed (set_level level s)
      end
  end.

(** *** D9 and D10: limits.go *)

(** The request times still inside the hour. *)
Definition recent (at_ : Time) (times : list Time) : list Time :=
  List.filter (fun t => time_Sub at_ t <? Hour) times.

(** The part of [admit_request] under the mutex: [None] when the request is admitted,
    else how long until the oldest request leaves the hour. *)
Definition admit_at (key : string) (at_ : Time) (hits : Hits) : option Duration * Hits :=
  let kept := recent at_ (default [] (hits !! key)) in
  match kept with
  | oldest :: _ =>
      if cfg_MaxRequestsPerHour cfg <=? Z.of_nat (length kept)
      then (Some (time_Sub (time_Add oldest Hour) at_), <[key := kept]> hits)
      else (None, <[key := kept ++ [at_]]> hits)
  | [] => (None, <[key := kept ++ [at_]]> hits)
  end.

Definition admit_key (principal : string) : string :=
  if principal =s "" then "stdio:unbound" else principal.

Definition admit_request (principal : string) : MD (option Duration) :=
  let! at_ := ask now in
  on_fst (admit_at (admit_key principal) at_).

Definition d9 (ctx : Ctx) (s : state) : MD (state * option Verdict) :=
  let req := st_req s in
  if rq_OperatorApproved req || (rq_Capability req =s CapRead) then proceed s else
  let rate :=
    let! wait := admit_request (rq_PrincipalID req) in
    match wait with
    | Some wait =>
        halt s (set_park wait (deny ReasonRate "D9"
          ("more than " +:+ itoa (cfg_MaxRequestsPerHour cfg) +:+ " requests in an hour; " +:+
           "retry_after=" +:+ itoa (f64_to_int (Duration_Seconds wait)) +:+ "s") ""))
    | None => proceed s
    end in
  match cfg_Pending cfg with
  | None => rate
  | Some count =>
      if rq_PrincipalID req =s "" then rate else
      let! pending := ask (count ctx (rq_PrincipalID req)) in
      match pending with
      | Err e => halt s (unavailable "D9" "counting pending approvals" e)
      | Ok pending =>
          if cfg_MaxPendingPerPrincipal cfg <=? pending then
            halt s (deny ReasonBudget "D9"
              (itoa pending +:+ " approvals are already pending for this agent (limit " +:+
               itoa (cfg_MaxPendingPerPrincipal cfg) +:+ ")")
              "people decide the pending approvals first")
          else rate
      end
  end.

Definition d10 (ctx : Ctx) (s : state) : MD (state * option Verdict) :=
  let req := st_req s in
  if rq_GrantID req =s "" then proceed s else
  let fix_ := "request the capability again; a person approves the new grant" in
  match cfg_Leases cfg with
  | None => halt s (deny ReasonLeaseExpired "D10"
                      ("no lease registry is configured, so grant " +:+ rq_GrantID req +:+
                       " has no lease") fix_)
  | Some lease =>
      let! active := ask (lease ctx (rq_PrincipalID req) (rq_GrantID req) (rq_Database req)) in
      match active with
      | Err e => halt s (unavailable "D10" "reading the grant lease" e)
      | Ok false => halt s (deny ReasonLeaseExpired "D10"
                              ("the lease of grant " +:+ rq_GrantID req +:+ " has expired") fix_)
      | Ok true => proceed s
      end
  end.

(** *** The decision: decider.go *)

Definition steps : list (Ctx -> state -> MD (state * option Verdict)) :=
  [d1; d2; d3; d4; d5; d6; d7; d9; d10].

Definition profileOf (p : Principal) : option Profile :=
  match cfg_Profiles cfg with
  | None => None
  | Some profile => if p_Profile p =s "" then None else profile (p_Profile p)
  end.

Definition start (req : Request) (p : Principal) : state :=
  let access := ToolAccess p (rq_Kind req) in
  {| st_req := req; st_p := p; st_access := access; st_profile := profileOf p; st_env := "";
     st_level := acc_MaxLevel access |}.

Definition load (ctx : Ctx) (req : Request) : MD (state + Verdict) :=
  if rq_PrincipalID req =s "" then ret (inl (start req stdio_principal)) else
  match cfg_Principals cfg with
  | None => ret (inr (deny ReasonUnavailable "D1"
                        ("agent governance has no " +:+
                         "principal store (no control database)") ""))
  | Some get =>
      let! p := ask (get ctx (rq_PrincipalID req)) in
      match p with
      | inr ErrNotFound =>
          ret (inr (deny ReasonRetired "D1"
                      ("principal " +:+ rq_PrincipalID req +:+ " does not exist") ""))
      | inr (GetFailed e) => ret (inr (unavailable "D1" "loading the principal" e))
      | inl p => ret (inl (start req p))
      end
  end.

(** The steps in order; the first that stops decides. *)
Fixpoint run_steps (l : list (Ctx -> state -> MD (state * option Verdict))) (ctx : Ctx)
    (s : state) : MD (state * option Verdict) :=
  match l with
  | [] => proceed s
  | run :: l' =>
      let! (s, v) := run ctx s in
      match v with Some v => halt s v | None => run_steps l' ctx s end
  end.

Definition Decide (ctx : Ctx) (req : Request) : MD Verdict :=
  let req := normalize req in
  if rq_Narrowing req then ret (allow 3 "" (rq_Capability req) zero_principal) else
  let! loaded := load ctx req in
  match loaded with
  | inr v => ret v
  | inl s =>
      let! (s, v) := run_steps steps ctx s in
      match v with
      | Some v => ret (stopped_by s (rq_Capability req) v)
      | None => ret (allow (finalLevel s) (st_env s) (rq_Capability req) (st_p s))
      end
  end.

(** ** The gate's view: policy.go *)

Definition toRequest (database : string) (ref : PrincipalRef) (req : ActionRequest) : Request :=
  let kind := KindFor (pr_Tool ref) in
  let kind := if kind =s ToolRead then ToolPropose else kind in
  let capability := req_CapabilityClass req in
  let capability := if capability =s "" then CapabilityFor (pr_Tool ref) (req_SQL req)
                    else capability in
  {| rq_PrincipalID := pr_ID ref; rq_Tool := pr_Tool ref; rq_Kind := kind;
     rq_Capability := capability; rq_Database := database; rq_Objects := [];
     rq_GrantID := ""; rq_Narrowing := IsNarrowing req;
     rq_OperatorApproved := req_OperatorApproved req; rq_TaskID := pr_TaskID ref |}.

(** [gateAdapter.Decide]: the decision, the level and whether to stop. *)
Definition gateAdapter (database : string) (ctx : Ctx) (req : ActionRequest)
    : MD (Decision * Z * bool) :=
  match req_Principal req with
  | None =>
      ret (mk_decision VerdictBlocked ReasonUnavailable
             "an agent request reached agent governance without its principal", 0, true)
  | Some ref =>
      let! v := Decide ctx (toRequest database ref req) in
      if v_Allowed v then ret (mk_decision (VerdictOther "") "" "", v_MaxLevel v, false) else
      let verdict := if v_Park v then VerdictPark else VerdictBlocked in
      let detail := if v_Fix v <>s "" then v_Detail v +:+ ". Fix: " +:+ v_Fix v
                    else v_Detail v in
      ret (mk_decision verdict (v_Reason v) detail, 0, true)
  end.

Definition Policy (database : string) : Ctx -> ActionRequest -> MD (Decision * Z * bool) :=
  gateAdapter database.

End Decider.
