(* ===== verification/DecideSafety.v ===== *)
(** * What an allowed agent request has passed

    The conditions D1 to D10 put on a request, that [Decide] allows a request
    only when they all held, and what that means for the policy gate a decider
    is plugged into. *)

From S2P Require Import Prelude.
From S2P Require Import GoStd.
From S2P Require Import PolicyTypes.
From S2P Require Import Gate.
From S2P Require Import Samples.
From S2P Require Import GateSafety.
From S2P Require Import Principal.
From S2P Require Import Envbind.
From S2P Require Import ToolClass.
From S2P Require Import Decide.

Section Spec.
Context `{DDLClassifier} {W : Type} (cfg : Config W) (ctx : Ctx).

(** ** The conditions, by what the sources answered *)

(** The principal as loaded: the stored one, or the unbound stdio agent. *)
Definition saw_principal (id : string) (p : Principal) : Prop :=
  id = "" /\ p = stdio_principal \/
  exists get, cfg_Principals cfg = Some get /\ returns (get ctx id) (inl p).

(** The environment as evaluated: a known label the source answered, or prod. *)
Definition saw_environment (database : string) (env : Env) : Prop :=
  env = EnvProd \/
  exists source b, cfg_Environments cfg = Some source /\
    returns (source ctx database) (Ok b) /\ b_Env b = env /\
    env ∈ [EnvBranch; EnvDev; EnvStage; EnvProd].

Definition not_frozen (req : Request) : Prop :=
  cfg_Freezes cfg = None \/ rq_Capability req = CapRead \/ rq_Kind req = ToolRead \/
  exists frozen why, cfg_Freezes cfg = Some frozen /\
    returns (frozen ctx (rq_PrincipalID req) (rq_Database req)) (Ok (false, why)).

Definition within_ceiling (s : state) (env : Env) : Prop :=
  rq_Database (st_req s) = "" /\ env = st_env s \/
  saw_environment (rq_Database (st_req s)) env /\ Within env (effective_ceiling s) = true.

Definition in_profile (s : state) : Prop :=
  rq_Kind (st_req s) = ToolAgent ->
  Capability_Valid (rq_Capability (st_req s)) = true /\
  exists pf, st_profile s = Some pf /\ rq_Capability (st_req s) ∈ pf_Classes pf.

Definition objects_admitted (s : state) : Prop :=
  rq_Objects (st_req s) = [] \/
  exists check, cfg_Objects cfg = Some check /\
    returns (check ctx (st_p s) (rq_Database (st_req s)) (st_env s) (rq_Objects (st_req s))) None.

Definition not_change_frozen (req : Request) : Prop :=
  cfg_ChangeFreeze cfg = None \/ Mutates (rq_Capability req) = false \/
  exists freeze, cfg_ChangeFreeze cfg = Some freeze /\
    returns (freeze ctx (rq_Database req)) (Ok false).

Definition recoverable (s : state) : Prop :=
  st_env s = EnvProd ->
  Writes (rq_Capability (st_req s)) = true \/ DDL (rq_Capability (st_req s)) = true ->
  exists recovery drill, cfg_Recovery cfg = Some recovery /\
    returns (recovery ctx (rq_Database (st_req s))) (Ok (true, drill)).

Definition within_budget (req : Request) : Prop :=
  rq_OperatorApproved req = true \/ rq_Capability req = CapRead \/
  cfg_Pending cfg = None \/ rq_PrincipalID req = "" \/
  exists count pending, cfg_Pending cfg = Some count /\
    returns (count ctx (rq_PrincipalID req)) (Ok pending) /\
    pending < cfg_MaxPendingPerPrincipal cfg.

(** The requests of a key in the table, and the hour before an instant. *)
Definition asked (key : string) (hits : Hits) : list Time := default [] (hits !! key).
Definition last_hour (t : Time) (times : list Time) : list Time := List.filter (fun a => t - a <? Hour) times.

(** D9's hourly rate, as what a request does to the table: one that goes before people
    finds room in the hour before an instant of the clock and is written down; an
    approved request or a read does not count. *)
Definition within_rate (req : Request) (hits hits' : Hits) : Prop :=
  if rq_OperatorApproved req || (rq_Capability req =s CapRead) then hits' = hits else
  exists t, returns (now cfg) t /\
    let before := last_hour t (asked (admit_key (rq_PrincipalID req)) hits) in
    (before = [] \/ Z.of_nat (length before) < cfg_MaxRequestsPerHour cfg) /\
    hits' = <[admit_key (rq_PrincipalID req) := before ++ [t]]> hits.

Definition leased (req : Request) : Prop :=
  rq_GrantID req = "" \/
  exists lease, cfg_Leases cfg = Some lease /\
    returns (lease ctx (rq_PrincipalID req) (rq_GrantID req) (rq_Database req)) (Ok true).

(** ** Step by step *)

(** Everything but the environment and the level is fixed. *)
Definition same_subject (s s' : state) : Prop :=
  st_req s' = st_req s /\ st_p s' = st_p s /\ st_access s' = st_access s /\
  st_profile s' = st_profile s.

(** A step proceeds in a state that satisfies [Q], or denies. *)
Definition denies_or (Q : state -> Prop) (r : state * option Verdict) : Prop :=
  match r.2 with Some v => v_Allowed v = false | None => Q r.1 end.

Abbreviation step_spec m Q := (yields m (denies_or Q)) (only parsing).

Lemma step_mono (m : M (gmap string (list Time) * W) (state * option Verdict)) (P Q : state -> Prop) :
  step_spec m P -> (forall s, P s -> Q s) -> step_spec m Q.
Proof.
  intros Hm HPQ. eapply yields_mono; [exact Hm|]. intros [s [v|]]; unfold denies_or; simpl; auto.
Qed.

Lemma proceed_spec (s : state) (Q : state -> Prop) : Q s -> step_spec (proceed (W:=W) s) Q.
Proof. intros HQ. by apply yields_ret. Qed.

Lemma halt_spec s v (Q : state -> Prop) : v_Allowed v = false -> step_spec (halt (W:=W) s v) Q.
Proof. intros Hv. by apply yields_ret. Qed.

(** Walks a step: binds remember what their source returned, denials close. *)
Ltac step_through :=
  repeat match goal with
  | |- yields (halt _ _) _ => apply halt_spec; reflexivity
  | |- yields (proceed _) _ => apply proceed_spec
  | |- yields (bind _ _) _ =>
      let a := fresh "a" in let Ha := fresh "Ha" in
      apply yields_bind_returns; intros a Ha; try apply returns_on_snd in Ha
  | |- yields (match ?x with _ => _ end) _ =>
      let E := fresh "E" in destruct x eqn:E
  end.

Lemma d1_spec s :
  step_spec (d1 cfg ctx s) (fun s' => s' = s /\ not_frozen (st_req s) /\
    (acc_Allowed (st_access s) = true \/ acc_Reason (st_access s) = ReasonUnsponsored)).
Proof.
  unfold d1, not_frozen. step_through; split_and!; try done.
  all: repeat match goal with H : _ && _ = false |- _ => apply andb_false_iff in H end.
  all: rewrite ?negb_false_iff, ?eqb_str in *; try naive_solver.
  all: try (apply orb_true_iff in E1; rewrite !eqb_str in E1; naive_solver).
  all: right; right; right; subst; eauto.
Qed.

Lemma d2_spec s :
  step_spec (d2 (W:=W) ctx s) (fun s' => s' = s /\ acc_Reason (st_access s) <> ReasonUnsponsored).
Proof. unfold d2. step_through. by apply neqb_str in E. Qed.

Lemma environment_spec database : yields (environment cfg ctx database) (saw_environment database).
Proof.
  unfold environment, saw_environment. destruct (cfg_Environments cfg) as [source|];
    [|by apply yields_ret; left].
  apply yields_bind_returns. intros b Hb. apply returns_on_snd in Hb.
  destruct b as [b|]; [|by apply yields_ret; left].
  destruct (ParseEnv (b_Env b)) as [env|] eqn:He; [|by apply yields_ret; left].
  apply yields_ret. apply ParseEnv_ok in He as [-> He]. right. by exists source, b.
Qed.

Lemma d3_spec s :
  step_spec (d3 cfg ctx s) (fun s' => same_subject s s' /\ st_level s' = st_level s /\
    within_ceiling s (st_env s')).
Proof.
  unfold d3, within_ceiling. destruct (String.eqb_spec (rq_Database (st_req s)) "") as [Hd|Hd].
  { apply proceed_spec. unfold same_subject. auto 10. }
  eapply yields_bind; [apply environment_spec|]. intros env Henv.
  step_through. unfold same_subject. simpl. split_and!; auto.
Qed.

Lemma d4_spec s : step_spec (d4 (W:=W) ctx s) (fun s' => s' = s /\ in_profile s).
Proof.
  unfold d4, in_profile. step_through; split; try done; intros Hk; subst.
  - rewrite Hk in E. done.
  - apply negb_false_iff in E0, E2. split; [done|]. eexists. split; [done|].
    unfold Allows in E2. by apply str_in_spec in E2.
Qed.

Lemma d5_spec s : step_spec (d5 cfg ctx s) (fun s' => s' = s /\ objects_admitted s).
Proof.
  unfold d5, objects_admitted. step_through; split; auto. right. subst. eauto.
Qed.

Lemma d6_spec s : step_spec (d6 cfg ctx s) (fun s' => s' = s /\ not_change_frozen (st_req s)).
Proof.
  unfold d6, not_change_frozen. step_through; split; auto.
  - right; left. by apply negb_true_iff.
  - right; right. subst. eauto.
Qed.

Lemma drillCap_spec drill level :
  yields (drillCap cfg drill level) (fun l => l <= level /\ (0 <= level -> 0 <= l)).
Proof.
  unfold drillCap. destruct (time_IsZero drill); [apply yields_ret; lia|].
  apply yields_bind_any. intros t. apply yields_ret. destruct (_ <? _); lia.
Qed.

Lemma d7_spec s :
  step_spec (d7 cfg ctx s) (fun s' => same_subject s s' /\ st_env s' = st_env s /\
    st_level s' <= st_level s /\ (0 <= st_level s -> 0 <= st_level s') /\ recoverable s).
Proof.
  unfold d7, recoverable. step_through.
  - apply orb_true_iff in E as [E%negb_true_iff%neqb_str|E].
    + split_and!; try done; lia.
    + apply andb_true_iff in E as [E1%negb_true_iff E2%negb_true_iff].
      split_and!; try done; try lia. intros _ [?|?]; congruence.
  - pose proof (yields_returns _ _ _ (drillCap_spec _ _) Ha0) as [? ?]. subst.
    split_and!; try done. intros _ _. eauto.
Qed.

Lemma d9_spec s : step_spec (d9 cfg ctx s) (fun s' => s' = s /\ within_budget (st_req s)).
Proof.
  unfold d9, within_budget. cbv zeta.
  destruct (_ || _) eqn:Eo.
  { apply proceed_spec. split; [done|]. apply orb_true_iff in Eo. rewrite eqb_str in Eo. naive_solver. }
  set (rate := bind (admit_request cfg _) _).
  assert (Hrate : forall Q : Prop, Q -> step_spec rate (fun s' => s' = s /\ Q)).
  { intros Q HQ. subst rate. by step_through. }
  destruct (cfg_Pending cfg) as [count|] eqn:Ec; [|apply Hrate; auto].
  destruct (rq_PrincipalID (st_req s) =s "") eqn:Ep; [apply Hrate; apply eqb_str in Ep; auto|].
  apply yields_bind_returns. intros [pending|e] Hp%returns_on_snd; [|by apply halt_spec].
  destruct (cfg_MaxPendingPerPrincipal cfg <=? pending) eqn:El; [by apply halt_spec|].
  apply Hrate. right; right; right; right. apply Z.leb_gt in El. eauto 6.
Qed.

Lemma d10_spec s : step_spec (d10 cfg ctx s) (fun s' => s' = s /\ leased (st_req s)).
Proof.
  unfold d10, leased. step_through; split; auto.
  - left. by apply eqb_str.
  - right. subst. eauto.
Qed.

(** ** All the steps *)

Lemma run_steps_cons run l s (Q1 Q2 : state -> Prop) :
  step_spec (run ctx s) Q1 -> (forall s', Q1 s' -> step_spec (run_steps (W:=W) l ctx s') Q2) ->
  step_spec (run_steps (run :: l) ctx s) Q2.
Proof.
  intros H1 H2. simpl. eapply yields_bind; [exact H1|]. intros [s' [v|]]; unfold denies_or; simpl.
  - intros Hv. by apply halt_spec.
  - apply H2.
Qed.

(** What a state that passed every step says about the state it started as. *)
Record passed (s s' : state) : Prop := {
  ps_subject : same_subject s s';
  ps_access : acc_Allowed (st_access s) = true \/ acc_Reason (st_access s) = ReasonUnsponsored;
  ps_sponsor : acc_Reason (st_access s) <> ReasonUnsponsored;
  ps_freeze : not_frozen (st_req s);
  ps_ceiling : within_ceiling s (st_env s');
  ps_profile : in_profile s;
  ps_objects : objects_admitted s';
  ps_change : not_change_frozen (st_req s);
  ps_recovery : recoverable s';
  ps_budget : within_budget (st_req s);
  ps_lease : leased (st_req s);
  ps_level : st_level s' <= st_level s /\ (0 <= st_level s -> 0 <= st_level s');
}.

Lemma run_steps_spec s : step_spec (run_steps (steps cfg) ctx s) (passed s).
Proof.
  unfold steps.
  eapply run_steps_cons; [apply d1_spec|]. intros ? (-> & Hf & Ha).
  eapply run_steps_cons; [apply d2_spec|]. intros ? (-> & Hu).
  eapply run_steps_cons; [apply d3_spec|]. intros s3 ((Hr & Hp & Hac & Hpf) & Hl & Hc).
  eapply run_steps_cons; [apply d4_spec|]. intros ? (-> & H4).
  eapply run_steps_cons; [apply d5_spec|]. intros ? (-> & H5).
  eapply run_steps_cons; [apply d6_spec|]. intros ? (-> & H6).
  eapply run_steps_cons; [apply d7_spec|]. intros s7 ((Hr7 & Hp7 & Hac7 & Hpf7) & He7 & Hl7 & Hn7 & H7).
  eapply run_steps_cons; [apply d9_spec|]. intros ? (-> & H9).
  eapply run_steps_cons; [apply d10_spec|]. intros ? (-> & H10).
  apply proceed_spec. destruct s, s3, s7. simpl in *. subst.
  split; try done.
Qed.

(** ** The decision *)

(** Governance's conditions on a request that does not narrow access, for the
    verdict that allowed it. *)
Definition governed (req : Request) (v : Verdict) : Prop :=
  let p := v_Principal v in
  let s := set_env (v_Env v) (start cfg req p) in
  saw_principal (rq_PrincipalID req) p /\
  acc_Allowed (ToolAccess p (rq_Kind req)) = true /\ not_frozen req /\
  (rq_Database req = "" /\ v_Env v = "" \/
   saw_environment (rq_Database req) (v_Env v) /\
   Within (v_Env v) (effective_ceiling s) = true) /\
  in_profile s /\ objects_admitted s /\ not_change_frozen req /\ recoverable s /\
  within_budget req /\ leased req /\ v_Capability v = rq_Capability req /\
  0 <= v_MaxLevel v <= acc_MaxLevel (ToolAccess p (rq_Kind req)) /\
  (rq_Capability req <> CapRead -> v_MaxLevel v <= 2).

Lemma load_spec req :
  yields (load cfg ctx req) (fun r => match r with
    | inl s => exists p, saw_principal (rq_PrincipalID req) p /\ s = start cfg req p
    | inr v => v_Allowed v = false
    end).
Proof.
  unfold load, saw_principal.
  destruct (String.eqb_spec (rq_PrincipalID req) ""); [apply yields_ret; eauto|].
  destruct (cfg_Principals cfg) as [get|] eqn:E; [|by apply yields_ret].
  apply yields_bind_returns. intros [p|[|e]] Hp%returns_on_snd; apply yields_ret; [|done|done].
  exists p. split; [|done]. right. eauto.
Qed.

Lemma ToolAccess_level p kind : 0 <= acc_MaxLevel (ToolAccess p kind) <= 3.
Proof. unfold ToolAccess, ProposeCap. repeat case_match; simpl; lia. Qed.

Lemma passed_governed req p s' :
  saw_principal (rq_PrincipalID req) p -> passed (start cfg req p) s' ->
  governed req (allow (finalLevel s') (st_env s') (rq_Capability req) (st_p s')).
Proof.
  intros Hp [(Hr & Hsp & Hac & Hpf) Ha Hu Hf Hc Hin Hob Hch Hre Hb Hl Hlev].
  unfold governed. simpl in *. rewrite Hsp. pose proof (ToolAccess_level p (rq_Kind req)) as Hrange.
  assert (Hfin : 0 <= finalLevel s' <= st_level s' /\
    (rq_Capability req <> CapRead -> finalLevel s' <= 2)).
  { unfold finalLevel. rewrite Hr. destruct (String.eqb_spec (rq_Capability req) CapRead); simpl;
      split; intros; try done; lia. }
  unfold objects_admitted, recoverable, within_ceiling, in_profile in *. simpl in *.
  rewrite Hr, ?Hsp in Hob, Hre. simpl in Hob, Hre.
  split_and!; auto; try lia; try naive_solver.
Qed.

Lemma Decide_governed req :
  yields (Decide cfg ctx req) (fun v => v_Allowed v = true ->
    rq_Narrowing req = true /\ v = allow 3 "" (rq_Capability (normalize req)) zero_principal \/
    governed (normalize req) v).
Proof.
  assert (Hn : rq_Narrowing (normalize req) = rq_Narrowing req) by done. rewrite <- Hn.
  unfold Decide. generalize (normalize req) as r. clear req Hn. intros req.
  destruct (rq_Narrowing req) eqn:En; [by apply yields_ret; left|].
  eapply yields_bind; [apply load_spec|]. intros [s|v]; [|intros Hv; apply yields_ret; congruence].
  intros (p & Hp & ->). eapply yields_bind; [apply run_steps_spec|].
  intros [s' [v|]]; unfold denies_or; cbn [fst snd].
  - intros Hv. apply yields_ret. simpl. congruence.
  - intros Hpass. apply yields_ret. intros _. right. by apply (passed_governed req p).
Qed.

(** ** The table of requests *)

Lemma recent_cond t a : (time_Sub t a <? Hour) = (t - a <? Hour).
Proof.
  unfold time_Sub, Hour, Minute, Second, min_int64, max_int64.
  apply Bool.eq_iff_eq_true. rewrite !Z.ltb_lt. lia.
Qed.

Lemma recent_last_hour t times : recent t times = last_hour t times.
Proof. apply filter_ext. intros a. apply recent_cond. Qed.

(** [m] leaves the table alone. *)
Definition no_hits {A} (m : M (Hits * W) A) : Prop := forall hw, ((m hw).2).1 = hw.1.

Lemma no_hits_ret {A} (a : A) : no_hits (ret a).
Proof. done. Qed.

Lemma no_hits_ask {A} (m : M W A) : no_hits (ask m).
Proof. intros [h w]. unfold ask, on_snd. cbn. by destruct (m w). Qed.

Lemma no_hits_bind {A B} (m : M (Hits * W) A) (k : A -> M (Hits * W) B) :
  no_hits m -> (forall a, no_hits (k a)) -> no_hits (bind m k).
Proof.
  intros Hm Hk hw. unfold bind. specialize (Hm hw). destruct (m hw) as [a hw']. cbn in Hm.
  by rewrite Hk, Hm.
Qed.

Ltac no_hits_walk := repeat match goal with
  | |- no_hits (ret _) => apply no_hits_ret
  | |- no_hits (proceed _) => apply no_hits_ret
  | |- no_hits (halt _ _) => apply no_hits_ret
  | |- no_hits (ask _) => apply no_hits_ask
  | |- no_hits (bind _ _) => apply no_hits_bind; [|intros ?]
  | |- no_hits (match ?x with _ => _ end) => destruct x
  end.

(** A step that asks no one's rate, and keeps the request. *)
Definition quiet (run : Ctx -> state -> M (Hits * W) (state * option Verdict)) : Prop :=
  forall s, no_hits (run ctx s) /\ step_spec (run ctx s) (fun s' => st_req s' = st_req s).

Ltac quiet_by spec := intros s; split; [|eapply step_mono; [apply spec|naive_solver]].

Lemma quiet_d1 : quiet (d1 cfg).
Proof. quiet_by d1_spec. unfold d1. no_hits_walk. Qed.
Lemma quiet_d2 : quiet d2.
Proof. quiet_by d2_spec. unfold d2. no_hits_walk. Qed.
Lemma quiet_d3 : quiet (d3 cfg).
Proof.
  intros s. split; [unfold d3, environment; no_hits_walk|].
  eapply step_mono; [apply d3_spec|]. by intros s' ((Hr & _) & _).
Qed.
Lemma quiet_d4 : quiet d4.
Proof. quiet_by d4_spec. unfold d4. no_hits_walk. Qed.
Lemma quiet_d5 : quiet (d5 cfg).
Proof. quiet_by d5_spec. unfold d5. no_hits_walk. Qed.
Lemma quiet_d6 : quiet (d6 cfg).
Proof. quiet_by d6_spec. unfold d6. no_hits_walk. Qed.
Lemma quiet_d7 : quiet (d7 cfg).
Proof.
  intros s. split; [unfold d7; no_hits_walk|].
  eapply step_mono; [apply d7_spec|]. by intros s' ((Hr & _) & _).
Qed.
Lemma quiet_d10 : quiet (d10 cfg).
Proof. quiet_by d10_spec. unfold d10. no_hits_walk. Qed.

Lemma d9_rate s hw s' hw' :
  does (d9 cfg ctx s) hw (s', None) hw' -> s' = s /\ within_rate (st_req s) hw.1 hw'.1.
Proof.
  unfold d9, within_rate. cbv zeta. destruct (_ || _).
  { intros [[= ->] ->]%does_ret. done. }
  set (rate := bind (admit_request cfg _) _).
  assert (Hrate : forall hw, does rate hw (s', None) hw' -> s' = s /\
    exists t, returns (now cfg) t /\
    (last_hour t (asked (admit_key (rq_PrincipalID (st_req s))) hw.1) = [] \/
     Z.of_nat (length (last_hour t (asked (admit_key (rq_PrincipalID (st_req s))) hw.1))) < cfg_MaxRequestsPerHour cfg) /\
    hw'.1 = <[admit_key (rq_PrincipalID (st_req s)) :=
                last_hour t (asked (admit_key (rq_PrincipalID (st_req s))) hw.1) ++ [t]]> hw.1).
  { intros [h w] Hd. subst rate. apply does_bind in Hd as (wait & [h1 w1] & Ha & Hd).
    destruct wait as [wait|]; [by apply does_ret in Hd as [[=] _]|]. apply does_ret in Hd as [[= ->] ->].
    split; [done|]. unfold admit_request in Ha. apply does_bind in Ha as (t & [h2 w2] & Ht & Ha).
    exists t. unfold ask, on_snd, does in Ht. cbn in Ht. destruct (now cfg w) as [t' w'] eqn:En.
    injection Ht as -> <- <-. split; [exists w; unfold value_at; by rewrite En|]. cbn.
    unfold does, on_fst, admit_at in Ha. cbn in Ha. unfold asked. rewrite recent_last_hour in Ha.
    destruct (last_hour t _) as [|oldest kept] eqn:El; [by injection Ha as <- _; auto|].
    destruct (Z.leb_spec (cfg_MaxRequestsPerHour cfg) (Z.of_nat (length (oldest :: kept)))); [by injection Ha|].
    injection Ha as <- _. auto. }
  destruct (cfg_Pending cfg) as [count|]; [|apply Hrate].
  destruct (rq_PrincipalID (st_req s) =s ""); [apply Hrate|].
  intros Hd. apply does_bind in Hd as (pending & hw1 & Hp & Hd).
  assert (Hhw : hw1.1 = hw.1). { pose proof (no_hits_ask (count ctx (rq_PrincipalID (st_req s))) hw) as Hn. unfold does in Hp. by rewrite Hp in Hn. }
  destruct pending; [|by apply does_ret in Hd as [[=] _]].
  destruct (_ <=? _); [by apply does_ret in Hd as [[=] _]|]. rewrite <- Hhw. by apply Hrate.
Qed.

Lemma run_steps_quiet run l s hw s' hw' : quiet run ->
  does (run_steps (run :: l) ctx s) hw (s', None) hw' ->
  exists s1 hw1, st_req s1 = st_req s /\ hw1.1 = hw.1 /\ does (run_steps (W:=W) l ctx s1) hw1 (s', None) hw'.
Proof.
  intros Hq Hd. destruct (Hq s) as [Hn Hr]. cbn [run_steps] in Hd.
  apply does_bind in Hd as ([s1 [v|]] & hw1 & H1 & Hd); [by apply does_ret in Hd as [[=] _]|].
  exists s1, hw1. specialize (Hn hw). pose proof H1 as H1'. unfold does in H1. rewrite H1 in Hn.
  split; [|split; [exact Hn|exact Hd]].
  exact (yields_value _ _ _ _ _ Hr H1').
Qed.

Lemma run_steps_rate s hw s' hw' :
  does (run_steps (steps cfg) ctx s) hw (s', None) hw' -> within_rate (st_req s) hw.1 hw'.1.
Proof.
  unfold steps. intros Hd.
  apply run_steps_quiet in Hd as (s1 & w1 & R1 & E1 & Hd); [|apply quiet_d1].
  apply run_steps_quiet in Hd as (s2 & w2 & R2 & E2 & Hd); [|apply quiet_d2].
  apply run_steps_quiet in Hd as (s3 & w3 & R3 & E3 & Hd); [|apply quiet_d3].
  apply run_steps_quiet in Hd as (s4 & w4 & R4 & E4 & Hd); [|apply quiet_d4].
  apply run_steps_quiet in Hd as (s5 & w5 & R5 & E5 & Hd); [|apply quiet_d5].
  apply run_steps_quiet in Hd as (s6 & w6 & R6 & E6 & Hd); [|apply quiet_d6].
  apply run_steps_quiet in Hd as (s7 & w7 & R7 & E7 & Hd); [|apply quiet_d7].
  cbn [run_steps] in Hd. apply does_bind in Hd as ([s9 [v|]] & w9 & H9 & Hd); [by apply does_ret in Hd as [[=] _]|].
  apply d9_rate in H9 as [-> H9]. fold (run_steps (W:=W)) in Hd.
  apply (run_steps_quiet (d10 cfg) []) in Hd as (s10 & w10 & _ & E10 & Hd); [|apply quiet_d10].
  apply does_ret in Hd as [_ ->]. rewrite E10. congruence.
Qed.

Lemma Decide_rate req hw v hw' : does (Decide cfg ctx req) hw v hw' -> v_Allowed v = true ->
  if rq_Narrowing req then hw'.1 = hw.1 else within_rate (normalize req) hw.1 hw'.1.
Proof.
  assert (Hn : rq_Narrowing (normalize req) = rq_Narrowing req) by done. rewrite <- Hn.
  unfold Decide. generalize (normalize req) as r. clear req Hn. intros req Hd Ha.
  destruct (rq_Narrowing req); [by apply does_ret in Hd as [_ ->]|].
  apply does_bind in Hd as (r & hw1 & Hl & Hd).
  assert (Hh : hw1.1 = hw.1).
  { assert (Hn : no_hits (load cfg ctx req)) by (unfold load; no_hits_walk).
    specialize (Hn hw). unfold does in Hl. by rewrite Hl in Hn. }
  pose proof (yields_value _ _ _ _ _ (load_spec req) Hl) as Hr. cbn beta in Hr.
  destruct r as [s|v']; [|apply does_ret in Hd as [-> _]; congruence]. destruct Hr as (p & _ & ->).
  apply does_bind in Hd as ([s' [v'|]] & hw2 & Hs & Hd).
  - pose proof (yields_value _ _ _ _ _ (run_steps_spec _) Hs) as Hv. unfold denies_or in Hv. cbn in Hv.
    apply does_ret in Hd as [-> _]. cbn in Ha. congruence.
  - apply does_ret in Hd as [_ ->]. apply run_steps_rate in Hs. rewrite <- Hh. exact Hs.
Qed.

End Spec.

(** ** Concrete values *)

Definition sample_principal (profile : string) : Principal :=
  {| p_ID := "agp_1"; p_Name := "writer"; p_SponsorUserID := Some 4; p_Tenant := "";
     p_Profile := profile; p_EnvCeiling := EnvProd; p_Status := StatusActive;
     p_FrozenReason := ""; p_CreatedBy := "ann"; p_CreatedAt := 0; p_UpdatedAt := 0;
     p_SponsorActive := true; p_Tainted := false |}.

(** A control database with one principal and the default profiles. *)
Definition sample_decider (profile : string) : Config unit :=
  New {| cfg_Principals := Some (fun _ _ => ret (inl (sample_principal profile)));
         cfg_Environments := None; cfg_Profiles := Some (StaticProfiles_Profile DefaultProfiles);
         cfg_Freezes := Some (fun _ _ _ => ret (Ok (false, ""))); cfg_Objects := None;
         cfg_ChangeFreeze := None; cfg_Recovery := Some (fun _ _ => ret (Ok (true, 0)));
         cfg_Pending := Some (fun _ _ => ret (Ok 3)); cfg_Leases := None;
         cfg_MaxRequestsPerHour := 0; cfg_MaxPendingPerPrincipal := 0; cfg_RestoreDrillDays := 0;
         cfg_Now := Some (ret sample_now); cfg_SystemNow := ret sample_now |}.

Definition sample_write : Request :=
  {| rq_PrincipalID := "agp_1"; rq_Tool := ""; rq_Kind := ""; rq_Capability := CapWriteInsert;
     rq_Database := "orders"; rq_Objects := []; rq_GrantID := ""; rq_Narrowing := false;
     rq_OperatorApproved := false; rq_TaskID := "" |}.

(** C9: the decider allows a request only if it narrows access, or every one
    of D1 to D10 held as its sources answered: an unfrozen, active, sponsored
    principal, a database whose verified environment is within the lower of the
    two ceilings, a class in the profile, admitted objects, no change freeze,
    recovery for production changes, a free approval budget, room in the hourly
    rate, which the request then takes, and a live lease; and never above the
    principal's cap, nor above L2 for anything but reads. *)
Theorem allowed_is_governed `{DDLClassifier} {W} (cfg : Config W) ctx req hits w v hits' w' :
  does (Decide cfg ctx req) (hits, w) v (hits', w') -> v_Allowed v = true ->
  rq_Narrowing req = true /\ hits' = hits \/
  governed cfg ctx (normalize req) v /\ within_rate cfg (normalize req) hits hits'.
Proof.
  intros Hd Ha. pose proof (Decide_rate _ _ _ _ _ _ Hd Ha) as Hr. cbn in Hr.
  assert (Hv : returns (Decide cfg ctx req) v) by (exists (hits, w); unfold value_at; by rewrite Hd).
  destruct (yields_returns _ _ _ (Decide_governed cfg ctx req) Hv Ha) as [[Hn _]|Hg].
  - rewrite Hn in Hr. by left.
  - destruct (rq_Narrowing req); [by left|by right].
Qed.

(** The first request of the hour is written down. *)
Lemma allowed_is_governed_witness :
  let cfg := sample_decider "app-writer" in
  let d := Decide (H := no_rules) cfg sample_ctx sample_write in
  exists v, does d (∅, tt) v (<["agp_1" := [sample_now]]> ∅, tt) /\ v_Allowed v = true /\ v_MaxLevel v = 2 /\
    (rq_Narrowing sample_write = true /\ <["agp_1" := [sample_now]]> (∅ : Hits) = ∅ \/
     governed cfg sample_ctx (@normalize no_rules sample_write) v /\
     within_rate cfg (@normalize no_rules sample_write) ∅ (<["agp_1" := [sample_now]]> ∅)).
Proof.
  intros cfg d. exists (value_at d (∅, tt)).
  assert (Hv : does d (∅, tt) (value_at d (∅, tt)) (<["agp_1" := [sample_now]]> ∅, tt)) by by vm_compute.
  assert (Ha : v_Allowed (value_at d (∅, tt)) = true) by by vm_compute.
  split_and!; [exact Hv|exact Ha|by vm_compute|].
  exact (allowed_is_governed (H := no_rules) cfg sample_ctx sample_write _ _ _ _ _ Hv Ha).
Defined.

(** ** The gate with a decider *)

Lemma gateAdapter_spec `{DDLClassifier} {W} (cfg : Config W) database ctx req :
  yields (gateAdapter cfg database ctx req) (fun r => r.2 = false ->
    exists ref v, req_Principal req = Some ref /\ r.1.2 = v_MaxLevel v /\
      (IsNarrowing req = true \/
       governed cfg ctx (normalize (toRequest database ref req)) v)).
Proof.
  unfold gateAdapter. destruct (req_Principal req) as [ref|]; [|by apply yields_ret].
  eapply yields_bind; [apply Decide_governed|]. intros v Hv.
  destruct (v_Allowed v) eqn:Ha; apply yields_ret; [|done]. intros _.
  exists ref, v. split_and!; try done. destruct (Hv Ha) as [[? _]|?]; auto.
Qed.

(** A request the gate passes on is never decided as a read tool's. *)
Lemma toRequest_kind `{DDLClassifier} database ref req :
  rq_Kind (normalize (toRequest database ref req)) ∈ [ToolPropose; KindApprove; ToolAgent].
Proof.
  pose proof (KindFor_cases (pr_Tool ref)) as Hk. unfold toRequest, normalize.
  cbn [rq_Kind rq_Tool set_kind_capability]. revert Hk. generalize (KindFor (pr_Tool ref)) as k.
  intros k. unfold all_kinds. rewrite !elem_of_cons, elem_of_nil.
  intros [->|[->|[->|[->|[]]]]]; simpl; auto.
Qed.

(** C8: in a gate with a decider, an agent's change executes only if it narrows
    access, or a person approved it and the decider found, for the principal
    the store returned, that it is active, is not frozen, is within its
    ceiling and holds the rest of D1 to D10; an approval alone is never
    enough. *)
Theorem governed_gate_execute `{GoEnv} `{DDLClassifier} {W} (cfg : Config W) database
    (config : GateConfig (gmap string (list Time) * W)) ctx req p d :
  gc_Agents config = Some (Policy cfg database) ->
  req_Principal req = Some p \/ ctx_Principal ctx = Some p ->
  IsNarrowing req = false ->
  returns (Authorize config ctx req) d -> dec_Verdict d = VerdictExecute ->
  req_OperatorApproved req = true /\
  exists ctx' ref v, req_Principal (gate_request ctx req) = Some ref /\
    governed cfg ctx' (normalize (toRequest database ref (gate_request ctx req))) v /\
    p_Status (v_Principal v) = StatusActive /\ 2 <= v_MaxLevel v.
Proof.
  intros Hag Hp Hn Hd Hx. apply gate_request_principal in Hp as [p' Hp'].
  destruct (yields_returns _ _ _ (Authorize_authorized config ctx req) Hd Hx)
    as (ctx' & _ & rt & c & _ & [Hc _] & Hauth).
  assert (Hn' : IsNarrowing (gate_request ctx req) = false)
    by (unfold IsNarrowing in *; by rewrite gate_request_contract).
  destruct Hauth as [Hna|_ Ho Hallow _|]; [|split|congruence].
  { unfold IsNarrowing in Hn'. rewrite Hc in Hn'. congruence. }
  { by rewrite gate_request_approved in Ho. }
  destruct Hallow as [?|[?|(D & dd & level & HD & Hret & Hl)]]; [congruence|congruence|].
  rewrite Hag in HD. injection HD as <-.
  destruct (yields_returns _ _ _ (gateAdapter_spec cfg database ctx' _) Hret eq_refl)
    as (ref & v & Href & Hlev & [?|Hg]); [congruence|].
  simpl in Hlev. subst level. exists ctx', ref, v. split_and!; [done|exact Hg| |done].
  destruct Hg as (_ & Hacc & _). apply ToolAccess_allowed in Hacc as [[?|[_ Hr]] _]; [done|].
  pose proof (toRequest_kind database ref (gate_request ctx req)) as Hk.
  rewrite Hr, !elem_of_cons, elem_of_nil in Hk. destruct Hk as [Hk|[Hk|[Hk|[]]]]; discriminate Hk.
Qed.

(** A gate whose readers are constant, governed by the sample decider. *)
Definition sample_governed_gate `{DDLClassifier} (profile : string)
    : GateConfig (gmap string (list Time) * unit) :=
  {| gc_Runtime := Some (fun _ _ => ret (Ok autonomous));
     gc_ValidateSQL := Some (fun _ => Ok tt);
     gc_Policy := Some (fun _ _ => ret (Ok sample_document));
     gc_Usage := Some (fun _ _ => ret (Ok zero_usage));
     gc_WindowObserved := None; gc_RecordDecision := None;
     gc_RecordDecisionDetailed := Some (fun _ _ _ => ret (Ok ("evidence", 7)));
     gc_Now := Some (ret sample_now); gc_SystemNow := ret sample_now;
     gc_Autonomy := None; gc_Serialize := None; gc_Facts := None; gc_Verification := None;
     gc_Agents := Some (Policy (sample_decider profile) "orders") |}.

Definition proposing_agent : PrincipalRef :=
  {| pr_ID := "agp_1"; pr_SponsorID := 4; pr_TaskID := ""; pr_OnBehalfOf := "";
     pr_Tool := "optimize_query" |}.

Lemma governed_gate_execute_witness :
  let config := @sample_governed_gate no_rules "app-writer" in
  let req := approved_request (Some proposing_agent) in
  let a := Authorize config sample_ctx req in
  exists d, returns a d /\ dec_Verdict d = VerdictExecute /\
    (req_OperatorApproved req = true /\ exists ctx' ref v,
      req_Principal (gate_request sample_ctx req) = Some ref /\
      governed (sample_decider "app-writer") ctx'
        (@normalize no_rules (@toRequest no_rules "orders" ref (gate_request sample_ctx req))) v /\
      p_Status (v_Principal v) = StatusActive /\ 2 <= v_MaxLevel v).
Proof.
  intros config req a. exists (value_at a (∅, tt)).
  assert (Hd : returns a (value_at a (∅, tt))) by by exists (∅, tt).
  assert (Hx : dec_Verdict (value_at a (∅, tt)) = VerdictExecute) by by vm_compute.
  split; [exact Hd|]. split; [exact Hx|].
  exact (@governed_gate_execute _ no_rules _ (sample_decider "app-writer") "orders" config
    sample_ctx req proposing_agent _ eq_refl (or_introl eq_refl) eq_refl Hd Hx).
Defined.

(** An environment nobody verified is production: without an environment
    source, or while it fails or answers anything but a known label, no request
    on a database passes for a principal whose own ceiling or profile ends
    below prod. *)
Theorem unverified_is_production `{DDLClassifier} {W} (cfg : Config W) ctx req v :
  returns (Decide cfg ctx req) v -> rq_Narrowing req = false -> rq_Database req <> "" ->
  (forall source, cfg_Environments cfg = Some source ->
     forall b, returns (source ctx (rq_Database req)) (Ok b) -> is_ok (ParseEnv (b_Env b)) = false) ->
  (forall get p, cfg_Principals cfg = Some get -> returns (get ctx (rq_PrincipalID req)) (inl p) ->
     effective_ceiling (start cfg (normalize req) p) <> EnvProd) ->
  rq_PrincipalID req <> "" -> v_Allowed v = false.
Proof.
  intros Hv Hn Hdb Henv Hceil Hid. destruct (v_Allowed v) eqn:Ha; [|done]. exfalso.
  destruct (yields_returns _ _ _ (Decide_governed cfg ctx req) Hv Ha) as [[? _]|Hg]; [congruence|].
  destruct Hg as (Hp & _ & _ & Hc & _). destruct Hc as [[? _]|[Hs Hw]]; [done|].
  assert (Hprod : v_Env v = EnvProd).
  { destruct Hs as [?|(source & b & Hsrc & Hb & Heq & Hin)]; [done|].
    specialize (Henv source Hsrc b Hb). assert (Hok : ParseEnv (b_Env b) = Ok (b_Env b))
      by (apply ParseEnv_ok; rewrite Heq; auto). by rewrite Hok in Henv. }
  destruct Hp as [[? _]|(get & Hget & Hret)]; [done|].
  apply (Hceil get _ Hget Hret). change (effective_ceiling (start cfg (normalize req) (v_Principal v)))
    with (effective_ceiling (set_env (v_Env v) (start cfg (normalize req) (v_Principal v)))).
  rewrite Hprod in Hw |- *. unfold Within in Hw. apply Z.leb_le in Hw.
  change (Rank EnvProd) with 3 in Hw. set (c := effective_ceiling _) in *.
  assert (Hc : c ∈ [EnvBranch; EnvDev; EnvStage; EnvProd]).
  { subst c. unfold effective_ceiling. destruct (st_profile _) as [pf|]; [destruct (_ && _)|].
    all: unfold ceilingOf; destruct (ParseEnv _) as [e|] eqn:E; [by apply ParseEnv_ok in E as [-> ?]|].
    all: rewrite !elem_of_cons; auto. }
  rewrite !elem_of_cons, elem_of_nil in Hc.
  destruct Hc as [Hc|[Hc|[Hc|[?|[]]]]]; [rewrite Hc in Hw..|done]; by vm_compute in Hw.
Qed.

Lemma unverified_is_production_witness :
  let cfg := sample_decider "coding-agent" in
  let d := @Decide no_rules _ cfg sample_ctx sample_write in
  v_Allowed (value_at d (∅, tt)) = false.
Proof.
  intros cfg d. apply (@unverified_is_production no_rules _ cfg sample_ctx sample_write).
  - by exists (∅, tt).
  - reflexivity.
  - done.
  - done.
  - intros get p [= <-] Hp%returns_ret. injection Hp as ->. by vm_compute.
  - done.
Defined.
