(* ===== verification/DecideRate.v ===== *)
(** * The hourly request rate

    [admit] of internal/agentguard/decide/limits.go over any sequence of calls:
    the limit holds in every hour, and the wait it answers is enough. *)

From S2P Require Import Prelude.
From S2P Require Import GoStd.
From S2P Require Import Decide.
From S2P Require Import DecideSafety.

Section Rate.
Context {W : Type} (cfg : Config W).
Abbreviation Max := (cfg_MaxRequestsPerHour cfg) (only parsing).

(** A run of calls, each a principal and the clock under the mutex: what was
    admitted, in order, and the request times left. *)
Fixpoint run_admits (calls : list (string * Time)) (hits : Hits)
    : list (string * Time) * Hits :=
  match calls with
  | [] => ([], hits)
  | (p, at_) :: calls' =>
      let '(wait, hits') := admit_at cfg (admit_key p) at_ hits in
      let '(admitted, hits'') := run_admits calls' hits' in
      (match wait with None => (admit_key p, at_) :: admitted | Some _ => admitted end, hits'')
  end.

(** The admissions of a key in the hour that ends at [t]. *)
Definition in_hour (t : Time) (times : list Time) : list Time :=
  List.filter (fun a => (t - Hour <? a) && (a <=? t)) times.
Definition of_key (key : string) (admitted : list (string * Time)) : list Time :=
  map snd (List.filter (fun ka => ka.1 =s key) admitted).

(** ** The hour before an instant *)

(** A later hour only looks at what an earlier one kept. *)
Lemma recent_recent t u times : u <= t -> recent t (recent u times) = recent t times.
Proof.
  intros Hut. unfold recent. induction times as [|a times IH]; simpl; [done|].
  rewrite !recent_cond. destruct (Z.ltb_spec (u - a) Hour); simpl; rewrite ?recent_cond, IH; [done|].
  destruct (Z.ltb_spec (t - a) Hour); [lia|done].
Qed.

Lemma recent_app t l l' : recent t (l ++ l') = recent t l ++ recent t l'.
Proof. apply List.filter_app. Qed.

(** With nothing later than the instant, the two views of its hour agree. *)
Lemma in_hour_recent t times : Forall (fun a => a <= t) times -> in_hour t times = recent t times.
Proof.
  intros Hle. apply filter_ext_in. intros a Ha. rewrite Forall_forall in Hle. specialize (Hle a Ha).
  rewrite recent_cond. destruct (Z.ltb_spec (t - Hour) a), (Z.leb_spec a t), (Z.ltb_spec (t - a) Hour);
    simpl; lia || done.
Qed.

Lemma in_hour_le_recent t u times :
  u <= t -> Forall (fun a => a <= u) times ->
  (length (in_hour t times) <= length (recent u times))%nat.
Proof.
  intros Hut Hle. unfold in_hour, recent. induction Hle as [|a times Ha Hle IH]; simpl; [done|].
  rewrite recent_cond. destruct (Z.ltb_spec (t - Hour) a), (Z.leb_spec a t), (Z.ltb_spec (u - a) Hour);
    simpl; lia.
Qed.

Lemma in_hour_later t a : t < a -> in_hour t [a] = [].
Proof.
  intros Ha. unfold in_hour. simpl. destruct (Z.leb_spec a t); [lia|]. by rewrite andb_false_r.
Qed.

(** ** The invariant *)

(** After the admissions [admitted], all made by [last]: the kept times are
    those any later hour can still contain, and no hour has too many. *)
Definition rate_inv (hits : Hits) (admitted : list (string * Time)) (last : Time) : Prop :=
  forall key, let log := of_key key admitted in
    (forall t, last <= t -> recent t (default [] (hits !! key)) = recent t log) /\
    Forall (fun a => a <= last) log /\
    forall t, Z.of_nat (length (in_hour t log)) <= Max.

Lemma of_key_app key l l' : of_key key (l ++ l') = of_key key l ++ of_key key l'.
Proof. unfold of_key. by rewrite List.filter_app, map_app. Qed.

(** One call, by what it finds in the last hour. *)
Lemma admit_at_spec key at_ hits wait hits' :
  0 < Max -> admit_at cfg key at_ hits = (wait, hits') ->
  let kept := recent at_ (default [] (hits !! key)) in
  match wait with
  | None => Z.of_nat (length kept) < Max /\ hits' = <[key := kept ++ [at_]]> hits
  | Some w => Max <= Z.of_nat (length kept) /\ hits' = <[key := kept]> hits /\
      exists oldest rest, kept = oldest :: rest /\ w = time_Sub (time_Add oldest Hour) at_
  end.
Proof.
  intros Hmax. unfold admit_at. cbv zeta. destruct (recent _ _) as [|oldest rest] eqn:Ek.
  - intros [= <- <-]. split; [simpl; lia|done].
  - destruct (Z.leb_spec Max (Z.of_nat (length (oldest :: rest)))); intros [= <- <-];
      split_and!; eauto; lia.
Qed.

Lemma rate_inv_weaken hits admitted last last' :
  last <= last' -> rate_inv hits admitted last -> rate_inv hits admitted last'.
Proof.
  intros Hl Hinv key. destruct (Hinv key) as (H1 & H2 & H3). split_and!; [|..|done].
  - intros t Ht. apply H1. lia.
  - eapply Forall_impl; [exact H2|]. simpl. lia.
Qed.

Lemma admit_at_inv key at_ hits admitted wait hits' :
  0 < Max -> rate_inv hits admitted at_ -> admit_at cfg key at_ hits = (wait, hits') ->
  rate_inv hits' (admitted ++ match wait with None => [(key, at_)] | Some _ => [] end) at_.
Proof.
  intros Hmax Hinv Hadm. pose proof (admit_at_spec _ _ _ _ _ Hmax Hadm) as Hspec. cbv zeta in Hspec.
  intros key'. rewrite of_key_app. destruct (Hinv key') as (H1 & H2 & H3).
  destruct (decide (key = key')) as [<-|Hne].
  - rewrite (H1 at_) in Hspec by lia. destruct wait as [w|].
    + destruct Hspec as (_ & -> & _). change (of_key key []) with (@nil Time). rewrite app_nil_r.
      split_and!; [|done..]. intros t Ht. rewrite lookup_insert_eq. simpl. by rewrite recent_recent.
    + destruct Hspec as (Hlen & ->).
      replace (of_key key [(key, at_)]) with [at_] by (unfold of_key; simpl; by rewrite eqb_str_refl).
      split_and!.
      * intros t Ht. rewrite lookup_insert_eq. simpl. by rewrite !recent_app, recent_recent.
      * apply Forall_app. split; [done|]. by constructor.
      * intros t. unfold in_hour. rewrite List.filter_app. fold (in_hour t (of_key key admitted)).
        rewrite length_app. destruct (Z.lt_ge_cases t at_) as [Hlt|Hge].
        { fold (in_hour t [at_]). rewrite in_hour_later by done. simpl. rewrite Nat.add_0_r. apply H3. }
        pose proof (in_hour_le_recent t at_ _ Hge H2).
        pose proof (List.filter_length_le (fun a => (t - Hour <? a) && (a <=? t)) [at_]) as Hf.
        change (length [at_]) with 1%nat in Hf. lia.
  - replace (of_key key' (match wait with None => _ | Some _ => _ end)) with (@nil Time).
    2: { destruct wait; [done|]. unfold of_key. simpl. by rewrite (proj2 (neqb_str _ _) Hne). }
    rewrite app_nil_r. split_and!; [|done..]. intros t Ht. rewrite <- H1 by done.
    destruct wait; destruct Hspec as (_ & Hh); [destruct Hh as [-> _]|subst hits'];
      by rewrite lookup_insert_ne.
Qed.

(** The clock never goes back. *)
Fixpoint in_order (last : Time) (calls : list (string * Time)) : Prop :=
  match calls with
  | [] => True
  | (_, at_) :: calls' => last <= at_ /\ in_order at_ calls'
  end.
Fixpoint last_call (last : Time) (calls : list (string * Time)) : Time :=
  match calls with [] => last | (_, at_) :: calls' => last_call at_ calls' end.

Lemma run_admits_inv calls : forall hits admitted last,
  0 < Max -> in_order last calls -> rate_inv hits admitted last ->
  rate_inv (run_admits calls hits).2 (admitted ++ (run_admits calls hits).1) (last_call last calls).
Proof.
  induction calls as [|[p at_] calls IH]; simpl; intros hits admitted last Hmax Hord Hinv.
  - by rewrite app_nil_r.
  - destruct Hord as [Hle Hord]. destruct (admit_at _ _ _ _) as [wait hits'] eqn:Ha.
    apply (rate_inv_weaken _ _ _ _ Hle) in Hinv.
    specialize (IH hits' _ at_ Hmax Hord (admit_at_inv _ _ _ _ _ _ Hmax Hinv Ha)).
    destruct (run_admits calls hits') as [adm hits'']. simpl in *. rewrite <- app_assoc in IH.
    by destruct wait.
Qed.

Lemma rate_inv_empty last : 0 < Max -> rate_inv ∅ [] last.
Proof.
  intros Hmax key. split_and!; [intros t _; by rewrite lookup_empty|constructor|].
  intros t. simpl. lia.
Qed.

End Rate.

(** Whatever the agents call and however the calls of different principals
    interleave, as long as the clock does not go back no hour admits more
    requests of one principal than the configured maximum. *)
Theorem rate_limit_holds {W} (cfg : Config W) calls start key t :
  0 < cfg_MaxRequestsPerHour cfg -> in_order start calls ->
  Z.of_nat (length (in_hour t (of_key key (run_admits cfg calls ∅).1)))
    <= cfg_MaxRequestsPerHour cfg.
Proof.
  intros Hmax Hord.
  destruct (run_admits_inv cfg calls ∅ [] start Hmax Hord (rate_inv_empty cfg start Hmax) key)
    as (_ & _ & H). apply H.
Qed.

Lemma rate_limit_holds_witness :
  let cfg := New {| cfg_Principals := None; cfg_Environments := None; cfg_Profiles := None;
    cfg_Freezes := None; cfg_Objects := None; cfg_ChangeFreeze := None; cfg_Recovery := None;
    cfg_Pending := None; cfg_Leases := None; cfg_MaxRequestsPerHour := 2;
    cfg_MaxPendingPerPrincipal := 0; cfg_RestoreDrillDays := 0; cfg_Now := None;
    cfg_SystemNow := ret (W := unit) 0 |} in
  let calls := [("a", 10); ("a", 20); ("", 20); ("a", 30)] in
  (run_admits cfg calls ∅).1 = [("a", 10); ("a", 20); ("stdio:unbound", 20)] /\
  Z.of_nat (length (in_hour 30 (of_key "a" (run_admits cfg calls ∅).1))) <= 2.
Proof.
  intros cfg calls. split; [by vm_compute|]. apply (rate_limit_holds cfg calls 0); simpl; lia.
Defined.

(** The wait a refused request is told is between nothing and an hour, and
    it is enough: once it has passed, the next request of that principal is
    admitted if no other came in between. *)
Theorem retry_after_suffices {W} (cfg : Config W) calls start p now_ wait hits' later :
  0 < cfg_MaxRequestsPerHour cfg -> in_order start calls -> last_call start calls <= now_ ->
  admit_at cfg (admit_key p) now_ (run_admits cfg calls ∅).2 = (Some wait, hits') ->
  now_ + wait <= later ->
  0 < wait <= Hour /\ (admit_at cfg (admit_key p) later hits').1 = None.
Proof.
  intros Hmax Hord Hlast Hadm Hlater. set (key := admit_key p) in *.
  pose proof (run_admits_inv cfg calls ∅ [] start Hmax Hord (rate_inv_empty cfg start Hmax)) as Hinv.
  apply (rate_inv_weaken cfg _ _ _ now_ Hlast) in Hinv. destruct (Hinv key) as (H1 & H2 & H3).
  pose proof (admit_at_spec cfg _ _ _ _ _ Hmax Hadm) as (Hge & -> & oldest & rest & Hk & Hw).
  rewrite (H1 now_) in Hge, Hk |- * by lia. set (log := of_key key _) in *.
  assert (Hold : oldest <= now_ /\ now_ - oldest < Hour).
  { assert (Hin : oldest ∈ recent now_ log) by (rewrite Hk; by apply elem_of_cons; left).
    unfold recent in Hin. rewrite list_elem_of_In, filter_In, recent_cond, Z.ltb_lt in Hin.
    destruct Hin as [Hin%list_elem_of_In ?]. rewrite Forall_forall in H2. split; [by apply H2|done]. }
  assert (Hwait : wait = oldest + Hour - now_).
  { rewrite Hw. unfold time_Add. apply time_Sub_exact. unfold Hour, Minute, Second, min_int64, max_int64 in *.
    lia. }
  split; [lia|]. destruct (admit_at cfg key later _) as [[w|] h] eqn:Hadm'; [|done]. exfalso.
  pose proof (admit_at_spec cfg _ _ _ _ _ Hmax Hadm') as (Hge' & _).
  rewrite lookup_insert_eq in Hge'. simpl in Hge'. rewrite Hk in Hge'.
  specialize (H3 now_). rewrite in_hour_recent, Hk in H3 by done. simpl in H3.
  unfold recent in Hge'. simpl in Hge'. rewrite recent_cond in Hge'.
  destruct (Z.ltb_spec (later - oldest) Hour); [lia|].
  pose proof (List.filter_length_le (fun t => time_Sub later t <? Hour) rest). lia.
Qed.

Lemma retry_after_suffices_witness :
  let cfg := New {| cfg_Principals := None; cfg_Environments := None; cfg_Profiles := None;
    cfg_Freezes := None; cfg_Objects := None; cfg_ChangeFreeze := None; cfg_Recovery := None;
    cfg_Pending := None; cfg_Leases := None; cfg_MaxRequestsPerHour := 2;
    cfg_MaxPendingPerPrincipal := 0; cfg_RestoreDrillDays := 0; cfg_Now := None;
    cfg_SystemNow := ret (W := unit) 0 |} in
  let calls := [("a", 10); ("a", 20)] in
  let refused := admit_at cfg "a" 30 (run_admits cfg calls ∅).2 in
  refused.1 = Some (Hour - 20) /\ 0 < Hour - 20 <= Hour /\
  (admit_at cfg "a" (10 + Hour) refused.2).1 = None.
Proof.
  intros cfg calls refused. split; [by vm_compute|].
  apply (retry_after_suffices cfg calls 0 "a" 30 (Hour - 20) refused.2 (10 + Hour));
    [by vm_compute|simpl; lia|simpl; lia|by vm_compute|lia].
Defined.
