(* ===== verification/ColumnClass.v ===== *)
(** * Column classifications

    internal/agentguard/classify: class.go (classes, what binds, the class of a
    column), grant.go (which columns a grant may list), rules.go (the classes
    proposed from names and types) and the reading of model suggestions of
    model.go from the decoded items on. *)

From S2P Require Import Prelude.
From S2P Require Import GoStd.
From S2P Require Import Envbind.

(** ** Classes *)

Abbreviation ColClass := string (only parsing).
Definition ClassClean : ColClass := "clean".
Definition ClassUntrusted : ColClass := "untrusted_input".
Definition ClassPII : ColClass := "pii".
Definition ClassSecret : ColClass := "secret".
Definition Unclassified : ColClass := "".

(** The map [narrowness]. *)
Definition narrowness (c : ColClass) : option Z :=
  if c =s ClassClean then Some 0 else if c =s ClassUntrusted then Some 1 else
  if c =s ClassPII then Some 2 else if c =s ClassSecret then Some 3 else None.

Definition ErrInvalidClass : string :=
  "classify: class must be clean, pii, secret or untrusted_input".
Definition ErrInvalidSource : string := "classify: proposals come from rules or the model".
Definition ErrNoEvidence : string := "classify: a proposal must cite evidence".
Definition ErrUnknownColumn : string :=
  "classify: the model named a column it was not shown".

Definition ParseClass (s : string) : result ColClass :=
  match narrowness s with
  | None => Err (ErrInvalidClass +:+ ": got " +:+ quote s)
  | Some _ => Ok s
  end.

Definition Narrowness (c : ColClass) : Z := match narrowness c with Some n => n | None => -1 end.

Abbreviation Status := string (only parsing).
Definition StatusProposed : Status := "proposed".
Definition StatusConfirmed : Status := "confirmed".
Definition StatusRejected : Status := "rejected".
Definition StatusExpired : Status := "expired".

Abbreviation Source := string (only parsing).
Definition SourceOperator : Source := "operator".
Definition SourceDetector : Source := "detector".
Definition SourceModel : Source := "model".

Definition RulesProposer : string := "classification rules".
Definition ModelProposer : string := "model".

(** ** Columns, proposals, classifications *)

Record Column : Type := {
  col_RelID : Z;
  col_AttNum : Z;
  col_Schema : string;
  col_Table : string;
  col_Name : string;
  col_Type : string;
  col_Comment : string;
}.

Definition QualifiedName (c : Column) : string :=
  if col_AttNum c =? 0 then col_Schema c +:+ "." +:+ col_Table c
  else col_Schema c +:+ "." +:+ col_Table c +:+ "." +:+ col_Name c.

Record Citation : Type := {
  ci_Kind : string;
  ci_Ref : string;
  ci_Detail : string;
}.

Record Proposal : Type := {
  pp_Column : Column;
  pp_Class : ColClass;
  pp_Source : Source;
  pp_ProposedBy : string;
  pp_Evidence : list Citation;
  pp_Rationale : string;
}.

Record Classification : Type := {
  cl_ID : Z;
  cl_Column : Column;
  cl_Class : ColClass;
  cl_Status : Status;
  cl_Source : Source;
  cl_ProposedBy : string;
  cl_Evidence : list Citation;
  cl_Rationale : string;
  cl_DecidedBy : string;
  cl_DecidedAt : option Time;
  cl_DecisionNote : string;
  cl_Proposals : Z;
  cl_Live : bool;
  cl_CreatedAt : Time;
  cl_UpdatedAt : Time;
}.

(** [Classification.Effective]: the class that binds now. *)
Definition effective_class (c : Classification) : ColClass :=
  if cl_Status c =s StatusConfirmed then cl_Class c else
  if cl_Status c =s StatusProposed then
    if Narrowness ClassClean <? Narrowness (cl_Class c) then cl_Class c else Unclassified
  else Unclassified.

Record Effective : Type := {
  ef_Class : ColClass;
  ef_Confirmed : bool;
  ef_FactID : Z;
}.

Record RelationClasses : Type := {
  rl_RelID : Z;
  rl_Table : option Classification;
  rl_Columns : gmap Z Classification;
}.

(** The closure [consider] of [Of]. *)
Definition consider (c : Classification) (out : Effective) : Effective :=
  let eff := effective_class c in
  if (eff =s Unclassified) || (Narrowness eff <? Narrowness (ef_Class out)) then out else
  if (eff =s ef_Class out) && ef_Confirmed out then out else
  {| ef_Class := eff; ef_Confirmed := cl_Status c =s StatusConfirmed; ef_FactID := cl_ID c |}.

Definition nothing_binds : Effective :=
  {| ef_Class := Unclassified; ef_Confirmed := false; ef_FactID := 0 |}.

Definition Of (r : RelationClasses) (attnum : Z) : Effective :=
  let out := nothing_binds in
  let out := match rl_Columns r !! attnum with Some c => consider c out | None => out end in
  match rl_Table r with Some c => consider c out | None => out end.

(** ** What a grant may list: grant.go *)

Definition ReasonSecret : string := "secret".
Definition ReasonUnclassified : string := "unclassified".
Definition ReasonPending : string := "pending".
Definition ReasonPIIWithoutUnmask : string := "pii_without_unmask".

Record Exclusion : Type := {
  ex_Column : Column;
  ex_Class : ColClass;
  ex_Reason : string;
}.

(** The [switch] of [Grantable]: why a column is left out. *)
Definition grant_reason (env : Env) (eff : Effective) (unmasked : bool) : string :=
  if ef_Class eff =s ClassSecret then ReasonSecret else
  if Rank env <=? Rank EnvDev then "" else
  if ef_Class eff =s Unclassified then ReasonUnclassified else
  if negb (ef_Confirmed eff) then ReasonPending else
  if (ef_Class eff =s ClassPII) && negb unmasked then ReasonPIIWithoutUnmask else "".

Definition is_unmasked (unmasked : option (Column -> bool)) (col : Column) : bool :=
  match unmasked with Some f => f col | None => false end.

Fixpoint Grantable (env : Env) (cols : list Column) (rc : RelationClasses)
    (unmasked : option (Column -> bool)) : list Column * list Exclusion :=
  match cols with
  | [] => ([], [])
  | col :: cols' =>
      let '(allowed, excluded) := Grantable env cols' rc unmasked in
      let eff := Of rc (col_AttNum col) in
      let reason := grant_reason env eff (is_unmasked unmasked col) in
      if reason <>s ""
      then (allowed, {| ex_Column := col; ex_Class := ef_Class eff; ex_Reason := reason |}
                       :: excluded)
      else (col :: allowed, excluded)
  end.

Definition ShouldMask (env : Env) (c : ColClass) (unmasked : bool) : bool :=
  (Rank env <=? Rank EnvDev) && (c =s ClassPII) && negb unmasked.

(** ** Proposals from names and types: rules.go *)

Record rule : Type := {
  ru_class : ColClass;
  ru_phrases : list (list string);
  ru_rationale : string;
  ru_textOnly : bool;
}.

Definition phrases (s : list string) : list (list string) := map Fields s.

Definition rules : list rule := [
  {| ru_class := ClassSecret; ru_rationale := "the name says it holds a credential or key";
     ru_phrases := phrases ["password"; "passwd"; "pwd"; "secret"; "api key"; "apikey"; "token";
       "private key"; "signing key"; "encryption key"; "credential"; "credentials";
       "card number"; "cvv"; "cvc"; "otp"; "totp"];
     ru_textOnly := false |};
  {| ru_class := ClassPII; ru_rationale := "the name says it identifies or contacts a person";
     ru_phrases := phrases ["email"; "e mail"; "emailaddress"; "phone"; "mobile"; "telephone";
       "first name"; "last name"; "full name"; "middle name"; "given name"; "family name";
       "surname"; "firstname"; "lastname"; "fullname"; "date of birth"; "dob"; "birthdate";
       "birth date"; "birthday"; "ssn"; "social security"; "national id"; "passport"; "tax id";
       "driver license"; "drivers license"; "street"; "address"; "postal code"; "postcode";
       "zip"; "zipcode"; "ip"; "iban"; "account number"];
     ru_textOnly := false |};
  {| ru_class := ClassUntrusted;
     ru_rationale := "the name says it holds free text that users or outsiders write";
     ru_phrases := phrases ["comment"; "comments"; "notes"; "body"; "message"; "content";
       "prompt"; "feedback"; "review"; "bio"; "description"; "user agent"; "instructions"];
     ru_textOnly := true |}].

Definition metaSuffixes : list string :=
  ["at"; "on"; "count"; "changed"; "updated"; "expires"; "expiry"; "length"; "len";
   "required"; "policy"; "enabled"; "version"; "attempts"; "used"; "id"; "type"; "kind";
   "status"].

(** [nameTokens]: [cur] is the token being read, in reverse; [prev] the
    character before. *)
Definition flush (cur : string) (rest : list string) : list string :=
  if cur =s "" then rest else ToLower (String.rev cur) :: rest.
Fixpoint name_tokens_from (prev : option ascii) (cur : string) (s : string) : list string :=
  match s with
  | EmptyString => flush cur []
  | String r s' =>
      if negb (is_letter r) && negb (is_digit r)
      then flush cur (name_tokens_from (Some r) "" s') else
      if is_upper r && match prev with Some p => is_lower p | None => false end
      then flush cur (name_tokens_from (Some r) (String r "") s')
      else name_tokens_from (Some r) (String r cur) s'
  end.
Definition nameTokens (name : string) : list string := name_tokens_from None "" name.

Fixpoint starts_with (phrase tokens : list string) : bool :=
  match phrase, tokens with
  | [], _ => true
  | p :: phrase', t :: tokens' => (t =s p) && starts_with phrase' tokens'
  | _ :: _, [] => false
  end.
Fixpoint containsRun (tokens phrase : list string) : bool :=
  starts_with phrase tokens ||
  match tokens with [] => false | _ :: tokens' => containsRun tokens' phrase end.

Definition isTextType (t : string) : bool :=
  existsb (HasPrefix t) ["text"; "character"; "varchar"; "citext"; "json"; "xml"; "char"].
Definition isTemporalType (t : string) : bool :=
  HasPrefix t "timestamp" || HasPrefix t "date" || HasPrefix t "time" || HasPrefix t "interval".
Definition isAddressType (t : string) : bool :=
  (t =s "inet") || (t =s "cidr") || (t =s "macaddr") || (t =s "macaddr8").

Definition ruleProposal (c : Column) (cls : ColClass) (rationale detail : string) : Proposal :=
  {| pp_Column := c; pp_Class := cls; pp_Source := SourceDetector;
     pp_ProposedBy := RulesProposer; pp_Rationale := rationale;
     pp_Evidence := [{| ci_Kind := "column"; ci_Ref := QualifiedName c; ci_Detail := detail |}] |}.

(** The phrase of a rule that a name matches, where the rule applies. *)
Definition rule_phrase (typ : string) (tokens : list string) (r : rule) : option (list string) :=
  if ru_textOnly r && negb (isTextType typ) then None else
  if (ru_class r <>s ClassPII) && isTemporalType typ then None else
  List.find (containsRun tokens) (ru_phrases r).

Fixpoint first_rule (c : Column) (typ : string) (tokens : list string) (rs : list rule)
    : option Proposal :=
  match rs with
  | [] => None
  | r :: rs' =>
      match rule_phrase typ tokens r with
      | Some ph => Some (ruleProposal c (ru_class r) (ru_rationale r)
                     ("name " +:+ quote (col_Name c) +:+ " matches " +:+ quote (Join ph " ") +:+
                      "; type " +:+ col_Type c))
      | None => first_rule c typ tokens rs'
      end
  end.

Definition suggestOne (c : Column) : option Proposal :=
  let typ := ToLower (col_Type c) in
  if (col_Name c =s "") || (typ =s "boolean") then None else
  if isAddressType typ
  then Some (ruleProposal c ClassPII "a network address identifies a person's device"
               ("type " +:+ col_Type c)) else
  let tokens := nameTokens (col_Name c) in
  match last tokens with
  | None => None
  | Some t => if str_in t metaSuffixes then None else first_rule c typ tokens rules
  end.

Definition Suggest (cols : list Column) : list Proposal := omap suggestOne cols.

(** ** Proposals from the model: model.go *)

Definition maxModelSuggestions : Z := 80.

Record modelItem : Type := {
  mi_Column : string;
  mi_Class : string;
  mi_Rationale : string;
}.

(** [clip] cuts before byte [n], or before the first byte of the character
    that byte [n] continues. *)
Fixpoint clip_at (n : nat) (s : string) : nat :=
  match n with
  | O => O
  | S n' => match String.get n s with
            | Some c => if Z.land (code c) 192 =? 128 then clip_at n' s else n
            | None => n
            end
  end.
Definition clip (s : string) (n : nat) : string :=
  if (String.length s <=? n)%nat then s else take_chars (clip_at n s) s.

Definition item_proposal (shown : gmap string Column) (it : modelItem) : result Proposal :=
  let bad := Err (mi_Column it +:+ ": " +:+ ErrInvalidClass +:+ " (model may not propose " +:+
                  quote (mi_Class it) +:+ ")") in
  match ParseClass (mi_Class it) with
  | Err _ => bad
  | Ok cls =>
      if cls =s ClassClean then bad else
      match shown !! mi_Column it with
      | None => Err (ErrUnknownColumn +:+ ": " +:+ quote (mi_Column it))
      | Some col =>
          let rationale := clip (TrimSpace (mi_Rationale it)) 500 in
          let rationale := if rationale =s ""
            then "proposed by the model from the column's schema text" else rationale in
          Ok {| pp_Column := col; pp_Class := cls; pp_Source := SourceModel;
                pp_ProposedBy := ModelProposer; pp_Rationale := rationale;
                pp_Evidence := [{| ci_Kind := "column"; ci_Ref := QualifiedName col;
                  ci_Detail := "schema text shown to the model: name, type, comment" |}] |}
      end
  end.

Definition shown_columns (cols : list Column) : gmap string Column :=
  foldl (fun m c => <[QualifiedName c := c]> m) ∅ cols.

(** The loop of [ParseModelSuggestions] over the decoded items. *)
Fixpoint read_items (shown : gmap string Column) (items : list modelItem)
    (seen : gset string) (props : list Proposal) (rejected : list error)
    : list Proposal * list error :=
  match items with
  | [] => (props, rejected)
  | it :: items' =>
      match item_proposal shown it with
      | Err e => read_items shown items' seen props (rejected ++ [e])
      | Ok p =>
          if bool_decide (mi_Column it ∈ seen) || (Z.of_nat (length props) =? maxModelSuggestions)
          then read_items shown items' seen props rejected
          else read_items shown items' ({[mi_Column it]} ∪ seen) (props ++ [p]) rejected
      end
  end.
Definition ParseModelItems (items : list modelItem) (cols : list Column)
    : list Proposal * list error := read_items (shown_columns cols) items ∅ [] [].

(** ** Which proposals are stored: store_propose.go *)

Definition validateProposal (p : Proposal) : result unit :=
  match ParseClass (pp_Class p) with
  | Err _ => Err (ErrInvalidClass +:+
                  ": proposals only narrow (pii, secret, untrusted_input)")
  | Ok cls =>
      if cls =s ClassClean
      then Err (ErrInvalidClass +:+ ": proposals only narrow (pii, secret, untrusted_input)") else
      if (col_AttNum (pp_Column p) =? 0) && (cls <>s ClassUntrusted)
      then Err (ErrInvalidClass +:+ ": a whole table can only be untrusted_input") else
      if (pp_Source p <>s SourceDetector) && (pp_Source p <>s SourceModel)
      then Err (ErrInvalidSource +:+ ": " +:+ quote (pp_Source p)) else
      if existsb (fun c => (TrimSpace (ci_Kind c) <>s "") && (TrimSpace (ci_Ref c) <>s ""))
           (pp_Evidence p)
      then Ok tt else Err ErrNoEvidence
  end.
