(* ===== verification/ColumnStore.v ===== *)
(** * The classification store

    internal/agentguard/classify: the transitions of store.go, store_propose.go
    and store_decide.go on the column_class rows of sage.facts, and what any
    sequence of them means for the columns a grant may list.

    The rows of a database are a map from relations to a map from attribute
    numbers (0 for the table), the subject of a fact; the statements' [now()]
    and a new row's id are arguments, and so is the catalog: whether a column or
    a table exists. *)

From S2P Require Import Prelude.
From S2P Require Import GoStd.
From S2P Require Import Envbind.
From S2P Require Import EnvLabels.
From S2P Require Import ColumnClass.

Abbreviation Facts := (gmap Z (gmap Z Classification)) (only parsing).

(** The row of a subject. *)
Definition fact (t : Facts) (relid attnum : Z) : option Classification :=
  t !! relid ≫= (fun rows => rows !! attnum).
Definition put (c : Classification) (t : Facts) : Facts :=
  let col := cl_Column c in
  <[col_RelID col := <[col_AttNum col := c]> (default ∅ (t !! col_RelID col))]> t.

Definition cleanNote (s : string) : string :=
  clip (str_map (fun c => if is_control c then " "%char else c) (TrimSpace s)) 1000.

(** ** Proposing *)

(** The [WHERE] of [proposeSQL]'s update. *)
Definition reopens (f : Classification) (p : Proposal) : bool :=
  (cl_Status f =s StatusExpired) ||
  ((cl_Status f =s StatusRejected) && (cl_Class f <>s pp_Class p)) ||
  ((cl_Status f =s StatusProposed) && (Narrowness (cl_Class f) <? Narrowness (pp_Class p))).

Definition proposed_row (id : Z) (created : Time) (proposals : Z) (p : Proposal) (now : Time)
    : Classification :=
  {| cl_ID := id; cl_Column := pp_Column p; cl_Class := pp_Class p; cl_Status := StatusProposed;
     cl_Source := pp_Source p; cl_ProposedBy := clip (pp_ProposedBy p) 200;
     cl_Evidence := take 10 (pp_Evidence p);
     cl_Rationale := clip (cleanNote (pp_Rationale p)) 2000;
     cl_DecidedBy := ""; cl_DecidedAt := None; cl_DecisionNote := "";
     cl_Proposals := proposals; cl_Live := true; cl_CreatedAt := created; cl_UpdatedAt := now |}.

(** [Propose]: the stored row and whether an operator must now decide it. *)
Definition Propose (live : Z -> Z -> bool) (id : Z) (now : Time) (p : Proposal) (t : Facts)
    : result (Classification * bool) * Facts :=
  match validateProposal p with
  | Err e => (Err e, t)
  | Ok _ =>
      let col := pp_Column p in
      let written prior r := (Ok (r, (prior =s "") || (prior =s StatusExpired) ||
                                     (prior =s StatusRejected)), put r t) in
      let missing := (Err ("classify: no such user column: " +:+ QualifiedName col), t) in
      match fact t (col_RelID col) (col_AttNum col) with
      | None => if live (col_RelID col) (col_AttNum col)
                then written "" (proposed_row id now 1 p now) else missing
      | Some f =>
          if live (col_RelID col) (col_AttNum col) && reopens f p
          then written (cl_Status f)
                 (proposed_row (cl_ID f) (cl_CreatedAt f) (cl_Proposals f + 1) p now)
          else (Ok (f, false), t)
      end
  end.

(** ** Deciding, setting and expiring *)

Definition decided_row (confirm : bool) (actor note : string) (now : Time) (c : Classification)
    : Classification :=
  {| cl_ID := cl_ID c; cl_Column := cl_Column c; cl_Class := cl_Class c;
     cl_Status := if confirm then StatusConfirmed else StatusRejected;
     cl_Source := cl_Source c; cl_ProposedBy := cl_ProposedBy c; cl_Evidence := cl_Evidence c;
     cl_Rationale := cl_Rationale c; cl_DecidedBy := actor; cl_DecidedAt := Some now;
     cl_DecisionNote := cleanNote note; cl_Proposals := cl_Proposals c; cl_Live := cl_Live c;
     cl_CreatedAt := cl_CreatedAt c; cl_UpdatedAt := now |}.

(** [Decide] on the row that [get] finds for an id; [hash] is
    [Classification.Hash]. *)
Definition Decide (hash : Classification -> string) (cur : option Classification) (id : Z)
    (confirm : bool) (actor note expectHash : string) (now : Time) (t : Facts)
    : result Classification * Facts :=
  match validActor actor with
  | Err _ => (Err "classify: a decision names who made it", t)
  | Ok actor =>
      match cur with
      | None => (Err ("classify: classification not found: id " +:+ itoa id), t)
      | Some c =>
          if cl_Status c <>s StatusProposed
          then (Err ("classify: only a proposed classification can be decided: classification "
                     +:+ itoa id +:+ " is " +:+ cl_Status c), t) else
          if (expectHash <>s "") && (expectHash <>s hash c)
          then (Err "classify: the classification changed since it was shown", t) else
          let r := decided_row confirm actor note now c in (Ok r, put r t)
      end
  end.

Definition set_row (id : Z) (created : Time) (proposals : Z) (evidence : list Citation)
    (col : Column) (cls : ColClass) (actor note : string) (now : Time) : Classification :=
  {| cl_ID := id; cl_Column := col; cl_Class := cls; cl_Status := StatusConfirmed;
     cl_Source := SourceOperator; cl_ProposedBy := actor; cl_Evidence := evidence;
     cl_Rationale := cleanNote note; cl_DecidedBy := actor; cl_DecidedAt := Some now;
     cl_DecisionNote := cleanNote note; cl_Proposals := proposals; cl_Live := true;
     cl_CreatedAt := created; cl_UpdatedAt := now |}.

(** [Store.Set]; [live] answers [liveColumn]. *)
Definition SetClass (live : result Column) (col : Column) (id : Z) (cls : ColClass)
    (actor note : string) (now : Time) (t : Facts) : result Classification * Facts :=
  match ParseClass cls with
  | Err e => (Err e, t)
  | Ok _ =>
      if (col_AttNum col =? 0) && (cls <>s ClassUntrusted)
      then (Err (ErrInvalidClass +:+ ": a whole table can only be untrusted_input"), t) else
      match validActor actor with
      | Err _ => (Err "classify: a decision names who made it", t)
      | Ok actor =>
          match live with
          | Err e => (Err e, t)
          | Ok col =>
              let r := match fact t (col_RelID col) (col_AttNum col) with
                       | Some f => set_row (cl_ID f) (cl_CreatedAt f) (cl_Proposals f + 1)
                                     (cl_Evidence f) col cls actor note now
                       | None => set_row id now 1 [] col cls actor note now
                       end in
              (Ok r, put r t)
          end
      end
  end.

Definition binds (c : Classification) : bool :=
  (cl_Status c =s StatusProposed) || (cl_Status c =s StatusConfirmed).

Definition expired_row (now : Time) (c : Classification) : Classification :=
  {| cl_ID := cl_ID c; cl_Column := cl_Column c; cl_Class := cl_Class c;
     cl_Status := StatusExpired; cl_Source := cl_Source c; cl_ProposedBy := cl_ProposedBy c;
     cl_Evidence := cl_Evidence c; cl_Rationale := cl_Rationale c;
     cl_DecidedBy := cl_DecidedBy c; cl_DecidedAt := cl_DecidedAt c;
     cl_DecisionNote := cl_DecisionNote c; cl_Proposals := cl_Proposals c; cl_Live := cl_Live c;
     cl_CreatedAt := cl_CreatedAt c; cl_UpdatedAt := now |}.

(** [ExpireDropped], without the count it answers. *)
Definition ExpireDropped (live : Z -> Z -> bool) (now : Time) (t : Facts) : Facts :=
  map_imap (fun relid rows => Some (map_imap (fun attnum c =>
    Some (if binds c && negb (live relid attnum) then expired_row now c else c)) rows)) t.

(** ** Reading *)

(** [Lookup]: the live rows of a relation that bind. *)
Definition Lookup (live : Z -> Z -> bool) (t : Facts) (relid : Z) : RelationClasses :=
  let bound attnum c := if binds c && live relid attnum then Some c else None in
  {| rl_RelID := relid;
     rl_Table := fact t relid 0 ≫= bound 0;
     rl_Columns := map_imap bound (delete 0 (default ∅ (t !! relid))) |}.

Definition ClassOf (live : Z -> Z -> bool) (t : Facts) (relid attnum : Z) : Effective :=
  Of (Lookup live t relid) attnum.

(** * Properties *)

(** ** The order of the classes *)

Lemma Narrowness_range c : -1 <= Narrowness c <= 3.
Proof. unfold Narrowness, narrowness. repeat case_match; simplify_eq; lia. Qed.

Definition known_class (c : ColClass) : Prop := is_ok (ParseClass c) = true.

Lemma known_class_nonneg c : known_class c <-> 0 <= Narrowness c.
Proof.
  unfold known_class, ParseClass, Narrowness, narrowness. repeat case_match; simplify_eq; simpl;
    split; intros; lia || done.
Qed.

Lemma Narrowness_inj c c' : 0 <= Narrowness c -> Narrowness c = Narrowness c' -> c = c'.
Proof.
  unfold Narrowness, narrowness. intros H0 H.
  repeat (match type of H with context [?a =s ?b] => destruct (String.eqb_spec a b); subst end);
    simpl in *; lia || done.
Qed.

Lemma effective_class_cases c :
  known_class (cl_Class c) ->
  effective_class c = Unclassified \/
  effective_class c = cl_Class c /\ 0 <= Narrowness (cl_Class c) /\
  (cl_Status c = StatusConfirmed \/ cl_Status c = StatusProposed /\ 0 < Narrowness (cl_Class c)).
Proof.
  intros Hk%known_class_nonneg. unfold effective_class.
  destruct (String.eqb_spec (cl_Status c) StatusConfirmed); [right; auto|].
  destruct (String.eqb_spec (cl_Status c) StatusProposed); [|by left].
  destruct (Z.ltb_spec (Narrowness ClassClean) (Narrowness (cl_Class c))) as [Hlt|]; [|by left].
  change (Narrowness ClassClean) with 0 in Hlt. right. auto.
Qed.

(** ** The class of a column *)

(** The rows that can bind a column: its own and the table's. *)
Definition binding_rows (rc : RelationClasses) (attnum : Z) : list Classification :=
  option_list (rl_Columns rc !! attnum) ++ option_list (rl_Table rc).

(** What [Of] answers after looking at some rows: the narrowest effective class,
    confirmed when a confirmed row has it. *)
Definition narrowest (rows : list Classification) (e : Effective) : Prop :=
  (ef_Class e = Unclassified /\ ef_Confirmed e = false \/
   0 <= Narrowness (ef_Class e) /\
   exists c, c ∈ rows /\ effective_class c = ef_Class e) /\
  (forall c, c ∈ rows -> Narrowness (effective_class c) <= Narrowness (ef_Class e)) /\
  (ef_Confirmed e = true <-> exists c, c ∈ rows /\ effective_class c = ef_Class e /\
     0 <= Narrowness (ef_Class e) /\ cl_Status c = StatusConfirmed).

Lemma consider_narrowest rows e c :
  known_class (cl_Class c) -> narrowest rows e -> narrowest (rows ++ [c]) (consider c e).
Proof.
  intros Hk (Hcase & Hmax & Hconf).
  assert (Hin : forall x, x ∈ rows ++ [c] <-> x ∈ rows \/ x = c)
    by (intros x; rewrite elem_of_app, list_elem_of_singleton; done).
  assert (Hm1 : Narrowness Unclassified = -1) by done.
  pose proof (Narrowness_range (ef_Class e)) as He.
  unfold consider. destruct (effective_class_cases c Hk) as [Hu|(Heff & Hpos & Hst)].
  { rewrite Hu, eqb_str_refl. simpl. split_and!.
    - destruct Hcase as [?|(? & x & ? & ?)]; [by left|right]. split; [done|]. exists x. by rewrite Hin; auto.
    - intros x [Hx| ->]%Hin; [auto|]. rewrite Hu, Hm1. lia.
    - rewrite Hconf. split; intros (x & Hx & Hxe & Hp & ?).
      + exists x. by rewrite Hin; auto.
      + apply Hin in Hx as [?| ->]; [eauto|]. rewrite Hu in Hxe. rewrite <- Hxe in Hp. lia. }
  rewrite Heff. assert (Hne : (cl_Class c =s Unclassified) = false).
  { apply neqb_str. intros E. rewrite E in Hpos. lia. }
  rewrite Hne. simpl. destruct (Z.ltb_spec (Narrowness (cl_Class c)) (Narrowness (ef_Class e))) as [Hlt|Hge].
  { split_and!.
    - destruct Hcase as [?|(? & x & ? & ?)]; [by left|right]. split; [done|]. exists x. by rewrite Hin; auto.
    - intros x [Hx| ->]%Hin; [auto|]. rewrite Heff. lia.
    - rewrite Hconf. split; intros (x & Hx & Hxe & ? & ?).
      + exists x. by rewrite Hin; auto.
      + apply Hin in Hx as [?| ->]; [eauto|]. rewrite Heff in Hxe. rewrite Hxe in Hlt. lia. }
  destruct ((cl_Class c =s ef_Class e) && ef_Confirmed e) eqn:Eb.
  { apply andb_true_iff in Eb as [Eb Ec]. apply eqb_str in Eb. split_and!.
    - destruct Hcase as [[? ?]|(? & x & ? & ?)]; [congruence|right]. split; [done|]. exists x. by rewrite Hin; auto.
    - intros x [Hx| ->]%Hin; [auto|]. rewrite Heff, Eb. done.
    - split; [intros _|done]. destruct (proj1 Hconf Ec) as (x & ? & ? & ? & ?).
      exists x. by rewrite Hin; auto. }
  split_and!; simpl.
  - right. split; [done|]. exists c. rewrite Hin. auto.
  - intros x [Hx| ->]%Hin; [specialize (Hmax x Hx); lia|]. by rewrite Heff.
  - rewrite eqb_str. split; [intros Hc; exists c; rewrite Hin; auto|].
    intros (x & Hx & Hxe & _ & Hxs). apply Hin in Hx as [Hx| ->]; [|done].
    specialize (Hmax x Hx). rewrite Hxe in Hmax.
    assert (Heq : cl_Class c = ef_Class e) by (apply Narrowness_inj; lia).
    assert (Hct : ef_Confirmed e = true) by (apply Hconf; exists x; rewrite <- Heq; auto).
    rewrite Heq, eqb_str_refl, Hct in Eb. done.
Qed.

Lemma nothing_narrowest : narrowest [] nothing_binds.
Proof.
  split_and!; [by left|by intros c ?%elem_of_nil|]. split; [done|]. intros (c & ?%elem_of_nil & _). done.
Qed.

Lemma Of_narrowest rc attnum :
  (forall c, c ∈ binding_rows rc attnum -> known_class (cl_Class c)) ->
  narrowest (binding_rows rc attnum) (Of rc attnum).
Proof.
  unfold binding_rows, Of. intros Hk.
  destruct (rl_Columns rc !! attnum) as [c|], (rl_Table rc) as [d|]; simpl in *.
  - apply (consider_narrowest [c]); [apply Hk; set_solver|].
    apply (consider_narrowest []); [apply Hk; set_solver|]. apply nothing_narrowest.
  - apply (consider_narrowest []); [apply Hk; set_solver|]. apply nothing_narrowest.
  - apply (consider_narrowest []); [apply Hk; set_solver|]. apply nothing_narrowest.
  - apply nothing_narrowest.
Qed.

(** ** What a stricter class takes from a grant *)

(** [b] restricts nothing that [a] does not: it has a class at most as narrow,
    and a confirmation of [a] is one of [b]. *)
Definition stricter (b a : Effective) : Prop :=
  Narrowness (ef_Class b) <= Narrowness (ef_Class a) /\
  (ef_Confirmed a = true -> ef_Class b = ef_Class a /\ ef_Confirmed b = true).

Lemma stricter_grant b a env unmasked :
  stricter b a -> grant_reason env a unmasked = "" -> grant_reason env b unmasked = "".
Proof.
  intros [Hn Hc]. unfold grant_reason.
  destruct (String.eqb_spec (ef_Class a) ClassSecret); [done|].
  destruct (String.eqb_spec (ef_Class b) ClassSecret) as [Hb|].
  { rewrite Hb in Hn. exfalso. pose proof (Narrowness_range (ef_Class a)).
    assert (Heq : ef_Class a = ClassSecret); [|done].
    change (Narrowness ClassSecret) with 3 in Hn. apply Narrowness_inj; [lia|].
    change (Narrowness ClassSecret) with 3. lia. }
  destruct (Rank env <=? Rank EnvDev); [done|].
  destruct (ef_Class a =s Unclassified) eqn:Eu; [done|].
  destruct (ef_Confirmed a) eqn:Ea; simpl; [|done].
  destruct (Hc eq_refl) as [-> ->]. by rewrite Eu.
Qed.

Lemma Grantable_allowed env cols rc unmasked col :
  col ∈ (Grantable env cols rc unmasked).1 <->
  col ∈ cols /\ grant_reason env (Of rc (col_AttNum col)) (is_unmasked unmasked col) = "".
Proof.
  induction cols as [|c cols IH]; simpl; [rewrite !elem_of_nil; naive_solver|].
  destruct (Grantable env cols rc unmasked) as [allowed excluded]. simpl in *.
  destruct (String.eqb_spec (grant_reason env (Of rc (col_AttNum c)) (is_unmasked unmasked c)) "");
    simpl; rewrite ?elem_of_cons, IH; naive_solver.
Qed.

(** A grant lists exactly the columns it may: never a secret one, confirmed
    or proposed; in branch and dev every other column; in stage and prod, and in
    an environment nobody knows, only columns whose narrowest binding class an
    operator confirmed, and personal data only when unmasked. Every column of
    the request is listed or excluded with a reason. *)
Theorem grantable_exact env cols rc unmasked col :
  (forall c, c ∈ binding_rows rc (col_AttNum col) -> known_class (cl_Class c)) ->
  let rows := binding_rows rc (col_AttNum col) in
  col ∈ (Grantable env cols rc unmasked).1 <->
  col ∈ cols /\
  (forall c, c ∈ rows -> effective_class c <> ClassSecret) /\
  (Rank EnvDev < Rank env ->
     exists c, c ∈ rows /\ cl_Status c = StatusConfirmed /\
       (forall c', c' ∈ rows -> Narrowness (effective_class c') <= Narrowness (cl_Class c)) /\
       (cl_Class c = ClassPII -> is_unmasked unmasked col = true)).
Proof.
  intros Hk rows. rewrite Grantable_allowed.
  destruct (Of_narrowest rc (col_AttNum col) Hk) as (Hcase & Hmax & Hconf). fold rows in Hcase, Hmax, Hconf, Hk.
  set (e := Of rc (col_AttNum col)) in *.
  assert (Hsecret : (forall c, c ∈ rows -> effective_class c <> ClassSecret) <-> ef_Class e <> ClassSecret).
  { split.
    - intros H He. destruct Hcase as [[Hu _]|(_ & c & Hc & Heq)]; [by rewrite Hu in He|].
      apply (H c Hc). congruence.
    - intros H c Hc Hs. apply H. specialize (Hmax c Hc). rewrite Hs in Hmax.
      change (Narrowness ClassSecret) with 3 in Hmax. pose proof (Narrowness_range (ef_Class e)).
      apply Narrowness_inj; [lia|]. change (Narrowness ClassSecret) with 3. lia. }
  assert (Hwide : (ef_Class e <> Unclassified /\ ef_Confirmed e = true /\
      (ef_Class e = ClassPII -> is_unmasked unmasked col = true)) <->
    exists c, c ∈ rows /\ cl_Status c = StatusConfirmed /\
       (forall c', c' ∈ rows -> Narrowness (effective_class c') <= Narrowness (cl_Class c)) /\
       (cl_Class c = ClassPII -> is_unmasked unmasked col = true)).
  { assert (Heff : forall c, cl_Status c = StatusConfirmed -> effective_class c = cl_Class c)
      by (intros c Hs; unfold effective_class; by rewrite Hs).
    split.
    - intros (_ & Hct & Hpii). destruct (proj1 Hconf Hct) as (c & Hc & Hce & _ & Hs).
      rewrite (Heff c Hs) in Hce. exists c. rewrite Hce. auto.
    - intros (c & Hc & Hs & Hle & Hpii). pose proof (Heff c Hs) as Hce.
      pose proof (proj1 (known_class_nonneg _) (Hk c Hc)) as Hpos.
      assert (Heq : ef_Class e = cl_Class c).
      { pose proof (Hmax c Hc) as H1. rewrite Hce in H1.
        destruct Hcase as [[Hu _]|(Hp & x & Hx & Hxe)].
        - rewrite Hu in H1. change (Narrowness Unclassified) with (-1) in H1. lia.
        - specialize (Hle x Hx). rewrite Hxe in Hle. apply Narrowness_inj; lia. }
      rewrite Heq. split_and!; [|apply Hconf; exists c; rewrite Heq; auto|done].
      intros E. rewrite E in Hpos. change (Narrowness Unclassified) with (-1) in Hpos. lia. }
  rewrite Hsecret, <- Hwide. unfold grant_reason.
  destruct (String.eqb_spec (ef_Class e) ClassSecret); [naive_solver|].
  destruct (Z.leb_spec (Rank env) (Rank EnvDev)); [split; intros; split_and!; naive_solver lia|].
  destruct (String.eqb_spec (ef_Class e) Unclassified); [naive_solver|].
  destruct (ef_Confirmed e); simpl; [|naive_solver].
  destruct (String.eqb_spec (ef_Class e) ClassPII), (is_unmasked unmasked col); simpl; naive_solver.
Qed.

(** A table row about column 3, one confirmed and one pending column. *)
Definition sample_column (attnum : Z) : Column :=
  {| col_RelID := 7; col_AttNum := attnum; col_Schema := "public"; col_Table := "users";
     col_Name := "nick"; col_Type := "text"; col_Comment := "" |}.
Definition sample_class (attnum : Z) (cls : ColClass) (status : Status) : Classification :=
  {| cl_ID := attnum; cl_Column := sample_column attnum; cl_Class := cls; cl_Status := status;
     cl_Source := SourceOperator; cl_ProposedBy := "ann"; cl_Evidence := []; cl_Rationale := "";
     cl_DecidedBy := "ann"; cl_DecidedAt := None; cl_DecisionNote := ""; cl_Proposals := 1;
     cl_Live := true; cl_CreatedAt := 0; cl_UpdatedAt := 0 |}.
Definition sample_facts : Facts :=
  put (sample_class 1 ClassClean StatusConfirmed)
    (put (sample_class 2 ClassPII StatusProposed) ∅).
Definition all_live : Z -> Z -> bool := fun _ _ => true.

Lemma grantable_exact_witness :
  let rc := Lookup all_live sample_facts 7 in
  let cols := [sample_column 1; sample_column 2; sample_column 3] in
  (Grantable EnvProd cols rc None).1 = [sample_column 1] /\
  exists c, c ∈ binding_rows rc 1 /\ cl_Status c = StatusConfirmed.
Proof.
  intros rc cols. split; [by vm_compute|].
  assert (Hrows : binding_rows rc (col_AttNum (sample_column 1)) =
    [sample_class 1 ClassClean StatusConfirmed]) by by vm_compute.
  destruct (proj1 (grantable_exact EnvProd cols rc None (sample_column 1)
    ltac:(intros c; rewrite Hrows, list_elem_of_singleton; intros ->; reflexivity)))
    as (_ & _ & H).
  - replace (Grantable EnvProd cols rc None).1 with [sample_column 1] by by vm_compute.
    apply list_elem_of_singleton. reflexivity.
  - destruct (H eq_refl) as (c & Hc & Hs & _). exists c. split; assumption.
Defined.

(** ** Well-formed stores *)

(** Every row sits under its own subject and has a known class; a class of a
    whole table is untrusted_input. *)
Definition wf_row (relid attnum : Z) (c : Classification) : Prop :=
  col_RelID (cl_Column c) = relid /\ col_AttNum (cl_Column c) = attnum /\
  known_class (cl_Class c) /\ (attnum = 0 -> cl_Class c = ClassUntrusted).
Definition wf_facts (t : Facts) : Prop :=
  forall relid attnum c, fact t relid attnum = Some c -> wf_row relid attnum c.

Lemma fact_put c t relid attnum :
  fact (put c t) relid attnum =
  if bool_decide (col_RelID (cl_Column c) = relid /\ col_AttNum (cl_Column c) = attnum)
  then Some c else fact t relid attnum.
Proof.
  unfold fact, put. set (col := cl_Column c).
  destruct (decide (col_RelID col = relid)) as [<-|Hr].
  - rewrite lookup_insert_eq. simpl. destruct (decide (col_AttNum col = attnum)) as [<-|Ha].
    + rewrite lookup_insert_eq, bool_decide_true; done.
    + rewrite lookup_insert_ne, bool_decide_false by naive_solver. by destruct (t !! _).
  - rewrite lookup_insert_ne, bool_decide_false by naive_solver. done.
Qed.

Lemma put_wf c t :
  wf_facts t -> wf_row (col_RelID (cl_Column c)) (col_AttNum (cl_Column c)) c -> wf_facts (put c t).
Proof.
  intros Ht Hc relid attnum c'. rewrite fact_put. case_bool_decide as Hk; [|apply Ht].
  intros [= <-]. by destruct Hk as [<- <-].
Qed.

Lemma known_of_parse c x : ParseClass c = Ok x -> x = c /\ known_class c.
Proof. unfold ParseClass, known_class. unfold ParseClass. by destruct (narrowness c) eqn:E; intros [= <-]. Qed.

Lemma validateProposal_Ok p :
  validateProposal p = Ok tt ->
  0 < Narrowness (pp_Class p) /\ (col_AttNum (pp_Column p) = 0 -> pp_Class p = ClassUntrusted) /\
  (pp_Source p = SourceDetector \/ pp_Source p = SourceModel).
Proof.
  unfold validateProposal. destruct (ParseClass (pp_Class p)) as [cls|] eqn:Hp; [|done].
  apply known_of_parse in Hp as [-> Hk%known_class_nonneg].
  destruct (String.eqb_spec (pp_Class p) ClassClean) as [|Hne]; [done|].
  destruct (Z.eqb_spec (col_AttNum (pp_Column p)) 0), (String.eqb_spec (pp_Class p) ClassUntrusted);
    simpl; try done.
  all: destruct (String.eqb_spec (pp_Source p) SourceDetector), (String.eqb_spec (pp_Source p) SourceModel);
    simpl; try done; intros _; split_and!; try (by auto); try done.
  all: assert (Narrowness (pp_Class p) <> 0); [|lia].
  all: intros H0; apply Hne, Narrowness_inj; [lia|by rewrite H0].
Qed.

(** What [Propose] may do to the store. *)
Lemma Propose_cases live id now p t r t' :
  Propose live id now p t = (r, t') ->
  t' = t \/
  exists c, t' = put c t /\ validateProposal p = Ok tt /\
    cl_Column c = pp_Column p /\ cl_Class c = pp_Class p /\ cl_Status c = StatusProposed /\
    live (col_RelID (pp_Column p)) (col_AttNum (pp_Column p)) = true /\
    forall f, fact t (col_RelID (pp_Column p)) (col_AttNum (pp_Column p)) = Some f ->
      reopens f p = true.
Proof.
  unfold Propose. destruct (validateProposal p) as [[]|] eqn:Hv; [|intros [= _ <-]; by left].
  cbv zeta. destruct (fact t _ _) as [f|] eqn:Hf.
  - destruct (live _ _) eqn:Hl, (reopens f p) eqn:Hre; simpl; intros [= _ <-]; try by left.
    right. eexists. split; [reflexivity|]. split_and!; try done. intros f' [= <-]. done.
  - destruct (live _ _) eqn:Hl; simpl; intros [= _ <-]; [|by left].
    right. eexists. split; [reflexivity|]. split_and!; try done.
Qed.

Lemma Propose_wf live id now p t r t' :
  Propose live id now p t = (r, t') -> wf_facts t -> wf_facts t'.
Proof.
  intros [->|(c & -> & Hv & Hcol & Hcls & _)]%Propose_cases Ht; [done|].
  apply validateProposal_Ok in Hv as (Hn & H0 & _). apply put_wf; [done|].
  split_and!; try done; rewrite Hcls; [|by rewrite Hcol].
  apply known_class_nonneg. lia.
Qed.

(** ** Proposals only take away *)

Lemma narrowest_stricter before after b a :
  narrowest before b -> narrowest after a ->
  (forall c, c ∈ before -> exists c', c' ∈ after /\
     Narrowness (effective_class c) <= Narrowness (effective_class c')) ->
  (forall c, c ∈ after -> cl_Status c = StatusConfirmed -> c ∈ before) ->
  stricter b a.
Proof.
  intros (Hcb & Hmb & Hfb) (Hca & Hma & Hfa) Hup Hconf.
  assert (Hle : Narrowness (ef_Class b) <= Narrowness (ef_Class a)).
  { destruct Hcb as [[Hu _]|(_ & c & Hc & Heq)].
    - rewrite Hu. change (Narrowness Unclassified) with (-1). apply Narrowness_range.
    - destruct (Hup c Hc) as (c' & Hc' & Hn). specialize (Hma c' Hc'). rewrite Heq in Hn. lia. }
  split; [done|]. intros Ha. destruct (proj1 Hfa Ha) as (c & Hc & Heq & Hpos & Hs).
  specialize (Hconf c Hc Hs). specialize (Hmb c Hconf). rewrite Heq in Hmb.
  assert (Hcls : ef_Class b = ef_Class a) by (symmetry; apply Narrowness_inj; lia).
  split; [done|]. apply Hfb. exists c. rewrite Hcls. auto.
Qed.

(** The rows that bind a column, from the store. *)
Lemma binding_rows_Lookup live t relid attnum c :
  c ∈ binding_rows (Lookup live t relid) attnum <->
  exists k, (k = 0 \/ k = attnum) /\ fact t relid k = Some c /\ binds c = true /\
    live relid k = true.
Proof.
  unfold binding_rows. rewrite elem_of_app. simpl. rewrite map_lookup_imap.
  assert (Hb : forall k o, c ∈ option_list (o ≫= (fun c => if binds c && live relid k then Some c else None))
    <-> o = Some c /\ binds c = true /\ live relid k = true).
  { intros k [x|]; simpl; [|rewrite elem_of_nil; naive_solver].
    destruct (binds x) eqn:E1, (live relid k) eqn:E2; simpl;
      rewrite ?list_elem_of_singleton, ?elem_of_nil; naive_solver congruence. }
  rewrite !Hb. assert (Hd : forall o : option (gmap Z Classification),
    default ∅ o !! attnum = (o ≫= (.!! attnum))) by (intros [m|]; simpl; [done|apply lookup_empty]).
  destruct (decide (attnum = 0)) as [->|Hne].
  - rewrite lookup_delete_eq. split; [intros [[? _]|?]; [done|exists 0; auto]|].
    intros (k & [->| ->] & H); by right.
  - rewrite lookup_delete_ne, Hd by done. fold (fact t relid attnum).
    split; [intros [?|?]; eauto|]. intros (k & [->| ->] & H); auto.
Qed.

Lemma Lookup_known live t relid attnum :
  wf_facts t -> forall c, c ∈ binding_rows (Lookup live t relid) attnum -> known_class (cl_Class c).
Proof. intros Ht c (k & _ & Hf & _)%binding_rows_Lookup. by apply (Ht _ _ _ Hf). Qed.

Lemma Propose_stricter live id now p t r t' relid attnum :
  wf_facts t -> Propose live id now p t = (r, t') ->
  stricter (ClassOf live t relid attnum) (ClassOf live t' relid attnum).
Proof.
  intros Ht Hp. pose proof (Propose_wf _ _ _ _ _ _ _ Hp Ht) as Ht'.
  eapply narrowest_stricter; [apply Of_narrowest, Lookup_known, Ht|apply Of_narrowest, Lookup_known, Ht'|..].
  all: destruct (Propose_cases _ _ _ _ _ _ _ Hp) as [->|(c0 & -> & Hv & Hcol & Hcls & Hst & Hl & Hre)].
  - intros c Hc. exists c. split; [done|lia].
  - intros c Hc. pose proof (Lookup_known _ _ _ _ Ht c Hc) as Hk.
    apply binding_rows_Lookup in Hc as (k & Hk0 & Hf & Hb & Hlive).
    destruct (decide (col_RelID (pp_Column p) = relid /\ col_AttNum (pp_Column p) = k)) as [[Hr Ha]|Hne].
    + exists c0. split.
      * apply binding_rows_Lookup. exists k. rewrite fact_put, Hcol, bool_decide_true by done.
        split_and!; try done. unfold binds. by rewrite Hst.
      * rewrite Hr, Ha in Hre. specialize (Hre c Hf). apply validateProposal_Ok in Hv as (Hn & _).
        assert (He0 : effective_class c0 = pp_Class p).
        { unfold effective_class. rewrite Hst, Hcls. change (Narrowness ClassClean) with 0.
          simpl. destruct (Z.ltb_spec 0 (Narrowness (pp_Class p))); [done|lia]. }
        rewrite He0. unfold reopens, binds in *.
        destruct (effective_class_cases c Hk) as [->|(-> & _ & [Hs|[Hs _]])]; rewrite ?Hs in *; simpl in *.
        { change (Narrowness Unclassified) with (-1). lia. }
        { done. }
        { apply Z.ltb_lt in Hre. lia. }
    + exists c. split; [|lia]. apply binding_rows_Lookup. exists k.
      rewrite fact_put, Hcol, bool_decide_false by done. auto.
  - auto.
  - intros c (k & Hk0 & Hf & Hb & Hlive)%binding_rows_Lookup Hs. rewrite fact_put in Hf.
    case_bool_decide; [injection Hf as <-; by rewrite Hst in Hs|]. apply binding_rows_Lookup. eauto.
Qed.

(** Proposals only take away: whatever the rules or the model propose, in
    any order and number, no grant in any environment can list a column it
    could not list before; only an operator's decision widens one. *)
Theorem proposals_only_narrow live t proposals relid env cols unmasked :
  wf_facts t ->
  let t' := foldl (fun t (q : Z * Time * Proposal) => (Propose live q.1.1 q.1.2 q.2 t).2) t proposals in
  (Grantable env cols (Lookup live t' relid) unmasked).1 ⊆
  (Grantable env cols (Lookup live t relid) unmasked).1.
Proof.
  intros Ht t'. subst t'. revert t Ht. induction proposals as [|[[id now] p] proposals IH];
    intros t Ht; simpl; [done|].
  destruct (Propose live id now p t) as [r t1] eqn:Hp. simpl.
  pose proof (Propose_wf _ _ _ _ _ _ _ Hp Ht) as Ht1.
  etransitivity; [by apply IH|]. intros col. rewrite !Grantable_allowed. intros [Hin Hg].
  split; [done|]. eapply stricter_grant; [|exact Hg]. by apply (Propose_stricter live id now p t r t1).
Qed.

Lemma proposals_only_narrow_witness :
  let p := {| pp_Column := sample_column 1; pp_Class := ClassUntrusted;
              pp_Source := SourceModel; pp_ProposedBy := "model";
              pp_Evidence := [{| ci_Kind := "column"; ci_Ref := "public.users.nick"; ci_Detail := "" |}];
              pp_Rationale := "" |} in
  let cols := [sample_column 1; sample_column 2] in
  (Grantable EnvProd cols (Lookup all_live (Propose all_live 9 5 p sample_facts).2 7) None).1 ⊆
  (Grantable EnvProd cols (Lookup all_live sample_facts 7) None).1.
Proof.
  intros p cols. apply (proposals_only_narrow all_live sample_facts [(9, 5, p)]).
  repeat (apply put_wf; [|by split_and!; try done; vm_compute]).
  intros relid attnum c. unfold fact. by rewrite lookup_empty.
Defined.
