(* ===== verification/ColumnProposals.v ===== *)
(** * Where proposals come from

    The classes the rules suggest and the items the model answers: both only
    ever propose, for columns that were asked about, a class that narrows. *)

From S2P Require Import Prelude.
From S2P Require Import GoStd.
From S2P Require Import ColumnClass.
From S2P Require Import ColumnStore.

(** ** Blank strings *)

Lemma str_chars_rev s c : c ∈ str_chars (String.rev s) <-> c ∈ str_chars s.
Proof. unfold String.rev. rewrite str_chars_rev_app, app_nil_r, !list_elem_of_In. symmetry. apply in_rev. Qed.

Lemma trim_left_keeps s c : is_space c = false -> c ∈ str_chars s -> c ∈ str_chars (trim_left s).
Proof.
  intros Hc. induction s as [|d s IH]; simpl; [done|]. rewrite elem_of_cons.
  destruct (is_space d) eqn:Ed; simpl; [|by rewrite elem_of_cons].
  intros [->|H]; [congruence|auto].
Qed.

Lemma TrimSpace_keeps s c : is_space c = false -> c ∈ str_chars s -> c ∈ str_chars (TrimSpace s).
Proof.
  intros Hc Hin. unfold TrimSpace. by apply str_chars_rev, trim_left_keeps, str_chars_rev, trim_left_keeps.
Qed.

(** The dot between schema and table. *)
Lemma QualifiedName_not_blank c : (TrimSpace (QualifiedName c) =s "") = false.
Proof.
  apply neqb_str. intros E.
  assert (H : "."%char ∈ str_chars (TrimSpace (QualifiedName c))).
  { apply TrimSpace_keeps; [done|]. unfold QualifiedName.
    destruct (_ =? _); rewrite !str_chars_app, !elem_of_app; right; left; set_solver. }
  by rewrite E in H; apply elem_of_nil in H.
Qed.

Lemma cited_valid p :
  pp_Class p <> ClassClean -> known_class (pp_Class p) ->
  (col_AttNum (pp_Column p) = 0 -> pp_Class p = ClassUntrusted) ->
  pp_Source p = SourceDetector \/ pp_Source p = SourceModel ->
  (exists detail, pp_Evidence p =
     [{| ci_Kind := "column"; ci_Ref := QualifiedName (pp_Column p); ci_Detail := detail |}]) ->
  validateProposal p = Ok tt.
Proof.
  intros Hne Hk H0 Hsrc [detail Hev]. unfold validateProposal, known_class in *.
  destruct (ParseClass (pp_Class p)) as [cls|] eqn:Hp; [|done].
  apply known_of_parse in Hp as [-> _]. rewrite (proj2 (neqb_str _ _) Hne), Hev.
  assert (Hs : (pp_Source p <>s SourceDetector) && (pp_Source p <>s SourceModel) = false)
    by (destruct Hsrc as [-> | ->]; done).
  assert (Ht : (col_AttNum (pp_Column p) =? 0) && (pp_Class p <>s ClassUntrusted) = false).
  { destruct (Z.eqb_spec (col_AttNum (pp_Column p)) 0) as [E|]; [|done]. by rewrite H0. }
  rewrite Ht, Hs. simpl. by rewrite QualifiedName_not_blank.
Qed.

(** ** The rules *)

Lemma first_rule_from c typ tokens rs p :
  first_rule c typ tokens rs = Some p ->
  exists r detail, r ∈ rs /\ p = ruleProposal c (ru_class r) (ru_rationale r) detail.
Proof.
  induction rs as [|r rs IH]; simpl; [done|]. destruct (rule_phrase typ tokens r) as [ph|].
  - intros [= <-]. eexists r, _. split; [apply elem_of_cons; by left|reflexivity].
  - intros (r' & detail & Hr & ->)%IH. exists r', detail. split; [apply elem_of_cons; by right|done].
Qed.

Lemma suggestOne_from c p :
  suggestOne c = Some p ->
  exists cls rationale detail, cls ∈ [ClassSecret; ClassPII; ClassUntrusted] /\
    p = ruleProposal c cls rationale detail.
Proof.
  unfold suggestOne. cbv zeta. destruct (_ || _); [done|]. destruct (isAddressType _).
  { intros [= <-]. eexists ClassPII, _, _. split; [|reflexivity]. set_solver. }
  destruct (last _) as [t|]; [|done]. destruct (str_in t metaSuffixes); [done|].
  intros (r & detail & Hr & ->)%first_rule_from. eexists (ru_class r), _, _. split; [|reflexivity].
  unfold rules in Hr. rewrite !elem_of_cons, !elem_of_nil in *.
  destruct Hr as [->|[->|[->|[]]]]; cbn [ru_class]; auto.
Qed.

(** The rules never call a column clean: each suggestion is for one of the
    columns asked about, narrows it to secret, personal data or untrusted
    input, and is a proposal the store accepts. *)
Theorem suggestions_narrow cols p :
  Forall (fun c => col_AttNum c <> 0) cols -> p ∈ Suggest cols ->
  pp_Column p ∈ cols /\ pp_Class p ∈ [ClassSecret; ClassPII; ClassUntrusted] /\
  validateProposal p = Ok tt.
Proof.
  intros Hcols (c & Hc & Hs)%list_elem_of_omap.
  destruct (suggestOne_from c p Hs) as (cls & rationale & detail & Hcls & ->).
  rewrite Forall_forall in Hcols. specialize (Hcols c Hc).
  split_and!; [exact Hc|exact Hcls|]. apply cited_valid; simpl; [..|by left|eauto].
  - rewrite !elem_of_cons, elem_of_nil in Hcls. destruct Hcls as [->|[->|[->|[]]]]; done.
  - rewrite !elem_of_cons, elem_of_nil in Hcls. destruct Hcls as [->|[->|[->|[]]]]; done.
  - done.
Qed.

Lemma suggestions_narrow_witness :
  let col := {| col_RelID := 7; col_AttNum := 4; col_Schema := "public"; col_Table := "users";
                col_Name := "homeEmailAddress"; col_Type := "text"; col_Comment := "" |} in
  exists p, p ∈ Suggest [col] /\ pp_Class p = ClassPII /\ validateProposal p = Ok tt.
Proof.
  intros col. eexists. split; [apply list_elem_of_singleton; reflexivity|]. split; [reflexivity|].
  apply (suggestions_narrow [col]); [by constructor|apply list_elem_of_singleton; reflexivity].
Defined.

(** ** The model *)

Lemma shown_columns_in cols name c : shown_columns cols !! name = Some c -> c ∈ cols /\ QualifiedName c = name.
Proof.
  unfold shown_columns. assert (Hgen : forall m : gmap string Column, foldl (fun m c => <[QualifiedName c := c]> m) m cols !! name = Some c ->
    m !! name = Some c \/ c ∈ cols /\ QualifiedName c = name).
  { induction cols as [|d cols IH]; intros m; simpl; [auto|]. intros [H|[? ?]]%IH.
    - rewrite lookup_insert in H. case_decide as E; [|auto]. injection H as ->.
      right. split; [apply elem_of_cons; by left|done].
    - right. split; [apply elem_of_cons; by right|done]. }
  intros [H|H]%Hgen; [by rewrite lookup_empty in H|done].
Qed.

Lemma item_proposal_ok cols it p :
  item_proposal (shown_columns cols) it = Ok p ->
  pp_Column p ∈ cols /\ QualifiedName (pp_Column p) = mi_Column it /\
  pp_Class p ∈ [ClassSecret; ClassPII; ClassUntrusted] /\ pp_Source p = SourceModel /\
  exists detail, pp_Evidence p =
    [{| ci_Kind := "column"; ci_Ref := QualifiedName (pp_Column p); ci_Detail := detail |}].
Proof.
  unfold item_proposal. cbv zeta. destruct (ParseClass (mi_Class it)) as [cls|] eqn:Hp; [|done].
  apply known_of_parse in Hp as [-> Hk]. destruct (mi_Class it =s ClassClean) eqn:Hcl; [done|].
  destruct (_ !! _) as [col|] eqn:Hs; [|done]. apply shown_columns_in in Hs as [Hin Hq].
  intros [= <-]. cbn -[QualifiedName]. split_and!; try done; [|eauto].
  unfold known_class, ParseClass, narrowness in Hk. rewrite Hcl in Hk.
  rewrite !elem_of_cons, elem_of_nil.
  destruct (String.eqb_spec (mi_Class it) ClassUntrusted), (String.eqb_spec (mi_Class it) ClassPII),
    (String.eqb_spec (mi_Class it) ClassSecret); auto; done.
Qed.

(** What the loop keeps: one proposal a column, all of shown columns. *)
Definition items_inv (cols : list Column) (seen : gset string) (props : list Proposal) : Prop :=
  NoDup (map (fun p => QualifiedName (pp_Column p)) props) /\
  (forall p, p ∈ props -> QualifiedName (pp_Column p) ∈ seen /\ pp_Column p ∈ cols /\
     pp_Class p ∈ [ClassSecret; ClassPII; ClassUntrusted] /\ pp_Source p = SourceModel /\
     exists detail, pp_Evidence p =
       [{| ci_Kind := "column"; ci_Ref := QualifiedName (pp_Column p); ci_Detail := detail |}]) /\
  Z.of_nat (length props) <= maxModelSuggestions.

Lemma read_items_inv cols items : forall seen props rejected,
  items_inv cols seen props ->
  exists seen', items_inv cols seen' (read_items (shown_columns cols) items seen props rejected).1.
Proof.
  induction items as [|it items IH]; intros seen props rejected Hinv; simpl; [eauto|].
  destruct (item_proposal (shown_columns cols) it) as [p|e] eqn:Hit; [|by apply IH].
  destruct (bool_decide (mi_Column it ∈ seen)) eqn:Hseen; [by apply IH|].
  destruct (Z.eqb_spec (Z.of_nat (length props)) maxModelSuggestions); simpl; [by apply IH|].
  apply bool_decide_eq_false in Hseen. apply item_proposal_ok in Hit as (Hin & Hq & Hcls & Hsrc & Hev).
  apply IH. destruct Hinv as (Hnd & Hall & Hlen). split_and!.
  - rewrite map_app. apply NoDup_app. split_and!; [done| |by simpl; apply NoDup_singleton].
    intros x Hx Hx'. simpl in Hx'. apply list_elem_of_singleton in Hx'. subst x.
    apply list_elem_of_fmap in Hx as (q & Heq & Hq'). destruct (Hall q Hq') as [Hs _].
    apply Hseen. by rewrite <- Hq, Heq.
  - intros q [Hq'|Hq']%elem_of_app.
    + destruct (Hall q Hq') as (? & ?). split; [by apply elem_of_union_r|done].
    + apply list_elem_of_singleton in Hq' as ->. rewrite Hq. split_and!; [by apply elem_of_union_l, elem_of_singleton|done..| ].
      by rewrite <- Hq.
  - rewrite length_app. simpl. lia.
Qed.

(** The model's reply is untrusted: whatever items it answers, the
    proposals read from it are at most eighty, one per column, only for columns
    it was shown, never clean, and only ever proposals the store accepts. *)
Theorem model_items_contained items cols :
  Forall (fun c => col_AttNum c <> 0) cols ->
  let props := (ParseModelItems items cols).1 in
  NoDup (map (fun p => QualifiedName (pp_Column p)) props) /\
  Z.of_nat (length props) <= maxModelSuggestions /\
  forall p, p ∈ props -> pp_Column p ∈ cols /\ pp_Source p = SourceModel /\
    pp_Class p ∈ [ClassSecret; ClassPII; ClassUntrusted] /\ validateProposal p = Ok tt.
Proof.
  intros Hcols props.
  assert (H0 : items_inv cols ∅ []).
  { split_and!; [constructor|by intros p ?%elem_of_nil|done]. }
  destruct (read_items_inv cols items ∅ [] [] H0) as (seen & Hnd & Hall & Hlen).
  split_and!; [done..|]. intros p Hp. destruct (Hall p Hp) as (_ & Hin & Hcls & Hsrc & Hev).
  split_and!; [done..|]. apply cited_valid; [..|by right|done].
  - rewrite !elem_of_cons, elem_of_nil in Hcls. destruct Hcls as [->|[->|[->|[]]]]; done.
  - rewrite !elem_of_cons, elem_of_nil in Hcls. destruct Hcls as [->|[->|[->|[]]]]; done.
  - rewrite Forall_forall in Hcols. by specialize (Hcols _ Hin).
Qed.

Lemma model_items_contained_witness :
  let items := [{| mi_Column := "public.users.nick"; mi_Class := "clean"; mi_Rationale := "" |};
                {| mi_Column := "public.users.nick"; mi_Class := "pii"; mi_Rationale := "names" |};
                {| mi_Column := "public.users.nick"; mi_Class := "secret"; mi_Rationale := "" |};
                {| mi_Column := "public.other.x"; mi_Class := "pii"; mi_Rationale := "" |}] in
  let props := (ParseModelItems items [sample_column 1]).1 in
  map pp_Class props = [ClassPII] /\ Z.of_nat (length props) <= maxModelSuggestions.
Proof.
  intros items props. split; [reflexivity|].
  apply (model_items_contained items [sample_column 1]). by constructor.
Defined.
