(* ===== verification/Earned.v ===== *)
(** * Earned autonomy: levels, classes and families

    internal/earned: level.go, class.go, selfinit.go, the caps of carryover.go
    and the ramp of grandfather.go.  The ledger keeps one autonomy level per
    incident (or self-initiated) family and action class; everything here is a
    function of the declarations. *)

From S2P Require Import Prelude.
From S2P Require Import GoStd.
From S2P Require Import PolicyTypes.
From S2P Require Import Gate.

(** ** Levels: level.go *)

Abbreviation Level := Z (only parsing).
Abbreviation Family := string (only parsing).
Abbreviation ActionClass := string (only parsing).

Definition L0 : Level := 0.
Definition L1 : Level := 1.
Definition L2 : Level := 2.
Definition L3 : Level := 3.
Definition L4 : Level := 4.
Definition MaxGrantable : Level := L3.

Definition Level_String (l : Level) : string :=
  if (l <? L0) || (L4 <? l) then "L?" else "L" +:+ itoa l.

Definition Grantable (l : Level) : bool := (L0 <=? l) && (l <=? MaxGrantable).

Definition ErrInvalidRequest : string := "invalid autonomy request".

Definition ParseLevel (s : string) : result Level :=
  let v := TrimPrefix (ToUpper (TrimSpace s)) "L" in
  let bad := Err (ErrInvalidRequest +:+ ": level " +:+ quote s +:+ " is not L0..L4") in
  match v with
  | String c EmptyString =>
      if (code c <? 48) || (52 <? code c) then bad else Ok (digit_val c)
  | _ => bad
  end.

(** [MinLevel]; no level at all is L0. *)
Definition MinLevel (levels : list Level) : Level :=
  match levels with [] => L0 | l :: levels' => foldl Z.min l levels' end.

(** ** Families and classes: class.go *)

Definition FamilyLockBlocking : Family := "lock_blocking".
Definition FamilyConnections : Family := "connection_pressure".
Definition FamilyWAL : Family := "wal_retention".
Definition FamilyPlanRegression : Family := "plan_regression".
Definition FamilyCheckpoint : Family := "checkpoint_storm".
Definition FamilyTempFiles : Family := "temp_file_explosion".
Definition FamilyReplicationLag : Family := "replication_lag".
Definition FamilyLWLock : Family := "lwlock_contention".
Definition FamilyWraparound : Family := "wraparound_runway".
Definition FamilyDiskWAL : Family := "disk_wal_runway".
Definition FamilySequence : Family := "sequence_runway".
Definition FamilyTuning : Family := "tuning".
Definition FamilyHygiene : Family := "hygiene".

Definition ClassFreeze : ActionClass := "freeze".
Definition ClassVacuum : ActionClass := "vacuum".
Definition ClassAnalyze : ActionClass := "analyze".
Definition ClassAutovacuumTuning : ActionClass := "autovacuum_tuning".
Definition ClassIndexCreate : ActionClass := "index_create".
Definition ClassIndexDrop : ActionClass := "index_drop".
Definition ClassReindex : ActionClass := "reindex".
Definition ClassStatistics : ActionClass := "statistics".
Definition ClassQueryHint : ActionClass := "query_hint".
Definition ClassConfigGUC : ActionClass := "config_guc".
Definition ClassWALBound : ActionClass := "wal_bound".
Definition ClassSlotDrop : ActionClass := "slot_drop".
Definition ClassBackendCancel : ActionClass := "backend_cancel".
Definition ClassBackendTerminate : ActionClass := "backend_terminate".
Definition ClassSchemaChange : ActionClass := "schema_change".
Definition ClassSequenceMigration : ActionClass := "sequence_migration".
Definition ClassRetention : ActionClass := "retention".
Definition ClassIndexReplace : ActionClass := "index_replace".
Definition ClassUnclassified : ActionClass := "unclassified".
Definition AllClasses : ActionClass := "*".

Definition Reversible : string := "reversible".
Definition MitigationOnly : string := "mitigation_only".
Definition Irreversible : string := "irreversible".

Record ClassSpec : Type := {
  cs_Class : ActionClass;
  cs_Reversibility : string;
  cs_Cap : Level;
  cs_ActionTypes : list string;
  cs_Description : string;
}.

Definition class_spec c r cap types d : ClassSpec :=
  {| cs_Class := c; cs_Reversibility := r; cs_Cap := cap; cs_ActionTypes := types;
     cs_Description := d |}.

Definition classSpecs : list ClassSpec := [
  class_spec ClassFreeze Reversible L3 ["vacuum_table"] "VACUUM (FREEZE) of one table";
  class_spec ClassVacuum Reversible L3 ["vacuum_table"] "non-FULL VACUUM of one table";
  class_spec ClassAnalyze Reversible L3 ["analyze_table"] "ANALYZE of one table";
  class_spec ClassAutovacuumTuning Reversible L3 ["set_table_autovacuum"]
    "per-table autovacuum storage parameters";
  class_spec ClassIndexCreate Reversible L3 ["create_index_concurrently"]
    "CREATE INDEX CONCURRENTLY";
  class_spec ClassIndexDrop Reversible L3 ["drop_unused_index"; "revert_created_index"]
    "DROP INDEX CONCURRENTLY with a recorded definition";
  class_spec ClassReindex Reversible L3 ["reindex_concurrently"] "REINDEX CONCURRENTLY";
  class_spec ClassStatistics Reversible L3 ["create_statistics"; "revert_created_statistics"]
    "CREATE STATISTICS (pg_sage form) with its ANALYZE";
  class_spec ClassQueryHint Reversible L3 ["apply_query_hint"; "retire_query_hint"]
    "pg_hint_plan hint rows";
  class_spec ClassConfigGUC Reversible L2
    ["alter_system_guc"; "alter_database_guc"; "promote_role_work_mem"]
    "configuration parameters";
  class_spec ClassWALBound MitigationOnly L2 ["alter_system_guc"]
    "max_slot_wal_keep_size bound (a slot past it is lost)";
  class_spec ClassSlotDrop Irreversible L1 [] "pg_drop_replication_slot";
  class_spec ClassBackendCancel MitigationOnly L2 ["cancel_backend"]
    "pg_cancel_backend of one evidence-matched backend";
  class_spec ClassBackendTerminate Irreversible L1 ["terminate_backend"]
    "pg_terminate_backend";
  class_spec ClassSchemaChange Irreversible L1 ["alter_table"] "ALTER TABLE";
  class_spec ClassSequenceMigration Irreversible L1 ["prepare_sequence_capacity_migration"]
    "sequence capacity migration";
  class_spec ClassRetention Irreversible L1 ["retention_delete"]
    "bounded retention delete of user rows";
  class_spec ClassIndexReplace Reversible L2 ["replace_index"]
    ("CREATE INDEX CONCURRENTLY a wider index, then DROP INDEX CONCURRENTLY the " +:+
     "index it subsumes (soft drop)");
  class_spec ClassUnclassified Irreversible L1 [] "any action without a known class"].

Definition Spec (class : ActionClass) : option ClassSpec :=
  List.find (fun s => cs_Class s =s class) classSpecs.

Definition CapFor (class : ActionClass) : Level :=
  match Spec class with Some s => cs_Cap s | None => L1 end.

Definition RollbackCap (class : RollbackClass) : Level :=
  if (class =s RollbackReversible) || (class =s RollbackNoRollbackNeeded) then L3
  else if class =s RollbackMitigationOnly then L2 else L1.

Definition class_of_type (actionType : string) : option ActionClass :=
  option_map cs_Class (List.find (fun s => str_in actionType (cs_ActionTypes s)) classSpecs).

Definition ClassFor (req : ActionRequest) : ActionClass :=
  let upper := ToUpper (req_SQL req) in
  let none := if Contains upper "PG_DROP_REPLICATION_SLOT" then ClassSlotDrop
              else ClassUnclassified in
  match req_Contract req with
  | None => none
  | Some c =>
      let t := ac_ActionType c in
      if t =s "" then none else
      if t =s "vacuum_table" then
        if req_Feature req =s ChangeFreeze then ClassFreeze else ClassVacuum else
      if t =s "alter_system_guc" then
        if Contains upper "MAX_SLOT_WAL_KEEP_SIZE" then ClassWALBound else ClassConfigGUC else
      default ClassUnclassified (class_of_type t)
  end.

(** The map [applicable]; its keys are distinct. *)
Definition applicable : list (Family * list ActionClass) := [
  (FamilyLockBlocking, [ClassBackendCancel; ClassBackendTerminate]);
  (FamilyConnections, [ClassBackendCancel; ClassBackendTerminate; ClassConfigGUC]);
  (FamilyWAL, [ClassWALBound; ClassSlotDrop]);
  (FamilyPlanRegression, [ClassIndexCreate; ClassAnalyze; ClassStatistics; ClassQueryHint]);
  (FamilyCheckpoint, [ClassConfigGUC]);
  (FamilyTempFiles, [ClassConfigGUC; ClassBackendCancel]);
  (FamilyReplicationLag, [ClassBackendCancel; ClassConfigGUC]);
  (FamilyLWLock, [ClassConfigGUC]);
  (FamilyWraparound, [ClassFreeze; ClassVacuum; ClassAutovacuumTuning; ClassBackendCancel;
                      ClassBackendTerminate]);
  (FamilyDiskWAL, [ClassWALBound; ClassSlotDrop]);
  (FamilySequence, [ClassSequenceMigration]);
  (FamilyTuning, [ClassIndexCreate; ClassConfigGUC; ClassAutovacuumTuning; ClassQueryHint;
                  ClassStatistics; ClassIndexReplace]);
  (FamilyHygiene, [ClassIndexDrop; ClassVacuum; ClassAnalyze; ClassRetention; ClassReindex])].

Definition familyOrder : list Family :=
  [FamilyLockBlocking; FamilyConnections; FamilyWAL; FamilyPlanRegression; FamilyCheckpoint;
   FamilyTempFiles; FamilyReplicationLag; FamilyLWLock; FamilyWraparound; FamilyDiskWAL;
   FamilySequence].

Definition Families : list Family := familyOrder.

Definition family_entry (f : Family) : option (list ActionClass) :=
  option_map snd (List.find (fun fc : Family * list ActionClass => fc.1 =s f) applicable).

Definition KnownFamily (f : Family) : bool :=
  match family_entry f with Some _ => true | None => false end.
Definition ApplicableClasses (f : Family) : list ActionClass := default [] (family_entry f).
Definition Applicable (f : Family) (class : ActionClass) : bool :=
  str_in class (ApplicableClasses f).
Definition knownClass (class : ActionClass) : bool :=
  match Spec class with Some _ => true | None => false end.

(** ** Self-initiated families: selfinit.go *)

Record selfClass : Type := {
  sc_family : Family;
  sc_class : ActionClass;
  sc_tier : RiskTier;
  sc_outcome : string;
}.

Definition self_class f c t o : selfClass :=
  {| sc_family := f; sc_class := c; sc_tier := t; sc_outcome := o |}.

(** The outcome classes are internal/verify's constants. *)
Definition selfClasses : list selfClass := [
  self_class FamilyTuning ClassIndexCreate RiskModerate "index_create";
  self_class FamilyTuning ClassConfigGUC RiskModerate "guc";
  self_class FamilyTuning ClassAutovacuumTuning RiskModerate "reloption";
  self_class FamilyTuning ClassQueryHint RiskModerate "query_hint";
  self_class FamilyTuning ClassStatistics RiskModerate "statistics";
  self_class FamilyTuning ClassIndexReplace RiskModerate "index_replace";
  self_class FamilyHygiene ClassIndexDrop RiskModerate "index_drop";
  self_class FamilyHygiene ClassVacuum RiskSafe "vacuum";
  self_class FamilyHygiene ClassAnalyze RiskSafe "analyze";
  self_class FamilyHygiene ClassRetention RiskModerate "retention";
  self_class FamilyHygiene ClassReindex RiskModerate "reindex"].

Definition selfFamilyOrder : list Family := [FamilyTuning; FamilyHygiene].
Definition SelfFamilies : list Family := selfFamilyOrder.
Definition AllFamilies : list Family := Families ++ selfFamilyOrder.

Definition IsSelfInitiated (f : Family) : bool := (f =s FamilyTuning) || (f =s FamilyHygiene).
Definition IsIncidentFamily (f : Family) : bool := KnownFamily f && negb (IsSelfInitiated f).

Definition selfSpec (c : ActionClass) : option selfClass :=
  List.find (fun s => sc_class s =s c) selfClasses.

Definition SelfFamilyFor (c : ActionClass) : Family :=
  match selfSpec c with Some s => sc_family s | None => "" end.
Definition ClassForOutcomeClass (outcome : string) : ActionClass :=
  match List.find (fun s => (sc_outcome s <>s "") && (sc_outcome s =s outcome)) selfClasses with
  | Some s => sc_class s | None => "" end.
Definition OutcomeClassFor (c : ActionClass) : string :=
  match selfSpec c with Some s => sc_outcome s | None => "" end.
Definition SelfClassTier (c : ActionClass) : RiskTier :=
  match selfSpec c with Some s => sc_tier s | None => "" end.

(** The map [composites]. *)
Definition ComponentClasses (c : ActionClass) : list (Family * ActionClass) :=
  if c =s ClassIndexReplace
  then [(FamilyTuning, ClassIndexCreate); (FamilyHygiene, ClassIndexDrop)] else [].

Definition CapForPair (f : Family) (c : ActionClass) : Level :=
  if negb (IsSelfInitiated f) then (if negb (KnownFamily f) then L1 else CapFor c) else
  match Spec c with
  | None => L1
  | Some spec =>
      if SelfFamilyFor c <>s f then L1 else
      match ComponentClasses c with
      | _ :: _ => cs_Cap spec
      | [] => if cs_Reversibility spec =s Reversible then L3
              else if cs_Reversibility spec =s MitigationOnly then L2 else L1
      end
  end.

Definition FamilyForRequest (req : ActionRequest) : Family * ActionClass :=
  let c := ClassFor req in
  let f := TrimSpace (req_IncidentFamily req) in
  if f <>s "" then (f, c) else (SelfFamilyFor c, c).

Definition Governs (req : ActionRequest) : bool :=
  match req_Contract req with
  | None => false
  | Some _ => (FamilyForRequest req).1 <>s ""
  end.

Definition classForActionLabel (label : string) : ActionClass :=
  if label =s "create_index" then ClassIndexCreate else
  if label =s "drop_index" then ClassIndexDrop else
  if label =s "reindex" then ClassReindex else
  if label =s "create_statistics" then ClassStatistics else
  if label =s "vacuum" then ClassVacuum else
  if label =s "analyze" then ClassAnalyze else
  if label =s "retention_delete" then ClassRetention else
  if label =s "replace_index" then ClassIndexReplace else "".

(** ** A pair's state *)

Definition ProvenanceLedger : string := "ledger".
Definition ProvenanceCarriedOver : string := "carried_over".
Definition ProvenanceGrandfathered : string := "grandfathered".

(** [State]; the evidence column is not kept. *)
Record State : Type := {
  ls_Family : Family;
  ls_Class : ActionClass;
  ls_Level : Level;
  ls_Version : Z;
  ls_ChangedBy : string;
  ls_Reason : string;
  ls_ChangedAt : Time;
  ls_Stored : bool;
  ls_Provenance : string;
  ls_CarriedRef : string;
}.

Definition set_Level (l : Level) (s : State) : State :=
  {| ls_Family := ls_Family s; ls_Class := ls_Class s; ls_Level := l;
     ls_Version := ls_Version s; ls_ChangedBy := ls_ChangedBy s; ls_Reason := ls_Reason s;
     ls_ChangedAt := ls_ChangedAt s; ls_Stored := ls_Stored s;
     ls_Provenance := ls_Provenance s; ls_CarriedRef := ls_CarriedRef s |}.

Definition defaultLevel (f : Family) : Level := if KnownFamily f then L1 else L0.

Definition defaultState (f : Family) (c : ActionClass) : State :=
  {| ls_Family := f; ls_Class := c; ls_Level := defaultLevel f; ls_Version := 0;
     ls_ChangedBy := ""; ls_Reason := ""; ls_ChangedAt := 0; ls_Stored := false;
     ls_Provenance := ProvenanceLedger; ls_CarriedRef := "" |}.

Definition composedLevel (st : State) (found : bool)
    (componentLevel : Family * ActionClass -> Level) : State :=
  match ComponentClasses (ls_Class st) with
  | [] => st
  | comps =>
      let lowest := foldl (fun lowest p => MinLevel [lowest; componentLevel p])
                      MaxGrantable comps in
      set_Level (if found then MinLevel [ls_Level st; lowest] else lowest) st
  end.

(** ** Carry-over: carryover.go *)

Record CarryOver : Type := {
  co_Family : Family;
  co_Class : ActionClass;
  co_Tier : RiskTier;
  co_Ref : string;
}.

Definition carryOvers : list CarryOver := [
  {| co_Family := FamilyWraparound; co_Class := ClassFreeze; co_Tier := RiskSafe;
     co_Ref := "spec F3 (specs/agent-native-autonomy-build-spec.md): the wraparound " +:+
       "custodian freezes autonomously, waiting risks an outage; deadline override per " +:+
       "§1.7" |};
  {| co_Family := FamilyWraparound; co_Class := ClassAutovacuumTuning; co_Tier := RiskModerate;
     co_Ref := "spec F3 (specs/agent-native-autonomy-build-spec.md): autonomous autovacuum " +:+
       "tuning; decision D1 made set_table_autovacuum reversible" |};
  {| co_Family := FamilyWAL; co_Class := ClassWALBound; co_Tier := RiskModerate;
     co_Ref := "spec F4 (specs/agent-native-autonomy-build-spec.md): the WAL custodian " +:+
       "bounds max_slot_wal_keep_size, never below retained WAL plus headroom (P0-07)" |};
  {| co_Family := FamilyPlanRegression; co_Class := ClassIndexCreate; co_Tier := RiskModerate;
     co_Ref := "decision D6 (reviews/decisions/LEDGER.md): load-admitted autonomous index " +:+
       "creation" |}].

Definition carryOverFor (f : Family) (c : ActionClass) : option CarryOver :=
  List.find (fun co => (co_Family co =s f) && (co_Class co =s c)) carryOvers.

Definition carryCap (c : ActionClass) : Level :=
  match Spec c with
  | None => L1
  | Some spec => if cs_Reversibility spec =s Irreversible then L1 else L3
  end.

Definition effectiveCap (st : State) (c : ActionClass) : Level :=
  if ls_Provenance st =s ProvenanceCarriedOver then carryCap c else
  if IsSelfInitiated (ls_Family st) then CapForPair (ls_Family st) c else CapFor c.

Definition autonomousUnder (b : RuntimeState) (tier : RiskTier) : bool :=
  if negb (rt_ExecutorEnabled b) || (rt_ExecutionMode b <>s ExecutionAuto) then false else
  if tier =s RiskSafe then
    rt_Tier3Safe b && ((rt_TrustLevel b =s TrustAdvisory) || (rt_TrustLevel b =s TrustAutonomous))
  else if tier =s RiskModerate then
    rt_Tier3Moderate b && (rt_TrustLevel b =s TrustAutonomous)
  else false.

Definition CarriedLevel (bound : RuntimeState) (f : Family) (c : ActionClass) : Level :=
  match carryOverFor f c with
  | None => L1
  | Some co => if negb (autonomousUnder bound (co_Tier co)) then L1
               else MinLevel [L3; carryCap c]
  end.

(** ** Grandfathering: the level of grandfather.go *)

(** [d.Round(m)] of a positive duration. *)
Definition round_duration (d m : Duration) : Duration :=
  let r := d mod m in if 2 * r <? m then d - r else d + m - r.

Definition humanDuration (d : Duration) : string :=
  let day := 24 * Hour in
  if d <=? 0 then "0 min" else
  if d =? day then "1 day" else
  if (d mod day =? 0) || (2 * day <=? d) then itoa (round_duration d day / day) +:+ " days" else
  if (d mod Hour =? 0) || (2 * Hour <=? d) then itoa (round_duration d Hour / Hour) +:+ " h" else
  itoa (round_duration d Minute / Minute) +:+ " min".

Definition rollbackOf (c : ActionClass) : RollbackClass :=
  match Spec c with
  | None => RollbackNotReversible
  | Some spec =>
      if cs_Reversibility spec =s Reversible then RollbackReversible
      else if cs_Reversibility spec =s MitigationOnly then RollbackMitigationOnly
      else RollbackNotReversible
  end.

Definition rampElapsed (b : RuntimeState) (now : Time) (age : Duration) : bool :=
  negb (time_IsZero (rt_RampStart b)) && (age <=? time_Sub now (rt_RampStart b)).

Definition rampLevel (b : RuntimeState) (now : Time) (spec : selfClass) : Level * string :=
  let head := "trust.level=" +:+ rt_TrustLevel b +:+ ", execution_mode=" +:+
              rt_ExecutionMode b in
  if rt_ExecutionMode b =s ExecutionApproval
  then (L2, head +:+ ": every action queued for one-click approval") else
  if rt_ExecutionMode b <>s ExecutionAuto then (L1, "") else
  let rollback := rollbackOf (sc_class spec) in
  if sc_tier spec =s RiskSafe then
    let age := RampAge (rt_SafeRampAge b) SpecSafeRampAge rollback in
    if rt_Tier3Safe b && rampElapsed b now age
    then (L3, head +:+ ", tier3_safe, ramp " +:+ humanDuration age +:+ " elapsed")
    else (L1, "")
  else
  if rt_TrustLevel b =s TrustAdvisory
  then (L2, head +:+ ": moderate actions queued for one-click approval") else
  let age := RampAge (rt_ModerateRampAge b) SpecModerateRampAge rollback in
  if rt_Tier3Moderate b && rampElapsed b now age
  then (L3, head +:+ ", tier3_moderate, ramp " +:+ humanDuration age +:+ " elapsed")
  else (L1, "").

Definition GrandfatheredLevel (bound : RuntimeState) (now : Time) (c : ActionClass)
    : Level * string :=
  match selfSpec c with
  | None => (L1, "")
  | Some spec =>
      if negb (rt_ExecutorEnabled bound) || (rt_TrustLevel bound =s TrustObservation) ||
         ((rt_TrustLevel bound <>s TrustAdvisory) && (rt_TrustLevel bound <>s TrustAutonomous))
      then (L1, "") else
      let '(level, why) := rampLevel bound now spec in
      let level := Z.min level (CapForPair (sc_family spec) c) in
      if level <=? L1 then (L1, "") else (level, why)
  end.

(** * The declarations fit together *)

(** [caps_by_reversibility] of one declaration. *)
Definition cap_fits (s : ClassSpec) : bool :=
  (cs_Cap s <=? RollbackCap (rollbackOf (cs_Class s))) &&
  (L0 <=? cs_Cap s) && Grantable (cs_Cap s).

Lemma classSpecs_fit : forallb cap_fits classSpecs = true.
Proof. by vm_compute. Qed.

Lemma Spec_entry c s : Spec c = Some s -> cap_fits s = true /\ cs_Class s = c.
Proof.
  intros Hs. apply List.find_some in Hs as [Hin Hc]. apply String.eqb_eq in Hc.
  split; [|done]. pose proof classSpecs_fit as H. rewrite List.forallb_forall in H. by apply H.
Qed.

Lemma RollbackCap_range r : L1 <= RollbackCap r <= L3.
Proof. unfold RollbackCap, L1, L2, L3. repeat case_match; lia. Qed.

(** An irreversible class never goes above L1, a mitigation never above L2. *)
Lemma CapFor_reversibility c : 0 <= CapFor c <= RollbackCap (rollbackOf c).
Proof.
  unfold CapFor. destruct (Spec c) as [s|] eqn:Hs.
  - apply Spec_entry in Hs as [H <-]. unfold cap_fits in H. rewrite !andb_true_iff in H.
    unfold L0 in H. lia.
  - unfold rollbackOf. rewrite Hs. unfold L1. by vm_compute.
Qed.

Lemma CapForPair_reversibility f c : 0 <= CapForPair f c <= RollbackCap (rollbackOf c).
Proof.
  pose proof (CapFor_reversibility c) as Hc. pose proof (RollbackCap_range (rollbackOf c)) as Hr.
  unfold CapForPair. unfold L1, L2, L3 in *.
  destruct (negb (IsSelfInitiated f)); [destruct (negb (KnownFamily f)); lia|].
  unfold CapFor in Hc. destruct (Spec c) as [s|] eqn:Hs; [|lia].
  destruct (SelfFamilyFor c <>s f); [lia|]. destruct (ComponentClasses c); [|lia].
  unfold rollbackOf in *. rewrite Hs in *.
  destruct (cs_Reversibility s =s Reversible); [by vm_compute|].
  destruct (cs_Reversibility s =s MitigationOnly); by vm_compute.
Qed.

Lemma carryCap_range c : L1 <= carryCap c <= L3.
Proof. unfold carryCap, L1, L3. repeat case_match; lia. Qed.

Lemma CapForPair_range f c : 0 <= CapForPair f c <= 3.
Proof.
  pose proof (CapForPair_reversibility f c). pose proof (RollbackCap_range (rollbackOf c)).
  unfold L3 in *. lia.
Qed.

Lemma defaultLevel_range f : 0 <= defaultLevel f <= 1.
Proof. unfold defaultLevel, L0, L1. case_match; lia. Qed.

Lemma CarriedLevel_range b f c : L1 <= CarriedLevel b f c <= L3.
Proof.
  pose proof (carryCap_range c). unfold CarriedLevel, MinLevel, L1, L3 in *. simpl.
  repeat case_match; lia.
Qed.

Lemma GrandfatheredLevel_range b now c : L1 <= (GrandfatheredLevel b now c).1 <= L3.
Proof.
  unfold GrandfatheredLevel, L1, L3. destruct (selfSpec c) as [spec|]; simpl; [|lia].
  case_match; simpl; [lia|]. destruct (rampLevel b now spec) as [level why].
  pose proof (CapForPair_range (sc_family spec) c).
  destruct (Z.leb_spec (Z.min level (CapForPair (sc_family spec) c)) 1); simpl; lia.
Qed.

Lemma MinLevel2 a b : MinLevel [a; b] = Z.min a b.
Proof. done. Qed.
Lemma MinLevel3 a b c : MinLevel [a; b; c] = Z.min (Z.min a b) c.
Proof. done. Qed.

Lemma ApplicableClasses_known f c : Applicable f c = true -> KnownFamily f = true.
Proof. unfold Applicable, ApplicableClasses, KnownFamily. by destruct (family_entry f). Qed.
