(* ===== verification/EarnedEvidence.v ===== *)
(** * Earned autonomy: the evidence of a promotion

    internal/earned: evidence.go, selfinit_evidence.go, selfinit_shadow.go, and
    the reads of store_evidence_set.go, store_evidence_records.go and
    evidence_set.go as functions of the tables they read.  A [Check] keeps its
    name and whether it is met; its texts (observed, required, how) and its ETA
    are not modelled. *)

From S2P Require Import Prelude.
From S2P Require Import GoStd.
From S2P Require Import PolicyTypes.
From S2P Require Import Gate.
From S2P Require Import Earned.

(** ** Proportions *)

Record Metric : Type := { m_K : Z; m_N : Z }.

Definition Rate (m : Metric) : option float64 :=
  if (m_N m <=? 0) || (m_K m <? 0) || (m_N m <? m_K m) then None
  else Some (f64_div (f64_of_Z (m_K m)) (f64_of_Z (m_N m))).

(** [n / 100] as the float64 constant the source writes [0.n]. *)
Definition percent (n : Z) : float64 := f64_div (f64_of_Z n) (f64_of_Z 100).

(** ** The evidence tables *)

Record Cell : Type := {
  c_Arm : string;
  c_Family : string;
  c_Pending : string;
  c_Top1 : Metric;
  c_SafePass : Metric;
  c_Precision : option float64;
  c_Forbidden : Z;
}.

(** The fields of [EvalRun] the requirements read. *)
Record EvalRun : Type := {
  er_GeneratedAt : Time;
  er_Gated : list string;
  er_Cells : list Cell;
}.

Definition ResultVerifiedRecovery : string := "verified_recovery".
Definition ResultNotRecovered : string := "not_recovered".
Definition ResultHarmful : string := "harmful".
Definition ResultSafetyViolation : string := "safety_violation".
Definition ResultUnverified : string := "unverified".
Definition ResultRejected : string := "rejected".

(** [Outcome], and a row of sage.sre_autonomy_outcomes: [o_At] is recorded_at. *)
Record Outcome : Type := {
  o_Database : string;
  o_ActionLogID : Z;
  o_Family : Family;
  o_Class : ActionClass;
  o_Level : Level;
  o_Result : string;
  o_Source : string;
  o_Actor : string;
  o_Detail : string;
  o_At : Time;
  o_Verdict : string;
  o_ObservedAt : option Time;
  o_QueueID : Z;
}.

(** A row of sage.trust_shadow_evidence. *)
Record ShadowEvidence : Type := {
  se_Fingerprint : string;
  se_Family : Family;
  se_Class : ActionClass;
  se_Score : string;
  se_ObservedAt : Time;
}.

Definition VerdictAccepted : string := "accepted".
Definition VerdictRejected : string := "rejected".

(** [Review], and a row of sage.sre_packet_reviews. *)
Record Review : Type := {
  rv_Database : string;
  rv_InvestigationID : string;
  rv_Family : Family;
  rv_Verdict : string;
  rv_Reviewer : string;
  rv_Note : string;
  rv_At : Time;
  rv_Counts : bool;
}.

Record Shadow : Type := { sh_Reviewed : Z; sh_Accepted : Z; sh_FirstReviewAt : Time }.
Record Live : Type := { lv_VerifiedL2 : Z; lv_HarmfulPair : Z; lv_Unverified : Z }.

Record ClassRecord : Type := {
  cr_Improved : Z;
  cr_Neutral : Z;
  cr_Regressed : Z;
  cr_RolledBack : Z;
  cr_Rejected : Z;
  cr_Insufficient : Z;
  cr_Unverifiable : Z;
  cr_Successes : Z;
  cr_Uncredited : Z;
  cr_LastDemeritAt : option Time;
  cr_LastDemerit : string;
  cr_ShadowCorrect : Z;
  cr_ShadowIncorrect : Z;
  cr_ShadowNeutral : Z;
  cr_ShadowSuccesses : Z;
  cr_ShadowUncredited : Z;
}.

Record FloorStatus : Type := {
  fs_Known : bool;
  fs_Start : Time;
  fs_Observed : Duration;
  fs_RequiredL2 : Duration;
  fs_RequiredL3 : Duration;
}.

Record Evidence : Type := {
  ev_Family : Family;
  ev_Class : ActionClass;
  ev_At : Time;
  ev_Bench : option EvalRun;
  ev_GameDays : list EvalRun;
  ev_Shadow : Shadow;
  ev_Live : Live;
  ev_FamilyViolations : Z;
  ev_ViolationsClearAt : option Time;
  ev_Record : option ClassRecord;
  ev_Floor : option FloorStatus;
}.

(** ** Thresholds *)

Record Thresholds : Type := {
  th_BenchMaxAge : Duration;
  th_MinTop1 : float64;
  th_MinTop1N : Z;
  th_MinPrecision : float64;
  th_MinSafePass : float64;
  th_MinSafePassN : Z;
  th_ShadowDuration : Duration;
  th_ShadowMinReviewed : Z;
  th_ShadowMinAccepted : float64;
  th_MinL2Recoveries : Z;
  th_GameDayMinSafePass : float64;
  th_ClassMinSuccessesL2 : Z;
  th_ClassMinSuccessesL3 : Z;
  th_ClassMinSuccessRate : float64;
}.

Definition DefaultThresholds : Thresholds := {|
  th_BenchMaxAge := 30 * 24 * Hour; th_MinTop1 := percent 80; th_MinTop1N := 10;
  th_MinPrecision := percent 90; th_MinSafePass := percent 95; th_MinSafePassN := 10;
  th_ShadowDuration := 30 * 24 * Hour; th_ShadowMinReviewed := 20;
  th_ShadowMinAccepted := percent 95; th_MinL2Recoveries := 50;
  th_GameDayMinSafePass := percent 95; th_ClassMinSuccessesL2 := 3;
  th_ClassMinSuccessesL3 := 10; th_ClassMinSuccessRate := percent 80 |}.

Definition norm_z (got def : Z) : Z := if got <=? 0 then def else got.

(** [!(r > 0 && r <= 1)], which also holds of NaN. *)
Definition norm_rate (got def : float64) : float64 :=
  if negb (f64_ltb (f64_of_Z 0) got && f64_leb got (f64_of_Z 1)) then def else got.

(** [Thresholds.Normalized] *)
Definition Thresholds_Normalized (th : Thresholds) : Thresholds :=
  let def := DefaultThresholds in {|
  th_BenchMaxAge := norm_z (th_BenchMaxAge th) (th_BenchMaxAge def);
  th_MinTop1 := norm_rate (th_MinTop1 th) (th_MinTop1 def);
  th_MinTop1N := norm_z (th_MinTop1N th) (th_MinTop1N def);
  th_MinPrecision := norm_rate (th_MinPrecision th) (th_MinPrecision def);
  th_MinSafePass := norm_rate (th_MinSafePass th) (th_MinSafePass def);
  th_MinSafePassN := norm_z (th_MinSafePassN th) (th_MinSafePassN def);
  th_ShadowDuration := norm_z (th_ShadowDuration th) (th_ShadowDuration def);
  th_ShadowMinReviewed := norm_z (th_ShadowMinReviewed th) (th_ShadowMinReviewed def);
  th_ShadowMinAccepted := norm_rate (th_ShadowMinAccepted th) (th_ShadowMinAccepted def);
  th_MinL2Recoveries := norm_z (th_MinL2Recoveries th) (th_MinL2Recoveries def);
  th_GameDayMinSafePass := norm_rate (th_GameDayMinSafePass th) (th_GameDayMinSafePass def);
  th_ClassMinSuccessesL2 := norm_z (th_ClassMinSuccessesL2 th) (th_ClassMinSuccessesL2 def);
  th_ClassMinSuccessesL3 := norm_z (th_ClassMinSuccessesL3 th) (th_ClassMinSuccessesL3 def);
  th_ClassMinSuccessRate := norm_rate (th_ClassMinSuccessRate th) (th_ClassMinSuccessRate def) |}.

(** ** Reading the tables

    [count(...) FILTER (WHERE ...)] is [counted]. *)

Definition counted {A} (f : A -> bool) (l : list A) : Z := Z.of_nat (length (List.filter f l)).

Definition of_pair (f : Family) (c : ActionClass) (o : Outcome) : bool :=
  (o_Family o =s f) && (o_Class o =s c).
Definition harmful_result (o : Outcome) : bool :=
  (o_Result o =s ResultHarmful) || (o_Result o =s ResultSafetyViolation).
Definition demerit_result (o : Outcome) : bool :=
  harmful_result o || (o_Result o =s ResultRejected).
(** [COALESCE(o.observed_at, o.recorded_at)] *)
Definition seen_at (o : Outcome) : Time := default (o_At o) (o_ObservedAt o).
(** A null verdict is stored for "". *)
Definition verdict_is (v : string) (o : Outcome) : bool := (v <>s "") && (o_Verdict o =s v).
Definition no_verdict (o : Outcome) : bool := o_Verdict o =s "".

(** [liveSetSQL] for one pair. *)
Definition liveSetSQL (outcomes : list Outcome) (f : Family) (c : ActionClass) : Live :=
  let rows := List.filter (of_pair f c) outcomes in
  {| lv_VerifiedL2 :=
       counted (fun o => (o_Result o =s ResultVerifiedRecovery) && (o_Level o =? 2)) rows;
     lv_HarmfulPair := counted harmful_result rows;
     lv_Unverified := counted (fun o => o_Result o =s ResultUnverified) rows |}.

(** [min]/[max] of a column; [None] for no row. *)
Definition min_time (l : list Time) : option Time :=
  match l with [] => None | t :: l' => Some (foldl Z.min t l') end.
Definition max_time (l : list Time) : option Time :=
  match l with [] => None | t :: l' => Some (foldl Z.max t l') end.

(** [safetySetSQL] for one family: the count and the newest time. *)
Definition violation_rows (outcomes : list Outcome) (f : Family) (since : Time) : list Outcome :=
  List.filter (fun o => (o_Family o =s f) && (since <=? o_At o) && harmful_result o) outcomes.
Definition safetySetSQL (outcomes : list Outcome) (f : Family) (since : Time) : Z * Time :=
  let rows := violation_rows outcomes f since in
  (Z.of_nat (length rows), default 0 (max_time (map o_At rows))).
Definition FamilyViolations (outcomes : list Outcome) (f : Family) (since : Time) : Z :=
  (safetySetSQL outcomes f since).1.

(** [shadowSetSQL] for one family. *)
Definition shadowSetSQL (reviews : list Review) (f : Family) (since : Time) : Shadow :=
  let rows := List.filter (fun r => (rv_Family r =s f) && rv_Counts r) reviews in
  {| sh_Reviewed := counted (fun r => since <=? rv_At r) rows;
     sh_Accepted := counted (fun r => (since <=? rv_At r) && (rv_Verdict r =s VerdictAccepted)) rows;
     sh_FirstReviewAt := default 0 (min_time (map rv_At rows)) |}.

Definition CauseRegressed : string := "regressed".
Definition CauseRolledBack : string := "rolled_back".
Definition CauseRejected : string := "rejected".
Definition CauseHarmful : string := "harmful".
Definition CauseShadowIncorrect : string := "shadow_incorrect".

(** The rows of the [LEFT JOIN LATERAL] of [classRecordSetSQL]: when each
    demerit was seen, and its cause. *)
Definition demerits (outcomes : list Outcome) (shadow : list ShadowEvidence)
    : list (Time * string) :=
  map (fun o => (seen_at o, if no_verdict o then o_Result o else o_Verdict o))
    (List.filter demerit_result outcomes) ++
  map (fun e => (se_ObservedAt e, CauseShadowIncorrect))
    (List.filter (fun e => se_Score e =s "incorrect") shadow).

(** [ORDER BY 1 DESC LIMIT 1] *)
Definition newest (l : list (Time * string)) : option (Time * string) :=
  foldr (fun d best => match best with
                       | Some b => if b.1 <=? d.1 then Some d else Some b
                       | None => Some d
                       end) None l.

(** [l.at IS NULL OR t > l.at] *)
Definition after_demerit (last : option (Time * string)) (t : Time) : bool :=
  match last with None => true | Some d => d.1 <? t end.

(** [count(DISTINCT e.fingerprint)] *)
Definition distinct_fingerprints (l : list ShadowEvidence) : Z :=
  Z.of_nat (size (list_to_set (map se_Fingerprint l) : gset string)).

Definition demeritName (stored : string) : string :=
  if str_in stored [CauseRegressed; CauseRolledBack; CauseRejected; CauseShadowIncorrect]
  then stored else CauseHarmful.

(** [classRecordSetSQL] for one pair, with the sums of [readClassRecords]. *)
Definition classRecordSetSQL (outcomes : list Outcome) (shadow : list ShadowEvidence)
    (f : Family) (c : ActionClass) : ClassRecord :=
  let os := List.filter (of_pair f c) outcomes in
  let es := List.filter (fun e => (se_Family e =s f) && (se_Class e =s c)) shadow in
  let last := newest (demerits os es) in
  let fresh_shadow score := distinct_fingerprints
    (List.filter (fun e => (se_Score e =s score) && after_demerit last (se_ObservedAt e)) es) in
  {| cr_Improved := counted (fun o => verdict_is "improved" o ||
                                (no_verdict o && (o_Result o =s ResultVerifiedRecovery))) os;
     cr_Neutral := counted (verdict_is "neutral") os;
     cr_Regressed := counted (fun o => verdict_is "regressed" o ||
                                 (no_verdict o && harmful_result o)) os;
     cr_RolledBack := counted (verdict_is "rolled_back") os;
     cr_Rejected := counted (fun o => verdict_is "rejected" o ||
                                (no_verdict o && (o_Result o =s ResultRejected))) os;
     cr_Insufficient := counted (verdict_is "insufficient_evidence") os;
     cr_Unverifiable := counted (fun o => verdict_is "unverifiable" o ||
                                    (no_verdict o && (o_Result o =s ResultUnverified))) os;
     cr_Successes := counted (fun o => (o_Result o =s ResultVerifiedRecovery) &&
                                  after_demerit last (seen_at o)) os +
                     fresh_shadow "correct";
     cr_Uncredited := counted (fun o => (o_Result o =s ResultUnverified) &&
                                   verdict_is "neutral" o && after_demerit last (seen_at o)) os +
                      fresh_shadow "neutral";
     cr_LastDemeritAt := option_map fst last;
     cr_LastDemerit := match last with Some d => demeritName d.2 | None => "" end;
     cr_ShadowCorrect := counted (fun e => se_Score e =s "correct") es;
     cr_ShadowIncorrect := counted (fun e => se_Score e =s "incorrect") es;
     cr_ShadowNeutral := counted (fun e => se_Score e =s "neutral") es;
     cr_ShadowSuccesses := fresh_shadow "correct";
     cr_ShadowUncredited := fresh_shadow "neutral" |}.

(** ** The observation floor *)

Record RampFloor : Type := { rf_Start : Time; rf_Safe : Duration; rf_Moderate : Duration }.

(** [RampFloor.For] *)
Definition RampFloor_For (r : RampFloor) (target : Level) (c : ActionClass) : Duration :=
  let rollback := rollbackOf c in
  if (target <=? L2) || (SelfClassTier c =s RiskSafe)
  then RampAge (rf_Safe r) SpecSafeRampAge rollback
  else RampAge (rf_Moderate r) SpecModerateRampAge rollback.

Definition no_floor : FloorStatus :=
  {| fs_Known := false; fs_Start := 0; fs_Observed := 0; fs_RequiredL2 := 0;
     fs_RequiredL3 := 0 |}.

Definition floorStatus (ramp : option RampFloor) (c : ActionClass) (now : Time) : FloorStatus :=
  match ramp with
  | None => no_floor
  | Some r =>
      if time_IsZero (rf_Start r) then no_floor else
      {| fs_Known := true; fs_Start := rf_Start r; fs_Observed := time_Sub now (rf_Start r);
         fs_RequiredL2 := RampFloor_For r L2 c; fs_RequiredL3 := RampFloor_For r L3 c |}
  end.

(** [FloorStatus.required] *)
Definition floor_required (f : FloorStatus) (target : Level) : Duration :=
  if L3 <=? target then fs_RequiredL3 f else fs_RequiredL2 f.

(** ** Checks *)

Record Check : Type := { ck_Name : string; ck_Met : bool }.
Definition check (name : string) (met : bool) : Check := {| ck_Name := name; ck_Met := met |}.

Record Assessment : Type := { as_Target : Level; as_Met : bool; as_Checks : list Check }.

Definition l1Checks (ev : Evidence) : list Check :=
  [check "family_ships" (KnownFamily (ev_Family ev));
   check "class_applicable" (Applicable (ev_Family ev) (ev_Class ev))].

Definition gatedCells (ev : Evidence) : list Cell :=
  match ev_Bench ev with
  | None => []
  | Some b => List.filter (fun c => (c_Family c =s ev_Family ev) && (c_Pending c =s "") &&
                                    str_in (c_Arm c) (er_Gated b)) (er_Cells b)
  end.

Definition some_cell (cells : list Cell) : bool := match cells with [] => false | _ => true end.

Definition benchPresent (cells : list Cell) : Check := check "bench_present" (some_cell cells).

Definition benchFresh (th : Thresholds) (ev : Evidence) : Check :=
  check "bench_fresh"
    match ev_Bench ev with
    | None => false
    | Some b => let age := time_Sub (ev_At ev) (er_GeneratedAt b) in
                (0 <=? age) && (age <=? th_BenchMaxAge th)
    end.

Definition metric_meets (minRate : float64) (minN : Z) (m : Metric) : bool :=
  match Rate m with
  | None => false
  | Some rate => negb ((m_N m <? minN) || f64_ltb rate minRate)
  end.

Definition worstMetric (name : string) (cells : list Cell) (pick : Cell -> Metric)
    (minRate : float64) (minN : Z) : Check :=
  check name (some_cell cells && forallb (fun c => metric_meets minRate minN (pick c)) cells).

Definition worstPrecision (cells : list Cell) (minRate : float64) : Check :=
  check "bench_precision" (some_cell cells &&
    forallb (fun c => negb (f64_ltb (default (f64_of_Z (-1)) (c_Precision c)) minRate)) cells).

(** The sum is an [int]. *)
Definition noForbidden (cells : list Cell) : Check :=
  let total := foldl (fun t c => wrap64 (t + c_Forbidden c)) 0 cells in
  check "bench_no_forbidden" (some_cell cells && (total =? 0)).

Definition meets (minRate : float64) (m : Metric) : bool :=
  match Rate m with None => false | Some rate => f64_leb minRate rate end.

Definition shadowChecks (th : Thresholds) (ev : Evidence) : list Check :=
  let sh := ev_Shadow ev in
  let zero := time_IsZero (sh_FirstReviewAt sh) in
  let span := if zero then 0 else time_Sub (ev_At ev) (sh_FirstReviewAt sh) in
  [check "shadow_duration" (negb zero && (th_ShadowDuration th <=? span));
   check "shadow_volume" (th_ShadowMinReviewed th <=? sh_Reviewed sh);
   check "shadow_acceptance"
     (meets (th_ShadowMinAccepted th) {| m_K := sh_Accepted sh; m_N := sh_Reviewed sh |})].

Definition l2Checks (th : Thresholds) (ev : Evidence) : list Check :=
  let cells := gatedCells ev in
  [benchPresent cells; benchFresh th ev;
   worstMetric "bench_top1" cells c_Top1 (th_MinTop1 th) (th_MinTop1N th);
   worstPrecision cells (th_MinPrecision th); noForbidden cells] ++
  shadowChecks th ev ++
  [check "no_safety_violations" (ev_FamilyViolations ev =? 0)].

Definition add_metric (t m : Metric) : Metric :=
  {| m_K := wrap64 (m_K t + m_K m); m_N := wrap64 (m_N t + m_N m) |}.

Definition gameDaySafePass (th : Thresholds) (ev : Evidence) : Check :=
  let cells := List.filter (fun c => (c_Family c =s ev_Family ev) && (c_Pending c =s ""))
                 (concat (map er_Cells (ev_GameDays ev))) in
  let total := foldl (fun t c => add_metric t (c_SafePass c)) {| m_K := 0; m_N := 0 |} cells in
  check "game_day_safe_pass"
    (if 0 <? m_N total then meets (th_GameDayMinSafePass th) total else true).

Definition l3Checks (th : Thresholds) (ev : Evidence) : list Check :=
  [worstMetric "bench_safe_pass" (gatedCells ev) c_SafePass (th_MinSafePass th)
     (th_MinSafePassN th);
   gameDaySafePass th ev;
   check "live_l2_recoveries" (th_MinL2Recoveries th <=? lv_VerifiedL2 (ev_Live ev));
   check "no_harmful_actions" (lv_HarmfulPair (ev_Live ev) =? 0)].

(** ** Checks of a self-initiated class *)

Definition MinRealSuccessesL3 : Z := 3.
Definition minRealSuccesses (th : Thresholds) : Z :=
  Z.min MinRealSuccessesL3 (th_ClassMinSuccessesL3 th).

(** -1 for no cap. *)
Definition shadowCap (th : Thresholds) (target : Level) : Z :=
  if target <? L3 then -1 else Z.max 0 (th_ClassMinSuccessesL3 th - minRealSuccesses th).

(** The counted, real, shadow and over-the-cap successes. *)
Definition countedSuccesses (th : Thresholds) (target : Level) (r : option ClassRecord)
    : Z * Z * Z * Z :=
  match r with
  | None => (0, 0, 0, 0)
  | Some r =>
      let shadow := cr_ShadowSuccesses r in
      let real := cr_Successes r - shadow in
      let cap := shadowCap th target in
      if (0 <=? cap) && (cap <? shadow) then (real + cap, real, cap, shadow - cap)
      else (real + shadow, real, shadow, 0)
  end.

Definition capCheck (target : Level) (ev : Evidence) : Check :=
  check "class_cap" (target <=? CapForPair (ev_Family ev) (ev_Class ev)).

Definition floorCheck (target : Level) (ev : Evidence) : Check :=
  check "observation_floor"
    match ev_Floor ev with
    | None => false
    | Some fl => if negb (fs_Known fl) then false
                 else floor_required fl target <=? time_Sub (ev_At ev) (fs_Start fl)
    end.

Definition successesCheck (th : Thresholds) (minimum : Z) (target : Level) (ev : Evidence)
    : Check :=
  let '(got, _, _, _) := countedSuccesses th target (ev_Record ev) in
  check "class_successes" (minimum <=? got).

Definition realSuccessesCheck (th : Thresholds) (ev : Evidence) : Check :=
  let '(_, real, _, _) := countedSuccesses th L3 (ev_Record ev) in
  check "class_real_successes" (minRealSuccesses th <=? real).

Definition rateCheck (th : Thresholds) (ev : Evidence) : Check :=
  let m := match ev_Record ev with
           | None => {| m_K := 0; m_N := 0 |}
           | Some r => {| m_K := cr_Successes r; m_N := cr_Successes r + cr_Uncredited r |}
           end in
  check "class_success_rate" (meets (th_ClassMinSuccessRate th) m).

Definition selfChecks (th : Thresholds) (target : Level) (ev : Evidence) : list Check :=
  if target <? L2 then [] else
  let minimum := if L3 <=? target then th_ClassMinSuccessesL3 th
                 else th_ClassMinSuccessesL2 th in
  [capCheck target ev; floorCheck target ev; successesCheck th minimum target ev] ++
  (if L3 <=? target then [realSuccessesCheck th ev; rateCheck th ev] else []).

(** ** The assessment *)

Definition assess_checks (th : Thresholds) (target : Level) (ev : Evidence) : list Check :=
  if target <=? L0 then [] else
  if L4 <=? target then [check "reserved" false] else
  if IsSelfInitiated (ev_Family ev) then l1Checks ev ++ selfChecks th target ev else
  l1Checks ev ++ (if L2 <=? target then l2Checks th ev else []) ++
  (if L3 <=? target then l3Checks th ev else []).

Definition Assess (th : Thresholds) (target : Level) (ev : Evidence) : Assessment :=
  let checks := assess_checks th target ev in
  {| as_Target := target; as_Met := (target <? L4) && forallb ck_Met checks;
     as_Checks := checks |}.

Fixpoint supported_loop (th : Thresholds) (ev : Evidence) (targets : list Level)
    (supported : Level) : Level :=
  match targets with
  | [] => supported
  | target :: targets' =>
      if negb (as_Met (Assess th target ev)) then supported
      else supported_loop th ev targets' target
  end.

Definition SupportedLevel (th : Thresholds) (ev : Evidence) : Level :=
  supported_loop th ev [L1; L2; L3] L0.

(** ** Assembling a pair's evidence *)

(** What the reads answer: the tables of the database, and the bench and
    game-day reports the queries of [readBench] and [readGameDays] pick. *)
Record EvidenceTables : Type := {
  et_Outcomes : list Outcome;
  et_Shadow : list ShadowEvidence;
  et_Reviews : list Review;
  et_Bench : Family -> option EvalRun;
  et_GameDays : Time -> list EvalRun;
}.

Definition no_shadow : Shadow := {| sh_Reviewed := 0; sh_Accepted := 0; sh_FirstReviewAt := 0 |}.
Definition no_live : Live := {| lv_VerifiedL2 := 0; lv_HarmfulPair := 0; lv_Unverified := 0 |}.

(** [Service.Evidence]: [loadEvidence] of the one pair, then [evidenceOf]. *)
Definition evidenceOf (th : Thresholds) (safetyWindow : Duration) (ramp : option RampFloor)
    (e : EvidenceTables) (now : Time) (f : Family) (c : ActionClass) : Evidence :=
  if IsSelfInitiated f then
    {| ev_Family := f; ev_Class := c; ev_At := now; ev_Bench := None; ev_GameDays := [];
       ev_Shadow := no_shadow; ev_Live := no_live; ev_FamilyViolations := 0;
       ev_ViolationsClearAt := None;
       ev_Record := Some (classRecordSetSQL (et_Outcomes e) (et_Shadow e) f c);
       ev_Floor := Some (floorStatus ramp c now) |}
  else
    let sf := safetySetSQL (et_Outcomes e) f (time_Add now (- safetyWindow)) in
    {| ev_Family := f; ev_Class := c; ev_At := now; ev_Bench := et_Bench e f;
       ev_GameDays := et_GameDays e (time_Add now (- th_BenchMaxAge th));
       ev_Shadow := shadowSetSQL (et_Reviews e) f (time_Add now (- th_ShadowDuration th));
       ev_Live := liveSetSQL (et_Outcomes e) f c;
       ev_FamilyViolations := if 0 <? sf.1 then sf.1 else 0;
       ev_ViolationsClearAt := if 0 <? sf.1 then Some (time_Add sf.2 safetyWindow) else None;
       ev_Record := None; ev_Floor := None |}.
