(* ===== verification/EarnedLedger.v ===== *)
(** * Earned autonomy: the ledger of one database

    internal/earned: store.go, store_proposals.go, store_events.go, the writes
    of store_evidence.go, carryover.go, grandfather.go and legacy.go, and the
    transactions of service.go, service_decide.go and demote.go.

    The tables of the ledger's database are one record.  A statement or a
    transaction is a function of it that either fails, and changes nothing, or
    gives its answer and the tables after it.  [now()] and new ids are
    arguments.  The columns that keep evidence JSON are not modelled, nor the
    CHECK constraints of the schema: they only make a transaction fail. *)

From S2P Require Import Prelude.
From S2P Require Import GoStd.
From S2P Require Import PolicyTypes.
From S2P Require Import Earned.
From S2P Require Import EarnedEvidence.

(** ** Errors and rows *)

Inductive LedgerError : Type :=
| InvalidRequest (why : string)
| NotFound (id : string)
| NotPending (id : string)
| ProposalExpired (id : string)
| EvidenceNotMet (a : Assessment)
| HumanApprovalRequired (approver : string)
| Conflict (what : string)
| NotADowngrade (what : string)
| Unavailable (what : string).

Definition ActorPgSage : string := "pg_sage".

Definition StatusPending : string := "pending".
Definition StatusApproved : string := "approved".
Definition StatusRejected : string := "rejected".
Definition StatusExpired : string := "expired".
Definition StatusSuperseded : string := "superseded".

Record Proposal : Type := {
  pr_ID : string;
  pr_Family : Family;
  pr_Class : ActionClass;
  pr_From : Level;
  pr_To : Level;
  pr_Status : string;
  pr_ProposedAt : Time;
  pr_ExpiresAt : Time;
  pr_DecidedBy : string;
  pr_DecidedAt : option Time;
  pr_Note : string;
}.

Definition pr_decided (status actor note : string) (at_ : Time) (p : Proposal) : Proposal :=
  {| pr_ID := pr_ID p; pr_Family := pr_Family p; pr_Class := pr_Class p; pr_From := pr_From p;
     pr_To := pr_To p; pr_Status := status; pr_ProposedAt := pr_ProposedAt p;
     pr_ExpiresAt := pr_ExpiresAt p; pr_DecidedBy := actor; pr_DecidedAt := Some at_;
     pr_Note := note |}.

Definition EventPromotionProposed : string := "promotion_proposed".
Definition EventPromotionApproved : string := "promotion_approved".
Definition EventPromotionRejected : string := "promotion_rejected".
Definition EventPromotionExpired : string := "promotion_expired".
Definition EventDowngraded : string := "downgraded".
Definition EventAutoDowngraded : string := "auto_downgraded".
Definition EventCapped : string := "capped".
Definition EventCapCleared : string := "cap_cleared".
Definition EventAutoExecuted : string := "auto_executed".
Definition EventCarriedOver : string := "carried_over".
Definition EventDeadlineOverride : string := "deadline_override".
Definition EventDatabaseScoped : string := "database_scoped".
Definition EventGrandfathered : string := "grandfathered".

(** [Event]; its id is its place in the table. *)
Record Event : Type := {
  e_Family : Family;
  e_Class : ActionClass;
  e_Type : string;
  e_From : option Level;
  e_To : option Level;
  e_Actor : string;
  e_Reason : string;
  e_ProposalID : string;
  e_ActionLogID : Z;
  e_At : Time;
}.

(** The entry of a level change or of a proposal about one. *)
Definition event f c type (from to : Level) actor reason proposal at_ : Event :=
  {| e_Family := f; e_Class := c; e_Type := type; e_From := Some from; e_To := Some to;
     e_Actor := actor; e_Reason := reason; e_ProposalID := proposal; e_ActionLogID := 0;
     e_At := at_ |}.

Record Ledger : Type := {
  lg_Levels : gmap (string * string) State;
  lg_Legacy : list State;
  lg_Proposals : list Proposal;
  lg_Events : list Event;
  lg_Outcomes : list Outcome;
  lg_Reviews : gmap string Review;
  lg_Grandfathered : option Time;
}.

Definition set_Levels l (t : Ledger) : Ledger :=
  {| lg_Levels := l; lg_Legacy := lg_Legacy t; lg_Proposals := lg_Proposals t;
     lg_Events := lg_Events t; lg_Outcomes := lg_Outcomes t; lg_Reviews := lg_Reviews t;
     lg_Grandfathered := lg_Grandfathered t |}.
Definition set_Proposals l (t : Ledger) : Ledger :=
  {| lg_Levels := lg_Levels t; lg_Legacy := lg_Legacy t; lg_Proposals := l;
     lg_Events := lg_Events t; lg_Outcomes := lg_Outcomes t; lg_Reviews := lg_Reviews t;
     lg_Grandfathered := lg_Grandfathered t |}.
Definition set_Events l (t : Ledger) : Ledger :=
  {| lg_Levels := lg_Levels t; lg_Legacy := lg_Legacy t; lg_Proposals := lg_Proposals t;
     lg_Events := l; lg_Outcomes := lg_Outcomes t; lg_Reviews := lg_Reviews t;
     lg_Grandfathered := lg_Grandfathered t |}.
Definition set_Outcomes l (t : Ledger) : Ledger :=
  {| lg_Levels := lg_Levels t; lg_Legacy := lg_Legacy t; lg_Proposals := lg_Proposals t;
     lg_Events := lg_Events t; lg_Outcomes := l; lg_Reviews := lg_Reviews t;
     lg_Grandfathered := lg_Grandfathered t |}.
Definition set_Reviews l (t : Ledger) : Ledger :=
  {| lg_Levels := lg_Levels t; lg_Legacy := lg_Legacy t; lg_Proposals := lg_Proposals t;
     lg_Events := lg_Events t; lg_Outcomes := lg_Outcomes t; lg_Reviews := l;
     lg_Grandfathered := lg_Grandfathered t |}.
Definition set_Grandfathered g (t : Ledger) : Ledger :=
  {| lg_Levels := lg_Levels t; lg_Legacy := lg_Legacy t; lg_Proposals := lg_Proposals t;
     lg_Events := lg_Events t; lg_Outcomes := lg_Outcomes t; lg_Reviews := lg_Reviews t;
     lg_Grandfathered := Some g |}.

(** ** Transactions *)

Definition Tx (A : Type) : Type := Ledger -> (A * Ledger) + LedgerError.
Definition tx_ret {A} (a : A) : Tx A := fun t => inl (a, t).
Definition tx_fail {A} (e : LedgerError) : Tx A := fun _ => inr e.
Definition tx_bind {A B} (m : Tx A) (k : A -> Tx B) : Tx B :=
  fun t => match m t with inl (a, t') => k a t' | inr e => inr e end.
Notation "'let^' x ':=' m 'in' k" := (tx_bind m (fun x => k))
  (at level 10, x pattern, m at level 200, k at level 200) : go_scope.

Definition tx_get : Tx Ledger := fun t => inl (t, t).
Definition tx_modify (f : Ledger -> Ledger) : Tx unit := fun t => inl (tt, f t).

(** ** Statements *)

Definition readLevel (f : Family) (c : ActionClass) : Tx (option State) :=
  let^ t := tx_get in tx_ret (lg_Levels t !! (f, c)).

Definition appendEvent (e : Event) : Tx unit :=
  tx_modify (fun t => set_Events (lg_Events t ++ [e]) t).

(** [levelChange] *)
Record levelChange : Type := {
  lc_Family : Family;
  lc_Class : ActionClass;
  lc_To : Level;
  lc_ExpectVersion : Z;
  lc_Actor : string;
  lc_Reason : string;
  lc_At : Time;
}.

Definition changed_state (ch : levelChange) (version : Z) : State :=
  {| ls_Family := lc_Family ch; ls_Class := lc_Class ch; ls_Level := lc_To ch;
     ls_Version := version; ls_ChangedBy := lc_Actor ch; ls_Reason := lc_Reason ch;
     ls_ChangedAt := lc_At ch; ls_Stored := true; ls_Provenance := ProvenanceLedger;
     ls_CarriedRef := "" |}.

Definition put_level (st : State) : Tx State :=
  let^ _ := tx_modify (fun t =>
    set_Levels (<[(ls_Family st, ls_Class st) := st]> (lg_Levels t)) t) in
  tx_ret st.

(** The INSERT ... ON CONFLICT DO NOTHING, or the UPDATE of the version read. *)
Definition writeLevel (ch : levelChange) : Tx State :=
  let^ current := readLevel (lc_Family ch) (lc_Class ch) in
  match current with
  | None => if lc_ExpectVersion ch =? 0 then put_level (changed_state ch 1)
            else tx_fail (Conflict (lc_Family ch +:+ "/" +:+ lc_Class ch))
  | Some st =>
      if negb (lc_ExpectVersion ch =? 0) && (ls_Version st =? lc_ExpectVersion ch)
      then put_level (changed_state ch (ls_Version st + 1))
      else tx_fail (Conflict (lc_Family ch +:+ "/" +:+ lc_Class ch))
  end.

(** The inserts of a row the pair has none of; [None] when it has one. *)
Definition insert_level (st : State) : Tx (option State) :=
  let^ current := readLevel (ls_Family st) (ls_Class st) in
  match current with
  | Some _ => tx_ret None
  | None => let^ st := put_level st in tx_ret (Some st)
  end.

(** [uuidPattern] *)
Definition is_hex (c : ascii) : bool := is_digit c || ((97 <=? code c) && (code c <=? 102)).
Definition is_uuid (s : string) : bool :=
  bool_decide (length (str_chars s) = 36%nat) &&
  forallb (fun ic : nat * ascii =>
             if bool_decide (ic.1 ∈ [8; 13; 18; 23]%nat) then char_eqb ic.2 "-"%char
             else is_hex ic.2)
    (imap (fun i c => (i, c)) (str_chars s)).

(** The unique index on pending proposals, and the primary key. *)
Definition insertProposal (p : Proposal) : Tx bool :=
  let^ t := tx_get in
  if existsb (fun q => (pr_ID q =s pr_ID p) ||
                       ((pr_Status q =s StatusPending) && (pr_Family q =s pr_Family p) &&
                        (pr_Class q =s pr_Class p))) (lg_Proposals t)
  then tx_ret false
  else let^ _ := tx_modify (fun t => set_Proposals (lg_Proposals t ++ [p]) t) in tx_ret true.

Definition find_proposal (id : string) (t : Ledger) : option Proposal :=
  List.find (fun p => pr_ID p =s id) (lg_Proposals t).

Definition readProposal (id : string) : Tx Proposal :=
  if negb (is_uuid id) then tx_fail (InvalidRequest ("proposal id " +:+ quote id)) else
  let^ t := tx_get in
  match find_proposal id t with
  | None => tx_fail (NotFound id)
  | Some p => tx_ret p
  end.

(** An UPDATE of the proposals [hit] selects, and the rows it wrote. *)
Definition update_proposals (hit : Proposal -> bool) (write : Proposal -> Proposal)
    : Tx (list Proposal) :=
  let^ t := tx_get in
  let^ _ := tx_modify (set_Proposals
    (map (fun p => if hit p then write p else p) (lg_Proposals t))) in
  tx_ret (map write (List.filter hit (lg_Proposals t))).

Definition pending (p : Proposal) : bool := pr_Status p =s StatusPending.

Definition decideProposal (id status actor note : string) (at_ : Time) : Tx unit :=
  let^ rows := update_proposals (fun p => (pr_ID p =s id) && pending p)
                 (pr_decided status actor note at_) in
  match rows with [_] => tx_ret tt | _ => tx_fail (NotPending id) end.

Definition closePending (f : Family) (c : ActionClass) (status actor note : string) (at_ : Time)
    : Tx (list Proposal) :=
  update_proposals (fun p => (pr_Family p =s f) && pending p &&
                             ((c =s AllClasses) || (pr_Class p =s c)))
    (pr_decided status actor note at_).

Definition expireDue (at_ : Time) : Tx (list Proposal) :=
  update_proposals (fun p => pending p && (pr_ExpiresAt p <=? at_))
    (pr_decided StatusExpired ActorPgSage "expired" at_).

(** [ORDER BY proposed_at DESC, id LIMIT n] of the pending rows. *)
Definition newer (p q : Proposal) : bool :=
  (pr_ProposedAt q <? pr_ProposedAt p) ||
  ((pr_ProposedAt q =? pr_ProposedAt p) && String.ltb (pr_ID p) (pr_ID q)).
Fixpoint insert_newest (p : Proposal) (l : list Proposal) : list Proposal :=
  match l with
  | [] => [p]
  | q :: l' => if newer p q then p :: l else q :: insert_newest p l'
  end.
Definition listProposals (status : string) (limit : nat) : Tx (list Proposal) :=
  let^ t := tx_get in
  tx_ret (take limit (foldr insert_newest []
            (List.filter (fun p => pr_Status p =s status) (lg_Proposals t)))).

(** The unique indexes on (action, source) and on the queue item. *)
Definition insertOutcome (database : string) (o : Outcome) : Tx bool :=
  if o_Database o <>s database then tx_fail (InvalidRequest (quote (o_Database o))) else
  let^ t := tx_get in
  if existsb (fun q => (negb (o_ActionLogID o =? 0) && (o_ActionLogID q =? o_ActionLogID o) &&
                        (o_Source q =s o_Source o)) ||
                       (negb (o_QueueID o =? 0) && (o_QueueID q =? o_QueueID o)))
       (lg_Outcomes t)
  then tx_ret false
  else let^ _ := tx_modify (fun t => set_Outcomes (lg_Outcomes t ++ [o]) t) in tx_ret true.

(** [humanSession]: "user:", digits, and a colon and any text but newlines, or
    nothing, after them. *)
Fixpoint session_tail (seen : bool) (s : string) : bool :=
  match s with
  | EmptyString => seen
  | String c s' => if is_digit c then session_tail true s'
                   else seen && char_eqb c ":"%char &&
                        negb (existsb (fun c => code c =? 10) (str_chars s'))
  end.
Definition humanSession (actor : string) : bool :=
  HasPrefix actor "user:" && session_tail false (drop_chars 5 actor).

Definition ReviewCountsAsEvidence (actor : string) : bool := humanSession actor.

(** A review that does not count never replaces one that does. *)
Definition upsertReview (database : string) (r : Review) : Tx unit :=
  if rv_Database r <>s database then tx_fail (InvalidRequest (quote (rv_Database r))) else
  let counts := ReviewCountsAsEvidence (rv_Reviewer r) in
  let row := {| rv_Database := rv_Database r; rv_InvestigationID := rv_InvestigationID r;
                rv_Family := rv_Family r; rv_Verdict := rv_Verdict r;
                rv_Reviewer := rv_Reviewer r; rv_Note := rv_Note r; rv_At := rv_At r;
                rv_Counts := counts |} in
  let^ t := tx_get in
  let store := tx_modify (fun t => set_Reviews (<[rv_InvestigationID r := row]> (lg_Reviews t)) t) in
  match lg_Reviews t !! rv_InvestigationID r with
  | None => store
  | Some old => if counts || negb (rv_Counts old) then store
                else tx_fail (Conflict ("a person already reviewed investigation " +:+
                                        rv_InvestigationID r))
  end.

(** ** Seeds *)

Definition seeded_state f c level reason at_ provenance ref : State :=
  {| ls_Family := f; ls_Class := c; ls_Level := level; ls_Version := 1;
     ls_ChangedBy := ActorPgSage; ls_Reason := reason; ls_ChangedAt := at_; ls_Stored := true;
     ls_Provenance := provenance; ls_CarriedRef := ref |}.

Definition seedCarried (co : CarryOver) (level : Level) (at_ : Time) : Tx (option State) :=
  let^ st := insert_level (seeded_state (co_Family co) (co_Class co) level
               "carried over from the pre-M7 policy" at_ ProvenanceCarriedOver (co_Ref co)) in
  match st with
  | None => tx_ret None
  | Some st =>
      let^ _ := appendEvent (event (co_Family co) (co_Class co) EventCarriedOver
        (defaultLevel (co_Family co)) level ActorPgSage
        ("carried over from the pre-M7 policy: " +:+ co_Ref co) "" at_) in
      tx_ret (Some st)
  end.

Definition truncate (s : string) (n : nat) : string :=
  if Nat.leb (String.length s) n then s else take_chars n s.

Definition seedGrandfathered (f : Family) (c : ActionClass) (level : Level) (why : string)
    (at_ : Time) : Tx (option State) :=
  let why := truncate why 500 in
  let^ st := insert_level (seeded_state f c level "grandfathered from the time ramp" at_
                             ProvenanceGrandfathered why) in
  match st with
  | None => tx_ret None
  | Some st =>
      let^ _ := appendEvent (event f c EventGrandfathered (defaultLevel f) level ActorPgSage
        ("grandfathered from the time ramp: " +:+ why) "" at_) in
      tx_ret (Some st)
  end.

Definition seedOne (bound : RuntimeState) (now : Time) (sc : selfClass) : Tx (option State) :=
  match ComponentClasses (sc_class sc) with
  | _ :: _ => tx_ret None
  | [] =>
      let '(level, why) := GrandfatheredLevel bound now (sc_class sc) in
      if level <=? defaultLevel (sc_family sc) then tx_ret None
      else seedGrandfathered (sc_family sc) (sc_class sc) level why now
  end.

(** Runs [f] on every element and keeps the answers there are. *)
Fixpoint tx_collect {A B} (f : A -> Tx (option B)) (l : list A) : Tx (list B) :=
  match l with
  | [] => tx_ret []
  | a :: l' =>
      let^ b := f a in
      let^ bs := tx_collect f l' in
      tx_ret (match b with Some b => b :: bs | None => bs end)
  end.

(** The transaction of [SeedGrandfathered]: whether it migrated now, and when
    the database was migrated. *)
Definition grandfatherTx (bound : RuntimeState) (now : Time) : Tx (bool * Time * list State) :=
  let^ t := tx_get in
  match lg_Grandfathered t with
  | Some at_ => tx_ret (false, at_, [])
  | None =>
      let^ seeded := tx_collect (seedOne bound now) selfClasses in
      let^ _ := tx_modify (set_Grandfathered now) in
      tx_ret (true, now, seeded)
  end.

(** One row of [adoptLegacyRows]. *)
Definition adopted_row (at_ : Time) (legacy : State) : State :=
  {| ls_Family := ls_Family legacy; ls_Class := ls_Class legacy; ls_Level := ls_Level legacy;
     ls_Version := 1; ls_ChangedBy := ls_ChangedBy legacy;
     ls_Reason := "adopted for this database: " +:+ take_chars 950 (ls_Reason legacy);
     ls_ChangedAt := at_; ls_Stored := true; ls_Provenance := ProvenanceLedger;
     ls_CarriedRef := "" |}.

(** The row with its history entry. *)
Definition adoptOne (at_ : Time) (legacy : State) : Tx (option State) :=
  let^ st := insert_level (adopted_row at_ legacy) in
  match st with
  | None => tx_ret None
  | Some st =>
      let^ _ := appendEvent (event (ls_Family st) (ls_Class st) EventDatabaseScoped
        (defaultLevel (ls_Family st)) (ls_Level st) ActorPgSage
        ("adopted the deployment-wide level stored before the ledger was per database")
        "" (ls_ChangedAt st)) in
      tx_ret (Some st)
  end.

(** The INSERT ... SELECT of [adoptLegacyRows] and the loop of [AdoptLegacy]. *)
Definition adoptLegacyTx (at_ : Time) : Tx (list State) :=
  let^ t := tx_get in
  tx_collect (adoptOne at_)
    (List.filter (fun st => ls_Provenance st =s ProvenanceLedger) (lg_Legacy t)).

(** ** Lowering *)

Definition lowerOne (f : Family) (c : ActionClass) (to : Level) (actor reason kind : string)
    (now : Time) : Tx (option State) :=
  let^ current := readLevel f c in
  let from := match current with Some st => ls_Level st | None => defaultLevel f end in
  let carried := match current with
                 | Some st => ls_Provenance st =s ProvenanceCarriedOver | None => false end in
  if (from <=? to) || (carried && (kind =s EventAutoDowngraded)) then tx_ret None else
  let^ st := writeLevel {| lc_Family := f; lc_Class := c; lc_To := to;
    lc_ExpectVersion := match current with Some st => ls_Version st | None => 0 end;
    lc_Actor := actor; lc_Reason := reason; lc_At := now |} in
  let^ _ := closePending f c StatusSuperseded actor ("superseded by " +:+ kind) now in
  let^ _ := appendEvent (event f c kind from to actor reason "" now) in
  tx_ret (Some st).

(** The transaction of [lower]. *)
Definition lowerTx (f : Family) (classes : list ActionClass) (to : Level)
    (actor reason kind : string) (now : Time) : Tx (list State) :=
  tx_collect (fun c => lowerOne f c to actor reason kind now) classes.

(** ** Demotion: demote.go *)

Record Demotion : Type := {
  d_Database : string;
  d_Family : Family;
  d_Class : ActionClass;
  d_From : Level;
  d_To : Level;
  d_Cause : string;
  d_ActionLogID : Z;
  d_QueueID : Z;
  d_Detail : string;
  d_At : Time;
}.

Definition DemotionTarget (from : Level) : Level := if from <=? L1 then from else from - 1.

Definition demeritCause (o : Outcome) : option string :=
  if (o_Result o =s ResultRejected) && (o_Verdict o =s CauseRolledBack) then Some CauseRolledBack
  else if o_Result o =s ResultRejected then Some CauseRejected
  else if negb (IsSelfInitiated (o_Family o)) then None
  else if o_Verdict o =s CauseRegressed then Some CauseRegressed
  else if (o_Result o =s ResultHarmful) || (o_Result o =s ResultSafetyViolation)
  then Some CauseHarmful else None.

Definition demotionReason (d : Demotion) (actor : string) : string :=
  let action := "action " +:+ itoa (d_ActionLogID d) +:+ " (" +:+ d_Class d +:+ ")" in
  let what :=
    if d_Cause d =s CauseRegressed then "regressed: " +:+ action else
    if d_Cause d =s CauseRolledBack then "rolled back by an operator: " +:+ action else
    if d_Cause d =s CauseRejected
    then "rejected by an operator: queue item " +:+ itoa (d_QueueID d) +:+ " (" +:+ d_Class d +:+ ")"
    else "harmful outcome recorded by " +:+ actor +:+ " for " +:+ d_Class d in
  what +:+ " on " +:+ d_Database d +:+ "; " +:+ Level_String (d_From d) +:+ " -> " +:+
  Level_String (d_To d).

Definition with_detail (detail : string) (d : Demotion) : Demotion :=
  {| d_Database := d_Database d; d_Family := d_Family d; d_Class := d_Class d;
     d_From := d_From d; d_To := d_To d; d_Cause := d_Cause d; d_ActionLogID := d_ActionLogID d;
     d_QueueID := d_QueueID d; d_Detail := detail; d_At := d_At d |}.

Definition writeDemotion (st : State) (d : Demotion) : Tx unit :=
  let reason := truncate (d_Detail d) 1000 in
  let^ _ := writeLevel {| lc_Family := d_Family d; lc_Class := d_Class d; lc_To := d_To d;
    lc_ExpectVersion := ls_Version st; lc_Actor := ActorPgSage; lc_Reason := reason;
    lc_At := d_At d |} in
  let^ _ := closePending (d_Family d) (d_Class d) StatusSuperseded ActorPgSage
              ("superseded by a demotion: " +:+ d_Cause d) (d_At d) in
  appendEvent {| e_Family := d_Family d; e_Class := d_Class d; e_Type := EventAutoDowngraded;
    e_From := Some (d_From d); e_To := Some (d_To d); e_Actor := ActorPgSage;
    e_Reason := reason; e_ProposalID := ""; e_ActionLogID := d_ActionLogID d;
    e_At := d_At d |}.

(** The transaction of [demoteOnce]. *)
Definition demoteOnce (database : string) (o : Outcome) (cause : string) (now : Time)
    : Tx (option Demotion) :=
  let^ current := readLevel (o_Family o) (o_Class o) in
  match current with
  | None => tx_ret None
  | Some st =>
      if ls_Provenance st =s ProvenanceCarriedOver then tx_ret None else
      if match o_ObservedAt o with
         | Some seen => negb (time_After seen (ls_ChangedAt st)) | None => false end
      then tx_ret None else
      let to := DemotionTarget (ls_Level st) in
      if ls_Level st <=? to then tx_ret None else
      let d := {| d_Database := database; d_Family := o_Family o; d_Class := o_Class o;
                  d_From := ls_Level st; d_To := to; d_Cause := cause;
                  d_ActionLogID := o_ActionLogID o; d_QueueID := o_QueueID o; d_Detail := "";
                  d_At := now |} in
      let d := with_detail (demotionReason d (o_Actor o)) d in
      let^ _ := writeDemotion st d in
      tx_ret (Some d)
  end.

(** ** Deciding a promotion *)

Definition nonHumanPrefixes : list string :=
  [ActorPgSage; "system"; "mcp:"; "mcp-agent"; "stdio"].

Definition humanActor (actor : string) : bool :=
  let actor := TrimSpace actor in
  if (actor =s "") || (200 <? String.length actor)%nat then false
  else negb (existsb (HasPrefix actor) nonHumanPrefixes).

Definition reviewerAllowed (actor : string) : bool :=
  let trimmed := TrimSpace actor in
  humanActor actor ||
  (HasPrefix trimmed "mcp:" && (4 <? String.length trimmed)%nat &&
   (String.length trimmed <=? 200)%nat).

Definition noteOr (note fallback : string) : string :=
  if TrimSpace note =s "" then fallback else note.

(** The transaction of [applyApproval]; [p] was read before it. *)
Definition applyApproval (p : Proposal) (approver note : string) (now : Time) : Tx State :=
  let^ locked := readProposal (pr_ID p) in
  if pr_Status locked <>s StatusPending then tx_fail (NotPending (pr_ID p)) else
  let^ current := readLevel (pr_Family p) (pr_Class p) in
  let from := match current with
              | Some st => ls_Level st | None => defaultLevel (pr_Family p) end in
  if negb (from =? pr_From p) then tx_fail (Conflict "the level moved since the proposal") else
  let^ out := writeLevel {| lc_Family := pr_Family p; lc_Class := pr_Class p; lc_To := pr_To p;
    lc_ExpectVersion := match current with Some st => ls_Version st | None => 0 end;
    lc_Actor := approver; lc_Reason := "promotion " +:+ pr_ID p +:+ " approved";
    lc_At := now |} in
  let^ _ := decideProposal (pr_ID p) StatusApproved approver note now in
  let^ _ := appendEvent (event (pr_Family p) (pr_Class p) EventPromotionApproved (pr_From p)
    (pr_To p) approver (noteOr note "approved") (pr_ID p) now) in
  tx_ret out.

(** The transaction of [Reject]. *)
Definition rejectTx (p : Proposal) (actor note : string) (now : Time) : Tx unit :=
  let^ _ := decideProposal (pr_ID p) StatusRejected actor note now in
  appendEvent (event (pr_Family p) (pr_Class p) EventPromotionRejected (pr_From p) (pr_To p)
    actor (noteOr note "rejected") (pr_ID p) now).
