(* ===== verification/EarnedService.v ===== *)
(** * Earned autonomy: the ledger's operations

    internal/earned: service.go, service_decide.go, demote.go, evaluate.go,
    carryover.go, grandfather.go and legacy.go, as
    programs over the ledger's tables, the service's memory and the world.
    Each statement or transaction may fail with the driver's error and then
    changes nothing; the clock, new ids, the bench reports, the shadow decisions
    and the trust ramp are read from the world. *)

From S2P Require Import Prelude.
From S2P Require Import GoStd.
From S2P Require Import PolicyTypes.
From S2P Require Import Earned.
From S2P Require Import EarnedEvidence.
From S2P Require Import EarnedLedger.

(** ** Configuration *)

Record Config : Type := {
  cf_Thresholds : Thresholds;
  cf_ProposalTTL : Duration;
  cf_MaxEvidenceAge : Duration;
  cf_ConcurrencyWindow : Duration;
  cf_SafetyWindow : Duration;
  cf_FailoverCooldown : Duration;
  cf_EvidenceCacheTTL : Duration;
}.

Definition DefaultConfig : Config := {|
  cf_Thresholds := DefaultThresholds; cf_ProposalTTL := 7 * 24 * Hour;
  cf_MaxEvidenceAge := 5 * Minute; cf_ConcurrencyWindow := 15 * Minute;
  cf_SafetyWindow := 30 * 24 * Hour; cf_FailoverCooldown := 30 * Minute;
  cf_EvidenceCacheTTL := Minute |}.

(** What [NewService] makes of a configuration. *)
Definition service_config (cfg : Config) : Config := {|
  cf_Thresholds := Thresholds_Normalized (cf_Thresholds cfg);
  cf_ProposalTTL := norm_z (cf_ProposalTTL cfg) (cf_ProposalTTL DefaultConfig);
  cf_MaxEvidenceAge := norm_z (cf_MaxEvidenceAge cfg) (cf_MaxEvidenceAge DefaultConfig);
  cf_ConcurrencyWindow := norm_z (cf_ConcurrencyWindow cfg) (cf_ConcurrencyWindow DefaultConfig);
  cf_SafetyWindow := norm_z (cf_SafetyWindow cfg) (cf_SafetyWindow DefaultConfig);
  cf_FailoverCooldown := norm_z (cf_FailoverCooldown cfg) (cf_FailoverCooldown DefaultConfig);
  cf_EvidenceCacheTTL := Z.max 0 (cf_EvidenceCacheTTL cfg) |}.

(** ** The world and the memory *)

(** [dp_fault] is how the next statement fails, if it does. *)
Record Deps (W : Type) : Type := {
  dp_now : M W Time;
  dp_newID : M W string;
  dp_fault : M W (option string);
  dp_shadow : M W (list ShadowEvidence);
  dp_bench : M W (Family -> option EvalRun);
  dp_gameDays : M W (Time -> list EvalRun);
  dp_ramp : M W (option RampFloor);
}.
Arguments dp_now {W}.
Arguments dp_newID {W}.
Arguments dp_fault {W}.
Arguments dp_shadow {W}.
Arguments dp_bench {W}.
Arguments dp_gameDays {W}.
Arguments dp_ramp {W}.

Abbreviation pairKey := (string * string)%type (only parsing).

(** The tables, the service's evidence cache and the two maps of a [Limiter]. *)
Record Mem : Type := {
  me_Ledger : Ledger;
  me_Cache : gmap pairKey (Level * Time);
  me_Last : gmap pairKey string;
  me_Overrides : gmap string Time;
}.

Definition with_ledger t m : Mem :=
  {| me_Ledger := t; me_Cache := me_Cache m; me_Last := me_Last m;
     me_Overrides := me_Overrides m |}.
Definition with_cache c m : Mem :=
  {| me_Ledger := me_Ledger m; me_Cache := c; me_Last := me_Last m;
     me_Overrides := me_Overrides m |}.
Definition with_last l m : Mem :=
  {| me_Ledger := me_Ledger m; me_Cache := me_Cache m; me_Last := l;
     me_Overrides := me_Overrides m |}.
Definition with_overrides o m : Mem :=
  {| me_Ledger := me_Ledger m; me_Cache := me_Cache m; me_Last := me_Last m;
     me_Overrides := o |}.

Abbreviation MS W A := (M (Mem * W) A) (only parsing).

(** A computation that stops at the first error. *)
Definition ebind {W A B} (m : MS W (A + LedgerError)) (k : A -> MS W (B + LedgerError))
    : MS W (B + LedgerError) :=
  let! r := m in match r with inl a => k a | inr e => ret (inr e) end.
Notation "'let*' x ':=' m 'in' k" := (ebind m (fun x => k))
  (at level 10, x pattern, m at level 200, k at level 200) : go_scope.
Definition eret {W A} (a : A) : MS W (A + LedgerError) := ret (inl a).
Definition efail {W A} (e : LedgerError) : MS W (A + LedgerError) := ret (inr e).
Definition get_mem {W A} (f : Mem -> A) : MS W A := on_fst (fun m => (f m, m)).
Definition set_mem {W} (f : Mem -> Mem) : MS W unit := on_fst (fun m => (tt, f m)).

Section Service.
Context {W : Type} (dp : Deps W) (cfg : Config) (database : string).

Definition now : MS W Time := on_snd (dp_now dp).

(** One statement or one transaction. *)
Definition run_tx {A} (m : Tx A) : MS W (A + LedgerError) :=
  let! fault := on_snd (dp_fault dp) in
  match fault with
  | Some e => efail (Unavailable e)
  | None => on_fst (fun mem => match m (me_Ledger mem) with
                               | inl (a, t') => (inl a, with_ledger t' mem)
                               | inr e => (inr e, mem)
                               end)
  end.

Definition invalidate : MS W unit := set_mem (with_cache ∅).

(** [s.invalidate()] after [m], whatever it answers. *)
Definition then_invalidate {A} (m : MS W A) : MS W A :=
  let! a := m in let! _ := invalidate in ret a.

(** [PostgresStore.checkDatabase] *)
Definition checkDatabase (name : string) : option LedgerError :=
  if name <>s database then Some (InvalidRequest (quote name)) else None.

(** ** Levels: service.go *)

(** The loop of [boundByComponents]. *)
Fixpoint read_components (read : pairKey -> MS W (State + LedgerError)) (comps : list pairKey)
    : MS W (list (pairKey * Level) + LedgerError) :=
  match comps with
  | [] => eret []
  | p :: comps' =>
      let* cs := read p in
      let* levels := read_components read comps' in
      eret ((p, ls_Level cs) :: levels)
  end.

(** The map [levels]; a missing key reads as zero. *)
Definition component_level (levels : list (pairKey * Level)) (p : pairKey) : Level :=
  match List.find (fun q : pairKey * Level => bool_decide (q.1 = p)) levels with
  | Some q => q.2
  | None => L0
  end.

(** [Granted]; components are plain classes, so [granted 2] never runs out. *)
Fixpoint granted (fuel : nat) (f : Family) (c : ActionClass) : MS W (State + LedgerError) :=
  match fuel with
  | O => efail (InvalidRequest "components nest too deep")
  | S fuel' =>
      let* row := run_tx (readLevel f c) in
      let st := default (defaultState f c) row in
      let* levels := read_components (fun p => granted fuel' p.1 p.2)
                       (ComponentClasses (ls_Class st)) in
      eret (composedLevel st (bool_decide (is_Some row)) (component_level levels))
  end.

Definition Granted (f : Family) (c : ActionClass) : MS W (State + LedgerError) := granted 2 f c.

(** [Service.Evidence] *)
Definition Evidence_ (f : Family) (c : ActionClass) : MS W (Evidence + LedgerError) :=
  let! at_ := now in
  let! shadow := on_snd (dp_shadow dp) in
  let! bench := on_snd (dp_bench dp) in
  let! gameDays := on_snd (dp_gameDays dp) in
  let* t := run_tx tx_get in
  let! ramp := on_snd (dp_ramp dp) in
  eret (evidenceOf (cf_Thresholds cfg) (cf_SafetyWindow cfg) ramp
          {| et_Outcomes := lg_Outcomes t; et_Shadow := shadow;
             et_Reviews := map snd (map_to_list (lg_Reviews t)); et_Bench := bench;
             et_GameDays := gameDays |} at_ f c).

Definition supportedLevel (f : Family) (c : ActionClass) : MS W (Level + LedgerError) :=
  let! at_ := now in
  let! hit := get_mem (fun m => me_Cache m !! (f, c)) in
  let fresh := match hit with
               | Some hit => (0 <? cf_EvidenceCacheTTL cfg) &&
                             (time_Sub at_ hit.2 <? cf_EvidenceCacheTTL cfg)
               | None => false end in
  match hit, fresh with
  | Some hit, true => eret hit.1
  | _, _ =>
      let* ev := Evidence_ f c in
      let level := SupportedLevel (cf_Thresholds cfg) ev in
      let! _ := set_mem (fun m => with_cache (<[(f, c) := (level, at_)]> (me_Cache m)) m) in
      eret level
  end.

(** Runs [f] on each element, stopping at the first error. *)
Fixpoint each {A} (f : A -> MS W (unit + LedgerError)) (l : list A) : MS W (unit + LedgerError) :=
  match l with
  | [] => eret tt
  | a :: l' => let* _ := f a in each f l'
  end.

Definition expire : MS W (unit + LedgerError) :=
  let! at_ := now in
  let* expired := run_tx (expireDue at_) in
  each (fun p => run_tx (appendEvent (event (pr_Family p) (pr_Class p) EventPromotionExpired
                   (pr_From p) (pr_To p) ActorPgSage "no decision before expiry" (pr_ID p) at_)))
    expired.

Definition PendingProposals : MS W (list Proposal + LedgerError) :=
  let* _ := expire in run_tx (listProposals StatusPending 200).

(** ** Proposing: service.go and evaluate.go *)

(** [None] when the pair already has a pending proposal. *)
Definition createProposal (st : State) (target : Level) : MS W (option Proposal + LedgerError) :=
  let! at_ := now in
  let! id := on_snd (dp_newID dp) in
  let p := {| pr_ID := id; pr_Family := ls_Family st; pr_Class := ls_Class st;
              pr_From := ls_Level st; pr_To := target; pr_Status := StatusPending;
              pr_ProposedAt := at_; pr_ExpiresAt := time_Add at_ (cf_ProposalTTL cfg);
              pr_DecidedBy := ""; pr_DecidedAt := None; pr_Note := "" |} in
  let* inserted := run_tx (insertProposal p) in
  if negb inserted then eret None else
  let* _ := run_tx (appendEvent (event (pr_Family p) (pr_Class p) EventPromotionProposed
              (pr_From p) (pr_To p) ActorPgSage ("evidence supports " +:+ Level_String target)
              (pr_ID p) at_)) in
  let* stored := run_tx (readProposal id) in
  eret (Some stored).

Definition NotProposedEvidence : string := "evidence_not_met".
Definition NotProposedPending : string := "pending".
Definition NotProposedAtCap : string := "at_cap".

Record NotProposed : Type := {
  np_Family : Family;
  np_Class : ActionClass;
  np_Granted : Level;
  np_Target : option Level;
  np_Reason : string;
  np_Pending : string;
  np_Unmet : list Check;
}.

(** What the loop adds to the [Evaluation]. *)
Definition evaluateOne (f : Family) (c : ActionClass) (waiting : list Proposal)
    : MS W ((Proposal + NotProposed) + LedgerError) :=
  let* st := Granted f c in
  let target := ls_Level st + 1 in
  let np target reason pending unmet := inr
    {| np_Family := f; np_Class := c; np_Granted := ls_Level st; np_Target := target;
       np_Reason := reason; np_Pending := pending; np_Unmet := unmet |} in
  if (CapForPair f c <? target) || negb (Grantable target)
  then eret (np None NotProposedAtCap "" []) else
  (* the map keeps the last proposal of a pair *)
  match List.find (fun p => (pr_Family p =s f) && (pr_Class p =s c)) (rev waiting) with
  | Some p => eret (np (Some target) NotProposedPending (pr_ID p) [])
  | None =>
      let* ev := Evidence_ f c in
      let a := Assess (cf_Thresholds cfg) target ev in
      if negb (as_Met a)
      then eret (np (Some target) NotProposedEvidence ""
                   (List.filter (fun k => negb (ck_Met k)) (as_Checks a))) else
      let* created := createProposal st target in
      match created with
      | None => eret (np (Some target) NotProposedPending "" [])
      | Some p => eret (inl p)
      end
  end.

Definition gridPairs : list (Family * ActionClass) :=
  concat (map (fun f => map (fun c => (f, c)) (ApplicableClasses f)) AllFamilies).

Fixpoint evaluate_pairs (pairs : list (Family * ActionClass)) (waiting : list Proposal)
    : MS W ((list Proposal * list NotProposed) + LedgerError) :=
  match pairs with
  | [] => eret ([], [])
  | (f, c) :: pairs' =>
      let* one := evaluateOne f c waiting in
      let* (created, not) := evaluate_pairs pairs' waiting in
      eret (match one with inl p => (p :: created, not) | inr n => (created, n :: not) end)
  end.

(** The proposals created, and the pairs not proposed. *)
Definition Evaluate : MS W ((list Proposal * list NotProposed) + LedgerError) :=
  let* _ := expire in
  let* waiting := run_tx (listProposals StatusPending 200) in
  evaluate_pairs gridPairs waiting.

(** ** Deciding: service_decide.go *)

Definition checkDecidable (p : Proposal) : MS W (unit + LedgerError) :=
  if pr_Status p <>s StatusPending then efail (NotPending (pr_ID p)) else
  let! at_ := now in
  if negb (time_Before at_ (pr_ExpiresAt p))
  then (let* _ := expire in efail (ProposalExpired (pr_ID p))) else
  if (CapForPair (pr_Family p) (pr_Class p) <? pr_To p) || negb (Grantable (pr_To p)) ||
     negb (Applicable (pr_Family p) (pr_Class p))
  then efail (InvalidRequest (Level_String (pr_To p) +:+ " above the cap of " +:+ pr_Class p))
  else eret tt.

Definition Approve (id approver note : string) : MS W (State + LedgerError) :=
  if negb (humanActor approver) then efail (HumanApprovalRequired approver) else
  if (2000 <? String.length note)%nat
  then efail (InvalidRequest "note longer than 2000 characters") else
  let* p := run_tx (readProposal id) in
  let* _ := checkDecidable p in
  let* ev := Evidence_ (pr_Family p) (pr_Class p) in
  let a := Assess (cf_Thresholds cfg) (pr_To p) ev in
  if negb (as_Met a) then efail (EvidenceNotMet a) else
  let! at_ := now in
  then_invalidate (run_tx (applyApproval p approver note at_)).

Definition Reject (id actor note : string) : MS W (Proposal + LedgerError) :=
  if (TrimSpace actor =s "") || (200 <? String.length actor)%nat ||
     (2000 <? String.length note)%nat
  then efail (InvalidRequest "a reject needs an actor and a short note") else
  let* p := run_tx (readProposal id) in
  let! at_ := now in
  let* _ := run_tx (rejectTx p actor note at_) in
  run_tx (readProposal id).

Record DowngradeRequest : Type := {
  dr_Family : Family;
  dr_Class : ActionClass;
  dr_To : Level;
  dr_Actor : string;
  dr_Reason : string;
}.

(** [DowngradeRequest.validate] *)
Definition validate_downgrade (r : DowngradeRequest) : option LedgerError :=
  if negb (KnownFamily (dr_Family r))
  then Some (InvalidRequest ("unknown family " +:+ quote (dr_Family r))) else
  if (dr_Class r <>s AllClasses) && negb (Applicable (dr_Family r) (dr_Class r))
  then Some (InvalidRequest (quote (dr_Class r) +:+ " is not a class of " +:+ dr_Family r)) else
  if negb (Grantable (dr_To r)) then Some (InvalidRequest ("level " +:+ itoa (dr_To r))) else
  if (TrimSpace (dr_Actor r) =s "") || (200 <? String.length (dr_Actor r))%nat
  then Some (InvalidRequest "a downgrade needs an actor") else
  if (TrimSpace (dr_Reason r) =s "") || (1000 <? String.length (dr_Reason r))%nat
  then Some (InvalidRequest "a downgrade needs a reason") else None.

(** [lower]; every class's change carries the transaction's clock. *)
Definition lower (f : Family) (classes : list ActionClass) (to : Level)
    (actor reason kind : string) : MS W (list State + LedgerError) :=
  let! at_ := now in
  then_invalidate (run_tx (lowerTx f classes to actor reason kind at_)).

Definition Downgrade (r : DowngradeRequest) : MS W (list State + LedgerError) :=
  match validate_downgrade r with
  | Some e => efail e
  | None =>
      let classes := if dr_Class r =s AllClasses then ApplicableClasses (dr_Family r)
                     else [dr_Class r] in
      let* out := lower (dr_Family r) classes (dr_To r) (dr_Actor r) (dr_Reason r)
                    EventDowngraded in
      match out with
      | [] => efail (NotADowngrade (dr_Family r +:+ "/" +:+ dr_Class r +:+ " is not above " +:+
                                    Level_String (dr_To r)))
      | _ => eret out
      end
  end.

(** ** Outcomes *)

Definition outcome_results : list string :=
  [ResultVerifiedRecovery; ResultNotRecovered; ResultHarmful; ResultSafetyViolation;
   ResultUnverified; ResultRejected].
Definition outcome_sources : list string :=
  ["executor"; "operator"; "game_day"; "rollout"; "bench"; "rollback"].

Definition validateOutcome (o : Outcome) : option LedgerError :=
  if negb (str_in (o_Result o) outcome_results)
  then Some (InvalidRequest ("result " +:+ quote (o_Result o))) else
  if negb (str_in (o_Source o) outcome_sources)
  then Some (InvalidRequest ("source " +:+ quote (o_Source o))) else
  if negb (KnownFamily (o_Family o)) || negb (knownClass (o_Class o))
  then Some (InvalidRequest ("pair " +:+ o_Family o +:+ "/" +:+ o_Class o)) else
  if negb (Grantable (o_Level o)) then Some (InvalidRequest ("level " +:+ itoa (o_Level o))) else
  if (TrimSpace (o_Database o) =s "") || (200 <? String.length (o_Database o))%nat
  then Some (InvalidRequest "database") else
  if (TrimSpace (o_Actor o) =s "") || (200 <? String.length (o_Actor o))%nat ||
     (2000 <? String.length (o_Detail o))%nat
  then Some (InvalidRequest "actor or detail") else None.

(** One retry after a conflict. *)
Definition retry_conflict {A} (m : MS W (A + LedgerError)) : MS W (A + LedgerError) :=
  let! r := m in match r with inr (Conflict _) => m | _ => ret r end.

Definition demoteForDemerit (o : Outcome) (cause : string) : MS W (option Demotion + LedgerError) :=
  then_invalidate (retry_conflict
    (let! at_ := now in run_tx (demoteOnce database o cause at_))).

Definition demoteFamily (o : Outcome) : MS W (unit + LedgerError) :=
  let reason := truncate ("family safety regression: " +:+ o_Class o +:+ " " +:+ o_Result o +:+
                          " on " +:+ o_Database o +:+ " (" +:+ o_Source o +:+ ")") 1000 in
  let* _ := retry_conflict (lower (o_Family o) (ApplicableClasses (o_Family o)) L1 ActorPgSage
              reason EventAutoDowngraded) in
  eret tt.

Definition recorded_at (at_ : Time) (o : Outcome) : Outcome :=
  {| o_Database := o_Database o; o_ActionLogID := o_ActionLogID o; o_Family := o_Family o;
     o_Class := o_Class o; o_Level := o_Level o; o_Result := o_Result o; o_Source := o_Source o;
     o_Actor := o_Actor o; o_Detail := o_Detail o; o_At := at_; o_Verdict := o_Verdict o;
     o_ObservedAt := o_ObservedAt o; o_QueueID := o_QueueID o |}.

(** [recordOutcomeDemoting] without its demotion: whether the outcome was new,
    with the error of the demotion after it. *)
Definition recordOutcome (o : Outcome) : MS W (bool * option LedgerError) :=
  match validateOutcome o with
  | Some e => ret (false, Some e)
  | None =>
      let! at_ := now in
      let o := recorded_at at_ o in
      let! inserted := then_invalidate (run_tx (insertOutcome database o)) in
      match inserted with
      | inr e => ret (false, Some e)
      | inl false => ret (false, None)
      | inl true =>
          match demeritCause o with
          | Some cause =>
              let! d := demoteForDemerit o cause in
              ret (true, match d with inl _ => None | inr e => Some e end)
          | None =>
              if negb (harmful_result o) then ret (true, None) else
              let! d := demoteFamily o in
              ret (true, match d with inl _ => None | inr e => Some e end)
          end
      end
  end.

Definition RecordReview (r : Review) : MS W (unit + LedgerError) :=
  if (rv_Verdict r <>s VerdictAccepted) && (rv_Verdict r <>s VerdictRejected)
  then efail (InvalidRequest ("verdict " +:+ quote (rv_Verdict r))) else
  if negb (IsIncidentFamily (rv_Family r))
  then efail (InvalidRequest ("family " +:+ quote (rv_Family r) +:+
                              " has no investigation packets")) else
  if negb (is_uuid (rv_InvestigationID r)) then efail (InvalidRequest "investigation id") else
  if negb (reviewerAllowed (rv_Reviewer r))
  then efail (InvalidRequest ("reviewer " +:+ quote (rv_Reviewer r) +:+
                              " cannot record a review")) else
  if (TrimSpace (rv_Database r) =s "") || (200 <? String.length (rv_Database r))%nat ||
     (2000 <? String.length (rv_Note r))%nat
  then efail (InvalidRequest "database or note") else
  let! at_ := now in
  then_invalidate (run_tx (upsertReview database
    {| rv_Database := rv_Database r; rv_InvestigationID := rv_InvestigationID r;
       rv_Family := rv_Family r; rv_Verdict := rv_Verdict r; rv_Reviewer := rv_Reviewer r;
       rv_Note := rv_Note r; rv_At := at_; rv_Counts := rv_Counts r |})).

(** ** Seeding *)

(** The states seeded before the first error, and the error. *)
Fixpoint seed_carried (cos : list CarryOver) (bound : RuntimeState)
    : MS W (list State * option LedgerError) :=
  match cos with
  | [] => ret ([], None)
  | co :: cos' =>
      let level := CarriedLevel bound (co_Family co) (co_Class co) in
      if level <=? defaultLevel (co_Family co) then seed_carried cos' bound else
      let! at_ := now in
      let! st := run_tx (seedCarried co level at_) in
      match st with
      | inr e => ret ([], Some e)
      | inl st =>
          let! (seeded, e) := seed_carried cos' bound in
          ret (match st with Some st => st :: seeded | None => seeded end, e)
      end
  end.

Definition SeedCarriedOver (name : string) (bound : RuntimeState)
    : MS W (list State * option LedgerError) :=
  match checkDatabase name with
  | Some e => ret ([], Some e)
  | None =>
      let! (seeded, e) := seed_carried carryOvers bound in
      match e with
      | Some _ => ret (seeded, e)
      | None => let! _ := invalidate in ret (seeded, None)
      end
  end.

Definition SeedGrandfathered (name : string) (bound : RuntimeState)
    : MS W ((bool * Time * list State) + LedgerError) :=
  match checkDatabase name with
  | Some e => efail e
  | None => let! at_ := now in then_invalidate (run_tx (grandfatherTx bound at_))
  end.

Definition AdoptLegacy : MS W (list State + LedgerError) :=
  let! at_ := now in then_invalidate (run_tx (adoptLegacyTx at_)).

End Service.
