(* ===== verification/EarnedLimiter.v ===== *)
(** * Earned autonomy: the ledger as a gate sees it

    internal/earned: signals.go, budget.go, limiter.go and deadline.go.  A
    [Downgrade] keeps its reason; its detail, which only the history's evidence
    JSON shows, is not modelled. *)

From S2P Require Import Prelude.
From S2P Require Import GoStd.
From S2P Require Import PolicyTypes.
From S2P Require Import Gate.
From S2P Require Import Earned.
From S2P Require Import EarnedEvidence.
From S2P Require Import EarnedLedger.
From S2P Require Import EarnedService.

(** ** Signals *)

Definition DowngradeBudgetBurn : string := "error_budget_fast_burn".
Definition DowngradeBudgetUnknown : string := "error_budget_unknown".
Definition DowngradeBudgetUnavailable : string := "error_budget_unavailable".
Definition DowngradeHARole : string := "ha_role_not_primary".
Definition DowngradeFailover : string := "failover_in_progress".
Definition DowngradeStaleEvidence : string := "evidence_stale".
Definition DowngradeConcurrent : string := "concurrent_action".
Definition DowngradeConcurrencyUnknown : string := "concurrency_unknown".
Definition DowngradeSafetyRegression : string := "family_safety_regression".

Record BudgetState : Type := { bs_Configured : bool; bs_FastBurning : bool; bs_Unknown : bool }.

Record BudgetSummary : Type := {
  bm_Database : string;
  bm_FastBurning : bool;
  bm_AppFastBurning : bool;
  bm_AppSLOs : Z;
  bm_Unknown : list string;
  bm_UnknownApp : list string;
}.

Definition BudgetStateOf (sum : BudgetSummary) : BudgetState :=
  {| bs_Configured := (0 <? bm_AppSLOs sum) || bm_FastBurning sum;
     bs_FastBurning := bm_FastBurning sum;
     bs_Unknown := match bm_UnknownApp sum with [] => false | _ => true end |}.

(** [SummaryBudget.ErrorBudget]; [None] is a missing source. *)
Definition ErrorBudget {W} (source : option (M W (result BudgetSummary))) (database : string)
    : M W (result BudgetState) :=
  match source with
  | None => ret (Err "error budget: no SLO summary source")
  | Some source =>
      let! sum := source in
      match sum with
      | Err e => ret (Err ("error budget of " +:+ quote database +:+ ": " +:+ e))
      | Ok sum =>
          if (bm_Database sum <>s "") && (database <>s "") && (bm_Database sum <>s database)
          then ret (Err ("error budget: summary is for " +:+ quote (bm_Database sum) +:+
                         ", not " +:+ quote database))
          else ret (Ok (BudgetStateOf sum))
      end
  end.

Definition RolePrimary : string := "primary".
Definition RoleReplica : string := "replica".
Definition RoleUnknown : string := "unknown".

Record HAState : Type := { ha_Role : string; ha_SafeMode : bool; ha_LastRoleChange : Time }.

Record Binding (W : Type) : Type := {
  bd_Database : string;
  bd_Budget : option (M W (result BudgetState));
  bd_HA : option (M W (result HAState));
  bd_Concurrency : option (list string -> bool -> Duration -> M W (result Z));
}.
Arguments bd_Database {W}.
Arguments bd_Budget {W}.
Arguments bd_HA {W}.
Arguments bd_Concurrency {W}.

Definition error_text (e : LedgerError) : string :=
  match e with
  | InvalidRequest why => ErrInvalidRequest +:+ ": " +:+ why
  | NotFound id => "autonomy proposal not found: " +:+ id
  | NotPending id => "autonomy proposal is not pending: " +:+ id
  | ProposalExpired id => "autonomy proposal expired: " +:+ id
  | EvidenceNotMet a => "promotion evidence is not met for " +:+ Level_String (as_Target a)
  | HumanApprovalRequired who => "a promotion needs a human approver: approver " +:+ quote who
  | Conflict what => "autonomy ledger changed concurrently: " +:+ what
  | NotADowngrade what => "the target level is not below the current level: " +:+ what
  | Unavailable what => "autonomy ledger unavailable: " +:+ what
  end.

Definition contractCap (req : ActionRequest) : Level :=
  match req_Contract req with None => L1 | Some c => RollbackCap (ac_RollbackClass c) end.

(** [evidenceAge] *)
Definition evidenceAge (cfg : Config) (now at_ : Time) : list string :=
  if time_IsZero at_ then [DowngradeStaleEvidence] else
  if time_After at_ (time_Add now Minute) then [DowngradeStaleEvidence] else
  if cf_MaxEvidenceAge cfg <? time_Sub now at_ then [DowngradeStaleEvidence] else [].

Definition budget_downgrades (r : result BudgetState) : list string :=
  match r with
  | Err _ => [DowngradeBudgetUnavailable]
  | Ok st => if negb (bs_Configured st) then [] else
             if bs_FastBurning st then [DowngradeBudgetBurn] else
             if bs_Unknown st then [DowngradeBudgetUnknown] else []
  end.

Definition ha_downgrades (cfg : Config) (now : Time) (r : result HAState) : list string :=
  match r with
  | Err _ => [DowngradeHARole]
  | Ok st =>
      (if ha_Role st <>s RolePrimary then [DowngradeHARole] else []) ++
      (if ha_SafeMode st then [DowngradeFailover] else
       if negb (time_IsZero (ha_LastRoleChange st)) &&
          (time_Sub now (ha_LastRoleChange st) <? cf_FailoverCooldown cfg)
       then [DowngradeFailover] else [])
  end.

Definition concurrency_downgrades (r : result Z) : list string :=
  match r with
  | Err _ => [DowngradeConcurrencyUnknown]
  | Ok n => if 0 <? n then [DowngradeConcurrent] else []
  end.

Definition safetyDowngrades (r : Z + LedgerError) : list string :=
  match r with
  | inr _ => [DowngradeSafetyRegression]
  | inl n => if 0 <? n then [DowngradeSafetyRegression] else []
  end.

(** ** The limiter *)

Section Limiter.
Context {W : Type} (dp : Deps W) (cfg : Config) (database : string) (b : Binding W).

Definition budget : MS W (list string) :=
  match bd_Budget b with
  | None => ret []
  | Some source => let! st := on_snd source in ret (budget_downgrades st)
  end.

Definition haState : MS W (list string) :=
  match bd_HA b with
  | None => ret [DowngradeHARole]
  | Some source =>
      let! st := on_snd source in let! at_ := now dp in ret (ha_downgrades cfg at_ st)
  end.

Definition concurrency (req : ActionRequest) : MS W (list string) :=
  match bd_Concurrency b, req_TargetObjs req with
  | None, _ | _, [] => ret [DowngradeConcurrencyUnknown]
  | Some source, targets =>
      let! n := on_snd (source targets (req_LeaseHeld req) (cf_ConcurrencyWindow cfg)) in
      ret (concurrency_downgrades n)
  end.

Definition safety (f : Family) : MS W (list string) :=
  let! at_ := now dp in
  let! t := run_tx dp tx_get in
  ret (safetyDowngrades match t with
         | inl t => inl (FamilyViolations (lg_Outcomes t) f (time_Add at_ (- cf_SafetyWindow cfg)))
         | inr e => inr e end).

Definition selfDowngrades : MS W (list string) :=
  let! x := budget in let! y := haState in ret (x ++ y).

Definition databaseDowngrades (f : Family) : MS W (list string) :=
  let! x := budget in let! y := haState in let! z := safety f in ret ((x ++ y) ++ z).

Definition requestDowngrades (req : ActionRequest) (f : Family) : MS W (list string) :=
  if IsSelfInitiated f then selfDowngrades else
  let! out := databaseDowngrades f in
  let! at_ := now dp in
  let age := evidenceAge cfg at_ (req_EvidenceObservedAt req) in
  let! other := concurrency req in
  ret ((out ++ age) ++ other).

(** The entry is logged, and the memory moves, only when it could be written. *)
Definition noteTransition (f : Family) (c : ActionClass) (downs : list string) : MS W unit :=
  let joined := Join (sort_strings downs) "," in
  let! previous := get_mem (fun m => me_Last m !! (f, c)) in
  if match previous with Some p => p =s joined | None => joined =s "" end then ret tt else
  let! at_ := now dp in
  let e := {| e_Family := f; e_Class := c;
              e_Type := if joined =s "" then EventCapCleared else EventCapped;
              e_From := None; e_To := None; e_Actor := ActorPgSage;
              e_Reason := if joined =s "" then "downgrade signals cleared"
                          else "downgraded to at most L1: " +:+ joined;
              e_ProposalID := ""; e_ActionLogID := 0; e_At := at_ |} in
  let! r := run_tx dp (appendEvent e) in
  match r with
  | inr _ => ret tt
  | inl _ => set_mem (fun m => with_last (<[(f, c) := joined]> (me_Last m)) m)
  end.

Definition limit_of (st : State) (f : Family) (c : ActionClass) (level : Level)
    (downs : list string) : AutonomyLimit :=
  {| al_Level := match downs with [] => level | _ => MinLevel [level; L1] end;
     al_Granted := ls_Level st;
     al_Downgraded := match downs with [] => false | _ => true end;
     al_Reasons := downs; al_Class := c; al_Family := f |}.

(** The level before the evidence and the signals are read. *)
Definition capped_level (st : State) (req : ActionRequest) (f : Family) (c : ActionClass)
    : Level :=
  let level := MinLevel [ls_Level st; effectiveCap st c; contractCap req] in
  if negb (Applicable f c) then MinLevel [level; L1] else level.

(** Whether the level is also held to what the evidence supports now. *)
Definition decays (st : State) (f : Family) (level : Level) : bool :=
  (L2 <=? level) && (ls_Provenance st <>s ProvenanceCarriedOver) && negb (IsSelfInitiated f).

Definition Limit_ (req : ActionRequest) : MS W (AutonomyLimit + LedgerError) :=
  match checkDatabase database (bd_Database b) with
  | Some e => efail e
  | None =>
      let '(f, c) := FamilyForRequest req in
      let* st := Granted dp f c in
      let level := capped_level st req f c in
      if ls_Level st <? L2 then eret (limit_of st f c level []) else
      let* level := if decays st f level
                    then (let* supported := supportedLevel dp cfg f c in
                          eret (MinLevel [level; supported]))
                    else eret level in
      let! downs := requestDowngrades req f in
      let! _ := noteTransition f c downs in
      eret (limit_of st f c level downs)
  end.

Definition Limit (_ : Ctx) (req : ActionRequest) : MS W (result AutonomyLimit) :=
  let! r := Limit_ req in
  ret (match r with inl l => Ok l | inr e => Err (error_text e) end).

(** ** Deadline overrides: deadline.go *)

Definition unix_epoch : Time := Eval vm_compute in time_Date 1970 1 1 0 0 0.
Definition UnixNano (t : Time) : Z := wrap64 (t - unix_epoch).

Definition override_key (f : Family) (c : ActionClass) (req : ActionRequest)
    (d : DeadlineContext) : string :=
  f +:+ "|" +:+ c +:+ "|" +:+ Join (sort_strings (req_TargetObjs req)) "," +:+ "|" +:+
  itoa (UnixNano (dl_HardAt d)).

(** The key, and whether the override was not recorded yet. *)
Definition claimOverride (f : Family) (c : ActionClass) (req : ActionRequest)
    (d : DeadlineContext) : MS W (string * bool) :=
  let key := override_key f c req d in
  let! at_ := now dp in
  on_fst (fun m =>
    let live := filter (fun kv : string * Time => time_After kv.2 at_ = true) (me_Overrides m) in
    match live !! key with
    | Some _ => ((key, false), with_overrides live m)
    | None => ((key, true), with_overrides (<[key := dl_HardAt d]> live) m)
    end).

Definition appendOverride (f : Family) (c : ActionClass) (req : ActionRequest)
    (dl : DeadlineContext) (d : Decision) : MS W (unit + LedgerError) :=
  let* st := Granted dp f c in
  let! at_ := now dp in
  let reason := "mandatory " +:+ dl_Kind dl +:+ " deadline (" +:+ dl_Urgency dl +:+ ", hard at " +:+
    format_rfc3339 (dl_HardAt dl) +:+ ") ran without the ledger level (granted " +:+
    Level_String (ls_Level st) +:+ "); gate reason " +:+ dec_Reason d in
  run_tx dp (appendEvent {| e_Family := f; e_Class := c; e_Type := EventDeadlineOverride;
    e_From := None; e_To := None; e_Actor := ActorPgSage; e_Reason := truncate reason 2000;
    e_ProposalID := ""; e_ActionLogID := 0; e_At := at_ |}).

Definition RecordDeadlineOverride (_ : Ctx) (req : ActionRequest) (d : Decision) : MS W unit :=
  match req_Deadline req with
  | None => ret tt
  | Some dl =>
      let f := TrimSpace (req_IncidentFamily req) in
      let c := ClassFor req in
      let! (key, fresh) := claimOverride f c req dl in
      if negb fresh then ret tt else
      let! r := appendOverride f c req dl d in
      match r with
      | inl _ => ret tt
      | inr _ => set_mem (fun m => with_overrides (delete key (me_Overrides m)) m)
      end
  end.

(** [Limiter] as the [policy.AutonomyLimiter] it implements. *)
Definition Limiter : AutonomyLimiter (Mem * W) :=
  {| lim_Limit := Limit; lim_Governs := Some Governs;
     lim_RecordDeadlineOverride := Some RecordDeadlineOverride |}.

End Limiter.
