(* ===== verification/GateConfine.v ===== *)
(** * The gate under an invariant of its world

    When no callback breaks an invariant [I] of the world, what the gate sees
    while it authorizes is what its callbacks answer in worlds of [I]: the gate
    over the worlds of [I] simulates it, so every theorem of GateSafety.v about
    what was seen also tells in which worlds it was seen. *)

From S2P Require Import Prelude.
From S2P Require Import GoStd.
From S2P Require Import PolicyTypes.
From S2P Require Import Document.
From S2P Require Import Gate.
From S2P Require Import GateSafety.
From S2P Require Import GateBatch.

Section Confine.
Context {W : Type} (I : W -> Prop) {I_dec : forall w, base.Decision (I w)}.

Definition keeps {A} (m : M W A) : Prop := forall w, I w -> I (snd (m w)).

(** [m] over the worlds of [I]. *)
Definition confine {A} (m : M W A) : M (sig I) A := fun w =>
  let r := m (`w) in
  (fst r, match decide (I (snd r)) with left p => exist I (snd r) p | right _ => w end).

Definition inside (w1 : sig I) (w2 : W) : Prop := `w1 = w2.

Lemma sim_confine {A} (m : M W A) : keeps m -> sim inside (confine m) m.
Proof.
  intros Hm [w Hw] w2 Hin. unfold inside in *. simpl in Hin. subst w2. unfold value_at, confine.
  cbv beta zeta. simpl. split; [done|]. specialize (Hm w Hw). by destruct (decide _).
Qed.

Lemma returns_confine {A} (m : M W A) a : returns (confine m) a -> exists w, I w /\ value_at m w = a.
Proof. intros [[w Hw] Ha]. exists w. by split. Qed.

(** [within m Q]: from a world of [I], [m] answers [Q] and stays in [I]. *)
Definition within {A} (m : M W A) (Q : A -> Prop) : Prop :=
  forall w, I w -> Q (value_at m w) /\ I (snd (m w)).

Lemma within_keeps {A} (m : M W A) Q : within m Q -> keeps m.
Proof. intros Hm w Hw. by apply Hm. Qed.

Lemma within_ret {A} (a : A) (Q : A -> Prop) : Q a -> within (ret a) Q.
Proof. by intros Ha w Hw. Qed.

Lemma within_bind {A B} (m : M W A) (k : A -> M W B) (P : A -> Prop) (Q : B -> Prop) :
  within m P -> (forall a, P a -> within (k a) Q) -> within (bind m k) Q.
Proof.
  intros Hm Hk w Hw. destruct (Hm w Hw) as [Ha Hw']. unfold value_at, bind in *.
  destruct (m w) as [a w']. by apply (Hk a Ha).
Qed.

Lemma within_mono {A} (m : M W A) (P Q : A -> Prop) :
  within m P -> (forall a, P a -> Q a) -> within m Q.
Proof. intros Hm HPQ w Hw. destruct (Hm w Hw). auto. Qed.

Definition confine2 {T} (f : option (Ctx -> ActionRequest -> M W T))
    : option (Ctx -> ActionRequest -> M (sig I) T) :=
  (fun g ctx req => confine (g ctx req)) <$> f.

Definition confine_limiter (l : AutonomyLimiter W) : AutonomyLimiter (sig I) :=
  {| lim_Limit := fun ctx req => confine (lim_Limit l ctx req);
     lim_Governs := lim_Governs l;
     lim_RecordDeadlineOverride :=
       (fun g ctx req d => confine (g ctx req d)) <$> lim_RecordDeadlineOverride l |}.

(** The gate over the worlds of [I]; evaluating neither records nor locks. *)
Definition confined (config : GateConfig W) : GateConfig (sig I) :=
  {| gc_Runtime := confine2 (gc_Runtime config);
     gc_ValidateSQL := gc_ValidateSQL config;
     gc_Policy := confine2 (gc_Policy config);
     gc_Usage := confine2 (gc_Usage config);
     gc_WindowObserved := confine <$> gc_WindowObserved config;
     gc_RecordDecision := None; gc_RecordDecisionDetailed := None;
     gc_Now := confine <$> gc_Now config; gc_SystemNow := confine (gc_SystemNow config);
     gc_Autonomy := confine_limiter <$> gc_Autonomy config;
     gc_Serialize := None;
     gc_Facts := confine2 (gc_Facts config);
     gc_Verification := confine2 (gc_Verification config);
     gc_Agents := confine2 (gc_Agents config) |}.

Definition keeps2 {T} (f : option (Ctx -> ActionRequest -> M W T)) : Prop :=
  forall g ctx req, f = Some g -> keeps (g ctx req).

Record keeps_config (config : GateConfig W) : Prop := {
  kc_runtime : keeps2 (gc_Runtime config);
  kc_policy : keeps2 (gc_Policy config);
  kc_usage : keeps2 (gc_Usage config);
  kc_hook : forall m, gc_WindowObserved config = Some m -> keeps m;
  kc_now : keeps (now config);
  kc_limit : forall l ctx req, gc_Autonomy config = Some l -> keeps (lim_Limit l ctx req);
  kc_override : forall l f ctx req d, gc_Autonomy config = Some l ->
    lim_RecordDeadlineOverride l = Some f -> keeps (f ctx req d);
  kc_facts : keeps2 (gc_Facts config);
  kc_pending : keeps2 (gc_Verification config);
  kc_agents : keeps2 (gc_Agents config);
  kc_serialize : keeps2 (gc_Serialize config);
}.

Lemma sim_confine2 {T} ctx (f : option (Ctx -> ActionRequest -> M W T)) :
  keeps2 f -> sim_opt (sim2 inside ctx) (confine2 f) f.
Proof. destruct f as [g|]; simpl; [|done]. intros Hg req. by apply sim_confine, Hg. Qed.

Context `{GoEnv} (config : GateConfig W) (Hk : keeps_config config).

Lemma sim_confined ctx : sim_config inside ctx (confined config) config.
Proof.
  destruct Hk as [Hrt Hpo Hus Hho Hno Hli Hov Hfa Hpe Hag _].
  constructor; simpl; auto using sim_confine2.
  - destruct (gc_WindowObserved config); simpl; [|done]. auto using sim_confine.
  - unfold now in *. simpl. destruct (gc_Now config); simpl; by apply sim_confine.
  - destruct (gc_Autonomy config) as [l|]; simpl; [|done]. constructor; simpl; [|done|].
    + intros req. by apply sim_confine, Hli.
    + destruct (lim_RecordDeadlineOverride l) eqn:E; simpl; [|done].
      intros req d. apply sim_confine. eauto.
Qed.

Lemma evaluate_inside ctx req w :
  I w -> executes (value_at (evaluate config ctx req) w) -> authorized (confined config) ctx req.
Proof.
  intros Hw Hx. set (w1 := exist I w Hw).
  destruct (sim_evaluate inside ctx _ _ (sim_confined ctx) req w1 w eq_refl) as [Hv _].
  apply (evaluate_authorized (confined config) ctx req w1). by rewrite Hv.
Qed.

Lemma finish_inside ctx req w :
  I w -> executes (value_at (let! d := evaluate config ctx req in finish config ctx req d) w) ->
  authorized (confined config) ctx req.
Proof.
  intros Hw Hx. apply (evaluate_inside ctx req w Hw). unfold value_at, bind in *.
  destruct (evaluate config ctx req w) as [d w'].
  by apply (finish_execute config ctx req d w').
Qed.

(** Authorize_authorized, with what was seen seen in worlds of [I]. *)
Lemma Authorize_inside ctx req w d :
  I w -> value_at (Authorize config ctx req) w = d -> dec_Verdict d = VerdictExecute ->
  exists ctx', authorized (confined config) ctx' (gate_request ctx req).
Proof.
  intros Hw <- Hx. unfold Authorize in Hx. fold (gate_request ctx req) in Hx. cbv zeta in Hx.
  set (r := gate_request ctx req) in *.
  assert (Hplain : executes (value_at (let! d := evaluate config ctx r in
            finish config ctx r d) w) -> exists ctx', authorized (confined config) ctx' r).
  { intros He. exists ctx. by apply (finish_inside ctx r w). }
  destruct (_ || _) in Hx; [by apply Hplain|].
  destruct (gc_Serialize config) as [Serialize|] eqn:Es; [|by apply Hplain].
  pose proof (kc_serialize config Hk Serialize ctx r Es w Hw) as Hw'.
  unfold authorizeSerialized, value_at, bind in Hx.
  destruct (Serialize ctx r w) as [[[ctx' done_]|e] w'].
  - exists ctx'. apply (evaluate_inside ctx' r w' Hw'). unfold value_at.
    destruct (evaluate config ctx' r w') as [d w2].
    pose proof (record_execute config ctx' r d w2) as Hr. unfold value_at in Hr.
    destruct (record config ctx' r d w2) as [[d' err] w3]. simpl in Hr.
    destruct err as [e|].
    + destruct (done_ false w3) as [[?|?] w4]; simpl in Hx; by destruct (Hr Hx).
    + destruct (done_ true w3) as [[?|?] w4]; simpl in Hx; [by apply Hr|].
      by rewrite decisionForRequest_verdict in Hx.
  - by apply (finish_execute config ctx r) in Hx.
Qed.
End Confine.
