(* ===== verification/EarnedGate.v ===== *)
(** * The gate behind the ledger

    What an unattended change needs from the earned-autonomy ledger: the gate of
    internal/policy with the [Limiter] of internal/earned as its
    [AutonomyLimiter], every other callback acting on the world outside the
    ledger. *)

From S2P Require Import Prelude.
From S2P Require Import GoStd.
From S2P Require Import PolicyTypes.
From S2P Require Import Document.
From S2P Require Import Gate.
From S2P Require Import GateSafety.
From S2P Require Import Samples.
From S2P Require Import GateConfine.
From S2P Require Import Earned.
From S2P Require Import EarnedEvidence.
From S2P Require Import EarnedLedger.
From S2P Require Import EarnedService.
From S2P Require Import EarnedLimiter.

#[export] Instance State_eq_dec : EqDecision State.
Proof. solve_decision. Defined.
#[export] Instance Outcome_eq_dec : EqDecision Outcome.
Proof. solve_decision. Defined.

(** ** The configuration *)

Definition beside {W T} (f : option (Ctx -> ActionRequest -> M W T))
    : option (Ctx -> ActionRequest -> MS W T) :=
  (fun g ctx req => on_snd (g ctx req)) <$> f.

(** A gate's callbacks beside the ledger, with the ledger's limiter. *)
Definition ledger_gate {W} (base : GateConfig W) (dp : Deps W) (cfg : Config)
    (database : string) (b : Binding W) : GateConfig (Mem * W) :=
  {| gc_Runtime := beside (gc_Runtime base);
     gc_ValidateSQL := gc_ValidateSQL base;
     gc_Policy := beside (gc_Policy base);
     gc_Usage := beside (gc_Usage base);
     gc_WindowObserved := on_snd <$> gc_WindowObserved base;
     gc_RecordDecision := (fun g ctx req d => on_snd (g ctx req d)) <$> gc_RecordDecision base;
     gc_RecordDecisionDetailed :=
       (fun g ctx req d => on_snd (g ctx req d)) <$> gc_RecordDecisionDetailed base;
     gc_Now := on_snd <$> gc_Now base; gc_SystemNow := on_snd (gc_SystemNow base);
     gc_Autonomy := Some (Limiter dp cfg database b);
     gc_Serialize := (fun g ctx req =>
       let! r := on_snd (g ctx req) in
       ret (match r with
            | Ok (ctx', done_) => Ok (ctx', fun commit => on_snd (done_ commit))
            | Err e => Err e
            end)) <$> gc_Serialize base;
     gc_Facts := beside (gc_Facts base);
     gc_Verification := beside (gc_Verification base);
     gc_Agents := beside (gc_Agents base) |}.

(** ** The ledger while the gate runs *)

Section Within.
Context {W : Type} (T : gmap (string * string) State) (Os : list Outcome).

(** The levels and the outcomes are those of one moment. *)
Definition at_ledger (mw : Mem * W) : Prop :=
  lg_Levels (me_Ledger mw.1) = T /\ lg_Outcomes (me_Ledger mw.1) = Os.

Instance at_ledger_dec mw : base.Decision (at_ledger mw).
Proof. unfold at_ledger. apply _. Defined.

Abbreviation Within := (within at_ledger) (only parsing).

Lemma within_on_snd {A} (m : M W A) : Within (on_snd m) (returns m).
Proof.
  intros [mem w] Hw. unfold value_at, on_snd. simpl. destruct (m w) as [a w'] eqn:E. simpl.
  split; [exists w; unfold value_at; by rewrite E|done].
Qed.

Lemma within_get {A} (f : Mem -> A) : Within (get_mem f) (fun _ => True).
Proof. by intros [mem w] Hw. Qed.

Lemma within_set (f : Mem -> Mem) :
  (forall m, me_Ledger (f m) = me_Ledger m) -> Within (set_mem f) (fun _ => True).
Proof. intros Hf [mem w] Hw. split; [done|]. unfold at_ledger in *. simpl. by rewrite Hf. Qed.

(** A statement that changes neither table. *)
Definition quiet_tx {A} (m : Tx A) : Prop := forall t a t', m t = inl (a, t') ->
  lg_Levels t' = lg_Levels t /\ lg_Outcomes t' = lg_Outcomes t.

Context (dp : Deps W) (cfg : Config) (database : string) (b : Binding W).

Lemma within_run_tx {A} (m : Tx A) :
  quiet_tx m -> Within (run_tx dp m) (fun r => forall a, r = inl a ->
    exists t t', lg_Levels t = T /\ lg_Outcomes t = Os /\ m t = inl (a, t')).
Proof.
  intros Hm. unfold run_tx. eapply within_bind; [apply within_on_snd|]. intros [e|] _.
  - by apply within_ret.
  - intros [mem w] [HT HO]. unfold value_at, on_fst. simpl in *.
    destruct (m (me_Ledger mem)) as [[a t']|e] eqn:E; simpl; [|by split].
    destruct (Hm _ _ _ E) as [H1 H2]. split; [|split; simpl; congruence].
    intros a' [= <-]. eauto.
Qed.

Lemma within_ebind {A B} (m : MS W (A + LedgerError)) (k : A -> MS W (B + LedgerError)) P Q :
  Within m (fun r => forall a, r = inl a -> P a) ->
  (forall a, P a -> Within (k a) Q) -> (forall e, Q (inr e)) -> Within (ebind m k) Q.
Proof.
  intros Hm Hk He. unfold ebind. eapply within_bind; [exact Hm|]. intros [a|e] Ha.
  - by apply Hk, Ha.
  - by apply within_ret.
Qed.

Lemma within_now : Within (now dp) (returns (dp_now dp)).
Proof. apply within_on_snd. Qed.

Lemma quiet_read f c : quiet_tx (readLevel f c).
Proof. by intros t a t' [= _ <-]. Qed.
Lemma quiet_get : quiet_tx tx_get.
Proof. by intros t a t' [= _ <-]. Qed.
Lemma quiet_append e : quiet_tx (appendEvent e).
Proof. by intros t a t' [= _ <-]. Qed.

(** ** The granted level *)

(** The level [granted] answers, from the table. *)
Fixpoint granted_at (fuel : nat) (f : Family) (c : ActionClass) : State :=
  match fuel with
  | O => defaultState f c
  | S fuel' =>
      let row := T !! (f, c) in
      let st := default (defaultState f c) row in
      composedLevel st (bool_decide (is_Some row))
        (component_level (map (fun p => (p, ls_Level (granted_at fuel' p.1 p.2)))
                           (ComponentClasses (ls_Class st))))
  end.

Lemma within_components read (state : pairKey -> State) comps :
  (forall p, Within (read p) (fun r => forall cs, r = inl cs -> cs = state p)) ->
  Within (read_components read comps) (fun r => forall levels, r = inl levels ->
    levels = map (fun p => (p, ls_Level (state p))) comps).
Proof.
  intros Hread. induction comps as [|p comps IH]; [by apply within_ret; intros ? [= <-]|].
  simpl. eapply within_ebind; [apply Hread| |done]. intros cs ->.
  eapply within_ebind; [apply IH| |done]. intros levels ->.
  apply within_ret. by intros ? [= <-].
Qed.

Lemma within_granted fuel : forall f c,
  Within (granted dp fuel f c) (fun r => forall st, r = inl st -> st = granted_at fuel f c).
Proof.
  induction fuel as [|fuel IH]; intros f c; [by apply within_ret|].
  cbn [granted granted_at]. eapply within_ebind; [apply within_run_tx, quiet_read| |done].
  intros row (t & t' & HT & _ & [= <- _]). rewrite HT.
  eapply within_ebind; [apply (within_components _ (fun p => granted_at fuel p.1 p.2))| |done].
  { intros p. apply IH. }
  intros levels ->. apply within_ret. by intros st [= <-].
Qed.

Lemma foldl_lowest {A} (f : A -> Level) l z : foldl (fun lowest p => MinLevel [lowest; f p]) z l <= z.
Proof.
  revert z. induction l as [|p l IH]; intros z; simpl; [lia|].
  etrans; [apply IH|]. lia.
Qed.

(** Above the cap of a composite, the granted level is the row's own. *)
Lemma granted_row fuel f c :
  L1 < ls_Level (granted_at (S fuel) f c) ->
  (exists st, T !! (f, c) = Some st /\ ls_Level (granted_at (S fuel) f c) <= ls_Level st) \/
  T !! (f, c) = None /\ c = ClassIndexReplace /\
    ls_Provenance (granted_at (S fuel) f c) = ProvenanceLedger /\
    ls_Family (granted_at (S fuel) f c) = f.
Proof.
  cbn [granted_at]. destruct (T !! (f, c)) as [st|]; simpl; intros Hl.
  - left. exists st. split; [done|]. unfold composedLevel.
    destruct (ComponentClasses (ls_Class st)); simpl; lia.
  - right. unfold composedLevel in *. simpl in *. unfold ComponentClasses in *.
    destruct (String.eqb_spec c ClassIndexReplace) as [E|E]; [by split_and!|].
    simpl in Hl. pose proof (defaultLevel_range f). unfold L1 in Hl. lia.
Qed.

(** ** The signals *)

(** No downgrade signal held when the sources were asked. *)
Record signals_clear (f : Family) (req : ActionRequest) : Prop := {
  sg_budget : bd_Budget b = None \/ exists source st,
    bd_Budget b = Some source /\ returns source st /\ budget_downgrades st = [];
  sg_ha : exists source st t, bd_HA b = Some source /\ returns source st /\
    returns (dp_now dp) t /\ ha_downgrades cfg t st = [];
  sg_safety : IsSelfInitiated f = false -> exists t, returns (dp_now dp) t /\
    FamilyViolations Os f (time_Add t (- cf_SafetyWindow cfg)) = 0;
  sg_age : IsSelfInitiated f = false -> exists t, returns (dp_now dp) t /\
    evidenceAge cfg t (req_EvidenceObservedAt req) = [];
  sg_concurrency : IsSelfInitiated f = false -> exists source n,
    bd_Concurrency b = Some source /\ req_TargetObjs req <> [] /\
    returns (source (req_TargetObjs req) (req_LeaseHeld req) (cf_ConcurrencyWindow cfg)) (Ok n) /\
    n <= 0;
}.

Lemma within_budget_signal : Within (budget b) (fun downs => downs = [] ->
  bd_Budget b = None \/ exists source st,
    bd_Budget b = Some source /\ returns source st /\ budget_downgrades st = []).
Proof.
  unfold budget. destruct (bd_Budget b) as [source|]; [|by apply within_ret; left].
  eapply within_bind; [apply within_on_snd|]. intros st Hst. apply within_ret. right. eauto.
Qed.

Lemma within_ha : Within (haState dp cfg b) (fun downs => downs = [] ->
  exists source st t, bd_HA b = Some source /\ returns source st /\
    returns (dp_now dp) t /\ ha_downgrades cfg t st = []).
Proof.
  unfold haState. destruct (bd_HA b) as [source|]; [|by apply within_ret].
  eapply within_bind; [apply within_on_snd|]. intros st Hst.
  eapply within_bind; [apply within_now|]. intros t Ht. apply within_ret. eauto 10.
Qed.

Lemma within_safety f : Within (safety dp cfg f) (fun downs => downs = [] ->
  exists t, returns (dp_now dp) t /\
    FamilyViolations Os f (time_Add t (- cf_SafetyWindow cfg)) = 0).
Proof.
  unfold safety. eapply within_bind; [apply within_now|]. intros t Ht.
  eapply within_bind; [apply within_run_tx, quiet_get|]. intros [l|e] Hl; apply within_ret; [|done].
  destruct (Hl l eq_refl) as (t1 & t2 & _ & HO & [= -> _]). rewrite HO. simpl.
  destruct (Z.ltb_spec 0 (FamilyViolations Os f (time_Add t (- cf_SafetyWindow cfg)))); [done|].
  intros _. exists t. split; [done|].
  assert (0 <= FamilyViolations Os f (time_Add t (- cf_SafetyWindow cfg)));
    [unfold FamilyViolations, safetySetSQL; simpl; lia|lia].
Qed.

Lemma within_concurrency req : Within (concurrency cfg b req) (fun downs => downs = [] ->
  exists source n, bd_Concurrency b = Some source /\ req_TargetObjs req <> [] /\
    returns (source (req_TargetObjs req) (req_LeaseHeld req) (cf_ConcurrencyWindow cfg)) (Ok n) /\
    n <= 0).
Proof.
  unfold concurrency. destruct (bd_Concurrency b) as [source|]; [|by apply within_ret].
  destruct (req_TargetObjs req) as [|o objs] eqn:E; [by apply within_ret|].
  eapply within_bind; [apply within_on_snd|]. intros [n|e] Hn; apply within_ret; [|done].
  simpl. destruct (Z.ltb_spec 0 n); [done|]. intros _. by exists source, n.
Qed.

Lemma within_downgrades req f : Within (requestDowngrades dp cfg b req f)
  (fun downs => downs = [] -> signals_clear f req).
Proof.
  unfold requestDowngrades. destruct (IsSelfInitiated f) eqn:Hf.
  - unfold selfDowngrades. eapply within_bind; [apply within_budget_signal|]. intros x Hx.
    eapply within_bind; [apply within_ha|]. intros y Hy. apply within_ret.
    intros [??]%app_nil. constructor; auto; congruence.
  - unfold databaseDowngrades.
    eapply within_bind; [eapply within_bind; [apply within_budget_signal|]; intros x Hx;
      eapply within_bind; [apply within_ha|]; intros y Hy;
      eapply within_bind; [apply within_safety|]; intros z Hz; apply within_ret|].
    { instantiate (1 := fun out => out = [] -> _ /\ _ /\ _). simpl.
      intros [[Hx' Hy']%app_nil Hz']%app_nil.
      split; [exact (Hx Hx')|split; [exact (Hy Hy')|exact (Hz Hz')]]. }
    intros out Hout. eapply within_bind; [apply within_now|]. intros t Ht.
    eapply within_bind; [apply within_concurrency|]. intros other Hother. apply within_ret.
    intros [[Ho Ha]%app_nil Hc]%app_nil. destruct (Hout Ho) as (? & ? & ?).
    constructor; eauto.
Qed.

(** ** The limiter *)

Lemma within_quiet {A} (m : Tx A) : quiet_tx m -> Within (run_tx dp m) (fun _ => True).
Proof. intros Hm. eapply within_mono; [by apply within_run_tx|done]. Qed.

Lemma within_any {A B} (m : MS W (A + LedgerError)) (k : A -> MS W (B + LedgerError)) :
  Within m (fun _ => True) -> (forall a, Within (k a) (fun _ => True)) ->
  Within (ebind m k) (fun _ => True).
Proof.
  intros Hm Hk. eapply (within_ebind _ _ (fun _ => True));
    [eapply within_mono; [exact Hm|done]|by intros|done].
Qed.

Lemma within_note f c downs : Within (noteTransition dp f c downs) (fun _ => True).
Proof.
  unfold noteTransition. eapply within_bind; [apply within_get|]. intros previous _.
  match goal with |- within _ (if ?x then _ else _) _ => destruct x end; [by apply within_ret|].
  eapply within_bind; [apply within_now|]. intros t _.
  eapply within_bind; [apply within_quiet, quiet_append|]. intros [[]|e] _;
    [by apply within_set|by apply within_ret].
Qed.

Lemma within_evidence f c : Within (Evidence_ dp cfg f c) (fun _ => True).
Proof.
  unfold Evidence_. eapply within_bind; [apply within_now|]. intros t _.
  do 3 (eapply within_bind; [apply within_on_snd|]; intros ? _).
  apply within_any; [apply within_quiet, quiet_get|]. intros l.
  eapply within_bind; [apply within_on_snd|]. intros ramp _. by apply within_ret.
Qed.

Lemma within_supported f c : Within (supportedLevel dp cfg f c) (fun _ => True).
Proof.
  unfold supportedLevel. eapply within_bind; [apply within_now|]. intros t _.
  eapply within_bind; [apply within_get|]. intros hit _.
  assert (Hread : Within (let* ev := Evidence_ dp cfg f c in
      let level := SupportedLevel (cf_Thresholds cfg) ev in
      let! _ := set_mem (fun m => with_cache (<[(f, c) := (level, t)]> (me_Cache m)) m) in
      eret level) (fun _ => True)).
  { apply within_any; [apply within_evidence|]. intros ev. cbv zeta.
    eapply within_bind; [by apply within_set|]. intros _ _. by apply within_ret. }
  destruct hit as [hit|]; [|exact Hread]. destruct (_ && _); [by apply within_ret|exact Hread].
Qed.

(** What an answer of L3 means. *)
Record earned_l3 (f : Family) (c : ActionClass) (req : ActionRequest) : Prop := {
  el_row : exists st, T !! (f, c) = Some st /\ L3 <= ls_Level st;
  el_applicable : Applicable f c = true;
  el_reversible : contractCap req = L3;
  el_signals : signals_clear f req;
}.

Lemma capped_level_spec st req f c :
  L3 <= capped_level st req f c ->
  L3 <= ls_Level st /\ L3 <= effectiveCap st c /\ contractCap req = L3 /\ Applicable f c = true.
Proof.
  unfold capped_level. pose proof (RollbackCap_range) as Hr.
  assert (Hc : contractCap req <= L3).
  { unfold contractCap. destruct (req_Contract req) as [k|]; [apply Hr|]. unfold L1, L3. lia. }
  destruct (Applicable f c); simpl; unfold MinLevel, L1, L3 in *; simpl; lia.
Qed.

Lemma limit_of_l3 st f c level downs :
  L3 <= al_Level (limit_of st f c level downs) -> L3 <= level /\ downs = [].
Proof. unfold limit_of, MinLevel, L1, L3. simpl. destruct downs; simpl; [done|lia]. Qed.

Lemma within_Limit_ req f c : FamilyForRequest req = (f, c) ->
  Within (Limit_ dp cfg database b req) (fun r => forall l, r = inl l ->
    L3 <= al_Level l -> earned_l3 f c req).
Proof.
  intros Hfc. unfold Limit_. destruct (checkDatabase _ _); [by apply within_ret|]. rewrite Hfc.
  eapply within_ebind; [apply within_granted| |done]. intros st Hst. cbv zeta.
  assert (Hrow : L3 <= capped_level st req f c ->
    (exists row, T !! (f, c) = Some row /\ L3 <= ls_Level row) /\ contractCap req = L3 /\
    Applicable f c = true).
  { intros (Hl & Hcap & Hcc & Happ)%capped_level_spec. split_and!; [|done..].
    rewrite Hst in Hl, Hcap.
    destruct (granted_row 1 f c) as [(row & Hrow & Hle)|(_ & -> & Hp & Hf)].
    - unfold L1, L3 in *. lia.
    - exists row. split; [done|]. unfold L3 in *. lia.
    - unfold effectiveCap in Hcap. rewrite Hp, Hf in Hcap. simpl in Hcap.
      pose proof (eq_refl : CapFor ClassIndexReplace = L2) as H1.
      destruct (IsSelfInitiated f) eqn:Hself; [|rewrite H1 in Hcap; unfold L2, L3 in Hcap; lia].
      unfold IsSelfInitiated in Hself. apply orb_true_iff in Hself as [Hs|Hs];
        apply eqb_str in Hs; subst f; vm_compute in Hcap; by destruct Hcap. }
  destruct (ls_Level st <? L2) eqn:Hlow.
  { apply within_ret. intros l [= <-] [Hl _]%limit_of_l3.
    apply Z.ltb_lt in Hlow. apply capped_level_spec in Hl as (Hl & _). unfold L2, L3 in *. lia. }
  eapply (within_ebind _ _ (fun level => L3 <= level -> L3 <= capped_level st req f c)).
  - destruct (decays _ _ _); [|by apply within_ret; intros ? [= <-]].
    eapply (within_ebind _ _ (fun _ => True)); [| |done].
    + eapply within_mono; [apply within_supported|done].
    + intros supported _. apply within_ret. intros ? [= <-]. unfold MinLevel; simpl. lia.
  - intros level Hlevel. eapply within_bind; [apply within_downgrades|]. intros downs Hdowns.
    eapply within_bind; [apply within_note|]. intros _ _. apply within_ret.
    intros l [= <-] [Hl Hd]%limit_of_l3. destruct (Hrow (Hlevel Hl)) as (? & ? & ?).
    constructor; auto.
  - done.
Qed.

Lemma within_Limit ctx req :
  Within (Limit dp cfg database b ctx req) (fun r => forall l, r = Ok l -> L3 <= al_Level l ->
    earned_l3 (FamilyForRequest req).1 (FamilyForRequest req).2 req).
Proof.
  unfold Limit. eapply within_bind; [by apply within_Limit_, surjective_pairing|].
  intros [l|e] Hl; apply within_ret; [|done]. intros l' [= <-]. by apply Hl.
Qed.

Lemma within_override ctx req d :
  Within (RecordDeadlineOverride dp ctx req d) (fun _ => True).
Proof.
  unfold RecordDeadlineOverride. destruct (req_Deadline req) as [dl|]; [|by apply within_ret].
  cbv zeta. eapply (within_bind _ _ _ (fun _ => True)).
  { unfold claimOverride. cbv zeta. eapply within_bind; [apply within_now|]. intros t _.
    intros [mem w] Hw. unfold value_at, on_fst. simpl. split; [done|].
    destruct (_ !! _); exact Hw. }
  intros [key fresh] _. destruct fresh; simpl; [|by apply within_ret].
  eapply (within_bind _ _ _ (fun _ => True)).
  { unfold appendOverride. apply within_any;
      [eapply within_mono; [apply within_granted|done]|]. intros st.
    eapply within_bind; [apply within_now|]. intros t _. apply within_quiet, quiet_append. }
  intros [[]|e] _; [by apply within_ret|by apply within_set].
Qed.

(** ** The gate keeps the tables *)

Lemma beside_keeps {X} (f : option (Ctx -> ActionRequest -> M W X)) :
  keeps2 at_ledger (beside f).
Proof.
  intros g ctx req Hg. destruct f as [f|]; [|done]. injection Hg as <-.
  eapply within_keeps, within_on_snd.
Qed.

Lemma earned_gate_keeps (base : GateConfig W) :
  keeps_config at_ledger (ledger_gate base dp cfg database b).
Proof.
  constructor; simpl; try apply beside_keeps.
  - intros m Hm. destruct (gc_WindowObserved base); [|done]. injection Hm as <-.
    eapply within_keeps, within_on_snd.
  - unfold Gate.now. simpl. destruct (gc_Now base); simpl; eapply within_keeps, within_on_snd.
  - intros l ctx req [= <-]. simpl. eapply within_keeps, within_Limit.
  - intros l f ctx req d [= <-] [= <-]. eapply within_keeps, within_override.
  - intros g ctx req Hg. destruct (gc_Serialize base) as [S|]; [|done]. injection Hg as <-.
    eapply within_keeps, (within_bind _ _ _ _ (fun _ => True)); [apply within_on_snd|].
    intros [[ctx' done_]|e] _; by apply within_ret.
Qed.

Lemma ledger_allows_l3 `{GoEnv} (base : GateConfig W) ctx req rt doc c :
  let gate := ledger_gate base dp cfg database b in
  ledger_allows (confined at_ledger gate) ctx req rt doc c ->
  governedByAutonomy gate req = true ->
  (forall t, mandatoryDeadline doc req t = false) ->
  earned_l3 (FamilyForRequest req).1 (FamilyForRequest req).2 req /\
  length (req_TargetObjs req) = 1%nat.
Proof.
  intros gate [Hg|[(t & _ & Ht)|(l & t & Hl & _ & Hlevel & Hblock)]] Hgov Hdl.
  - unfold governedByAutonomy in Hg, Hgov. simpl in Hg, Hgov. congruence.
  - by rewrite Hdl in Ht.
  - split.
    + destruct Hl as (limiter & [= <-] & Hret). apply returns_confine in Hret as (mw & Hin & Hv).
      destruct (within_Limit ctx req mw Hin) as [Hspec _]. apply (Hspec l Hv).
      unfold effectiveAutonomyLevel, autonomyExecuteLevel in Hlevel. unfold L3.
      destruct (al_Downgraded l); lia.
    + unfold l3Blocker in Hblock. destruct (Nat.eqb_spec (length (req_TargetObjs req)) 1); done.
Qed.
End Within.

(** ** Execution needs an earned level *)

Lemma gate_request_same ctx req : exists p,
  gate_request ctx req = set_Principal p (set_ExplainFamily false req).
Proof.
  unfold gate_request, withContextPrincipal. destruct (req_Principal _) as [p|] eqn:E.
  - exists (Some p). destruct req. simpl in *. by subst.
  - destruct (PrincipalRefFromContext ctx) as [p|]; [by exists (Some p)|].
    exists None. destruct req. simpl in *. by subst.
Qed.

(** C7: an unattended change that the ledger governs runs only on an earned
    level: the ledger of its database, as it stood when the gate was asked, holds
    a row at L3 for its family and class, the class remediates the family, its
    contract can be rolled back, it acts on one object, and neither the error
    budget, the HA state nor (for an incident) the family's safety record, the
    age of the evidence or a concurrent action spoke against it.  Only a critical
    deadline passes this. *)
Theorem unattended_needs_earned_level `{GoEnv} {W} (base : GateConfig W) dp cfg database b
    ctx req mem w d :
  let gate := ledger_gate base dp cfg database b in
  value_at (Authorize gate ctx req) (mem, w) = d -> dec_Verdict d = VerdictExecute ->
  IsNarrowing req = false -> req_OperatorApproved req = false ->
  governedByAutonomy gate req = true ->
  (forall dl, req_Deadline req = Some dl -> dl_Urgency dl <> UrgencyCritical) ->
  earned_l3 (lg_Levels (me_Ledger mem)) (lg_Outcomes (me_Ledger mem)) dp cfg b
    (FamilyForRequest req).1 (FamilyForRequest req).2 req /\
  length (req_TargetObjs req) = 1%nat.
Proof.
  intros gate Hv Hx Hn Ho Hgov Hdl.
  set (T := lg_Levels (me_Ledger mem)). set (Os := lg_Outcomes (me_Ledger mem)).
  destruct (Authorize_inside (at_ledger T Os) gate (earned_gate_keeps T Os dp cfg database b base)
              ctx req (mem, w) d (conj eq_refl eq_refl) Hv Hx)
    as (ctx' & rt & c & _ & [Hc _] & Hauth).
  destruct (gate_request_same ctx req) as [p Hp]. rewrite Hp in *.
  destruct Hauth as [Hnarrow|? Ho' _|doc _ _ _ _ _ _ Hled _].
  - unfold IsNarrowing in Hn. simpl in Hc. rewrite Hc in Hn. congruence.
  - simpl in Ho'. congruence.
  - assert (Hmand : forall t, mandatoryDeadline doc (set_Principal p (set_ExplainFamily false req)) t
                              = false).
    { intros t. unfold mandatoryDeadline. simpl. destruct (req_Deadline req) as [dl|]; [|done].
      specialize (Hdl dl eq_refl). apply neqb_str in Hdl. by rewrite Hdl. }
    destruct (ledger_allows_l3 T Os dp cfg database b base ctx' _ rt doc c Hled Hgov Hmand)
      as [[Hrow Happ Hrev [? ? ? ? ?]] Hlen].
    split; [|exact Hlen]. split; [exact Hrow|exact Happ|exact Hrev|split; assumption].
Qed.

(** ** A concrete ledger *)

Definition sample_deps : Deps unit :=
  {| dp_now := ret sample_now; dp_newID := ret "00000000-0000-4000-8000-000000000001";
     dp_fault := ret None; dp_shadow := ret []; dp_bench := ret (fun _ => None);
     dp_gameDays := ret (fun _ => []);
     dp_ramp := ret (Some {| rf_Start := 1; rf_Safe := 0; rf_Moderate := 0 |}) |}.

Definition sample_binding : Binding unit :=
  {| bd_Database := "app"; bd_Budget := None;
     bd_HA := Some (ret (Ok {| ha_Role := RolePrimary; ha_SafeMode := false;
                               ha_LastRoleChange := 0 |}));
     bd_Concurrency := None |}.

Definition empty_ledger : Ledger :=
  {| lg_Levels := ∅; lg_Legacy := []; lg_Proposals := []; lg_Events := []; lg_Outcomes := [];
     lg_Reviews := ∅; lg_Grandfathered := None |}.

Definition mem_of (t : Ledger) : Mem :=
  {| me_Ledger := t; me_Cache := ∅; me_Last := ∅; me_Overrides := ∅ |}.

Definition l3_state : State :=
  seeded_state FamilyTuning ClassIndexCreate L3 "grandfathered from the time ramp" 1
    ProvenanceGrandfathered "tier3_safe".

Definition l3_ledger : Ledger :=
  set_Levels {[ (FamilyTuning, ClassIndexCreate) := l3_state ]} empty_ledger.

Lemma unattended_needs_earned_level_witness :
  let gate := ledger_gate (sample_gate autonomous sample_document) sample_deps DefaultConfig
                "app" sample_binding in
  dec_Verdict (value_at (Authorize gate sample_ctx index_request) (mem_of l3_ledger, tt))
    = VerdictExecute /\
  dec_Verdict (value_at (Authorize gate sample_ctx index_request) (mem_of empty_ledger, tt))
    = VerdictObserveOnly /\
  earned_l3 (lg_Levels l3_ledger) [] sample_deps DefaultConfig sample_binding FamilyTuning
    ClassIndexCreate index_request.
Proof.
  intros gate.
  assert (Hx : dec_Verdict (value_at (Authorize gate sample_ctx index_request)
                 (mem_of l3_ledger, tt)) = VerdictExecute) by by vm_compute.
  split_and!; [exact Hx|by vm_compute|].
  refine (proj1 (unattended_needs_earned_level (sample_gate autonomous sample_document)
    sample_deps DefaultConfig "app" sample_binding sample_ctx index_request (mem_of l3_ledger) tt
    _ eq_refl Hx _ _ _ _)); [by vm_compute..|done].
Defined.
