(* ===== verification/EarnedHistory.v ===== *)
(** * Earned autonomy: how levels come about

    The transactions of EarnedLedger.v in any order and interleaving, as a step
    relation on the tables, and what holds of every ledger they reach: its rows
    and proposals are well typed, its history replays to its levels, and a level
    rises only by a person's approval or a first seed. *)

From S2P Require Import Prelude.
From S2P Require Import GoStd.
From S2P Require Import PolicyTypes.
From S2P Require Import Earned.
From S2P Require Import EarnedEvidence.
From S2P Require Import EarnedLedger.

(** ** Inverting transactions *)

Lemma tx_bind_inl {A B} (m : Tx A) (k : A -> Tx B) t b t' :
  tx_bind m k t = inl (b, t') <-> exists a t1, m t = inl (a, t1) /\ k a t1 = inl (b, t').
Proof.
  unfold tx_bind. destruct (m t) as [[a t1]|e]; split.
  - intros Hk. eauto.
  - intros (a' & t1' & [= <- <-] & Hk). exact Hk.
  - done.
  - by intros (? & ? & ? & _).
Qed.

Lemma readLevel_inl f c t row t' :
  readLevel f c t = inl (row, t') -> row = lg_Levels t !! (f, c) /\ t' = t.
Proof. by intros [= <- <-]. Qed.

Definition log (e : Event) (t : Ledger) : Ledger := set_Events (lg_Events t ++ [e]) t.

Lemma appendEvent_inl e t a t' : appendEvent e t = inl (a, t') -> t' = log e t.
Proof. by intros [= _ <-]. Qed.

(** Splits a successful transaction into its statements. *)
Ltac tx_inv H :=
  lazymatch type of H with
  | tx_bind _ _ _ = inl (_, _) =>
      let a := fresh "a" in let t1 := fresh "t" in let H1 := fresh "H" in
      apply tx_bind_inl in H as (a & t1 & H1 & H); tx_inv H1; tx_inv H
  | tx_ret _ _ = inl (_, _) => injection H as ? ?; subst
  | tx_fail _ _ = inl (_, _) => discriminate H
  | tx_get _ = inl (_, _) => injection H as ? ?; subst
  | tx_modify _ _ = inl (_, _) => injection H as ? ?; subst
  | readLevel _ _ _ = inl (_, _) => apply readLevel_inl in H as [-> ->]
  | appendEvent _ _ = inl (_, _) => apply appendEvent_inl in H as ->
  | _ => idtac
  end.

(** [P] survives a transaction that succeeds. *)
Definition tx_keeps (P : Ledger -> Prop) {A} (m : Tx A) : Prop :=
  forall t a t', m t = inl (a, t') -> P t -> P t'.

Lemma tx_keeps_collect {A B} P (f : A -> Tx (option B)) l :
  (forall a, a ∈ l -> tx_keeps P (f a)) -> tx_keeps P (tx_collect f l).
Proof.
  induction l as [|a l IH]; intros Hf t bs t' Htx HP; cbn [tx_collect] in Htx; tx_inv Htx; [done|].
  match goal with H : f a _ = _ |- _ => apply (Hf a ltac:(by apply elem_of_cons; left)) in H end.
  match goal with H : tx_collect f l _ = _ |- _ => apply IH in H end; auto.
  intros a' Ha'. apply Hf. by apply elem_of_cons; right.
Qed.

Definition put (st : State) (t : Ledger) : Ledger :=
  set_Levels (<[(ls_Family st, ls_Class st) := st]> (lg_Levels t)) t.

Lemma writeLevel_inl ch t st t' :
  writeLevel ch t = inl (st, t') -> t' = put st t /\
  exists v, st = changed_state ch v /\
    match lg_Levels t !! (lc_Family ch, lc_Class ch) with
    | None => lc_ExpectVersion ch = 0 /\ v = 1
    | Some old => ls_Version old = lc_ExpectVersion ch /\ v = ls_Version old + 1
    end.
Proof.
  unfold writeLevel. intros H. tx_inv H.
  destruct (lg_Levels t !! _) as [old|].
  - destruct (_ && _) eqn:E; [|done]. unfold put_level in H. tx_inv H.
    apply andb_true_iff in E as [_ E%Z.eqb_eq]. split; [done|]. eauto.
  - destruct (Z.eqb_spec (lc_ExpectVersion ch) 0); [|done]. unfold put_level in H. tx_inv H. eauto 10.
Qed.

Lemma insert_level_inl st t r t' :
  insert_level st t = inl (r, t') ->
  (r = None /\ t' = t) \/
  (r = Some st /\ lg_Levels t !! (ls_Family st, ls_Class st) = None /\ t' = put st t).
Proof.
  unfold insert_level. intros H. tx_inv H.
  destruct (lg_Levels t !! _) as [old|] eqn:E.
  - tx_inv H. by left.
  - unfold put_level in H. tx_inv H. by right.
Qed.

(** The table after an UPDATE of proposals. *)
Definition written (hit : Proposal -> bool) (write : Proposal -> Proposal) (t : Ledger) : Ledger :=
  set_Proposals (map (fun p => if hit p then write p else p) (lg_Proposals t)) t.

Lemma update_proposals_inl hit write t rows t' :
  update_proposals hit write t = inl (rows, t') ->
  t' = written hit write t /\ rows = map write (List.filter hit (lg_Proposals t)).
Proof. unfold update_proposals. intros H. by tx_inv H. Qed.

(** ** Rows *)

Definition provenances : list string :=
  [ProvenanceLedger; ProvenanceCarriedOver; ProvenanceGrandfathered].

Record row_ok (k : string * string) (st : State) : Prop := {
  ro_key : (ls_Family st, ls_Class st) = k;
  ro_level : Grantable (ls_Level st) = true;
  ro_version : 0 < ls_Version st;
  ro_stored : ls_Stored st = true;
  ro_provenance : ls_Provenance st ∈ provenances;
}.

Definition rows_ok (t : Ledger) : Prop := map_Forall row_ok (lg_Levels t).

(** The deployment-wide rows a database adopts passed the same constraint. *)
Definition legacy_ok (t : Ledger) : Prop :=
  Forall (fun st => Grantable (ls_Level st) = true) (lg_Legacy t).

Lemma put_rows t st : rows_ok t -> row_ok (ls_Family st, ls_Class st) st -> rows_ok (put st t).
Proof. intros Ht Hst. by apply map_Forall_insert_2. Qed.

(** ** Proposals *)

Definition pair_of (p : Proposal) : string * string := (pr_Family p, pr_Class p).

Record proposal_ok (p : Proposal) : Prop := {
  po_step : pr_To p = pr_From p + 1;
  po_grantable : Grantable (pr_To p) = true;
  po_cap : pr_To p <= CapForPair (pr_Family p) (pr_Class p);
  po_decided : pr_Status p = StatusPending <-> pr_DecidedAt p = None;
}.

Record proposals_ok (t : Ledger) : Prop := {
  ps_each : Forall proposal_ok (lg_Proposals t);
  ps_ids : NoDup (map pr_ID (lg_Proposals t));
  ps_pending : NoDup (map pair_of (List.filter pending (lg_Proposals t)));
}.

Lemma pr_decided_ok status actor note at_ p :
  status <> StatusPending -> proposal_ok p -> proposal_ok (pr_decided status actor note at_ p).
Proof. intros Hs [? ? ? ?]. by split. Qed.

Lemma pending_false p : pending p = false <-> pr_Status p <> StatusPending.
Proof. apply neqb_str. Qed.

(** What closing proposals does: the ones hit are decided, the others stay. *)
Definition closing (write : Proposal -> Proposal) : Prop := forall p,
  pending (write p) = false /\ pr_ID (write p) = pr_ID p /\ (proposal_ok p -> proposal_ok (write p)).

Lemma pr_decided_closing status actor note at_ :
  status <> StatusPending -> closing (pr_decided status actor note at_).
Proof. intros Hs p. split_and!; [by apply pending_false|done|by apply pr_decided_ok]. Qed.

Lemma pending_written (hit : Proposal -> bool) write (l : list Proposal) : closing write ->
  List.filter pending (map (fun p => if hit p then write p else p) l) `sublist_of`
  List.filter pending l.
Proof.
  intros Hw. induction l as [|p l IH]; simpl; [done|]. destruct (hit p).
  - destruct (Hw p) as (-> & _). destruct (pending p); [by constructor|done].
  - destruct (pending p); [by constructor|done].
Qed.

Lemma written_ok hit write t : closing write -> proposals_ok t -> proposals_ok (written hit write t).
Proof.
  intros Hw [He Hi Hp]. split; simpl.
  - apply Forall_fmap. eapply Forall_impl; [exact He|]. intros p Hok. simpl.
    destruct (hit p); [by apply Hw|done].
  - replace (map pr_ID _) with (map pr_ID (lg_Proposals t)); [done|]. rewrite List.map_map.
    apply List.map_ext. intros p. destruct (hit p); [|done]. symmetry. apply Hw.
  - eapply sublist_NoDup; [exact Hp|]. by apply (fmap_sublist pair_of), pending_written.
Qed.

Lemma insertProposal_inl p t b t' :
  insertProposal p t = inl (b, t') ->
  (b = false /\ t' = t) \/
  (b = true /\ t' = set_Proposals (lg_Proposals t ++ [p]) t /\
   Forall (fun q => pr_ID q <> pr_ID p /\ (pending q = true -> pair_of q <> pair_of p))
     (lg_Proposals t)).
Proof.
  unfold insertProposal. intros H. tx_inv H. destruct (existsb _ _) eqn:E; tx_inv H; [by left|].
  right. split_and!; [done..|]. apply Forall_forall. intros q Hq.
  assert (Hf : (pr_ID q =s pr_ID p) || ((pr_Status q =s StatusPending) &&
    (pr_Family q =s pr_Family p) && (pr_Class q =s pr_Class p)) = false).
  { apply not_true_is_false. intros Ht. rewrite <- not_true_iff_false in E. apply E.
    apply List.existsb_exists. exists q. by rewrite <- list_elem_of_In. }
  apply orb_false_iff in Hf as [H1 H2]. apply neqb_str in H1. split; [done|].
  unfold pending, pair_of. intros Hp [= Hf Hc]. rewrite Hp, Hf, Hc, !eqb_str_refl in H2. done.
Qed.

Lemma insertProposal_ok p t b t' :
  proposal_ok p -> pending p = true -> insertProposal p t = inl (b, t') ->
  proposals_ok t -> proposals_ok t'.
Proof.
  intros Hp Hpend [[_ ->]|(_ & -> & Hnew)]%insertProposal_inl; [done|]. intros [He Hi Hn].
  rewrite Forall_forall in Hnew. split; simpl.
  - apply Forall_app. split; [done|by constructor].
  - rewrite map_app. apply NoDup_app. split_and!; [done| |by apply NoDup_singleton].
    intros id (q & -> & Hq)%list_elem_of_fmap Hin. apply list_elem_of_singleton in Hin.
    by destruct (Hnew q Hq).
  - rewrite List.filter_app. simpl. rewrite Hpend, map_app. apply NoDup_app.
    split_and!; [done| |by apply NoDup_singleton].
    intros k (q & -> & Hq)%list_elem_of_fmap Hin. apply list_elem_of_singleton in Hin.
    apply list_elem_of_In, List.filter_In in Hq as [Hq Hqp]. apply list_elem_of_In in Hq.
    destruct (Hnew q Hq) as [_ Hne]. by apply Hne.
Qed.

(** ** History *)

Definition level_types : list string :=
  [EventPromotionApproved; EventDowngraded; EventAutoDowngraded; EventCarriedOver;
   EventGrandfathered; EventDatabaseScoped].
Definition seed_types : list string :=
  [EventCarriedOver; EventGrandfathered; EventDatabaseScoped].

(** A level change of the pair. *)
Definition change_of (f : Family) (c : ActionClass) (e : Event) : bool :=
  (e_Family e =s f) && (e_Class e =s c) && str_in (e_Type e) level_types.

Lemma change_of_intro e f c :
  e_Family e = f -> e_Class e = c -> e_Type e ∈ level_types -> change_of f c e = true.
Proof.
  intros <- <- Hty. unfold change_of. rewrite !eqb_str_refl. by apply str_in_spec.
Qed.

Lemma seed_types_level type : type ∈ seed_types -> type ∈ level_types.
Proof. unfold seed_types, level_types. rewrite !elem_of_cons. tauto. Qed.
Lemma downgrade_types_level type :
  type ∈ [EventDowngraded; EventAutoDowngraded] -> type ∈ level_types.
Proof. unfold level_types. rewrite !elem_of_cons, !elem_of_nil. tauto. Qed.

(** One change: it must start at the level reached so far. *)
Definition replay_step (l : option Level) (e : Event) : option Level :=
  if bool_decide (is_Some l /\ e_From e = l) then e_To e else None.

Definition replay (events : list Event) (f : Family) (c : ActionClass) : option Level :=
  foldl replay_step (Some (defaultLevel f)) (List.filter (change_of f c) events).

Definition level_of (t : Ledger) (f : Family) (c : ActionClass) : Level :=
  match lg_Levels t !! (f, c) with Some st => ls_Level st | None => defaultLevel f end.

Record history_ok (t : Ledger) : Prop := {
  hi_replay : forall f c, replay (lg_Events t) f c = Some (level_of t f c);
  hi_fresh : forall f c, lg_Levels t !! (f, c) = None ->
    List.filter (change_of f c) (lg_Events t) = [];
}.

(** The event of a level that went up. *)
Definition rises (e : Event) : Prop :=
  exists from to, e_From e = Some from /\ e_To e = Some to /\ from < to.

(** A person approved the proposal the event names. *)
Definition approved_by_person (t : Ledger) (e : Event) : Prop :=
  e_Type e = EventPromotionApproved /\ humanActor (e_Actor e) = true /\
  exists p, p ∈ lg_Proposals t /\ pr_ID p = e_ProposalID e /\
    pair_of p = (e_Family e, e_Class e) /\ e_From e = Some (pr_From p) /\
    e_To e = Some (pr_To p) /\ pr_Status p = StatusApproved /\ pr_DecidedBy p = e_Actor e.

Definition raises_ok (t : Ledger) : Prop := forall pre e post,
  lg_Events t = pre ++ e :: post -> str_in (e_Type e) level_types = true -> rises e ->
  approved_by_person t e \/
  e_Type e ∈ seed_types /\ List.filter (change_of (e_Family e) (e_Class e)) pre = [].

Record ledger_ok (t : Ledger) : Prop := {
  ok_rows : rows_ok t;
  ok_legacy : legacy_ok t;
  ok_proposals : proposals_ok t;
  ok_history : history_ok t;
  ok_raises : raises_ok t;
}.

(** Approved proposals are never written again. *)
Definition keeps_approved (t t' : Ledger) : Prop := forall p,
  p ∈ lg_Proposals t -> pr_Status p = StatusApproved -> p ∈ lg_Proposals t'.

Lemma approved_mono t t' e :
  keeps_approved t t' -> approved_by_person t e -> approved_by_person t' e.
Proof. intros Hk (? & ? & p & Hp & ? & ? & ? & ? & ? & ?). split_and!; [done..|]. exists p. eauto 10. Qed.

Lemma written_approved hit write t :
  (forall p, hit p = true -> pending p = true) -> keeps_approved t (written hit write t).
Proof.
  intros Hh p Hp Hs. simpl. apply list_elem_of_fmap. exists p. split; [|done].
  destruct (hit p) eqn:E; [|done]. specialize (Hh p E). unfold pending in Hh.
  apply eqb_str in Hh. rewrite Hs in Hh. done.
Qed.

(** ** Steps that change no level *)

Lemma keep_levels t t' :
  lg_Levels t' = lg_Levels t -> lg_Legacy t' = lg_Legacy t -> lg_Events t' = lg_Events t ->
  proposals_ok t' -> keeps_approved t t' -> ledger_ok t -> ledger_ok t'.
Proof.
  intros HL Hg HE Hp Hk [Hr Hleg _ [Hrep Hfr] Hra]. split; [|unfold legacy_ok; by rewrite Hg|done| |].
  - unfold rows_ok. by rewrite HL.
  - split; intros f c; [unfold level_of; rewrite HE, HL; apply Hrep|rewrite HL, HE; apply Hfr].
  - intros pre e post. rewrite HE. intros Hsp Hty Hri.
    destruct (Hra pre e post Hsp Hty Hri) as [?|?]; [left; by eapply approved_mono|by right].
Qed.

Lemma split_last {A} (l : list A) x pre e post :
  l ++ [x] = pre ++ e :: post ->
  (pre = l /\ e = x /\ post = []) \/ exists post', l = pre ++ e :: post'.
Proof.
  revert l. induction pre as [|y pre IH]; intros [|z l] H; simpl in *.
  - injection H as -> <-. by left.
  - injection H as -> H. right. eauto.
  - injection H as -> H. by destruct pre.
  - injection H as -> H. destruct (IH l H) as [(-> & -> & ->)|(post' & ->)]; [by left|right; eauto].
Qed.

Lemma log_note t e : str_in (e_Type e) level_types = false -> ledger_ok t -> ledger_ok (log e t).
Proof.
  intros He [Hr Hleg Hp [Hrep Hfr] Hra]. split; [exact Hr|exact Hleg|by destruct Hp| |].
  - assert (Hf : forall f c, List.filter (change_of f c) (lg_Events t ++ [e]) =
                 List.filter (change_of f c) (lg_Events t)).
    { intros f c. rewrite List.filter_app. simpl. unfold change_of at 2. rewrite He, andb_false_r.
      apply app_nil_r. }
    split; intros f c; simpl; rewrite ?Hf; [|apply Hfr]. unfold replay. rewrite Hf. apply Hrep.
  - intros pre e' post Hsp Hty Hri. apply split_last in Hsp as [(-> & -> & _)|(post' & Hsp)].
    + by rewrite He in Hty.
    + by apply (Hra pre e' post').
Qed.

(** ** A level change and its event *)

Lemma change_ok t ps st e :
  let t' := log e (set_Proposals ps (put st t)) in
  ledger_ok t -> row_ok (ls_Family st, ls_Class st) st ->
  proposals_ok (set_Proposals ps t) -> keeps_approved t (set_Proposals ps t) ->
  change_of (ls_Family st) (ls_Class st) e = true ->
  e_From e = Some (level_of t (ls_Family st) (ls_Class st)) -> e_To e = Some (ls_Level st) ->
  (rises e -> approved_by_person t' e \/
     e_Type e ∈ seed_types /\ lg_Levels t !! (ls_Family st, ls_Class st) = None) ->
  ledger_ok t'.
Proof.
  intros t' [Hr Hleg _ [Hrep Hfr] Hra] Hrow Hps Hk Hch Hfrom Hto Hrise.
  assert (Hfilter : forall f c, List.filter (change_of f c) (lg_Events t') =
    List.filter (change_of f c) (lg_Events t) ++ if change_of f c e then [e] else []).
  { intros f c. subst t'. simpl. rewrite List.filter_app. simpl. by destruct (change_of f c e). }
  assert (Hsame : forall f c, change_of f c e = true -> f = ls_Family st /\ c = ls_Class st).
  { intros f c H. unfold change_of in H, Hch. rewrite !andb_true_iff, !eqb_str in H, Hch.
    destruct H as [[<- <-] _], Hch as [[-> ->] _]. done. }
  split; [by apply put_rows|done|by destruct Hps| |].
  - split; intros f c.
    + unfold replay. rewrite Hfilter, foldl_app. fold (replay (lg_Events t) f c).
      rewrite Hrep. unfold level_of. subst t'. simpl.
      destruct (decide ((ls_Family st, ls_Class st) = (f, c))) as [[= <- <-]|Hne].
      * rewrite lookup_insert_eq, Hch. simpl. unfold replay_step. rewrite bool_decide_true; [done|].
        split; [done|]. exact Hfrom.
      * rewrite lookup_insert_ne by done. destruct (change_of f c e) eqn:E; [|done].
        by destruct (Hsame f c E) as [-> ->].
    + subst t'. simpl. destruct (decide ((ls_Family st, ls_Class st) = (f, c))) as [[= <- <-]|Hne].
      * by rewrite lookup_insert_eq.
      * rewrite lookup_insert_ne by done. intros Hnone. rewrite Hfilter, (Hfr f c Hnone).
        destruct (change_of f c e) eqn:E; [|done]. by destruct (Hsame f c E) as [-> ->].
  - intros pre e' post Hsp Hty Hri. apply split_last in Hsp as [(-> & -> & _)|(post' & Hsp)].
    + destruct (Hrise Hri) as [Ha|[Hseed Hnone]]; [by left|right]. split; [done|].
      unfold change_of in Hch. rewrite !andb_true_iff, !eqb_str in Hch.
      destruct Hch as [[-> ->] _]. by apply Hfr.
    + destruct (Hra pre e' post' Hsp Hty Hri) as [Ha|?]; [left|by right].
      by eapply approved_mono; [|exact Ha].
Qed.

(** ** The transactions *)

Lemma Grantable_range l : Grantable l = true <-> 0 <= l <= 3.
Proof. unfold Grantable, L0, MaxGrantable, L3. rewrite andb_true_iff, !Z.leb_le. done. Qed.

Lemma same_proposals t : proposals_ok t -> proposals_ok (set_Proposals (lg_Proposals t) t).
Proof. by intros [? ? ?]. Qed.

(** A row inserted with the entry of its seed. *)
Lemma seed_ok t st type actor reason at_ :
  ledger_ok t -> row_ok (ls_Family st, ls_Class st) st ->
  lg_Levels t !! (ls_Family st, ls_Class st) = None -> type ∈ seed_types ->
  ledger_ok (log (event (ls_Family st) (ls_Class st) type (defaultLevel (ls_Family st))
                    (ls_Level st) actor reason "" at_) (put st t)).
Proof.
  intros Ht Hst Hnone Htype.
  apply (change_ok t (lg_Proposals t) st); [done|done|by apply same_proposals, Ht|by intros p| | |done|].
  - by apply change_of_intro, seed_types_level.
  - unfold level_of. by rewrite Hnone.
  - intros _. by right.
Qed.

Lemma seedCarried_keeps co level at_ :
  Grantable level = true -> tx_keeps ledger_ok (seedCarried co level at_).
Proof.
  intros Hl t a t' H Ht. unfold seedCarried in H. tx_inv H.
  match goal with H : insert_level _ _ = _ |- _ =>
    apply insert_level_inl in H as [[-> ->]|(-> & Hnone & ->)] end; tx_inv H; [done|].
  apply (seed_ok t); [done| |done|unfold seed_types; rewrite !elem_of_cons; tauto].
  split; [done|done|done|done|]. unfold provenances. rewrite !elem_of_cons. simpl. tauto.
Qed.

Lemma seedGrandfathered_keeps f c level why at_ :
  Grantable level = true -> tx_keeps ledger_ok (seedGrandfathered f c level why at_).
Proof.
  intros Hl t a t' H Ht. unfold seedGrandfathered in H. tx_inv H.
  match goal with H : insert_level _ _ = _ |- _ =>
    apply insert_level_inl in H as [[-> ->]|(-> & Hnone & ->)] end; tx_inv H; [done|].
  apply (seed_ok t); [done| |done|unfold seed_types; rewrite !elem_of_cons; tauto].
  split; [done|done|done|done|]. unfold provenances. rewrite !elem_of_cons. simpl. tauto.
Qed.

Lemma grandfatherTx_keeps bound now : tx_keeps ledger_ok (grandfatherTx bound now).
Proof.
  intros t a t' H Ht. unfold grandfatherTx in H. tx_inv H.
  destruct (lg_Grandfathered _); tx_inv H; [done|].
  match goal with H : tx_collect _ _ _ = _ |- _ => rename H into Hseed end.
  assert (Hk : tx_keeps ledger_ok (tx_collect (seedOne bound now) selfClasses)).
  { apply tx_keeps_collect. intros sc _. unfold seedOne. destruct (ComponentClasses _).
    - pose proof (GrandfatheredLevel_range bound now (sc_class sc)) as Hr.
      destruct (GrandfatheredLevel bound now (sc_class sc)) as [level why]. simpl in Hr.
      destruct (level <=? _); [by intros ? ? ? [= _ <-]|].
      apply seedGrandfathered_keeps, Grantable_range. unfold L1, L3 in Hr. lia.
    - by intros ? ? ? [= _ <-]. }
  specialize (Hk _ _ _ Hseed Ht) as Hok. apply (keep_levels t); try done; [|by intros p].
  by destruct (ok_proposals t Hok).
Qed.

Lemma adoptLegacyTx_keeps at_ : tx_keeps ledger_ok (adoptLegacyTx at_).
Proof.
  intros t a t' H Ht. unfold adoptLegacyTx in H. tx_inv H.
  match type of H with tx_collect _ _ ?x = _ => rename x into t0 end.
  pose proof (ok_legacy t0 Ht) as Hleg. unfold legacy_ok in Hleg. rewrite Forall_forall in Hleg.
  revert H Ht. apply tx_keeps_collect. intros st Hin t b t1 H Ht.
  apply list_elem_of_In, List.filter_In in Hin as [Hin _]. apply list_elem_of_In in Hin.
  unfold adoptOne in H. tx_inv H.
  match goal with H : insert_level _ _ = _ |- _ =>
    apply insert_level_inl in H as [[-> ->]|(-> & Hnone & ->)] end; tx_inv H; [done|].
  apply (seed_ok t (adopted_row at_ st)); [done| |done|unfold seed_types; rewrite !elem_of_cons; tauto].
  split; [done|exact (Hleg st Hin)|done|done|]. unfold provenances. rewrite !elem_of_cons. tauto.
Qed.

(** The row a change writes, and the level it starts from. *)
Lemma changed_row t ch st t' :
  rows_ok t -> writeLevel ch t = inl (st, t') -> Grantable (lc_To ch) = true ->
  t' = put st t /\ row_ok (lc_Family ch, lc_Class ch) st /\ ls_Level st = lc_To ch /\
  ls_Family st = lc_Family ch /\ ls_Class st = lc_Class ch.
Proof.
  intros Hrows Hw Hl. apply writeLevel_inl in Hw as (-> & v & -> & Hv). split_and!; try done.
  split; try done; simpl.
  - destruct (lg_Levels t !! _) as [old|] eqn:E; [|by destruct Hv as [_ ->]].
    destruct Hv as [_ ->]. pose proof (ro_version _ _ (Hrows _ _ E)). lia.
  - unfold provenances. rewrite !elem_of_cons. tauto.
Qed.

(** A downgrade: the new row, the pair's pending proposals closed, the entry. *)
Lemma downgrade_ok t st hit write e :
  ledger_ok t -> row_ok (ls_Family st, ls_Class st) st -> closing write ->
  (forall p, hit p = true -> pending p = true) ->
  e_Family e = ls_Family st -> e_Class e = ls_Class st ->
  e_Type e ∈ [EventDowngraded; EventAutoDowngraded] ->
  e_From e = Some (level_of t (ls_Family st) (ls_Class st)) -> e_To e = Some (ls_Level st) ->
  ls_Level st < level_of t (ls_Family st) (ls_Class st) ->
  ledger_ok (log e (written hit write (put st t))).
Proof.
  intros Ht Hst Hw Hh Hf Hc Hty Hfrom Hto Hlt.
  apply (change_ok t (map (fun p => if hit p then write p else p) (lg_Proposals t)) st);
    [done|done|by apply written_ok, Ht|by apply (written_approved hit write t)| |done|done|].
  - by apply change_of_intro, downgrade_types_level.
  - intros (from & to & H1 & H2 & Hr). rewrite Hfrom in H1. rewrite Hto in H2. simplify_eq. lia.
Qed.

Lemma lowerOne_keeps f c to actor reason kind now :
  Grantable to = true -> kind ∈ [EventDowngraded; EventAutoDowngraded] ->
  tx_keeps ledger_ok (lowerOne f c to actor reason kind now).
Proof.
  intros Hto Hkind t a t' H Ht. unfold lowerOne in H. tx_inv H.
 
  destruct (_ || _) eqn:E; tx_inv H; [done|]. apply orb_false_iff in E as [Hlt%Z.leb_gt _].
  match goal with H : writeLevel _ _ = _ |- _ =>
    apply changed_row in H as (-> & Hrow & Hlev & Hf & Hc); [|by apply Ht|done] end.
  match goal with H : closePending _ _ _ _ _ _ _ = _ |- _ =>
    apply update_proposals_inl in H as [-> _] end.
  simpl in *. subst f c. rewrite <- Hlev.
  apply downgrade_ok; try done; unfold level_of; rewrite ?Hlev; try done.
  - by apply pr_decided_closing.
  - intros p Hp. rewrite !andb_true_iff in Hp. tauto.
Qed.

Lemma lowerTx_keeps f classes to actor reason kind now :
  Grantable to = true -> kind ∈ [EventDowngraded; EventAutoDowngraded] ->
  tx_keeps ledger_ok (lowerTx f classes to actor reason kind now).
Proof. intros. apply tx_keeps_collect. intros c _. by apply lowerOne_keeps. Qed.

Lemma demoteOnce_keeps database o cause now :
  tx_keeps ledger_ok (demoteOnce database o cause now).
Proof.
  intros t a t' H Ht. unfold demoteOnce in H. tx_inv H.
 
  destruct (lg_Levels t !! _) as [st|] eqn:Est; [|by tx_inv H].
  destruct (_ =s _); [by tx_inv H|].
  match type of H with (if ?x then _ else _) _ = _ => destruct x end; [by tx_inv H|].
  destruct (Z.leb_spec (ls_Level st) (DemotionTarget (ls_Level st))) as [Hle|Hlt]; [by tx_inv H|].
  cbv zeta in H. unfold writeDemotion in H. tx_inv H.
  assert (Hg : 0 <= ls_Level st <= 3) by (by apply Grantable_range, (ok_rows t Ht _ _ Est)).
  match goal with H : writeLevel _ _ = _ |- _ =>
    apply changed_row in H as (-> & Hrow & Hlev & Hf & Hc); [|by apply Ht|] end.
  2: { simpl. apply Grantable_range. unfold DemotionTarget, L1 in *.
       destruct (Z.leb_spec (ls_Level st) 1); lia. }
  match goal with H : closePending _ _ _ _ _ _ _ = _ |- _ =>
    apply update_proposals_inl in H as [-> _] end.
  simpl in *. apply downgrade_ok; simpl; try done.
  - by rewrite Hf, Hc.
  - by apply pr_decided_closing.
  - intros p Hp. rewrite !andb_true_iff in Hp. tauto.
  - rewrite !elem_of_cons. tauto.
  - unfold level_of. by rewrite Hf, Hc, Est.
  - by rewrite Hlev.
  - unfold level_of. by rewrite Hf, Hc, Est, Hlev.
Qed.

(** ** Deciding, proposing, noting *)

Definition same_terms (p q : Proposal) : Prop :=
  pr_ID p = pr_ID q /\ pair_of p = pair_of q /\ pr_From p = pr_From q /\ pr_To p = pr_To q.

(** What was read of a proposal before a transaction is still its terms. *)
Definition read_before (p : Proposal) (t : Ledger) : Prop :=
  forall q, find_proposal (pr_ID p) t = Some q -> same_terms p q.

Lemma readProposal_inl id t p t' :
  readProposal id t = inl (p, t') -> find_proposal id t = Some p /\ t' = t.
Proof.
  unfold readProposal. intros H. destruct (is_uuid id); simpl in H; [|by tx_inv H]. tx_inv H.
  destruct (find_proposal id _) eqn:E; tx_inv H. done.
Qed.

Lemma find_proposal_in id t p : find_proposal id t = Some p -> p ∈ lg_Proposals t /\ pr_ID p = id.
Proof. intros [H1 H2%eqb_str]%List.find_some. split; [by apply list_elem_of_In|done]. Qed.

Lemma decideProposal_inl id status actor note at_ t a t' :
  decideProposal id status actor note at_ t = inl (a, t') ->
  t' = written (fun p => (pr_ID p =s id) && pending p) (pr_decided status actor note at_) t.
Proof.
  unfold decideProposal. intros H. tx_inv H. match goal with H : update_proposals _ _ _ = _ |- _ =>
    apply update_proposals_inl in H as [-> _] end.
  destruct a0 as [|? [|? ?]]; tx_inv H. done.
Qed.

Lemma decide_hits_pending id p : (pr_ID p =s id) && pending p = true -> pending p = true.
Proof. by intros [_ ?]%andb_true_iff. Qed.

Lemma applyApproval_keeps p approver note now t st t' :
  humanActor approver = true -> read_before p t ->
  applyApproval p approver note now t = inl (st, t') -> ledger_ok t -> ledger_ok t'.
Proof.
  intros Hh Hread H Ht. unfold applyApproval in H. tx_inv H.
  match goal with H : readProposal _ _ = _ |- _ => apply readProposal_inl in H as [Hfind ->] end.
  rename a into locked. destruct (Hread locked Hfind) as (Hid & Hpair & Hfrom & Hto).
  apply find_proposal_in in Hfind as [Hin _].
  destruct (String.eqb_spec (pr_Status locked) StatusPending) as [Hst|]; simpl in H; tx_inv H.
  destruct (Z.eqb_spec (match lg_Levels t !! (pr_Family p, pr_Class p) with
    | Some st => ls_Level st | None => defaultLevel (pr_Family p) end) (pr_From p)) as [Hlev|];
    simpl in H; tx_inv H.
  match goal with H : decideProposal _ _ _ _ _ _ = _ |- _ => apply decideProposal_inl in H as -> end.
  pose proof (ok_proposals t Ht) as Hps.
  pose proof (ps_each t Hps) as Hok. rewrite Forall_forall in Hok. specialize (Hok locked Hin).
  match goal with H : writeLevel _ _ = _ |- _ =>
    apply changed_row in H as (-> & Hrow & Hl & Hf & Hc); [|by apply Ht|] end.
  2: { simpl. rewrite Hto. apply Hok. }
  simpl in *. injection Hpair as Hpf Hpc.
  apply (change_ok t (map _ (lg_Proposals t))); [done|by rewrite Hf, Hc|..].
  - by apply written_ok, Ht; apply pr_decided_closing.
  - apply written_approved. intros q. apply decide_hits_pending.
  - apply change_of_intro; [done|done|]. unfold level_types. simpl. rewrite !elem_of_cons. tauto.
  - simpl. unfold level_of. by rewrite Hf, Hc, Hlev.
  - simpl. by rewrite Hl.
  - intros _. left. split; [done|split; [done|]].
    exists (pr_decided StatusApproved approver note now locked). split_and!; simpl;
      rewrite ?Hid, ?Hpf, ?Hpc, ?Hfrom, ?Hto; try done.
    apply list_elem_of_fmap. exists locked. split; [|done].
    unfold pending. by rewrite Hst, !eqb_str_refl.
Qed.

Lemma rejectTx_keeps p actor note now : tx_keeps ledger_ok (rejectTx p actor note now).
Proof.
  intros t a t' H Ht. unfold rejectTx in H. tx_inv H.
  match goal with H : decideProposal _ _ _ _ _ _ = _ |- _ => apply decideProposal_inl in H as -> end.
  apply log_note; [done|]. apply (keep_levels t); try done.
  - by apply written_ok, Ht; apply pr_decided_closing.
  - apply written_approved. intros q. apply decide_hits_pending.
Qed.

Lemma expireDue_keeps at_ : tx_keeps ledger_ok (expireDue at_).
Proof.
  intros t a t' [-> _]%update_proposals_inl Ht. apply (keep_levels t); try done.
  - by apply written_ok, Ht; apply pr_decided_closing.
  - apply written_approved. by intros q [? _]%andb_true_iff.
Qed.

Lemma insertProposal_keeps p :
  proposal_ok p -> pending p = true -> tx_keeps ledger_ok (insertProposal p).
Proof.
  intros Hp Hpend t b t' H Ht. pose proof (insertProposal_ok p t b t' Hp Hpend H) as Hps.
  apply insertProposal_inl in H as [[_ ->]|(_ & -> & _)]; [done|].
  apply (keep_levels t); try done; [by apply Hps, Ht|].
  intros q Hq _. simpl. apply elem_of_app. by left.
Qed.

Lemma insertOutcome_keeps database o : tx_keeps ledger_ok (insertOutcome database o).
Proof.
  intros t b t' H Ht. unfold insertOutcome in H. destruct (_ <>s _); tx_inv H.
  destruct (existsb _ _); tx_inv H; [done|].
  match goal with |- ledger_ok (set_Outcomes _ ?x) => apply (keep_levels x); try done;
    [by destruct (ok_proposals x Ht)|by intros p] end.
Qed.

Lemma upsertReview_keeps database r : tx_keeps ledger_ok (upsertReview database r).
Proof.
  intros t b t' H Ht. unfold upsertReview in H. destruct (_ <>s _); tx_inv H.
  assert (Hstore : forall x, ledger_ok x -> forall r', ledger_ok (set_Reviews r' x)).
  { intros x Hx r'. apply (keep_levels x); try done; [by destruct (ok_proposals x Hx)|by intros p]. }
  destruct (lg_Reviews _ !! _); [destruct (_ || _)|]; tx_inv H; by apply Hstore.
Qed.

(** ** The steps *)

(** One statement or transaction of the service, by whoever and whenever. *)
Inductive lstep (th : Thresholds) : Ledger -> Ledger -> Prop :=
| step_propose p t b t' :
    pending p = true -> proposal_ok p ->
    insertProposal p t = inl (b, t') -> lstep th t t'
| step_note e t :
    str_in (e_Type e) level_types = false -> lstep th t (log e t)
| step_expire at_ t ps t' :
    expireDue at_ t = inl (ps, t') -> lstep th t t'
| step_approve p approver note now ev t st t' :
    humanActor approver = true -> read_before p t ->
    ev_Family ev = pr_Family p -> ev_Class ev = pr_Class p ->
    as_Met (Assess th (pr_To p) ev) = true ->
    applyApproval p approver note now t = inl (st, t') -> lstep th t t'
| step_reject p actor note now t a t' :
    rejectTx p actor note now t = inl (a, t') -> lstep th t t'
| step_lower f classes to actor reason kind now t out t' :
    Grantable to = true -> kind ∈ [EventDowngraded; EventAutoDowngraded] ->
    lowerTx f classes to actor reason kind now t = inl (out, t') -> lstep th t t'
| step_demote database o cause now t d t' :
    demoteOnce database o cause now t = inl (d, t') -> lstep th t t'
| step_carry co bound at_ t st t' :
    seedCarried co (CarriedLevel bound (co_Family co) (co_Class co)) at_ t = inl (st, t') ->
    lstep th t t'
| step_grandfather bound now t r t' :
    grandfatherTx bound now t = inl (r, t') -> lstep th t t'
| step_adopt at_ t out t' :
    adoptLegacyTx at_ t = inl (out, t') -> lstep th t t'
| step_outcome database o t b t' :
    insertOutcome database o t = inl (b, t') -> lstep th t t'
| step_review database r t a t' :
    upsertReview database r t = inl (a, t') -> lstep th t t'.

Lemma lstep_ok th t t' : lstep th t t' -> ledger_ok t -> ledger_ok t'.
Proof.
  destruct 1 as [p t b t' ? ? Hs|e t He|at_ t ps t' Hs|p approver note now ev t st t' Hh Hr _ _ _ Hs
    |p actor note now t a t' Hs|f classes to actor reason kind now t out t' ? ? Hs
    |database o cause now t d t' Hs|co bound at_ t st t' Hs|bound now t r t' Hs|at_ t out t' Hs
    |database o t b t' Hs|database r t a t' Hs].
  - by apply (insertProposal_keeps p) in Hs.
  - by apply log_note.
  - exact (expireDue_keeps _ _ _ _ Hs).
  - by apply applyApproval_keeps with p approver note now st.
  - exact (rejectTx_keeps _ _ _ _ _ _ _ Hs).
  - by eapply lowerTx_keeps.
  - exact (demoteOnce_keeps _ _ _ _ _ _ _ Hs).
  - eapply seedCarried_keeps; [|exact Hs]. apply Grantable_range.
    pose proof (CarriedLevel_range bound (co_Family co) (co_Class co)) as H. unfold L1, L3 in H. lia.
  - exact (grandfatherTx_keeps _ _ _ _ _ Hs).
  - exact (adoptLegacyTx_keeps _ _ _ _ Hs).
  - exact (insertOutcome_keeps _ _ _ _ _ Hs).
  - exact (upsertReview_keeps _ _ _ _ _ Hs).
Qed.

(** A database's tables before its first step, in a deployment with [legacy]. *)
Definition first_ledger (legacy : list State) : Ledger :=
  {| lg_Levels := ∅; lg_Legacy := legacy; lg_Proposals := []; lg_Events := []; lg_Outcomes := [];
     lg_Reviews := ∅; lg_Grandfathered := None |}.

Lemma first_ledger_ok legacy :
  Forall (fun st => Grantable (ls_Level st) = true) legacy -> ledger_ok (first_ledger legacy).
Proof.
  intros Hleg. split; [by apply map_Forall_empty|done|..].
  - split; simpl; [done|by constructor..].
  - split; intros f c; [|done]. unfold replay, level_of. simpl. by rewrite lookup_empty.
  - intros pre e post H. simpl in H. by destruct pre.
Qed.

Lemma reachable_ok th legacy t :
  Forall (fun st => Grantable (ls_Level st) = true) legacy ->
  rtc (lstep th) (first_ledger legacy) t -> ledger_ok t.
Proof.
  intros Hleg Hr. pose proof (first_ledger_ok legacy Hleg) as H0.
  induction Hr as [|t t1 t2 Hs _ IH]; [done|]. apply IH. by apply (lstep_ok th t).
Qed.

(** ** A proposal's terms never change

    What an approval read of its proposal before its transaction still holds in
    it, whatever other transactions ran between: the condition [read_before] of
    [step_approve]. *)

Section Keeping.
Context (P : Ledger -> Prop).

Lemma tx_keeps_ret {A} (a : A) : tx_keeps P (tx_ret a).
Proof. by intros t ? ? [= _ <-]. Qed.
Lemma tx_keeps_fail {A} e : tx_keeps P (tx_fail (A:=A) e).
Proof. by intros t ? ?. Qed.
Lemma tx_keeps_get : tx_keeps P tx_get.
Proof. by intros t ? ? [= _ <-]. Qed.
Lemma tx_keeps_modify f : (forall t, P t -> P (f t)) -> tx_keeps P (tx_modify f).
Proof. intros Hf t ? ? [= _ <-]. apply Hf. Qed.
Lemma tx_keeps_bind {A B} (m : Tx A) (k : A -> Tx B) :
  tx_keeps P m -> (forall a, tx_keeps P (k a)) -> tx_keeps P (tx_bind m k).
Proof.
  intros Hm Hk t b t' (a & t1 & H1 & H2)%tx_bind_inl HP. eapply Hk; [exact H2|]. by eapply Hm.
Qed.
End Keeping.

Ltac head_of t := lazymatch t with ?f _ => head_of f | _ => t end.

(** Follows a transaction's text down to its writes. *)
Ltac keeps_tac :=
  repeat lazymatch goal with
    | |- tx_keeps _ (tx_bind _ _) => apply tx_keeps_bind; [|intros ?]
    | |- tx_keeps _ (tx_ret _) => apply tx_keeps_ret
    | |- tx_keeps _ (tx_fail _) => apply tx_keeps_fail
    | |- tx_keeps _ tx_get => apply tx_keeps_get
    | |- tx_keeps _ (tx_collect _ _) => apply tx_keeps_collect; intros ? _
    | |- tx_keeps _ (tx_modify _) => apply tx_keeps_modify; intros ?
    | |- tx_keeps _ (let _ := _ in _) => cbv zeta
    | |- tx_keeps _ (match ?x with _ => _ end) => destruct x
    | |- tx_keeps _ (update_proposals _ (pr_decided _ _ _ _)) => fail
    | |- tx_keeps _ ?m => let h := head_of m in unfold h
    end.

Definition has_terms (p : Proposal) (t : Ledger) : Prop :=
  exists q, find_proposal (pr_ID p) t = Some q /\ same_terms p q.

Lemma has_terms_before p t : has_terms p t -> read_before p t.
Proof. intros (q & Hq & Hs) q' Hq'. by simplify_eq. Qed.

Lemma has_terms_written p hit write t :
  (forall q, same_terms q (write q)) -> has_terms p t -> has_terms p (written hit write t).
Proof.
  intros Hw (q & Hq & Hs). exists (if hit q then write q else q). split.
  - unfold find_proposal in *. simpl. revert Hq. induction (lg_Proposals t) as [|x l IH]; [done|].
    simpl. assert (Hid : pr_ID (if hit x then write x else x) = pr_ID x).
    { destruct (hit x); [|done]. symmetry. apply Hw. }
    rewrite Hid. destruct (_ =s _); [by intros [= ->]|exact IH].
  - destruct (hit q); [|done]. destruct (Hw q) as (? & ? & ? & ?), Hs as (? & ? & ? & ?).
    by split_and!; etrans.
Qed.

Lemma has_terms_app p q t :
  has_terms p t -> has_terms p (set_Proposals (lg_Proposals t ++ [q]) t).
Proof.
  intros (r & Hr & Hs). exists r. split; [|done]. unfold find_proposal in *. simpl. revert Hr.
  induction (lg_Proposals t) as [|x l IH]; [done|]. simpl. by destruct (_ =s _).
Qed.

Lemma has_terms_decided p hit status actor note at_ :
  tx_keeps (has_terms p) (update_proposals hit (pr_decided status actor note at_)).
Proof. intros t rows t' [-> _]%update_proposals_inl. by apply has_terms_written. Qed.

(** No transaction changes the terms of a proposal that is there. *)
Lemma lstep_terms th p t t' : lstep th t t' -> has_terms p t -> has_terms p t'.
Proof.
  destruct 1 as [q t b t' _ _ Hs|e t _|at_ t ps t' Hs|q approver note now ev t st t' _ _ _ _ _ Hs
    |q actor note now t a t' Hs|f classes to actor reason kind now t out t' _ _ Hs
    |database o cause now t d t' Hs|co bound at_ t st t' Hs|bound now t r t' Hs|at_ t out t' Hs
    |database o t b t' Hs|database r t a t' Hs]; [|done|..];
    revert Hs;
    lazymatch goal with |- ?m _ = inl (?a, ?t') -> _ => enough (Hk : tx_keeps (has_terms p) m)
      by (intros Hs; exact (Hk _ _ _ Hs)) end.
  all: keeps_tac; try (by intros; apply has_terms_decided); try done.
  apply has_terms_app.
Qed.
