(* ===== verification/EarnedOps.v ===== *)
(** * Earned autonomy: operations are sequences of transactions

    Every entry point of EarnedService.v and EarnedLimiter.v changes the tables only by
    transactions of EarnedHistory.v, each under the conditions its operation has to
    check before it: what it read (the proposal, the evidence, the outcome) is what
    the tables hold when it runs. *)

From S2P Require Import Prelude.
From S2P Require Import GoStd.
From S2P Require Import PolicyTypes.
From S2P Require Import Gate.
From S2P Require Import Earned.
From S2P Require Import EarnedEvidence.
From S2P Require Import EarnedLedger.
From S2P Require Import EarnedService.
From S2P Require Import EarnedLimiter.
From S2P Require Import EarnedHistory.

(** ** Checked transactions *)

Section Checked.
Context {W : Type} (dp : Deps W) (cfg : Config).

(** What a clock, a ramp or another source may answer. *)
Abbreviation clock := (returns (dp_now dp)).

(** The evidence of a pair as the tables, over the safety window, and the other
    sources have it. *)
Definition evidence_in (t : Ledger) (f : Family) (c : ActionClass) (ev : Evidence) : Prop :=
  exists ramp shadow bench gameDays at_,
    clock at_ /\ returns (dp_ramp dp) ramp /\ returns (dp_shadow dp) shadow /\
    returns (dp_bench dp) bench /\ returns (dp_gameDays dp) gameDays /\
    ev = evidenceOf (cf_Thresholds cfg) (cf_SafetyWindow cfg) ramp
           {| et_Outcomes := lg_Outcomes t; et_Shadow := shadow;
              et_Reviews := map snd (map_to_list (lg_Reviews t)); et_Bench := bench;
              et_GameDays := gameDays |} at_ f c.

(** It meets every requirement of [target]. *)
Definition met (t : Ledger) (f : Family) (c : ActionClass) (target : Level) : Prop :=
  exists ev, evidence_in t f c ev /\ target < L4 /\
    Forall (fun k => ck_Met k = true) (assess_checks (cf_Thresholds cfg) target ev).

(** A reviewer: a person, or an agent under its name. *)
Definition may_review (reviewer : string) : Prop :=
  humanActor reviewer = true \/
  (HasPrefix (TrimSpace reviewer) "mcp:" = true /\ (4 < String.length (TrimSpace reviewer) <= 200)%nat).

(** A transaction of the ledger with the checks its operation owes it. *)
Inductive checked : Ledger -> Ledger -> Prop :=
| ck_propose p t b t' :
    pending p = true -> proposal_ok p ->
    clock (pr_ProposedAt p) -> pr_ExpiresAt p = time_Add (pr_ProposedAt p) (cf_ProposalTTL cfg) ->
    met t (pr_Family p) (pr_Class p) (pr_To p) ->
    insertProposal p t = inl (b, t') -> checked t t'
| ck_note e t :
    str_in (e_Type e) level_types = false -> checked t (log e t)
| ck_expire at_ t ps t' :
    clock at_ -> expireDue at_ t = inl (ps, t') -> checked t t'
| ck_approve p approver note seen now t st t' :
    clock seen -> clock now -> humanActor approver = true -> (String.length note <= 2000)%nat ->
    find_proposal (pr_ID p) t = Some p -> pending p = true -> seen < pr_ExpiresAt p ->
    Applicable (pr_Family p) (pr_Class p) = true -> Grantable (pr_To p) = true ->
    pr_To p <= CapForPair (pr_Family p) (pr_Class p) ->
    met t (pr_Family p) (pr_Class p) (pr_To p) ->
    applyApproval p approver note now t = inl (st, t') -> checked t t'
| ck_reject p actor note now t a t' :
    clock now -> TrimSpace actor <> "" -> find_proposal (pr_ID p) t = Some p ->
    rejectTx p actor note now t = inl (a, t') -> checked t t'
| ck_downgrade f classes to actor reason now t out t' :
    clock now -> KnownFamily f = true -> Grantable to = true -> TrimSpace actor <> "" -> TrimSpace reason <> "" ->
    classes = ApplicableClasses f \/ (exists c, classes = [c] /\ Applicable f c = true) ->
    lowerTx f classes to actor reason EventDowngraded now t = inl (out, t') -> checked t t'
| ck_regression o reason now t out t' :
    clock now -> o ∈ lg_Outcomes t -> o_Result o = ResultHarmful \/ o_Result o = ResultSafetyViolation ->
    lowerTx (o_Family o) (ApplicableClasses (o_Family o)) L1 ActorPgSage reason EventAutoDowngraded now t =
      inl (out, t') -> checked t t'
| ck_demote database o cause now t d t' :
    clock now -> o ∈ lg_Outcomes t -> demeritCause o = Some cause ->
    demoteOnce database o cause now t = inl (d, t') -> checked t t'
| ck_carry co bound at_ t st t' :
    clock at_ -> co ∈ carryOvers -> defaultLevel (co_Family co) < CarriedLevel bound (co_Family co) (co_Class co) ->
    seedCarried co (CarriedLevel bound (co_Family co) (co_Class co)) at_ t = inl (st, t') ->
    checked t t'
| ck_grandfather bound now t r t' :
    clock now -> grandfatherTx bound now t = inl (r, t') -> checked t t'
| ck_adopt at_ t out t' :
    clock at_ -> adoptLegacyTx at_ t = inl (out, t') -> checked t t'
| ck_outcome database o t b t' :
    clock (o_At o) -> o_Result o ∈ outcome_results -> o_Source o ∈ outcome_sources -> KnownFamily (o_Family o) = true ->
    knownClass (o_Class o) = true -> Grantable (o_Level o) = true -> TrimSpace (o_Actor o) <> "" ->
    insertOutcome database o t = inl (b, t') -> checked t t'
| ck_review database r t a t' :
    clock (rv_At r) -> may_review (rv_Reviewer r) -> rv_Verdict r = VerdictAccepted \/ rv_Verdict r = VerdictRejected ->
    IsIncidentFamily (rv_Family r) = true -> is_uuid (rv_InvestigationID r) = true ->
    upsertReview database r t = inl (a, t') -> checked t t'.

Lemma met_as t f c target : met t f c target ->
  exists ev, ev_Family ev = f /\ ev_Class ev = c /\ as_Met (Assess (cf_Thresholds cfg) target ev) = true.
Proof.
  intros (ev & (ramp & shadow & bench & gds & at_ & _ & _ & _ & _ & _ & ->) & Ht & Hc). eexists. split_and!; [..|].
  3:{ unfold Assess. cbn [as_Met]. apply andb_true_iff. split; [by apply Z.ltb_lt|].
      apply forallb_forall. intros k Hk. rewrite Forall_forall in Hc. by apply Hc, list_elem_of_In. }
  all: unfold evidenceOf; by destruct (IsSelfInitiated f).
Qed.

(** Checked, a transaction is still one. *)
Lemma checked_lstep t t' : checked t t' -> lstep (cf_Thresholds cfg) t t'.
Proof.
  destruct 1 as [| | |p approver note seen now t st t' _ _ Hh _ Hp _ _ _ _ _ Hm Hs| | | | | | | | |].
  4:{ destruct (met_as _ _ _ _ Hm) as (ev & Hf & Hc & Ha). eapply step_approve; [done| |done..].
      intros q Hq. by simplify_eq. }
  all: [> by eapply step_propose|by apply step_note|by eapply step_expire|by eapply step_reject|
    eapply step_lower; [..|done]; [done|set_solver]|eapply step_lower; [..|done]; [done|set_solver]|
    by eapply step_demote|by eapply step_carry|by eapply step_grandfather|by eapply step_adopt|
    by eapply step_outcome|by eapply step_review].
Qed.

Lemma checked_lsteps t t' : rtc checked t t' -> rtc (lstep (cf_Thresholds cfg)) t t'.
Proof.
  induction 1 as [|t t1 t2 Hs _ IH]; [apply rtc_refl|]. eapply rtc_l; [by apply checked_lstep|done].
Qed.

Lemma rtc_lstep_ok th t t' : rtc (lstep th) t t' -> ledger_ok t -> ledger_ok t'.
Proof. induction 1 as [|t t1 t2 Hs _ IH]; [done|]. intros Ht. by apply IH, (lstep_ok th t). Qed.

Lemma rtc_checked_ok t t' : rtc checked t t' -> ledger_ok t -> ledger_ok t'.
Proof. intros H%checked_lsteps. by eapply rtc_lstep_ok. Qed.
End Checked.

(** ** Triples over the ledger *)

Section Steps.
Context {W : Type} (dp : Deps W) (cfg : Config).

Definition tables (mw : Mem * W) : Ledger := me_Ledger mw.1.

(** From tables that satisfy [P], [m] makes steps and ends in [Q]. *)
Definition by_steps (P : Ledger -> Prop) {A} (m : MS W A) (Q : A -> Ledger -> Prop) : Prop :=
  forall mw, ledger_ok (tables mw) -> P (tables mw) ->
  rtc (checked dp cfg) (tables mw) (tables (snd (m mw))) /\ Q (fst (m mw)) (tables (snd (m mw))).

(** [m] makes steps. *)
Definition steps {A} (m : MS W A) : Prop := by_steps (fun _ => True) m (fun _ _ => True).

Definition when_ok {A} (Q : A -> Ledger -> Prop) (r : A + LedgerError) (t : Ledger) : Prop :=
  match r with inl a => Q a t | inr _ => True end.

Lemma by_steps_ret P {A} (a : A) (Q : A -> Ledger -> Prop) :
  (forall t, P t -> Q a t) -> by_steps P (ret a) Q.
Proof. intros HQ mw _ HP. split; [apply rtc_refl|by apply HQ]. Qed.

Lemma by_steps_bind P {A B} (m : MS W A) (k : A -> MS W B) R Q :
  by_steps P m R -> (forall a, by_steps (R a) (k a) Q) -> by_steps P (bind m k) Q.
Proof.
  intros Hm Hk mw Hok HP. destruct (Hm mw Hok HP) as [Hs HR]. unfold bind.
  destruct (m mw) as [a mw1]. simpl in *.
  destruct (Hk a mw1 (rtc_checked_ok _ _ _ _ Hs Hok) HR) as [Hs' HQ].
  split; [by etrans|done].
Qed.

Lemma by_steps_weaken P P' {A} (m : MS W A) Q Q' :
  by_steps P m Q -> (forall t, P' t -> P t) -> (forall a t, Q a t -> Q' a t) -> by_steps P' m Q'.
Proof. intros Hm HP HQ mw Hok HP'. destruct (Hm mw Hok (HP _ HP')). auto. Qed.

Lemma by_steps_still P {A} (m : MS W A) :
  (forall mw, tables (snd (m mw)) = tables mw) -> by_steps P m (fun _ => P).
Proof. intros Hm mw _ HP. rewrite Hm. split; [apply rtc_refl|done]. Qed.

Lemma on_snd_still {A} (m : M W A) mw : tables (snd (on_snd (V:=Mem) m mw)) = tables mw.
Proof. unfold on_snd. by destruct (m mw.2). Qed.

Lemma by_steps_on_snd P {A} (m : M W A) : by_steps P (on_snd m) (fun a t => P t /\ returns m a).
Proof.
  intros mw Hok HP. rewrite on_snd_still. split; [apply rtc_refl|]. split; [done|].
  exists mw.2. unfold value_at, on_snd. by destruct (m mw.2).
Qed.

Lemma by_steps_get P {A} (f : Mem -> A) : by_steps P (get_mem f) (fun _ => P).
Proof. by apply by_steps_still. Qed.

Lemma by_steps_set P (f : Mem -> Mem) :
  (forall m, me_Ledger (f m) = me_Ledger m) -> by_steps P (set_mem f) (fun _ => P).
Proof. intros Hf. apply by_steps_still. intros mw. apply Hf. Qed.

Lemma by_steps_fail P {A} e (Q : A -> Ledger -> Prop) : by_steps P (efail e) (when_ok Q).
Proof. by apply by_steps_ret. Qed.

Lemma by_steps_ebind P {A B} (m : MS W (A + LedgerError)) (k : A -> MS W (B + LedgerError)) R Q :
  by_steps P m (when_ok R) -> (forall a, by_steps (R a) (k a) (when_ok Q)) ->
  by_steps P (ebind m k) (when_ok Q).
Proof.
  intros Hm Hk. eapply by_steps_bind; [exact Hm|]. intros [a|e]; [apply Hk|by apply by_steps_ret].
Qed.

Lemma by_steps_tx P {A} (m : Tx A) Q :
  (forall t a t', ledger_ok t -> P t -> m t = inl (a, t') -> rtc (checked dp cfg) t t' /\ Q a t') ->
  by_steps P (run_tx dp m) (when_ok Q).
Proof.
  intros Hm. unfold run_tx. eapply by_steps_bind; [apply by_steps_on_snd|].
  intros [e|]; [apply by_steps_fail|]. intros [mem w] Hok [HP _]. unfold on_fst, tables in *. simpl in *.
  destruct (m (me_Ledger mem)) as [[a t']|e] eqn:E; simpl; [by apply Hm|].
  split; [apply rtc_refl|done].
Qed.

(** An error keeps what held. *)
Lemma by_steps_tx_or P {A} (m : Tx A) Q :
  (forall t a t', ledger_ok t -> P t -> m t = inl (a, t') -> rtc (checked dp cfg) t t' /\ Q a t') ->
  by_steps P (run_tx dp m) (fun r t => match r with inl a => Q a t | inr _ => P t end).
Proof.
  intros Hm. unfold run_tx. eapply by_steps_bind; [apply by_steps_on_snd|].
  intros [e|]; [apply by_steps_ret; by intros t' [? _]|]. intros [mem w] Hok [HP _]. unfold on_fst, tables in *. simpl in *.
  destruct (m (me_Ledger mem)) as [[a t']|e] eqn:E; simpl; [by apply Hm|].
  split; [apply rtc_refl|done].
Qed.

(** *** Without conditions *)

Lemma steps_any P {A} (m : MS W A) : steps m -> by_steps P m (fun _ _ => True).
Proof. intros Hm. by eapply by_steps_weaken. Qed.

Lemma steps_of P {A} (m : MS W A) Q : (forall t, P t) -> by_steps P m Q -> steps m.
Proof. intros HP Hm. eapply by_steps_weaken; [exact Hm|auto|done]. Qed.

Lemma steps_ret {A} (a : A) : steps (ret a).
Proof. by apply by_steps_ret. Qed.

Lemma steps_bind {A B} (m : MS W A) (k : A -> MS W B) :
  steps m -> (forall a, steps (k a)) -> steps (bind m k).
Proof. intros Hm Hk. eapply by_steps_bind; [exact Hm|exact Hk]. Qed.

Lemma steps_on_snd {A} (m : M W A) : steps (on_snd m).
Proof. intros mw Hok HP. by destruct (by_steps_on_snd (fun _ => True) m mw Hok HP). Qed.
Lemma steps_get {A} (f : Mem -> A) : steps (get_mem f).
Proof. eapply steps_any, by_steps_get. Qed.
Lemma steps_still {A} (m : MS W A) : (forall mw, tables (snd (m mw)) = tables mw) -> steps m.
Proof. apply by_steps_still. Qed.

Lemma steps_ebind {A B} (m : MS W (A + LedgerError)) (k : A -> MS W (B + LedgerError)) :
  steps m -> (forall a, steps (k a)) -> steps (ebind m k).
Proof. intros Hm Hk. apply steps_bind; [done|]. intros [a|e]; [apply Hk|apply steps_ret]. Qed.

Lemma steps_tx {A} (m : Tx A) :
  (forall t a t', ledger_ok t -> m t = inl (a, t') -> rtc (checked dp cfg) t t') ->
  steps (run_tx dp m).
Proof.
  intros Hm. eapply by_steps_weaken; [apply (by_steps_tx (fun _ => True) m (fun _ _ => True))| |];
    [|done..]. intros t a t' Hok _ Ht. split; [by eapply Hm|done].
Qed.

Lemma steps_retry {A} (m : MS W (A + LedgerError)) : steps m -> steps (retry_conflict m).
Proof.
  intros Hm. apply steps_bind; [done|]. intros [a|e]; [apply steps_ret|].
  destruct e; first [exact Hm|apply steps_ret].
Qed.

Lemma by_steps_then_invalidate P {A} (m : MS W A) Q :
  by_steps P m Q -> by_steps P (then_invalidate m) Q.
Proof.
  intros Hm. unfold then_invalidate. eapply by_steps_bind; [exact Hm|]. intros a.
  eapply by_steps_bind; [by apply by_steps_set|]. intros u. by apply by_steps_ret.
Qed.
End Steps.

(** Follows an operation's text: its binds, its branches, its quiet parts. *)
Ltac steps_tac :=
  repeat lazymatch goal with
    | H : steps _ _ ?m |- steps _ _ ?m => exact H
    | |- steps _ _ (bind _ _) => apply steps_bind; [|intros ?]
    | |- steps _ _ (ebind _ _) => apply steps_ebind; [|intros ?]
    | |- steps _ _ (ret _) => apply steps_ret
    | |- steps _ _ (eret _) => apply steps_ret
    | |- steps _ _ (efail _) => apply steps_ret
    | |- steps _ _ (on_snd _) => apply steps_on_snd
    | |- steps _ _ (get_mem _) => apply steps_get
    | |- steps _ _ (set_mem _) => by apply steps_still
    | |- steps _ _ (then_invalidate _) => apply by_steps_then_invalidate
    | |- steps _ _ (let _ := _ in _) => cbv zeta
    | |- steps _ _ (match ?x with _ => _ end) => destruct x
    end.

(** ** Reads and notes *)

Section Operations.
Context {W : Type} (dp : Deps W) (cfg : Config) (database : string).

Lemma by_steps_read P {A} (m : Tx A) (R : A -> Ledger -> Prop) :
  (forall t a t', m t = inl (a, t') -> t' = t /\ R a t) ->
  by_steps dp cfg P (run_tx dp m) (when_ok (fun a t => P t /\ R a t)).
Proof.
  intros Hm. apply by_steps_tx. intros t a t' _ HP Ht. destruct (Hm t a t' Ht) as [-> HR].
  split; [apply rtc_refl|by split].
Qed.

Lemma steps_read {A} (m : Tx A) : (forall t a t', m t = inl (a, t') -> t' = t) ->
  steps dp cfg (run_tx dp m).
Proof. intros Hm. apply steps_tx. intros t a t' _ Ht. rewrite (Hm t a t' Ht). apply rtc_refl. Qed.

Lemma steps_note e : str_in (e_Type e) level_types = false ->
  steps dp cfg (run_tx dp (appendEvent e)).
Proof.
  intros He. apply steps_tx. intros t a t' _ ->%appendEvent_inl. by apply rtc_once, ck_note.
Qed.

Lemma steps_now : steps dp cfg (now dp).
Proof. apply steps_on_snd. Qed.

(** A transaction at the time the clock reads. *)
Lemma by_steps_at P {A} (k : Time -> MS W A) Q :
  (forall at_, returns (dp_now dp) at_ -> by_steps dp cfg P (k at_) Q) ->
  by_steps dp cfg P (let! at_ := now dp in k at_) Q.
Proof.
  intros Hk. eapply by_steps_bind; [apply by_steps_on_snd|]. intros at_ mw Hok [HP Ht].
  by apply (Hk at_ Ht mw Hok).
Qed.

Lemma steps_at {A} (k : Time -> MS W A) : (forall at_, returns (dp_now dp) at_ -> steps dp cfg (k at_)) ->
  steps dp cfg (let! at_ := now dp in k at_).
Proof. apply by_steps_at. Qed.

Lemma steps_each {A} (f : A -> MS W (unit + LedgerError)) l :
  (forall a, steps dp cfg (f a)) -> steps dp cfg (each f l).
Proof. intros Hf. induction l as [|a l IH]; simpl; steps_tac. apply Hf. Qed.

Lemma steps_expire : steps dp cfg (expire dp).
Proof.
  apply steps_at. intros at_ Hat. apply steps_ebind.
  - apply steps_tx. intros t ps t' _ Ht. by eapply rtc_once, ck_expire.
  - intros ps. apply steps_each. intros p. by apply steps_note.
Qed.

Lemma steps_list status n : steps dp cfg (run_tx dp (listProposals status n)).
Proof. apply steps_read. by intros t a t' [= _ <-]. Qed.

Lemma steps_pending : steps dp cfg (PendingProposals dp).
Proof. apply steps_ebind; [apply steps_expire|]. intros _. apply steps_list. Qed.

(** The granted level is that of its pair, and reading it changes nothing. *)
Lemma by_steps_granted fuel : forall P f c,
  (forall t, P t -> ledger_ok t) ->
  by_steps dp cfg P (granted dp fuel f c)
    (when_ok (fun st t => P t /\ ls_Family st = f /\ ls_Class st = c)).
Proof.
  induction fuel as [|fuel IH]; intros P f c HP; [apply by_steps_fail|]. cbn [granted].
  eapply by_steps_ebind.
  { apply (by_steps_read P (readLevel f c) (fun row t => row = lg_Levels t !! (f, c))).
    by intros t row t' [-> ->]%readLevel_inl. }
  intros row. set (P' := fun t => P t /\ row = lg_Levels t !! (f, c)).
  assert (HP' : forall t, P' t -> ledger_ok t) by (intros t [Ht _]; by apply HP).
  apply (by_steps_ebind _ _ _ _ _ (fun _ => P')).
  - induction (ComponentClasses _) as [|p comps IHc]; [by apply by_steps_ret|]. cbn [read_components].
    apply (by_steps_ebind _ _ _ _ _ (fun _ => P')).
    { eapply by_steps_weaken; [apply (IH P' p.1 p.2 HP')|done|]. by intros [st|e] t; [intros [? _]|]. }
    intros cs. apply (by_steps_ebind _ _ _ _ _ (fun _ => P')); [exact IHc|].
    intros levels. by apply by_steps_ret.
  - intros levels. apply by_steps_ret. intros t [Ht ->]. split; [done|].
    assert (ls_Family (default (defaultState f c) (lg_Levels t !! (f, c))) = f /\
            ls_Class (default (defaultState f c) (lg_Levels t !! (f, c))) = c) as [Hf Hc].
    { destruct (lg_Levels t !! (f, c)) as [st|] eqn:E; [|done].
      pose proof (ro_key _ _ (ok_rows t (HP t Ht) _ _ E)) as Hk. by injection Hk. }
    unfold composedLevel. by destruct (ComponentClasses _).
Qed.

Lemma by_steps_evidence P f c :
  by_steps dp cfg P (Evidence_ dp cfg f c)
    (when_ok (fun ev t => P t /\ evidence_in dp cfg t f c ev)).
Proof.
  unfold Evidence_, now.
  do 4 (eapply by_steps_bind; [apply by_steps_on_snd|intros ?]). eapply by_steps_ebind.
  { apply (by_steps_read _ tx_get (fun l t => l = t)). by intros t l t' [= <- <-]. }
  intros t. eapply by_steps_bind; [apply by_steps_on_snd|]. intros ramp. apply by_steps_ret.
  intros t' [[((((HP & ?) & ?) & ?) & ?) ->] ?]. split; [done|]. by eexists _, _, _, _, _.
Qed.

Lemma met_of t f c ev target : evidence_in dp cfg t f c ev ->
  as_Met (Assess (cf_Thresholds cfg) target ev) = true -> met dp cfg t f c target.
Proof.
  intros Hev [Ht%Z.ltb_lt Hc]%andb_prop. exists ev. split; [done|]. split; [done|].
  rewrite Forall_forall. intros k Hk. rewrite forallb_forall in Hc. by apply Hc, list_elem_of_In.
Qed.

(** ** Proposing *)

Lemma when_ok_true {A} P (m : MS W (A + LedgerError)) :
  by_steps dp cfg P m (fun _ _ => True) -> by_steps dp cfg P m (when_ok (fun _ _ => True)).
Proof. intros Hm. eapply by_steps_weaken; [exact Hm|done|]. by intros [a|e] t. Qed.

Lemma by_steps_ebind_any {A B} P (m : MS W (A + LedgerError)) (k : A -> MS W (B + LedgerError)) R :
  by_steps dp cfg P m (when_ok R) -> (forall a, by_steps dp cfg (R a) (k a) (fun _ _ => True)) ->
  by_steps dp cfg P (ebind m k) (fun _ _ => True).
Proof.
  intros Hm Hk. eapply by_steps_bind; [exact Hm|]. intros [a|e]; [apply Hk|by apply by_steps_ret].
Qed.

Lemma by_steps_createProposal st target :
  target = ls_Level st + 1 -> Grantable target = true ->
  target <= CapForPair (ls_Family st) (ls_Class st) ->
  by_steps dp cfg (fun t => met dp cfg t (ls_Family st) (ls_Class st) target) (createProposal dp cfg st target)
    (fun _ _ => True).
Proof.
  intros Hto Hg Hcap. unfold createProposal.
  eapply by_steps_bind; [apply by_steps_on_snd|]. intros at_.
  eapply by_steps_bind; [apply by_steps_on_snd|]. intros id. cbv zeta.
  apply (by_steps_ebind_any _ _ _ (fun _ _ => True)).
  { apply by_steps_tx. intros t b t' _ [[Hm Hat] _] Ht. split; [|done]. by eapply rtc_once, ck_propose; [..|exact Ht]. }
  intros b. destruct (negb b); [apply steps_ret|].
  apply steps_ebind; [by apply steps_note|]. intros _.
  apply steps_ebind; [|intros p; apply steps_ret].
  apply steps_read. by intros t p t' [_ ->]%readProposal_inl.
Qed.

Lemma steps_from_ok {A} (m : MS W A) Q : by_steps dp cfg ledger_ok m Q -> steps dp cfg m.
Proof. intros Hm mw Hok _. by destruct (Hm mw Hok Hok). Qed.

Lemma steps_given (Q : Prop) P {A} (m : MS W A) :
  (forall t, P t -> Q) -> (Q -> steps dp cfg m) -> by_steps dp cfg P m (fun _ _ => True).
Proof. intros HQ Hm mw Hok HP. by apply (Hm (HQ _ HP)). Qed.

Lemma steps_ebind_ok {A B} P (m : MS W (A + LedgerError)) (k : A -> MS W (B + LedgerError)) R :
  by_steps dp cfg P m (when_ok (fun a t => P t /\ R a)) -> (forall a, R a -> by_steps dp cfg P (k a) (fun _ _ => True)) ->
  by_steps dp cfg P (ebind m k) (fun _ _ => True).
Proof.
  intros Hm Hk. eapply by_steps_weaken; [|done|].
  - eapply (by_steps_ebind _ _ _ _ _ _ (fun _ _ => True)); [exact Hm|]. intros a mw Hok [HP HR].
    destruct (Hk a HR mw Hok HP) as [Hs _]. split; [done|]. by destruct (fst _).
  - done.
Qed.

Lemma steps_evaluateOne f c waiting : steps dp cfg (evaluateOne dp cfg f c waiting).
Proof.
  apply (steps_from_ok _ (fun _ _ => True)). unfold evaluateOne, Granted.
  eapply steps_ebind_ok; [by apply by_steps_granted|]. intros st [<- <-]. cbv zeta.
  apply steps_any.
  match goal with |- context [if ?x then _ else _] => destruct x eqn:E end; [apply steps_ret|].
  apply orb_false_iff in E as [Hcap%Z.ltb_ge Hg%negb_false_iff].
  destruct (List.find _ _); [apply steps_ret|].
  apply (steps_of dp cfg (fun _ => True) _ (when_ok (fun _ _ => True))); [done|].
  eapply by_steps_ebind; [apply by_steps_evidence|]. intros ev. apply when_ok_true.
  destruct (as_Met _) eqn:Hmet; cbn [negb]; [|apply steps_any, steps_ret].
  apply (by_steps_ebind_any _ _ _ (fun _ _ => True)).
  - apply when_ok_true. eapply by_steps_weaken; [by apply by_steps_createProposal| |done].
    intros t [_ Hev]. by eapply met_of.
  - intros [p|]; apply steps_ret.
Qed.

Lemma steps_Evaluate : steps dp cfg (Evaluate dp cfg).
Proof.
  apply steps_ebind; [apply steps_expire|]. intros _.
  apply steps_ebind; [apply steps_list|]. intros waiting.
  induction gridPairs as [|[f c] pairs IH]; [apply steps_ret|]. cbn [evaluate_pairs].
  apply steps_ebind; [apply steps_evaluateOne|]. intros one.
  apply steps_ebind; [exact IH|]. intros [created not]. apply steps_ret.
Qed.

(** ** Deciding *)

Lemma readProposal_found id t p t' :
  readProposal id t = inl (p, t') -> t' = t /\ find_proposal (pr_ID p) t = Some p.
Proof.
  intros [Hp ->]%readProposal_inl. split; [done|].
  apply find_proposal_in in Hp as Hid. by destruct Hid as [_ <-].
Qed.

(** A proposal that may be decided now. *)
Definition decidable (p : Proposal) : Prop :=
  pending p = true /\ (exists seen, returns (dp_now dp) seen /\ seen < pr_ExpiresAt p) /\ Applicable (pr_Family p) (pr_Class p) = true /\
  Grantable (pr_To p) = true /\ pr_To p <= CapForPair (pr_Family p) (pr_Class p).

Lemma by_steps_decidable P p :
  by_steps dp cfg P (checkDecidable dp p) (when_ok (fun _ t => P t /\ decidable p)).
Proof.
  unfold checkDecidable. destruct (pr_Status p =s StatusPending) eqn:Ep; cbn [negb]; [|apply by_steps_fail].
  eapply by_steps_bind; [apply by_steps_on_snd|]. intros at_.
  destruct (time_Before at_ (pr_ExpiresAt p)) eqn:Et; cbn [negb].
  - match goal with |- context [if ?x then _ else _] => destruct x eqn:E end; [apply by_steps_fail|].
    apply by_steps_ret. intros t [HP Hat]. split; [done|].
    apply orb_false_iff in E as [[Hc%Z.ltb_ge Hg%negb_false_iff]%orb_false_iff Ha%negb_false_iff].
    split_and!; try done. exists at_. split; [done|]. by apply Z.ltb_lt.
  - eapply by_steps_ebind; [apply when_ok_true, steps_any, steps_expire|].
    intros u. apply by_steps_fail.
Qed.

Lemma steps_Approve id approver note : steps dp cfg (Approve dp cfg id approver note).
Proof.
  unfold Approve. destruct (humanActor approver) eqn:Hh; [|apply steps_ret].
  cbn [negb].
  destruct (Nat.ltb_spec 2000 (String.length note)) as [|Hn]; [apply steps_ret|].
  apply (steps_of dp cfg (fun _ => True) _ (when_ok (fun _ _ => True))); [done|].
  apply (by_steps_ebind _ _ _ _ _ (fun p t => find_proposal (pr_ID p) t = Some p)).
  { apply by_steps_tx. intros t p t' _ _ [-> Hp]%readProposal_found. by split; [apply rtc_refl|]. }
  intros p. eapply by_steps_ebind; [apply by_steps_decidable|]. intros u.
  eapply by_steps_ebind; [apply by_steps_evidence|]. intros ev.
  cbv zeta.
  destruct (as_Met _) eqn:Hmet; [|apply by_steps_fail]. cbn [negb].
  eapply by_steps_bind; [apply by_steps_on_snd|]. intros at_.
  apply by_steps_then_invalidate, by_steps_tx.
  intros t st t' _ (((Hp & Hpe & (seen & Hclock & Hseen) & Ha & Hg & Hc) & Hev) & Hat) Ht. split; [|done].
  eapply rtc_once, ck_approve; [exact Hclock|exact Hat|done..|by eapply met_of|done].
Qed.

Lemma steps_Reject id actor note : steps dp cfg (Reject dp id actor note).
Proof.
  unfold Reject. destruct (_ || _) eqn:E; [apply steps_ret|].
  apply orb_false_iff in E as [[Ha%String.eqb_neq _]%orb_false_iff _].
  apply (steps_of dp cfg (fun _ => True) _ (when_ok (fun _ _ => True))); [done|].
  apply (by_steps_ebind _ _ _ _ _ (fun p t => find_proposal (pr_ID p) t = Some p)).
  { apply by_steps_tx. intros t p t' _ _ [-> Hp]%readProposal_found. by split; [apply rtc_refl|]. }
  intros p. eapply by_steps_bind; [apply by_steps_on_snd|]. intros at_.
  eapply (by_steps_ebind _ _ _ _ _ (fun _ _ => True)).
  - apply by_steps_tx. intros t a t' _ [Hp Hat] Ht. split; [|done]. by eapply rtc_once, ck_reject.
  - intros u. apply when_ok_true, steps_read. by intros t q t' [_ ->]%readProposal_inl.
Qed.

(** ** Lowering and recording *)

Lemma steps_Downgrade r : steps dp cfg (Downgrade dp r).
Proof.
  unfold Downgrade. destruct (validate_downgrade r) as [e|] eqn:E; [apply steps_ret|].
  apply steps_ebind; [|intros [|st out]; apply steps_ret].
  apply steps_at. intros at_ Hat. apply by_steps_then_invalidate, steps_tx.
  intros t out t' _ Ht. unfold validate_downgrade in E.
  destruct (KnownFamily (dr_Family r)) eqn:Ef; [|done]. cbn [negb] in E.
  destruct (_ && _) eqn:Ec; [done|]. destruct (Grantable (dr_To r)) eqn:Eg; [|done]. cbn [negb] in E.
  destruct (TrimSpace (dr_Actor r) =s "") eqn:Ea; [done|]. destruct (_ <? _)%nat; [done|]. cbn [orb] in E.
  destruct (TrimSpace (dr_Reason r) =s "") eqn:Er; [done|]. apply String.eqb_neq in Ea, Er.
  eapply rtc_once, (ck_downgrade dp cfg (dr_Family r) _ (dr_To r) (dr_Actor r) (dr_Reason r)); [done..| |exact Ht].
  destruct (dr_Class r =s AllClasses) eqn:El; [by left|right]. exists (dr_Class r). split; [done|].
  by apply andb_false_iff in Ec as [Ec%negb_false_iff|Ec%negb_false_iff].
Qed.

(** What held before a transaction that conflicted holds when it is retried. *)
Lemma by_steps_retry P {A} (m : MS W (A + LedgerError)) :
  by_steps dp cfg P m (fun r t => match r with inl _ => True | inr _ => P t end) ->
  by_steps dp cfg P (retry_conflict m) (fun _ _ => True).
Proof.
  intros Hm. unfold retry_conflict. eapply by_steps_bind; [exact Hm|]. intros [a|e]; [by apply by_steps_ret|].
  destruct e; try (by apply by_steps_ret). eapply by_steps_weaken; [exact Hm|done..].
Qed.

Lemma by_steps_demote o cause : demeritCause o = Some cause ->
  by_steps dp cfg (fun t => o ∈ lg_Outcomes t) (demoteForDemerit dp database o cause) (fun _ _ => True).
Proof.
  intros Hc. apply by_steps_then_invalidate, by_steps_retry.
  apply by_steps_at. intros at_ Hat. apply by_steps_tx_or. intros t d t' _ Ho Ht. split; [|done]. by eapply rtc_once, ck_demote.
Qed.

Lemma by_steps_demoteFamily o : harmful_result o = true ->
  by_steps dp cfg (fun t => o ∈ lg_Outcomes t) (demoteFamily dp o) (fun _ _ => True).
Proof.
  intros Hh%orb_true_iff. rewrite !String.eqb_eq in Hh. unfold demoteFamily.
  apply (by_steps_bind _ _ _ _ _ (fun _ _ => True)); [|intros [out|e]; by apply by_steps_ret].
  apply by_steps_retry, by_steps_at. intros at_ Hat. apply by_steps_then_invalidate, by_steps_tx_or.
  intros t out t' _ Ho Ht. split; [|done]. by eapply rtc_once, ck_regression.
Qed.

Lemma insertOutcome_in db o t t' : insertOutcome db o t = inl (true, t') -> o ∈ lg_Outcomes t'.
Proof.
  unfold insertOutcome. destruct (_ <>s _); [done|]. cbn. destruct (existsb _ _); [done|].
  intros [= <-]. cbn. apply elem_of_app. right. by apply list_elem_of_singleton.
Qed.

Lemma steps_recordOutcome o : steps dp cfg (recordOutcome dp database o).
Proof.
  unfold recordOutcome. destruct (validateOutcome o) eqn:Ev; [apply steps_ret|].
  apply steps_at. intros at_ Hat. cbv zeta.
  set (o' := recorded_at at_ o).
  apply (steps_of dp cfg (fun _ => True) _ (fun _ _ => True)); [done|].
  apply (by_steps_bind _ _ _ _ _ (when_ok (fun b t => b = true -> o' ∈ lg_Outcomes t))).
  { apply by_steps_then_invalidate, by_steps_tx. intros t b t' _ _ Ht. split.
    - unfold validateOutcome in Ev. destruct (str_in _ outcome_results) eqn:E1; [|done]. cbn [negb] in Ev.
      destruct (str_in _ outcome_sources) eqn:E2; [|done]. cbn [negb] in Ev.
      destruct (KnownFamily _) eqn:E3; [|done]. destruct (knownClass _) eqn:E4; [|done]. cbn [negb orb] in Ev.
      destruct (Grantable _) eqn:E5; [|done]. cbn [negb] in Ev. destruct (_ || _); [done|].
      destruct (TrimSpace (o_Actor o) =s "") eqn:E6; [done|]. apply String.eqb_neq in E6.
      eapply rtc_once, (ck_outcome dp cfg database o'); [exact Hat|by apply str_in_spec|by apply str_in_spec|done..|exact Ht].
    - intros ->. by eapply insertOutcome_in. }
  intros [[]|e]; [|apply steps_any, steps_ret..]. destruct (demeritCause o') as [cause|] eqn:Ec.
  - eapply by_steps_bind; [|intros d; by apply by_steps_ret].
    eapply by_steps_weaken; [by apply by_steps_demote|by intros t H; apply H|done].
  - destruct (harmful_result o') eqn:Eh; cbn [negb]; [|apply steps_any, steps_ret].
    eapply by_steps_bind; [|intros d; by apply by_steps_ret].
    eapply by_steps_weaken; [by apply by_steps_demoteFamily|by intros t H; apply H|done].
Qed.

Lemma reviewer_may r : reviewerAllowed r = true -> may_review r.
Proof.
  intros [H|[[H1 H2%Nat.ltb_lt]%andb_prop H3%Nat.leb_le]%andb_prop]%orb_prop; [by left|right].
  split; [done|lia].
Qed.

Lemma steps_RecordReview r : steps dp cfg (RecordReview dp database r).
Proof.
  unfold RecordReview. destruct (_ && _) eqn:E1; [apply steps_ret|].
  destruct (IsIncidentFamily (rv_Family r)) eqn:E2; cbn [negb]; [|apply steps_ret].
  destruct (is_uuid (rv_InvestigationID r)) eqn:E3; cbn [negb]; [|apply steps_ret].
  destruct (reviewerAllowed (rv_Reviewer r)) eqn:E4; cbn [negb]; [|apply steps_ret].
  destruct (_ || _); [apply steps_ret|].
  apply steps_at. intros at_ Hat. apply by_steps_then_invalidate, steps_tx.
  intros t a t' _ Ht. eapply rtc_once, ck_review; [..|exact Ht]; cbn; try done; [by apply reviewer_may|].
  apply andb_false_iff in E1 as [E1%negb_false_iff|E1%negb_false_iff]; apply String.eqb_eq in E1; auto.
Qed.

(** ** Seeding *)

Lemma steps_SeedCarriedOver name bound : steps dp cfg (SeedCarriedOver dp database name bound).
Proof.
  unfold SeedCarriedOver. destruct (checkDatabase _ _); [apply steps_ret|]. apply steps_bind.
  - assert (Hin : forall co, co ∈ carryOvers -> co ∈ carryOvers) by done. revert Hin.
    generalize carryOvers at 1 3 as cos0. intros cos0. induction cos0 as [|co cos IH]; intros Hin; [apply steps_ret|].
    cbn [seed_carried]. specialize (IH (fun x Hx => Hin x (proj2 (elem_of_cons _ _ _) (or_intror Hx)))).
    destruct (Z.leb_spec (CarriedLevel bound (co_Family co) (co_Class co)) (defaultLevel (co_Family co)));
      [exact IH|]. apply steps_at. intros at_ Hat.
    apply steps_bind.
    { apply steps_tx. intros t st t' _ Ht. eapply rtc_once, ck_carry; [exact Hat| |done|exact Ht].
      apply Hin, elem_of_cons. by left. }
    intros [st|e]; [|apply steps_ret]. apply steps_bind; [exact IH|].
    intros [seeded e]. apply steps_ret.
  - intros [seeded [e|]]; [apply steps_ret|]. apply steps_bind; [by apply steps_still|].
    intros u. apply steps_ret.
Qed.

Lemma steps_SeedGrandfathered name bound : steps dp cfg (SeedGrandfathered dp database name bound).
Proof.
  unfold SeedGrandfathered. destruct (checkDatabase _ _); [apply steps_ret|].
  apply steps_at. intros at_ Hat. apply by_steps_then_invalidate, steps_tx.
  intros t r t' _ Ht. by eapply rtc_once, ck_grandfather.
Qed.

Lemma steps_AdoptLegacy : steps dp cfg (AdoptLegacy dp).
Proof.
  apply steps_at. intros at_ Hat. apply by_steps_then_invalidate, steps_tx.
  intros t out t' _ Ht. by eapply rtc_once, ck_adopt.
Qed.
End Operations.

(** ** The limiter *)

Section Limits.
Context {W : Type} (dp : Deps W) (cfg : Config) (database : string) (b : Binding W).

Lemma steps_Granted f c : steps dp cfg (Granted dp f c).
Proof. eapply (steps_from_ok dp cfg), by_steps_granted. done. Qed.

Lemma steps_evidence f c : steps dp cfg (Evidence_ dp cfg f c).
Proof. eapply (steps_of dp cfg (fun _ => True)), by_steps_evidence. done. Qed.

Lemma steps_budget : steps dp cfg (budget b).
Proof. unfold budget. steps_tac. Qed.
Lemma steps_haState : steps dp cfg (haState dp cfg b).
Proof. unfold haState, now. steps_tac. Qed.
Lemma steps_concurrency req : steps dp cfg (concurrency cfg b req).
Proof. unfold concurrency. steps_tac. Qed.
Lemma steps_safety f : steps dp cfg (safety dp cfg f).
Proof.
  unfold safety, now. steps_tac. apply steps_read. by intros t l t' [= _ <-].
Qed.

Lemma steps_signals req f : steps dp cfg (requestDowngrades dp cfg b req f).
Proof.
  pose proof steps_budget. pose proof steps_haState. pose proof (steps_safety f).
  pose proof (steps_concurrency req).
  unfold requestDowngrades, selfDowngrades, databaseDowngrades, now. steps_tac.
Qed.

Lemma steps_transition f c downs : steps dp cfg (noteTransition dp f c downs).
Proof.
  unfold noteTransition, now. steps_tac. apply steps_note. by destruct (_ =s "").
Qed.

Lemma steps_supported f c : steps dp cfg (supportedLevel dp cfg f c).
Proof.
  unfold supportedLevel, now. pose proof (steps_evidence f c). steps_tac.
Qed.

Lemma steps_Limit ctx req : steps dp cfg (Limit dp cfg database b ctx req).
Proof.
  apply steps_bind; [|intros r; apply steps_ret]. unfold Limit_.
  destruct (checkDatabase _ _); [apply steps_ret|]. destruct (FamilyForRequest req) as [f c].
  pose proof (steps_Granted f c). pose proof (steps_supported f c).
  pose proof (steps_signals req f). pose proof (steps_transition f c).
  steps_tac; auto.
Qed.

Lemma steps_override ctx req d : steps dp cfg (RecordDeadlineOverride dp ctx req d).
Proof.
  unfold RecordDeadlineOverride. destruct (req_Deadline req) as [dl|]; [|apply steps_ret].
  cbv zeta. apply steps_bind.
  { unfold claimOverride. apply steps_bind; [apply steps_on_snd|]. intros at_. apply steps_still.
    intros [mem w]. unfold on_fst, tables. simpl. by destruct (_ !! _). }
  intros [key fresh]. destruct (negb fresh); [apply steps_ret|]. apply steps_bind.
  - unfold appendOverride. apply steps_ebind; [apply steps_Granted|]. intros st.
    apply steps_bind; [apply steps_on_snd|]. intros at_. by apply steps_note.
  - intros [u|e]; [apply steps_ret|by apply steps_still].
Qed.
End Limits.

(** ** The operations *)

(** The entry points of [Service] and [Limiter], with their arguments. *)
Inductive operation : Type :=
| do_PendingProposals
| do_Granted (f : Family) (c : ActionClass)
| do_Evidence (f : Family) (c : ActionClass)
| do_Evaluate
| do_Approve (id approver note : string)
| do_Reject (id actor note : string)
| do_Downgrade (r : DowngradeRequest)
| do_RecordOutcome (o : Outcome)
| do_RecordReview (r : Review)
| do_SeedCarriedOver (name : string) (bound : RuntimeState)
| do_SeedGrandfathered (name : string) (bound : RuntimeState)
| do_AdoptLegacy
| do_Limit (ctx : Ctx) (req : ActionRequest)
| do_RecordDeadlineOverride (ctx : Ctx) (req : ActionRequest) (d : Decision).

Definition discard {W A} (m : M W A) : M W unit := let! _ := m in ret tt.

Definition perform {W} (dp : Deps W) (cfg : Config) (database : string) (b : Binding W)
    (op : operation) : MS W unit :=
  match op with
  | do_PendingProposals => discard (PendingProposals dp)
  | do_Granted f c => discard (Granted dp f c)
  | do_Evidence f c => discard (Evidence_ dp cfg f c)
  | do_Evaluate => discard (Evaluate dp cfg)
  | do_Approve id approver note => discard (Approve dp cfg id approver note)
  | do_Reject id actor note => discard (Reject dp id actor note)
  | do_Downgrade r => discard (Downgrade dp r)
  | do_RecordOutcome o => discard (recordOutcome dp database o)
  | do_RecordReview r => discard (RecordReview dp database r)
  | do_SeedCarriedOver name bound => discard (SeedCarriedOver dp database name bound)
  | do_SeedGrandfathered name bound => discard (SeedGrandfathered dp database name bound)
  | do_AdoptLegacy => discard (AdoptLegacy dp)
  | do_Limit ctx req => discard (Limit dp cfg database b ctx req)
  | do_RecordDeadlineOverride ctx req d => discard (RecordDeadlineOverride dp ctx req d)
  end.

Lemma steps_perform {W} (dp : Deps W) cfg database b op :
  steps dp cfg (perform dp cfg database b op).
Proof.
  assert (Hd : forall A (m : MS W A), steps dp cfg m ->
    steps dp cfg (discard m)).
  { intros A m Hm. apply steps_bind; [exact Hm|]. intros a. apply steps_ret. }
  destruct op; cbn [perform]; apply Hd; auto using steps_pending, steps_Granted, steps_evidence,
    steps_Evaluate, steps_Approve, steps_Reject, steps_Downgrade, steps_recordOutcome,
    steps_RecordReview, steps_SeedCarriedOver, steps_SeedGrandfathered, steps_AdoptLegacy,
    steps_Limit, steps_override.
Qed.
