(* ===== verification/EarnedRuns.v ===== *)
(** * Earned autonomy: what holds of every run

    The properties of the ledger: what its operations, in any order and among
    any other sessions' transactions, can make of its tables. *)

From S2P Require Import Prelude.
From S2P Require Import GoStd.
From S2P Require Import PolicyTypes.
From S2P Require Import Samples.
From S2P Require Import Earned.
From S2P Require Import EarnedEvidence.
From S2P Require Import EarnedLedger.
From S2P Require Import EarnedService.
From S2P Require Import EarnedLimiter.
From S2P Require Import EarnedGate.
From S2P Require Import EarnedHistory.
From S2P Require Import EarnedOps.

(** ** Runs of operations *)

(** The operations in turn; the world moves by itself between them. *)
Fixpoint run {W} (dp : Deps W) (cfg : Config) (database : string) (b : Binding W)
    (between : W -> W) (ops : list operation) (mw : Mem * W) : Mem * W :=
  match ops with
  | [] => mw
  | op :: ops' =>
      let '(_, (mem, w)) := perform dp cfg database b op mw in
      run dp cfg database b between ops' (mem, between w)
  end.

Lemma run_steps {W} (dp : Deps W) cfg database b between ops : forall mw,
  ledger_ok (tables mw) ->
  rtc (checked dp cfg) (tables mw) (tables (run dp cfg database b between ops mw)).
Proof.
  induction ops as [|op ops IH]; intros mw Hok; [apply rtc_refl|]. cbn [run].
  destruct (steps_perform dp cfg database b op mw Hok I) as [Hs _].
  destruct (perform dp cfg database b op mw) as [u [mem w]]. simpl in Hs.
  etrans; [exact Hs|]. apply (IH (mem, between w)). by eapply rtc_checked_ok.
Qed.

(** C17: on any ledger the transactions reach, every run of the service's operations
    (reads, proposals, decisions, downgrades, outcomes, reviews, seeds, the limiter and
    its overrides), whatever the clock, the ids, the faults and the other sources do,
    is a sequence of transactions that each meet the checks owed to them: a proposal
    and an approval on evidence that the tables then hold over the safety window and
    that meets every requirement, an approval by a person of the stored pending
    proposal before it expires, a rejection of the stored proposal, a downgrade by
    request or after a recorded harmful outcome, a demotion after a recorded demerit, a
    review by a person or a named agent, a valid outcome. *)
Theorem operations_are_steps {W} (dp : Deps W) cfg database b between ops legacy mw :
  Forall (fun st => Grantable (ls_Level st) = true) legacy ->
  rtc (lstep (cf_Thresholds cfg)) (first_ledger legacy) (tables mw) ->
  rtc (checked dp cfg) (tables mw) (tables (run dp cfg database b between ops mw)).
Proof. intros Hleg Hr. apply run_steps. by apply (reachable_ok (cf_Thresholds cfg) legacy). Qed.

(** C16: the history explains every level: in any ledger the service's
    transactions reach, in any order and interleaving, replaying a pair's level
    changes from its default gives exactly its stored level, each change starting
    where the one before ended, and a level only ever rose because a person
    approved a pending proposal for one step up within the pair's cap, or because
    the pair's first entry carried over, grandfathered or adopted a level. *)
Theorem levels_rise_by_approval th legacy t :
  Forall (fun st => Grantable (ls_Level st) = true) legacy ->
  rtc (lstep th) (first_ledger legacy) t ->
  (forall f c, replay (lg_Events t) f c = Some (level_of t f c)) /\
  forall pre e post, lg_Events t = pre ++ e :: post ->
    str_in (e_Type e) level_types = true -> rises e ->
    (humanActor (e_Actor e) = true /\ exists p, p ∈ lg_Proposals t /\ pr_ID p = e_ProposalID e /\
       pr_Status p = StatusApproved /\ pr_DecidedBy p = e_Actor e /\
       e_From e = Some (pr_From p) /\ e_To e = Some (pr_From p + 1) /\
       pr_From p + 1 <= CapForPair (e_Family e) (e_Class e)) \/
    (e_Type e ∈ seed_types /\ List.filter (change_of (e_Family e) (e_Class e)) pre = []).
Proof.
  intros Hleg Hr. destruct (reachable_ok th legacy t Hleg Hr) as [_ _ Hps Hhi Hra].
  split; [apply Hhi|]. intros pre e post Hsp Hty Hri.
  destruct (Hra pre e post Hsp Hty Hri) as [(_ & Hh & p & Hp & ? & Hpair & Hf & Ht & ? & ?)|?];
    [left|by right]. split; [done|]. exists p.
  pose proof (ps_each t Hps) as Hok. rewrite Forall_forall in Hok. destruct (Hok p Hp) as [Hs _ Hcap _].
  rewrite <- Hs. injection Hpair as <- <-. by split_and!.
Qed.

(** C39: every ledger the service reaches is well typed: a row is stored under its
    own pair at a level from L0 to L3 with a positive version and a known
    provenance; a proposal is for one level up to a grantable level within the
    pair's cap, is pending exactly while nobody decided it, has an id of its own,
    and is the only pending one of its pair. *)
Theorem ledger_well_typed th legacy t :
  Forall (fun st => Grantable (ls_Level st) = true) legacy ->
  rtc (lstep th) (first_ledger legacy) t ->
  map_Forall row_ok (lg_Levels t) /\ proposals_ok t.
Proof.
  intros Hleg Hr. destruct (reachable_ok th legacy t Hleg Hr) as [Hrows _ Hps _ _]. by split.
Qed.

(** ** A concrete run: three verified successes, a proposal, an approval *)

Definition sample_success (id : Z) : Outcome :=
  {| o_Database := "app"; o_ActionLogID := id; o_Family := FamilyTuning;
     o_Class := ClassIndexCreate; o_Level := L1; o_Result := ResultVerifiedRecovery;
     o_Source := "executor"; o_Actor := ActorPgSage; o_Detail := ""; o_At := 0;
     o_Verdict := "improved"; o_ObservedAt := None; o_QueueID := 0 |}.

Definition sample_operations : list operation :=
  [do_RecordOutcome (sample_success 1); do_RecordOutcome (sample_success 2);
   do_RecordOutcome (sample_success 3); do_Evaluate;
   do_Approve "00000000-0000-4000-8000-000000000001" "user:1:alice" ""].

Definition sample_run : Mem * unit :=
  run sample_deps DefaultConfig "app" sample_binding id sample_operations (mem_of empty_ledger, tt).

Lemma sample_run_reachable :
  rtc (lstep DefaultThresholds) (first_ledger []) (tables sample_run).
Proof.
  apply (checked_lsteps sample_deps DefaultConfig).
  apply (run_steps sample_deps DefaultConfig "app" sample_binding id sample_operations
           (mem_of empty_ledger, tt)).
  by apply first_ledger_ok.
Qed.

Lemma operations_are_steps_witness :
  rtc (checked sample_deps DefaultConfig) (first_ledger []) (tables sample_run) /\
  level_of (tables sample_run) FamilyTuning ClassIndexCreate = L2.
Proof.
  split; [|by vm_compute].
  refine (operations_are_steps sample_deps DefaultConfig "app" sample_binding id sample_operations
            [] (mem_of empty_ledger, tt) _ _); [by constructor|apply rtc_refl].
Defined.

Lemma levels_rise_by_approval_witness :
  (exists pre e, lg_Events (tables sample_run) = pre ++ [e] /\ rises e /\
     e_Actor e = "user:1:alice" /\ e_Type e = EventPromotionApproved) /\
  forall f c, replay (lg_Events (tables sample_run)) f c = Some (level_of (tables sample_run) f c).
Proof.
  split.
  - exists (take 1 (lg_Events (tables sample_run))), (default (event "" "" "" 0 0 "" "" "" 0)
      (lg_Events (tables sample_run) !! 1%nat)).
    split_and!; [by vm_compute| |by vm_compute..]. exists 1, 2. by vm_compute.
  - refine (proj1 (levels_rise_by_approval DefaultThresholds [] (tables sample_run) _
                     sample_run_reachable)). by constructor.
Defined.

Lemma ledger_well_typed_witness :
  map pr_Status (lg_Proposals (tables sample_run)) = [StatusApproved] /\
  map_Forall row_ok (lg_Levels (tables sample_run)) /\ proposals_ok (tables sample_run).
Proof.
  split; [by vm_compute|].
  refine (ledger_well_typed DefaultThresholds [] (tables sample_run) _ sample_run_reachable).
  by constructor.
Defined.

(** ** A composite class *)

(** A world that numbers the proposals. *)
Definition counting_deps : Deps nat :=
  {| dp_now := ret sample_now;
     dp_newID := fun n => ("00000000-0000-4000-8000-00000000000" +:+ itoa (Z.of_nat n), S n);
     dp_fault := ret None; dp_shadow := ret []; dp_bench := ret (fun _ => None);
     dp_gameDays := ret (fun _ => []);
     dp_ramp := ret (Some {| rf_Start := 1; rf_Safe := 0; rf_Moderate := 0 |}) |}.

Definition replace_success (id : Z) : Outcome :=
  {| o_Database := "app"; o_ActionLogID := id; o_Family := FamilyTuning;
     o_Class := ClassIndexReplace; o_Level := L1; o_Result := ResultVerifiedRecovery;
     o_Source := "executor"; o_Actor := ActorPgSage; o_Detail := ""; o_At := 0;
     o_Verdict := "improved"; o_ObservedAt := None; o_QueueID := 0 |}.

Definition replace_run : Mem * nat :=
  run counting_deps DefaultConfig "app"
    {| bd_Database := "app"; bd_Budget := None; bd_HA := None; bd_Concurrency := None |} id
    [do_RecordOutcome (replace_success 1); do_RecordOutcome (replace_success 2);
     do_RecordOutcome (replace_success 3); do_Evaluate;
     do_Approve "00000000-0000-4000-8000-000000000000" "user:1:alice" ""; do_Evaluate]
    (mem_of empty_ledger, O).

(** A proposal starts at the level [Granted] answers, which components hold
    down, and its approval compares the stored level: once a person approved an
    index replacement to L2 while its components are at L1, the next evaluation
    proposes L1 to L2 again, and nobody can approve that proposal. *)
Lemma composite_proposal_conflicts :
  map (fun p => (pr_ID p, pr_Status p, pr_From p)) (lg_Proposals (tables replace_run)) =
    [("00000000-0000-4000-8000-000000000000", StatusApproved, L1);
     ("00000000-0000-4000-8000-000000000001", StatusPending, L1)] /\
  level_of (tables replace_run) FamilyTuning ClassIndexReplace = L2 /\
  value_at (Approve counting_deps DefaultConfig "00000000-0000-4000-8000-000000000001"
              "user:1:alice" "") replace_run =
    inr (Conflict "the level moved since the proposal").
Proof. by vm_compute. Qed.
