(* ===== verification/EarnedDemote.v ===== *)
(** * Earned autonomy: what a harmful outcome takes away

    Total correctness of recording an outcome that speaks against an incident
    family: without faults it succeeds, the outcome is kept, and no class of the
    family stays above L1 on a level the ledger granted. *)

From S2P Require Import Prelude.
From S2P Require Import GoStd.
From S2P Require Import PolicyTypes.
From S2P Require Import Samples.
From S2P Require Import Earned.
From S2P Require Import EarnedEvidence.
From S2P Require Import EarnedLedger.
From S2P Require Import EarnedService.
From S2P Require Import EarnedGate.
From S2P Require Import EarnedHistory.
From S2P Require Import EarnedOps.
From S2P Require Import EarnedRuns.

(** ** Total triples *)

Section Total.
Context {W : Type}.

(** From tables that satisfy [P], [m] answers and leaves [Q]. *)
Definition total (P : Ledger -> Prop) {A} (m : MS W A) (Q : A -> Ledger -> Prop) : Prop :=
  forall mw, P (tables mw) -> Q (fst (m mw)) (tables (snd (m mw))).

(** ... and the answer is not an error. *)
Definition succeeds (P : Ledger -> Prop) {A} (m : MS W (A + LedgerError))
    (Q : A -> Ledger -> Prop) : Prop :=
  total P m (fun r t => exists a, r = inl a /\ Q a t).

Lemma total_ret P {A} (a : A) (Q : A -> Ledger -> Prop) :
  (forall t, P t -> Q a t) -> total P (ret a) Q.
Proof. intros HQ mw HP. by apply HQ. Qed.

Lemma total_bind P {A B} (m : MS W A) (k : A -> MS W B) R Q :
  total P m R -> (forall a, total (R a) (k a) Q) -> total P (bind m k) Q.
Proof.
  intros Hm Hk mw HP. specialize (Hm mw HP). unfold bind. destruct (m mw) as [a mw1].
  by apply Hk.
Qed.

Lemma total_on_snd P {A} (m : M W A) :
  total P (on_snd m) (fun a t => P t /\ returns m a).
Proof.
  intros [mem w] HP. unfold on_snd, tables in *. simpl in *. destruct (m w) as [a w'] eqn:E.
  split; [exact HP|]. exists w. unfold value_at. by rewrite E.
Qed.

Lemma total_invalidate P {A} (m : MS W A) Q : total P m Q -> total P (then_invalidate m) Q.
Proof.
  intros Hm. eapply total_bind; [exact Hm|]. intros a. eapply (total_bind _ _ _ (fun _ => Q a)).
  - by intros mw HP.
  - intros u. by apply total_ret.
Qed.

(** Without faults, a transaction that goes through does. *)
Lemma total_tx dp P {A} (m : Tx A) Q :
  (forall fault, returns (dp_fault dp) fault -> fault = None) ->
  (forall t, P t -> exists a t', m t = inl (a, t') /\ Q a t') ->
  succeeds P (run_tx dp m) Q.
Proof.
  intros Hf Hm. unfold run_tx. eapply total_bind; [apply total_on_snd|].
  intros fault mw [HP ->%Hf]. destruct (Hm _ HP) as (a & t' & Ht & HQ).
  unfold on_fst, tables in *. destruct mw as [mem w]. simpl in *. rewrite Ht. simpl. eauto.
Qed.

Lemma total_retry P {A} (m : MS W (A + LedgerError)) (Q : A -> Ledger -> Prop) :
  succeeds P m Q -> succeeds P (retry_conflict m) Q.
Proof.
  intros Hm. eapply total_bind; [exact Hm|]. intros [a|e]; [by apply total_ret|].
  by intros mw (a & ? & _).
Qed.
End Total.

(** ** Lowering a family *)

(** The pair has no level above L1 that the ledger granted. *)
Definition held (t : Ledger) (f : Family) (c : ActionClass) : Prop :=
  forall st, lg_Levels t !! (f, c) = Some st ->
  ls_Provenance st = ProvenanceCarriedOver \/ ls_Level st <= L1.

(** Demoting keeps what is held, and the recorded outcomes. *)
Definition demotes (t t' : Ledger) : Prop :=
  ledger_ok t' /\ lg_Outcomes t' = lg_Outcomes t /\ forall f c, held t f c -> held t' f c.

Lemma writeLevel_total ch t :
  ledger_ok t ->
  lc_ExpectVersion ch = match lg_Levels t !! (lc_Family ch, lc_Class ch) with
                        | Some st => ls_Version st | None => 0 end ->
  exists v, writeLevel ch t = inl (changed_state ch v, put (changed_state ch v) t).
Proof.
  intros Hok Hv. cbv [writeLevel readLevel tx_bind tx_get tx_ret].
  destruct (lg_Levels t !! _) as [st|] eqn:E; rewrite Hv; [|by exists 1].
  pose proof (ro_version _ _ (ok_rows t Hok _ _ E)) as Hpos.
  rewrite Z.eqb_refl. destruct (Z.eqb_spec (ls_Version st) 0); [lia|]. simpl. eauto.
Qed.

Lemma lowerOne_total f c reason now t :
  ledger_ok t -> exists out t',
    lowerOne f c L1 ActorPgSage reason EventAutoDowngraded now t = inl (out, t') /\
    demotes t t' /\ held t' f c.
Proof.
  intros Hok.
  destruct (lowerOne f c L1 ActorPgSage reason EventAutoDowngraded now t) as [[out t']|e] eqn:E.
  - exists out, t'. split; [done|].
    assert (Hok' : ledger_ok t').
    { eapply lowerOne_keeps; [| |exact E|exact Hok]; [done|]. rewrite !elem_of_cons. tauto. }
    unfold lowerOne in E. tx_inv E.
    destruct (_ || _) eqn:Ec; tx_inv E.
    + split; [done|]. intros st Hst. rewrite Hst in Ec.
      apply orb_true_iff in Ec as [Hle%Z.leb_le|[Hc%eqb_str _]%andb_true_iff]; auto.
    + match goal with H : writeLevel _ _ = _ |- _ => apply writeLevel_inl in H as (-> & v & -> & _) end.
      match goal with H : closePending _ _ _ _ _ _ _ = _ |- _ =>
        apply update_proposals_inl in H as [-> _] end.
      split; [split; [done|split; [done|]]|].
      * intros f' c' Hh st. simpl. destruct (decide ((f, c) = (f', c'))) as [<-|Hne].
        -- rewrite lookup_insert_eq. intros [= <-]. by right.
        -- rewrite lookup_insert_ne by done. apply Hh.
      * intros st. simpl. rewrite lookup_insert_eq. intros [= <-]. by right.
  - exfalso. cbv [lowerOne readLevel tx_bind tx_get tx_ret] in E.
    destruct (_ || _); [done|].
    match type of E with context [writeLevel ?ch t] =>
      destruct (writeLevel_total ch t Hok eq_refl) as [v Hw]; rewrite Hw in E end. done.
Qed.

Lemma lowerTx_total f classes reason now : forall t,
  ledger_ok t -> exists out t',
    lowerTx f classes L1 ActorPgSage reason EventAutoDowngraded now t = inl (out, t') /\
    demotes t t' /\ forall c, c ∈ classes -> held t' f c.
Proof.
  unfold lowerTx. induction classes as [|c classes IH]; intros t Hok.
  - exists [], t. split_and!; [done..|]. by intros c Hc%elem_of_nil.
  - destruct (lowerOne_total f c reason now t Hok) as (out & t1 & H1 & (Hok1 & Ho1 & Hk1) & Hh1).
    destruct (IH t1 Hok1) as (outs & t2 & H2 & (Hok2 & Ho2 & Hk2) & Hh2).
    eexists _, t2. cbn [tx_collect]. unfold tx_bind. rewrite H1, H2. split; [reflexivity|].
    split; [split; [done|split; [congruence|auto]]|].
    intros c' [->|Hc']%elem_of_cons; auto.
Qed.

(** ** Recording *)

(** No outcome of its action from its source, or of its queue item, is known. *)
Definition unrecorded (t : Ledger) (o : Outcome) : Prop := forall q, q ∈ lg_Outcomes t ->
  (o_ActionLogID o = 0 \/ o_ActionLogID q <> o_ActionLogID o \/ o_Source q <> o_Source o) /\
  (o_QueueID o = 0 \/ o_QueueID q <> o_QueueID o).

Lemma insertOutcome_total database o t :
  o_Database o = database -> unrecorded t o ->
  insertOutcome database o t = inl (true, set_Outcomes (lg_Outcomes t ++ [o]) t).
Proof.
  intros Hdb Hnew. unfold insertOutcome. rewrite Hdb, eqb_str_refl. simpl.
  unfold tx_bind, tx_get. destruct (existsb _ _) eqn:E; [|done]. exfalso.
  apply List.existsb_exists in E as (q & Hq%list_elem_of_In & E). destruct (Hnew q Hq) as [Ha Hi].
  apply orb_true_iff in E as [[[H1%negb_true_iff%Z.eqb_neq H2%Z.eqb_eq]%andb_true_iff
    H3%eqb_str]%andb_true_iff|[H1%negb_true_iff%Z.eqb_neq H2%Z.eqb_eq]%andb_true_iff]; intuition.
Qed.

(** Demoting a family leaves its classes held, and what was recorded. *)
Lemma demoteFamily_total {W} (dp : Deps W) o (R : list Outcome -> Prop) :
  (forall fault, returns (dp_fault dp) fault -> fault = None) ->
  succeeds (fun t => ledger_ok t /\ R (lg_Outcomes t)) (demoteFamily dp o)
    (fun _ t => R (lg_Outcomes t) /\
       forall c, Applicable (o_Family o) c = true -> held t (o_Family o) c).
Proof.
  intros Hf. unfold demoteFamily, ebind. eapply total_bind.
  - apply total_retry. unfold lower. eapply total_bind; [apply total_on_snd|]. intros at_.
    apply total_invalidate, (total_tx dp _ _ (fun _ t => R (lg_Outcomes t) /\
      forall c, Applicable (o_Family o) c = true -> held t (o_Family o) c)); [exact Hf|].
    intros t [[Hok HR] _].
    match goal with |- context [lowerTx _ _ _ _ ?reason _ _ _] =>
      destruct (lowerTx_total (o_Family o) (ApplicableClasses (o_Family o)) reason at_ t Hok)
        as (out & t' & Hlow & (_ & Hos & _) & Hh) end.
    exists out, t'. split; [exact Hlow|]. split; [by rewrite Hos|].
    intros c Hc. apply Hh. by apply str_in_spec.
  - intros r mw (out & -> & Hpost). exists tt. by split.
Qed.

Definition known_at (at_ : Time) (o : Outcome) (os : list Outcome) : Prop :=
  recorded_at at_ o ∈ os.

Lemma record_total {W} (dp : Deps W) o at_ :
  (forall fault, returns (dp_fault dp) fault -> fault = None) ->
  succeeds (fun t => (ledger_ok t /\ unrecorded t o) /\ returns (dp_now dp) at_)
    (then_invalidate (run_tx dp (insertOutcome (o_Database o) (recorded_at at_ o))))
    (fun inserted t => inserted = true /\ returns (dp_now dp) at_ /\ ledger_ok t /\
                       known_at at_ o (lg_Outcomes t)).
Proof.
  intros Hf. apply total_invalidate, total_tx; [exact Hf|]. intros t [[Hok Hnew] Hat].
  pose proof (insertOutcome_total (o_Database o) (recorded_at at_ o) t eq_refl Hnew) as Hins.
  exists true. eexists. split; [exact Hins|]. split_and!; [done|done|by eapply insertOutcome_keeps|].
  simpl. apply elem_of_app. right. by apply list_elem_of_singleton.
Qed.

Lemma harmful_cause at_ o :
  harmful_result o = true -> IsSelfInitiated (o_Family o) = false ->
  demeritCause (recorded_at at_ o) = None.
Proof.
  intros Hharm Hself. unfold demeritCause. simpl. rewrite Hself. simpl.
  unfold harmful_result in Hharm. by apply orb_true_iff in Hharm as [->%eqb_str| ->%eqb_str].
Qed.

(** A harmful outcome of an incident family costs the whole family its
    autonomy.  Without a database fault, recording a valid new harmful outcome or
    safety violation succeeds, keeps the outcome with its time, and leaves no
    class of the family above L1 on a level the ledger granted (only what was
    carried over from the policy before it stays). *)
Theorem harmful_outcome_demotes {W} (dp : Deps W) o (mw : Mem * W) :
  (forall fault, returns (dp_fault dp) fault -> fault = None) ->
  ledger_ok (tables mw) -> validateOutcome o = None -> unrecorded (tables mw) o ->
  harmful_result o = true -> IsSelfInitiated (o_Family o) = false ->
  let after := snd (recordOutcome dp (o_Database o) o mw) in
  value_at (recordOutcome dp (o_Database o) o) mw = (true, None) /\
  (exists at_, returns (dp_now dp) at_ /\ recorded_at at_ o ∈ lg_Outcomes (tables after)) /\
  forall c, Applicable (o_Family o) c = true -> held (tables after) (o_Family o) c.
Proof.
  intros Hf Hok Hvalid Hnew Hharm Hself.
  cut (total (fun t => ledger_ok t /\ unrecorded t o) (recordOutcome dp (o_Database o) o)
    (fun r t => r = (true, None) /\
      (exists at_, returns (dp_now dp) at_ /\ recorded_at at_ o ∈ lg_Outcomes t) /\
      forall c, Applicable (o_Family o) c = true -> held t (o_Family o) c)).
  { intros Ht. by destruct (Ht mw (conj Hok Hnew)) as (? & ? & ?). }
  unfold recordOutcome. rewrite Hvalid. eapply total_bind; [apply total_on_snd|].
  intros at_. cbv zeta. eapply total_bind; [by apply record_total|].
  intros [[]|e] mw' (b & Hb & -> & Hat & Hok' & Hin); try discriminate Hb.
  rewrite (harmful_cause at_ o Hharm Hself).
  replace (harmful_result (recorded_at at_ o)) with true by done. cbn [negb].
  revert mw' Hok' Hin.
  enough (Hd : total (fun t => ledger_ok t /\ known_at at_ o (lg_Outcomes t))
    (let! d := demoteFamily dp (recorded_at at_ o) in
     ret (true, match d with inl _ => None | inr e => Some e end))
    (fun r t => r = (true, None) /\
      (exists at_, returns (dp_now dp) at_ /\ recorded_at at_ o ∈ lg_Outcomes t) /\
      forall c, Applicable (o_Family o) c = true -> held t (o_Family o) c))
    by (intros mw' Hok' Hin; by apply (Hd mw')).
  eapply total_bind; [by apply demoteFamily_total|].
  intros d. apply total_ret. intros t (u & -> & Hin & Hh). split_and!; [done| |exact Hh].
  by exists at_.
Qed.

(** A deployment-wide L3 on cancelling blockers, adopted, then harm. *)
Definition adopted_mem : Mem * unit :=
  run sample_deps DefaultConfig "app" sample_binding id [do_AdoptLegacy]
    (mem_of (first_ledger [seeded_state FamilyLockBlocking ClassBackendCancel L3 "proved" 1
                             ProvenanceLedger ""]), tt).

Definition harmful_cancel : Outcome :=
  {| o_Database := "app"; o_ActionLogID := 7; o_Family := FamilyLockBlocking;
     o_Class := ClassBackendCancel; o_Level := L3; o_Result := ResultHarmful;
     o_Source := "executor"; o_Actor := ActorPgSage; o_Detail := ""; o_At := 0;
     o_Verdict := ""; o_ObservedAt := None; o_QueueID := 0 |}.

Lemma adopted_ok : ledger_ok (tables adopted_mem).
Proof.
  eapply rtc_checked_ok; [apply run_steps|]; apply first_ledger_ok; by repeat constructor.
Qed.

Lemma harmful_outcome_demotes_witness :
  level_of (tables adopted_mem) FamilyLockBlocking ClassBackendCancel = L3 /\
  level_of (tables (snd (recordOutcome sample_deps "app" harmful_cancel adopted_mem)))
    FamilyLockBlocking ClassBackendCancel = L1 /\
  value_at (recordOutcome sample_deps "app" harmful_cancel) adopted_mem = (true, None).
Proof.
  split_and!; [by vm_compute|by vm_compute|].
  refine (proj1 (harmful_outcome_demotes sample_deps harmful_cancel adopted_mem _ _ _ _ _ _));
    [|..|by vm_compute|by vm_compute].
  - by intros fault [w <-].
  - exact adopted_ok.
  - by vm_compute.
  - intros q Hq. vm_compute in Hq. by apply elem_of_nil in Hq.
Defined.
