(* ===== verification/AuditChain.v ===== *)
(** * The audit hash chain: links and writers

    internal/auditchain: spec.go (the chained tables), link.go (a link and its
    hash, reading links) and the database functions of install.go, which append
    a link for every committed change of a chained table.

    The tables of one chain are one record: the links in the order of their
    primary key, the chained table by row id, and the install boundary.  A row's
    sealed and state columns are the canonical texts the SQL expressions of its
    [Spec] give ([sealedSQL], [stateSQL]).  The triggers are deferred, so a
    committed change and its link are one step; the install DDL itself is not
    modelled. *)

From S2P Require Import Prelude.
From S2P Require Import GoStd.
From S2P Require Import Sha256.
From Stdlib Require Import Sorted.

(** ** Chained tables: spec.go *)

Record Spec : Type := {
  sp_Chain : string;
  sp_Table : string;
  sp_Version : Z;
  sp_Sealed : list string;
  sp_State : list string;
  sp_Optional : bool;
}.

(** [chainName]: a lower-case letter, then at most [n] of them, digits and "_". *)
Definition name_char (c : ascii) : bool := is_lower c || is_digit c || char_eqb c "_"%char.
Definition short_name (n : nat) (s : string) : bool :=
  match str_chars s with
  | [] => false
  | c :: rest => is_lower c && forallb name_char rest && Nat.leb (length rest) n
  end.
Definition chainName (s : string) : bool := short_name 40 s.
Definition tableName (s : string) : bool :=
  HasPrefix s "sage." && short_name 50 (drop_chars 5 s).

Definition validate (s : Spec) : option error :=
  if negb (chainName (sp_Chain s))
  then Some ("auditchain: spec chain " +:+ quote (sp_Chain s) +:+
             " is not a lower-case identifier") else
  if negb (tableName (sp_Table s))
  then Some ("auditchain: spec " +:+ sp_Chain s +:+ " table " +:+ quote (sp_Table s) +:+
             " is not sage.<name>") else
  if sp_Version s <? 1
  then Some ("auditchain: spec " +:+ sp_Chain s +:+ " version must be positive") else
  match sp_Sealed s with
  | [] => Some ("auditchain: spec " +:+ sp_Chain s +:+ " has no sealed columns")
  | _ => None
  end.

Definition epochUS (col : string) : string :=
  "(extract(epoch FROM %[1]s." +:+ col +:+ ") * 1000000)::bigint".
Definition col (name : string) : string := "%[1]s." +:+ name.

Definition ActionLog : Spec :=
  {| sp_Chain := "action_log"; sp_Table := "sage.action_log"; sp_Version := 1;
     sp_Sealed := [col "id"; epochUS "executed_at"; col "action_type"; col "finding_id";
                   col "sql_executed"; col "rollback_sql"; col "before_state";
                   col "approved_by"; epochUS "approved_at"; col "decision_id";
                   col "database_id"];
     sp_State := [col "outcome"; col "rollback_reason"; epochUS "measured_at";
                  col "after_state"; col "verification_id"; col "justification";
                  col "toil_minutes_saved"; col "toil_model_version"];
     sp_Optional := false |}.

Definition AuthAudit : Spec :=
  {| sp_Chain := "auth_audit"; sp_Table := "sage.auth_audit"; sp_Version := 1;
     sp_Sealed := [col "id"; col "event"; col "actor_user_id"; col "target_user_id";
                   col "detail"; epochUS "created_at"; col "source_ip"];
     sp_State := []; sp_Optional := false |}.

Definition ConfigAudit : Spec :=
  {| sp_Chain := "config_audit"; sp_Table := "sage.config_audit"; sp_Version := 1;
     sp_Sealed := [col "id"; col "key"; col "old_value"; col "new_value"; col "database_id";
                   col "changed_by"; epochUS "changed_at"; col "changed_by_actor"];
     sp_State := []; sp_Optional := false |}.

Definition GuardQueryAudit : Spec :=
  {| sp_Chain := "guard_query_audit"; sp_Table := "sage.guard_query_audit"; sp_Version := 1;
     sp_Sealed := [col "id"; col "database_id" +:+ "::text"; col "principal_id";
                   col "task_id"; col "envelope_hash"; col "verdict"; col "reason";
                   col "row_count"; col "classes"; epochUS "at"];
     sp_State := []; sp_Optional := true |}.

Definition PGAuditEvents : Spec :=
  {| sp_Chain := "pgaudit_events"; sp_Table := "sage.guard_pgaudit_events"; sp_Version := 1;
     sp_Sealed := [col "id"; col "database_name"; epochUS "logged_at"; col "session_id";
                   col "pid"; col "db_user"; col "application"; col "principal_id";
                   col "action_id"; col "audit_type"; col "statement_id";
                   col "substatement_id"; col "class"; col "command"; col "object_type";
                   col "object_name"; col "statement"; col "correlated_by"];
     sp_State := []; sp_Optional := false |}.

Definition Specs : list Spec :=
  [ActionLog; AuthAudit; ConfigAudit; GuardQueryAudit; PGAuditEvents].

Definition SpecFor (chain : string) : option Spec :=
  List.find (fun s => sp_Chain s =s chain) Specs.

(** ** Links: link.go *)

Definition Genesis : string := Eval vm_compute in zeros 64.

Record Link : Type := {
  lk_Seq : Z;
  lk_RowID : Z;
  lk_Op : string;
  lk_V : Z;
  lk_SealedHash : string;
  lk_State : string;
  lk_PrevHash : string;
  lk_Hash : string;
  lk_At : Time;
  lk_DBUser : string;
  lk_App : string;
}.

(** What a link hashes. *)
Definition preimage (l : Link) : string :=
  Join [lk_PrevHash l; itoa (lk_Seq l); lk_Op l; itoa (lk_RowID l); itoa (lk_V l);
        lk_SealedHash l; lk_State l] "|".

Definition sha_hex (s : string) : string := hex_encode (Sum256 s).

Definition LinkHash (l : Link) : string := sha_hex (preimage l).

(** ** The tables *)

Record Row : Type := {
  rw_Sealed : string;
  rw_State : string;
  rw_ChainSeq : option Z;
  rw_ChainPrev : option string;
  rw_ChainHash : option string;
}.

(** [db_Boundary]: legacy_max_id of audit_chain_meta, once installed. *)
Record ChainDB : Type := {
  db_Links : list Link;
  db_Rows : gmap Z Row;
  db_Boundary : option Z;
}.

(** [sealedHashSQL] and [stateSQL] of a row. *)
Definition sealed_hash (r : Row) : string := sha_hex (rw_Sealed r).
Definition state_text (s : Spec) (r : Row) : string :=
  match sp_State s with [] => "" | _ => rw_State r end.

(** The primary key: positions are distinct, and the index lists them upwards. *)
Definition by_seq (l m : Link) : Prop := lk_Seq l < lk_Seq m.
Definition keyed (db : ChainDB) : Prop := StronglySorted by_seq (db_Links db).

(** [Head]: position and hash of the last link, 0 and "" without one. *)
Definition Head (db : ChainDB) : Z * string :=
  match last (db_Links db) with Some l => (lk_Seq l, lk_Hash l) | None => (0, "") end.

Definition in_range (from to : Z) (l : Link) : bool := (from <=? lk_Seq l) && (lk_Seq l <=? to).

Definition LinksInRange (db : ChainDB) (from to : Z) (limit : nat) : list Link :=
  take limit (List.filter (in_range from to) (db_Links db)).

Definition LinksForRow (db : ChainDB) (rowID : Z) : list Link :=
  List.filter (fun l => lk_RowID l =? rowID) (db_Links db).

(** ** Writing: the functions of install.go *)

(** sage.audit_chain_append *)
Definition audit_chain_append (db : ChainDB) (row : Z) (op : string) (v : Z)
    (sealed state : string) (at_ : Time) (user app : string) : Link * ChainDB :=
  let '(seq, prev) := match last (db_Links db) with
                      | Some l => (lk_Seq l, lk_Hash l)
                      | None => (0, Genesis)
                      end in
  let l h := {| lk_Seq := seq + 1; lk_RowID := row; lk_Op := op; lk_V := v;
                lk_SealedHash := sealed; lk_State := state; lk_PrevHash := prev;
                lk_Hash := h; lk_At := at_; lk_DBUser := user; lk_App := app |} in
  let link := l (LinkHash (l "")) in
  (link, {| db_Links := db_Links db ++ [link]; db_Rows := db_Rows db;
            db_Boundary := db_Boundary db |}).

Definition with_rows (rows : gmap Z Row) (db : ChainDB) : ChainDB :=
  {| db_Links := db_Links db; db_Rows := rows; db_Boundary := db_Boundary db |}.

(** Who commits, and when. *)
Record Session : Type := { ss_At : Time; ss_User : string; ss_App : string }.

Section Writers.
Context (s : Spec) (ss : Session).

(** The row trigger for an event of operation [op] on row [id], [r] being NEW,
    or OLD of a delete. *)
Definition audit_chain_link (op : string) (id : Z) (r : Row) (db : ChainDB) : ChainDB :=
  let state := if op =s "D" then "" else state_text s r in
  let '(l, db) := audit_chain_append db id op (sp_Version s) (sealed_hash r) state
                    (ss_At ss) (ss_User ss) (ss_App ss) in
  if op =s "I"
  then with_rows (alter (fun r => {| rw_Sealed := rw_Sealed r; rw_State := rw_State r;
         rw_ChainSeq := Some (lk_Seq l); rw_ChainPrev := Some (lk_PrevHash l);
         rw_ChainHash := Some (lk_Hash l) |}) id (db_Rows db)) db
  else db.

(** Committed changes of the chained table, each with its trigger. *)
Definition insert_row (id : Z) (sealed state : string) (db : ChainDB) : ChainDB :=
  let r := {| rw_Sealed := sealed; rw_State := state; rw_ChainSeq := None;
              rw_ChainPrev := None; rw_ChainHash := None |} in
  audit_chain_link "I" id r (with_rows (<[id := r]> (db_Rows db)) db).

(** The update trigger fires WHEN the state text changes. *)
Definition update_state (id : Z) (state : string) (db : ChainDB) : ChainDB :=
  match db_Rows db !! id with
  | None => db
  | Some old =>
      let new := {| rw_Sealed := rw_Sealed old; rw_State := state;
                    rw_ChainSeq := rw_ChainSeq old; rw_ChainPrev := rw_ChainPrev old;
                    rw_ChainHash := rw_ChainHash old |} in
      let db := with_rows (<[id := new]> (db_Rows db)) db in
      if state_text s old =s state_text s new then db else audit_chain_link "U" id new db
  end.

Definition delete_row (id : Z) (db : ChainDB) : ChainDB :=
  match db_Rows db !! id with
  | None => db
  | Some old => audit_chain_link "D" id old (with_rows (delete id (db_Rows db)) db)
  end.

(** sage.audit_chain_truncate *)
Definition truncate_rows (db : ChainDB) : ChainDB :=
  with_rows ∅ (audit_chain_append db 0 "T" 1 "" "" (ss_At ss) (ss_User ss) (ss_App ss)).2.
End Writers.

(** A committed change by any session.  Ids come from the table's sequence, so
    an insert's is new: above the boundary and in no link. *)
Inductive commit (s : Spec) : ChainDB -> ChainDB -> Prop :=
| commit_insert ss id sealed state db legacy :
    db_Boundary db = Some legacy -> legacy < id -> 0 < id ->
    db_Rows db !! id = None -> LinksForRow db id = [] ->
    commit s db (insert_row s ss id sealed state db)
| commit_update ss id state db : commit s db (update_state s ss id state db)
| commit_delete ss id db : commit s db (delete_row s ss id db)
| commit_truncate ss db : commit s db (truncate_rows ss db).

(** A chain just installed over a table with older rows. *)
Definition installed (db : ChainDB) : Prop :=
  db_Links db = [] /\ exists legacy, db_Boundary db = Some legacy /\ 0 <= legacy <= max_int64 /\
    map_Forall (fun id _ => 0 < id <= legacy) (db_Rows db).
