(* ===== verification/AuditVerify.v ===== *)
(** * The audit hash chain: the verifier

    internal/auditchain: verify.go and rows.go.

    Every query reads the tables as they are when it runs: [query] answers the
    committed tables of that moment, or the driver's error, so the rows may
    change between one query and the next.  Problems keep their kind, position
    and row; their texts are not modelled.  A Go map is ranged over in the order
    [range] gives. *)

From stdpp Require Import sorting.
From S2P Require Import Prelude.
From S2P Require Import GoStd.
From S2P Require Import AuditChain.

(** ** Reports *)

Definition MaxProblems : nat := 100.
Definition linkBatch : nat := 2000.
Definition rowBatch : nat := 500.

Definition KindGap : string := "gap".
Definition KindPrevMismatch : string := "prev_mismatch".
Definition KindHashMismatch : string := "hash_mismatch".
Definition KindRowMissing : string := "row_missing".
Definition KindRowEdited : string := "row_edited".
Definition KindStateEdited : string := "state_edited".
Definition KindRowLinkMismatch : string := "row_link_mismatch".
Definition KindUnchainedRow : string := "unchained_row".

Definition ErrNotInstalled : error := "auditchain: chain not installed".

Record Window : Type := { wn_FromSeq : Z; wn_ToSeq : Z }.

(** [Window{}]: the whole chain. *)
Definition full : Window := {| wn_FromSeq := 0; wn_ToSeq := 0 |}.

Record Problem : Type := { pb_Kind : string; pb_Seq : Z; pb_RowID : Z }.

Record Report : Type := {
  rp_Chain : string;
  rp_FromSeq : Z;
  rp_ToSeq : Z;
  rp_Links : Z;
  rp_RowsChecked : Z;
  rp_Deleted : Z;
  rp_Truncations : Z;
  rp_LegacyRows : Z;
  rp_HeadSeq : Z;
  rp_HeadHash : string;
  rp_Problems : list Problem;
  rp_ProblemsTruncated : bool;
}.

(** [Report.OK] *)
Definition report_OK (r : Report) : bool :=
  match rp_Problems r with [] => negb (rp_ProblemsTruncated r) | _ => false end.

(** [Report.add] *)
Definition set_problems (ps : list Problem) (truncated : bool) (r : Report) : Report :=
  {| rp_Chain := rp_Chain r; rp_FromSeq := rp_FromSeq r; rp_ToSeq := rp_ToSeq r;
     rp_Links := rp_Links r; rp_RowsChecked := rp_RowsChecked r; rp_Deleted := rp_Deleted r;
     rp_Truncations := rp_Truncations r; rp_LegacyRows := rp_LegacyRows r;
     rp_HeadSeq := rp_HeadSeq r; rp_HeadHash := rp_HeadHash r; rp_Problems := ps;
     rp_ProblemsTruncated := truncated |}.
Definition add_problem (p : Problem) (r : Report) : Report :=
  if Nat.leb MaxProblems (length (rp_Problems r)) then set_problems (rp_Problems r) true r
  else set_problems (rp_Problems r ++ [p]) (rp_ProblemsTruncated r) r.

(** The counters a link or a row moves. *)
Definition counted (links rows deleted truncations : Z) (r : Report) : Report :=
  {| rp_Chain := rp_Chain r; rp_FromSeq := rp_FromSeq r; rp_ToSeq := rp_ToSeq r;
     rp_Links := rp_Links r + links; rp_RowsChecked := rp_RowsChecked r + rows;
     rp_Deleted := rp_Deleted r + deleted; rp_Truncations := rp_Truncations r + truncations;
     rp_LegacyRows := rp_LegacyRows r; rp_HeadSeq := rp_HeadSeq r; rp_HeadHash := rp_HeadHash r;
     rp_Problems := rp_Problems r; rp_ProblemsTruncated := rp_ProblemsTruncated r |}.

Definition set_bounds (from to head : Z) (hash : string) (r : Report) : Report :=
  {| rp_Chain := rp_Chain r; rp_FromSeq := from; rp_ToSeq := to; rp_Links := rp_Links r;
     rp_RowsChecked := rp_RowsChecked r; rp_Deleted := rp_Deleted r;
     rp_Truncations := rp_Truncations r; rp_LegacyRows := rp_LegacyRows r; rp_HeadSeq := head;
     rp_HeadHash := hash; rp_Problems := rp_Problems r;
     rp_ProblemsTruncated := rp_ProblemsTruncated r |}.

Definition set_LegacyRows (n : Z) (r : Report) : Report :=
  {| rp_Chain := rp_Chain r; rp_FromSeq := rp_FromSeq r; rp_ToSeq := rp_ToSeq r;
     rp_Links := rp_Links r; rp_RowsChecked := rp_RowsChecked r; rp_Deleted := rp_Deleted r;
     rp_Truncations := rp_Truncations r; rp_LegacyRows := n; rp_HeadSeq := rp_HeadSeq r;
     rp_HeadHash := rp_HeadHash r; rp_Problems := rp_Problems r;
     rp_ProblemsTruncated := rp_ProblemsTruncated r |}.

(** ** The verifier's state *)

Record rowLinks : Type := {
  rl_insert : option Link;
  rl_sealed : gmap string Z;
  rl_deleted : bool;
}.

Record verifier : Type := {
  vr_rep : Report;
  vr_prev : string;
  vr_prevKnown : bool;
  vr_rows : gmap Z rowLinks;
  vr_legacy : Z;
}.

Definition on_rep (f : Report -> Report) (v : verifier) : verifier :=
  {| vr_rep := f (vr_rep v); vr_prev := vr_prev v; vr_prevKnown := vr_prevKnown v;
     vr_rows := vr_rows v; vr_legacy := vr_legacy v |}.
Definition set_prev (prev : string) (known : bool) (v : verifier) : verifier :=
  {| vr_rep := vr_rep v; vr_prev := prev; vr_prevKnown := known; vr_rows := vr_rows v;
     vr_legacy := vr_legacy v |}.
Definition set_rows (rows : gmap Z rowLinks) (v : verifier) : verifier :=
  {| vr_rep := vr_rep v; vr_prev := vr_prev v; vr_prevKnown := vr_prevKnown v;
     vr_rows := rows; vr_legacy := vr_legacy v |}.

Definition problem (kind : string) (seq row : Z) : verifier -> verifier :=
  on_rep (add_problem {| pb_Kind := kind; pb_Seq := seq; pb_RowID := row |}).

(** ** The links *)

Definition no_links : rowLinks := {| rl_insert := None; rl_sealed := ∅; rl_deleted := false |}.

(** What [track] makes of a row's entry. *)
Definition track_row (l : Link) (r : rowLinks) : rowLinks :=
  {| rl_insert := if lk_Op l =s "I" then Some l else rl_insert r;
     rl_sealed := match rl_sealed r !! lk_SealedHash l with
                  | Some _ => rl_sealed r
                  | None => <[lk_SealedHash l := lk_Seq l]> (rl_sealed r)
                  end;
     rl_deleted := (lk_Op l =s "D") || rl_deleted r |}.

Definition track (l : Link) (v : verifier) : verifier :=
  if lk_Op l =s "T" then on_rep (counted 0 0 0 1) v else
  let v := if lk_Op l =s "D" then on_rep (counted 0 0 1 0) v else v in
  set_rows (<[lk_RowID l := track_row l (default no_links (vr_rows v !! lk_RowID l))]>
              (vr_rows v)) v.

(** The three checks of [checkLink]. *)
Definition check_position (l : Link) (expected : Z) (v : verifier) : verifier :=
  let v := on_rep (counted 1 0 0 0) v in
  if negb (lk_Seq l =? expected)
  then set_prev (vr_prev v) false (problem KindGap expected 0 v) else v.
Definition check_prev (l : Link) (v : verifier) : verifier :=
  if vr_prevKnown v && (lk_PrevHash l <>s vr_prev v)
  then problem KindPrevMismatch (lk_Seq l) (lk_RowID l) v else v.
Definition check_hash (l : Link) (v : verifier) : verifier :=
  if LinkHash l <>s lk_Hash l
  then problem KindHashMismatch (lk_Seq l) (lk_RowID l) v else v.

(** The next expected position, and the state. *)
Definition checkLink (l : Link) (expected : Z) (v : verifier) : Z * verifier :=
  let v := check_hash l (check_prev l (check_position l expected v)) in
  (wrap64 (lk_Seq l + 1), track l (set_prev (lk_Hash l) true v)).

Definition check_links (ls : list Link) (expected : Z) (v : verifier) : Z * verifier :=
  foldl (fun ev l => checkLink l ev.1 ev.2) (expected, v) ls.

(** ** The rows *)

(** A row's last insert or state link. *)
Record latestLink : Type := { ll_seq : Z; ll_state : string }.

Definition rowCarries (r : Row) (l : Link) : bool :=
  bool_decide (rw_ChainSeq r = Some (lk_Seq l)) &&
  bool_decide (rw_ChainPrev r = Some (lk_PrevHash l)) &&
  bool_decide (rw_ChainHash r = Some (lk_Hash l)).

Definition truncatedAfter (truncates : list Z) (seq : Z) : bool :=
  existsb (fun t => seq <? t) truncates.

(** The links of [rowHistory] of one row, newest last. *)
Definition history_of (db : ChainDB) (id : Z) : list Link :=
  List.filter (fun l => (lk_RowID l =? id) && str_in (lk_Op l) ["I"; "U"; "D"]) (db_Links db).

(** [rowHistory] of one row: its latest link, and whether that is a delete. *)
Definition latest_of (db : ChainDB) (id : Z) : option latestLink :=
  match last (history_of db id) with
  | Some l => if lk_Op l =s "D" then None
              else Some {| ll_seq := lk_Seq l; ll_state := lk_State l |}
  | None => None
  end.
Definition deleted_of (db : ChainDB) (id : Z) : bool :=
  match last (history_of db id) with Some l => lk_Op l =s "D" | None => false end.

Definition truncate_seqs (db : ChainDB) : list Z :=
  map lk_Seq (List.filter (fun l => lk_Op l =s "T") (db_Links db)).

Definition sort_ids (ids : list Z) : list Z := merge_sort Z.le ids.

(** The loop over batches of [rowBatch]; as many rounds as ids are enough. *)
Fixpoint batches (fuel : nat) (ids : list Z) : list (list Z) :=
  match fuel, ids with
  | O, _ | _, [] => []
  | S fuel', _ => take rowBatch ids :: batches fuel' (drop rowBatch ids)
  end.

Section Verify.
Context {W : Type} (query : M W (result ChainDB)).
Context (range : gmap string Z -> list (string * Z)).
Context (s : Spec).

Definition firstSeq (r : rowLinks) : Z :=
  foldl (fun first (kv : string * Z) =>
    if (first =? 0) || (kv.2 <? first) then kv.2 else first) 0 (range (rl_sealed r)).

(** [links] is the row's entry in [v.rows]. *)
Definition checkRow (id : Z) (links : rowLinks) (live : option Row) (latest : option latestLink)
    (deleted : bool) (truncates : list Z) (v : verifier) : verifier :=
  match live with
  | None =>
      if deleted || rl_deleted links || truncatedAfter truncates (firstSeq links) then v
      else problem KindRowMissing (firstSeq links) id v
  | Some r =>
      let v := on_rep (counted 0 1 0 0) v in
      let v := match List.find (fun kv : string * Z => kv.1 <>s sealed_hash r)
                       (range (rl_sealed links)) with
               | Some kv => problem KindRowEdited kv.2 id v
               | None => v
               end in
      let v := match sp_State s, latest with
               | _ :: _, Some l => if ll_state l <>s state_text s r
                                   then problem KindStateEdited (ll_seq l) id v else v
               | _, _ => v
               end in
      match rl_insert links with
      | Some l => if negb (rowCarries r l) then problem KindRowLinkMismatch (lk_Seq l) id v else v
      | None => v
      end
  end.

(** A query's error ends the verification. *)
Definition try {A} (k : ChainDB -> M W (result A)) : M W (result A) :=
  let! r := query in match r with Ok db => k db | Err e => ret (Err e) end.

(** One round of [checkRows]: its two queries, then its rows. *)
Definition check_batch (truncates : list Z) (batch : list Z) (v : verifier)
    : M W (result verifier) :=
  try (fun live => try (fun history => ret (Ok
    (foldl (fun v id => checkRow id (default no_links (vr_rows v !! id)) (db_Rows live !! id)
                          (latest_of history id) (deleted_of history id) truncates v)
       v batch)))).

Fixpoint check_batches (truncates : list Z) (bs : list (list Z)) (v : verifier)
    : M W (result verifier) :=
  match bs with
  | [] => ret (Ok v)
  | b :: bs' =>
      let! r := check_batch truncates b v in
      match r with Ok v => check_batches truncates bs' v | Err e => ret (Err e) end
  end.

Definition checkRows (v : verifier) : M W (result verifier) :=
  let ids := sort_ids (map fst (map_to_list (vr_rows v))) in
  try (fun db => check_batches (truncate_seqs db) (batches (length ids) ids) v).

(** ** The walk *)

(** [for expected <= to]; [None] when the fuel runs out. *)
Fixpoint walk_loop (fuel : nat) (expected to : Z) (v : verifier)
    : M W (option (result verifier)) :=
  if to <? expected then ret (Some (Ok v)) else
  match fuel with
  | O => ret None
  | S fuel' =>
      let! r := query in
      match r with
      | Err e => ret (Some (Err e))
      | Ok db =>
          match LinksInRange db expected to linkBatch with
          | [] => ret (Some (Ok (problem KindGap expected 0 v)))
          | ls => let '(expected, v) := check_links ls expected v in
                  walk_loop fuel' expected to v
          end
      end
  end.

(** [start] *)
Definition start (from : Z) (v : verifier) : M W (result verifier) :=
  if from =? 1 then ret (Ok (set_prev Genesis true v)) else
  try (fun db => ret (Ok
    match List.find (fun l => lk_Seq l =? from - 1) (db_Links db) with
    | None => problem KindGap (from - 1) 0 v
    | Some l => set_prev (lk_Hash l) true v
    end)).

Definition walk (fuel : nat) (from to : Z) (v : verifier) : M W (option (result verifier)) :=
  let! r := start from v in
  match r with
  | Err e => ret (Some (Err e))
  | Ok v => walk_loop fuel from to v
  end.

(** ** Rows behind the triggers *)

(** Over a map, whose order does not matter: bounds of the inserted ids. *)
Definition insertRange (rows : gmap Z rowLinks) : Z * Z :=
  foldl (fun '(lo, hi) (kv : Z * rowLinks) =>
    match rl_insert kv.2 with
    | None => (lo, hi)
    | Some _ => (if (lo =? 0) || (kv.1 <? lo) then kv.1 else lo,
                 if hi <? kv.1 then kv.1 else hi)
    end) (0, 0) (map_to_list rows).

Definition unchained (db : ChainDB) (lo hi legacy : Z) : list Z :=
  sort_ids (map fst (List.filter
    (fun kv : Z * Row => (lo <=? kv.1) && (kv.1 <=? hi) && (legacy <? kv.1) &&
                         bool_decide (rw_ChainSeq kv.2 = None))
    (map_to_list (db_Rows db)))).

Definition findUnchained (full : bool) (v : verifier) : M W (result verifier) :=
  let '(lo, hi) := if full then (wrap64 (vr_legacy v + 1), 2 ^ 62) else insertRange (vr_rows v) in
  if negb full && (lo =? 0) then ret (Ok v) else
  try (fun db => ret (Ok
    (foldl (fun v id => problem KindUnchainedRow 0 id v) v
       (take (MaxProblems + 1) (unchained db lo hi (vr_legacy v)))))).

Definition countLegacy (v : verifier) : M W (result verifier) :=
  if vr_legacy v <=? 0 then ret (Ok v) else
  try (fun db => ret (Ok (on_rep (set_LegacyRows
    (Z.of_nat (length (List.filter (fun kv : Z * Row => kv.1 <=? vr_legacy v)
                         (map_to_list (db_Rows db)))))) v))).

(** ** Verification *)

Definition empty_report : Report :=
  {| rp_Chain := sp_Chain s; rp_FromSeq := 0; rp_ToSeq := 0; rp_Links := 0; rp_RowsChecked := 0;
     rp_Deleted := 0; rp_Truncations := 0; rp_LegacyRows := 0; rp_HeadSeq := 0;
     rp_HeadHash := ""; rp_Problems := []; rp_ProblemsTruncated := false |}.

(** What follows the walk. *)
Definition finish_run (from : Z) (full : bool) (v : verifier) : M W (result verifier) :=
  let! r := findUnchained full v in
  match r with
  | Err e => ret (Err e)
  | Ok v => if from =? 1 then countLegacy v else ret (Ok v)
  end.

(** [verifier.run] after its two first queries. *)
Definition run_window (fuel : nat) (legacy : Z) (head : Z) (hash : string) (w : Window)
    : M W (option (result verifier)) :=
  let from := Z.max (wn_FromSeq w) 1 in
  let to := if (wn_ToSeq w =? 0) || (head <? wn_ToSeq w) then head else wn_ToSeq w in
  let v := {| vr_rep := set_bounds from to head hash empty_report; vr_prev := "";
              vr_prevKnown := false; vr_rows := ∅; vr_legacy := legacy |} in
  let full := (from =? 1) && (to =? head) in
  let! walked :=
    if from <=? to then
      let! r := walk fuel from to v in
      match r with
      | Some (Ok v) => let! r := checkRows v in ret (Some r)
      | other => ret other
      end
    else ret (Some (Ok v)) in
  match walked with
  | Some (Ok v) => let! r := finish_run from full v in ret (Some r)
  | other => ret other
  end.

Definition run (fuel : nat) (w : Window) : M W (option (result verifier)) :=
  let! r := query in
  match r with
  | Err e => ret (Some (Err e))
  | Ok db =>
      match db_Boundary db with
      | None => ret (Some (Err ErrNotInstalled))
      | Some legacy =>
          let! r := query in
          match r with
          | Err e => ret (Some (Err e))
          | Ok db => let '(head, hash) := Head db in run_window fuel legacy head hash w
          end
      end
  end.

(** [Verify] on a database; [None] when the fuel of the walk runs out. *)
Definition Verify (fuel : nat) (w : Window) : M W (option (result Report)) :=
  match validate s with
  | Some e => ret (Some (Err ("auditchain: invalid spec: " +:+ e)))
  | None =>
      if (wn_FromSeq w <? 0) || (wn_ToSeq w <? 0) ||
         ((0 <? wn_ToSeq w) && (wn_ToSeq w <? wn_FromSeq w))
      then ret (Some (Err ("auditchain: " +:+ sp_Chain s +:+ ": invalid window")))
      else
        let! r := run fuel w in
        ret (match r with
             | None => None
             | Some (Ok v) => Some (Ok (vr_rep v))
             | Some (Err e) => Some (Err ("auditchain: verify " +:+ sp_Chain s +:+ ": " +:+ e))
             end)
  end.
End Verify.
