(* ===== verification/AuditSample.v ===== *)
(** * A sample chain

    A small table, changed by five commits from the installation of its chain;
    the concrete inputs of the audit chain's theorems, and a table read while
    another session commits. *)

From stdpp Require Import sorting.
From S2P Require Import Prelude.
From S2P Require Import GoStd.
From S2P Require Import Sha256.
From S2P Require Import AuditChain.
From S2P Require Import AuditVerify.

Definition session (at_ : Time) : Session :=
  {| ss_At := at_; ss_User := "sage"; ss_App := "pg_sage" |}.

Definition old_row : Row :=
  {| rw_Sealed := "1|create_index"; rw_State := "success"; rw_ChainSeq := None;
     rw_ChainPrev := None; rw_ChainHash := None |}.

Definition chain0 : ChainDB :=
  {| db_Links := []; db_Rows := {[ 1 := old_row ]}; db_Boundary := Some 1 |}.
Definition chain1 : ChainDB := insert_row ActionLog (session 10) 2 "2|vacuum" "pending" chain0.
Definition chain2 : ChainDB := insert_row ActionLog (session 20) 3 "3|analyze" "pending" chain1.
Definition chain3 : ChainDB := update_state ActionLog (session 30) 2 "success" chain2.
Definition chain4 : ChainDB := delete_row ActionLog (session 40) 3 chain3.
Definition chain5 : ChainDB := insert_row ActionLog (session 50) 4 "4|drop_index" "pending" chain4.

(** Verifying one state of the tables. *)
Definition verify_still (db : ChainDB) (w : Window) : option (result Report) :=
  value_at (Verify (ret (W:=unit) (Ok db)) map_to_list ActionLog 100 w) tt.

(** Each query of a verification sees the next state of [dbs], the last forever. *)
Definition next_state (dbs : list ChainDB) : result ChainDB * list ChainDB :=
  match dbs with
  | [] => (Err "no database", [])
  | [db] => (Ok db, [db])
  | db :: dbs' => (Ok db, dbs')
  end.
Definition verify_moving (dbs : list ChainDB) (w : Window) : option (result Report) :=
  value_at (Verify next_state map_to_list ActionLog 100 w) dbs.

Definition kinds (r : option (result Report)) : option (list string) :=
  match r with Some (Ok rep) => Some (map pb_Kind (rp_Problems rep)) | _ => None end.

Example sample_verifies : kinds (verify_still chain5 full) = Some [].
Proof. by vm_compute. Qed.

(** Other windows, and what a change behind the chain is reported as. *)
Example sample_windows :
  map (fun w => kinds (verify_still chain5 w))
    [{| wn_FromSeq := 2; wn_ToSeq := 4 |}; {| wn_FromSeq := 5; wn_ToSeq := 9 |};
     {| wn_FromSeq := 8; wn_ToSeq := 0 |}] = [Some []; Some []; Some []].
Proof. by vm_compute. Qed.

Definition edited (id : Z) (f : Row -> Row) (db : ChainDB) : ChainDB :=
  with_rows (alter f id (db_Rows db)) db.

Definition set_sealed (t : string) (r : Row) : Row :=
  {| rw_Sealed := t; rw_State := rw_State r; rw_ChainSeq := rw_ChainSeq r;
     rw_ChainPrev := rw_ChainPrev r; rw_ChainHash := rw_ChainHash r |}.
Definition set_state (t : string) (r : Row) : Row :=
  {| rw_Sealed := rw_Sealed r; rw_State := t; rw_ChainSeq := rw_ChainSeq r;
     rw_ChainPrev := rw_ChainPrev r; rw_ChainHash := rw_ChainHash r |}.
Definition set_links (ls : list Link) (db : ChainDB) : ChainDB :=
  {| db_Links := ls; db_Rows := db_Rows db; db_Boundary := db_Boundary db |}.

(** Links with other times, users and applications. *)
Definition relabel (l : Link) : Link :=
  {| lk_Seq := lk_Seq l; lk_RowID := lk_RowID l; lk_Op := lk_Op l; lk_V := lk_V l;
     lk_SealedHash := lk_SealedHash l; lk_State := lk_State l; lk_PrevHash := lk_PrevHash l;
     lk_Hash := lk_Hash l; lk_At := lk_At l - Hour; lk_DBUser := "alice"; lk_App := "psql" |}.

Example sample_tampered :
  map (fun db => kinds (verify_still db full))
    [edited 2 (set_sealed "2|reindex") chain5; edited 2 (set_state "failed") chain5;
     with_rows (delete 4 (db_Rows chain5)) chain5;
     with_rows (<[9 := old_row]> (db_Rows chain5)) chain5;
     set_links (take 2 (db_Links chain5) ++ drop 3 (db_Links chain5)) chain5]
  = [Some [KindRowEdited]; Some [KindStateEdited]; Some [KindRowMissing]; Some [KindUnchainedRow];
     Some [KindGap; KindStateEdited]].
Proof. by vm_compute. Qed.
