(* ===== verification/AuditSafety.v ===== *)
(** * The verifier, step by step

    What each step of the verifier checks: the links of a batch, the row entries
    [track] builds, a row against its entry and, on tables that stand still, the
    walk and the rows.  A verifier is clean while its report is OK. *)

From stdpp Require Import sorting.
From S2P Require Import Prelude.
From S2P Require Import GoStd.
From S2P Require Import Sha256.
From S2P Require Import AuditChain.
From S2P Require Import AuditVerify.
From Stdlib Require Import Sorted.

(** ** Sorted tables *)

Lemma sorted_filter (f : Link -> bool) ls :
  StronglySorted by_seq ls -> StronglySorted by_seq (List.filter f ls).
Proof.
  induction 1 as [|l ls Hs IH Hf]; [constructor|]. simpl. destruct (f l); [|exact IH].
  constructor; [exact IH|]. rewrite Forall_forall in Hf |- *. intros m Hm. apply Hf.
  apply list_elem_of_In in Hm. apply List.filter_In in Hm as [Hm _]. by apply list_elem_of_In.
Qed.

Lemma sorted_app_lt ls ms l m :
  StronglySorted by_seq (ls ++ ms) -> l ∈ ls -> m ∈ ms -> lk_Seq l < lk_Seq m.
Proof.
  induction ls as [|x ls IH]; simpl; [by intros _ ?%elem_of_nil|].
  intros Hs [->|Hl]%elem_of_cons Hm; apply StronglySorted_inv in Hs as [Hs Hf]; [|by apply IH].
  rewrite Forall_forall in Hf. apply Hf, elem_of_app. by right.
Qed.

Lemma sorted_snoc_le ls b l :
  StronglySorted by_seq (ls ++ [b]) -> l ∈ ls ++ [b] -> lk_Seq l <= lk_Seq b.
Proof.
  intros Hs [Hl| ->%list_elem_of_singleton]%elem_of_app; [|lia].
  apply Z.lt_le_incl. eapply sorted_app_lt; [exact Hs|done|by apply list_elem_of_singleton].
Qed.

(** What is left of a range after its first [n] links. *)
Lemma range_drop ls from to n b :
  StronglySorted by_seq ls -> last (take n (List.filter (in_range from to) ls)) = Some b ->
  List.filter (in_range (lk_Seq b + 1) to) ls = drop n (List.filter (in_range from to) ls).
Proof.
  intros Hs Hb. set (F := List.filter (in_range from to) ls) in *.
  assert (HF : StronglySorted by_seq F) by by apply sorted_filter.
  rewrite <- (take_drop n F) in HF.
  apply last_split in Hb as [B HB].
  assert (HbF : b ∈ F).
  { rewrite <- (take_drop n F), HB. rewrite !elem_of_app. left. right. by apply list_elem_of_singleton. }
  apply elem_of_filter_in in HbF as HbF'. destruct HbF' as [_ Hbr].
  unfold in_range in Hbr. apply andb_true_iff in Hbr as [Hfb%Z.leb_le Hbt%Z.leb_le].
  rewrite <- (filter_filter _ (in_range from to)).
  2: { intros x. unfold in_range. rewrite !andb_true_iff, !Z.leb_le. lia. }
  fold F. rewrite <- (take_drop n F) at 1. rewrite List.filter_app.
  rewrite filter_none, filter_all; [done| |].
  - intros x Hx. assert (HxF : x ∈ F).
    { rewrite <- (take_drop n F). apply elem_of_app. by right. }
    apply elem_of_filter_in in HxF as [_ Hr]. unfold in_range in *.
    apply andb_true_iff in Hr as [_ Hr]. apply andb_true_iff. split; [|exact Hr].
    apply Z.leb_le. enough (lk_Seq b < lk_Seq x) by lia.
    eapply sorted_app_lt; [exact HF| |exact Hx]. rewrite HB. apply elem_of_app. right.
    by apply list_elem_of_singleton.
  - intros x Hx. unfold in_range. apply andb_false_iff. left. apply Z.leb_gt.
    enough (lk_Seq x <= lk_Seq b) by lia. rewrite HB in Hx, HF.
    eapply sorted_snoc_le; [|exact Hx]. clear -HF. revert HF.
    generalize (B ++ [b]), (drop n F). intros l m. induction l as [|x l IH]; simpl; [constructor|].
    intros H. apply StronglySorted_inv in H as [Hs Hf]. constructor; [by apply IH|].
    rewrite Forall_app in Hf. apply Hf.
Qed.

(** ** Problems stay *)

Definition clean (v : verifier) : bool := report_OK (vr_rep v).

Lemma clean_problem kind seq row v : clean (problem kind seq row v) = false.
Proof.
  unfold clean, problem, on_rep, add_problem. cbn [vr_rep].
  destruct (Nat.leb _ _) eqn:E; unfold report_OK, set_problems; cbn [rp_Problems rp_ProblemsTruncated].
  - by destruct (rp_Problems (vr_rep v)).
  - by destruct (rp_Problems (vr_rep v)).
Qed.

Lemma clean_counted a b c d v : clean (on_rep (counted a b c d) v) = clean v.
Proof. done. Qed.
Lemma clean_prev p k v : clean (set_prev p k v) = clean v.
Proof. done. Qed.

Lemma clean_if (c : bool) kind seq row v :
  clean (if c then problem kind seq row v else v) = negb c && clean v.
Proof. destruct c; [by rewrite clean_problem|done]. Qed.

Lemma clean_track l v : clean (track l v) = clean v.
Proof. unfold track. destruct (_ =s _); [done|]. by destruct (_ =s _). Qed.

(** ** The links of a window *)

(** Links from position [seq] on, the first following [prev] when it is known. *)
Fixpoint linked (prev : option string) (seq : Z) (ls : list Link) : Prop :=
  match ls with
  | [] => True
  | l :: ls' =>
      lk_Seq l = seq /\ (forall p, prev = Some p -> lk_PrevHash l = p) /\
      LinkHash l = lk_Hash l /\ linked (Some (lk_Hash l)) (seq + 1) ls'
  end.

Definition track_all (ls : list Link) (rows : gmap Z rowLinks) : gmap Z rowLinks :=
  foldl (fun rows l => if lk_Op l =s "T" then rows else
           <[lk_RowID l := track_row l (default no_links (rows !! lk_RowID l))]> rows) rows ls.

Definition known (v : verifier) : option string :=
  if vr_prevKnown v then Some (vr_prev v) else None.

(** The checks leave the rows and the boundary alone. *)
Definition same_rows (v v' : verifier) : Prop :=
  vr_rows v' = vr_rows v /\ vr_legacy v' = vr_legacy v.

Lemma checks_rows l e v : same_rows v (check_hash l (check_prev l (check_position l e v))).
Proof.
  unfold same_rows, check_hash, check_prev, check_position.
  repeat match goal with |- context [if ?x then _ else _] => destruct x end; done.
Qed.

Lemma track_rows l v :
  vr_rows (track l v) = track_all [l] (vr_rows v) /\ vr_legacy (track l v) = vr_legacy v /\
  known (track l v) = known v.
Proof.
  unfold track, track_all, known. cbn [foldl].
  destruct (lk_Op l =s "T"); [done|]. by destruct (lk_Op l =s "D").
Qed.

Lemma checkLink_state l e v :
  vr_rows (checkLink l e v).2 = track_all [l] (vr_rows v) /\
  vr_legacy (checkLink l e v).2 = vr_legacy v /\
  known (checkLink l e v).2 = Some (lk_Hash l).
Proof.
  unfold checkLink. cbv zeta. cbn [snd]. destruct (checks_rows l e v) as [Hr Hl].
  destruct (track_rows l (set_prev (lk_Hash l) true
    (check_hash l (check_prev l (check_position l e v))))) as (H1 & H2 & H3).
  rewrite H1, H2, H3. unfold set_prev at 1 2. cbn [vr_rows vr_legacy]. by rewrite Hr, Hl.
Qed.

Lemma checkLink_clean l e v :
  clean (checkLink l e v).2 = true <->
  clean v = true /\ lk_Seq l = e /\ (forall p, known v = Some p -> lk_PrevHash l = p) /\
  LinkHash l = lk_Hash l.
Proof.
  unfold checkLink. cbv zeta. cbn [snd]. rewrite clean_track, clean_prev.
  unfold check_hash. rewrite clean_if, andb_true_iff, negb_involutive, eqb_str.
  unfold check_prev. rewrite clean_if, andb_true_iff, negb_true_iff, andb_false_iff, negb_false_iff,
    eqb_str. unfold check_position.
  destruct (Z.eqb_spec (lk_Seq l) e) as [<-|He]; cbn [negb].
  - rewrite clean_counted. unfold known. change (vr_prevKnown (on_rep _ v)) with (vr_prevKnown v).
    change (vr_prev (on_rep _ v)) with (vr_prev v). destruct (vr_prevKnown v); naive_solver.
  - rewrite clean_prev, clean_problem. naive_solver.
Qed.

Lemma check_links_app ls ms e v :
  check_links (ls ++ ms) e v =
  let '(e', v') := check_links ls e v in check_links ms e' v'.
Proof. unfold check_links. rewrite foldl_app. by destruct (foldl _ _ ls). Qed.

Lemma check_links_cons l ls e v :
  check_links (l :: ls) e v = check_links ls (checkLink l e v).1 (checkLink l e v).2.
Proof. unfold check_links. cbn [foldl fst snd]. by rewrite <- surjective_pairing. Qed.

Lemma check_links_rows ls : forall e v,
  vr_rows (check_links ls e v).2 = track_all ls (vr_rows v) /\
  vr_legacy (check_links ls e v).2 = vr_legacy v.
Proof.
  induction ls as [|l ls IH]; intros e v; [done|]. rewrite check_links_cons.
  destruct (IH (checkLink l e v).1 (checkLink l e v).2) as [-> ->].
  by destruct (checkLink_state l e v) as (-> & -> & _).
Qed.

(** Positions stay below the largest 64-bit integer. *)
Definition small (ls : list Link) : Prop :=
  Forall (fun l => min_int64 <= lk_Seq l < max_int64) ls.

Lemma next_small l : min_int64 <= lk_Seq l < max_int64 -> wrap64 (lk_Seq l + 1) = lk_Seq l + 1.
Proof. intros. apply wrap64_id. lia. Qed.

Lemma check_links_next ls e v :
  small ls -> (check_links ls e v).1 = match last ls with Some b => lk_Seq b + 1 | None => e end.
Proof.
  intros Hs. destruct (last ls) as [b|] eqn:E; [|by apply last_None in E as ->].
  apply last_split in E as [ms ->]. rewrite check_links_app.
  destruct (check_links ms e v) as [e' v']. rewrite check_links_cons. unfold check_links. cbn [foldl fst].
  change (checkLink b e' v').1 with (wrap64 (lk_Seq b + 1)).
  apply Forall_app in Hs as [_ Hb]. apply Forall_inv in Hb. by apply next_small.
Qed.

Lemma check_links_clean ls : forall e v, small ls ->
  clean (check_links ls e v).2 = true <-> clean v = true /\ linked (known v) e ls.
Proof.
  induction ls as [|l ls IH]; intros e v Hs; [by naive_solver|].
  rewrite check_links_cons. apply Forall_cons in Hs as [Hl Hs].
  destruct (checkLink_state l e v) as (_ & _ & Hk).
  change (checkLink l e v).1 with (wrap64 (lk_Seq l + 1)).
  rewrite IH, checkLink_clean, Hk, next_small by done.
  cbn [linked]. split; [intros ((? & <- & ? & ?) & ?)|intros (? & <- & ? & ? & ?)]; by split_and!.
Qed.

Lemma linked_last prev e ls b : linked prev e ls -> last ls = Some b ->
  lk_Seq b + 1 = e + Z.of_nat (length ls).
Proof.
  revert prev e. induction ls as [|l ls IH]; intros prev e; [done|].
  intros (Hl & _ & _ & Hrest) Hb. destruct ls as [|m ls].
  - injection Hb as ->. simpl. lia.
  - rewrite (IH _ _ Hrest Hb). simpl length. lia.
Qed.

(** ** What the window says about a row *)

Definition names (id : Z) (l : Link) : bool := (lk_Op l <>s "T") && (lk_RowID l =? id).
Definition named (id : Z) (ls : list Link) : list Link := List.filter (names id) ls.

Definition row_of (r : rowLinks) (ls : list Link) : rowLinks := foldl (fun r l => track_row l r) r ls.

Lemma track_all_lookup ls : forall rows id,
  track_all ls rows !! id =
  match named id ls with
  | [] => rows !! id
  | n => Some (row_of (default no_links (rows !! id)) n)
  end.
Proof.
  induction ls as [|l ls IH]; intros rows id; [done|]. unfold track_all in *. cbn [foldl].
  rewrite IH. unfold named. cbn [List.filter].
  replace (names id l) with ((lk_Op l <>s "T") && (lk_RowID l =? id)) by done.
  destruct (lk_Op l =s "T"); [done|]. cbn [negb andb].
  destruct (Z.eqb_spec (lk_RowID l) id) as [->|Hne].
  - rewrite lookup_insert_eq. by destruct (List.filter _ ls).
  - by rewrite lookup_insert_ne.
Qed.

Lemma row_of_insert ls : forall r,
  rl_insert (row_of r ls) =
  match last (List.filter (fun l => lk_Op l =s "I") ls) with
  | Some l => Some l | None => rl_insert r end.
Proof.
  induction ls as [|l ls IH] using rev_ind; intros r; [done|]. unfold row_of in *.
  rewrite foldl_app. cbn [foldl track_row rl_insert]. rewrite IH, List.filter_app. cbn [List.filter].
  destruct (lk_Op l =s "I"); [by rewrite last_snoc|by rewrite app_nil_r].
Qed.

Lemma row_of_deleted ls : forall r,
  rl_deleted (row_of r ls) = existsb (fun l => lk_Op l =s "D") ls || rl_deleted r.
Proof.
  induction ls as [|l ls IH]; intros r; [done|]. unfold row_of in *. cbn [foldl existsb].
  rewrite IH. cbn [rl_deleted track_row]. by destruct (lk_Op l =s "D"), (existsb _ ls).
Qed.

(** The recorded hashes, each with the first position that carries it. *)
Record seals_ok (ls : list Link) (m : gmap string Z) : Prop := {
  se_dom : forall h, is_Some (m !! h) <-> exists l, l ∈ ls /\ lk_SealedHash l = h;
  se_val : forall h q, m !! h = Some q -> exists l, l ∈ ls /\ lk_Seq l = q;
  se_first : forall l ls', ls = l :: ls' -> m !! lk_SealedHash l = Some (lk_Seq l);
}.

Lemma row_of_sealed ls : seals_ok ls (rl_sealed (row_of no_links ls)).
Proof.
  induction ls as [|l ls [Hd Hv Hf]] using rev_ind.
  - split; cbn; [|done..]. intros h. rewrite lookup_empty. split; [by intros []|].
    by intros (l & ?%elem_of_nil & _).
  - unfold row_of in *. rewrite foldl_app. cbn [foldl track_row rl_sealed].
    set (m := rl_sealed _) in *.
    assert (Hin : forall P : Link -> Prop, (exists x, x ∈ ls ++ [l] /\ P x) <->
                  (exists x, x ∈ ls /\ P x) \/ P l).
    { intros P. setoid_rewrite elem_of_app. setoid_rewrite list_elem_of_singleton. naive_solver. }
    destruct (m !! lk_SealedHash l) as [q|] eqn:E; split.
    + intros h. rewrite Hd, Hin. split; [by left|]. intros [?|<-]; [done|]. apply Hd. eauto.
    + intros h q' Hq. rewrite Hin. left. eauto.
    + intros l0 ls' Hl0. destruct ls as [|x ls]; [|injection Hl0 as -> _; by eapply Hf].
      apply mk_is_Some, Hd in E as (x & ?%elem_of_nil & _). done.
    + intros h. rewrite Hin, <- Hd. destruct (decide (lk_SealedHash l = h)) as [<-|Hne].
      * rewrite lookup_insert_eq. naive_solver.
      * rewrite lookup_insert_ne by done. naive_solver.
    + intros h q. rewrite Hin. destruct (decide (lk_SealedHash l = h)) as [<-|Hne].
      * rewrite lookup_insert_eq. intros [= <-]. by right.
      * rewrite lookup_insert_ne by done. left. eauto.
    + intros l0 ls' Hl0. destruct ls as [|x ls].
      * injection Hl0 as -> _. by rewrite lookup_insert_eq.
      * injection Hl0 as -> _. rewrite lookup_insert_ne; [by eapply Hf|].
        intros Heq. rewrite Heq in E. rewrite (Hf l0 ls eq_refl) in E. done.
Qed.

Section Frozen.
Context {W : Type} (db : ChainDB).
Context (range : gmap string Z -> list (string * Z)).
Context (range_perm : forall m, range m ≡ₚ map_to_list m).
Context (s : Spec).
Context (db_keyed : keyed db) (db_small : small (db_Links db)).

Abbreviation still := (ret (W:=W) (Ok db)) (only parsing).

Lemma in_sealed m h q : (h, q) ∈ range m <-> m !! h = Some q.
Proof. rewrite range_perm. apply elem_of_map_to_list. Qed.

Lemma first_fold (l : list (string * Z)) : forall z,
  0 <= z -> (forall kv, kv ∈ l -> 0 < kv.2) ->
  let m := foldl (fun first (kv : string * Z) =>
    if (first =? 0) || (kv.2 <? first) then kv.2 else first) z l in
  (m = z \/ exists kv, kv ∈ l /\ kv.2 = m) /\ (0 < z -> 0 < m <= z) /\
  (forall kv, kv ∈ l -> 0 < m <= kv.2).
Proof.
  induction l as [|kv l IH]; intros z Hz Hpos; cbn [foldl].
  - split_and!; [by left|lia|by intros kv ?%elem_of_nil].
  - assert (Hkv : 0 < kv.2) by (apply Hpos, elem_of_cons; by left).
    set (z' := if (z =? 0) || (kv.2 <? z) then kv.2 else z).
    assert (Hz' : 0 < z' <= kv.2 /\ (0 < z -> z' <= z) /\ (z' = z \/ z' = kv.2)).
    { subst z'. destruct (Z.eqb_spec z 0), (Z.ltb_spec kv.2 z); cbn [orb]; lia. }
    destruct (IH z' ltac:(lia)) as (Hm & Hle & Hall).
    { intros x Hx. apply Hpos, elem_of_cons. by right. }
    split_and!.
    + destruct Hm as [->|(x & Hx & <-)].
      * destruct Hz' as (_ & _ & [->| ->]); [by left|]. right. exists kv.
        split; [apply elem_of_cons; by left|done].
      * right. exists x. split; [apply elem_of_cons; by right|done].
    + lia.
    + intros x [->|Hx]%elem_of_cons; [lia|by apply Hall].
Qed.

Lemma firstSeq_spec l ls :
  StronglySorted by_seq (l :: ls) -> 0 < lk_Seq l ->
  firstSeq range (row_of no_links (l :: ls)) = lk_Seq l.
Proof.
  intros Hs Hpos. destruct (row_of_sealed (l :: ls)) as [Hd Hv Hf].
  apply StronglySorted_inv in Hs as [_ Hall]. rewrite Forall_forall in Hall.
  assert (Hge : forall kv, kv ∈ range (rl_sealed (row_of no_links (l :: ls))) -> lk_Seq l <= kv.2).
  { intros [h q] Hin%in_sealed. destruct (Hv h q Hin) as (x & Hx & <-). simpl.
    apply elem_of_cons in Hx as [->|Hx]; [lia|]. specialize (Hall x Hx). unfold by_seq in Hall. lia. }
  unfold firstSeq.
  destruct (first_fold (range (rl_sealed (row_of no_links (l :: ls)))) 0) as (Hm & _ & Hle); [lia|..].
  { intros kv Hkv. specialize (Hge kv Hkv). lia. }
  cbv zeta in Hm, Hle. set (m := foldl _ _ _) in *.
  pose proof (Hf l ls eq_refl) as Hfirst. apply in_sealed in Hfirst.
  specialize (Hle _ Hfirst). simpl in Hle.
  destruct Hm as [Hm|(kv & Hkv & Hm)]; [lia|]. specialize (Hge kv Hkv). lia.
Qed.

(** *** The rows *)

Definition row_clean (history : ChainDB) (truncates : list Z) (id : Z) (links : rowLinks)
    (live : option Row) : Prop :=
  match live with
  | None => deleted_of history id || rl_deleted links ||
            truncatedAfter truncates (firstSeq range links) = true
  | Some r =>
      (forall h, is_Some (rl_sealed links !! h) -> h = sealed_hash r) /\
      (sp_State s <> [] -> forall l, latest_of history id = Some l -> ll_state l = state_text s r) /\
      (forall l, rl_insert links = Some l -> rowCarries r l = true)
  end.

Lemma find_hash m h0 :
  List.find (fun kv : string * Z => kv.1 <>s h0) (range m) = None <->
  forall h, is_Some (m !! h) -> h = h0.
Proof.
  split.
  - intros Hf h [q Hq]. apply in_sealed, list_elem_of_In in Hq.
    pose proof (List.find_none _ _ Hf _ Hq) as Hn. cbn [fst] in Hn.
    by apply negb_false_iff, eqb_str in Hn.
  - intros Hm. destruct (List.find _ _) as [[h q]|] eqn:E; [|done]. exfalso.
    apply List.find_some in E as [Hin%list_elem_of_In%in_sealed Hne]. cbn [fst] in Hne.
    rewrite (Hm h), eqb_str_refl in Hne; [done|by eexists].
Qed.

Lemma clean_carried r links id v :
  clean match rl_insert links with
        | Some l => if negb (rowCarries r l) then problem KindRowLinkMismatch (lk_Seq l) id v else v
        | None => v
        end = true <-> clean v = true /\ (forall l, rl_insert links = Some l -> rowCarries r l = true).
Proof.
  destruct (rl_insert links) as [l|]; [|naive_solver].
  rewrite clean_if, andb_true_iff, negb_involutive. naive_solver.
Qed.

Lemma clean_state r latest id v :
  clean match sp_State s, latest with
        | _ :: _, Some l => if ll_state l <>s state_text s r
                            then problem KindStateEdited (ll_seq l) id v else v
        | _, _ => v
        end = true <->
  clean v = true /\
  (sp_State s <> [] -> forall l, latest = Some l -> ll_state l = state_text s r).
Proof.
  unfold state_text. destruct (sp_State s) as [|c cs]; [naive_solver|].
  destruct latest as [l|]; [|naive_solver].
  rewrite clean_if, andb_true_iff, negb_involutive, eqb_str. naive_solver.
Qed.

Lemma clean_sealed r links id v :
  clean match List.find (fun kv : string * Z => kv.1 <>s sealed_hash r) (range (rl_sealed links)) with
        | Some kv => problem KindRowEdited kv.2 id v
        | None => v
        end = true <->
  clean v = true /\ (forall h, is_Some (rl_sealed links !! h) -> h = sealed_hash r).
Proof.
  rewrite <- find_hash. destruct (List.find _ _); [|naive_solver].
  rewrite clean_problem. naive_solver.
Qed.

Lemma checkRow_clean history truncates id links live v :
  clean (checkRow range s id links live (latest_of history id) (deleted_of history id) truncates v)
    = true <-> clean v = true /\ row_clean history truncates id links live.
Proof.
  unfold checkRow, row_clean. destruct live as [r|].
  - cbv zeta. rewrite clean_carried, clean_state, clean_sealed, clean_counted. tauto.
  - destruct (_ || _ || _); [tauto|]. rewrite clean_problem. naive_solver.
Qed.

Lemma checkRow_rows id links live latest deleted truncates v :
  same_rows v (checkRow range s id links live latest deleted truncates v).
Proof.
  unfold same_rows, checkRow.
  repeat match goal with
         | |- context [match ?x with _ => _ end] => destruct x
         end; done.
Qed.

Lemma fold_rows_clean (rows : gmap Z rowLinks) history truncates live ids : forall v,
  vr_rows v = rows ->
  let v' := foldl (fun v id => checkRow range s id (default no_links (vr_rows v !! id))
              (db_Rows live !! id) (latest_of history id) (deleted_of history id) truncates v)
              v ids in
  same_rows v v' /\
  (clean v' = true <-> clean v = true /\ forall id, id ∈ ids ->
     row_clean history truncates id (default no_links (rows !! id)) (db_Rows live !! id)).
Proof.
  induction ids as [|id ids IH]; intros v Hv; cbn [foldl].
  - split; [done|]. split; [|naive_solver]. intros Hc. split; [done|]. by intros id ?%elem_of_nil.
  - set (v1 := checkRow _ _ _ _ _ _ _ _ v).
    destruct (checkRow_rows id (default no_links (vr_rows v !! id)) (db_Rows live !! id)
      (latest_of history id) (deleted_of history id) truncates v) as [Hr Hl]. fold v1 in Hr, Hl.
    destruct (IH v1) as [[Hr' Hl'] Hc]; [by rewrite Hr|]. split; [split; congruence|].
    rewrite Hc. subst v1. rewrite checkRow_clean, Hv. setoid_rewrite elem_of_cons. naive_solver.
Qed.

Lemma batches_concat fuel : forall ids, (length ids <= fuel)%nat -> concat (batches fuel ids) = ids.
Proof.
  induction fuel as [|fuel IH]; intros [|id ids] Hlen; [done|simpl in Hlen; lia|done|].
  cbn [batches concat]. rewrite IH, take_drop; [done|]. rewrite length_drop.
  unfold rowBatch. simpl in *. lia.
Qed.

Lemma check_batches_still truncates bs : forall v w,
  check_batches (ret (W:=W) (Ok db)) range s truncates bs v w =
  (Ok (foldl (fun v id => checkRow range s id (default no_links (vr_rows v !! id))
         (db_Rows db !! id) (latest_of db id) (deleted_of db id) truncates v) v (concat bs)), w).
Proof.
  induction bs as [|b bs IH]; intros v w; [done|]. cbn [check_batches concat].
  unfold bind, check_batch, try, bind, ret. rewrite foldl_app. apply IH.
Qed.

(** What [checkRows] finds, on tables that stand still. *)
Lemma checkRows_still v w : exists v',
  checkRows (ret (W:=W) (Ok db)) range s v w = (Ok v', w) /\ same_rows v v' /\
  (clean v' = true <-> clean v = true /\ forall id links, vr_rows v !! id = Some links ->
     row_clean db (truncate_seqs db) id links (db_Rows db !! id)).
Proof.
  unfold checkRows. unfold try, bind at 1, ret at 1. rewrite check_batches_still.
  set (ids := sort_ids _). rewrite batches_concat by done.
  destruct (fold_rows_clean (vr_rows v) db (truncate_seqs db) db ids v eq_refl) as [Hs Hc].
  eexists. split; [done|]. split; [exact Hs|]. rewrite Hc.
  assert (Hids : forall id, id ∈ ids <-> is_Some (vr_rows v !! id)).
  { intros id. subst ids. unfold sort_ids. rewrite merge_sort_Permutation.
    rewrite list_elem_of_fmap. split.
    - intros ([id' rl] & -> & Hin%elem_of_map_to_list). by eexists.
    - intros [rl Hrl]. exists (id, rl). split; [done|]. by apply elem_of_map_to_list. }
  split; intros [? Hall]; (split; [done|]).
  - intros id links Hl. specialize (Hall id). rewrite Hl in Hall. apply Hall, Hids. by eexists.
  - intros id [links Hl]%Hids. rewrite Hl. by apply Hall.
Qed.

(** *** The walk *)

Definition walked (ls : list Link) (from to : Z) (v : verifier) : verifier :=
  let '(e, v') := check_links ls from v in if to <? e then v' else problem KindGap e 0 v'.

Lemma walk_loop_still fuel : forall e to v w,
  let S := List.filter (in_range e to) (db_Links db) in
  (length S < fuel)%nat ->
  walk_loop (ret (W:=W) (Ok db)) fuel e to v w = (Some (Ok (walked S e to v)), w).
Proof.
  induction fuel as [|fuel IH]; intros e to v w S Hlen; [lia|]. cbn [walk_loop].
  destruct (Z.ltb_spec to e) as [Hlt|Hle].
  - replace S with (@nil Link).
    + unfold walked, check_links. cbn [foldl]. by destruct (Z.ltb_spec to e); [|lia].
    + symmetry. apply filter_none. intros l _. unfold in_range.
      apply andb_false_iff. destruct (Z.leb_spec e (lk_Seq l)); [right; apply Z.leb_gt; lia|by left].
  - unfold bind, ret at 1. cbn beta iota. unfold LinksInRange. fold S.
    destruct (take linkBatch S) as [|b B] eqn:EB.
    + assert (S = []) as -> by (by destruct S). unfold walked, check_links. cbn [foldl].
      by destruct (Z.ltb_spec to e); [lia|].
    + rewrite <- EB. destruct (last (take linkBatch S)) as [x|] eqn:El;
        [|apply last_None in El; by rewrite El in EB].
      pose proof (range_drop (db_Links db) e to linkBatch x db_keyed El) as Hd. fold S in Hd.
      pose proof (check_links_next (take linkBatch S) e v) as Hn. rewrite El in Hn.
      destruct (check_links (take linkBatch S) e v) as [e' v'] eqn:Ec. simpl in Hn.
      assert (Hsm : small (take linkBatch S)).
      { unfold small in *. rewrite Forall_forall in db_small |- *. intros l Hl. apply db_small.
        assert (l ∈ S) as Hl' by (rewrite <- (take_drop linkBatch S); apply elem_of_app; by left).
        by apply elem_of_filter_in in Hl' as [? _]. }
      rewrite Hn in * by done. rewrite IH; rewrite Hd.
      * unfold walked. rewrite <- (take_drop linkBatch S) at 2. rewrite check_links_app, Ec.
        do 2 f_equal.
      * assert (S <> []) as HS by (intros E; by rewrite E in EB).
        rewrite length_drop. unfold linkBatch. destruct S; [done|]. simpl in *. lia.
Qed.
End Frozen.
