(* ===== verification/AuditExact.v ===== *)
(** * Exactly what a clean report says

    The verifier of AuditVerify.v on tables that stand still: its report has no
    problem exactly when the window's links follow each other from its first
    position to its last, the rows they name agree with them and no row is
    unchained. *)

From stdpp Require Import sorting.
From S2P Require Import Prelude.
From S2P Require Import GoStd.
From S2P Require Import Sha256.
From S2P Require Import AuditChain.
From S2P Require Import AuditVerify.
From S2P Require Import AuditSafety.
From Stdlib Require Import Sorted.

(** ** The specification *)

(** The hash the link at position [from] must follow. *)
Definition prev_of (db : ChainDB) (from : Z) : option string :=
  if from =? 1 then Some Genesis
  else option_map lk_Hash (List.find (fun l => lk_Seq l =? from - 1) (db_Links db)).

(** The window's bounds and links. *)
Definition first_pos (w : Window) : Z := Z.max (wn_FromSeq w) 1.
Definition last_pos (db : ChainDB) (w : Window) : Z :=
  let head := (Head db).1 in
  if (wn_ToSeq w =? 0) || (head <? wn_ToSeq w) then head else wn_ToSeq w.
Definition window_links (db : ChainDB) (w : Window) : list Link :=
  List.filter (in_range (first_pos w) (last_pos db w)) (db_Links db).

(** A row the window's links [n] name, as they should leave it. *)
Definition row_ok (s : Spec) (db : ChainDB) (id : Z) (n : list Link) : Prop :=
  match db_Rows db !! id with
  | None =>
      (exists l, last (history_of db id) = Some l /\ lk_Op l = "D") \/
      (exists l, l ∈ n /\ lk_Op l = "D") \/
      (exists t l, t ∈ db_Links db /\ lk_Op t = "T" /\ head n = Some l /\ lk_Seq l < lk_Seq t)
  | Some r =>
      (forall l, l ∈ n -> lk_SealedHash l = sealed_hash r) /\
      (sp_State s <> [] -> forall l, last (history_of db id) = Some l -> lk_Op l <> "D" ->
         lk_State l = state_text s r) /\
      (forall l, last (List.filter (fun l => lk_Op l =s "I") n) = Some l -> rowCarries r l = true)
  end.

Definition inserted (id : Z) (ls : list Link) : Prop :=
  exists l, l ∈ ls /\ lk_Op l = "I" /\ lk_RowID l = id.

(** The ids searched for unchained rows. *)
Definition searched (db : ChainDB) (legacy : Z) (w : Window) (id : Z) : Prop :=
  legacy < id /\
  if (first_pos w =? 1) && (last_pos db w =? (Head db).1) then id <= 2 ^ 62
  else exists a b, inserted a (window_links db w) /\ inserted b (window_links db w) /\ a <= id <= b.

Record window_ok (s : Spec) (db : ChainDB) (legacy : Z) (w : Window) : Prop := {
  wo_links : first_pos w <= last_pos db w ->
    is_Some (prev_of db (first_pos w)) /\
    linked (prev_of db (first_pos w)) (first_pos w) (window_links db w) /\
    Z.of_nat (length (window_links db w)) = last_pos db w - first_pos w + 1;
  wo_rows : forall id, named id (window_links db w) <> [] ->
    row_ok s db id (named id (window_links db w));
  wo_chained : forall id r, db_Rows db !! id = Some r -> searched db legacy w id ->
    rw_ChainSeq r <> None;
}.

(** ** Shared lemmas *)

Lemma elem_of_named id l ls : l ∈ named id ls <-> l ∈ ls /\ lk_Op l <> "T" /\ lk_RowID l = id.
Proof. unfold named, names. rewrite elem_of_filter_in, andb_true_iff, negb_true_iff, Z.eqb_eq, neqb_str. tauto. Qed.

Lemma named_inserts id ls :
  List.filter (fun l => lk_Op l =s "I") (named id ls) =
  List.filter (fun l => (lk_Op l =s "I") && (lk_RowID l =? id)) ls.
Proof.
  unfold named. induction ls as [|l ls IH]; [done|]. cbn [List.filter].
  replace (names id l) with ((lk_Op l <>s "T") && (lk_RowID l =? id)) by done.
  destruct (lk_Op l =s "I") eqn:E.
  - apply eqb_str in E. rewrite E. change ("I" <>s "T") with true. cbn [andb].
    destruct (lk_RowID l =? id); [|exact IH]. cbn [List.filter].
    by rewrite E, eqb_str_refl, IH.
  - cbn [andb]. destruct (_ && _); [|exact IH]. cbn [List.filter]. by rewrite E.
Qed.

Lemma range_whole db from to l : l ∈ List.filter (in_range from to) (db_Links db) ->
  l ∈ db_Links db /\ from <= lk_Seq l <= to.
Proof.
  rewrite elem_of_filter_in. unfold in_range. rewrite andb_true_iff, !Z.leb_le. tauto.
Qed.

(** What [insertRange] computes, for positive ids. *)
Definition entry_inserted (rows : gmap Z rowLinks) (id : Z) : Prop :=
  exists r, rows !! id = Some r /\ is_Some (rl_insert r).

Definition inserted_ids (l : list (Z * rowLinks)) : list Z :=
  map fst (List.filter (fun kv => bool_decide (is_Some (rl_insert kv.2))) l).

(** The least and the greatest of [ids], 0 and 0 without any. *)
Definition spans (ids : list Z) (b : Z * Z) : Prop :=
  (ids = [] /\ b = (0, 0)) \/
  (b.1 ∈ ids /\ b.2 ∈ ids /\ forall id, id ∈ ids -> 0 < b.1 <= id /\ id <= b.2).

Lemma spans_snoc ids lo hi k : 0 < k -> spans ids (lo, hi) ->
  spans (ids ++ [k]) (if (lo =? 0) || (k <? lo) then k else lo, if hi <? k then k else hi).
Proof.
  intros Hk [[-> [= -> ->]]|(Hlo & Hhi & Hall)]; right; cbn [fst snd] in *.
  - replace (0 <? k) with true by (symmetry; by apply Z.ltb_lt). cbn.
    rewrite list_elem_of_singleton. split_and!; [done..|]. intros id ->%list_elem_of_singleton. lia.
  - pose proof (Hall lo Hlo). pose proof (Hall hi Hhi). split_and!.
    + rewrite elem_of_app, list_elem_of_singleton. destruct (_ || _); auto.
    + rewrite elem_of_app, list_elem_of_singleton. destruct (_ <? _); auto.
    + intros id [Hid%Hall| ->%list_elem_of_singleton]%elem_of_app;
        destruct (Z.eqb_spec lo 0), (Z.ltb_spec k lo), (Z.ltb_spec hi k); cbn [orb]; lia.
Qed.

Lemma insertRange_spans rows :
  (forall id, entry_inserted rows id -> 0 < id) ->
  spans (inserted_ids (map_to_list rows)) (insertRange rows).
Proof.
  intros Hpos. unfold insertRange.
  assert (Hl : Forall (fun kv : Z * rowLinks => is_Some (rl_insert kv.2) -> 0 < kv.1) (map_to_list rows)).
  { rewrite Forall_forall. intros [k r] Hkv%elem_of_map_to_list Hi. apply Hpos. by exists r. }
  induction (map_to_list rows) as [|[k r] l IH] using rev_ind; [by left|].
  apply Forall_app in Hl as [Hl Hk%Forall_inv]. specialize (IH Hl). cbn [fst snd] in Hk.
  unfold inserted_ids in *. rewrite foldl_app, List.filter_app, map_app.
  cbn [foldl List.filter]. destruct (foldl _ _ l) as [lo hi]. cbn [fst snd].
  destruct (rl_insert r) as [i|].
  - rewrite bool_decide_eq_true_2 by done. cbn [map fst]. apply spans_snoc; [by apply Hk|exact IH].
  - rewrite bool_decide_eq_false_2 by (by intros []). cbn [map]. by rewrite app_nil_r.
Qed.

Lemma elem_of_inserted_ids rows id :
  id ∈ inserted_ids (map_to_list rows) <-> entry_inserted rows id.
Proof.
  unfold inserted_ids, entry_inserted. rewrite list_elem_of_fmap. split.
  - intros ([k r] & -> & [Hin%elem_of_map_to_list Hi%bool_decide_eq_true]%elem_of_filter_in). eauto.
  - intros (r & Hr & Hi). exists (id, r). rewrite elem_of_filter_in, elem_of_map_to_list.
    split_and!; [done..|]. by apply bool_decide_eq_true.
Qed.

Lemma insertRange_spec rows :
  (forall id, entry_inserted rows id -> 0 < id) ->
  ((insertRange rows).1 = 0 <-> forall id, ~ entry_inserted rows id) /\
  forall id, (insertRange rows).1 <> 0 ->
    (insertRange rows).1 <= id <= (insertRange rows).2 <->
    exists a b, entry_inserted rows a /\ entry_inserted rows b /\ a <= id <= b.
Proof.
  intros Hpos. setoid_rewrite <- elem_of_inserted_ids.
  destruct (insertRange_spans rows Hpos) as [[-> ->]|(Hlo & Hhi & Hall)].
  - split; [|done]. split; [|done]. by intros _ id ?%elem_of_nil.
  - split.
    + split; [|intros Hno; by destruct (Hno _ Hlo)]. intros E. pose proof (Hall _ Hlo). lia.
    + intros id _. split; [eauto|]. intros (a & b & Ha%Hall & Hb%Hall & ?). lia.
Qed.

Section Still.
Context {W : Type} (db : ChainDB).
Context (range : gmap string Z -> list (string * Z)).
Context (range_perm : forall m, range m ≡ₚ map_to_list m).
Context (s : Spec).
Context (db_keyed : keyed db) (db_small : small (db_Links db)).
Context (positive_rows : forall l, l ∈ db_Links db -> lk_Op l = "I" -> 0 < lk_RowID l).

(** ** The walk *)

Lemma start_still from v (w : W) : known v = None ->
  exists v', start (ret (Ok db)) from v w = (Ok v', w) /\ same_rows v v' /\
    known v' = prev_of db from /\
    (clean v' = true <-> clean v = true /\ is_Some (prev_of db from)).
Proof.
  intros Hk. unfold start, prev_of. destruct (from =? 1).
  - eexists. split; [done|]. split_and!; try done. rewrite clean_prev. naive_solver.
  - unfold try, bind, ret. destruct (List.find _ _) as [l|]; eexists; (split; [done|]).
    + split_and!; try done. rewrite clean_prev. naive_solver.
    + split; [done|]. split; [exact Hk|]. rewrite clean_problem. cbn [option_map].
      split; [done|]. by intros [_ []].
Qed.

Lemma range_small from to : small (List.filter (in_range from to) (db_Links db)).
Proof.
  unfold small in *. rewrite Forall_forall in db_small |- *.
  intros l [Hl _]%elem_of_filter_in. by apply db_small.
Qed.

Lemma walked_clean from to v : from <= to ->
  let S := List.filter (in_range from to) (db_Links db) in
  clean (walked S from to v) = true <->
  clean v = true /\ linked (known v) from S /\ Z.of_nat (length S) = to - from + 1.
Proof.
  intros Hft S. unfold walked. pose proof (range_small from to) as Hs. fold S in Hs.
  pose proof (check_links_next S from v Hs) as Hn. pose proof (check_links_clean S from v Hs) as Hc.
  destruct (check_links S from v) as [e v'] eqn:E. cbn [fst snd] in Hn, Hc.
  assert (Hlen : linked (known v) from S -> e = from + Z.of_nat (length S) /\ e <= to + 1).
  { intros Hl. destruct (last S) as [b|] eqn:Eb.
    - rewrite Hn, (linked_last _ _ _ _ Hl Eb). split; [done|].
      rewrite <- (linked_last _ _ _ _ Hl Eb). apply last_Some_elem_of in Eb.
      apply range_whole in Eb. lia.
    - apply last_None in Eb as ->. cbn [length]. lia. }
  destruct (Z.ltb_spec to e) as [Hlt|Hge].
  - rewrite Hc. split; [|tauto]. intros [Hv Hl]. split_and!; try done. apply Hlen in Hl. lia.
  - rewrite clean_problem. split; [done|]. intros (_ & Hl & Hz). apply Hlen in Hl. lia.
Qed.

Lemma walked_rows ls from to v : same_rows (set_rows (track_all ls (vr_rows v)) v) (walked ls from to v).
Proof.
  unfold walked. pose proof (check_links_rows ls from v) as [Hr Hl].
  destruct (check_links ls from v) as [e v']. cbn [snd] in *.
  by destruct (to <? e).
Qed.

(** ** Rows *)

Lemma named_sorted id from to :
  StronglySorted by_seq (named id (List.filter (in_range from to) (db_Links db))).
Proof. by repeat apply sorted_filter. Qed.

Lemma row_clean_ok id from to :
  1 <= from -> let n := named id (List.filter (in_range from to) (db_Links db)) in
  n <> [] ->
  row_clean range s db (truncate_seqs db) id (row_of no_links n) (db_Rows db !! id) <->
  row_ok s db id n.
Proof.
  intros Hf n Hn. unfold row_clean, row_ok. destruct (db_Rows db !! id) as [r|].
  - assert (Hins : rl_insert (row_of no_links n) = last (List.filter (fun l => lk_Op l =s "I") n)).
    { rewrite row_of_insert. by destruct (last _). }
    rewrite Hins. pose proof (row_of_sealed n) as [Hd _ _].
    assert (Hse : (forall h, is_Some (rl_sealed (row_of no_links n) !! h) -> h = sealed_hash r) <->
                  (forall l, l ∈ n -> lk_SealedHash l = sealed_hash r)).
    { split.
      - intros H l Hl. apply H, Hd. eauto.
      - intros H h (l & Hl & <-)%Hd. by apply H. }
    rewrite Hse. unfold latest_of. destruct (last (history_of db id)) as [l|]; [|naive_solver].
    destruct (lk_Op l =s "D") eqn:E.
    + apply eqb_str in E. naive_solver.
    + apply neqb_str in E. naive_solver.
  - rewrite !orb_true_iff, row_of_deleted, orb_false_r, List.existsb_exists.
    assert (Hdel : deleted_of db id = true <->
                   exists l, last (history_of db id) = Some l /\ lk_Op l = "D").
    { unfold deleted_of. destruct (last _) as [l|]; [rewrite eqb_str; naive_solver|naive_solver]. }
    rewrite Hdel. unfold truncatedAfter. rewrite List.existsb_exists.
    pose proof (named_sorted id from to) as Hs. fold n in Hs. destruct n as [|l n'] eqn:E; [done|].
    assert (Hl : 0 < lk_Seq l).
    { assert (Hin : l ∈ n) by (rewrite E; apply elem_of_cons; by left).
      apply elem_of_named in Hin as (Hin%range_whole & _). lia. }
    rewrite firstSeq_spec by done. cbn [head].
    setoid_rewrite eqb_str. setoid_rewrite Z.ltb_lt. setoid_rewrite <- list_elem_of_In.
    unfold truncate_seqs. setoid_rewrite list_elem_of_fmap. setoid_rewrite elem_of_filter_in.
    setoid_rewrite eqb_str. naive_solver.
Qed.

Lemma window_rows from to :
  1 <= from -> let ls := List.filter (in_range from to) (db_Links db) in
  (forall id links, track_all ls ∅ !! id = Some links ->
     row_clean range s db (truncate_seqs db) id links (db_Rows db !! id)) <->
  (forall id, named id ls <> [] -> row_ok s db id (named id ls)).
Proof.
  intros Hf ls. split; intros H id.
  - intros Hn. apply (row_clean_ok id from to Hf Hn). apply H.
    rewrite track_all_lookup, lookup_empty. fold ls. by destruct (named id ls).
  - intros links. rewrite track_all_lookup, lookup_empty. fold ls.
    destruct (decide (named id ls = [])) as [->|Hn]; [done|]. intros Hl.
    replace links with (row_of no_links (named id ls)).
    + by apply row_clean_ok, H.
    + destruct (named id ls); [done|]. by apply (inj Some) in Hl.
Qed.

(** ** Rows without a link *)

Lemma clean_problems kind seq ids : forall v,
  clean (foldl (fun v id => problem kind seq id v) v ids) = true <-> clean v = true /\ ids = [].
Proof.
  induction ids as [|id ids IH]; intros v; [naive_solver|]. cbn [foldl].
  rewrite IH, clean_problem. naive_solver.
Qed.

Lemma unchained_nil lo hi legacy :
  unchained db lo hi legacy = [] <->
  forall id r, db_Rows db !! id = Some r -> lo <= id <= hi -> legacy < id -> rw_ChainSeq r <> None.
Proof.
  assert (Hin : forall id, id ∈ unchained db lo hi legacy <-> exists r,
            db_Rows db !! id = Some r /\ lo <= id <= hi /\ legacy < id /\ rw_ChainSeq r = None).
  { intros id. unfold unchained, sort_ids. rewrite merge_sort_Permutation, list_elem_of_fmap.
    setoid_rewrite elem_of_filter_in. setoid_rewrite andb_true_iff. setoid_rewrite andb_true_iff.
    setoid_rewrite andb_true_iff. setoid_rewrite Z.leb_le. setoid_rewrite Z.ltb_lt.
    setoid_rewrite bool_decide_eq_true. split.
    - intros ([k r] & -> & Hr%elem_of_map_to_list & H). exists r. cbn [fst snd] in *. tauto.
    - intros (r & Hr & H). exists (id, r). rewrite elem_of_map_to_list. cbn [fst snd]. tauto. }
  split.
  - intros E id r Hr Hid Hleg Hnone. assert (Hid' : id ∈ unchained db lo hi legacy) by (apply Hin; eauto).
    rewrite E in Hid'. by apply elem_of_nil in Hid'.
  - intros H. destruct (unchained _ _ _ _) as [|id l] eqn:E; [done|].
    destruct (proj1 (Hin id)) as (r & Hr & ? & ? & ?); [rewrite elem_of_cons; by left|].
    by destruct (H id r).
Qed.

Lemma find_still lo hi v (w : W) :
  exists v', try (ret (Ok db)) (fun db => ret (Ok
    (foldl (fun v id => problem KindUnchainedRow 0 id v) v
       (take (MaxProblems + 1) (unchained db lo hi (vr_legacy v)))))) w = (Ok v', w) /\
    vr_legacy v' = vr_legacy v /\
    (clean v' = true <-> clean v = true /\ forall id r, db_Rows db !! id = Some r ->
       lo <= id <= hi -> vr_legacy v < id -> rw_ChainSeq r <> None).
Proof.
  eexists. split; [done|]. split.
  - generalize (take (MaxProblems + 1) (unchained db lo hi (vr_legacy v))). intros ids.
    revert v. induction ids as [|id ids IH]; intros v; [done|]. cbn [foldl]. by rewrite IH.
  - rewrite clean_problems, <- unchained_nil. unfold MaxProblems.
    split; intros [? E]; (split; [done|]); [|by rewrite E]. destruct (unchained _ _ _ _); [done|].
    by apply (f_equal length) in E.
Qed.

Definition in_search (full : bool) (v : verifier) (id : Z) : Prop :=
  vr_legacy v < id /\
  if full then id <= 2 ^ 62
  else exists a b, entry_inserted (vr_rows v) a /\ entry_inserted (vr_rows v) b /\ a <= id <= b.

Lemma findUnchained_still full v (w : W) :
  min_int64 <= vr_legacy v <= max_int64 ->
  (forall id, entry_inserted (vr_rows v) id -> 0 < id) ->
  exists v', findUnchained (ret (Ok db)) full v w = (Ok v', w) /\ vr_legacy v' = vr_legacy v /\
    (clean v' = true <-> clean v = true /\ forall id r, db_Rows db !! id = Some r ->
       in_search full v id -> rw_ChainSeq r <> None).
Proof.
  intros Hleg Hpos. unfold findUnchained, in_search. destruct full; cbn [negb andb].
  - destruct (find_still (wrap64 (vr_legacy v + 1)) (2 ^ 62) v w) as (v' & -> & Hl & Hc').
    exists v'. split; [done|]. split; [done|]. rewrite Hc'. split; intros [Hc Hall]; (split; [done|]).
    + intros id r Hr [Hid Hhi]. eapply Hall; [done| |done]. split; [|done].
      destruct (decide (vr_legacy v = max_int64)) as [E|E].
      * rewrite E in *. unfold max_int64 in *. lia.
      * rewrite wrap64_id; lia.
    + intros id r Hr [_ Hhi] Hid. by eapply Hall.
  - destruct (insertRange_spec (vr_rows v) Hpos) as [Hno Hspan].
    destruct (insertRange (vr_rows v)) as [lo hi]. cbn [fst snd] in *.
    destruct (Z.eqb_spec lo 0) as [->|Hne].
    + exists v. split; [done|]. split; [done|]. split; [|tauto]. intros Hc. split; [done|].
      intros id r _ (_ & a & _ & Ha & _). by destruct (proj1 Hno eq_refl a).
    + destruct (find_still lo hi v w) as (v' & -> & Hl & Hc'). exists v'.
      split; [done|]. split; [done|]. rewrite Hc'. split; intros [Hc Hall]; (split; [done|]); intros id r Hr.
      * intros [Hid Hs]. eapply Hall; [done| |done]. by apply Hspan.
      * intros Hs Hid. eapply Hall; [done|]. split; [done|]. by apply Hspan.
Qed.

Lemma countLegacy_still v (w : W) :
  exists v', countLegacy (ret (Ok db)) v w = (Ok v', w) /\ clean v' = clean v.
Proof. unfold countLegacy. destruct (_ <=? _); by eexists. Qed.

Lemma finish_still from full v (w : W) :
  min_int64 <= vr_legacy v <= max_int64 ->
  (forall id, entry_inserted (vr_rows v) id -> 0 < id) ->
  exists v', finish_run (ret (Ok db)) from full v w = (Ok v', w) /\
    (clean v' = true <-> clean v = true /\ forall id r, db_Rows db !! id = Some r ->
       in_search full v id -> rw_ChainSeq r <> None).
Proof.
  intros Hleg Hpos. unfold finish_run, bind.
  destruct (findUnchained_still full v w Hleg Hpos) as (v1 & -> & _ & Hc).
  destruct (from =? 1); [|by exists v1].
  destruct (countLegacy_still v1 w) as (v2 & -> & Hc2). exists v2. by rewrite Hc2.
Qed.

(** ** The whole verification *)

Lemma entry_inserted_track ls id : entry_inserted (track_all ls ∅) id <-> inserted id ls.
Proof.
  unfold entry_inserted, inserted. rewrite track_all_lookup, lookup_empty.
  assert (Hl : (exists l, l ∈ ls /\ lk_Op l = "I" /\ lk_RowID l = id) <->
               List.filter (fun l => lk_Op l =s "I") (named id ls) <> []).
  { rewrite named_inserts. split.
    - intros (l & Hl & Ho & Hr) E. assert (Hin : l ∈ @nil Link); [|by apply elem_of_nil in Hin].
      rewrite <- E. apply elem_of_filter_in. by rewrite Ho, Hr, eqb_str_refl, Z.eqb_refl.
    - destruct (List.filter _ ls) as [|l f] eqn:E; [done|]. intros _.
      assert (Hin : l ∈ l :: f) by (apply elem_of_cons; by left). rewrite <- E in Hin.
      apply elem_of_filter_in in Hin as [Hin [Ho%eqb_str Hr%Z.eqb_eq]%andb_true_iff]. eauto. }
  rewrite Hl. destruct (named id ls) as [|x n] eqn:En; [naive_solver|].
  rewrite <- En. transitivity (is_Some (rl_insert (row_of no_links (named id ls)))); [naive_solver|].
  rewrite row_of_insert. destruct (last _) as [l|] eqn:E.
  - split; [|by eexists]. intros _ E'. by rewrite E' in E.
  - apply last_None in E. rewrite E. split; [by intros []|done].
Qed.

Definition v_start (w : Window) (legacy : Z) : verifier :=
  {| vr_rep := set_bounds (first_pos w) (last_pos db w) (Head db).1 (Head db).2 (empty_report s);
     vr_prev := ""; vr_prevKnown := false; vr_rows := ∅; vr_legacy := legacy |}.

(** The walk and the rows of a window. *)
Lemma window_still fuel w legacy (wd : W) :
  (length (db_Links db) < fuel)%nat -> first_pos w <= last_pos db w ->
  exists v, (let! r := walk (ret (Ok db)) fuel (first_pos w) (last_pos db w) (v_start w legacy) in
       match r with
       | Some (Ok v) => let! r := checkRows (ret (Ok db)) range s v in ret (Some r)
       | other => ret other
       end) wd = (Some (Ok v), wd) /\
    vr_rows v = track_all (window_links db w) ∅ /\ vr_legacy v = legacy /\
    (clean v = true <->
       (is_Some (prev_of db (first_pos w)) /\
        linked (prev_of db (first_pos w)) (first_pos w) (window_links db w) /\
        Z.of_nat (length (window_links db w)) = last_pos db w - first_pos w + 1) /\
       forall id, named id (window_links db w) <> [] ->
         row_ok s db id (named id (window_links db w))).
Proof.
  intros Hfuel Hle. unfold walk, bind.
  destruct (start_still (first_pos w) (v_start w legacy) wd eq_refl)
    as (v1 & -> & [Hr1 Hl1] & Hk1 & Hc1).
  rewrite walk_loop_still by first [done | eapply Nat.le_lt_trans; [apply List.filter_length_le|done]].
  fold (window_links db w).
  pose proof (walked_clean (first_pos w) (last_pos db w) v1 Hle) as Hc2. cbv zeta in Hc2.
  fold (window_links db w) in Hc2.
  destruct (walked_rows (window_links db w) (first_pos w) (last_pos db w) v1) as [Hr2 Hl2].
  set (v2 := walked _ _ _ _) in *. cbn [vr_rows vr_legacy set_rows] in Hr2, Hl2. rewrite Hr1 in Hr2.
  destruct (checkRows_still db range range_perm s v2 wd) as (v3 & -> & [Hr3 Hl3] & Hc3).
  exists v3. split; [done|]. split; [by rewrite Hr3, Hr2|]. split; [by rewrite Hl3, Hl2, Hl1|].
  rewrite Hc3, Hc2, Hc1, Hk1, Hr2, (window_rows (first_pos w) (last_pos db w)) by (unfold first_pos; lia).
  fold (window_links db w). change (clean (v_start w legacy)) with true. tauto.
Qed.

Lemma run_still fuel w legacy (wd : W) :
  (length (db_Links db) < fuel)%nat -> min_int64 <= legacy <= max_int64 ->
  exists v, run_window (ret (Ok db)) range s fuel legacy (Head db).1 (Head db).2 w wd =
    (Some (Ok v), wd) /\ (clean v = true <-> window_ok s db legacy w).
Proof.
  intros Hfuel Hleg. unfold run_window. fold (first_pos w) (last_pos db w). cbv zeta.
  fold (v_start w legacy). set (full := (first_pos w =? 1) && (last_pos db w =? (Head db).1)).
  assert (Hpos : forall id, inserted id (window_links db w) -> 0 < id).
  { intros id (l & [Hl _]%range_whole & Ho & <-). by apply positive_rows. }
  assert (Hsearch : forall v, vr_rows v = track_all (window_links db w) ∅ -> vr_legacy v = legacy ->
            forall id, in_search full v id <-> searched db legacy w id).
  { intros v Hr Hl id. unfold in_search, searched. fold full. rewrite Hr, Hl.
    destruct full; [done|]. by setoid_rewrite entry_inserted_track. }
  assert (Hfin : forall v, vr_rows v = track_all (window_links db w) ∅ -> vr_legacy v = legacy ->
    exists v', (let! r := finish_run (ret (Ok db)) (first_pos w) full v in ret (Some r)) wd =
      (Some (Ok v'), wd) /\
    (clean v' = true <-> clean v = true /\ forall id r, db_Rows db !! id = Some r ->
       searched db legacy w id -> rw_ChainSeq r <> None)).
  { intros v Hr Hl. unfold bind. destruct (finish_still (first_pos w) full v wd) as (v' & -> & Hc).
    - by rewrite Hl.
    - intros id. rewrite Hr, entry_inserted_track. apply Hpos.
    - exists v'. split; [done|]. rewrite Hc. by setoid_rewrite (Hsearch v Hr Hl). }
  destruct (Z.leb_spec (first_pos w) (last_pos db w)) as [Hle|Hgt].
  - unfold bind at 1. destruct (window_still fuel w legacy wd Hfuel Hle) as (v & -> & Hr & Hl & Hc).
    destruct (Hfin v Hr Hl) as (v' & -> & Hc'). exists v'. split; [done|]. rewrite Hc', Hc.
    split; [intros [[??]?]; by split|]. intros [H1 H2 H3]. by split_and!; try apply H1.
  - assert (Hnil : window_links db w = []).
    { apply filter_none. intros l _. unfold in_range. apply andb_false_iff.
      rewrite !Z.leb_gt. lia. }
    destruct (Hfin (v_start w legacy)) as (v' & Heq & Hc'); [by rewrite Hnil|done|].
    exists v'. unfold bind at 1, ret at 1. split; [exact Heq|]. rewrite Hc'.
    split; [intros [_ H]|intros [_ _ H]; by split].
    split; [lia|by rewrite Hnil|exact H].
Qed.
End Still.

(** Tables as their schema keeps them: positions are keys in the 64-bit range,
    row ids come from a sequence, and the chain is installed. *)
Record sound_tables (db : ChainDB) (legacy : Z) : Prop := {
  st_keyed : keyed db;
  st_small : small (db_Links db);
  st_positive : forall l, l ∈ db_Links db -> lk_Op l = "I" -> 0 < lk_RowID l;
  st_boundary : db_Boundary db = Some legacy;
  st_legacy : min_int64 <= legacy <= max_int64;
}.

Definition valid_window (w : Window) : Prop :=
  0 <= wn_FromSeq w /\ 0 <= wn_ToSeq w /\ (wn_ToSeq w = 0 \/ wn_FromSeq w <= wn_ToSeq w).

Lemma valid_window_spec w : valid_window w ->
  (wn_FromSeq w <? 0) || (wn_ToSeq w <? 0) ||
  ((0 <? wn_ToSeq w) && (wn_ToSeq w <? wn_FromSeq w)) = false.
Proof.
  intros (? & ? & ?). rewrite !orb_false_iff, andb_false_iff, !Z.ltb_ge. lia.
Qed.

Lemma verifies {W} (db : ChainDB) range s legacy w fuel (wd : W)
    (range_perm : forall m, range m ≡ₚ map_to_list m)
    (Hdb : sound_tables db legacy) (Hspec : validate s = None) (Hw : valid_window w)
    (Hfuel : (length (db_Links db) < fuel)%nat) :
  exists v, Verify (ret (Ok db)) range s fuel w wd = (Some (Ok (vr_rep v)), wd) /\
    (clean v = true <-> window_ok s db legacy w).
Proof.
  destruct Hdb as [Hk Hs Hp Hb Hl].
  destruct (run_still db range range_perm s Hk Hs Hp fuel w legacy wd Hfuel Hl) as (v & Hv & Hc).
  exists v. split; [|exact Hc].
  unfold Verify. rewrite Hspec, (valid_window_spec w Hw). unfold run, bind, ret at 1. rewrite Hb.
  unfold ret at 1. destruct (Head db) as [head hash] eqn:Eh. cbn [fst snd] in Hv. by rewrite Hv.
Qed.
