(* ===== verification/AuditWriters.v ===== *)
(** * The writers never raise a false alarm

    Every chain the triggers write, from its installation on, verifies clean on
    every window while nothing goes behind them. *)

From stdpp Require Import sorting.
From S2P Require Import Prelude.
From S2P Require Import GoStd.
From S2P Require Import Sha256.
From S2P Require Import AuditChain.
From S2P Require Import AuditVerify.
From S2P Require Import AuditSample.
From S2P Require Import AuditSafety.
From S2P Require Import AuditExact.
From Stdlib Require Import Sorted.

(** ** Linked chains *)

Lemma linked_app prev seq ls ms :
  linked prev seq (ls ++ ms) <->
  linked prev seq ls /\
  linked (match last ls with Some l => Some (lk_Hash l) | None => prev end)
         (seq + Z.of_nat (length ls)) ms.
Proof.
  revert prev seq. induction ls as [|l ls IH]; intros prev seq; cbn [app linked last]; cbn [length].
  - rewrite Z.add_0_r. tauto.
  - rewrite IH. replace (seq + 1 + Z.of_nat (length ls)) with (seq + Z.of_nat (S (length ls))) by lia.
    destruct ls as [|m ls]; cbn [last length]; [tauto|].
    destruct (last (m :: ls)) eqn:E; [tauto|]. by apply last_None in E.
Qed.

Lemma linked_seq prev seq ls i l :
  linked prev seq ls -> ls !! i = Some l -> lk_Seq l = seq + Z.of_nat i.
Proof.
  revert prev seq i. induction ls as [|m ls IH]; intros prev seq [|i]; try done.
  - intros (Hs & _) [= <-]. lia.
  - intros (_ & _ & _ & Hl) Hi. rewrite (IH _ _ i Hl Hi). lia.
Qed.

Lemma linked_sorted prev seq ls : linked prev seq ls -> StronglySorted by_seq ls.
Proof.
  revert prev seq. induction ls as [|l ls IH]; intros prev seq; [constructor|].
  intros (Hs & _ & _ & Hl). constructor; [by eapply IH|]. rewrite Forall_forall.
  intros m [i Hi]%list_elem_of_lookup. unfold by_seq. rewrite (linked_seq _ _ _ _ _ Hl Hi). lia.
Qed.

Lemma linked_weaken p seq ls : linked p seq ls -> linked None seq ls.
Proof. destruct ls; [done|]. intros (? & _ & ? & ?). by split_and!. Qed.

(** A range of a whole chain is a stretch of it. *)
Lemma linked_range ls : forall prev seq from to,
  linked prev seq ls -> seq <= from -> to < seq + Z.of_nat (length ls) ->
  List.filter (in_range from to) ls =
  take (Z.to_nat (to - from + 1)) (drop (Z.to_nat (from - seq)) ls).
Proof.
  induction ls as [|l ls IH]; intros prev seq from to Hl Hf Ht; [by rewrite drop_nil, take_nil|].
  destruct Hl as (Hs & _ & _ & Hl). cbn [List.filter length] in *. unfold in_range at 1. rewrite Hs.
  destruct (Z.leb_spec from seq) as [Hle|Hgt]; cbn [andb].
  - replace from with seq by lia. rewrite Z.sub_diag. change (drop (Z.to_nat 0) (l :: ls)) with (l :: ls).
    destruct (Z.leb_spec seq to) as [Hst|Hst].
    + replace (Z.to_nat (to - seq + 1)) with (S (Z.to_nat (to - (seq + 1) + 1))) by lia.
      cbn [take]. f_equal. rewrite <- (filter_ext_in (in_range (seq + 1) to)).
      * rewrite (IH _ (seq + 1)) by (try done; lia). by rewrite Z.sub_diag.
      * intros x [i Hi]%list_elem_of_lookup. unfold in_range.
        rewrite (linked_seq _ _ _ _ _ Hl Hi). f_equal. apply Bool.eq_iff_eq_true. rewrite !Z.leb_le. lia.
    + replace (Z.to_nat (to - seq + 1)) with 0%nat by lia. rewrite take_0.
      apply filter_none. intros x [i Hi]%list_elem_of_lookup. unfold in_range.
      rewrite (linked_seq _ _ _ _ _ Hl Hi). apply andb_false_iff. right. apply Z.leb_gt. lia.
  - rewrite (IH _ (seq + 1)) by (try done; lia).
    by replace (Z.to_nat (from - seq)) with (S (Z.to_nat (from - (seq + 1)))) by lia.
Qed.

(** ** The invariant *)

Definition history (ls : list Link) (id : Z) : list Link :=
  List.filter (fun l => (lk_RowID l =? id) && str_in (lk_Op l) ["I"; "U"; "D"]) ls.

Definition on_row (id : Z) (l : Link) : Prop := lk_Op l <> "T" /\ lk_RowID l = id.

(** A row in the table agrees with all its links. *)
Record live_ok (s : Spec) (legacy : Z) (ls : list Link) (id : Z) (r : Row) : Prop := {
  lo_sealed : forall l, l ∈ ls -> on_row id l -> lk_SealedHash l = sealed_hash r;
  lo_carries : forall l, l ∈ ls -> on_row id l -> lk_Op l = "I" -> rowCarries r l = true;
  lo_state : sp_State s <> [] -> forall l, last (history ls id) = Some l -> lk_Op l <> "D" ->
    lk_State l = state_text s r;
  lo_chained : legacy < id -> rw_ChainSeq r <> None;
}.

(** A row gone from the table is recorded as deleted or truncated. *)
Definition gone_ok (ls : list Link) (id : Z) : Prop :=
  (exists l, last (history ls id) = Some l /\ lk_Op l = "D") \/
  (exists t, t ∈ ls /\ lk_Op t = "T" /\ forall l, l ∈ ls -> on_row id l -> lk_Seq l < lk_Seq t) \/
  (forall l, l ∈ ls -> ~ on_row id l).

Record chain_inv (s : Spec) (legacy : Z) (db : ChainDB) : Prop := {
  ci_linked : linked (Some Genesis) 1 (db_Links db);
  ci_boundary : db_Boundary db = Some legacy;
  ci_inserts : forall l, l ∈ db_Links db -> lk_Op l = "I" -> 0 < lk_RowID l;
  ci_live : forall id r, db_Rows db !! id = Some r -> live_ok s legacy (db_Links db) id r;
  ci_gone : forall id, db_Rows db !! id = None -> gone_ok (db_Links db) id;
}.

(** *** One more link *)

Lemma history_snoc ls id l :
  history (ls ++ [l]) id =
  history ls id ++ if (lk_RowID l =? id) && str_in (lk_Op l) ["I"; "U"; "D"] then [l] else [].
Proof. unfold history. rewrite List.filter_app. cbn [List.filter]. by destruct (_ && _). Qed.

Lemma history_other ls id l : ~ on_row id l -> history (ls ++ [l]) id = history ls id.
Proof.
  intros Hn. rewrite history_snoc. destruct (_ && _) eqn:E; [|by rewrite app_nil_r].
  exfalso. apply andb_true_iff in E as [Hid%Z.eqb_eq Ho]. apply Hn. split; [|done].
  intros HT. by rewrite HT in Ho.
Qed.

Lemma history_mine ls id l :
  lk_RowID l = id -> lk_Op l ∈ ["I"; "U"; "D"] -> last (history (ls ++ [l]) id) = Some l.
Proof.
  intros Hid Ho%str_in_spec. rewrite history_snoc, Hid, Z.eqb_refl, Ho. cbn [andb]. apply last_snoc.
Qed.

Lemma live_other s legacy ls id r l :
  ~ on_row id l -> live_ok s legacy ls id r -> live_ok s legacy (ls ++ [l]) id r.
Proof.
  intros Hn [Hs Hc Ht Hch]. split; [..|done].
  - intros m [Hm| ->]%elem_of_snoc; [by apply Hs|done].
  - intros m [Hm| ->]%elem_of_snoc; [by apply Hc|done].
  - by rewrite history_other.
Qed.

Lemma gone_other ls id l : ~ on_row id l -> gone_ok ls id -> gone_ok (ls ++ [l]) id.
Proof.
  intros Hn [Hd|[(t & Ht & Ho & Hall)|Hno]].
  - left. by rewrite history_other.
  - right; left. exists t. split; [apply elem_of_snoc; by left|]. split; [done|].
    intros m [Hm| ->]%elem_of_snoc Hr; [by apply Hall|done].
  - right; right. intros m [Hm| ->]%elem_of_snoc; [by apply Hno|done].
Qed.

(** ** What the writers append *)

Lemma LinkHash_ext l m : preimage l = preimage m -> LinkHash l = LinkHash m.
Proof. unfold LinkHash. by intros ->. Qed.

Lemma append_spec db row op v sealed state at_ user app :
  let '(l, db') := audit_chain_append db row op v sealed state at_ user app in
  db' = {| db_Links := db_Links db ++ [l]; db_Rows := db_Rows db; db_Boundary := db_Boundary db |} /\
  lk_RowID l = row /\ lk_Op l = op /\ lk_SealedHash l = sealed /\ lk_State l = state /\
  (linked (Some Genesis) 1 (db_Links db) ->
     linked (Some Genesis) 1 (db_Links db ++ [l]) /\
     forall m, m ∈ db_Links db -> lk_Seq m < lk_Seq l).
Proof.
  unfold audit_chain_append. set (sp := match last _ with Some _ => _ | None => _ end).
  destruct sp as [seq prev] eqn:E. split_and!; [done..|]. intros Hl.
  assert (Hseq : seq + 1 = 1 + Z.of_nat (length (db_Links db)) /\
    forall p, match last (db_Links db) with Some l => Some (lk_Hash l) | None => Some Genesis end = Some p ->
      prev = p).
  { subst sp. destruct (last (db_Links db)) as [b|] eqn:Eb; injection E as <- <-.
    - rewrite (linked_last _ _ _ _ Hl Eb). split; [done|]. by intros p [= ->].
    - apply last_None in Eb as ->. split; [done|]. by intros p [= ->]. }
  destruct Hseq as [Hseq Hprev]. split.
  - rewrite linked_app. split; [done|]. cbn [linked]. split_and!; [exact Hseq|exact Hprev| |done].
    cbn [lk_Hash]. by apply LinkHash_ext.
  - intros m [i Hi]%list_elem_of_lookup. rewrite (linked_seq _ _ _ _ _ Hl Hi). cbn [lk_Seq].
    apply lookup_lt_Some in Hi. lia.
Qed.

Definition carry (l : Link) (r : Row) : Row :=
  {| rw_Sealed := rw_Sealed r; rw_State := rw_State r; rw_ChainSeq := Some (lk_Seq l);
     rw_ChainPrev := Some (lk_PrevHash l); rw_ChainHash := Some (lk_Hash l) |}.

Lemma carry_carries l r : rowCarries (carry l r) l = true.
Proof. unfold rowCarries, carry. cbn. by rewrite !bool_decide_eq_true_2. Qed.

Lemma link_spec s ss op id r db : exists l,
  audit_chain_link s ss op id r db =
    {| db_Links := db_Links db ++ [l];
       db_Rows := if op =s "I" then alter (carry l) id (db_Rows db) else db_Rows db;
       db_Boundary := db_Boundary db |} /\
  lk_RowID l = id /\ lk_Op l = op /\ lk_SealedHash l = sealed_hash r /\
  lk_State l = (if op =s "D" then "" else state_text s r) /\
  (linked (Some Genesis) 1 (db_Links db) -> linked (Some Genesis) 1 (db_Links db ++ [l])).
Proof.
  unfold audit_chain_link.
  pose proof (append_spec db id op (sp_Version s) (sealed_hash r)
    (if op =s "D" then "" else state_text s r) (ss_At ss) (ss_User ss) (ss_App ss)) as Ha.
  destruct (audit_chain_append _ _ _ _ _ _ _ _ _) as [l db']. exists l.
  destruct Ha as (-> & ? & ? & ? & ? & Hl). split_and!; try done; [|naive_solver].
  by destruct (op =s "I").
Qed.

(** ** Every commit keeps the invariant *)

Lemma installed_inv s db : installed db ->
  exists legacy, 0 <= legacy <= max_int64 /\ chain_inv s legacy db.
Proof.
  intros [Hl (legacy & Hb & Hleg & Hrows)]. exists legacy. split; [done|]. split; rewrite ?Hl.
  - done.
  - exact Hb.
  - by intros l ?%elem_of_nil.
  - intros id r Hr. apply Hrows in Hr. split; try by intros l ?%elem_of_nil.
    + done.
    + lia.
  - intros id _. right; right. by intros l ?%elem_of_nil.
Qed.

Section Steps.
Context (s : Spec) (legacy : Z).

(** A link of row [id] touches no other row. *)
Lemma inv_others id l id' :
  lk_RowID l = id -> id' <> id -> ~ on_row id' l.
Proof. intros <- Hne [_ Hid]. by apply Hne. Qed.

Lemma insert_inv ss id sealed state db :
  chain_inv s legacy db -> 0 < id -> LinksForRow db id = [] ->
  chain_inv s legacy (insert_row s ss id sealed state db).
Proof.
  intros [Hl Hb Hi Hlive Hgone] Hpos Hnew. unfold insert_row. cbv zeta.
  set (r := Build_Row sealed state None None None).
  destruct (link_spec s ss "I" id r (with_rows (<[id:=r]> (db_Rows db)) db))
    as (l & -> & Hid & Ho & Hs & Hst & Hl'). change ("I" =s "I") with true. cbn [with_rows db_Links db_Rows db_Boundary] in *.
  assert (Hnone : forall m, m ∈ db_Links db -> lk_RowID m <> id).
  { intros m Hm Heq. assert (Hin : m ∈ LinksForRow db id).
    { apply elem_of_filter_in. by rewrite Heq, Z.eqb_refl. }
    rewrite Hnew in Hin. by apply elem_of_nil in Hin. }
  split; cbn [db_Links db_Rows db_Boundary]; [by apply Hl'|done|..].
  - intros m [Hm| ->]%elem_of_snoc; [by apply Hi|]. intros _. lia.
  - intros id' r'. rewrite lookup_alter. destruct (decide (id = id')) as [<-|Hne].
    + rewrite lookup_insert_eq. intros [= <-]. split.
      * intros m [Hm| ->]%elem_of_snoc [_ Hmid]; [by apply Hnone in Hm|exact Hs].
      * intros m [Hm| ->]%elem_of_snoc [_ Hmid] _; [by apply Hnone in Hm|apply carry_carries].
      * intros _ m. rewrite history_mine; [intros [= <-] _; exact Hst|done|].
        rewrite Ho. apply elem_of_cons; by left.
      * done.
    + rewrite lookup_insert_ne by done. intros Hr'. apply live_other; [|by apply Hlive].
      eapply inv_others; [done..|]. congruence.
  - intros id'. rewrite lookup_alter. destruct (decide (id = id')) as [<-|Hne].
    + by rewrite lookup_insert_eq.
    + rewrite lookup_insert_ne by done. intros Hr'. apply gone_other; [|by apply Hgone].
      eapply inv_others; [done..|]. congruence.
Qed.

(** The row of [id] becomes [new], with the chain columns of [old]. *)
Definition same_chain (old new : Row) : Prop :=
  sealed_hash new = sealed_hash old /\ rw_ChainSeq new = rw_ChainSeq old /\
  rw_ChainPrev new = rw_ChainPrev old /\ rw_ChainHash new = rw_ChainHash old.

Lemma same_chain_carries old new l : same_chain old new -> rowCarries new l = rowCarries old l.
Proof. intros (_ & H1 & H2 & H3). unfold rowCarries. by rewrite H1, H2, H3. Qed.

Lemma live_same ls id old new :
  same_chain old new -> state_text s old = state_text s new ->
  live_ok s legacy ls id old -> live_ok s legacy ls id new.
Proof.
  intros Hc Ht [Hs Hca Hst Hch]. split.
  - intros l Hl Hid. destruct Hc as (-> & _). by apply Hs.
  - intros l Hl Hid Ho. rewrite (same_chain_carries _ _ _ Hc). by apply Hca.
  - rewrite <- Ht. exact Hst.
  - destruct Hc as (_ & -> & _). exact Hch.
Qed.

Lemma live_updated ls id old new l :
  same_chain old new -> on_row id l -> lk_Op l = "U" -> lk_SealedHash l = sealed_hash new ->
  lk_State l = state_text s new ->
  live_ok s legacy ls id old -> live_ok s legacy (ls ++ [l]) id new.
Proof.
  intros Hc [_ Hid] Ho Hse Hst [Hs Hca _ Hch]. split.
  - intros m [Hm| ->]%elem_of_snoc Hmid; [|done]. destruct Hc as (-> & _). by apply Hs.
  - intros m [Hm| ->]%elem_of_snoc Hmid HI; [|by rewrite Ho in HI].
    rewrite (same_chain_carries _ _ _ Hc). by apply Hca.
  - intros _ m. rewrite history_mine; [by intros [= <-] _|done|].
    rewrite Ho. apply str_in_spec. done.
  - destruct Hc as (_ & -> & _). exact Hch.
Qed.

(** Rows other than [id], after one more link of [id]. *)
Lemma other_rows db id l : lk_RowID l = id -> chain_inv s legacy db ->
  forall id', id' <> id ->
  (forall r, db_Rows db !! id' = Some r -> live_ok s legacy (db_Links db ++ [l]) id' r) /\
  (db_Rows db !! id' = None -> gone_ok (db_Links db ++ [l]) id').
Proof.
  intros Hid Hinv id' Hne. split.
  - intros r Hr. apply live_other; [by eapply inv_others|by apply Hinv].
  - intros Hn. apply gone_other; [by eapply inv_others|by apply Hinv].
Qed.

Lemma update_inv ss id state db :
  chain_inv s legacy db -> chain_inv s legacy (update_state s ss id state db).
Proof.
  intros Hinv. unfold update_state. destruct (db_Rows db !! id) as [old|] eqn:Eold; [|done].
  set (new := Build_Row (rw_Sealed old) state _ _ _). cbv zeta.
  assert (Hc : same_chain old new) by done.
  pose proof Hinv as [Hl Hb Hi Hlive Hgone]. pose proof (Hlive id old Eold) as Hold.
  destruct (state_text s old =s state_text s new) eqn:Et.
  - apply eqb_str in Et. split; cbn [with_rows db_Links db_Rows db_Boundary]; try done.
    + intros id' r. rewrite lookup_insert_Some. intros [[<- <-]|[_ Hr]]; [|by apply Hlive].
      by apply (live_same _ _ old).
    + intros id'. rewrite lookup_insert_None. intros [Hr _]. by apply Hgone.
  - destruct (link_spec s ss "U" id new (with_rows (<[id:=new]> (db_Rows db)) db))
      as (l & -> & Hid & Ho & Hs & Hst & Hl'). change ("U" =s "I") with false.
    cbn [with_rows db_Links db_Rows db_Boundary] in *.
    split; cbn [db_Links db_Rows db_Boundary]; [by apply Hl'|done|..].
    + intros m [Hm| ->]%elem_of_snoc; [by apply Hi|]. by rewrite Ho.
    + intros id' r. rewrite lookup_insert_Some. intros [[<- <-]|[Hne Hr]].
      * eapply live_updated; try done. split; [by rewrite Ho|done].
      * eapply other_rows; [exact Hid|done|congruence|done].
    + intros id'. rewrite lookup_insert_None. intros [Hr Hne].
      eapply other_rows; [exact Hid|done|congruence|done].
Qed.

Lemma delete_inv ss id db :
  chain_inv s legacy db -> chain_inv s legacy (delete_row s ss id db).
Proof.
  intros Hinv. unfold delete_row. destruct (db_Rows db !! id) as [old|] eqn:Eold; [|done].
  pose proof Hinv as [Hl Hb Hi Hlive Hgone].
  destruct (link_spec s ss "D" id old (with_rows (delete id (db_Rows db)) db))
    as (l & -> & Hid & Ho & Hs & Hst & Hl'). change ("D" =s "I") with false.
  cbn [with_rows db_Links db_Rows db_Boundary] in *.
  split; cbn [db_Links db_Rows db_Boundary]; [by apply Hl'|done|..].
  - intros m [Hm| ->]%elem_of_snoc; [by apply Hi|]. by rewrite Ho.
  - intros id' r. rewrite lookup_delete_Some. intros [Hne Hr].
    eapply other_rows; [exact Hid|done|congruence|done].
  - intros id'. rewrite lookup_delete_None. destruct (decide (id = id')) as [<-|Hne].
    + intros _. left. exists l. split; [|done]. apply history_mine; [done|].
      rewrite Ho. by apply str_in_spec.
    + intros [?|Hr]; [done|]. eapply other_rows; [exact Hid|done|congruence|done].
Qed.

Lemma truncate_inv ss db : chain_inv s legacy db -> chain_inv s legacy (truncate_rows ss db).
Proof.
  intros [Hl Hb Hi Hlive Hgone]. unfold truncate_rows.
  pose proof (append_spec db 0 "T" 1 "" "" (ss_At ss) (ss_User ss) (ss_App ss)) as Ha.
  destruct (audit_chain_append _ _ _ _ _ _ _ _ _) as [l db'].
  destruct Ha as (-> & _ & Ho & _ & _ & Hl'). destruct (Hl' Hl) as [Hl1 Hlt].
  split; cbn [snd with_rows db_Links db_Rows db_Boundary]; try done.
  - intros m [Hm| ->]%elem_of_snoc; [by apply Hi|]. by rewrite Ho.
  - intros id _. right; left. exists l. split; [apply elem_of_snoc; by right|]. split; [done|].
    intros m [Hm| ->]%elem_of_snoc [HT _]; [by apply Hlt|done].
Qed.

Lemma commit_inv db db' : commit s db db' -> chain_inv s legacy db -> chain_inv s legacy db'.
Proof.
  intros [ss id sealed state db0 leg _ _ Hpos _ Hnew|ss id state db0|ss id db0|ss db0] Hinv;
    auto using insert_inv, update_inv, delete_inv, truncate_inv.
Qed.

Lemma commits_inv db db' : rtc (commit s) db db' -> chain_inv s legacy db -> chain_inv s legacy db'.
Proof. induction 1; eauto using commit_inv. Qed.
End Steps.

(** ** A written chain verifies *)

Lemma linked_lookup prev seq ls i : linked prev seq ls ->
  (i < length ls)%nat ->
  linked (match last (take i ls) with Some l => Some (lk_Hash l) | None => prev end)
         (seq + Z.of_nat i) (drop i ls).
Proof.
  intros Hl Hi. rewrite <- (take_drop i ls) in Hl. apply linked_app in Hl as [_ Hl].
  rewrite length_take in Hl. by replace (min i (length ls)) with i in Hl by lia.
Qed.

Lemma head_linked db : linked (Some Genesis) 1 (db_Links db) ->
  (Head db).1 = Z.of_nat (length (db_Links db)).
Proof.
  intros Hl. unfold Head. destruct (last (db_Links db)) as [b|] eqn:E; cbn [fst].
  - pose proof (linked_last _ _ _ _ Hl E). lia.
  - by apply last_None in E as ->.
Qed.

(** The link before position [from]. *)
Lemma prev_linked db from : linked (Some Genesis) 1 (db_Links db) ->
  1 <= from <= Z.of_nat (length (db_Links db)) ->
  prev_of db from = match last (take (Z.to_nat (from - 1)) (db_Links db)) with
                    | Some l => Some (lk_Hash l) | None => Some Genesis end /\
  is_Some (prev_of db from).
Proof.
  intros Hl Hf. unfold prev_of. destruct (Z.eqb_spec from 1) as [->|Hne]; [by split|].
  destruct (lookup_lt_is_Some_2 (db_Links db) (Z.to_nat (from - 2))) as [l Hi]; [lia|].
  assert (Hlast : last (take (Z.to_nat (from - 1)) (db_Links db)) = Some l).
  { rewrite last_lookup, length_take, lookup_take_lt by lia. rewrite <- Hi. f_equal. lia. }
  rewrite Hlast. destruct (List.find _ _) as [l'|] eqn:E.
  - apply List.find_some in E as [Hin%list_elem_of_In Heq%Z.eqb_eq].
    apply list_elem_of_lookup in Hin as [j Hj]. pose proof (linked_seq _ _ _ _ _ Hl Hj).
    replace j with (Z.to_nat (from - 2)) in Hj by lia. rewrite Hi in Hj. injection Hj as <-.
    by split.
  - exfalso. assert (Hin : List.In l (db_Links db)).
    { apply list_elem_of_In, list_elem_of_lookup. eauto. }
    apply (List.find_none _ _ E) in Hin. apply Z.eqb_neq in Hin. apply Hin.
    rewrite (linked_seq _ _ _ _ _ Hl Hi). lia.
Qed.

Lemma inv_links s legacy db w : chain_inv s legacy db -> valid_window w ->
  first_pos w <= last_pos db w ->
  is_Some (prev_of db (first_pos w)) /\
  linked (prev_of db (first_pos w)) (first_pos w) (window_links db w) /\
  Z.of_nat (length (window_links db w)) = last_pos db w - first_pos w + 1.
Proof.
  intros Hinv Hw Hle. pose proof (ci_linked _ _ _ Hinv) as Hl.
  assert (Hto : last_pos db w <= Z.of_nat (length (db_Links db))).
  { unfold last_pos. cbv zeta. rewrite <- (head_linked db Hl).
    destruct (Z.eqb_spec (wn_ToSeq w) 0), (Z.ltb_spec (Head db).1 (wn_ToSeq w)); cbn [orb]; lia. }
  assert (Hfrom : 1 <= first_pos w) by (unfold first_pos; lia).
  destruct (prev_linked db (first_pos w) Hl) as [Hp Hs]; [lia|]. split; [exact Hs|].
  unfold window_links. rewrite (linked_range _ _ _ _ _ Hl) by lia. split.
  - pose proof (linked_lookup _ _ _ (Z.to_nat (first_pos w - 1)) Hl ltac:(lia)) as Hd.
    rewrite <- Hp in Hd. replace (1 + Z.of_nat _) with (first_pos w) in Hd by lia.
    rewrite <- (take_drop (Z.to_nat (last_pos db w - first_pos w + 1)) (drop _ _)) in Hd.
    by apply linked_app in Hd as [? _].
  - rewrite length_take, length_drop. lia.
Qed.

Lemma named_in_range id from to db l :
  l ∈ named id (List.filter (in_range from to) (db_Links db)) -> l ∈ db_Links db /\ on_row id l.
Proof. intros (Hin & Ho & Hid)%elem_of_named. apply range_whole in Hin as [? _]. done. Qed.

Lemma inv_rows s legacy db w id : chain_inv s legacy db ->
  named id (window_links db w) <> [] -> row_ok s db id (named id (window_links db w)).
Proof.
  intros Hinv Hn. unfold row_ok. destruct (db_Rows db !! id) as [r|] eqn:Er.
  - destruct (ci_live _ _ _ Hinv id r Er) as [Hs Hc Ht _]. split_and!.
    + intros l [Hl Hr]%named_in_range. by apply Hs.
    + exact Ht.
    + intros l [Hl Ho%eqb_str]%last_Some_elem_of%elem_of_filter_in.
      apply named_in_range in Hl as [Hl Hr]. by apply Hc.
  - destruct (ci_gone _ _ _ Hinv id Er) as [Hd|[(t & Ht & Ho & Hall)|Hno]].
    + by left.
    + right; right. destruct (named id (window_links db w)) as [|l n] eqn:E; [done|].
      exists t, l. split_and!; try done.
      assert (Hin : l ∈ named id (window_links db w)) by (rewrite E; apply elem_of_cons; by left).
      apply named_in_range in Hin as [Hl Hr]. by apply Hall.
    + destruct (named id (window_links db w)) as [|l n] eqn:E; [done|].
      assert (Hin : l ∈ named id (window_links db w)) by (rewrite E; apply elem_of_cons; by left).
      apply named_in_range in Hin as [Hl Hr]. by apply Hno in Hl.
Qed.

Lemma inv_window s legacy db w : chain_inv s legacy db -> valid_window w ->
  window_ok s db legacy w.
Proof.
  intros Hinv Hw. split.
  - by eapply inv_links.
  - intros id. by eapply inv_rows.
  - intros id r Hr [Hid _]. by apply (ci_live _ _ _ Hinv id r Hr).
Qed.

Lemma inv_tables s legacy db : chain_inv s legacy db -> 0 <= legacy <= max_int64 ->
  Z.of_nat (length (db_Links db)) < max_int64 -> sound_tables db legacy.
Proof.
  intros [Hl Hb Hi _ _] Hleg Hlen. split; try done.
  - by eapply linked_sorted.
  - unfold small. rewrite Forall_forall. intros l [i Hi']%list_elem_of_lookup.
    rewrite (linked_seq _ _ _ _ _ Hl Hi'). apply lookup_lt_Some in Hi'.
    unfold min_int64. lia.
  - unfold min_int64. lia.
Qed.

(** Tables that differ in other columns of their links only. *)
Definition link_keys (ls : list Link) : list (Z * Z * string) :=
  map (fun l => (lk_Seq l, lk_RowID l, lk_Op l)) ls.

Lemma relinked_elem ls ls' l : link_keys ls' = link_keys ls -> l ∈ ls' ->
  exists m, m ∈ ls /\ lk_Seq m = lk_Seq l /\ lk_RowID m = lk_RowID l /\ lk_Op m = lk_Op l.
Proof.
  intros E Hl. assert (Hin : (lk_Seq l, lk_RowID l, lk_Op l) ∈ link_keys ls').
  { apply list_elem_of_fmap. eauto. }
  rewrite E in Hin. apply list_elem_of_fmap in Hin as (m & [= -> -> ->] & Hm). eauto.
Qed.

Lemma relinked_sorted ls : forall ls', link_keys ls' = link_keys ls ->
  StronglySorted by_seq ls -> StronglySorted by_seq ls'.
Proof.
  induction ls as [|l ls IH]; intros [|l' ls'] E Hs; try done.
  injection E as Es _ _ E. apply StronglySorted_inv in Hs as [Hs Hf].
  constructor; [by apply IH|]. rewrite Forall_forall in Hf |- *. intros m Hm.
  destruct (relinked_elem ls ls' m E Hm) as (x & Hx & Hseq & _). specialize (Hf x Hx).
  unfold by_seq in *. lia.
Qed.

Lemma sound_relinked db db' legacy : sound_tables db legacy ->
  link_keys (db_Links db') = link_keys (db_Links db) ->
  db_Boundary db' = db_Boundary db -> sound_tables db' legacy.
Proof.
  intros [Hk Hs Hp Hb Hl] E Eb. split; [..|by rewrite Eb|done].
  - by eapply relinked_sorted.
  - unfold small in *. rewrite Forall_forall in Hs |- *. intros l Hl'.
    destruct (relinked_elem _ _ l E Hl') as (m & Hm & <- & _). by apply Hs.
  - intros l Hl' Ho. destruct (relinked_elem _ _ l E Hl') as (m & Hm & _ & <- & Em).
    apply Hp; [done|congruence].
Qed.

(** C20: On tables that stand still, with an installed chain whose positions are below
    the largest bigint and whose inserts name positive ids, a verification ends with a
    report, and the report is OK exactly when the window's links are all there, each
    at its position, following its predecessor and hashing to itself, every row they
    name agrees with its links - in its state only where the last of them is no delete -
    or is recorded as gone, and no row of the searched ids is unchained. *)
Theorem verify_ok_exact {W} (db : ChainDB) range s legacy w fuel (wd : W)
    (range_perm : forall m, range m ≡ₚ map_to_list m)
    (Hdb : sound_tables db legacy) (Hspec : validate s = None) (Hw : valid_window w)
    (Hfuel : (length (db_Links db) < fuel)%nat) :
  exists rep, Verify (ret (Ok db)) range s fuel w wd = (Some (Ok rep), wd) /\
    (report_OK rep = true <-> window_ok s db legacy w).
Proof.
  destruct (verifies db range s legacy w fuel wd range_perm Hdb Hspec Hw Hfuel) as (v & Hv & Hc).
  by exists (vr_rep v).
Qed.

(** The sample chain is written by commits. *)
Lemma sample_commits3 : rtc (commit ActionLog) chain0 chain3.
Proof.
  apply (rtc_l _ _ chain1); [by apply (commit_insert _ _ _ _ _ _ 1); vm_compute|].
  apply (rtc_l _ _ chain2); [by apply (commit_insert _ _ _ _ _ _ 1); vm_compute|].
  apply rtc_once, commit_update.
Qed.

Lemma sample_commits : rtc (commit ActionLog) chain0 chain5.
Proof.
  transitivity chain3; [apply sample_commits3|].
  apply (rtc_l _ _ chain4); [apply commit_delete|].
  apply rtc_once. by apply (commit_insert _ _ _ _ _ _ 1); vm_compute.
Qed.

Lemma sample_installed : installed chain0.
Proof.
  split; [done|]. exists 1. split_and!; [done..|]. by apply map_Forall_singleton.
Qed.

Lemma sample_sound db : rtc (commit ActionLog) chain0 db ->
  Z.of_nat (length (db_Links db)) < max_int64 -> sound_tables db 1.
Proof.
  intros Hdb Hlen. destruct (installed_inv ActionLog chain0 sample_installed) as (legacy & Hleg & Hinv).
  pose proof (ci_boundary _ _ _ Hinv) as Hb. injection Hb as <-.
  apply (inv_tables ActionLog); [by apply (commits_inv _ _ chain0), Hinv|done|done].
Qed.

Lemma sample_tables3 : sound_tables chain3 1.
Proof. apply sample_sound; [apply sample_commits3|by vm_compute]. Qed.

Lemma sample_tables : sound_tables chain5 1.
Proof. apply sample_sound; [apply sample_commits|by vm_compute]. Qed.

Lemma verify_ok_exact_witness :
  exists rep, Verify (ret (Ok chain5)) map_to_list ActionLog 100 full tt = (Some (Ok rep), tt) /\
    (report_OK rep = true <-> window_ok ActionLog chain5 1 full).
Proof.
  apply (verify_ok_exact chain5 map_to_list ActionLog 1 full 100 tt); [done|apply sample_tables|..].
  - by vm_compute.
  - unfold valid_window. cbn. lia.
  - vm_compute. lia.
Defined.

(** C19: No false alarm: every chain that committed changes write from its
    installation on, by whatever sessions, verifies with an OK report on every
    window, as long as its positions fit 64 bits and nothing commits while the
    verification reads. *)
Theorem written_chain_verifies {W} s db0 db range w fuel (wd : W)
    (range_perm : forall m, range m ≡ₚ map_to_list m)
    (Hnew : installed db0) (Hcommits : rtc (commit s) db0 db)
    (Hspec : validate s = None) (Hw : valid_window w)
    (Hlen : Z.of_nat (length (db_Links db)) < max_int64)
    (Hfuel : (length (db_Links db) < fuel)%nat) :
  exists rep, Verify (ret (Ok db)) range s fuel w wd = (Some (Ok rep), wd) /\
    report_OK rep = true.
Proof.
  destruct (installed_inv s db0 Hnew) as (legacy & Hleg & Hinv).
  apply (commits_inv s legacy db0 db Hcommits) in Hinv.
  destruct (verifies db range s legacy w fuel wd range_perm
    (inv_tables _ _ _ Hinv Hleg Hlen) Hspec Hw Hfuel) as (v & Hv & Hok).
  exists (vr_rep v). split; [done|]. by apply Hok, inv_window.
Qed.

Lemma written_chain_verifies_witness :
  exists rep, Verify (ret (Ok chain5)) map_to_list ActionLog 100
    {| wn_FromSeq := 2; wn_ToSeq := 4 |} tt = (Some (Ok rep), tt) /\ report_OK rep = true.
Proof.
  apply (written_chain_verifies ActionLog chain0 chain5); [done|apply sample_installed|
    apply sample_commits|by vm_compute|unfold valid_window; cbn; lia|by vm_compute|vm_compute; lia].
Defined.
