(* ===== verification/AuditTamper.v ===== *)
(** * Tamper evidence

    Whoever kept the head of a chain from a clean full verification knows its
    history: tables that still verify clean in full to that head hold the same
    links, and the rows still there hold the same sealed columns and state -
    unless two of the texts in play collide under SHA-256. *)

From stdpp Require Import sorting pretty.
From S2P Require Import Prelude.
From S2P Require Import GoStd.
From S2P Require Import Sha256.
From S2P Require Import AuditChain.
From S2P Require Import AuditVerify.
From S2P Require Import AuditSafety.
From S2P Require Import AuditExact.
From S2P Require Import AuditSample.
From S2P Require Import AuditWriters.
From Stdlib Require Import Sorted.

(** ** Texts without a separator *)

Definition not_bar (c : ascii) : bool := negb (char_eqb c "|"%char).
Definition no_bar (s : string) : bool := forallb not_bar (str_chars s).

Lemma no_bar_cons c s : no_bar (String c s) = not_bar c && no_bar s.
Proof. done. Qed.

Lemma bar_split x : forall y a b, no_bar x = true -> no_bar y = true ->
  x +:+ "|" +:+ a = y +:+ "|" +:+ b -> x = y /\ a = b.
Proof.
  induction x as [|c x IH]; intros [|d y] a b; rewrite ?no_bar_cons, ?andb_true_iff.
  - intros _ _ E. by injection E.
  - intros _ [Hd _] E. injection E as <- _. done.
  - intros [Hc _] _ E. injection E as -> _. done.
  - intros [_ Hx] [_ Hy] E. injection E as -> E. by destruct (IH y a b Hx Hy E) as [-> ->].
Qed.

Lemma pretty_no_bar x : forall s, no_bar s = true -> no_bar (pretty_N_go x s) = true.
Proof.
  induction (N.lt_wf_0 x) as [x _ IH]; intros s Hs.
  destruct (decide (x = 0)%N) as [->|Hx]; [by rewrite pretty_N_go_0|].
  rewrite pretty_N_go_step by lia. apply IH; [by apply N.div_lt; lia|].
  rewrite no_bar_cons, Hs, andb_true_r. unfold pretty_N_char. by repeat case_match.
Qed.

Lemma itoa_no_bar z : no_bar (itoa z) = true.
Proof.
  assert (Hp : forall p, no_bar (pretty (N.pos p)) = true) by (intros p; by apply pretty_no_bar).
  unfold itoa. destruct z as [|p|p]; [done|apply Hp|].
  change (pretty (Z.neg p)) with (String "-" (pretty (N.pos p))). by rewrite no_bar_cons, Hp.
Qed.

Lemma hex_digit_not_bar z : 0 <= z < 16 -> not_bar (hex_digit z) = true.
Proof.
  intros Hz. assert (Hin : z ∈ map Z.of_nat (seq 0 16)).
  { apply list_elem_of_fmap. exists (Z.to_nat z). split; [lia|]. apply elem_of_seq. lia. }
  clear Hz. revert z Hin. apply Forall_forall. vm_compute. by repeat constructor.
Qed.

Lemma hex_no_bar bs : Forall (fun b => 0 <= b < 256) bs -> no_bar (hex_encode bs) = true.
Proof.
  induction 1 as [|b bs Hb _ IH]; [done|]. cbn [hex_encode].
  by rewrite !no_bar_cons, IH, !hex_digit_not_bar by div_lia.
Qed.

Lemma be_bytes_range n : forall z, Forall (fun b => 0 <= b < 256) (be_bytes n z).
Proof.
  induction n as [|n IH]; intros z; [constructor|]. cbn [be_bytes]. apply Forall_app.
  split; [apply IH|]. constructor; [|constructor]. div_lia.
Qed.

Lemma sha_hex_no_bar s : no_bar (sha_hex s) = true.
Proof.
  apply hex_no_bar. unfold Sum256. generalize (foldl sha_block sha_init (sha_blocks (bytes_of s))).
  intros st. unfold sha_digest. apply Forall_concat, Forall_map, Forall_forall.
  intros z _. apply be_bytes_range.
Qed.

(** ** A head pins its chain *)

(** The alphabets of a link's columns: the table's check on operations, and
    sealed hashes without a separator. *)
Definition link_columns (l : Link) : Prop :=
  lk_Op l ∈ ["I"; "U"; "D"; "T"] /\ no_bar (lk_SealedHash l) = true.

(** Everything a link hashes, and its hash. *)
Record same_link (l m : Link) : Prop := {
  sl_Seq : lk_Seq l = lk_Seq m;
  sl_RowID : lk_RowID l = lk_RowID m;
  sl_Op : lk_Op l = lk_Op m;
  sl_V : lk_V l = lk_V m;
  sl_SealedHash : lk_SealedHash l = lk_SealedHash m;
  sl_State : lk_State l = lk_State m;
  sl_PrevHash : lk_PrevHash l = lk_PrevHash m;
  sl_Hash : lk_Hash l = lk_Hash m;
}.

(** No two different texts of the list have the same hash. *)
Definition no_collision (texts : list string) : bool :=
  let hashed := map (fun x => (x, sha_hex x)) texts in
  forallb (fun x : string * string =>
    forallb (fun y : string * string => (x.2 <>s y.2) || (x.1 =s y.1)) hashed) hashed.

Lemma no_collision_inj texts x y : no_collision texts = true -> x ∈ texts -> y ∈ texts ->
  sha_hex x = sha_hex y -> x = y.
Proof.
  unfold no_collision. cbv zeta. rewrite List.forallb_forall. intros H Hx Hy E.
  assert (Hin : forall z, z ∈ texts -> In (z, sha_hex z) (map (fun x => (x, sha_hex x)) texts)).
  { intros z Hz. apply list_elem_of_In, list_elem_of_fmap. eauto. }
  specialize (H _ (Hin x Hx)). rewrite List.forallb_forall in H. specialize (H _ (Hin y Hy)).
  cbn [fst snd] in H. rewrite E, eqb_str_refl in H. by apply eqb_str.
Qed.

Lemma op_no_bar l : link_columns l -> no_bar (lk_Op l) = true.
Proof.
  intros [Ho _]. revert Ho. generalize (lk_Op l). apply Forall_forall. by repeat constructor.
Qed.

Lemma preimage_fields l m : link_columns l -> link_columns m ->
  no_bar (lk_PrevHash l) = true -> no_bar (lk_PrevHash m) = true ->
  lk_Hash l = lk_Hash m -> preimage l = preimage m -> same_link l m.
Proof.
  intros Hl Hm Hpl Hpm Hh E. unfold preimage in E. cbn [Join] in E.
  apply bar_split in E as [E1 E]; [|done..].
  apply bar_split in E as [E2%(inj itoa) E]; [|apply itoa_no_bar..].
  apply bar_split in E as [E3 E]; [|by apply op_no_bar..].
  apply bar_split in E as [E4%(inj itoa) E]; [|apply itoa_no_bar..].
  apply bar_split in E as [E5%(inj itoa) E]; [|apply itoa_no_bar..].
  apply bar_split in E as [E6 E7]; [|by apply Hl|by apply Hm].
  by split.
Qed.

Lemma linked_no_bar ls : forall p seq, no_bar p = true -> linked (Some p) seq ls ->
  Forall (fun l => no_bar (lk_PrevHash l) = true) ls.
Proof.
  induction ls as [|l ls IH]; intros p seq Hp; [constructor|].
  intros (_ & Hprev & Hh & Hl). constructor; [by rewrite (Hprev p)|].
  eapply IH; [|exact Hl]. rewrite <- Hh. apply sha_hex_no_bar.
Qed.

Definition last_hash (ls : list Link) : option string := option_map lk_Hash (last ls).

Lemma head_pins texts ls : forall ms,
  no_collision texts = true -> map preimage ls ⊆ texts -> map preimage ms ⊆ texts ->
  Forall link_columns ls -> Forall link_columns ms ->
  linked (Some Genesis) 1 ls -> linked (Some Genesis) 1 ms ->
  length ls = length ms -> last_hash ls = last_hash ms -> Forall2 same_link ls ms.
Proof.
  intros ms Hno. revert ms. induction ls as [|l ls IH] using rev_ind; intros ms.
  { intros _ _ _ _ _ _ Hlen _. symmetry in Hlen. apply length_zero_iff_nil in Hlen as ->. constructor. }
  destruct ms as [|m ms _] using rev_ind; [by rewrite length_app, Nat.add_comm|].
  rewrite !map_app, !length_app. intros Hls Hms [Hcl Hc1%Forall_inv]%Forall_app
    [Hcm Hc2%Forall_inv]%Forall_app Hl Hm Hlen Hlast.
  pose proof (linked_no_bar _ Genesis 1 eq_refl Hl) as [_ Hb1%Forall_inv]%Forall_app.
  pose proof (linked_no_bar _ Genesis 1 eq_refl Hm) as [_ Hb2%Forall_inv]%Forall_app.
  apply linked_app in Hl as [Hl (_ & Hp1 & Hh1 & _)]. apply linked_app in Hm as [Hm (_ & Hp2 & Hh2 & _)].
  unfold last_hash in Hlast. rewrite !last_snoc in Hlast. cbn [option_map] in Hlast.
  apply (inj Some) in Hlast.
  assert (Hpre : preimage l = preimage m).
  { apply (no_collision_inj texts); [done| | |].
    - apply Hls, elem_of_app. right. by apply list_elem_of_singleton.
    - apply Hms, elem_of_app. right. by apply list_elem_of_singleton.
    - change (LinkHash l = LinkHash m). congruence. }
  pose proof (preimage_fields l m Hc1 Hc2 Hb1 Hb2 Hlast Hpre) as Hsame.
  apply Forall2_app; [|by constructor]. assert (length ls = length ms) as Hlen' by (cbn in Hlen; lia).
  apply IH; try done.
  - intros x Hx. apply Hls, elem_of_app. by left.
  - intros x Hx. apply Hms, elem_of_app. by left.
  - unfold last_hash. destruct (last ls) as [a|] eqn:Ea, (last ms) as [b|] eqn:Eb; cbn [option_map].
    + f_equal. rewrite <- (Hp1 _ eq_refl), <- (Hp2 _ eq_refl). apply Hsame.
    + apply last_None in Eb as ->. apply length_zero_iff_nil in Hlen' as ->. done.
    + apply last_None in Ea as ->. symmetry in Hlen'. apply length_zero_iff_nil in Hlen' as ->. done.
    + done.
Qed.

(** ** The head a report names *)

Definition head_of (v : verifier) : Z * string := (rp_HeadSeq (vr_rep v), rp_HeadHash (vr_rep v)).

(** A step's verifier still names the head [h]. *)
Definition heads (h : Z * string) (r : result verifier) : Prop :=
  match r with Ok v => head_of v = h | Err _ => True end.
Definition heads_walk (h : Z * string) (r : option (result verifier)) : Prop :=
  match r with Some r => heads h r | None => True end.

Lemma head_problem k seq row v : head_of (problem k seq row v) = head_of v.
Proof. unfold head_of, problem, on_rep, add_problem. cbn [vr_rep]. by destruct (Nat.leb _ _). Qed.
Lemma head_if (c : bool) k seq row v :
  head_of (if c then problem k seq row v else v) = head_of v.
Proof. destruct c; [apply head_problem|done]. Qed.
Lemma head_track l v : head_of (track l v) = head_of v.
Proof. unfold track. destruct (_ =s _); [done|]. by destruct (_ =s _). Qed.

Lemma head_checkLink l e v : head_of (checkLink l e v).2 = head_of v.
Proof.
  unfold checkLink. cbv zeta. cbn [snd]. rewrite head_track.
  change (head_of (check_hash l (check_prev l (check_position l e v))) = head_of v).
  unfold check_hash, check_prev. rewrite !head_if. unfold check_position. cbv zeta.
  destruct (negb _); [|done].
  change (head_of (problem KindGap e 0 (on_rep (counted 1 0 0 0) v)) = head_of v).
  by rewrite head_problem.
Qed.

Lemma head_check_links ls : forall e v, head_of (check_links ls e v).2 = head_of v.
Proof.
  induction ls as [|l ls IH]; intros e v; [done|].
  by rewrite check_links_cons, IH, head_checkLink.
Qed.

Lemma head_checkRow range s id links live latest deleted truncates v :
  head_of (checkRow range s id links live latest deleted truncates v) = head_of v.
Proof.
  unfold checkRow. branches; rewrite ?head_problem; done.
Qed.

Lemma head_fold {A} (f : verifier -> A -> verifier) l :
  (forall v a, head_of (f v a) = head_of v) -> forall v, head_of (foldl f v l) = head_of v.
Proof. intros Hf. induction l as [|a l IH]; intros v; [done|]. cbn [foldl]. by rewrite IH. Qed.

Section Heads.
Context {W : Type} (query : M W (result ChainDB)).
Context (range : gmap string Z -> list (string * Z)) (s : Spec).

Ltac heads_tac := unfold try; repeat yields_step; cbn; rewrite ?head_problem; try done.

Lemma heads_batches truncates bs : forall v,
  yields (check_batches query range s truncates bs v) (heads (head_of v)).
Proof.
  induction bs as [|b bs IH]; intros v; [by apply yields_ret|]. cbn [check_batches].
  eapply (yields_bind _ _ (heads (head_of v))).
  - unfold check_batch. heads_tac. by apply head_fold; intros; apply head_checkRow.
  - intros [v'|e] Hv; [|by apply yields_ret]. cbn in Hv. rewrite <- Hv. apply IH.
Qed.

Lemma heads_rows v : yields (checkRows query range s v) (heads (head_of v)).
Proof. unfold checkRows, try. repeat yields_step; [apply heads_batches|done]. Qed.

Lemma heads_walk_loop fuel : forall e to v,
  yields (walk_loop query fuel e to v) (heads_walk (head_of v)).
Proof.
  induction fuel as [|fuel IH]; intros e to v; cbn [walk_loop].
  - heads_tac.
  - destruct (to <? e); [by apply yields_ret|]. apply yields_bind_any. intros [db|er]; [|by apply yields_ret].
    destruct (LinksInRange _ _ _ _) as [|l ls] eqn:E; [apply yields_ret, head_problem|].
    rewrite <- E. pose proof (head_check_links (LinksInRange db e to linkBatch) e v) as Hh.
    destruct (check_links _ _ _) as [e' v']. cbn in Hh. rewrite <- Hh. apply IH.
Qed.

Lemma heads_start from v : yields (start query from v) (heads (head_of v)).
Proof. unfold start. heads_tac. branches; apply head_problem. Qed.

Lemma heads_finish from full v : yields (finish_run query from full v) (heads (head_of v)).
Proof.
  unfold finish_run. eapply (yields_bind _ _ (heads (head_of v))).
  - unfold findUnchained. destruct (if full then _ else _) as [lo hi]. heads_tac.
    apply head_fold. intros. apply head_problem.
  - intros [v'|e] Hv; [|by apply yields_ret]. cbn in Hv. rewrite <- Hv.
    destruct (from =? 1); [|by apply yields_ret]. unfold countLegacy. heads_tac.
Qed.

Lemma heads_window fuel legacy head hash w :
  yields (run_window query range s fuel legacy head hash w) (heads_walk (head, hash)).
Proof.
  unfold run_window. cbv zeta. set (v := Build_verifier _ _ _ _ _).
  change (head, hash) with (head_of v).
  eapply (yields_bind _ _ (heads_walk (head_of v))).
  - destruct (_ <=? _); [|by apply yields_ret].
    eapply (yields_bind _ _ (heads_walk (head_of v))).
    + unfold walk. eapply yields_bind; [apply heads_start|]. intros [v'|e] Hv; [|by apply yields_ret].
      cbn in Hv. rewrite <- Hv. apply heads_walk_loop.
    + intros [[v'|e]|] Hv; try by apply yields_ret. cbn in Hv. rewrite <- Hv.
      eapply yields_bind; [apply heads_rows|]. intros r Hr. by apply yields_ret.
  - intros [[v'|e]|] Hv; try by apply yields_ret. cbn in Hv. rewrite <- Hv.
    eapply yields_bind; [apply heads_finish|]. intros r Hr. by apply yields_ret.
Qed.
End Heads.

Lemma report_head {W} (db : ChainDB) range s fuel w (wd : W) rep legacy :
  db_Boundary db = Some legacy ->
  Verify (ret (Ok db)) range s fuel w wd = (Some (Ok rep), wd) ->
  (rp_HeadSeq rep, rp_HeadHash rep) = Head db.
Proof.
  intros Hb. unfold Verify. destruct (validate s); [done|]. destruct (_ || _); [done|].
  unfold run, bind at 1 2, ret at 1. rewrite Hb. unfold bind, ret at 1.
  pose proof (fun legacy head hash => heads_window (ret (W:=W) (Ok db)) range s fuel legacy head hash w wd) as Hw.
  destruct (Head db) as [head hash]. specialize (Hw legacy head hash). unfold value_at in Hw.
  destruct (run_window _ _ _ _ _ _ _ _ wd) as [[[v|e]|] wd']; cbn in Hw |- *; [|done..].
  intros [= <- <-]. exact Hw.
Qed.

(** ** The full window *)

Lemma full_links db : window_links db full = List.filter (in_range 1 (Head db).1) (db_Links db).
Proof. done. Qed.

Lemma sorted_split k ls : StronglySorted by_seq ls ->
  ls = List.filter (fun l => lk_Seq l <? k) ls ++ List.filter (fun l => k <=? lk_Seq l) ls.
Proof.
  induction 1 as [|l ls Hs IH Hf]; [done|]. cbn [List.filter].
  destruct (Z.ltb_spec (lk_Seq l) k) as [Hlt|Hge].
  - destruct (Z.leb_spec k (lk_Seq l)); [lia|]. cbn [app]. by rewrite <- IH.
  - destruct (Z.leb_spec k (lk_Seq l)); [|lia]. rewrite Forall_forall in Hf.
    rewrite filter_none, filter_all; [done| |]; intros m Hm%Hf; unfold by_seq in Hm.
    + apply Z.leb_le. lia.
    + apply Z.ltb_ge. lia.
Qed.

(** The chain's positive positions are the full window. *)
Lemma full_positive db : keyed db ->
  window_links db full = List.filter (fun l => 1 <=? lk_Seq l) (db_Links db).
Proof.
  intros Hk. rewrite full_links. apply filter_ext_in. intros l Hl. unfold in_range.
  enough ((lk_Seq l <=? (Head db).1) = true) as -> by apply andb_true_r.
  apply Z.leb_le. unfold Head. destruct (last (db_Links db)) as [b|] eqn:E; cbn [fst].
  - unfold keyed in Hk. apply last_split in E as [ls E]. rewrite E in Hk, Hl. by eapply sorted_snoc_le.
  - apply last_None in E. rewrite E in Hl. by apply elem_of_nil in Hl.
Qed.

Lemma full_last_hash db : keyed db -> 1 <= (Head db).1 ->
  last_hash (window_links db full) = Some (Head db).2.
Proof.
  intros Hk. rewrite full_positive by done. unfold Head, last_hash.
  destruct (last (db_Links db)) as [b|] eqn:E; cbn [fst snd]; [|lia]. intros Hb.
  apply last_split in E as [ls ->]. rewrite List.filter_app. cbn [List.filter].
  replace (1 <=? lk_Seq b) with true by (symmetry; by apply Z.leb_le). by rewrite last_snoc.
Qed.

(** The last link of a row the window names. *)
Lemma full_history db id : keyed db -> Forall link_columns (db_Links db) ->
  named id (window_links db full) <> [] ->
  last (history_of db id) = last (named id (window_links db full)).
Proof.
  intros Hk Hc Hn. rewrite full_positive in * by done. unfold history_of.
  rewrite (sorted_split 1 (db_Links db) Hk) at 1. rewrite List.filter_app.
  set (hi := List.filter (fun l => 1 <=? lk_Seq l) (db_Links db)) in *.
  replace (List.filter (fun l => (lk_RowID l =? id) && str_in (lk_Op l) ["I"; "U"; "D"]) hi)
    with (named id hi); [|apply filter_ext_in].
  - rewrite last_app. destruct (last (named id hi)) eqn:E; [done|]. by apply last_None in E.
  - intros l [Hl _]%elem_of_filter_in. rewrite Forall_forall in Hc. destruct (Hc l Hl) as [Ho _].
    unfold names. rewrite andb_comm. f_equal. revert Ho. generalize (lk_Op l).
    apply Forall_forall. by repeat constructor.
Qed.

(** ** Clean tables with one head *)

(** The links record that the row [id] is gone. *)
Definition recorded_gone (id : Z) (ls : list Link) : Prop :=
  (exists l, l ∈ named id ls /\ lk_Op l = "D") \/
  (exists t l, t ∈ ls /\ lk_Op t = "T" /\ head (named id ls) = Some l /\ lk_Seq l < lk_Seq t).

Definition hashed_texts (db : ChainDB) : list string :=
  map preimage (db_Links db) ++ map (fun kv : Z * Row => rw_Sealed kv.2) (map_to_list (db_Rows db)).

Lemma gone_recorded s db legacy id : keyed db -> Forall link_columns (db_Links db) ->
  window_ok s db legacy full -> named id (window_links db full) <> [] -> db_Rows db !! id = None ->
  recorded_gone id (window_links db full).
Proof.
  intros Hk Hc Hok Hn Hnone. pose proof (wo_rows _ _ _ _ Hok id Hn) as Hr. unfold row_ok in Hr.
  rewrite Hnone in Hr. destruct Hr as [(l & Hl & Ho)|[Hd|(t & l & Ht & Ho & Hh & Hlt)]].
  - left. exists l. rewrite full_history in Hl by done. split; [by apply last_Some_elem_of|done].
  - by left.
  - right. exists t, l. split_and!; try done. rewrite full_positive by done. apply elem_of_filter_in.
    split; [done|]. apply Z.leb_le. apply head_Some_elem_of, elem_of_named in Hh as [Hh _].
    apply range_whole in Hh as [_ Hh]. unfold first_pos in Hh. cbn in Hh. lia.
Qed.

(** The rows the links [ls] name, in two tables. *)
Definition rows_agree (s : Spec) (a b : ChainDB) (ls : list Link) : Prop :=
  forall id, named id ls <> [] ->
    match db_Rows a !! id, db_Rows b !! id with
    | Some x, Some y =>
        rw_Sealed x = rw_Sealed y /\
        forall l, last (named id ls) = Some l -> lk_Op l <> "D" -> state_text s x = state_text s y
    | _, _ => recorded_gone id ls
    end.

Lemma named_same id ls ms : Forall2 same_link ls ms -> Forall2 same_link (named id ls) (named id ms).
Proof.
  induction 1 as [|l m ls ms Hs _ IH]; [constructor|]. unfold named. cbn [List.filter].
  replace (names id m) with (names id l); [|unfold names; by rewrite (sl_Op _ _ Hs), (sl_RowID _ _ Hs)].
  destruct (names id l); [by constructor|exact IH].
Qed.

Lemma gone_same id ls ms : Forall2 same_link ls ms -> recorded_gone id ms -> recorded_gone id ls.
Proof.
  intros Hs. pose proof (named_same id ls ms Hs) as Hn. intros [(m & Hm & Ho)|(t & m & Ht & Ho & Hh & Hlt)].
  - left. apply list_elem_of_lookup in Hm as [i Hi].
    destruct (Forall2_lookup_r _ _ _ _ _ Hn Hi) as (l & Hl & Hlm). exists l.
    split; [by eapply list_elem_of_lookup_2|]. by rewrite (sl_Op _ _ Hlm).
  - right. apply list_elem_of_lookup in Ht as [i Hi].
    destruct (Forall2_lookup_r _ _ _ _ _ Hs Hi) as (u & Hu & Hut).
    destruct Hn as [|l m' ls' ms' Hlm _]; [done|]. injection Hh as ->. exists u, l.
    split_and!; [by eapply list_elem_of_lookup_2|by rewrite (sl_Op _ _ Hut)|done|].
    by rewrite (sl_Seq _ _ Hut), (sl_Seq _ _ Hlm).
Qed.

Lemma last_same ls ms l : Forall2 same_link ls ms -> last ls = Some l ->
  exists m, last ms = Some m /\ same_link l m.
Proof.
  intros Hs Hl. apply last_split in Hl as [ls' ->].
  apply Forall2_app_inv_l in Hs as (ms' & m & _ & Hm & ->).
  inversion Hm as [|? m' ? ? Hlm Hnil]; subst. inversion Hnil; subst. exists m'. by rewrite last_snoc.
Qed.

Section OneHead.
Context (s : Spec) (a b : ChainDB) (la lb : Z).
Context (keyed_a : keyed a) (keyed_b : keyed b).
Context (columns_a : Forall link_columns (db_Links a)) (columns_b : Forall link_columns (db_Links b)).
Context (clean_a : window_ok s a la full) (clean_b : window_ok s b lb full).
Context (texts_ok : no_collision (hashed_texts a ++ hashed_texts b) = true).
Context (one_head : Head a = Head b).

Lemma full_columns db : Forall link_columns (db_Links db) -> Forall link_columns (window_links db full).
Proof.
  rewrite !Forall_forall. intros H l Hl. apply range_whole in Hl as [Hl _]. by apply H.
Qed.

Lemma full_texts db : map preimage (window_links db full) ⊆ hashed_texts db.
Proof.
  intros x (l & -> & Hl)%list_elem_of_fmap. apply range_whole in Hl as [Hl _].
  apply elem_of_app. left. apply list_elem_of_fmap. eauto.
Qed.

Lemma links_agree : Forall2 same_link (window_links a full) (window_links b full).
Proof.
  destruct (Z.le_gt_cases 1 (Head a).1) as [Hle|Hlt].
  - destruct (wo_links _ _ _ _ clean_a Hle) as (_ & Hl1 & Hn1).
    destruct (wo_links _ _ _ _ clean_b) as (_ & Hl2 & Hn2).
    { change (1 <= (Head b).1). by rewrite <- one_head. }
    apply (head_pins (hashed_texts a ++ hashed_texts b)); try done.
    + intros x Hx. apply elem_of_app. left. by apply full_texts.
    + intros x Hx. apply elem_of_app. right. by apply full_texts.
    + by apply full_columns.
    + by apply full_columns.
    + apply Nat2Z.inj. rewrite Hn1, Hn2. change (last_pos a full) with (Head a).1.
      change (last_pos b full) with (Head b).1. by rewrite one_head.
    + rewrite !full_last_hash; rewrite <- ?one_head; done.
  - rewrite !full_links, <- one_head, !filter_none; [constructor|..]; intros l _; unfold in_range;
      apply andb_false_iff; rewrite !Z.leb_gt; lia.
Qed.

Lemma sealed_agree id x y : named id (window_links a full) <> [] ->
  db_Rows a !! id = Some x -> db_Rows b !! id = Some y -> rw_Sealed x = rw_Sealed y.
Proof.
  intros Hn Hx Hy. pose proof (named_same id _ _ links_agree) as Hs.
  destruct (named id (window_links a full)) as [|l n] eqn:En; [done|].
  inversion Hs as [|? m ? n' Hlm _ E1 E2]; subst.
  pose proof (wo_rows _ _ _ _ clean_a id) as Ha. pose proof (wo_rows _ _ _ _ clean_b id) as Hb.
  unfold row_ok in Ha, Hb. rewrite En, Hx in Ha. rewrite <- E2, Hy in Hb.
  destruct (Ha ltac:(done)) as (Ha' & _). destruct (Hb ltac:(done)) as (Hb' & _).
  apply (no_collision_inj (hashed_texts a ++ hashed_texts b)); [done|..].
  - apply elem_of_app. left. apply elem_of_app. right. apply list_elem_of_fmap.
    exists (id, x). by rewrite elem_of_map_to_list.
  - apply elem_of_app. right. apply elem_of_app. right. apply list_elem_of_fmap.
    exists (id, y). by rewrite elem_of_map_to_list.
  - change (sealed_hash x = sealed_hash y).
    rewrite <- (Ha' l) by (apply elem_of_cons; by left).
    rewrite <- (Hb' m) by (apply elem_of_cons; by left). apply Hlm.
Qed.

Lemma state_agree id x y l : last (named id (window_links a full)) = Some l -> lk_Op l <> "D" ->
  db_Rows a !! id = Some x -> db_Rows b !! id = Some y -> state_text s x = state_text s y.
Proof.
  intros Hl Ho Hx Hy. pose proof (named_same id _ _ links_agree) as Hs.
  destruct (last_same _ _ _ Hs Hl) as (m & Hm & Hlm).
  destruct (decide (sp_State s = [])) as [E|Hst]; [unfold state_text; by rewrite E|].
  assert (Hna : named id (window_links a full) <> []) by (intros E; by rewrite E in Hl).
  assert (Hnb : named id (window_links b full) <> []) by (intros E; by rewrite E in Hm).
  pose proof (wo_rows _ _ _ _ clean_a id Hna) as Ha. pose proof (wo_rows _ _ _ _ clean_b id Hnb) as Hb.
  unfold row_ok in Ha, Hb. rewrite Hx in Ha. rewrite Hy in Hb.
  rewrite <- full_history in Hl, Hm by done.
  destruct Ha as (_ & Ha & _), Hb as (_ & Hb & _).
  rewrite <- (Ha Hst l Hl Ho), <- (Hb Hst m Hm) by (by rewrite <- (sl_Op _ _ Hlm)). apply Hlm.
Qed.

Lemma one_head_agrees :
  Forall2 same_link (window_links a full) (window_links b full) /\
  rows_agree s a b (window_links a full).
Proof.
  split; [exact links_agree|]. intros id Hn.
  assert (Hnb : named id (window_links b full) <> []).
  { pose proof (named_same id _ _ links_agree) as Hs. intros E. rewrite E in Hs. by inversion Hs. }
  destruct (db_Rows a !! id) as [x|] eqn:Ex; [|by eapply gone_recorded].
  destruct (db_Rows b !! id) as [y|] eqn:Ey.
  - split; [by eapply sealed_agree|]. intros l Hl Ho. by eapply state_agree.
  - eapply gone_same; [exact links_agree|]. by eapply gone_recorded.
Qed.
End OneHead.


Definition other_users : ChainDB := set_links (map relabel (db_Links chain3)) chain3.

Definition report_of (db : ChainDB) : Report :=
  match verify_still db full with Some (Ok rep) => rep | _ => empty_report ActionLog end.

Lemma sample_columns db : forallb (fun l => str_in (lk_Op l) ["I"; "U"; "D"; "T"] &&
    no_bar (lk_SealedHash l)) (db_Links db) = true -> Forall link_columns (db_Links db).
Proof.
  rewrite List.forallb_forall, Forall_forall. intros H l Hl%list_elem_of_In.
  specialize (H l Hl). apply andb_true_iff in H as [H%str_in_spec ?]. by split.
Qed.

