(* ===== verification/AuditGaps.v ===== *)
(** * What a verification does not see, and where it goes wrong

    Concrete runs of the verifier: changes behind the chain it reports nothing
    about, a correct table it reports a problem of, and a link that keeps it from
    ending. *)

From stdpp Require Import sorting.
From S2P Require Import Prelude.
From S2P Require Import GoStd.
From S2P Require Import Sha256.
From S2P Require Import AuditChain.
From S2P Require Import AuditVerify.
From S2P Require Import AuditSafety.
From S2P Require Import AuditSample.
From Stdlib Require Import Sorted.

(** Removing the newest link takes no recomputed hash: what remains is a whole
    chain, and the row it inserted, edited or not, is neither named by a link
    nor without a position. *)
Lemma tail_removal_unseen :
  kinds (verify_still
    (edited 4 (set_sealed "4|drop_table") (set_links (take 4 (db_Links chain5)) chain5))
    full) = Some [].
Proof. by vm_compute. Qed.

(** A deleted row that is back, with another state, is not reported. *)
Lemma undelete_unseen :
  kinds (verify_still
    (with_rows (<[3 := default old_row (set_state "success" <$> db_Rows chain3 !! 3)]>
                  (db_Rows chain5)) chain5) full) = Some [].
Proof. by vm_compute. Qed.

(** The columns at, db_user and app of a link are outside its hash. *)
Lemma relabel_unseen :
  kinds (verify_still (set_links (map relabel (db_Links chain5)) chain5) full) = Some [].
Proof. by vm_compute. Qed.

(** A state update that commits between the query for the live rows and the one
    for their links, the fifth and the sixth, is reported as an edit. *)
Lemma concurrent_update_reported :
  kinds (verify_moving [chain2; chain2; chain2; chain2; chain2; chain3] full)
    = Some [KindStateEdited] /\
  kinds (verify_still chain2 full) = Some [] /\
  kinds (verify_still chain3 full) = Some [].
Proof. by vm_compute. Qed.

(** ** A link at the last position *)

Lemma wrap64_upper z : wrap64 z <= max_int64.
Proof. unfold wrap64, max_int64. cbv zeta. branches; div_lia. Qed.

Lemma check_links_upper ls e v : e <= max_int64 -> (check_links ls e v).1 <= max_int64.
Proof.
  revert e v. induction ls as [|l ls IH]; intros e v He; [done|].
  rewrite check_links_cons. apply IH. apply wrap64_upper.
Qed.

(** While a link sits at the largest position, the walk goes round: after it the
    next expected position wraps to the smallest. *)
Lemma walk_goes_round {W} (db : ChainDB) l fuel : forall e v (w : W),
  l ∈ db_Links db -> lk_Seq l = max_int64 -> e <= max_int64 ->
  walk_loop (ret (Ok db)) fuel e max_int64 v w = (None, w).
Proof.
  induction fuel as [|fuel IH]; intros e v w Hl Hs He; cbn [walk_loop].
  - by destruct (Z.ltb_spec max_int64 e); [lia|].
  - destruct (Z.ltb_spec max_int64 e); [lia|]. unfold bind, ret at 1. cbn beta iota.
    destruct (LinksInRange db e max_int64 linkBatch) as [|x ls] eqn:E.
    + exfalso. unfold LinksInRange in E.
      assert (Hin : l ∈ List.filter (in_range e max_int64) (db_Links db)).
      { apply elem_of_filter_in. split; [done|]. unfold in_range.
        rewrite andb_true_iff, !Z.leb_le. lia. }
      destruct (List.filter _ _); [by apply elem_of_nil in Hin|done].
    + rewrite <- E. pose proof (check_links_upper (LinksInRange db e max_int64 linkBatch) e v He) as Hu.
      destruct (check_links _ _ _) as [e' v']. cbn in Hu. by apply IH.
Qed.

(** However much fuel it has, a full verification then does not end. *)
Lemma verification_never_ends {W} (db : ChainDB) range s legacy fuel (w : W) :
  validate s = None -> db_Boundary db = Some legacy -> (Head db).1 = max_int64 ->
  Verify (ret (Ok db)) range s fuel full w = (None, w).
Proof.
  intros Hs Hb Hh. unfold Verify. rewrite Hs. cbn. unfold run, bind, ret at 1. rewrite Hb.
  unfold ret at 1. assert (Hl : exists l, l ∈ db_Links db /\ lk_Seq l = max_int64).
  { unfold Head in Hh. destruct (last (db_Links db)) as [l|] eqn:E; [|done].
    exists l. split; [by apply last_Some_elem_of|done]. }
  destruct Hl as (l & Hl & Hseq). destruct (Head db) as [head hash]. cbn in Hh. subst head.
  unfold run_window, walk, start, bind. cbv zeta.
  change (Z.max (wn_FromSeq full) 1) with 1. change (wn_ToSeq full =? 0) with true.
  change (1 =? 1) with true. cbn [orb]. cbv iota. change (1 <=? max_int64) with true. cbv iota.
  unfold ret at 1.
  by rewrite (walk_goes_round db l).
Qed.
