(* ===== verification/Interleave.v ===== *)
(** * Programs that share a server

    An operation of the sidecar is a program: its next statement, and what it does
    with the answer or the failure.  A [Machine] says what one statement does to
    the state all operations share; a system is that state and the operations under
    way, and a step is one statement of one of them or something of the world's
    own.  Every component whose operations race is an instance. *)

From S2P Require Import Prelude.

(** ** Programs *)

Inductive prog (stmt : Type -> Type) (fail A : Type) : Type :=
| Ret (a : A)
| Do {X : Type} (st : stmt X) (k : X + fail -> prog stmt fail A).
Arguments Ret {stmt fail A} a.
Arguments Do {stmt fail A X} st k.

Fixpoint pbind {stmt fail A B} (p : prog stmt fail A) (f : A -> prog stmt fail B)
    : prog stmt fail B :=
  match p with
  | Ret a => f a
  | Do st k => Do st (fun r => pbind (k r) f)
  end.

(** The next statement, and the next operation. *)
Declare Scope prog_scope.
Notation "'do~' x ':=' st 'in' k" := (Do st (fun x => k))
  (at level 10, x pattern, st at level 200, k at level 200) : prog_scope.
Notation "'do*' x ':=' p 'in' k" := (pbind p (fun x => k))
  (at level 10, x pattern, p at level 200, k at level 200) : prog_scope.
Open Scope prog_scope.

(** ** The statements of a program *)

Section Always.
Context {stmt : Type -> Type} {fail : Type} (ok : forall X, stmt X -> Prop).

(** Every statement [p] sends, whatever the answers, is [ok]. *)
Fixpoint always {A} (p : prog stmt fail A) : Prop :=
  match p with
  | Ret _ => True
  | Do st k => ok _ st /\ forall r, always (k r)
  end.

Lemma always_bind {A B} (p : prog stmt fail A) (f : A -> prog stmt fail B) :
  always p -> (forall a, always (f a)) -> always (pbind p f).
Proof. intros Hp Hf. induction p as [a|X st k IH]; [apply Hf|]. cbn in *. naive_solver. Qed.
End Always.

Lemma always_weaken {stmt fail} (ok ok' : forall X, stmt X -> Prop) {A} (p : prog stmt fail A) :
  (forall X st, ok X st -> ok' X st) -> always ok p -> always ok' p.
Proof. intros H. induction p as [a|X st k IH]; [done|]. cbn. naive_solver. Qed.

(** Every answer of [p] is [Q]. *)
Fixpoint yields_only {stmt fail A} (Q : A -> Prop) (p : prog stmt fail A) : Prop :=
  match p with Ret a => Q a | Do st k => forall r, yields_only Q (k r) end.

Lemma yields_only_bind {stmt fail A B} (Q : B -> Prop) (p : prog stmt fail A)
    (f : A -> prog stmt fail B) :
  (forall a, yields_only Q (f a)) -> yields_only Q (pbind p f).
Proof. intros Hf. induction p as [a|X st k IH]; [apply Hf|]. intros r. apply IH. Qed.

(** ** Protocols

    What an operation may send when, as an abstract specification: a phase says how
    far it is, [allowed] which statement may come next, and [next] what its answer
    makes of the phase. *)

Section Protocols.
Context {stmt : Type -> Type} {fail phase : Type}.
Context (allowed : phase -> forall X, stmt X -> Prop).
Context (next : phase -> forall X, stmt X -> X + fail -> phase).

(** [p] keeps to the protocol from [ph], and ends as [Q] says. *)
Fixpoint follows (ph : phase) {A} (Q : A -> phase -> Prop) (p : prog stmt fail A) : Prop :=
  match p with
  | Ret a => Q a ph
  | Do st k => allowed ph _ st /\ forall r, follows (next ph _ st r) Q (k r)
  end.

Lemma follows_bind ph {A B} (Q : A -> phase -> Prop) (R : B -> phase -> Prop) (p : prog stmt fail A)
    (f : A -> prog stmt fail B) :
  follows ph Q p -> (forall a ph', Q a ph' -> follows ph' R (f a)) -> follows ph R (pbind p f).
Proof.
  revert ph. induction p as [a|X st k IH]; intros ph Hp Hf; cbn in *; [by apply Hf|].
  destruct Hp as [Ha Hk]. split; [done|]. intros r. by apply IH.
Qed.

Lemma follows_mono ph {A} (Q R : A -> phase -> Prop) (p : prog stmt fail A) :
  follows ph Q p -> (forall a ph', Q a ph' -> R a ph') -> follows ph R p.
Proof.
  revert ph. induction p as [a|X st k IH]; intros ph Hp Hq; cbn in *; [by apply Hq|].
  destruct Hp as [Ha Hk]. split; [done|]. intros r. by apply IH.
Qed.
End Protocols.

(** ** Interpretations

    A program written against an interface's calls, run with an implementation of
    each call. *)

Section Interp.
Context {call stmt : Type -> Type} {cfail sfail S : Type}.
Context (h : forall X, S -> call X -> prog stmt sfail ((X + cfail) * S)).

(** [s]: what the implementation keeps between calls. *)
Fixpoint interp {A} (s : S) (p : prog call cfail A) : prog stmt sfail (A * S) :=
  match p with
  | Ret a => Ret (a, s)
  | Do c k => pbind (h _ s c) (fun r => interp r.2 (k r.1))
  end.

(** A program that keeps to the interface's protocol, run with an implementation that
    keeps to its own protocol call by call, keeps to the latter. *)
Lemma follows_interp {phase phase' : Type}
    (allowed : phase -> forall X, call X -> Prop) (next : phase -> forall X, call X -> X + cfail -> phase)
    (allowed' : phase' -> forall X, stmt X -> Prop) (next' : phase' -> forall X, stmt X -> X + sfail -> phase')
    (R : phase -> S -> phase' -> Prop) :
  (forall ph s ph' X (c : call X), R ph s ph' -> allowed ph X c ->
     follows allowed' next' ph' (fun r ph2 => R (next ph X c r.1) r.2 ph2) (h X s c)) ->
  forall ph s ph' A (Q : A -> phase -> Prop) (p : prog call cfail A), R ph s ph' -> follows allowed next ph Q p ->
  follows allowed' next' ph' (fun r ph2 => exists ph1, Q r.1 ph1 /\ R ph1 r.2 ph2) (interp s p).
Proof.
  intros Hc ph s ph' A Q p. revert ph s ph'. induction p as [a|X c k IH]; intros ph s ph' HR Hp; cbn in *; [by exists ph|].
  destruct Hp as [Ha Hk]. eapply follows_bind; [exact (Hc _ _ _ _ _ HR Ha)|]. intros [r s2] ph2 HR2.
  eapply IH; [exact HR2|apply Hk].
Qed.
End Interp.

(** ** Runs

    A program that runs by itself, over anything that says what a statement may do:
    [does st w r w'], in [w] it may answer [r] and leave [w']. *)

Section Solo.
Context {stmt : Type -> Type} {fail W : Type} (does : forall X, stmt X -> W -> X + fail -> W -> Prop).

(** [p] may answer [a] and leave [w']. *)
Fixpoint runs {A} (p : prog stmt fail A) (w : W) (a : A) (w' : W) : Prop :=
  match p with
  | Ret x => a = x /\ w' = w
  | Do st k => exists r w1, does _ st w r w1 /\ runs (k r) w1 a w'
  end.

Lemma runs_bind {A B} (p : prog stmt fail A) (f : A -> prog stmt fail B) w b w' :
  runs (pbind p f) w b w' <-> exists a w1, runs p w a w1 /\ runs (f a) w1 b w'.
Proof.
  revert w. induction p as [x|X st k IH]; intros w; cbn.
  - split; [by exists x, w|]. by intros (a & w1 & [-> ->] & H).
  - split.
    + intros (r & w1 & Hd & (a & w2 & Hk & Hf)%IH). exists a, w2. split; [by exists r, w1|done].
    + intros (a & w2 & (r & w1 & Hd & Hk) & Hf). exists r, w1. split; [done|]. apply IH. by exists a, w2.
Qed.
End Solo.

(** An interface's calls, each run with its implementation. *)
Definition implemented {call stmt : Type -> Type} {cfail sfail W}
    (does : forall X, stmt X -> W -> X + sfail -> W -> Prop) (h : forall X, call X -> prog stmt sfail (X + cfail))
    : forall X, call X -> W -> X + cfail -> W -> Prop :=
  fun X c w r w' => runs does (h X c) w r w'.

(** Running a program with its calls implemented is running it over what they do. *)
Lemma runs_interp {call stmt : Type -> Type} {cfail sfail W A}
    (does : forall X, stmt X -> W -> X + sfail -> W -> Prop) (h : forall X, call X -> prog stmt sfail (X + cfail))
    (p : prog call cfail A) w a w' :
  runs does (interp (fun X (_ : unit) c => pbind (h X c) (fun r => Ret (r, tt))) tt p) w (a, tt) w' <->
  runs (implemented does h) p w a w'.
Proof.
  revert w. induction p as [x|X c k IH]; intros w; cbn.
  - split; [intros [[= ->] ->]; done|by intros [-> ->]].
  - rewrite runs_bind. split.
    + intros (r & w2 & (r1 & w1 & H1 & [-> ->])%runs_bind & H2). exists r1, w1. split; [done|]. by apply IH.
    + intros (r & w1 & H1 & H2). exists (r, tt), w1. split; [|by apply IH]. apply runs_bind. by exists r, w1.
Qed.

(** ** Machines *)

(** [m_exec]: what a statement answers and does, given how it went ([fate]);
    [m_event]: what happens by itself; [None] for what cannot happen. *)
Class Machine (stmt : Type -> Type) (fail fate state event op answer : Type) := {
  m_exec : fate -> forall X, stmt X -> state -> option ((X + fail) * state);
  m_event : event -> state -> option state;
  m_program : op -> prog stmt fail answer;
}.
Arguments m_exec {_ _ _ _ _ _ _ _} fate {X} st s.

Section Systems.
Context `{Mc : Machine stmt fail fate state event op answer}.

Record System : Type := {
  sy_Server : state;
  sy_Threads : list (op * prog stmt fail answer);
}.

Inductive action : Type :=
| Start (o : op)
| Run (thread : nat) (how : fate)
| Event (e : event).

(** The next system. *)
Definition act (a : action) (sy : System) : option System :=
  match a with
  | Start o => Some {| sy_Server := sy_Server sy; sy_Threads := sy_Threads sy ++ [(o, m_program o)] |}
  | Run i how =>
      match sy_Threads sy !! i with
      | Some (o, Do st k) =>
          match m_exec how st (sy_Server sy) with
          | Some (r, s) => Some {| sy_Server := s; sy_Threads := <[i := (o, k r)]> (sy_Threads sy) |}
          | None => None
          end
      | _ => None
      end
  | Event e =>
      match m_event e (sy_Server sy) with
      | Some s => Some {| sy_Server := s; sy_Threads := sy_Threads sy |}
      | None => None
      end
  end.

Fixpoint acts (l : list action) (sy : System) : option System :=
  match l with
  | [] => Some sy
  | a :: l' => match act a sy with Some sy' => acts l' sy' | None => None end
  end.

(** No operation under way. *)
Definition idle (s : state) : System := {| sy_Server := s; sy_Threads := [] |}.

Definition sys_step (sy sy' : System) : Prop := exists a, act a sy = Some sy'.

(** Reached from an idle system in a state of [init]. *)
Definition reachable (init : state -> Prop) (sy : System) : Prop :=
  exists s, init s /\ rtc sys_step (idle s) sy.

(** What holds of an idle system and is kept by each kind of step holds of every
    reachable one. *)
Lemma reachable_ind (init : state -> Prop) (P : System -> Prop) :
  (forall s, init s -> P (idle s)) ->
  (forall sy o, P sy ->
     P {| sy_Server := sy_Server sy; sy_Threads := sy_Threads sy ++ [(o, m_program o)] |}) ->
  (forall sy i o X (st : stmt X) k how r s, P sy -> sy_Threads sy !! i = Some (o, Do st k) ->
     m_exec how st (sy_Server sy) = Some (r, s) ->
     P {| sy_Server := s; sy_Threads := <[i := (o, k r)]> (sy_Threads sy) |}) ->
  (forall sy e s, P sy -> m_event e (sy_Server sy) = Some s ->
     P {| sy_Server := s; sy_Threads := sy_Threads sy |}) ->
  forall sy, reachable init sy -> P sy.
Proof.
  intros Hidle Hstart Hrun Hevent sy (s & Hs & Hr). generalize (Hidle s Hs). revert Hr.
  generalize (idle s). intros sy0 Hr. induction Hr as [|sy0 sy1 sy2 [a Ha] _ IH]; [done|].
  intros H0. apply IH. destruct a as [o|i how|e]; cbn in Ha.
  - injection Ha as <-. by apply Hstart.
  - destruct (sy_Threads sy0 !! i) as [[o [x|X st k]]|] eqn:Ei; try done.
    destruct (m_exec how st (sy_Server sy0)) as [[r s']|] eqn:Ex; [|done]. injection Ha as <-.
    by eapply Hrun.
  - destruct (m_event e (sy_Server sy0)) as [s'|] eqn:Ee; [|done]. injection Ha as <-.
    by eapply Hevent.
Qed.

(** ** Runs *)

Lemma acts_steps l sy sy' : acts l sy = Some sy' -> rtc sys_step sy sy'.
Proof.
  revert sy. induction l as [|a l IH]; intros sy; cbn [acts].
  - by intros [= ->].
  - destruct (act a sy) as [sy1|] eqn:E; [|done]. intros H. eapply rtc_l; [by exists a|by apply IH].
Qed.

Lemma acts_reachable (init : state -> Prop) l s sy : init s -> acts l (idle s) = Some sy ->
  reachable init sy.
Proof. intros Hs H. exists s. split; [done|by eapply acts_steps]. Qed.

Lemma acts_app l l' sy : acts (l ++ l') sy = match acts l sy with Some sy' => acts l' sy' | None => None end.
Proof.
  revert sy. induction l as [|a l IH]; intros sy; [done|]. cbn [acts app]. by destruct (act a sy).
Qed.

(** What is read of the system a run ends in. *)
Lemma acts_read (init : state -> Prop) {B} (f : System -> B) l s b : init s ->
  option_map f (acts l (idle s)) = Some b -> exists sy, reachable init sy /\ f sy = b.
Proof.
  intros Hs. destruct (acts l (idle s)) as [sy|] eqn:E; [|done]. intros [= <-]. exists sy.
  split; [by eapply acts_reachable|done].
Qed.

(** A program with nothing else going on, each statement going as [how] says. *)
Fixpoint alone (how : state -> fate) {A} (p : prog stmt fail A) (s : state) : option (A * state) :=
  match p with
  | Ret a => Some (a, s)
  | Do st k => match m_exec (how s) st s with Some (r, s') => alone how (k r) s' | None => None end
  end.

Lemma alone_bind how {A B} (p : prog stmt fail A) (f : A -> prog stmt fail B) s :
  alone how (pbind p f) s = match alone how p s with Some (a, s') => alone how (f a) s' | None => None end.
Proof.
  revert s. induction p as [a|X st k IH]; intros s; [done|]. cbn. by destruct (m_exec _ _ _) as [[r s']|].
Qed.

(** What operation [i] answered. *)
Definition ended_with (sy : System) (i : nat) : option answer :=
  match sy_Threads sy !! i with Some (_, Ret a) => Some a | _ => None end.
End Systems.
Arguments System stmt fail state op answer : clear implicits.
Arguments action fate event op : clear implicits.

(** ** Systems whose operations keep to protocols *)

Lemma in_insert {A} (l : list A) i x y : x ∈ <[i := y]> l -> x ∈ l \/ x = y.
Proof.
  intros [n Hn]%list_elem_of_lookup. destruct (decide (n = i)) as [->|Hne].
  - assert (Hlt := lookup_lt_Some _ _ _ Hn). rewrite length_insert in Hlt.
    rewrite list_lookup_insert_eq in Hn by done. injection Hn as <-. by right.
  - rewrite list_lookup_insert_ne in Hn by done. left. apply list_elem_of_lookup. by exists n.
Qed.

Section Phases.
Context `{Mc : Machine stmt fail fate state event op answer} {phase : Type}.
Context (allowed : op -> phase -> forall X, stmt X -> Prop).
Context (next : phase -> forall X, stmt X -> X + fail -> phase).
Context (start : op -> phase) (ends : op -> answer -> phase -> Prop).
Context (init : state -> Prop) (W : list op -> state -> list phase -> Prop).

Definition in_phase (t : op * prog stmt fail answer) (ph : phase) : Prop :=
  follows (allowed t.1) next ph (ends t.1) t.2.

Definition in_phases (sy : System stmt fail state op answer) : Prop :=
  exists phs, Forall2 in_phase (sy_Threads sy) phs /\ W (map fst (sy_Threads sy)) (sy_Server sy) phs.

(** An invariant of the state and the phases of all operations holds of every
    reachable system when programs keep to their protocols and the statements
    these allow keep the invariant. *)
Lemma reachable_phases :
  (forall s, init s -> W [] s []) ->
  (forall o, follows (allowed o) next (start o) (ends o) (m_program o)) ->
  (forall os s phs o, W os s phs -> W (os ++ [o]) s (phs ++ [start o])) ->
  (forall os s phs i o ph X (st : stmt X) how r s', W os s phs -> os !! i = Some o -> phs !! i = Some ph ->
     allowed o ph X st -> m_exec how st s = Some (r, s') -> W os s' (<[i := next ph X st r]> phs)) ->
  (forall os s phs e s', W os s phs -> m_event e s = Some s' -> W os s' phs) ->
  forall sy, reachable init sy -> in_phases sy.
Proof.
  intros Hinit Hprog Hstart Hrun Hevent sy. revert sy. apply reachable_ind.
  - intros s Hs. exists []. split; [constructor|by apply Hinit].
  - intros sy o (phs & Hf & Hw). exists (phs ++ [start o]). cbn. split.
    + apply Forall2_app; [done|]. constructor; [apply Hprog|constructor].
    + rewrite map_app. by apply Hstart.
  - intros sy i o X st k how r s (phs & Hf & Hw) Hi Hex.
    destruct (Forall2_lookup_l _ _ _ _ _ Hf Hi) as (ph & Hph & Ha & Hk).
    exists (<[i := next ph X st r]> phs). cbn. split; [by apply Forall2_insert; [|apply Hk]|].
    assert (Hmap : map fst (<[i := (o, k r)]> (sy_Threads sy)) = map fst (sy_Threads sy)).
    { change (map fst) with (fmap (M := list) (@fst op (prog stmt fail answer))). rewrite list_fmap_insert.
      apply list_insert_id. by rewrite list_lookup_fmap, Hi. }
    rewrite Hmap. eapply Hrun; [done| |done|done|done].
    change (map fst) with (fmap (M := list) (@fst op (prog stmt fail answer))). by rewrite list_lookup_fmap, Hi.
  - intros sy e s (phs & Hf & Hw) He. exists phs. split; [done|]. by eapply Hevent.
Qed.
End Phases.
