(* ===== verification/Leader.v ===== *)
(** * Leader election

    internal/leader: elector.go and postgres.go.  Each sidecar's elector renews the
    scope's row of sage.fleet_leader_lease and counts itself leader until a deadline
    on its own clock.  The database's clock and every elector's pass together, no
    elector's slower than the margin allows.  [el_ReadAt] is the database's time when
    the elector last read its clock: what it sends afterwards starts no earlier. *)

From S2P Require Import Prelude.
From S2P Require Import GoStd.
From S2P Require Export Interleave.

Open Scope go_scope.

(** ** postgres.go *)

(** A row of sage.fleet_leader_lease. *)
Record LeaseRow : Type := {
  lr_Holder : string;
  lr_Epoch : Z;
  lr_AcquiredAt : Time;
  lr_RenewedAt : Time;
  lr_ExpiresAt : Time;
}.

Record Lease : Type := {
  ls_Holder : string;
  ls_Epoch : Z;
  ls_ExpiresAt : Time;
}.

(** The row's columns the statements return. *)
Definition scanLease (r : LeaseRow) : Lease :=
  {| ls_Holder := lr_Holder r; ls_Epoch := lr_Epoch r; ls_ExpiresAt := lr_ExpiresAt r |}.

Definition no_lease : Lease := {| ls_Holder := ""; ls_Epoch := 0; ls_ExpiresAt := 0 |}.

(** [acquireSQL] in a transaction that started at [now], on the scope's row: the row
    it writes and returns, if it does. *)
Definition acquireSQL (holder : string) (ttl : Duration) (now : Time) (l : option LeaseRow)
    : option LeaseRow :=
  match l with
  | None => Some {| lr_Holder := holder; lr_Epoch := 1; lr_AcquiredAt := now; lr_RenewedAt := now;
                    lr_ExpiresAt := now + ttl |}
  | Some l =>
      if (lr_Holder l =s holder) || (lr_ExpiresAt l <=? now)
      then Some {| lr_Holder := holder;
                   lr_Epoch := if lr_Holder l =s holder then lr_Epoch l else lr_Epoch l + 1;
                   lr_AcquiredAt := if lr_Holder l =s holder then lr_AcquiredAt l else now;
                   lr_RenewedAt := now; lr_ExpiresAt := now + ttl |}
      else None
  end.

(** The update of [Release]. *)
Definition releaseSQL (holder : string) (now : Time) (l : LeaseRow) : LeaseRow :=
  if lr_Holder l =s holder
  then {| lr_Holder := lr_Holder l; lr_Epoch := lr_Epoch l; lr_AcquiredAt := lr_AcquiredAt l;
          lr_RenewedAt := lr_RenewedAt l; lr_ExpiresAt := now |}
  else l.

(** ** elector.go *)

Definition DefaultTTL : Duration := 30 * Second.
Definition SafetyDivisor : Z := 5.

(** Who renews: its scope and its holder identity. *)
Abbreviation ElectorID := (string * string)%type.

(** What an elector keeps, and its clock. *)
Record Elector : Type := {
  el_TTL : Duration;
  el_Held : bool;
  el_Epoch : Z;
  el_Deadline : Time;
  el_Current : string;
  el_LastErr : string;
  el_Transitions : Z;
  el_Now : Time;
  el_ReadAt : Time;
}.

Definition NewElector (ttl : Duration) (local now : Time) : Elector :=
  {| el_TTL := if ttl <=? 0 then DefaultTTL else ttl; el_Held := false; el_Epoch := 0; el_Deadline := 0;
     el_Current := ""; el_LastErr := ""; el_Transitions := 0; el_Now := local; el_ReadAt := now |}.

Definition leaderLocked (e : Elector) : bool := el_Held e && time_Before (el_Now e) (el_Deadline e).

(** A nil elector: election is disabled. *)
Definition IsLeader (e : option Elector) : bool :=
  match e with None => true | Some e => leaderLocked e end.

Definition Fence (id : ElectorID) (e : option Elector) : option (string * Z) :=
  match e with
  | None => None
  | Some e => if leaderLocked e then Some (id.2, el_Epoch e) else None
  end.

(** What [Tick] does under its mutex with the answer of [Acquire]. *)
Definition settle (start : Time) (answer : (Lease * bool) + error) (e : Elector) : Elector :=
  match answer with
  | inr err =>
      {| el_TTL := el_TTL e; el_Held := el_Held e; el_Epoch := el_Epoch e; el_Deadline := el_Deadline e;
         el_Current := el_Current e; el_LastErr := err; el_Transitions := el_Transitions e;
         el_Now := el_Now e; el_ReadAt := el_ReadAt e |}
  | inl (lease, held) =>
      let was := leaderLocked e in
      let e' := {| el_TTL := el_TTL e; el_Held := held;
                   el_Epoch := if held then ls_Epoch lease else el_Epoch e;
                   el_Deadline := if held then time_Add start (el_TTL e - el_TTL e ÷ SafetyDivisor)
                                  else el_Deadline e;
                   el_Current := ls_Holder lease; el_LastErr := ""; el_Transitions := el_Transitions e;
                   el_Now := el_Now e; el_ReadAt := el_ReadAt e |} in
      if Bool.eqb (leaderLocked e') was then e'
      else {| el_TTL := el_TTL e'; el_Held := el_Held e'; el_Epoch := el_Epoch e';
              el_Deadline := el_Deadline e'; el_Current := el_Current e'; el_LastErr := el_LastErr e';
              el_Transitions := el_Transitions e' + 1; el_Now := el_Now e'; el_ReadAt := el_ReadAt e' |}
  end.

Definition unhold (e : Elector) : Elector :=
  {| el_TTL := el_TTL e; el_Held := false; el_Epoch := el_Epoch e; el_Deadline := el_Deadline e;
     el_Current := el_Current e; el_LastErr := el_LastErr e; el_Transitions := el_Transitions e;
     el_Now := el_Now e; el_ReadAt := el_ReadAt e |}.

Definition set_clock (local readAt : Time) (e : Elector) : Elector :=
  {| el_TTL := el_TTL e; el_Held := el_Held e; el_Epoch := el_Epoch e; el_Deadline := el_Deadline e;
     el_Current := el_Current e; el_LastErr := el_LastErr e; el_Transitions := el_Transitions e;
     el_Now := local; el_ReadAt := readAt |}.

Record Status : Type := {
  st_Enabled : bool;
  st_Scope : string;
  st_Self : string;
  st_Holder : string;
  st_Leader : bool;
  st_Epoch : Z;
  st_Deadline : Time;
  st_LeaseTTL : Duration;
  st_LastError : string;
  st_Transitions : Z;
}.

Definition Elector_Status (id : ElectorID) (e : option Elector) : Status :=
  match e with
  | None => {| st_Enabled := false; st_Scope := ""; st_Self := ""; st_Holder := ""; st_Leader := true;
               st_Epoch := 0; st_Deadline := 0; st_LeaseTTL := 0; st_LastError := ""; st_Transitions := 0 |}
  | Some e =>
      let leader := leaderLocked e in
      {| st_Enabled := true; st_Scope := id.1; st_Self := id.2; st_Holder := el_Current e;
         st_Leader := leader; st_Epoch := if leader then el_Epoch e else 0;
         st_Deadline := if leader then el_Deadline e else 0; st_LeaseTTL := el_TTL e;
         st_LastError := el_LastErr e; st_Transitions := el_Transitions e |}
  end.

(** ** Statements *)

(** The lease table and the electors, with the database's clock. *)
Record Leases : Type := {
  ld_Now : Time;
  ld_Rows : gmap string LeaseRow;
  ld_Electors : gmap ElectorID Elector;
}.

Definition set_rows (rows : gmap string LeaseRow) (s : Leases) : Leases :=
  {| ld_Now := ld_Now s; ld_Rows := rows; ld_Electors := ld_Electors s |}.
Definition set_electors (electors : gmap ElectorID Elector) (s : Leases) : Leases :=
  {| ld_Now := ld_Now s; ld_Rows := ld_Rows s; ld_Electors := electors |}.

(** [TryAcquire] and [CurrentLease] are [Acquire]'s two statements; [Create],
    [ReadClock], [Settle] and [Unhold] are the process's own.  A [HolderID] is new. *)
Inductive stmt : Type -> Type :=
| Create (id : ElectorID) (ttl : Duration) (local : Time) : stmt unit
| ReadClock (id : ElectorID) : stmt (Time * Duration)
| TryAcquire (id : ElectorID) (ttl : Duration) : stmt (option Lease)
| CurrentLease (scope : string) : stmt (option Lease)
| Settle (id : ElectorID) (start : Time) (answer : (Lease * bool) + error) : stmt unit
| Unhold (id : ElectorID) : stmt unit
| ReleaseRow (id : ElectorID) : stmt unit.

Abbreviation prog := (Interleave.prog stmt error).

(** How a statement goes: its transaction's [now()], and whether it was carried out
    when it fails. *)
Inductive fate : Type :=
| Done (started : Time)
| Fails (started : Time) (committed : bool) (e : error).

Definition started_at (x : fate) : Time := match x with Done t => t | Fails t _ _ => t end.

(** The process's own statements do not fail. *)
Definition locally {X} (x : fate) (r : option (X * Leases)) : option ((X + error) * Leases) :=
  match x with Done _ => option_map (fun a => (inl a.1, a.2)) r | Fails _ _ _ => None end.

(** A statement of the database: what it answers and commits. *)
Definition remotely {X} (x : fate) (after : Time) (s : Leases) (r : X * Leases)
    : option ((X + error) * Leases) :=
  if (after <=? started_at x) && (started_at x <=? ld_Now s) then
    match x with
    | Done _ => Some (inl r.1, r.2)
    | Fails _ committed e => Some (inr e, if committed then r.2 else s)
    end
  else None.

Definition exec (x : fate) {X} (st : stmt X) (s : Leases) : option ((X + error) * Leases) :=
  match st in stmt X return option ((X + error) * Leases) with
  | Create id ttl local =>
      locally x match ld_Electors s !! id with
                | Some _ => None
                | None => Some (tt, set_electors (<[id := NewElector ttl local (ld_Now s)]> (ld_Electors s)) s)
                end
  | ReadClock id =>
      locally x match ld_Electors s !! id with
                | None => None
                | Some e => Some ((el_Now e, el_TTL e),
                                  set_electors (<[id := set_clock (el_Now e) (ld_Now s) e]> (ld_Electors s)) s)
                end
  | TryAcquire id ttl =>
      match ld_Electors s !! id with
      | None => None
      | Some e =>
          remotely x (el_ReadAt e) s
            match acquireSQL id.2 ttl (started_at x) (ld_Rows s !! id.1) with
            | Some row => (Some (scanLease row), set_rows (<[id.1 := row]> (ld_Rows s)) s)
            | None => (None, s)
            end
      end
  | CurrentLease scope => remotely x 0 s (scanLease <$> ld_Rows s !! scope, s)
  | Settle id start answer =>
      locally x (Some (tt, set_electors (alter (settle start answer) id (ld_Electors s)) s))
  | Unhold id => locally x (Some (tt, set_electors (alter unhold id (ld_Electors s)) s))
  | ReleaseRow id =>
      remotely x 0 s (tt, set_rows (alter (releaseSQL id.2 (started_at x)) id.1 (ld_Rows s)) s)
  end.

(** ** Acquire, Release and the elector's loop *)

(** A [Store]: none, or a [PostgresStore] with or without its pool. *)
Definition Store : Type := option bool.

Section Elect.
Context (store : Store) (id : ElectorID).

Definition wrap (what : string) (e : error) : error := what +:+ ": " +:+ e.

Definition Acquire (ttl : Duration) : prog ((Lease * bool) + error) :=
  if bool_decide (store = Some false) then Ret (inr (wrap "acquire lease" "no connection pool")) else
  do~ r := TryAcquire id ttl in
  match r with
  | inl (Some l) => Ret (inl (l, true))
  | inr e => Ret (inr (wrap ("acquire lease " +:+ id.1) e))
  | inl None =>
      do~ cur := CurrentLease id.1 in
      Ret match cur with
          | inl l => inl (default no_lease l, false)
          | inr e => inr (wrap ("read lease " +:+ id.1) e)
          end
  end.

Definition Tick : prog (option error) :=
  if bool_decide (store = None) || (id.1 =s "") || (id.2 =s "")
  then Ret (Some "leader: elector needs a store, a scope and a holder") else
  do~ clock := ReadClock id in
  match clock with
  | inr e => Ret (Some e)
  | inl (start, ttl) =>
      do* answer := Acquire ttl in
      do~ _ := Settle id start answer in
      Ret match answer with
          | inr e => Some (wrap ("leader: renew lease of " +:+ id.1) e)
          | inl _ => None
          end
  end.

Definition Release : prog (option error) :=
  do~ _ := Unhold id in
  match store with
  | None => Ret None
  | Some false => Ret (Some (wrap ("leader: release lease of " +:+ id.1) "release lease: no connection pool"))
  | Some true =>
      do~ r := ReleaseRow id in
      Ret match r with
          | inl _ => None
          | inr e => Some (wrap ("leader: release lease of " +:+ id.1) (wrap ("release lease " +:+ id.1) e))
          end
  end.

(** [Run] until its context ends, after [ticks] ticks; errors are only logged. *)
Fixpoint Run (ticks : nat) : prog (option error) :=
  match ticks with
  | O => Release
  | S n => do* _ := Tick in Run n
  end.

(** A sidecar's election: a new elector with the configured lease, a first tick, and
    its loop. *)
Definition LeaderLease (seconds : Z) : Duration := seconds * Second.

Definition Elect (seconds : Z) (local : Time) (ticks : nat) : prog (option error) :=
  do~ _ := Create id (LeaderLease seconds) local in
  do* _ := Tick in
  Run ticks.
End Elect.

(** ** The system *)

Inductive operation : Type :=
| OpElect (store : Store) (id : ElectorID) (seconds : Z) (local : Time) (ticks : nat).

Definition program (o : operation) : prog (option error) :=
  match o with OpElect store id seconds local ticks => Elect store id seconds local ticks end.

(** The clocks move on: the database's by [d], an elector's by what [adv] says. *)
Inductive event : Type := Pass (d : Duration) (adv : ElectorID -> Duration).

(** An elector's clock runs slow by the margin at most. *)
Definition drift_ok (d adv : Duration) : bool :=
  (0 <=? adv) && ((SafetyDivisor - 1) * d <=? SafetyDivisor * adv).

Definition happens (e : event) (s : Leases) : option Leases :=
  match e with
  | Pass d adv =>
      if (0 <=? d) && forallb (fun p => drift_ok d (adv p.1)) (map_to_list (ld_Electors s))
      then Some {| ld_Now := ld_Now s + d; ld_Rows := ld_Rows s;
                   ld_Electors := map_imap (fun id e => Some (set_clock (el_Now e + adv id) (el_ReadAt e) e))
                                    (ld_Electors s) |}
      else None
  end.

#[export] Instance leases : Machine stmt error fate Leases event operation (option error) := {
  m_exec := @exec;
  m_event := happens;
  m_program := program;
}.

Abbreviation System := (Interleave.System stmt error Leases operation (option error)).
Abbreviation action := (Interleave.action fate event operation).

(** No elector yet. *)
Definition no_electors (s : Leases) : Prop := ld_Electors s = ∅.
