(* ===== verification/LeaderSafety.v ===== *)
(** * At most one leader

    A sidecar that counts itself leader holds its scope's lease, unexpired on the
    database's clock, however the sidecars' statements interleave, fail or lose
    their answers, and however their clocks drift within the margin.  So no two
    lead one scope.  And a lease that was lost is lost for good: its epoch never
    comes back. *)

From S2P Require Import Prelude.
From S2P Require Import GoStd.
From S2P Require Import Leader.

(** ** How far an election is *)

Inductive Phase : Type :=
| Starting
| Idle
| Read (start : Time) (ttl : Duration)
| Got (start : Time) (ttl : Duration) (l : Lease)
| Unheld.

#[export] Instance Lease_eq_dec : EqDecision Lease.
Proof. solve_decision. Defined.
#[export] Instance Phase_eq_dec : EqDecision Phase.
Proof. solve_decision. Defined.

Definition id_of (o : operation) : ElectorID := match o with OpElect _ id _ _ _ => id end.

Definition next (ph : Phase) {X} (st : stmt X) : X + error -> Phase :=
  match st in stmt X return X + error -> Phase with
  | Create _ _ _ => fun _ => Idle
  | ReadClock _ => fun r => match r with inl (start, ttl) => Read start ttl | inr _ => ph end
  | TryAcquire _ _ => fun r => match ph, r with
                               | Read start ttl, inl (Some l) => Got start ttl l
                               | _, _ => ph
                               end
  | CurrentLease _ => fun _ => ph
  | Settle _ _ _ => fun _ => Idle
  | Unhold _ => fun _ => Unheld
  | ReleaseRow _ => fun _ => ph
  end.

(** What an elector may send: its own statements, a lease settled only as it was
    answered, and its row released only when it no longer counts on it. *)
Definition allowed (me : ElectorID) (ph : Phase) {X} (st : stmt X) : Prop :=
  match st with
  | Create id _ _ => id = me /\ ph = Starting
  | ReadClock id => id = me /\ ph = Idle
  | TryAcquire id ttl => id = me /\ exists start, ph = Read start ttl
  | CurrentLease _ => exists start ttl, ph = Read start ttl
  | Settle id start answer =>
      id = me /\ match answer with
                 | inl (l, true) => exists ttl, ph = Got start ttl l
                 | _ => exists ttl, ph = Read start ttl
                 end
  | Unhold id => id = me /\ ph = Idle
  | ReleaseRow id => id = me /\ ph = Unheld
  end.

Abbreviation follows me ph := (Interleave.follows (fun now X (st : stmt X) => allowed me now st)
  (fun now X (st : stmt X) r => next now st r) ph).

Definition ended (ph : Phase) : Prop := ph = Idle \/ ph = Unheld.

Section Programs.
Context (store : Store) (me : ElectorID).

Lemma follows_acquire start ttl : follows me (Read start ttl)
  (fun r ph => match r with inl (l, true) => ph = Got start ttl l | _ => ph = Read start ttl end)
  (Acquire store me ttl).
Proof.
  unfold Acquire. case_bool_decide; [done|]. split; [by split; [|exists start]|].
  intros [[l|]|e]; [done| |done]. split; [by exists start, ttl|]. by intros [l|e].
Qed.

Lemma follows_tick : follows me Idle (fun _ ph => ph = Idle) (Tick store me).
Proof.
  unfold Tick. destruct (_ || _); [done|]. split; [done|]. intros [[start ttl]|e]; [|done].
  eapply follows_bind; [apply follows_acquire|].
  intros [[l [|]]|e] ph ->; (split; [split; [done|by exists ttl]|done]).
Qed.

Lemma follows_release : follows me Idle (fun _ ph => ended ph) (Release store me).
Proof.
  unfold Release. split; [done|]. intros r. destruct store as [[|]|]; cbn; [|by right..].
  split; [done|]. intros [u|e]; by right.
Qed.

Lemma follows_elect seconds local ticks :
  follows me Starting (fun _ ph => ended ph) (Elect store me seconds local ticks).
Proof.
  unfold Elect. split; [done|]. intros r. cbn [next].
  eapply follows_bind; [apply follows_tick|]. intros _ ph ->.
  induction ticks as [|n IH]; [apply follows_release|].
  eapply follows_bind; [apply follows_tick|]. by intros _ ph ->.
Qed.
End Programs.

(** ** The invariant *)

(** Until [until], [id]'s lease of [epoch] is in the table. *)
Definition covers (s : Leases) (id : ElectorID) (epoch : Z) (until : Time) : Prop :=
  until <= ld_Now s \/ exists row, ld_Rows s !! id.1 = Some row /\ lr_Holder row = id.2 /\
    lr_Epoch row = epoch /\ until <= lr_ExpiresAt row.

(** What [id] may count on when its clock read [start]. *)
Definition backed (s : Leases) (id : ElectorID) (e : Elector) (epoch : Z) (start : Time) : Prop :=
  exists from, from <= el_ReadAt e /\ 4 * (ld_Now s - from) <= 5 * (el_Now e - start) /\
    covers s id epoch (from + el_TTL e).

Record elector_ok (s : Leases) (id : ElectorID) (e : Elector) : Prop := {
  eo_read : el_ReadAt e <= ld_Now s;
  eo_ttl : 0 < el_TTL e;
  eo_held : el_Held e = true -> exists start, backed s id e (el_Epoch e) start /\
    el_Deadline e = start + (el_TTL e - el_TTL e ÷ SafetyDivisor);
}.

Definition phase_ok (s : Leases) (id : ElectorID) (ph : Phase) : Prop :=
  ph = Starting \/ exists e, ld_Electors s !! id = Some e /\
    match ph with
    | Read start ttl => el_TTL e = ttl /\ 4 * (ld_Now s - el_ReadAt e) <= 5 * (el_Now e - start)
    | Got start ttl l => el_TTL e = ttl /\ backed s id e (ls_Epoch l) start
    | Unheld => el_Held e = false
    | _ => True
    end.

Record leases_ok (os : list operation) (s : Leases) (phs : list Phase) : Prop := {
  lo_electors : forall id e, ld_Electors s !! id = Some e -> elector_ok s id e;
  lo_phases : forall i o ph, os !! i = Some o -> phs !! i = Some ph -> phase_ok s (id_of o) ph;
  lo_owner : forall i j o o' ph ph', os !! i = Some o -> os !! j = Some o' -> phs !! i = Some ph ->
    phs !! j = Some ph' -> ph <> Starting -> ph' <> Starting -> id_of o = id_of o' -> i = j;
}.

(** A step of [me] that leaves the others' electors and leases alone. *)
Record spares (me : ElectorID) (s s' : Leases) : Prop := {
  sp_now : ld_Now s' = ld_Now s;
  sp_electors : forall id, id <> me -> ld_Electors s' !! id = ld_Electors s !! id;
  sp_covers : forall id epoch until, id <> me -> covers s id epoch until -> covers s' id epoch until;
}.

Lemma backed_spares me s s' id e epoch start : spares me s s' -> id <> me ->
  backed s id e epoch start -> backed s' id e epoch start.
Proof. intros [H1 _ H3] Hne (from & Hf & Hd & Hc). exists from. rewrite H1. auto. Qed.

Lemma elector_spares me s s' id e : spares me s s' -> id <> me -> elector_ok s id e -> elector_ok s' id e.
Proof.
  intros Hs Hne [H1 H2 H3]. split; [by rewrite (sp_now _ _ _ Hs)|done|]. intros Hh.
  destruct (H3 Hh) as (start & Hb & Hd). exists start. split; [by eapply backed_spares|done].
Qed.

Lemma phase_spares me s s' id ph : spares me s s' -> id <> me -> phase_ok s id ph -> phase_ok s' id ph.
Proof.
  intros Hs Hne [H|(e & He & H)]; [by left|]. right. exists e.
  rewrite (sp_electors _ _ _ Hs) by done. split; [done|]. destruct ph; try done.
  - by rewrite (sp_now _ _ _ Hs).
  - destruct H as [Ht Hb]. split; [done|]. by eapply backed_spares.
Qed.

(** One step of operation [i]. *)
Lemma ok_step os s phs i o ph ph' s' : leases_ok os s phs -> os !! i = Some o -> phs !! i = Some ph ->
  (forall j o' ph2, j <> i -> os !! j = Some o' -> phs !! j = Some ph2 -> ph2 <> Starting -> id_of o' <> id_of o) ->
  spares (id_of o) s s' -> phase_ok s' (id_of o) ph' ->
  (forall e, ld_Electors s' !! id_of o = Some e -> elector_ok s' (id_of o) e) ->
  leases_ok os s' (<[i := ph']> phs).
Proof.
  intros [H1 H2 H3] Hi Hph Hown Hs Hp He. split.
  - intros id e Hid. destruct (decide (id = id_of o)) as [->|Hne]; [by apply He|].
    rewrite (sp_electors _ _ _ Hs) in Hid by done. eapply elector_spares; eauto.
  - intros j o' ph2 Hj Hj2. destruct (decide (j = i)) as [->|Hne].
    + rewrite list_lookup_insert_eq in Hj2 by (by apply lookup_lt_Some in Hph). congruence.
    + rewrite list_lookup_insert_ne in Hj2 by done. destruct (decide (ph2 = Starting)) as [->|Hst]; [by left|].
      eapply phase_spares; [done|by eapply Hown|by eapply H2].
  - intros j k oj ok phj phk Hj Hk Hpj Hpk. destruct (decide (j = i)) as [->|Hji], (decide (k = i)) as [->|Hki];
      [done| | |].
    + rewrite list_lookup_insert_ne in Hpk by done. intros _ Hnk Heq. exfalso.
      assert (oj = o) as -> by congruence. by eapply Hown.
    + rewrite list_lookup_insert_ne in Hpj by done. intros Hnj _ Heq. exfalso.
      assert (ok = o) as -> by congruence. by eapply Hown.
    + rewrite !list_lookup_insert_ne in Hpj, Hpk by done. by apply (H3 j k oj ok phj phk).
Qed.

(** ** Statements *)

Lemma acquire_row me ttl now l row : acquireSQL me ttl now l = Some row ->
  lr_Holder row = me /\ lr_ExpiresAt row = now + ttl /\
  forall r, l = Some r -> (lr_Holder r = me /\ lr_Epoch row = lr_Epoch r) \/
                          (lr_Holder r <> me /\ lr_Epoch row = lr_Epoch r + 1 /\ lr_ExpiresAt r <= now).
Proof.
  unfold acquireSQL. destruct l as [l|]; [|by intros [= <-]].
  destruct (String.eqb_spec (lr_Holder l) me) as [E|Hne]; cbn [orb].
  - intros [= <-]. split; [done|]. split; [done|]. intros r [= ->]. by left.
  - destruct (Z.leb_spec (lr_ExpiresAt l) now); [|done]. intros [= <-]. split; [done|]. split; [done|].
    intros r [= ->]. by right.
Qed.

Lemma acquire_covers s me ttl now row id epoch until :
  acquireSQL me.2 ttl now (ld_Rows s !! me.1) = Some row -> now <= ld_Now s ->
  (id = me -> until <= now + ttl) -> covers s id epoch until ->
  covers (set_rows (<[me.1 := row]> (ld_Rows s)) s) id epoch until.
Proof.
  intros Ha Hnow Hown [Hu|(r & Hr & Hh & He & Hu)]; [by left|].
  destruct (acquire_row _ _ _ _ _ Ha) as (H1 & H2 & H3). destruct (decide (id.1 = me.1)) as [Hsc|Hsc].
  - rewrite Hsc in Hr. destruct (H3 r Hr) as [[Hm Hep]|(Hm & _ & Hexp)].
    + assert (id = me) as -> by (destruct id, me; cbn in *; congruence). right. exists row. cbn.
      rewrite lookup_insert_eq. specialize (Hown eq_refl). split_and!; [done|done|congruence|lia].
    + left. cbn. lia.
  - right. exists r. cbn. by rewrite lookup_insert_ne.
Qed.

Lemma remotely_some {X} x after s (a : X * Leases) r s' : remotely x after s a = Some (r, s') ->
  after <= started_at x <= ld_Now s /\ ((r = inl a.1 /\ s' = a.2) \/ (exists e, r = inr e /\ (s' = a.2 \/ s' = s))).
Proof.
  unfold remotely. destruct (Z.leb_spec after (started_at x)), (Z.leb_spec (started_at x) (ld_Now s)); try done.
  intros Hx. split; [done|]. destruct x as [t|t [|] e]; injection Hx as <- <-; naive_solver.
Qed.

Lemma locally_some {X} x (a : option (X * Leases)) r s' : locally x a = Some (r, s') ->
  exists y, a = Some (y, s') /\ r = inl y.
Proof. destruct x; [|done]. destruct a as [[y s1]|]; [|done]. intros [= <- <-]. by exists y. Qed.

Lemma spares_refl me s : spares me s s.
Proof. done. Qed.

Lemma spares_electors me s e : spares me s (set_electors (<[me := e]> (ld_Electors s)) s).
Proof. split; [done| |done]. intros id Hne. cbn. by rewrite lookup_insert_ne. Qed.

(** What a statement of [me] does for [me]. *)
Definition serves (me : ElectorID) (ph : Phase) (s s' : Leases) : Prop :=
  spares me s s' /\ phase_ok s' me ph /\ forall e, ld_Electors s' !! me = Some e -> elector_ok s' me e.

Lemma serves_electors me ph s e : elector_ok s me e ->
  phase_ok (set_electors (<[me := e]> (ld_Electors s)) s) me ph ->
  serves me ph s (set_electors (<[me := e]> (ld_Electors s)) s).
Proof.
  intros He Hp. split; [apply spares_electors|]. split; [done|]. cbn. intros e'. rewrite lookup_insert_eq.
  intros [= <-]. destruct He as [H1 H2 H3]. by split.
Qed.

Lemma create_serves s me ttl local : serves me Idle s
  (set_electors (<[me := NewElector ttl local (ld_Now s)]> (ld_Electors s)) s).
Proof.
  apply serves_electors.
  - split; cbn; [done| |done]. unfold DefaultTTL, Second. destruct (Z.leb_spec ttl 0); lia.
  - right. eexists. cbn. by rewrite lookup_insert_eq.
Qed.

Lemma read_serves s me e : ld_Electors s !! me = Some e -> elector_ok s me e ->
  serves me (Read (el_Now e) (el_TTL e)) s
    (set_electors (<[me := set_clock (el_Now e) (ld_Now s) e]> (ld_Electors s)) s).
Proof.
  intros He [H1 H2 H3]. apply serves_electors.
  - split; cbn; [done|done|]. intros Hh. destruct (H3 Hh) as (start & (from & Hf & Hd) & Hdl).
    exists start. split; [|done]. exists from. cbn. split; [lia|done].
  - right. eexists. cbn. rewrite lookup_insert_eq. split; [done|]. cbn. split; [done|lia].
Qed.

Lemma settle_fields start answer e : el_TTL (settle start answer e) = el_TTL e /\
  el_Now (settle start answer e) = el_Now e /\ el_ReadAt (settle start answer e) = el_ReadAt e /\
  match answer with
  | inr _ => el_Held (settle start answer e) = el_Held e /\ el_Epoch (settle start answer e) = el_Epoch e /\
             el_Deadline (settle start answer e) = el_Deadline e
  | inl (l, true) => el_Epoch (settle start answer e) = ls_Epoch l /\
             el_Deadline (settle start answer e) = start + (el_TTL e - el_TTL e ÷ SafetyDivisor)
  | inl (_, false) => el_Held (settle start answer e) = false
  end.
Proof. unfold settle. destruct answer as [[l [|]]|err]; [| |done]; by destruct (Bool.eqb _ _). Qed.

Lemma settle_serves s me ph start answer e : ld_Electors s !! me = Some e -> elector_ok s me e ->
  phase_ok s me ph ->
  match answer with
  | inl (l, true) => exists ttl, ph = Got start ttl l
  | _ => exists ttl, ph = Read start ttl
  end ->
  serves me Idle s (set_electors (<[me := settle start answer e]> (ld_Electors s)) s).
Proof.
  intros He [H1 H2 H3] Hp Ha. destruct (settle_fields start answer e) as (F1 & F2 & F3 & F4).
  apply serves_electors; [|right; eexists; cbn; by rewrite lookup_insert_eq].
  split; [by rewrite F3|by rewrite F1|]. intros Hh. unfold backed. rewrite F1, F2, F3. cbn.
  destruct answer as [[l [|]]|err]; [|congruence|].
  - destruct F4 as [F4 F5], Ha as [ttl ->]. destruct Hp as [Hp|(e' & He' & Ht & Hb)]; [done|].
    rewrite He in He'. injection He' as <-. exists start. by rewrite F4, F5.
  - destruct F4 as (F4 & F5 & F6). rewrite F5, F6. apply H3. congruence.
Qed.

Lemma unhold_serves s me e : ld_Electors s !! me = Some e -> elector_ok s me e ->
  serves me Unheld s (set_electors (<[me := unhold e]> (ld_Electors s)) s).
Proof.
  intros He [H1 H2 H3]. apply serves_electors; [by split|].
  right. eexists. cbn. by rewrite lookup_insert_eq.
Qed.

Lemma acquire_serves s me e start row now : ld_Electors s !! me = Some e -> elector_ok s me e ->
  phase_ok s me (Read start (el_TTL e)) -> el_ReadAt e <= now <= ld_Now s ->
  acquireSQL me.2 (el_TTL e) now (ld_Rows s !! me.1) = Some row ->
  let s' := set_rows (<[me.1 := row]> (ld_Rows s)) s in
  serves me (Got start (el_TTL e) (scanLease row)) s s' /\ serves me (Read start (el_TTL e)) s s'.
Proof.
  intros He [H1 H2 H3] Hp Hnow Ha s'. destruct Hp as [Hp|(e' & He' & _ & Hd)]; [done|].
  rewrite He in He'. injection He' as <-.
  assert (Hsp : spares me s s').
  { split; [done|done|]. intros id epoch until Hne. eapply acquire_covers; [done|lia|done]. }
  assert (Hok : forall e0, ld_Electors s' !! me = Some e0 -> elector_ok s' me e0).
  { intros e0 H0. cbn in H0. rewrite He in H0. injection H0 as <-. split; [done|done|]. intros Hh.
    destruct (H3 Hh) as (st & (from & Hf & Hdr & Hc) & Hdl). exists st. split; [|done]. exists from.
    split; [done|]. split; [done|]. eapply acquire_covers; [done|lia| |done]. lia. }
  destruct (acquire_row _ _ _ _ _ Ha) as (R1 & R2 & _).
  split; (split; [done|]); (split; [|done]); right; exists e; (split; [done|]); (split; [done|]).
  - exists (el_ReadAt e). split; [lia|]. split; [done|]. right. exists row. cbn. rewrite lookup_insert_eq.
    split_and!; try done. lia.
  - done.
Qed.

Lemma release_serves s me now : (forall e, ld_Electors s !! me = Some e -> elector_ok s me e) ->
  phase_ok s me Unheld -> serves me Unheld s (set_rows (alter (releaseSQL me.2 now) me.1 (ld_Rows s)) s).
Proof.
  intros Hok Hp. split; [|split].
  - split; [done|done|]. intros id epoch until Hne [Hu|(r & Hr & Hh & He & Hu)]; [by left|]. right.
    destruct (decide (id.1 = me.1)) as [Hsc|Hsc].
    + exists r. cbn. rewrite Hsc, lookup_alter_eq, <- Hsc, Hr. cbn. unfold releaseSQL.
      destruct (String.eqb_spec (lr_Holder r) me.2) as [E|_]; [|done].
      exfalso. apply Hne. destruct id, me; cbn in *; congruence.
    + exists r. cbn. by rewrite lookup_alter_ne.
  - destruct Hp as [Hp|(e & He & Hh)]; [done|]. right. by exists e.
  - intros e He. destruct (Hok e He) as [H1 H2 H3]. split; [done|done|]. intros Hh.
    destruct Hp as [Hp|(e' & He' & Hh')]; [done|]. cbn in He. congruence.
Qed.

Lemma exec_serves s me ph x X (st : stmt X) r s' : allowed me ph st -> phase_ok s me ph ->
  (forall e, ld_Electors s !! me = Some e -> elector_ok s me e) ->
  exec x st s = Some (r, s') -> serves me (next ph st r) s s'.
Proof.
  intros Ha Hp Hok. assert (Hsame : forall ph', phase_ok s me ph' -> serves me ph' s s) by (by split).
  destruct st; cbn in *; intros Hex.
  - destruct Ha as [-> ->]. apply locally_some in Hex as (y & Hex & ->).
    destruct (ld_Electors s !! me); [done|]. injection Hex as <- <-. apply create_serves.
  - destruct Ha as [-> ->]. apply locally_some in Hex as (y & Hex & ->).
    destruct (ld_Electors s !! me) as [e|] eqn:Ee; [|done]. injection Hex as <- <-. by apply read_serves; auto.
  - destruct Ha as [-> [start ->]]. destruct (ld_Electors s !! me) as [e|] eqn:Ee; [|done].
    assert (Ht : el_TTL e = ttl) by (destruct Hp as [Hp|(e' & He' & Ht & _)]; [done|congruence]). subst ttl.
    destruct (remotely_some _ _ _ _ _ _ Hex) as [Hnow Hr]. clear Hex.
    destruct (acquireSQL me.2 (el_TTL e) (started_at x) (ld_Rows s !! me.1)) as [row|] eqn:Er.
    + destruct (acquire_serves s me e start row (started_at x) Ee (Hok e eq_refl) Hp Hnow Er) as [S1 S2].
      destruct Hr as [[-> ->]|(err & -> & [-> | ->])]; auto.
    + destruct Hr as [[-> ->]|(err & -> & [-> | ->])]; cbn; auto.
  - destruct Ha as (start & ttl & ->). destruct (remotely_some _ _ _ _ _ _ Hex) as [_ Hr].
    destruct Hr as [[-> ->]|(err & -> & [-> | ->])]; cbn; auto.
  - destruct Ha as [-> Ha]. apply locally_some in Hex as (y & [= <- <-] & ->).
    assert (He : exists e, ld_Electors s !! me = Some e).
    { destruct Hp as [->|(e & He & _)]; [|by exists e]. by destruct answer as [[l [|]]|err], Ha as [ttl Ha]. }
    destruct He as [e He]. rewrite (alter_alt_Some _ _ _ _ He). by eapply settle_serves; auto.
  - destruct Ha as [-> ->]. apply locally_some in Hex as (y & [= <- <-] & ->).
    destruct Hp as [Hp|(e & He & _)]; [done|]. rewrite (alter_alt_Some _ _ _ _ He). by apply unhold_serves; auto.
  - destruct Ha as [-> ->]. destruct (remotely_some _ _ _ _ _ _ Hex) as [_ Hr].
    assert (Hrel := release_serves s me (started_at x) Hok Hp).
    destruct Hr as [[-> ->]|(err & -> & [-> | ->])]; cbn; auto.
Qed.

(** ** The clocks *)

Lemma pass_spec d adv s s' : happens (Pass d adv) s = Some s' -> 0 <= d /\ ld_Now s' = ld_Now s + d /\
  ld_Rows s' = ld_Rows s /\
  forall id, (ld_Electors s' !! id = None /\ ld_Electors s !! id = None) \/
             (exists e, ld_Electors s !! id = Some e /\ 4 * d <= 5 * adv id /\
                ld_Electors s' !! id = Some (set_clock (el_Now e + adv id) (el_ReadAt e) e)).
Proof.
  cbn. destruct (Z.leb_spec 0 d); [|done]. cbn [andb]. case_match eqn:E; [|done]. intros [= <-]. cbn.
  split_and!; [done..|]. intros id. rewrite map_lookup_imap. destruct (ld_Electors s !! id) as [e|] eqn:Ee; [|by left].
  right. exists e. split; [done|]. split; [|done]. rewrite forallb_forall in E.
  assert (Hin : List.In (id, e) (map_to_list (ld_Electors s))) by (by apply list_elem_of_In, elem_of_map_to_list).
  specialize (E _ Hin). cbn in E. unfold drift_ok, SafetyDivisor in E. apply andb_prop in E as [_ E%Z.leb_le]. lia.
Qed.

Lemma backed_pass s s' id e d adv epoch start : 0 <= d -> ld_Now s' = ld_Now s + d -> ld_Rows s' = ld_Rows s ->
  4 * d <= 5 * adv -> backed s id e epoch start ->
  backed s' id (set_clock (el_Now e + adv) (el_ReadAt e) e) epoch start.
Proof.
  intros Hd Hn Hr Ha (from & Hf & Hdr & Hc). exists from. cbn. split; [done|]. split; [lia|].
  destruct Hc as [Hu|(row & Hrow & Hrest)]; [left; lia|right; exists row]. by rewrite Hr.
Qed.

Lemma event_ok os s phs ev s' : leases_ok os s phs -> happens ev s = Some s' -> leases_ok os s' phs.
Proof.
  intros [H1 H2 H3]. destruct ev as [d adv]. intros (Hd & Hn & Hr & He)%pass_spec. split; [| |done].
  - intros id e' Hid. destruct (He id) as [[Hx _]|(e & Hs & Ha & Hx)]; [congruence|].
    rewrite Hid in Hx. injection Hx as ->. destruct (H1 id e Hs) as [G1 G2 G3]. split; cbn; [lia|done|].
    intros Hh. destruct (G3 Hh) as (start & Hb & Hdl). exists start. split; [by apply (backed_pass s s' id e d)|done].
  - intros i o ph Hi Hph. destruct (H2 i o ph Hi Hph) as [Hst|(e & Hs & Hrest)]; [by left|]. right.
    destruct (He (id_of o)) as [[_ Hx]|(e' & He' & Ha & Hx)]; [congruence|].
    rewrite Hs in He'. injection He' as <-. eexists. split; [done|]. destruct ph; try done; cbn.
    + destruct Hrest as [Ht Hdr]. split; [done|lia].
    + destruct Hrest as [Ht Hb]. split; [done|]. by apply (backed_pass s s' _ e d).
Qed.

(** ** Every reachable system *)

Lemma election_ok_start os s phs o : length os = length phs -> leases_ok os s phs -> leases_ok (os ++ [o]) s (phs ++ [Starting]).
Proof.
  intros Hlen [H1 H2 H3]. assert (Hnew : forall i o' ph, (os ++ [o]) !! i = Some o' -> (phs ++ [Starting]) !! i = Some ph ->
    ph = Starting \/ (os !! i = Some o' /\ phs !! i = Some ph)).
  { intros i o' ph Hi Hp. apply lookup_app_Some in Hi as [Hi|[Hi _]]; apply lookup_app_Some in Hp as [Hp|[Hp Hp']].
    - by right.
    - left. by apply list_lookup_singleton_Some in Hp' as [_ <-].
    - apply lookup_lt_Some in Hp. lia.
    - left. by apply list_lookup_singleton_Some in Hp' as [_ <-]. }
  split; [done| |].
  - intros i o' ph Hi Hp. destruct (Hnew i o' ph Hi Hp) as [->|[Hi' Hp']]; [by left|by eapply H2].
  - intros i j o1 o2 ph1 ph2 Hi Hj Hp1 Hp2 Hn1 Hn2. destruct (Hnew _ _ _ Hi Hp1) as [->|[Hi' Hp1']]; [done|].
    destruct (Hnew _ _ _ Hj Hp2) as [->|[Hj' Hp2']]; [done|]. by eapply H3.
Qed.

Lemma election_ok_run os s phs i o ph X (st : stmt X) x r s' : leases_ok os s phs -> os !! i = Some o ->
  phs !! i = Some ph -> allowed (id_of o) ph st -> exec x st s = Some (r, s') ->
  leases_ok os s' (<[i := next ph st r]> phs).
Proof.
  intros Hok Hi Hph Ha Hex. assert (Hok' := Hok). destruct Hok' as [H1 H2 H3].
  destruct (exec_serves s (id_of o) ph x X st r s' Ha (H2 _ _ _ Hi Hph) (H1 (id_of o)) Hex) as (Hs & Hp & He).
  eapply ok_step; [done|done|done| |done|done|done].
  intros j o' ph2 Hne Hj Hpj Hst Heq. destruct (decide (ph = Starting)) as [->|Hns].
  - destruct (H2 _ _ _ Hj Hpj) as [Hq|(e & Hs' & _)]; [done|]. rewrite Heq in Hs'.
    destruct st; cbn in Ha.
    + destruct Ha as [-> _]. cbn in Hex. apply locally_some in Hex as (y & Hex & _). by rewrite Hs' in Hex.
    + by destruct Ha as [_ Ha].
    + by destruct Ha as [_ [start Ha]].
    + by destruct Ha as (start & ttl & Ha).
    + destruct Ha as [_ Ha]. by destruct answer as [[l [|]]|err], Ha.
    + by destruct Ha as [_ Ha].
    + by destruct Ha as [_ Ha].
  - apply Hne. by eapply H3.
Qed.

Lemma election_system_ok (sy : System) : reachable no_electors sy ->
  exists os phs, length os = length phs /\ leases_ok os (sy_Server sy) phs.
Proof.
  intros Hr. destruct (reachable_phases (fun o now X (st : stmt X) => allowed (id_of o) now st)
    (fun now X (st : stmt X) r => next now st r) (fun _ => Starting) (fun _ _ ph => ended ph) no_electors
    (fun os s phs => length os = length phs /\ leases_ok os s phs)) with (sy := sy) as (phs & _ & H); try done.
  - intros s Hs. split; [done|]. split; [|done..]. intros id e He. unfold no_electors in Hs. by rewrite Hs in He.
  - intros [store id seconds local ticks]. apply follows_elect.
  - intros os s phs o [Hl Hok]. rewrite !length_app, Hl. split; [done|]. by apply election_ok_start.
  - intros os s phs i o ph X st x r s' [Hl Hok] Hi Hph Ha Hex. rewrite length_insert. split; [done|].
    by eapply election_ok_run.
  - intros os s phs e s' [Hl Hok] He. split; [done|]. by eapply event_ok.
  - by exists (map fst (sy_Threads sy)), phs.
Qed.

(** Before the deadline on its own clock, the lease has not run out on the
    database's. *)
Lemma margin ttl local start now from : 0 < ttl -> local < start + (ttl - ttl ÷ SafetyDivisor) ->
  4 * (now - from) <= 5 * (local - start) -> now < from + ttl.
Proof.
  unfold SafetyDivisor. intros Ht Hl Hd. pose proof (Z.quot_rem' ttl 5). pose proof (Z.rem_bound_pos ttl 5).
  lia.
Qed.

(** C30: a sidecar that counts itself leader holds its scope's lease in the database
    with the epoch it writes under, unexpired there, and no other sidecar counts
    itself leader of that scope; however ticks and releases interleave, fail or lose
    their answers, and however the clocks drift within the margin. *)
Theorem one_leader (sy : System) : reachable no_electors sy ->
  let s := sy_Server sy in
  forall id holder epoch, Fence id (ld_Electors s !! id) = Some (holder, epoch) ->
    (exists row, ld_Rows s !! id.1 = Some row /\ lr_Holder row = holder /\ lr_Epoch row = epoch /\
       ld_Now s < lr_ExpiresAt row) /\
    forall id' e', id'.1 = id.1 -> ld_Electors s !! id' = Some e' -> leaderLocked e' = true -> id' = id.
Proof.
  intros Hr s. destruct (election_system_ok sy Hr) as (os & phs & _ & [H1 _ _]). fold s in H1.
  assert (Hrow : forall id e, ld_Electors s !! id = Some e -> leaderLocked e = true ->
    exists row, ld_Rows s !! id.1 = Some row /\ lr_Holder row = id.2 /\ lr_Epoch row = el_Epoch e /\
      ld_Now s < lr_ExpiresAt row).
  { intros id e He Hl. destruct (H1 id e He) as [_ Ht Hh]. apply andb_prop in Hl as [Hheld Hb%Z.ltb_lt].
    destruct (Hh Hheld) as (start & (from & _ & Hd & Hc) & Hdl). rewrite Hdl in Hb.
    pose proof (margin _ _ _ _ _ Ht Hb Hd). destruct Hc as [Hc|(row & R1 & R2 & R3 & R4)]; [lia|].
    exists row. split_and!; [done..|lia]. }
  intros id holder epoch Hf. unfold Fence in Hf. destruct (ld_Electors s !! id) as [e|] eqn:Ee; [|done].
  destruct (leaderLocked e) eqn:El; [|done]. injection Hf as <- <-.
  destruct (Hrow id e Ee El) as (row & R1 & R2 & R3 & R4). split; [by exists row|].
  intros id' e' Hsc He' Hl'. destruct (Hrow id' e' He' Hl') as (row' & R1' & R2' & _).
  rewrite Hsc, R1 in R1'. injection R1' as <-. destruct id, id'; cbn in *; congruence.
Qed.

(** ** Epochs *)

(** A lease stays its holder's or moves on to a later epoch. *)
Definition onward (s s' : Leases) : Prop :=
  forall scope row, ld_Rows s !! scope = Some row -> exists row', ld_Rows s' !! scope = Some row' /\
    ((lr_Epoch row' = lr_Epoch row /\ lr_Holder row' = lr_Holder row) \/ lr_Epoch row < lr_Epoch row').

#[global] Instance onward_preorder : PreOrder onward.
Proof.
  split.
  - intros s scope row H. exists row. auto.
  - intros s1 s2 s3 H12 H23 scope row H1. destruct (H12 _ _ H1) as (r2 & H2 & Hr2).
    destruct (H23 _ _ H2) as (r3 & H3 & Hr3). exists r3. split; [done|].
    destruct Hr2 as [[E2 F2]|L2], Hr3 as [[E3 F3]|L3]; [left; split; congruence|right; lia..].
Qed.

Lemma onward_same s s' : ld_Rows s' = ld_Rows s -> onward s s'.
Proof. intros H scope row Hr. exists row. rewrite H. auto. Qed.

Lemma onward_row s scope f :
  (forall row, ld_Rows s !! scope = Some row -> exists row', f (ld_Rows s !! scope) = Some row' /\
    ((lr_Epoch row' = lr_Epoch row /\ lr_Holder row' = lr_Holder row) \/ lr_Epoch row < lr_Epoch row')) ->
  onward s (set_rows (partial_alter f scope (ld_Rows s)) s).
Proof.
  intros Hf sc row Hrow. cbn. destruct (decide (sc = scope)) as [->|Hne].
  - rewrite lookup_partial_alter_eq. by apply Hf.
  - rewrite lookup_partial_alter_ne by done. exists row. auto.
Qed.

Lemma onward_acquire s me ttl now row : acquireSQL me.2 ttl now (ld_Rows s !! me.1) = Some row ->
  onward s (set_rows (<[me.1 := row]> (ld_Rows s)) s).
Proof.
  intros Ha. destruct (acquire_row _ _ _ _ _ Ha) as (R1 & _ & R3).
  apply (onward_row s me.1 (fun _ => Some row)). intros r Hr. exists row. split; [done|].
  destruct (R3 r Hr) as [[E1 E2]|(_ & E2 & _)]; [left; split; congruence|right; lia].
Qed.

Lemma onward_release s me now : onward s (set_rows (alter (releaseSQL me.2 now) me.1 (ld_Rows s)) s).
Proof.
  apply onward_row. intros row ->. eexists. split; [done|]. left. unfold releaseSQL. by destruct (_ =s _).
Qed.

Lemma exec_onward s x X (st : stmt X) r s' : exec x st s = Some (r, s') -> onward s s'.
Proof.
  destruct st; cbn; intros Hex.
  - apply locally_some in Hex as (y & Hex & _). destruct (ld_Electors s !! id); [done|].
    injection Hex as _ <-. by apply onward_same.
  - apply locally_some in Hex as (y & Hex & _). destruct (ld_Electors s !! id); [|done].
    injection Hex as _ <-. by apply onward_same.
  - destruct (ld_Electors s !! id) as [e|]; [|done]. destruct (remotely_some _ _ _ _ _ _ Hex) as [_ Hr].
    destruct (acquireSQL _ _ _ _) as [row|] eqn:Ea.
    + pose proof (onward_acquire _ _ _ _ _ Ea). by destruct Hr as [[_ ->]|(err & _ & [-> | ->])].
    + by destruct Hr as [[_ ->]|(err & _ & [-> | ->])].
  - destruct (remotely_some _ _ _ _ _ _ Hex) as [_ Hr]. by destruct Hr as [[_ ->]|(err & _ & [-> | ->])].
  - apply locally_some in Hex as (y & [= _ <-] & _). by apply onward_same.
  - apply locally_some in Hex as (y & [= _ <-] & _). by apply onward_same.
  - destruct (remotely_some _ _ _ _ _ _ Hex) as [_ Hr]. pose proof (onward_release s id (started_at x)).
    by destruct Hr as [[_ ->]|(err & _ & [-> | ->])].
Qed.

Lemma happens_onward s e s' : happens e s = Some s' -> onward s s'.
Proof.
  destruct e as [d adv]. intros (_ & _ & Hr & _)%pass_spec. by apply onward_same.
Qed.

(** C37: an epoch names one holder for good: once a scope's lease has a later epoch or
    another holder, whatever the sidecars do, it never has the old holder and epoch
    again, so writes fenced by them stay refused. *)
Theorem epochs_onward (sy sy' : System) scope row row' : rtc sys_step sy sy' ->
  ld_Rows (sy_Server sy) !! scope = Some row -> ld_Rows (sy_Server sy') !! scope = Some row' ->
  lr_Epoch row <= lr_Epoch row' /\
  forall holder epoch, epoch <= lr_Epoch row -> (lr_Holder row <> holder \/ lr_Epoch row <> epoch) ->
    lr_Holder row' <> holder \/ lr_Epoch row' <> epoch.
Proof.
  intros Hr H H'. assert (Ho : onward (sy_Server sy) (sy_Server sy')).
  { clear H H'. induction Hr as [sy|sy1 sy2 sy3 [a Ha] _ IH]; [done|]. etrans; [|exact IH].
    destruct a as [o|i how|e]; cbn in Ha.
    - by injection Ha as <-.
    - destruct (sy_Threads sy1 !! i) as [[o [x|X st k]]|]; try done.
      destruct (exec how st (sy_Server sy1)) as [[r s]|] eqn:Ex; [|done]. injection Ha as <-. by eapply exec_onward.
    - destruct (happens e (sy_Server sy1)) as [s|] eqn:Ee; [|done]. injection Ha as <-. by eapply happens_onward. }
  destruct (Ho _ _ H) as (r & Hr' & Hcase). rewrite H' in Hr'. injection Hr' as <-.
  split; [lia|]. intros holder epoch He Hne. destruct Hcase as [[-> ->]|Hlt]; [done|right; lia].
Qed.

(** ** Succession *)

Definition at_once (s : Leases) : fate := Done (ld_Now s).

Lemma tick_takes s b e row : ld_Electors s !! b = Some e -> b.1 <> "" -> b.2 <> "" -> 0 < el_TTL e ->
  el_ReadAt e <= ld_Now s -> acquireSQL b.2 (el_TTL e) (ld_Now s) (ld_Rows s !! b.1) = Some row ->
  exists s', alone at_once (Tick (Some true) b) s = Some (None, s') /\
    Fence b (ld_Electors s' !! b) = Some (b.2, lr_Epoch row) /\
    forall id, id <> b -> ld_Electors s' !! id = ld_Electors s !! id.
Proof.
  intros He Hn1 Hn2 Ht Hread Ha. unfold Tick. rewrite bool_decide_eq_false_2 by done.
  destruct (String.eqb_spec b.1 "") as [|_], (String.eqb_spec b.2 "") as [|_]; try done. cbn [orb alone m_exec leases exec].
  rewrite He. cbn [locally at_once option_map fst snd]. rewrite alone_bind. unfold Acquire.
  rewrite bool_decide_eq_false_2 by done. cbn [alone m_exec leases exec ld_Electors set_electors].
  rewrite lookup_insert_eq. cbn [ld_Rows set_electors el_ReadAt set_clock started_at at_once ld_Now el_TTL].
  rewrite Ha. unfold remotely. cbn [started_at ld_Now set_electors]. rewrite !Z.leb_refl. eexists. split; [done|]. split.
  - cbn. rewrite lookup_alter_eq, lookup_insert_eq. cbn [fmap option_fmap option_map].
    set (e' := set_clock _ _ _). destruct (settle_fields (el_Now e) (inl (scanLease row, true)) e') as (F1 & F2 & _ & F4 & F5).
    assert (Hl : leaderLocked (settle (el_Now e) (inl (scanLease row, true)) e') = true).
    { unfold leaderLocked. rewrite F2, F5. assert (el_Held (settle (el_Now e) (inl (scanLease row, true)) e') = true) as ->.
      { unfold settle. by destruct (Bool.eqb _ _). }
      apply Z.ltb_lt. unfold SafetyDivisor. cbn. pose proof (Z.quot_rem' (el_TTL e) 5).
      pose proof (Z.rem_bound_pos (el_TTL e) 5). lia. }
    unfold Fence. by rewrite Hl, F4.
  - intros id Hid. cbn. by rewrite lookup_alter_ne, lookup_insert_ne.
Qed.

(** A leader that releases its lease stops leading, and another sidecar's next
    tick takes the lease over at once, under the next epoch. *)
Theorem release_hands_over s a b ea eb row : ld_Electors s !! a = Some ea -> ld_Electors s !! b = Some eb ->
  a.1 = b.1 -> a <> b -> b.1 <> "" -> b.2 <> "" -> 0 < el_TTL eb -> el_ReadAt eb <= ld_Now s -> 0 <= ld_Now s ->
  ld_Rows s !! a.1 = Some row -> lr_Holder row = a.2 ->
  exists s1 s2, alone at_once (Release (Some true) a) s = Some (None, s1) /\
    alone at_once (Tick (Some true) b) s1 = Some (None, s2) /\ Fence a (ld_Electors s2 !! a) = None /\
    Fence b (ld_Electors s2 !! b) = Some (b.2, lr_Epoch row + 1).
Proof.
  intros Ha Hb Hsc Hne Hb1 Hb2 Ht Hread Hnow Hrow Hh.
  set (s1 := set_rows (alter (releaseSQL a.2 (ld_Now s)) a.1 (ld_Rows s)) (set_electors (alter unhold a (ld_Electors s)) s)).
  assert (Hrel : alone at_once (Release (Some true) a) s = Some (None, s1)).
  { unfold Release. cbn. unfold remotely. cbn. by rewrite (proj2 (Z.leb_le _ _) Hnow), Z.leb_refl. }
  assert (Hrow1 : ld_Rows s1 !! b.1 = Some (releaseSQL a.2 (ld_Now s) row)).
  { cbn. rewrite <- Hsc, lookup_alter_eq, Hrow. done. }
  assert (Hab : a.2 <> b.2) by (intros E; apply Hne; destruct a, b; cbn in *; congruence).
  assert (Hacq : exists row', acquireSQL b.2 (el_TTL eb) (ld_Now s1) (ld_Rows s1 !! b.1) = Some row' /\
                              lr_Epoch row' = lr_Epoch row + 1).
  { rewrite Hrow1. unfold acquireSQL, releaseSQL. rewrite Hh, String.eqb_refl. cbn.
    rewrite (proj2 (String.eqb_neq _ _) Hab), Z.leb_refl. by eexists. }
  destruct Hacq as (row' & Hacq & Hep).
  assert (Hb' : ld_Electors s1 !! b = Some eb) by (cbn; by rewrite lookup_alter_ne).
  destruct (tick_takes s1 b eb row' Hb' Hb1 Hb2 Ht Hread Hacq) as (s2 & Htick & Hf & Hother).
  exists s1, s2. split_and!; [done|done| |by rewrite Hf, Hep].
  rewrite (Hother a Hne). cbn. rewrite lookup_alter_eq, Ha. done.
Qed.

(** ** A partitioned leader *)

Definition node (h : string) : ElectorID := ("fleet", h).

Definition elect (h : string) (local : Time) : operation := OpElect (Some true) (node h) 10 local 3.

(** No lease yet. *)
Definition no_leases (now : Time) : Leases := {| ld_Now := now; ld_Rows := ∅; ld_Electors := ∅ |}.

Definition steps (thread n : nat) (t : Time) : list action := repeat (Interleave.Run thread (Done t)) n.

Definition lost (t : Time) (committed : bool) : fate := Fails t committed "timeout".

(** What is read of a run: each sidecar's fence and the row. *)
Definition read_fleet (sy : System) : option (string * Z) * option (string * Z) * option (string * Z * Time) :=
  let s := sy_Server sy in
  (Fence (node "a") (ld_Electors s !! node "a"), Fence (node "b") (ld_Electors s !! node "b"),
   (fun r => (lr_Holder r, lr_Epoch r, lr_ExpiresAt r)) <$> ld_Rows s !! "fleet").

(** [a] leads; its next renewal is lost; its clock runs at 4/5 of the database's; it
    still leads at 9.9 seconds by the database, and [b] takes over at 10. *)
Definition slow : event := Pass (99 * Second ÷ 10) (fun id => if decide (id = node "a") then 792 * Second ÷ 100 else 10 * Second).
Definition led_run : list action :=
  [Start (elect "a" 500); Start (elect "b" 70)] ++ steps 0 4 0 ++ steps 1 5 0 ++
  [Event slow; Interleave.Run 0 (Done 0); Interleave.Run 0 (lost (99 * Second ÷ 10) false)].
Definition partitioned_run : list action :=
  led_run ++ [Event (Pass (Second ÷ 10) (fun _ => Second ÷ 10))] ++ steps 1 3 (10 * Second).

Lemma led_run_ends : option_map read_fleet (acts led_run (idle (no_leases 0))) =
  Some (Some ("a", 1), None, Some ("a", 1, 10 * Second)).
Proof. vm_compute. reflexivity. Qed.

Lemma partitioned_run_ends : option_map read_fleet (acts partitioned_run (idle (no_leases 0))) =
  Some (None, Some ("b", 2), Some ("b", 2, 20 * Second)).
Proof. vm_compute. reflexivity. Qed.

Lemma one_leader_witness : exists sy, reachable no_electors sy /\
  Fence (node "a") (ld_Electors (sy_Server sy) !! node "a") = Some ("a", 1) /\
  exists row, ld_Rows (sy_Server sy) !! "fleet" = Some row /\ lr_Holder row = "a".
Proof.
  destruct (acts_read no_electors _ _ _ _ (eq_refl : no_electors (no_leases 0)) led_run_ends) as (sy & Hr & H).
  injection H as Ha _ _. exists sy. split; [done|]. split; [done|].
  destruct (one_leader sy Hr _ _ _ Ha) as [(row & H1 & H2 & _) _]. by exists row.
Defined.

Lemma epochs_onward_witness : exists sy sy' row row', rtc sys_step sy sy' /\
  ld_Rows (sy_Server sy) !! "fleet" = Some row /\ ld_Rows (sy_Server sy') !! "fleet" = Some row' /\
  lr_Epoch row = 1 /\ lr_Epoch row' = 2 /\ lr_Epoch row <= lr_Epoch row'.
Proof.
  destruct (acts led_run (idle (no_leases 0))) as [sy|] eqn:E1; [|by vm_compute in E1].
  assert (E2 := partitioned_run_ends). unfold partitioned_run in E2. rewrite acts_app, E1 in E2.
  assert (E3 := led_run_ends). rewrite E1 in E3. injection E3 as _ _ Hrow.
  destruct (acts _ sy) as [sy'|] eqn:E4; [|done]. injection E2 as _ _ Hrow'.
  destruct (ld_Rows (sy_Server sy) !! "fleet") as [row|] eqn:Er; [|done].
  destruct (ld_Rows (sy_Server sy') !! "fleet") as [row'|] eqn:Er'; [|done].
  injection Hrow as _ He _. injection Hrow' as _ He' _. apply acts_steps in E4. clear E1.
  exists sy, sy', row, row'. split; [exact E4|]. split; [exact Er|]. split; [exact Er'|].
  split; [exact He|]. split; [exact He'|]. apply (epochs_onward sy sy' "fleet" row row' E4 Er Er').
Defined.

(** [a] leads; it releases, and [b]'s next tick leads under epoch 2. *)
Definition two_sidecars : Leases :=
  {| ld_Now := 5; ld_Rows := {["fleet" := {| lr_Holder := "a"; lr_Epoch := 1; lr_AcquiredAt := 0; lr_RenewedAt := 0;
                                             lr_ExpiresAt := 10 * Second |}]};
     ld_Electors := {[node "a" := settle 0 (inl ({| ls_Holder := "a"; ls_Epoch := 1; ls_ExpiresAt := 10 * Second |}, true))
                                    (NewElector (10 * Second) 0 0);
                      node "b" := NewElector (10 * Second) 70 0]} |}.

Lemma release_hands_over_witness :
  Fence (node "a") (ld_Electors two_sidecars !! node "a") = Some ("a", 1) /\
  exists s1 s2, alone at_once (Release (Some true) (node "a")) two_sidecars = Some (None, s1) /\
    alone at_once (Tick (Some true) (node "b")) s1 = Some (None, s2) /\
    Fence (node "b") (ld_Electors s2 !! node "b") = Some ("b", 2).
Proof.
  split; [reflexivity|].
  edestruct (release_hands_over two_sidecars (node "a") (node "b")) as (s1 & s2 & H1 & H2 & _ & H3);
    [reflexivity|reflexivity|reflexivity|discriminate|discriminate|discriminate|reflexivity|cbn; lia|cbn; lia|
     reflexivity|reflexivity|].
  exists s1, s2. split; [exact H1|]. split; [exact H2|]. exact H3.
Defined.
