(* ===== verification/Siem.v ===== *)
(** * The audit export

    internal/siem: exporter.go, cursor.go and records.go, with the leader's fence of
    cmd/pg_sage_sidecar/audit_wiring.go.  Every sidecar runs an exporter; each sink's
    goroutine reads the audit chains of every source after the sink's cursor on the
    control database, sends the links and moves the cursor.  The sinks are outside:
    [sw_Accepted] is what they took, in order, and a send that fails may have been
    taken in part. *)

From stdpp Require Import sorting.
From S2P Require Import Prelude.
From S2P Require Import GoStd.
From S2P Require Import AuditChain.
From S2P Require Leader.
From S2P Require Export Interleave.

Open Scope go_scope.

(** ** Cursors and fences: cursor.go *)

(** The leader lease export runs under; an empty holder is unfenced. *)
Record Fence : Type := { fe_Scope : string; fe_Holder : string; fe_Epoch : Z }.

Definition unfenced : Fence := {| fe_Scope := ""; fe_Holder := ""; fe_Epoch := 0 |}.

(** sink, source and chain *)
Abbreviation CursorKey := (string * string * string)%type.

(** [fenceSQL] in a transaction that started at [now]. *)
Definition fenceSQL (f : Fence) (now : Time) (rows : gmap string Leader.LeaseRow) : bool :=
  match rows !! fe_Scope f with
  | Some row => (Leader.lr_Holder row =s fe_Holder f) && (Leader.lr_Epoch row =? fe_Epoch f) &&
                (now <? Leader.lr_ExpiresAt row)
  | None => false
  end.

(** A cursor only moves forward. *)
Definition forward (key : CursorKey) (seq : Z) (cursors : gmap CursorKey Z) : gmap CursorKey Z :=
  match cursors !! key with
  | Some old => if old <? seq then <[key := seq]> cursors else cursors
  | None => <[key := seq]> cursors
  end.

(** ** Records: records.go *)

(** A link and the content of its row now, if any: its sealed and its state columns. *)
Record Record_ : Type := {
  rc_Source : string;
  rc_Chain : string;
  rc_Link : Link;
  rc_Row : option (string * string);
}.

Definition row_now (chain : string) (db : ChainDB) (l : Link) : option (string * string) :=
  match SpecFor chain with
  | Some _ => (fun r => (rw_Sealed r, rw_State r)) <$> db_Rows db !! lk_RowID l
  | None => None
  end.

Definition readRecords (source chain : string) (db : ChainDB) (after : Z) (limit : nat) : list Record_ :=
  map (fun l => {| rc_Source := source; rc_Chain := chain; rc_Link := l; rc_Row := row_now chain db l |})
    (take limit (List.filter (fun l => after <? lk_Seq l) (db_Links db))).

(** ** The world *)

(** Who leads, the cursors, every source's chains, and what each sink accepted. *)
Record World : Type := {
  sw_Leases : Leader.Leases;
  sw_Cursors : gmap CursorKey Z;
  sw_Chains : gmap (string * string) ChainDB;
  sw_Accepted : list (string * Record_);
}.

Definition set_leases (s : Leader.Leases) (w : World) : World :=
  {| sw_Leases := s; sw_Cursors := sw_Cursors w; sw_Chains := sw_Chains w; sw_Accepted := sw_Accepted w |}.
Definition set_cursors (c : gmap CursorKey Z) (w : World) : World :=
  {| sw_Leases := sw_Leases w; sw_Cursors := c; sw_Chains := sw_Chains w; sw_Accepted := sw_Accepted w |}.
Definition set_chains (c : gmap (string * string) ChainDB) (w : World) : World :=
  {| sw_Leases := sw_Leases w; sw_Cursors := sw_Cursors w; sw_Chains := c; sw_Accepted := sw_Accepted w |}.
Definition accept (sink : string) (recs : list Record_) (w : World) : World :=
  {| sw_Leases := sw_Leases w; sw_Cursors := sw_Cursors w; sw_Chains := sw_Chains w;
     sw_Accepted := sw_Accepted w ++ map (fun r => (sink, r)) recs |}.

(** A chain's table, empty before its installation. *)
Definition chain_of (w : World) (source chain : string) : ChainDB :=
  default {| db_Links := []; db_Rows := ∅; db_Boundary := None |} (sw_Chains w !! (source, chain)).

(** [auditchain.Installed] *)
Definition installed_chains (source : string) (w : World) : list string :=
  merge_sort String.le (omap (fun p => if p.1.1 =s source then Some p.1.2 else None) (map_to_list (sw_Chains w))).

(** ** Statements *)

(** [Lead]: what the leader election sends.  [Allow]: the exporter's [allow], with the
    sidecar's elector, if election is on. *)
Inductive stmt : Type -> Type :=
| Lead {X} (st : Leader.stmt X) : stmt X
| Allow (elector : option Leader.ElectorID) : stmt (option Fence)
| CheckFence (f : Fence) : stmt bool
| Installed (source : string) : stmt (list string)
| Load (key : CursorKey) : stmt Z
| ReadRecords (source chain : string) (after : Z) (limit : nat) : stmt (list Record_)
| Send (sink : string) (recs : list Record_) : stmt unit
| Save (f : Fence) (key : CursorKey) (seq : Z) : stmt bool
| TimeNow : stmt Time
| Sleep (wait : Duration) : stmt unit.

Abbreviation prog := (Interleave.prog stmt error).

(** How a statement goes: when its transaction started, and when it fails, whether it
    was carried out, and how many of a send's records the sink took. *)
Inductive fate : Type :=
| Goes (started : Time)
| Breaks (started : Time) (committed : bool) (accepted : nat) (e : error).

Definition started_at (x : fate) : Time := match x with Goes t => t | Breaks t _ _ _ => t end.

Definition lead_fate (x : fate) : Leader.fate :=
  match x with Goes t => Leader.Done t | Breaks t c _ e => Leader.Fails t c e end.

(** The fence of the sidecar's leadership. *)
Definition auditLeaderFence (elector : option Leader.ElectorID) (s : Leader.Leases) : option Fence :=
  match elector with
  | None => Some unfenced
  | Some id => (fun p => {| fe_Scope := id.1; fe_Holder := p.1; fe_Epoch := p.2 |}) <$>
                 Leader.Fence id (Leader.ld_Electors s !! id)
  end.

Definition passes (f : Fence) (x : fate) (w : World) : bool :=
  (fe_Holder f =s "") || fenceSQL f (started_at x) (Leader.ld_Rows (sw_Leases w)).

Definition reads {X} (x : fate) (a : X) (w : World) : option ((X + error) * World) :=
  match x with Goes _ => Some (inl a, w) | Breaks _ _ _ e => Some (inr e, w) end.

Definition exec (x : fate) {X} (st : stmt X) (w : World) : option ((X + error) * World) :=
  match st in stmt X return option ((X + error) * World) with
  | Lead st =>
      match Leader.exec (lead_fate x) st (sw_Leases w) with
      | Some (r, s) => Some (r, set_leases s w)
      | None => None
      end
  | Allow elector => match x with
                     | Goes _ => Some (inl (auditLeaderFence elector (sw_Leases w)), w)
                     | Breaks _ _ _ _ => None
                     end
  | CheckFence f => if started_at x <=? Leader.ld_Now (sw_Leases w) then reads x (passes f x w) w else None
  | Installed source => reads x (installed_chains source w) w
  | Load key => reads x (default 0 (sw_Cursors w !! key)) w
  | ReadRecords source chain after limit =>
      reads x (readRecords source chain (chain_of w source chain) after limit) w
  | Send sink recs =>
      match x with
      | Goes _ => Some (inl tt, accept sink recs w)
      | Breaks _ _ n e => Some (inr e, accept sink (take n recs) w)
      end
  | Save f key seq =>
      if started_at x <=? Leader.ld_Now (sw_Leases w) then
        let w' := if passes f x w then set_cursors (forward key seq (sw_Cursors w)) w else w in
        match x with
        | Goes _ => Some (inl (passes f x w), w')
        | Breaks _ committed _ e => Some (inr e, if committed then w' else w)
        end
      else None
  | TimeNow => match x with Goes t => Some (inl t, w) | Breaks _ _ _ _ => None end
  | Sleep _ => match x with Goes _ => Some (inl tt, w) | Breaks _ _ _ _ => None end
  end.

(** ** exporter.go *)

Record Options : Type := { op_BatchSize : Z; op_Interval : Duration; op_MaxBackoff : Duration }.

(** The defaults of [NewExporter]. *)
Definition NewExporter (o : Options) : Options :=
  let batch := if op_BatchSize o <=? 0 then 200 else op_BatchSize o in
  let interval := if op_Interval o <=? 0 then 10 * Second else op_Interval o in
  {| op_BatchSize := batch; op_Interval := interval;
     op_MaxBackoff := if op_MaxBackoff o <? interval then interval else op_MaxBackoff o |}.

Record SinkStatus : Type := {
  ss_Name : string;
  ss_Delivered : Z;
  ss_LastSuccess : Time;
  ss_LastError : string;
  ss_ConsecutiveFailures : Z;
}.

Definition new_status (sink : string) : SinkStatus :=
  {| ss_Name := sink; ss_Delivered := 0; ss_LastSuccess := 0; ss_LastError := ""; ss_ConsecutiveFailures := 0 |}.

Definition delivered (n : Z) (at_ : Time) (s : SinkStatus) : SinkStatus :=
  {| ss_Name := ss_Name s; ss_Delivered := ss_Delivered s + n; ss_LastSuccess := at_;
     ss_LastError := ss_LastError s; ss_ConsecutiveFailures := ss_ConsecutiveFailures s |}.
Definition failed (n : Z) (e : string) (s : SinkStatus) : SinkStatus :=
  {| ss_Name := ss_Name s; ss_Delivered := ss_Delivered s; ss_LastSuccess := ss_LastSuccess s;
     ss_LastError := e; ss_ConsecutiveFailures := n |}.

Definition ErrFenced : error := "siem: leader lease lost; export stopped".
Definition errNoControl : error := "siem: no control database for export cursors".

(** A sink, the chains it receives, and the exporter it runs in: the sidecar's
    elector, whether there is a control database, and the sources of each pass. *)
Record Export : Type := {
  ex_Sink : string;
  ex_Chains : list string;
  ex_Elector : option Leader.ElectorID;
  ex_Pool : bool;
  ex_Sources : nat -> list string;
  ex_Options : Options;
}.

(** [backoff] doubles the wait per consecutive failure; [fuel] the failures. *)
Fixpoint doubled (fuel : nat) (wait max : Duration) : Duration :=
  match fuel with
  | O => wait
  | S n => if wait <? max then doubled n (wrap64 (wait * 2)) max else wait
  end.
Definition backoff (o : Options) (failures : Z) : Duration :=
  Z.min (doubled (Z.to_nat (failures - 1)) (op_Interval o) (op_MaxBackoff o)) (op_MaxBackoff o).

Definition wants (filter : list string) (chain : string) : bool :=
  match filter with [] => true | _ => existsb (fun c => c =s chain) filter end.

Definition key_of (ex : Export) (source chain : string) : CursorKey := (ex_Sink ex, source, chain).

Definition batch (ex : Export) : nat := Z.to_nat (op_BatchSize (ex_Options ex)).

Definition last_seq (recs : list Record_) : Z :=
  match last recs with Some r => lk_Seq (rc_Link r) | None => 0 end.

Section Exporter.
Context (ex : Export).

Definition CursorStore_CheckFence (f : Fence) : prog (option error) :=
  if fe_Holder f =s "" then Ret None
  else if negb (ex_Pool ex) then Ret (Some errNoControl) else
  do~ r := CheckFence f in
  Ret match r with
      | inl true => None
      | inl false => Some ErrFenced
      | inr e => Some ("siem: check lease: " +:+ e)
      end.

Definition CursorStore_Load (key : CursorKey) : prog (Z + error) :=
  if negb (ex_Pool ex) then Ret (inr errNoControl) else do~ r := Load key in Ret r.

Definition CursorStore_Save (f : Fence) (key : CursorKey) (seq : Z) : prog (option error) :=
  if negb (ex_Pool ex) then Ret (Some errNoControl) else
  do~ r := Save f key seq in
  Ret match r with inl true => None | inl false => Some ErrFenced | inr e => Some e end.

(** How a loop ended: with an error or without, or not within its fuel. *)
Inductive ending : Type :=
| Ended (e : option error)
| Unfinished.

(** The batches of one chain of one source; [fuel] bounds the turns of the loop. *)
Fixpoint drain (fuel : nat) (source chain : string) (fence : Fence) (st : SinkStatus)
    : prog (ending * SinkStatus) :=
  match fuel with
  | O => Ret (Unfinished, st)
  | S n =>
      do* after := CursorStore_Load (key_of ex source chain) in
      match after with
      | inr e => Ret (Ended (Some e), st)
      | inl after =>
          do~ recs := ReadRecords source chain after (batch ex) in
          match recs with
          | inr e => Ret (Ended (Some e), st)
          | inl [] => Ret (Ended None, st)
          | inl recs =>
              do~ sent := Send (ex_Sink ex) recs in
              match sent with
              | inr e => Ret (Ended (Some e), st)
              | inl _ =>
                  do* saved := CursorStore_Save fence (key_of ex source chain) (last_seq recs) in
                  match saved with
                  | Some e => Ret (Ended (Some e), st)
                  | None =>
                      do~ now := TimeNow in
                      let st := delivered (Z.of_nat (length recs)) (match now with inl t => t | inr _ => 0 end) st in
                      if Z.of_nat (length recs) <? op_BatchSize (ex_Options ex)
                      then Ret (Ended None, st)
                      else drain n source chain fence st
                  end
              end
          end
      end
  end.

(** The chains of one source. *)
Fixpoint drain_chains (fuel : nat) (source : string) (chains : list string) (fence : Fence) (st : SinkStatus)
    : prog (ending * SinkStatus) :=
  match chains with
  | [] => Ret (Ended None, st)
  | chain :: rest =>
      if negb (wants (ex_Chains ex) chain) then drain_chains fuel source rest fence st else
      do* r := drain fuel source chain fence st in
      match r with
      | (Ended None, st) => drain_chains fuel source rest fence st
      | r => Ret r
      end
  end.

Fixpoint drain_sources (fuel : nat) (sources : list string) (fence : Fence) (st : SinkStatus)
    : prog (ending * SinkStatus) :=
  match sources with
  | [] => Ret (Ended None, st)
  | source :: rest =>
      do~ chains := Installed source in
      match chains with
      | inr e => Ret (Ended (Some ("source " +:+ source +:+ ": " +:+ e)), st)
      | inl chains =>
          do* r := drain_chains fuel source chains fence st in
          match r with
          | (Ended None, st) => drain_sources fuel rest fence st
          | r => Ret r
          end
      end
  end.

Definition fail (e : error) (st : SinkStatus) : ending * SinkStatus :=
  (Ended (Some ("siem sink " +:+ ex_Sink ex +:+ ": " +:+ e)), failed (ss_ConsecutiveFailures st + 1) e st).

(** One delivery pass, the [n]-th. *)
Definition pass (fuel n : nat) (st : SinkStatus) : prog (ending * SinkStatus) :=
  do~ fence := Allow (ex_Elector ex) in
  match fence with
  | inr _ | inl None => Ret (Ended None, st)
  | inl (Some fence) =>
      do* e := CursorStore_CheckFence fence in
      match e with
      | Some e => Ret (fail e st)
      | None =>
          do* r := drain_sources fuel (ex_Sources ex n) fence st in
          Ret match r with
              | (Ended (Some e), st) => fail e st
              | (Ended None, st) => (Ended None, failed 0 "" st)
              | r => r
              end
      end
  end.

(** [loop], for [passes] passes from the [n]-th. *)
Fixpoint loop (fuel passes n : nat) (st : SinkStatus) : prog SinkStatus :=
  match passes with
  | O => Ret st
  | S more =>
      do* r := pass fuel n st in
      match r with
      | (Unfinished, st) => Ret st
      | (Ended e, st) =>
          let wait := match e with
                      | Some _ => backoff (ex_Options ex) (ss_ConsecutiveFailures st)
                      | None => op_Interval (ex_Options ex)
                      end in
          do~ _ := Sleep wait in
          loop fuel more (S n) st
      end
  end.
End Exporter.

(** [RunOnce]: a pass per sink, in turn, whatever the others' errors. *)
Fixpoint RunOnce (fuel n : nat) (sinks : list (Export * SinkStatus)) : prog (list (ending * SinkStatus)) :=
  match sinks with
  | [] => Ret []
  | (ex, st) :: rest =>
      do* r := pass ex fuel n st in
      do* rs := RunOnce fuel n rest in
      Ret (r :: rs)
  end.

(** ** The system *)

Fixpoint lead {A} (p : Leader.prog A) : prog A :=
  match p with Ret a => Ret a | Do st k => Do (Lead st) (fun r => lead (k r)) end.

(** A sink's goroutine of [Run], one round of [RunOnce], and a sidecar's election. *)
Inductive operation : Type :=
| OpSink (ex : Export) (fuel passes : nat)
| OpRunOnce (sinks : list Export) (fuel n : nat)
| OpElection (o : Leader.operation).

Inductive answer : Type :=
| ASink (st : SinkStatus)
| APasses (l : list (ending * SinkStatus))
| AElection (e : option error).

Definition with_defaults (ex : Export) : Export :=
  {| ex_Sink := ex_Sink ex; ex_Chains := ex_Chains ex; ex_Elector := ex_Elector ex; ex_Pool := ex_Pool ex;
     ex_Sources := ex_Sources ex; ex_Options := NewExporter (ex_Options ex) |}.

Definition program (o : operation) : prog answer :=
  match o with
  | OpSink ex fuel passes =>
      do* st := loop (with_defaults ex) fuel passes 0 (new_status (ex_Sink ex)) in Ret (ASink st)
  | OpRunOnce sinks fuel n =>
      do* l := RunOnce fuel n (map (fun ex => (with_defaults ex, new_status (ex_Sink ex))) sinks) in Ret (APasses l)
  | OpElection o => do* e := lead (Leader.program o) in Ret (AElection e)
  end.

(** What a session commits in a chained table. *)
Inductive change : Type :=
| Insert (id : Z) (sealed state : string)
| Update (id : Z) (state : string)
| Delete (id : Z)
| Truncate.

Definition commits (s : Spec) (ss : Session) (c : change) (db : ChainDB) : ChainDB :=
  match c with
  | Insert id sealed state =>
      match db_Rows db !! id with Some _ => db | None => insert_row s ss id sealed state db end
  | Update id state => update_state s ss id state db
  | Delete id => delete_row s ss id db
  | Truncate => truncate_rows ss db
  end.

(** The clocks pass; a chain is installed on a source; a change is committed. *)
Inductive event : Type :=
| Clocks (e : Leader.event)
| Install (source chain : string) (rows : gmap Z Row) (boundary : Z)
| Commit (source chain : string) (ss : Session) (c : change).

Definition happens (e : event) (w : World) : option World :=
  match e with
  | Clocks e => (fun s => set_leases s w) <$> Leader.happens e (sw_Leases w)
  | Install source chain rows boundary =>
      match sw_Chains w !! (source, chain) with
      | Some _ => None
      | None => Some (set_chains (<[(source, chain) :=
                  {| db_Links := []; db_Rows := rows; db_Boundary := Some boundary |}]> (sw_Chains w)) w)
      end
  | Commit source chain ss c =>
      match sw_Chains w !! (source, chain), SpecFor chain with
      | Some db, Some s => Some (set_chains (<[(source, chain) := commits s ss c db]> (sw_Chains w)) w)
      | _, _ => None
      end
  end.

#[export] Instance export_machine : Machine stmt error fate World event operation answer := {
  m_exec := @exec;
  m_event := happens;
  m_program := program;
}.

Abbreviation System := (Interleave.System stmt error World operation answer).

(** Nothing exported yet, no chain written. *)
Definition fresh (w : World) : Prop :=
  Leader.no_electors (sw_Leases w) /\ sw_Cursors w = ∅ /\ sw_Chains w = ∅ /\ sw_Accepted w = [].
