(* ===== verification/SiemSafety.v ===== *)
(** * Nothing is lost in export

    A cursor never passes a link its sink has not accepted, whichever sidecars export
    and however their statements, their failures, the elections and the writers
    interleave.  A drain with nothing else going on sends every link after the cursor
    once, in order, and ends with the cursor on the chain's head; and an exporter
    whose lease moved on saves nothing more. *)

From S2P Require Import Prelude.
From S2P Require Import GoStd.
From S2P Require Import AuditChain.
From S2P Require Import AuditVerify.
From S2P Require Import AuditSafety.
From S2P Require Import AuditWriters.
From S2P Require Leader.
From S2P Require LeaderSafety.
From S2P Require Import Siem.
From Stdlib Require Import Sorted.

(** ** The protocol of an exporter *)

Inductive Phase : Type :=
| Free
| Loaded (key : CursorKey) (after : Z)
| Have (key : CursorKey) (after : Z) (recs : list Record_)
| Sent (key : CursorKey) (seq : Z).

Definition next (ph : Phase) {X} (st : stmt X) : X + error -> Phase :=
  match st in stmt X return X + error -> Phase with
  | Load key => fun r => match r with inl n => Loaded key n | inr _ => Free end
  | ReadRecords _ _ _ _ => fun r => match ph, r with
                                    | Loaded key n, inl recs => Have key n recs
                                    | _, _ => Free
                                    end
  | Send _ recs => fun r => match ph, r with
                            | Have key _ _, inl _ => Sent key (last_seq recs)
                            | _, _ => Free
                            end
  | _ => fun _ => Free
  end.

(** It reads after the cursor it loaded, sends what it read, and saves the position
    of the last link sent. *)
Definition allowed (ph : Phase) {X} (st : stmt X) : Prop :=
  match st with
  | ReadRecords source chain after _ => exists sink, ph = Loaded (sink, source, chain) after
  | Send sink recs => exists source chain after, ph = Have (sink, source, chain) after recs
  | Save _ key seq => ph = Sent key seq
  | _ => True
  end.

Abbreviation follows ph := (Interleave.follows (fun now X (st : stmt X) => allowed now st)
  (fun now X (st : stmt X) r => next now st r) ph).

Abbreviation keeps p := (forall ph, follows ph (fun _ _ => True) p).

Lemma keeps_bind {A B} (p : prog A) (f : A -> prog B) : keeps p -> (forall a, keeps (f a)) -> keeps (pbind p f).
Proof. intros Hp Hf ph. eapply follows_bind; [apply Hp|]. intros a ph' _. apply Hf. Qed.

Lemma keeps_lead {A} (p : Leader.prog A) : keeps (lead p).
Proof. induction p as [a|X st k IH]; intros ph; [done|]. split; [done|]. intros r. apply IH. Qed.

Section Exporter.
Context (ex : Export).

Lemma keeps_drain fuel source chain fence st : keeps (drain ex fuel source chain fence st).
Proof.
  revert st. induction fuel as [|n IH]; intros st ph; cbn [drain]; [done|].
  unfold CursorStore_Load. destruct (negb (ex_Pool ex)) eqn:Ep; [done|]. split; [done|].
  intros [after|e]; [|done]. split; [by eexists|]. intros [[|rc recs]|e]; [done| |done].
  split; [by eexists _, _, _|]. intros [u|e]; [|done]. cbn [next key_of].
  unfold CursorStore_Save. rewrite Ep. split; [done|]. intros [[|]|e]; [|done..]. cbn [pbind].
  split; [done|]. intros now. destruct (_ <? _); [done|apply IH].
Qed.

Lemma keeps_chains fuel source chains fence st : keeps (drain_chains ex fuel source chains fence st).
Proof.
  revert st. induction chains as [|c cs IH]; intros st; cbn [drain_chains]; [done|].
  destruct (negb _); [apply IH|]. apply keeps_bind; [apply keeps_drain|].
  intros [[[e|]|] st']; [done|apply IH|done].
Qed.

Lemma keeps_sources fuel sources fence st : keeps (drain_sources ex fuel sources fence st).
Proof.
  revert st. induction sources as [|src srcs IH]; intros st; cbn [drain_sources]; [done|].
  intros ph. split; [done|]. intros [chains|e]; [|done]. apply keeps_bind; [apply keeps_chains|].
  intros [[[e|]|] st']; [done|apply IH|done].
Qed.

Lemma keeps_pass fuel n st : keeps (pass ex fuel n st).
Proof.
  intros ph. unfold pass. split; [done|]. intros [[f|]|e]; [|done..]. apply keeps_bind.
  - unfold CursorStore_CheckFence. intros ph'. do 2 (case_match; [done|]). split; [done|]. by intros [[|]|e].
  - intros [e|]; [done|]. apply keeps_bind; [apply keeps_sources|]. done.
Qed.

Lemma keeps_loop fuel passes n st : keeps (loop ex fuel passes n st).
Proof.
  revert n st. induction passes as [|p IH]; intros n st; cbn [loop]; [done|].
  apply keeps_bind; [apply keeps_pass|]. intros [[e|] st']; [|done]. intros ph. split; [done|]. intros r. apply IH.
Qed.
End Exporter.

Lemma keeps_RunOnce fuel n sinks : keeps (RunOnce fuel n sinks).
Proof.
  induction sinks as [|[ex st] rest IH]; cbn [RunOnce]; [done|]. apply keeps_bind; [apply keeps_pass|].
  intros r. apply keeps_bind; [apply IH|done].
Qed.

Lemma keeps_program o : keeps (program o).
Proof.
  destruct o; cbn [program]; apply keeps_bind; try done;
    [apply keeps_loop|apply keeps_RunOnce|apply keeps_lead].
Qed.

(** ** What was exported *)

Definition links (w : World) (source chain : string) : list Link := db_Links (chain_of w source chain).

(** [sink] accepted a link. *)
Definition accepted_by (w : World) (sink source chain : string) (l : Link) : Prop :=
  exists rec, (sink, rec) ∈ sw_Accepted w /\ rc_Source rec = source /\ rc_Chain rec = chain /\ rc_Link rec = l.

(** Every link of the key's chain up to [n] was accepted. *)
Definition exported (w : World) (key : CursorKey) (n : Z) : Prop :=
  let '(sink, source, chain) := key in
  n <= Z.of_nat (length (links w source chain)) /\
  forall l, l ∈ links w source chain -> lk_Seq l <= n -> accepted_by w sink source chain l.

(** [recs] are the links after [after] up to the last of [recs]. *)
Definition batch_of (w : World) (key : CursorKey) (after : Z) (recs : list Record_) : Prop :=
  let '(_, source, chain) := key in
  last_seq recs <= Z.of_nat (length (links w source chain)) /\
  forall l, l ∈ links w source chain -> after < lk_Seq l <= last_seq recs ->
    exists rec, rec ∈ recs /\ rc_Source rec = source /\ rc_Chain rec = chain /\ rc_Link rec = l.

Definition phase_ok (w : World) (ph : Phase) : Prop :=
  match ph with
  | Free => True
  | Loaded key n => exported w key n
  | Have key n recs => exported w key n /\ batch_of w key n recs
  | Sent key n => exported w key n
  end.

Definition written (w : World) : Prop :=
  forall source chain, linked (Some Genesis) 1 (links w source chain).

Record world_ok (w : World) (phs : list Phase) : Prop := {
  wo_written : written w;
  wo_cursors : forall key n, sw_Cursors w !! key = Some n -> exported w key n;
  wo_phases : forall ph, ph ∈ phs -> phase_ok w ph;
}.

(** Chains and what sinks took only grow. *)
Record grows (w w' : World) : Prop := {
  gr_links : forall source chain, links w source chain `prefix_of` links w' source chain;
  gr_accepted : sw_Accepted w `prefix_of` sw_Accepted w';
}.

#[export] Instance grows_refl : Reflexive grows.
Proof. done. Qed.

Lemma prefix_new ls ls' l : linked (Some Genesis) 1 ls' -> ls `prefix_of` ls' -> l ∈ ls' ->
  lk_Seq l <= Z.of_nat (length ls) -> l ∈ ls.
Proof.
  intros Hl [more ->] [i Hi]%list_elem_of_lookup Hseq. rewrite (linked_seq _ _ _ _ _ Hl Hi) in Hseq.
  rewrite lookup_app_l in Hi by lia. apply list_elem_of_lookup. by exists i.
Qed.

Lemma accepted_grows w w' sink source chain l : grows w w' ->
  accepted_by w sink source chain l -> accepted_by w' sink source chain l.
Proof.
  intros [_ [more Hm]] (rec & Hin & Hr). exists rec. split; [|done]. rewrite Hm. apply elem_of_app. by left.
Qed.

Lemma exported_grows w w' key n : grows w w' -> written w' -> exported w key n -> exported w' key n.
Proof.
  intros Hg Hw. destruct key as [[sink source] chain]. intros [Hn Hl].
  pose proof (gr_links _ _ Hg source chain) as Hp. split; [apply prefix_length in Hp; lia|].
  intros l Hin Hseq. eapply accepted_grows; [done|]. apply Hl; [|done].
  eapply prefix_new; [apply Hw|done|done|lia].
Qed.

Lemma batch_grows w w' key after recs : grows w w' -> written w' -> batch_of w key after recs ->
  batch_of w' key after recs.
Proof.
  intros Hg Hw. destruct key as [[sink source] chain]. intros [Hn Hl].
  pose proof (gr_links _ _ Hg source chain) as Hp. split; [apply prefix_length in Hp; lia|].
  intros l Hin Hseq. apply Hl; [|done]. eapply prefix_new; [apply Hw|done|done|lia].
Qed.

Lemma phase_grows w w' ph : grows w w' -> written w' -> phase_ok w ph -> phase_ok w' ph.
Proof.
  intros Hg Hw. destruct ph; cbn; [done| | |].
  - by apply exported_grows.
  - intros [H1 H2]. split; [by eapply exported_grows|by eapply batch_grows].
  - by apply exported_grows.
Qed.

(** A step that writes no cursor. *)
Lemma world_grows w w' phs : grows w w' -> written w' -> sw_Cursors w' = sw_Cursors w ->
  world_ok w phs -> world_ok w' phs.
Proof.
  intros Hg Hw Hc [H1 H2 H3]. split; [done| |].
  - rewrite Hc. intros key n Hk. by eapply exported_grows; auto.
  - intros ph Hin. by eapply phase_grows; auto.
Qed.

(** ** Reading a batch *)

Lemma sorted_take F n l m : StronglySorted by_seq F -> l ∈ F -> last (take n F) = Some m ->
  lk_Seq l <= lk_Seq m -> l ∈ take n F.
Proof.
  intros Hs. revert n. induction Hs as [|x F Hs IH Hx]; intros [|n] Hin Hlast Hle; try done.
  cbn [take] in *. apply elem_of_cons. apply elem_of_cons in Hin as [->|Hin]; [by left|]. right.
  destruct (take n F) as [|y ys] eqn:E.
  - injection Hlast as <-. rewrite Forall_forall in Hx. specialize (Hx l Hin). unfold by_seq in Hx. lia.
  - rewrite <- E. apply IH; [done| |done]. by rewrite E.
Qed.

Lemma linked_filter prev seq ls f : linked prev seq ls -> StronglySorted by_seq (List.filter f ls).
Proof.
  intros Hl%linked_sorted. induction Hl as [|x ls Hs IH Hx]; cbn; [constructor|].
  destruct (f x); [|done]. constructor; [done|]. rewrite Forall_forall in *. intros y Hy. apply Hx.
  apply list_elem_of_In, filter_In in Hy as [Hy _]. by apply list_elem_of_In.
Qed.

Lemma linked_bounds prev ls l : linked prev 1 ls -> l ∈ ls -> 1 <= lk_Seq l <= Z.of_nat (length ls).
Proof.
  intros Hl [i Hi]%list_elem_of_lookup. rewrite (linked_seq _ _ _ _ _ Hl Hi). apply lookup_lt_Some in Hi. lia.
Qed.

Lemma last_map {A B} (f : A -> B) l : last (map f l) = f <$> last l.
Proof. induction l as [|x [|y l] IH]; [done|done|exact IH]. Qed.

Lemma last_in {A} (l : list A) x : last l = Some x -> x ∈ l.
Proof. rewrite last_lookup. intros H. apply list_elem_of_lookup. by eexists. Qed.

Lemma read_batch w sink source chain after limit : written w ->
  batch_of w (sink, source, chain) after (readRecords source chain (chain_of w source chain) after limit).
Proof.
  intros Hw. specialize (Hw source chain). unfold batch_of, links in *. set (db := chain_of w source chain) in *.
  unfold readRecords, last_seq. rewrite last_map. set (F := List.filter _ (db_Links db)).
  assert (HF : forall l, l ∈ F <-> l ∈ db_Links db /\ after < lk_Seq l).
  { intros l. unfold F. rewrite list_elem_of_In, filter_In, list_elem_of_In, Z.ltb_lt. done. }
  destruct (last (take limit F)) as [m|] eqn:Em; cbn.
  - assert (Hm : m ∈ F) by (apply last_in in Em; rewrite <- (take_drop limit F); apply elem_of_app; by left).
    split; [by apply HF in Hm as [Hm%(linked_bounds _ _ _ Hw) _]; lia|].
    intros l Hin [Ha Hle]. assert (HlF : l ∈ F) by (by apply HF).
    pose proof (sorted_take F limit l m (linked_filter _ _ _ _ Hw) HlF Em Hle) as Ht.
    eexists. split; [apply list_elem_of_In, in_map; by apply list_elem_of_In|done].
  - split; [lia|]. intros l Hin [_ Hle]. pose proof (linked_bounds _ _ _ Hw Hin). lia.
Qed.

(** ** Statements *)

Lemma links_same w w' : sw_Chains w' = sw_Chains w -> written w -> written w'.
Proof. intros Hc Hw source chain. unfold links, chain_of. rewrite Hc. apply Hw. Qed.

Lemma grows_accept w w' recs : sw_Chains w' = sw_Chains w -> sw_Accepted w' = sw_Accepted w ++ recs -> grows w w'.
Proof.
  intros Hc Ha. split.
  - intros source chain. unfold links, chain_of. by rewrite Hc.
  - rewrite Ha. by apply prefix_app_r.
Qed.

Lemma grows_same w w' : sw_Chains w' = sw_Chains w -> sw_Accepted w' = sw_Accepted w -> grows w w'.
Proof. intros Hc Ha. apply (grows_accept _ _ []); [done|]. by rewrite app_nil_r. Qed.

(** What a sink took of a batch that reaches its cursor. *)
Lemma sent_exported w key after recs : exported w key after -> batch_of w key after recs -> written w ->
  exported (accept key.1.1 recs w) key (last_seq recs).
Proof.
  destruct key as [[sink source] chain]. intros [_ He] [Hn Hb] Hw. split; [done|]. intros l Hin Hseq.
  change (links (accept sink recs w) source chain) with (links w source chain) in Hin.
  destruct (Z.le_gt_cases (lk_Seq l) after) as [Ha|Ha].
  - eapply accepted_grows; [by apply (grows_accept w _ (map (fun r => (sink, r)) recs))|by apply He].
  - destruct (Hb l Hin) as (rec & Hr & Hrest); [lia|]. exists rec. split; [|done]. cbn.
    apply elem_of_app. right. apply list_elem_of_In, in_map. by apply list_elem_of_In.
Qed.

Lemma forward_lookup key seq c k n : forward key seq c !! k = Some n -> c !! k = Some n \/ (k = key /\ n = seq).
Proof.
  unfold forward. destruct (c !! key) as [old|]; [destruct (old <? seq)|]; try (by left);
    (destruct (decide (k = key)) as [->|Hne]; [rewrite lookup_insert_eq|rewrite lookup_insert_ne by done]);
    naive_solver.
Qed.

Lemma ok_phase w phs i ph : world_ok w phs -> phase_ok w ph -> world_ok w (<[i := ph]> phs).
Proof. intros [H1 H2 H3] Hp. split; [done|done|]. intros ph' [Hin| ->]%in_insert; [by apply H3|done]. Qed.

Lemma save_ok w phs key seq : world_ok w phs -> exported w key seq ->
  world_ok (set_cursors (forward key seq (sw_Cursors w)) w) phs.
Proof.
  intros [H1 H2 H3] He. split; [done| |done].
  intros k n Hk. cbn in Hk. apply forward_lookup in Hk as [Hk|[-> ->]]; [by apply H2|done].
Qed.

Lemma lead_ok w phs s : world_ok w phs -> world_ok (set_leases s w) phs.
Proof. intros Hok. apply (world_grows w); [by apply grows_same|apply (links_same w); [done|by eapply wo_written]|done|done]. Qed.

Lemma accept_ok w phs sink recs : world_ok w phs -> world_ok (accept sink recs w) phs.
Proof.
  intros Hok. apply (world_grows w); [by eapply grows_accept|apply (links_same w); [done|by eapply wo_written]|done|done].
Qed.

Lemma reads_some {X} x (a : X) w r w' : reads x a w = Some (r, w') ->
  w' = w /\ (r = inl a \/ exists e, r = inr e).
Proof. destruct x; intros [= <- <-]; naive_solver. Qed.

Lemma export_exec_ok w phs i ph x X (st : stmt X) r w' : world_ok w phs -> phs !! i = Some ph -> allowed ph st ->
  exec x st w = Some (r, w') -> world_ok w' (<[i := next ph st r]> phs).
Proof.
  intros Hok Hi Ha Hex. assert (Hph : phase_ok w ph) by (apply (wo_phases _ _ Hok), list_elem_of_lookup; by exists i).
  destruct st; cbn in Hex, Ha.
  - destruct (Leader.exec _ _ _) as [[r' s]|]; [|done]. injection Hex as <- <-.
    apply ok_phase; [by apply lead_ok|done].
  - destruct x; [|done]. injection Hex as <- <-. by apply ok_phase.
  - destruct (_ <=? _); [|done]. apply reads_some in Hex as [-> _]. by apply ok_phase.
  - apply reads_some in Hex as [-> _]. by apply ok_phase.
  - apply reads_some in Hex as [-> Hr]. apply ok_phase; [done|]. destruct Hr as [->|[e ->]]; cbn; [|done].
    destruct (sw_Cursors w !! key) as [n|] eqn:E; [by apply (wo_cursors _ _ Hok)|]. cbn.
    destruct key as [[sink source] chain]. split; [lia|]. intros l Hin Hs.
    pose proof (linked_bounds _ _ _ (wo_written _ _ Hok source chain) Hin). lia.
  - apply reads_some in Hex as [-> Hr]. apply ok_phase; [done|]. destruct Ha as [sink ->].
    destruct Hr as [->|[e ->]]; [|done]. split; [done|]. by apply read_batch, wo_written with phs.
  - destruct Ha as (source & chain & after & ->). destruct x; injection Hex as <- <-.
    + apply ok_phase; [by apply accept_ok|]. destruct Hph as [H1 H2].
      apply (sent_exported w (sink, source, chain) after recs); [done|done|by eapply wo_written].
    + apply ok_phase; [by apply accept_ok|done].
  - subst ph. destruct (_ <=? _); [|done].
    assert (Hw' : world_ok (if passes f x w then set_cursors (forward key seq (sw_Cursors w)) w else w) phs).
    { destruct (passes f x w); [by apply save_ok|done]. }
    destruct x as [t|t [|] n e]; injection Hex as <- <-; by apply ok_phase.
  - destruct x; [|done]. injection Hex as <- <-. by apply ok_phase.
  - destruct x; [|done]. injection Hex as <- <-. by apply ok_phase.
Qed.

(** ** The writers *)

Lemma commits_grow s ss c db : linked (Some Genesis) 1 (db_Links db) ->
  db_Links db `prefix_of` db_Links (commits s ss c db) /\ linked (Some Genesis) 1 (db_Links (commits s ss c db)).
Proof.
  intros Hl. assert (Hlink : forall op id r db0, db_Links db0 = db_Links db ->
    db_Links db `prefix_of` db_Links (audit_chain_link s ss op id r db0) /\
    linked (Some Genesis) 1 (db_Links (audit_chain_link s ss op id r db0))).
  { intros op id r db0 H0. destruct (link_spec s ss op id r db0) as (l & -> & _ & _ & _ & _ & H). cbn.
    rewrite H0 in H |- *. split; [by apply prefix_app_r|by apply H]. }
  destruct c; cbn.
  - destruct (db_Rows db !! id); [done|]. unfold insert_row. by apply Hlink.
  - unfold update_state. destruct (db_Rows db !! id) as [old|]; [|done]. destruct (_ =s _); [done|]. by apply Hlink.
  - unfold delete_row. destruct (db_Rows db !! id) as [old|]; [|done]. by apply Hlink.
  - unfold truncate_rows. pose proof (append_spec db 0 "T" 1 "" "" (ss_At ss) (ss_User ss) (ss_App ss)) as H.
    destruct (audit_chain_append _ _ _ _ _ _ _ _ _) as [l db']. destruct H as (-> & _ & _ & _ & _ & H). cbn.
    split; [by apply prefix_app_r|by apply H].
Qed.

Lemma set_chain_ok w phs source chain db : world_ok w phs ->
  links w source chain `prefix_of` db_Links db -> linked (Some Genesis) 1 (db_Links db) ->
  world_ok (set_chains (<[(source, chain) := db]> (sw_Chains w)) w) phs.
Proof.
  intros Hok Hp Hl.
  assert (Hlinks : forall src ch, (src = source /\ ch = chain /\
      links (set_chains (<[(source, chain) := db]> (sw_Chains w)) w) src ch = db_Links db) \/
    links (set_chains (<[(source, chain) := db]> (sw_Chains w)) w) src ch = links w src ch).
  { intros src ch. unfold links, chain_of. cbn. destruct (decide ((src, ch) = (source, chain))) as [[= -> ->]|Hne].
    - left. by rewrite lookup_insert_eq.
    - right. by rewrite lookup_insert_ne. }
  apply (world_grows w); [| |done|done].
  - split; [|done]. intros src ch. by destruct (Hlinks src ch) as [(-> & -> & ->)| ->].
  - intros src ch. destruct (Hlinks src ch) as [(-> & -> & ->)| ->]; [done|]. by apply (wo_written _ _ Hok).
Qed.

Lemma happens_ok w phs e w' : world_ok w phs -> happens e w = Some w' -> world_ok w' phs.
Proof.
  intros Hok. destruct e as [e|source chain rows boundary|source chain ss c]; cbn [happens].
  - destruct (Leader.happens e (sw_Leases w)) as [s|]; [|done]. intros [= <-]. by apply lead_ok.
  - destruct (sw_Chains w !! (source, chain)) eqn:E; [done|]. intros [= <-]. apply set_chain_ok; [done| |done].
    unfold links, chain_of. by rewrite E.
  - destruct (sw_Chains w !! (source, chain)) as [db|] eqn:E; [|done].
    destruct (SpecFor chain) as [s|]; [|done]. intros [= <-].
    pose proof (wo_written _ _ Hok source chain) as Hl. unfold links, chain_of in Hl. rewrite E in Hl.
    destruct (commits_grow s ss c db Hl). apply set_chain_ok; [done| |done].
    unfold links, chain_of. by rewrite E.
Qed.

Lemma export_system_ok (sy : System) : reachable fresh sy -> exists phs, world_ok (sy_Server sy) phs.
Proof.
  intros Hr. destruct (reachable_phases (fun _ now X (st : stmt X) => allowed now st)
    (fun now X (st : stmt X) r => next now st r) (fun _ => Free) (fun _ _ _ => True) fresh
    (fun _ => world_ok)) with (sy := sy) as (phs & _ & H); [| | | | |done|by exists phs].
  - intros w (_ & Hc & Hch & Ha). split.
    + intros source chain. unfold links, chain_of. by rewrite Hch.
    + intros key n. by rewrite Hc.
    + intros ph Hin. by apply not_elem_of_nil in Hin.
  - intros o. apply keeps_program.
  - intros os w phs o [H1 H2 H3]. split; [done|done|]. intros ph [Hin| ->]%elem_of_snoc; [by apply H3|done].
  - intros os w phs i o ph X st x r w' Hok _ Hi Ha Hex. by eapply export_exec_ok.
  - intros os w phs e w' Hok He. by eapply happens_ok.
Qed.

(** C31: no link is lost in export: a sink's cursor stands within its chain, and the
    sink has accepted every link up to it, whichever sidecars export and however
    sends fail or are taken in part, cursors fail to be saved, leases change hands and
    sessions write. *)
Theorem nothing_skipped (sy : System) : reachable fresh sy ->
  let w := sy_Server sy in
  forall sink source chain n, sw_Cursors w !! (sink, source, chain) = Some n ->
    n <= Z.of_nat (length (links w source chain)) /\
    forall l, l ∈ links w source chain -> lk_Seq l <= n -> accepted_by w sink source chain l.
Proof.
  intros Hr w sink source chain n Hn. destruct (export_system_ok sy Hr) as [phs Hok].
  exact (wo_cursors _ _ Hok (sink, source, chain) n Hn).
Qed.

(** ** A drain with nothing else going on *)

Lemma linked_after prev seq ls n : linked prev seq ls -> seq <= n + 1 ->
  List.filter (fun l => n <? lk_Seq l) ls = drop (Z.to_nat (n + 1 - seq)) ls.
Proof.
  revert prev seq. induction ls as [|l ls IH]; intros prev seq; [by rewrite drop_nil|].
  intros (Hs & _ & _ & Hl) Hn. cbn [List.filter]. rewrite Hs. destruct (Z.ltb_spec n seq) as [Hlt|Hge].
  - replace (Z.to_nat (n + 1 - seq)) with 0%nat by lia. cbn. f_equal.
    apply filter_all. intros m [i Hi]%list_elem_of_lookup. rewrite (linked_seq _ _ _ _ _ Hl Hi). apply Z.ltb_lt. lia.
  - rewrite (IH _ _ Hl) by lia. replace (Z.to_nat (n + 1 - seq)) with (S (Z.to_nat (n + 1 - (seq + 1)))) by lia. done.
Qed.

Definition now_of (w : World) : fate := Goes (Leader.ld_Now (sw_Leases w)).

Definition record_of (source chain : string) (db : ChainDB) (l : Link) : Record_ :=
  {| rc_Source := source; rc_Chain := chain; rc_Link := l; rc_Row := row_now chain db l |}.

(** The links a cursor has not passed. *)
Definition pending (w : World) (sink source chain : string) : list Link :=
  drop (Z.to_nat (default 0 (sw_Cursors w !! (sink, source, chain)))) (links w source chain).

Section Drain.
Context (ex : Export) (source chain : string) (fence : Fence).
Let key : CursorKey := key_of ex source chain.

(** What a drain of [w] leaves behind after sending [ls]. *)
Definition drained (w : World) (ls : list Link) : World :=
  match ls with
  | [] => w
  | _ => set_cursors (<[key := Z.of_nat (length (links w source chain))]> (sw_Cursors w))
           (accept (ex_Sink ex) (map (record_of source chain (chain_of w source chain)) ls) w)
  end.

(** A cursor on its chain, an exporter that may write. *)
Record ready (w : World) : Prop := {
  rd_pool : ex_Pool ex = true;
  rd_batch : 0 < op_BatchSize (ex_Options ex);
  rd_linked : linked (Some Genesis) 1 (links w source chain);
  rd_cursor : 0 <= default 0 (sw_Cursors w !! key) <= Z.of_nat (length (links w source chain));
  rd_fence : passes fence (now_of w) w = true;
}.

(** One turn of the loop. *)
Definition turn (w : World) : World :=
  let recs := take (batch ex) (pending w (ex_Sink ex) source chain) in
  set_cursors (<[key := default 0 (sw_Cursors w !! key) + Z.of_nat (length recs)]> (sw_Cursors w))
    (accept (ex_Sink ex) (map (record_of source chain (chain_of w source chain)) recs) w).

Lemma read_pending w : ready w ->
  readRecords source chain (chain_of w source chain) (default 0 (sw_Cursors w !! key)) (batch ex) =
  map (record_of source chain (chain_of w source chain)) (take (batch ex) (pending w (ex_Sink ex) source chain)).
Proof.
  intros [_ _ Hl Hc _]. unfold readRecords, pending. change (sw_Cursors w !! (ex_Sink ex, source, chain)) with
    (sw_Cursors w !! key). fold (links w source chain). rewrite (linked_after _ _ _ _ Hl) by lia.
  by replace (default 0 (sw_Cursors w !! key) + 1 - 1) with (default 0 (sw_Cursors w !! key)) by lia.
Qed.

Lemma last_read w ls : linked (Some Genesis) 1 (links w source chain) -> ls <> [] ->
  forall n, 0 <= n -> ls `prefix_of` drop (Z.to_nat n) (links w source chain) ->
  last_seq (map (record_of source chain (chain_of w source chain)) ls) = n + Z.of_nat (length ls).
Proof.
  intros Hl Hne n Hn [more Hm]. unfold last_seq. rewrite last_map.
  destruct (last ls) as [l|] eqn:E; [|by apply last_None in E]. cbn.
  rewrite last_lookup in E. assert (Hi : links w source chain !! (Z.to_nat n + pred (length ls))%nat = Some l).
  { rewrite <- lookup_drop, Hm. by apply lookup_app_l_Some. }
  rewrite (linked_seq _ _ _ _ _ Hl Hi). apply lookup_lt_Some in E. lia.
Qed.

Lemma pending_length w : ready w -> Z.of_nat (length (pending w (ex_Sink ex) source chain)) =
  Z.of_nat (length (links w source chain)) - default 0 (sw_Cursors w !! key).
Proof. intros [_ _ _ Hc _]. unfold pending. rewrite length_drop. unfold key, key_of in *. lia. Qed.

Lemma turn_ready w : ready w -> ready (turn w) /\
  pending (turn w) (ex_Sink ex) source chain = drop (batch ex) (pending w (ex_Sink ex) source chain).
Proof.
  intros Hr. pose proof (pending_length w Hr) as Hp. destruct Hr as [H1 H2 H3 H4 H5].
  assert (Hlen : length (take (batch ex) (pending w (ex_Sink ex) source chain)) =
                 Nat.min (batch ex) (length (pending w (ex_Sink ex) source chain))) by apply length_take.
  assert (Hcur : sw_Cursors (turn w) !! key = Some (default 0 (sw_Cursors w !! key) +
    Z.of_nat (length (take (batch ex) (pending w (ex_Sink ex) source chain))))) by (cbn; by rewrite lookup_insert_eq).
  set (k := default 0 (sw_Cursors w !! key)) in *. set (P := pending w (ex_Sink ex) source chain) in *.
  assert (Hd : forall z, default 0 (Some z) = z) by done.
  split.
  - split; [done|done|done| |done]. rewrite Hcur, Hd. change (links (turn w) source chain) with (links w source chain). lia.
  - unfold pending at 1. change (ex_Sink ex, source, chain) with key. rewrite Hcur, Hd.
    change (links (turn w) source chain) with (links w source chain).
    rewrite Hlen. destruct (Nat.le_gt_cases (batch ex) (length P)) as [Hle|Hgt].
    + rewrite Nat.min_l by done. change P with (drop (Z.to_nat k) (links w source chain)). rewrite drop_drop. f_equal. lia.
    + rewrite (drop_ge P) by lia. apply drop_ge. lia.
Qed.

Lemma load_alone w : ready w ->
  alone now_of (CursorStore_Load ex key) w = Some (inl (default 0 (sw_Cursors w !! key)), w).
Proof. intros [H1 _ _ _ _]. unfold CursorStore_Load. by rewrite H1. Qed.

Lemma read_alone {A} w after limit (k : list Record_ + error -> prog A) :
  alone now_of (Do (ReadRecords source chain after limit) k) w =
  alone now_of (k (inl (readRecords source chain (chain_of w source chain) after limit))) w.
Proof. done. Qed.

Lemma send_alone {A} w sink recs (k : unit + error -> prog A) :
  alone now_of (Do (Send sink recs) k) w = alone now_of (k (inl tt)) (accept sink recs w).
Proof. done. Qed.

Lemma save_alone w seq : ex_Pool ex = true -> passes fence (now_of w) w = true ->
  alone now_of (CursorStore_Save ex fence key seq) w = Some (None, set_cursors (forward key seq (sw_Cursors w)) w).
Proof.
  intros H1 H5. unfold CursorStore_Save. rewrite H1. cbn [negb alone m_exec export_machine exec now_of started_at].
  rewrite Z.leb_refl. fold (now_of w). by rewrite H5.
Qed.

(** The cursor a batch is saved under. *)
Lemma forward_turn w : ready w -> pending w (ex_Sink ex) source chain <> [] ->
  let recs := map (record_of source chain (chain_of w source chain))
                (take (batch ex) (pending w (ex_Sink ex) source chain)) in
  recs <> [] /\ set_cursors (forward key (last_seq recs) (sw_Cursors w)) (accept (ex_Sink ex) recs w) = turn w.
Proof.
  intros [_ H2 H3 H4 _] HP recs. set (P := pending w (ex_Sink ex) source chain) in *.
  assert (Hb : (0 < batch ex)%nat) by (unfold batch; lia).
  assert (Ht : take (batch ex) P <> []) by (destruct P; [done|]; by destruct (batch ex); [lia|]).
  split; [unfold recs; by destruct (take (batch ex) P)|]. unfold turn. fold P recs. f_equal.
  unfold recs. rewrite (last_read w (take (batch ex) P) H3 Ht (default 0 (sw_Cursors w !! key))); [|lia|].
  - unfold forward. destruct (sw_Cursors w !! key) as [old|]; [|done].
    change (default 0 (Some old)) with old.
    destruct (Z.ltb_spec old (old + Z.of_nat (length (take (batch ex) P)))); [done|].
    destruct (take (batch ex) P); [done|]. cbn in *. lia.
  - change (drop _ _) with P. exists (drop (batch ex) P). by rewrite take_drop.
Qed.

Lemma drain_step n w st : ready w -> pending w (ex_Sink ex) source chain <> [] -> exists st',
  alone now_of (drain ex (S n) source chain fence st) w =
  if Z.of_nat (length (take (batch ex) (pending w (ex_Sink ex) source chain))) <? op_BatchSize (ex_Options ex)
  then Some ((Ended None, st'), turn w) else alone now_of (drain ex n source chain fence st') (turn w).
Proof.
  intros Hr HP. destruct (forward_turn w Hr HP) as [Hne Hturn].
  cbn [drain]. fold key. rewrite alone_bind, (load_alone w Hr), read_alone, (read_pending w Hr).
  rewrite <- (length_map (record_of source chain (chain_of w source chain))).
  destruct (map _ _) as [|rc recs]; [done|].
  rewrite send_alone, alone_bind. destruct Hr as [H1 _ _ _ H5].
  rewrite save_alone by done. cbn [sw_Cursors accept]. rewrite Hturn. eexists.
  cbn [alone m_exec export_machine exec now_of]. by destruct (_ <? _).
Qed.

Lemma drain_done n w st : ready w -> pending w (ex_Sink ex) source chain = [] ->
  alone now_of (drain ex (S n) source chain fence st) w = Some ((Ended None, st), w).
Proof.
  intros Hr HP. cbn [drain]. fold key. by rewrite alone_bind, (load_alone w Hr), read_alone, (read_pending w Hr), HP, take_nil.
Qed.

Lemma turn_drained w : ready w -> pending w (ex_Sink ex) source chain <> [] ->
  drained (turn w) (drop (batch ex) (pending w (ex_Sink ex) source chain)) =
  drained w (pending w (ex_Sink ex) source chain).
Proof.
  intros Hr. pose proof (pending_length w Hr) as Hlen. destruct Hr as [_ _ _ H4 _].
  set (P := pending w (ex_Sink ex) source chain) in *. set (f := record_of source chain (chain_of w source chain)).
  intros HP. assert (Hd : drained w P = set_cursors (<[key := Z.of_nat (length (links w source chain))]> (sw_Cursors w))
    (accept (ex_Sink ex) (map f P) w)) by (by destruct P). rewrite Hd. clear Hd.
  destruct (drop (batch ex) P) as [|l ls] eqn:E.
  - assert (Ht : take (batch ex) P = P).
    { rewrite <- (take_drop (batch ex) P) at 2. by rewrite E, app_nil_r. }
    cbn [drained]. unfold turn. fold P f. rewrite Ht, Hlen. do 3 f_equal. lia.
  - cbn [drained]. rewrite <- E. change (links (turn w) source chain) with (links w source chain).
    change (chain_of (turn w) source chain) with (chain_of w source chain). fold f. unfold turn. fold P f.
    unfold set_cursors, accept. cbn. rewrite insert_insert_eq, <- app_assoc, <- map_app, <- map_app, take_drop. done.
Qed.

(** C32: with nothing else going on, a drain with enough turns for what is pending ends
    without error, having sent every link after the cursor once and in order, and
    leaves the cursor on the chain's last link. *)
Theorem drain_catches_up fuel w st : ready w ->
  Z.of_nat (length (pending w (ex_Sink ex) source chain)) < Z.of_nat fuel * op_BatchSize (ex_Options ex) ->
  exists st', alone now_of (drain ex fuel source chain fence st) w =
    Some ((Ended None, st'), drained w (pending w (ex_Sink ex) source chain)).
Proof.
  revert w st. induction fuel as [|n IH]; intros w st Hr Hf; [lia|].
  destruct (decide (pending w (ex_Sink ex) source chain = [])) as [HP|HP].
  { rewrite (drain_done n w st Hr HP), HP. by exists st. }
  assert (Hb : Z.of_nat (batch ex) = op_BatchSize (ex_Options ex)) by (unfold batch; destruct Hr; lia).
  destruct (drain_step n w st Hr HP) as [st' Hstep]. rewrite Hstep. clear Hstep.
  destruct (turn_ready w Hr) as [Hr' Hp']. rewrite <- (turn_drained w Hr HP), length_take.
  destruct (Z.ltb_spec (Z.of_nat (Nat.min (batch ex) (length (pending w (ex_Sink ex) source chain))))
              (op_BatchSize (ex_Options ex))).
  - rewrite (drop_ge (pending _ _ _ _)) by lia. by eexists.
  - rewrite <- Hp'. apply IH; [done|]. rewrite Hp', length_drop. lia.
Qed.
End Drain.

(** ** Fences *)

Lemma export_exec_onward x X (st : stmt X) w r w' : exec x st w = Some (r, w') ->
  LeaderSafety.onward (sw_Leases w) (sw_Leases w').
Proof.
  destruct st; cbn; intros Hex; try (by apply reads_some in Hex as [-> _]).
  - destruct (Leader.exec _ _ _) as [[r' s]|] eqn:E; [|done]. injection Hex as _ <-. by eapply LeaderSafety.exec_onward.
  - destruct x; [|done]. injection Hex as _ <-. reflexivity.
  - destruct (_ <=? _); [|done]. by apply reads_some in Hex as [-> _].
  - destruct x; injection Hex as _ <-; reflexivity.
  - destruct (_ <=? _); [|done]. destruct (passes f x w), x as [t|t [|] n e]; injection Hex as _ <-; reflexivity.
  - destruct x; [|done]. injection Hex as _ <-. reflexivity.
  - destruct x; [|done]. injection Hex as _ <-. reflexivity.
Qed.

Lemma export_happens_onward e w w' : happens e w = Some w' -> LeaderSafety.onward (sw_Leases w) (sw_Leases w').
Proof.
  destruct e as [e|source chain rows boundary|source chain ss c]; cbn [happens].
  - destruct (Leader.happens e (sw_Leases w)) as [s|] eqn:E; [|done]. intros [= <-]. by eapply LeaderSafety.happens_onward.
  - destruct (sw_Chains w !! (source, chain)); [done|]. intros [= <-]. reflexivity.
  - destruct (sw_Chains w !! (source, chain)); [|done]. destruct (SpecFor chain); [|done]. intros [= <-]. reflexivity.
Qed.

Lemma steps_onward (sy sy' : System) : rtc sys_step sy sy' ->
  LeaderSafety.onward (sw_Leases (sy_Server sy)) (sw_Leases (sy_Server sy')).
Proof.
  induction 1 as [sy|sy1 sy2 sy3 [a Ha] _ IH]; [done|]. etrans; [|exact IH]. destruct a as [o|i how|e]; cbn in Ha.
  - by injection Ha as <-.
  - destruct (sy_Threads sy1 !! i) as [[o [x|X st k]]|]; try done.
    destruct (exec how st (sy_Server sy1)) as [[r s]|] eqn:Ex; [|done]. injection Ha as <-. by eapply export_exec_onward.
  - destruct (happens e (sy_Server sy1)) as [s|] eqn:Ee; [|done]. injection Ha as <-. by eapply export_happens_onward.
Qed.

(** An exporter whose lease another sidecar has taken over moves no cursor: from
    then on, whatever happens, a save under its fence changes nothing and does not
    answer that it did. *)
Theorem superseded_saves_nothing (sy sy' : System) f row : rtc sys_step sy sy' -> fe_Holder f <> "" ->
  Leader.ld_Rows (sw_Leases (sy_Server sy)) !! fe_Scope f = Some row ->
  fe_Epoch f <= Leader.lr_Epoch row -> (Leader.lr_Holder row <> fe_Holder f \/ Leader.lr_Epoch row <> fe_Epoch f) ->
  forall x key seq r w', exec x (Save f key seq) (sy_Server sy') = Some (r, w') ->
    w' = sy_Server sy' /\ r <> inl true.
Proof.
  intros Hr Hf Hrow He Hne x key seq r w' Hex. destruct (steps_onward _ _ Hr _ _ Hrow) as (row' & Hrow' & Hc).
  assert (Hp : passes f x (sy_Server sy') = false).
  { unfold passes, fenceSQL. rewrite Hrow', (proj2 (String.eqb_neq _ _) Hf). cbn [orb].
    destruct (String.eqb_spec (Leader.lr_Holder row') (fe_Holder f)) as [E1|]; [|done].
    destruct (Z.eqb_spec (Leader.lr_Epoch row') (fe_Epoch f)) as [E2|]; [|done]. exfalso.
    destruct Hc as [[E3 E4]|Hlt]; [|lia]. destruct Hne; congruence. }
  cbn in Hex. destruct (_ <=? _); [|done]. rewrite Hp in Hex.
  by destruct x as [t|t [|] n e]; injection Hex as <- <-.
Qed.

(** ** Backoff *)

Lemma doubled_spec fuel wait max : 0 < wait <= max -> max <= 2 ^ 62 ->
  Z.min (doubled fuel wait max) max = Z.min (wait * 2 ^ Z.of_nat fuel) max.
Proof.
  intros Hw Hm. revert wait Hw. induction fuel as [|n IH]; intros wait Hw; [by rewrite Z.mul_1_r|].
  cbn [doubled]. destruct (Z.ltb_spec wait max) as [Hlt|Hge].
  - rewrite wrap64_id by (unfold min_int64, max_int64; lia).
    replace (wait * 2 ^ Z.of_nat (S n)) with (wait * 2 * 2 ^ Z.of_nat n) by (rewrite Nat2Z.inj_succ, Z.pow_succ_r; lia).
    destruct (Z.le_gt_cases (wait * 2) max); [apply IH; lia|].
    assert (1 <= 2 ^ Z.of_nat n) by (apply Z.lt_pred_le, Z.pow_pos_nonneg; lia).
    assert (Hd : doubled n (wait * 2) max = wait * 2) by (destruct n; cbn; [done|]; by rewrite (proj2 (Z.ltb_ge _ _)) by lia).
    rewrite Hd, !Z.min_r; [done|nia|lia].
  - assert (1 <= 2 ^ Z.of_nat (S n)) by (apply Z.lt_pred_le, Z.pow_pos_nonneg; lia).
    rewrite !Z.min_r; [done|nia|lia].
Qed.

(** After [failures] failures in a row the wait is the interval doubled once per
    failure after the first, at most the maximum, and it never overflows. *)
Theorem backoff_exact o failures : op_Interval o <= 2 ^ 62 -> op_MaxBackoff o <= 2 ^ 62 -> 1 <= failures ->
  backoff (NewExporter o) failures =
  Z.min (op_Interval (NewExporter o) * 2 ^ (failures - 1)) (op_MaxBackoff (NewExporter o)).
Proof.
  intros Hi Hm Hf. unfold backoff. rewrite <- (Z2Nat.id (failures - 1)) at 2 by lia.
  apply doubled_spec; unfold NewExporter, Second; cbn;
    destruct (Z.leb_spec (op_Interval o) 0);
    match goal with |- context [?a <? ?b] => destruct (Z.ltb_spec a b) end; lia.
Qed.

Lemma backoff_exact_witness :
  backoff (NewExporter {| op_BatchSize := 0; op_Interval := 0; op_MaxBackoff := 60 * Second |}) 3 = 40 * Second /\
  backoff (NewExporter {| op_BatchSize := 0; op_Interval := 0; op_MaxBackoff := 60 * Second |}) 4 = 60 * Second.
Proof.
  split; (rewrite backoff_exact; [reflexivity|cbn; lia|unfold op_MaxBackoff, Second; lia|lia]).
Defined.

(** ** Two sidecars export one chain

    [a] leads and sends the first batch, but fails to save its cursor; its lease runs
    out and [b] takes over and sends from the start: the sink has the first two links
    twice, and none is missing. *)

Definition trail : string := "action_log".

Definition exporter (h : string) : Export :=
  {| ex_Sink := "splunk"; ex_Chains := []; ex_Elector := Some (LeaderSafety.node h); ex_Pool := true;
     ex_Sources := fun _ => ["orders"];
     ex_Options := {| op_BatchSize := 2; op_Interval := 0; op_MaxBackoff := 0 |} |}.

Definition empty_world : World :=
  {| sw_Leases := LeaderSafety.no_leases 0; sw_Cursors := ∅; sw_Chains := ∅; sw_Accepted := [] |}.

Definition session : Session := {| ss_At := 0; ss_User := "sage"; ss_App := "" |}.

Definition goes (thread n : nat) (t : Time) : list (Interleave.action fate event operation) :=
  repeat (Interleave.Run thread (Goes t)) n.

Definition exported_run : list (Interleave.action fate event operation) :=
  [Event (Install "orders" trail ∅ 0);
   Event (Commit "orders" trail session (Insert 1 "{}" "[]"));
   Event (Commit "orders" trail session (Insert 2 "{}" "[]"));
   Event (Commit "orders" trail session (Insert 3 "{}" "[]"));
   Start (OpElection (LeaderSafety.elect "a" 500))] ++ goes 0 4 0 ++
  Start (OpSink (exporter "a") 5 2) :: goes 1 6 0 ++
  [Interleave.Run 1 (Breaks 0 false 0 "timeout");
   Event (Clocks (Leader.Pass (10 * Second) (fun _ => 10 * Second)));
   Start (OpElection (LeaderSafety.elect "b" 70))] ++ goes 2 4 (10 * Second) ++
  Start (OpSink (exporter "b") 5 1) :: goes 3 12 (10 * Second).

Definition read_export (sy : System) : option Z * list (Z * Z) :=
  let w := sy_Server sy in
  (sw_Cursors w !! ("splunk", "orders", trail),
   map (fun p => (lk_Seq (rc_Link p.2), lk_RowID (rc_Link p.2))) (sw_Accepted w)).

Lemma exported_run_ends : option_map read_export (acts exported_run (idle empty_world)) =
  Some (Some 3, [(1, 1); (2, 2); (1, 1); (2, 2); (3, 3)]).
Proof. vm_compute. reflexivity. Qed.

Lemma export_empty_fresh : fresh empty_world.
Proof. done. Qed.

Lemma nothing_skipped_witness : exists sy, reachable fresh sy /\
  sw_Cursors (sy_Server sy) !! ("splunk", "orders", trail) = Some 3 /\
  3 <= Z.of_nat (length (links (sy_Server sy) "orders" trail)).
Proof.
  destruct (acts_read fresh _ _ _ _ export_empty_fresh exported_run_ends) as (sy & Hr & H). injection H as Hc _.
  exists sy. split; [done|]. split; [done|]. by destruct (nothing_skipped sy Hr _ _ _ _ Hc).
Defined.

(** A chain of three links, nobody elected. *)
Definition quiet_world : World :=
  set_chains {[("orders", trail) :=
    commits ActionLog session (Insert 3 "{}" "[]") (commits ActionLog session (Insert 2 "{}" "[]")
      (commits ActionLog session (Insert 1 "{}" "[]") {| db_Links := []; db_Rows := ∅; db_Boundary := Some 0 |}))]}
    empty_world.

Definition sole : Export :=
  {| ex_Sink := "splunk"; ex_Chains := []; ex_Elector := None; ex_Pool := true; ex_Sources := fun _ => ["orders"];
     ex_Options := {| op_BatchSize := 2; op_Interval := 0; op_MaxBackoff := 0 |} |}.

Lemma drain_catches_up_witness : ready sole "orders" trail unfenced quiet_world /\
  exists st', alone now_of (drain sole 2 "orders" trail unfenced (new_status "splunk")) quiet_world =
    Some ((Ended None, st'), drained sole "orders" trail quiet_world (pending quiet_world "splunk" "orders" trail)) /\
  map (fun l => lk_Seq l) (pending quiet_world "splunk" "orders" trail) = [1; 2; 3].
Proof.
  assert (Hr : ready sole "orders" trail unfenced quiet_world).
  { split; [reflexivity|reflexivity| |vm_compute; split; discriminate|reflexivity].
    apply (commits_grow ActionLog session (Insert 3 "{}" "[]")), (commits_grow ActionLog session (Insert 2 "{}" "[]")),
      (commits_grow ActionLog session (Insert 1 "{}" "[]")). exact I. }
  split; [exact Hr|]. destruct (drain_catches_up sole "orders" trail unfenced 2 quiet_world (new_status "splunk") Hr)
    as [st' H]; [vm_compute; reflexivity|]. exists st'. split; [exact H|vm_compute; reflexivity].
Defined.

(** [a]'s fence after [b] took the lease. *)
Definition fence_a : Fence := {| fe_Scope := "fleet"; fe_Holder := "a"; fe_Epoch := 1 |}.

Lemma fenced_run_ends :
  option_map (fun sy => (fun r => (Leader.lr_Holder r, Leader.lr_Epoch r)) <$> Leader.ld_Rows (sw_Leases (sy_Server sy)) !! "fleet")
    (acts exported_run (idle empty_world)) = Some (Some ("b", 2)).
Proof. vm_compute. reflexivity. Qed.

Lemma superseded_saves_nothing_witness : exists sy, reachable fresh sy /\
  forall x key seq r w', exec x (Save fence_a key seq) (sy_Server sy) = Some (r, w') -> w' = sy_Server sy /\ r <> inl true.
Proof.
  destruct (acts_read fresh _ _ _ _ export_empty_fresh fenced_run_ends) as (sy & Hr & H).
  destruct (Leader.ld_Rows (sw_Leases (sy_Server sy)) !! "fleet") as [row|] eqn:E; [|done]. injection H as Hh He.
  exists sy. split; [exact Hr|]. apply (superseded_saves_nothing sy sy fence_a row); [reflexivity|discriminate|exact E| |].
  - rewrite He. cbn. lia.
  - right. rewrite He. cbn. lia.
Defined.
