(* ===== verification/Rollout.v ===== *)
(** * Rollouts: policies and the engine

    internal/rollout: types.go, policy.go and engine.go.  A rollout applies a validated
    prior to one instance after another through a verifier and an applier, which are
    the engine's interfaces: a [call] is one use of them, and the engine a program of
    calls. *)

From S2P Require Import Prelude.
From S2P Require Import GoStd.
From S2P Require Export Interleave.

Open Scope go_scope.

(** ** types.go *)

Definition ErrPolicyUnavailable : error := "rollout policy unavailable".
Definition ErrInvalidPolicy : error := "invalid rollout policy".
Definition ErrPriorRequired : error := "validated prior is required".

Record Policy : Type := {
  py_CanaryInstances : Z;
  py_MaxAffectedInstances : Z;
  py_AggregateRegressionLimitPct : float64;
  py_RequireLocalReverification : bool;
  py_Sources : list string;
}.

Record PolicyPatch : Type := {
  pt_CanaryInstances : option Z;
  pt_MaxAffectedInstances : option Z;
  pt_AggregateRegressionLimitPct : option float64;
  pt_RequireLocalReverification : option bool;
}.

Record PolicySet : Type := {
  pz_FleetDefault : option Policy;
  pz_ClassDefaults : gmap string PolicyPatch;
  pz_TagDefaults : gmap string PolicyPatch;
  pz_InstanceOverrides : gmap string PolicyPatch;
}.

Record Instance_ : Type := { in_ID : string; in_Class : string; in_Tags : list string }.

(** The intent is a JSON object, by its members; [None] is an empty message. *)
Record Prior : Type := {
  pr_EvidenceID : string;
  pr_ValidatedInstanceID : string;
  pr_Intent : option (list (string * string));
}.

Record Request : Type := { rq_Prior : Prior; rq_Instances : list Instance_; rq_Policy : Policy }.

Record Reverification : Type := { rv_Eligible : bool; rv_Reason : string; rv_LocalEvidenceID : string }.

Record AppliedChange : Type := { ac_Handle : string }.

Record Outcome : Type := {
  oc_RegressionPct : float64;
  oc_EvidenceID : string;
  oc_Failed : bool;
  oc_Detail : string;
}.

Record InstanceResult : Type := {
  ir_Status : string;
  ir_EvidenceID : string;
  ir_RegressionPct : float64;
  ir_Detail : string;
}.

Record Result : Type := {
  rs_Halted : bool;
  rs_HaltReason : string;
  rs_AppliedInstances : Z;
  rs_CanaryInstanceIDs : list string;
  rs_AggregateRegressionPct : float64;
  rs_Instances : gmap string InstanceResult;
  rs_RolledBack : Z;
  rs_RollbackErrors : list string;
}.

Definition StatusApplied : string := "applied".
Definition StatusNotLocallyVerified : string := "not_locally_verified".
Definition StatusRolledBack : string := "rolled_back".
Definition StatusRollbackFailed : string := "rollback_failed".
Definition StatusRollbackUnavailable : string := "rollback_unavailable".

Definition f64_zero : float64 := f64_of_Z 0.

(** ** policy.go *)

Definition validatePolicy (p : Policy) : option error :=
  if (py_CanaryInstances p <=? 0) || (py_MaxAffectedInstances p <=? 0) ||
     (py_MaxAffectedInstances p <? py_CanaryInstances p) ||
     f64_ltb (py_AggregateRegressionLimitPct p) f64_zero || negb (py_RequireLocalReverification p)
  then Some ErrInvalidPolicy else None.

Definition applyPatch (p : Policy) (patch : PolicyPatch) : Policy :=
  {| py_CanaryInstances := default (py_CanaryInstances p) (pt_CanaryInstances patch);
     py_MaxAffectedInstances := default (py_MaxAffectedInstances p) (pt_MaxAffectedInstances patch);
     py_AggregateRegressionLimitPct :=
       default (py_AggregateRegressionLimitPct p) (pt_AggregateRegressionLimitPct patch);
     py_RequireLocalReverification :=
       default (py_RequireLocalReverification p) (pt_RequireLocalReverification patch);
     py_Sources := py_Sources p |}.

Definition add_source (source : string) (p : Policy) : Policy :=
  {| py_CanaryInstances := py_CanaryInstances p; py_MaxAffectedInstances := py_MaxAffectedInstances p;
     py_AggregateRegressionLimitPct := py_AggregateRegressionLimitPct p;
     py_RequireLocalReverification := py_RequireLocalReverification p;
     py_Sources := py_Sources p ++ [source] |}.

Definition patch_from (patches : gmap string PolicyPatch) (kind key : string) (p : Policy) : Policy :=
  match patches !! key with Some patch => add_source (kind +:+ key) (applyPatch p patch) | None => p end.

(** The fleet's default, then the class's, each tag's and the instance's own. *)
Definition Resolve (set : PolicySet) (i : Instance_) : Policy + error :=
  match pz_FleetDefault set with
  | None => inr ErrPolicyUnavailable
  | Some fleet =>
      let p := {| py_CanaryInstances := py_CanaryInstances fleet;
                  py_MaxAffectedInstances := py_MaxAffectedInstances fleet;
                  py_AggregateRegressionLimitPct := py_AggregateRegressionLimitPct fleet;
                  py_RequireLocalReverification := py_RequireLocalReverification fleet;
                  py_Sources := ["fleet"] |} in
      let p := patch_from (pz_ClassDefaults set) "class:" (in_Class i) p in
      let p := fold_left (fun p tag => patch_from (pz_TagDefaults set) "tag:" tag p) (in_Tags i) p in
      let p := patch_from (pz_InstanceOverrides set) "instance:" (in_ID i) p in
      match validatePolicy p with Some e => inr e | None => inl p end
  end.

(** ** engine.go *)

(** What the engine asks of its context, its verifier and its applier. *)
Inductive call : Type -> Type :=
| CtxErr : call (option error)
| Reverify (i : Instance_) (prior : Prior) : call Reverification
| ApplyChange (i : Instance_) (r : Reverification) : call AppliedChange
| Measure (i : Instance_) (c : AppliedChange) : call Outcome
| Rollback (i : Instance_) (c : AppliedChange) : call unit.

Abbreviation prog := (Interleave.prog call error).

(** A rollout's progress. *)
Record rolloutRun : Type := {
  rr_result : Result;
  rr_canaryOutcomes : list Outcome;
  rr_changed : list (Instance_ * AppliedChange);
}.

Definition no_result : Result :=
  {| rs_Halted := false; rs_HaltReason := ""; rs_AppliedInstances := 0; rs_CanaryInstanceIDs := [];
     rs_AggregateRegressionPct := f64_zero; rs_Instances := ∅; rs_RolledBack := 0; rs_RollbackErrors := [] |}.

Definition new_run : rolloutRun := {| rr_result := no_result; rr_canaryOutcomes := []; rr_changed := [] |}.

Definition set_result (r : Result) (run : rolloutRun) : rolloutRun :=
  {| rr_result := r; rr_canaryOutcomes := rr_canaryOutcomes run; rr_changed := rr_changed run |}.
Definition set_Instances (m : gmap string InstanceResult) (r : Result) : Result :=
  {| rs_Halted := rs_Halted r; rs_HaltReason := rs_HaltReason r; rs_AppliedInstances := rs_AppliedInstances r;
     rs_CanaryInstanceIDs := rs_CanaryInstanceIDs r; rs_AggregateRegressionPct := rs_AggregateRegressionPct r;
     rs_Instances := m; rs_RolledBack := rs_RolledBack r; rs_RollbackErrors := rs_RollbackErrors r |}.
Definition halted (reason : string) (r : Result) : Result :=
  {| rs_Halted := true; rs_HaltReason := reason; rs_AppliedInstances := rs_AppliedInstances r;
     rs_CanaryInstanceIDs := rs_CanaryInstanceIDs r; rs_AggregateRegressionPct := rs_AggregateRegressionPct r;
     rs_Instances := rs_Instances r; rs_RolledBack := rs_RolledBack r; rs_RollbackErrors := rs_RollbackErrors r |}.
Definition canary_measured (id : string) (average : float64) (r : Result) : Result :=
  {| rs_Halted := rs_Halted r; rs_HaltReason := rs_HaltReason r; rs_AppliedInstances := rs_AppliedInstances r;
     rs_CanaryInstanceIDs := rs_CanaryInstanceIDs r ++ [id]; rs_AggregateRegressionPct := average;
     rs_Instances := rs_Instances r; rs_RolledBack := rs_RolledBack r; rs_RollbackErrors := rs_RollbackErrors r |}.
Definition rolled_back (ok : bool) (errors : list string) (r : Result) : Result :=
  {| rs_Halted := rs_Halted r; rs_HaltReason := rs_HaltReason r; rs_AppliedInstances := rs_AppliedInstances r;
     rs_CanaryInstanceIDs := rs_CanaryInstanceIDs r; rs_AggregateRegressionPct := rs_AggregateRegressionPct r;
     rs_Instances := rs_Instances r; rs_RolledBack := rs_RolledBack r + (if ok then 1 else 0);
     rs_RollbackErrors := rs_RollbackErrors r ++ errors |}.

(** An instance changed. *)
Definition changed (i : Instance_) (c : AppliedChange) (run : rolloutRun) : rolloutRun :=
  let r := rr_result run in
  {| rr_result := {| rs_Halted := rs_Halted r; rs_HaltReason := rs_HaltReason r;
                     rs_AppliedInstances := rs_AppliedInstances r + 1;
                     rs_CanaryInstanceIDs := rs_CanaryInstanceIDs r;
                     rs_AggregateRegressionPct := rs_AggregateRegressionPct r;
                     rs_Instances := rs_Instances r; rs_RolledBack := rs_RolledBack r;
                     rs_RollbackErrors := rs_RollbackErrors r |};
     rr_canaryOutcomes := rr_canaryOutcomes run; rr_changed := rr_changed run ++ [(i, c)] |}.

Definition set_instance (i : Instance_) (r : InstanceResult) (run : rolloutRun) : rolloutRun :=
  set_result (set_Instances (<[in_ID i := r]> (rs_Instances (rr_result run))) (rr_result run)) run.

Definition averageRegression (outcomes : list Outcome) : float64 :=
  match outcomes with
  | [] => f64_zero
  | _ => f64_div (fold_left (fun total o => f64_add total (oc_RegressionPct o)) outcomes f64_zero)
                 (f64_of_Z (Z.of_nat (length outcomes)))
  end.

(** [judge]: the halt reason of an instance's outcome, "" for none. *)
Definition judge (policy : Policy) (i : Instance_) (o : Outcome) (run : rolloutRun) : string * rolloutRun :=
  if oc_Failed o then ("verification_failed", run) else
  if Z.of_nat (length (rs_CanaryInstanceIDs (rr_result run))) <? py_CanaryInstances policy then
    let outcomes := rr_canaryOutcomes run ++ [o] in
    let full := Z.of_nat (length outcomes) =? py_CanaryInstances policy in
    let average := if full then averageRegression outcomes else rs_AggregateRegressionPct (rr_result run) in
    let run := {| rr_result := canary_measured (in_ID i) average (rr_result run);
                  rr_canaryOutcomes := outcomes; rr_changed := rr_changed run |} in
    (if full && f64_ltb (py_AggregateRegressionLimitPct policy) average then "aggregate_regression" else "", run)
  else
    (if f64_ltb (py_AggregateRegressionLimitPct policy) (oc_RegressionPct o) then "instance_regression" else "", run).

Definition wrap (what id : string) (e : error) : error := what +:+ " " +:+ id +:+ ": " +:+ e.

Definition instance_result (status : string) (o : Outcome) : InstanceResult :=
  {| ir_Status := status; ir_EvidenceID := oc_EvidenceID o; ir_RegressionPct := oc_RegressionPct o;
     ir_Detail := oc_Detail o |}.

Definition with_status (status : string) (r : InstanceResult) : InstanceResult :=
  {| ir_Status := status; ir_EvidenceID := ir_EvidenceID r; ir_RegressionPct := ir_RegressionPct r;
     ir_Detail := ir_Detail r |}.

Definition no_instance_result : InstanceResult :=
  {| ir_Status := ""; ir_EvidenceID := ""; ir_RegressionPct := f64_zero; ir_Detail := "" |}.

Section Engine.
(** Whether the applier is a [Rollbacker]. *)
Context (rollbacker : bool) (req : Request).
Let policy : Policy := rq_Policy req.

(** One instance: the halt reason and the run, or the error and the run it ended. *)
Definition step (i : Instance_) (run : rolloutRun) : prog (string * rolloutRun + error * rolloutRun) :=
  do~ candidate := Reverify i (rq_Prior req) in
  match candidate with
  | inr e => Ret (inr (wrap "local verifier for" (in_ID i) e, run))
  | inl candidate =>
      if negb (rv_Eligible candidate)
      then Ret (inl ("", set_instance i {| ir_Status := StatusNotLocallyVerified; ir_EvidenceID := "";
                                           ir_RegressionPct := f64_zero; ir_Detail := rv_Reason candidate |} run))
      else
        do~ change := ApplyChange i candidate in
        match change with
        | inr e => Ret (inr (wrap "apply to" (in_ID i) e, run))
        | inl c =>
            let run := changed i c run in
            do~ outcome := Measure i c in
            match outcome with
            | inr e => Ret (inr (wrap "measure" (in_ID i) e, run))
            | inl o => Ret (inl (judge policy i o (set_instance i (instance_result StatusApplied o) run)))
            end
        end
  end.

(** Every changed instance, the newest first: [undo] are those still to be undone. *)
Fixpoint rollbackAll (undo : list (Instance_ * AppliedChange)) (run : rolloutRun) : prog rolloutRun :=
  match undo with
  | [] => Ret run
  | (i, c) :: undo =>
      let res := default no_instance_result (rs_Instances (rr_result run) !! in_ID i) in
      if negb rollbacker then rollbackAll undo (set_instance i (with_status StatusRollbackUnavailable res) run) else
      do~ r := Rollback i c in
      match r with
      | inr e =>
          rollbackAll undo (set_instance i (with_status StatusRollbackFailed res)
            (set_result (rolled_back false [in_ID i +:+ ": " +:+ e] (rr_result run)) run))
      | inl _ =>
          rollbackAll undo (set_instance i (with_status StatusRolledBack res)
            (set_result (rolled_back true [] (rr_result run)) run))
      end
  end.

Definition the_error (r : option error + error) : option error :=
  match r with inl e => e | inr e => Some e end.

Fixpoint roll (instances : list Instance_) (run : rolloutRun) : prog (Result * option error) :=
  match instances with
  | [] => Ret (rr_result run, None)
  | i :: rest =>
      do~ ctx := CtxErr in
      match the_error ctx with
      | Some e => Ret (rr_result run, Some e)
      | None =>
          if py_MaxAffectedInstances policy <=? rs_AppliedInstances (rr_result run)
          then Ret (halted "blast_radius_limit" (rr_result run), None) else
          do* r := step i run in
          match r with
          | inr (e, run) => Ret (rr_result run, Some e)
          | inl (halt, run) =>
              if halt =s "" then roll rest run else
              do* run := rollbackAll (rev (rr_changed run)) (set_result (halted halt (rr_result run)) run) in
              Ret (rr_result run, None)
          end
      end
  end.

Definition Rollout : prog (Result * option error) :=
  if (pr_EvidenceID (rq_Prior req) =s "") || (pr_ValidatedInstanceID (rq_Prior req) =s "") ||
     bool_decide (pr_Intent (rq_Prior req) = None)
  then Ret (no_result, Some ErrPriorRequired) else
  match validatePolicy policy with
  | Some e => Ret (no_result, Some e)
  | None => roll (rq_Instances req) new_run
  end.
End Engine.
