(* ===== verification/RolloutSafety.v ===== *)
(** * What a rollout may do

    The engine's protocol, as an abstract specification over its calls: with a valid
    policy and a prior it changes an instance only if that was re-verified, below the
    blast-radius limit, and while what was measured so far is calm; a halt on what was
    measured undoes what it changed, the newest first.  [Rollout] keeps to it whatever
    its verifier and applier answer, and ends with a result that says what was done. An
    error of a call ends it as it is, with nothing undone. *)

From S2P Require Import Prelude.
From S2P Require Import GoStd.
From S2P Require Import Rollout.

(** ** Phases *)

Inductive Stage : Type :=
| Deciding
| Verified (i : Instance_) (r : Reverification)
| Changed (i : Instance_) (c : AppliedChange)
| Undoing (undo : list (Instance_ * AppliedChange))
| Broken.

(** [ph_Outcomes]: what was measured, in the order of [ph_Changed]. *)
Record Phase : Type := {
  ph_Todo : list Instance_;
  ph_Changed : list (Instance_ * AppliedChange);
  ph_Outcomes : list Outcome;
  ph_Undone : list (Instance_ * AppliedChange);
  ph_Stage : Stage;
}.

Definition set_stage (s : Stage) (ph : Phase) : Phase :=
  {| ph_Todo := ph_Todo ph; ph_Changed := ph_Changed ph; ph_Outcomes := ph_Outcomes ph;
     ph_Undone := ph_Undone ph; ph_Stage := s |}.

Definition canary (p : Policy) : nat := Z.to_nat (py_CanaryInstances p).

(** The mean of what was measured, added up in order. *)
Fixpoint total (sum : float64) (os : list Outcome) : float64 :=
  match os with
  | [] => sum
  | o :: os => total (f64_add sum (oc_RegressionPct o)) os
  end.

Definition mean (os : list Outcome) : float64 :=
  f64_div (total (f64_of_Z 0) os) (f64_of_Z (Z.of_nat (length os))).

(** A policy a rollout may follow, and what else it needs. *)
Record valid_policy (p : Policy) : Prop := {
  vp_canary : 0 < py_CanaryInstances p;
  vp_max : py_CanaryInstances p <= py_MaxAffectedInstances p;
  vp_limit : f64_ltb (py_AggregateRegressionLimitPct p) (f64_of_Z 0) = false;
  vp_local : py_RequireLocalReverification p = true;
}.

Definition ready (req : Request) : Prop :=
  valid_policy (rq_Policy req) /\ pr_EvidenceID (rq_Prior req) <> "" /\
  pr_ValidatedInstanceID (rq_Prior req) <> "" /\ is_Some (pr_Intent (rq_Prior req)).

(** No failed verification, no regression of the canary on average, and none of a later
    instance past the limit. *)
Definition calm (p : Policy) (os : list Outcome) : bool :=
  let over x := f64_ltb (py_AggregateRegressionLimitPct p) x in
  forallb (fun o => negb (oc_Failed o)) os &&
  (if Nat.leb (canary p) (length os) then negb (over (mean (take (canary p) os))) else true) &&
  forallb (fun o => negb (over (oc_RegressionPct o))) (drop (canary p) os).

Definition start (req : Request) : Phase :=
  {| ph_Todo := rq_Instances req; ph_Changed := []; ph_Outcomes := []; ph_Undone := []; ph_Stage := Deciding |}.

Section Protocol.
Context (req : Request).
Let policy : Policy := rq_Policy req.

Definition next (ph : Phase) {X} (st : call X) : X + error -> Phase :=
  match st in call X return X + error -> Phase with
  | CtxErr => fun r => match the_error r with None => ph | Some _ => set_stage Broken ph end
  | Reverify i _ => fun r =>
      match r with
      | inl v => {| ph_Todo := List.tl (ph_Todo ph); ph_Changed := ph_Changed ph; ph_Outcomes := ph_Outcomes ph;
                    ph_Undone := ph_Undone ph;
                    ph_Stage := if rv_Eligible v then Verified i v else Deciding |}
      | inr _ => set_stage Broken ph
      end
  | ApplyChange i _ => fun r =>
      match r with
      | inl c => {| ph_Todo := ph_Todo ph; ph_Changed := ph_Changed ph ++ [(i, c)]; ph_Outcomes := ph_Outcomes ph;
                    ph_Undone := ph_Undone ph; ph_Stage := Changed i c |}
      | inr _ => set_stage Broken ph
      end
  | Measure i c => fun r =>
      match r with
      | inl o => {| ph_Todo := ph_Todo ph; ph_Changed := ph_Changed ph; ph_Outcomes := ph_Outcomes ph ++ [o];
                    ph_Undone := ph_Undone ph;
                    ph_Stage := if calm policy (ph_Outcomes ph ++ [o]) then Deciding
                                else Undoing (rev (ph_Changed ph)) |}
      | inr _ => set_stage Broken ph
      end
  | Rollback i c => fun r =>
      {| ph_Todo := ph_Todo ph; ph_Changed := ph_Changed ph; ph_Outcomes := ph_Outcomes ph;
         ph_Undone := match r with inl _ => ph_Undone ph ++ [(i, c)] | inr _ => ph_Undone ph end;
         ph_Stage := match ph_Stage ph with Undoing undo => Undoing (List.tl undo) | s => s end |}
  end.

Definition allowed (ph : Phase) {X} (st : call X) : Prop :=
  match st with
  | CtxErr => ph_Stage ph = Deciding
  | Reverify i prior =>
      ready req /\ ph_Stage ph = Deciding /\ prior = rq_Prior req /\ hd_error (ph_Todo ph) = Some i /\
      Z.of_nat (length (ph_Changed ph)) < py_MaxAffectedInstances policy /\ calm policy (ph_Outcomes ph) = true
  | ApplyChange i v => ph_Stage ph = Verified i v /\ rv_Eligible v = true
  | Measure i c => ph_Stage ph = Changed i c
  | Rollback i c => exists undo, ph_Stage ph = Undoing ((i, c) :: undo)
  end.
End Protocol.

Abbreviation follows req ph := (Interleave.follows (fun now X (st : call X) => allowed req now st)
  (fun now X (st : call X) r => next req now st r) ph).

(** ** What a result says *)

Definition shows (m : gmap string InstanceResult) (i : Instance_) (status : string) : Prop :=
  exists r, m !! in_ID i = Some r /\ ir_Status r = status.

(** What became of a changed instance after a halt. *)
Definition undone (rollbacker : bool) (m : gmap string InstanceResult) (ph : Phase) (x : Instance_ * AppliedChange)
    : Prop :=
  if rollbacker
  then (shows m x.1 StatusRolledBack /\ x ∈ ph_Undone ph) \/ shows m x.1 StatusRollbackFailed
  else shows m x.1 StatusRollbackUnavailable.

(** What is reported rolled back was. *)
Definition truthful (m : gmap string InstanceResult) (ph : Phase) : Prop :=
  forall id r, m !! id = Some r -> ir_Status r = StatusRolledBack ->
    exists x, x ∈ ph_Changed ph /\ x ∈ ph_Undone ph /\ in_ID x.1 = id.

Record ended (rollbacker : bool) (req : Request) (answer : Result * option error) (ph : Phase) : Prop := {
  en_count : rs_AppliedInstances answer.1 = Z.of_nat (length (ph_Changed ph));
  en_bound : valid_policy (rq_Policy req) -> rs_AppliedInstances answer.1 <= py_MaxAffectedInstances (rq_Policy req);
  en_complete : answer.2 = None -> rs_Halted answer.1 = false ->
    ph_Todo ph = [] /\ calm (rq_Policy req) (ph_Outcomes ph) = true /\
    (forall i, i ∈ rq_Instances req -> shows (rs_Instances answer.1) i StatusApplied \/
       shows (rs_Instances answer.1) i StatusNotLocallyVerified) /\
    (forall x, x ∈ ph_Changed ph -> shows (rs_Instances answer.1) x.1 StatusApplied);
  en_limited : answer.2 = None -> rs_Halted answer.1 = true -> rs_HaltReason answer.1 = "blast_radius_limit" ->
    rs_AppliedInstances answer.1 = py_MaxAffectedInstances (rq_Policy req) /\
    calm (rq_Policy req) (ph_Outcomes ph) = true;
  en_halted : answer.2 = None -> rs_Halted answer.1 = true -> rs_HaltReason answer.1 <> "blast_radius_limit" ->
    calm (rq_Policy req) (ph_Outcomes ph) = false /\
    (forall x, x ∈ ph_Changed ph -> undone rollbacker (rs_Instances answer.1) ph x) /\
    rs_RolledBack answer.1 = Z.of_nat (length (ph_Undone ph)) /\
    (rollbacker = true ->
     rs_RolledBack answer.1 + Z.of_nat (length (rs_RollbackErrors answer.1)) = rs_AppliedInstances answer.1);
  en_stopped : answer.2 <> None -> rs_Halted answer.1 = false /\ rs_RolledBack answer.1 = 0 /\ ph_Undone ph = [] /\
    Z.of_nat (length (ph_Changed ph)) <= Z.of_nat (length (ph_Outcomes ph)) + 1 /\
    (forall x, x ∈ take (length (ph_Outcomes ph)) (ph_Changed ph) -> shows (rs_Instances answer.1) x.1 StatusApplied);
  en_truth : truthful (rs_Instances answer.1) ph;
}.

Lemma valid_spec p : validatePolicy p = None -> valid_policy p.
Proof.
  unfold validatePolicy. destruct (Z.leb_spec (py_CanaryInstances p) 0); [done|].
  destruct (Z.leb_spec (py_MaxAffectedInstances p) 0); [done|].
  destruct (Z.ltb_spec (py_MaxAffectedInstances p) (py_CanaryInstances p)); [done|].
  destruct (f64_ltb _ _) eqn:E; [done|]. destruct (py_RequireLocalReverification p) eqn:El; [|done].
  intros _. by split.
Qed.

Lemma valid_bounds p : validatePolicy p = None -> 0 < py_CanaryInstances p /\ 0 < py_MaxAffectedInstances p.
Proof. intros [H1 H2 _ _]%valid_spec. lia. Qed.

Lemma total_fold os sum : total sum os = fold_left (fun t o => f64_add t (oc_RegressionPct o)) os sum.
Proof. revert sum. induction os as [|o os IH]; intros sum; [done|]. apply IH. Qed.

Lemma averageRegression_mean os : os <> [] -> averageRegression os = mean os.
Proof. intros H. unfold averageRegression, mean. rewrite total_fold. by destruct os. Qed.

(** ** Judging *)

Lemma forallb_snoc {A} (f : A -> bool) l x : forallb f (l ++ [x]) = forallb f l && f x.
Proof. rewrite forallb_app. cbn. by rewrite andb_true_r. Qed.

(** One more outcome. *)
Lemma calm_snoc p os o : calm p os = true -> (0 < canary p)%nat ->
  calm p (os ++ [o]) =
  negb (oc_Failed o) &&
  (if Nat.ltb (length os) (canary p)
   then negb (Nat.eqb (S (length os)) (canary p) &&
              f64_ltb (py_AggregateRegressionLimitPct p) (mean (os ++ [o])))
   else negb (f64_ltb (py_AggregateRegressionLimitPct p) (oc_RegressionPct o))).
Proof.
  unfold calm. intros Hc Hp. apply andb_prop in Hc as [Hc H3]. apply andb_prop in Hc as [H1 H2].
  rewrite forallb_snoc, H1, length_app. cbn [length andb]. destruct (oc_Failed o); [done|]. cbn [negb andb].
  destruct (Nat.ltb_spec (length os) (canary p)) as [Hlt|Hge].
  - rewrite (drop_ge (os ++ [o])) by (rewrite length_app; cbn; lia). cbn [forallb]. rewrite andb_true_r.
    destruct (Nat.eqb_spec (S (length os)) (canary p)) as [He|Hne].
    + rewrite (proj2 (Nat.leb_le _ _)) by lia. by rewrite take_ge by (rewrite length_app; cbn; lia).
    + rewrite (proj2 (Nat.leb_gt _ _)) by lia. done.
  - rewrite (proj2 (Nat.leb_le (canary p) (length os + 1))) by lia.
    rewrite (proj2 (Nat.leb_le (canary p) (length os))) in H2 by lia.
    rewrite take_app_le, H2, drop_app_le, forallb_snoc, H3 by lia. done.
Qed.

(** ** Runs and phases *)

Definition none_rolled_back (m : gmap string InstanceResult) : Prop :=
  forall id r, m !! id = Some r -> ir_Status r <> StatusRolledBack.

Lemma none_truthful m ph : none_rolled_back m -> truthful m ph.
Proof. intros Hn id r Hr Hs. by destruct (Hn id r Hr). Qed.

Lemma none_insert m id r : ir_Status r <> StatusRolledBack -> none_rolled_back m -> none_rolled_back (<[id := r]> m).
Proof.
  intros Hr Hn id' r'. destruct (decide (id' = id)) as [->|Hne].
  - rewrite lookup_insert_eq. by intros [= <-].
  - rewrite lookup_insert_ne by done. apply Hn.
Qed.

Record tracks (req : Request) (run : rolloutRun) (ph : Phase) : Prop := {
  tr_changed : rr_changed run = ph_Changed ph;
  tr_count : rs_AppliedInstances (rr_result run) = Z.of_nat (length (ph_Changed ph));
  tr_outcomes : rr_canaryOutcomes run = take (canary (rq_Policy req)) (ph_Outcomes ph);
  tr_canary : length (rs_CanaryInstanceIDs (rr_result run)) = length (rr_canaryOutcomes run);
  tr_measured : length (ph_Outcomes ph) = length (ph_Changed ph);
  tr_calm : calm (rq_Policy req) (ph_Outcomes ph) = true;
  tr_fresh : rs_Halted (rr_result run) = false /\ rs_RolledBack (rr_result run) = 0 /\
             rs_RollbackErrors (rr_result run) = [] /\ ph_Undone ph = [];
  tr_shown : forall x, x ∈ ph_Changed ph -> shows (rs_Instances (rr_result run)) x.1 StatusApplied;
  tr_ids : NoDup (map (fun x => in_ID x.1) (ph_Changed ph) ++ map in_ID (ph_Todo ph));
  tr_seen : forall i, i ∈ rq_Instances req -> i ∈ ph_Todo ph \/
    shows (rs_Instances (rr_result run)) i StatusApplied \/
    shows (rs_Instances (rr_result run)) i StatusNotLocallyVerified;
  tr_bound : Z.of_nat (length (ph_Changed ph)) <= py_MaxAffectedInstances (rq_Policy req);
  tr_none : none_rolled_back (rs_Instances (rr_result run));
}.

Definition same_but_canary (r r' : Result) : Prop :=
  rs_Halted r' = rs_Halted r /\ rs_AppliedInstances r' = rs_AppliedInstances r /\
  rs_Instances r' = rs_Instances r /\ rs_RolledBack r' = rs_RolledBack r /\
  rs_RollbackErrors r' = rs_RollbackErrors r.

Lemma judge_spec p i o run os : validatePolicy p = None -> rr_canaryOutcomes run = take (canary p) os ->
  length (rs_CanaryInstanceIDs (rr_result run)) = length (rr_canaryOutcomes run) -> calm p os = true ->
  let '(halt, run') := judge p i o run in
  rr_changed run' = rr_changed run /\ same_but_canary (rr_result run) (rr_result run') /\
  halt <> "blast_radius_limit" /\ (halt =s "") = calm p (os ++ [o]) /\
  (halt = "" -> rr_canaryOutcomes run' = take (canary p) (os ++ [o]) /\
     length (rs_CanaryInstanceIDs (rr_result run')) = length (rr_canaryOutcomes run')).
Proof.
  intros Hv Ho Hid Hc. destruct (valid_bounds p Hv) as [Hpos _].
  assert (Hk : Z.of_nat (canary p) = py_CanaryInstances p) by (unfold canary; lia).
  rewrite (calm_snoc p os o Hc) by lia. unfold judge. destruct (oc_Failed o); [done|].
  rewrite Hid, Ho, length_take. cbn [negb andb].
  destruct (Nat.ltb_spec (length os) (canary p)) as [Hlt|Hge].
  - rewrite (proj2 (Z.ltb_lt _ _)) by lia. rewrite (take_ge os) by lia.
    rewrite length_app, Nat.add_comm. cbn [length Nat.add].
    assert (Hcan : (Z.of_nat (S (length os)) =? py_CanaryInstances p) = Nat.eqb (S (length os)) (canary p)).
    { destruct (Nat.eqb_spec (S (length os)) (canary p)); [apply Z.eqb_eq|apply Z.eqb_neq]; lia. }
    rewrite Hcan. rewrite averageRegression_mean by (by destruct os). split; [done|]. split; [done|].
    assert (Htake : os ++ [o] = take (canary p) (os ++ [o])) by (rewrite take_ge; [done|rewrite length_app; cbn; lia]).
    destruct (Nat.eqb (S (length os)) (canary p)); cbn [andb].
    + destruct (f64_ltb _ _); split_and!; try done. intros _. cbn.
      rewrite <- Htake, !length_app, Hid, Ho, take_ge by lia. done.
    + split_and!; try done. intros _. cbn. rewrite <- Htake, !length_app, Hid, Ho, take_ge by lia. done.
  - rewrite (proj2 (Z.ltb_ge _ _)) by lia. split; [done|]. split; [done|].
    rewrite take_app_le by lia. rewrite Hid, Ho. by destruct (f64_ltb _ _).
Qed.

Section Runs.
Context (rollbacker : bool) (req : Request).
Hypothesis Hvalid : validatePolicy (rq_Policy req) = None.
Hypothesis Hready : ready req.

(** A run whose outcomes call for a halt. *)
Record halting (run : rolloutRun) (ph : Phase) : Prop := {
  ha_changed : rr_changed run = ph_Changed ph;
  ha_count : rs_AppliedInstances (rr_result run) = Z.of_nat (length (ph_Changed ph));
  ha_calm : calm (rq_Policy req) (ph_Outcomes ph) = false;
  ha_fresh : rs_RolledBack (rr_result run) = 0 /\ rs_RollbackErrors (rr_result run) = [] /\ ph_Undone ph = [];
  ha_ids : NoDup (map (fun x => in_ID x.1) (ph_Changed ph));
  ha_bound : Z.of_nat (length (ph_Changed ph)) <= py_MaxAffectedInstances (rq_Policy req);
  ha_none : none_rolled_back (rs_Instances (rr_result run));
}.

(** A run an error ended. *)
Definition counted (run : rolloutRun) (ph : Phase) : Prop :=
  rs_Halted (rr_result run) = false /\ rs_RolledBack (rr_result run) = 0 /\ ph_Undone ph = [] /\
  Z.of_nat (length (ph_Changed ph)) <= Z.of_nat (length (ph_Outcomes ph)) + 1 /\
  (forall x, x ∈ take (length (ph_Outcomes ph)) (ph_Changed ph) ->
     shows (rs_Instances (rr_result run)) x.1 StatusApplied) /\
  rs_AppliedInstances (rr_result run) = Z.of_nat (length (ph_Changed ph)) /\
  Z.of_nat (length (ph_Changed ph)) <= py_MaxAffectedInstances (rq_Policy req) /\
  none_rolled_back (rs_Instances (rr_result run)).

Definition step_ends (rest : list Instance_) (r : string * rolloutRun + error * rolloutRun) (ph : Phase) : Prop :=
  match r with
  | inr (_, run) => counted run ph
  | inl (halt, run) =>
      ph_Todo ph = rest /\
      if halt =s "" then tracks req run ph /\ ph_Stage ph = Deciding
      else halt <> "blast_radius_limit" /\ halting run ph /\ ph_Stage ph = Undoing (rev (ph_Changed ph))
  end.

Lemma shows_other m i j r status : in_ID i <> in_ID j -> shows m i status -> shows (<[in_ID j := r]> m) i status.
Proof. intros Hne (x & Hx & Hs). exists x. by rewrite lookup_insert_ne. Qed.

Lemma shows_new m i r status : ir_Status r = status -> shows (<[in_ID i := r]> m) i status.
Proof. intros H. exists r. by rewrite lookup_insert_eq. Qed.

Lemma shows_applied_or m i j r : (ir_Status r = StatusApplied \/ ir_Status r = StatusNotLocallyVerified) ->
  shows m i StatusApplied \/ shows m i StatusNotLocallyVerified ->
  shows (<[in_ID j := r]> m) i StatusApplied \/ shows (<[in_ID j := r]> m) i StatusNotLocallyVerified.
Proof.
  intros Hr Hm. destruct (decide (in_ID i = in_ID j)) as [E|Hne].
  - destruct Hr as [Hr|Hr]; [left|right]; exists r; by rewrite E, lookup_insert_eq.
  - destruct Hm as [Hm|Hm]; [left|right]; by apply shows_other.
Qed.

Lemma follows_step i rest run ph : tracks req run ph -> ph_Stage ph = Deciding -> ph_Todo ph = i :: rest ->
  rs_AppliedInstances (rr_result run) < py_MaxAffectedInstances (rq_Policy req) ->
  follows req ph (step_ends rest) (step req i run).
Proof.
  intros [T1 T2 T3 T4 Tm T5 (T6 & T7 & T8 & T9) T10 T11 T12 T13 T14] Hs Hn Hmax. unfold step. cbn [Interleave.follows].
  split; [cbn; rewrite Hn; split; [exact Hready|]; split_and!; try done; lia|].
  assert (Hstop : forall ph', ph_Changed ph' = ph_Changed ph -> ph_Outcomes ph' = ph_Outcomes ph ->
    ph_Undone ph' = ph_Undone ph -> counted run ph').
  { intros ph' E1 E2 E3. unfold counted. rewrite E1, E2, E3, Tm. split_and!; try done; [lia|].
    intros x Hx. apply T10. by rewrite take_ge in Hx by lia. }
  intros [v|e]; [|by apply Hstop]. cbn [next]. destruct (rv_Eligible v) eqn:Ev; cbn [negb].
  2: { split; [by rewrite Hn|]. cbn. rewrite Hn. split; [|done]. rewrite Hn in T11. split; cbn; try done.
    - intros x Hx. apply shows_other; [|by apply T10]. intros E. apply NoDup_app in T11 as (_ & Hd & _).
      apply (Hd (in_ID x.1)); [|rewrite E; by left]. apply list_elem_of_In, (in_map (fun y => in_ID y.1)), list_elem_of_In, Hx.
    - apply NoDup_app in T11 as (N1 & Hd & N2). apply NoDup_cons in N2 as [_ N2]. apply NoDup_app. split; [done|].
      split; [|done]. intros x Hx Hr. apply (Hd x Hx). by right.
    - intros j Hj. rewrite Hn in T12. destruct (T12 j Hj) as [[->|Hr]%elem_of_cons|Hm]; [right; right; by apply shows_new|by left|].
      right. apply shows_applied_or; [by right|done].
    - by apply none_insert. }
  split; [done|]. intros [c|e]; [|by apply Hstop]. cbn [next]. split; [done|]. intros [o|e]; cbn [next].
  2: { cbn. unfold counted; cbn. rewrite T2, Tm, length_app. cbn. split_and!; try done; try lia.
       intros x Hx. rewrite take_app_le, take_ge in Hx by lia. by apply T10. }
  set (run1 := set_instance i (instance_result StatusApplied o) (changed i c run)).
  assert (Hj := judge_spec (rq_Policy req) i o run1 (ph_Outcomes ph) Hvalid T3 T4 T5).
  destruct (judge (rq_Policy req) i o run1) as [halt run'].
  destruct Hj as (J1 & (J2 & J3 & J4 & J5 & J6) & J7 & J8 & J9). cbn in J1, J2, J3, J4, J5, J6. clear run1. split; [cbn; by rewrite Hn|].
  cbn [ph_Todo ph_Changed ph_Outcomes ph_Undone ph_Stage].
  assert (Hch : rr_changed run' = ph_Changed ph ++ [(i, c)]) by (by rewrite J1, T1).
  assert (Hct : rs_AppliedInstances (rr_result run') = Z.of_nat (length (ph_Changed ph ++ [(i, c)]))).
  { rewrite J3, T2, length_app. cbn. lia. }
  assert (Hids : NoDup (map (fun x : Instance_ * AppliedChange => in_ID x.1) (ph_Changed ph ++ [(i, c)]) ++ map in_ID rest)).
  { rewrite Hn in T11. rewrite map_app. cbn [map fst]. by rewrite <- app_assoc. }
  assert (Hb : Z.of_nat (length (ph_Changed ph ++ [(i, c)])) <= py_MaxAffectedInstances (rq_Policy req)).
  { rewrite length_app. cbn. lia. }
  assert (Hnone : none_rolled_back (rs_Instances (rr_result run'))) by (rewrite J4; by apply none_insert).
  rewrite J8. destruct (calm (rq_Policy req) (ph_Outcomes ph ++ [o])) eqn:Ec.
  - apply String.eqb_eq in J8. destruct (J9 J8) as [K1 K2]. split; [|done]. split; cbn; try done.
    + rewrite !length_app, Tm. done.
    + split_and!; congruence.
    + intros x [Hx| ->]%elem_of_snoc; rewrite J4; [|by apply shows_new].
      destruct (decide (in_ID x.1 = in_ID i)) as [E|Hne]; [|by apply shows_other, T10].
      exists (instance_result StatusApplied o). by rewrite E, lookup_insert_eq.
    + by rewrite Hn.
    + intros j Hj'. rewrite Hn in *. rewrite J4. destruct (T12 j Hj') as [[->|Hr]%elem_of_cons|Hm]; [right; left; by apply shows_new|by left|].
      right. apply shows_applied_or; [by left|done].
  - split; [done|]. split; [|done]. split; cbn; try done.
    + split_and!; congruence.
    + by apply NoDup_app in Hids as [? _].
Qed.

(** ** Rolling back *)

Lemma nodup_inj {A B} (f : A -> B) l x y : NoDup (map f l) -> x ∈ l -> y ∈ l -> f x = f y -> x = y.
Proof.
  intros Hn. induction l as [|z l IH]; intros Hx Hy E; [by apply not_elem_of_nil in Hx|].
  cbn in Hn. apply NoDup_cons in Hn as [Hz Hn].
  assert (Hin : forall w, w ∈ l -> f w ∈ map f l) by (intros w Hw; by apply list_elem_of_In, in_map, list_elem_of_In).
  apply elem_of_cons in Hx, Hy. destruct Hx as [->|Hx], Hy as [->|Hy]; [done| | |by apply IH].
  - exfalso. apply Hz. rewrite E. by apply Hin.
  - exfalso. apply Hz. rewrite <- E. by apply Hin.
Qed.

(** What is left to undo, and what was undone. *)
Record undoing (undo : list (Instance_ * AppliedChange)) (run : rolloutRun) (ph : Phase) : Prop := {
  un_some : forall x, x ∈ undo -> x ∈ ph_Changed ph;
  un_rest : forall x, x ∈ ph_Changed ph -> x ∈ undo \/ undone rollbacker (rs_Instances (rr_result run)) ph x;
  un_ids : NoDup (map (fun x : Instance_ * AppliedChange => in_ID x.1) (ph_Changed ph));
  un_count : rs_RolledBack (rr_result run) = Z.of_nat (length (ph_Undone ph));
  un_errors : rollbacker = true -> rs_RolledBack (rr_result run) +
    Z.of_nat (length (rs_RollbackErrors (rr_result run))) + Z.of_nat (length undo) = Z.of_nat (length (ph_Changed ph));
  un_truth : truthful (rs_Instances (rr_result run)) ph;
}.

(** What rolling back leaves as it is. *)
Definition same_halt (run run' : rolloutRun) : Prop :=
  rs_Halted (rr_result run') = rs_Halted (rr_result run) /\
  rs_HaltReason (rr_result run') = rs_HaltReason (rr_result run) /\
  rs_AppliedInstances (rr_result run') = rs_AppliedInstances (rr_result run).

Lemma undone_new m ph i c r : (if rollbacker then (ir_Status r = StatusRolledBack /\ (i, c) ∈ ph_Undone ph) \/
    ir_Status r = StatusRollbackFailed else ir_Status r = StatusRollbackUnavailable) ->
  undone rollbacker (<[in_ID i := r]> m) ph (i, c).
Proof.
  intros H. unfold undone. destruct rollbacker; cbn.
  - destruct H as [[H1 H2]|H]; [left; split; [by apply shows_new|done]|right; by apply shows_new].
  - by apply shows_new.
Qed.

Lemma undone_other m ph ph' i r x : in_ID x.1 <> in_ID i -> (forall y, y ∈ ph_Undone ph -> y ∈ ph_Undone ph') ->
  undone rollbacker m ph x -> undone rollbacker (<[in_ID i := r]> m) ph' x.
Proof.
  intros Hne Hsub. unfold undone. destruct rollbacker; [|by apply shows_other].
  intros [[H1 H2]|H]; [left; split; [by apply shows_other|by apply Hsub]|right; by apply shows_other].
Qed.

(** One more change undone, or not. *)
Lemma undoing_next undo run ph i c r res ph' : undoing ((i, c) :: undo) run ph ->
  ph_Changed ph' = ph_Changed ph -> (forall y, y ∈ ph_Undone ph -> y ∈ ph_Undone ph') ->
  rs_Instances res = rs_Instances (rr_result run) ->
  rs_RolledBack res = Z.of_nat (length (ph_Undone ph')) ->
  (rollbacker = true -> rs_RolledBack res + Z.of_nat (length (rs_RollbackErrors res)) =
     rs_RolledBack (rr_result run) + Z.of_nat (length (rs_RollbackErrors (rr_result run))) + 1) ->
  (if rollbacker then (ir_Status r = StatusRolledBack /\ (i, c) ∈ ph_Undone ph') \/
    ir_Status r = StatusRollbackFailed else ir_Status r = StatusRollbackUnavailable) ->
  undoing undo (set_instance i r (set_result res run)) ph'.
Proof.
  intros [U1 U2 U3 U4 U5 U6] Hc Hsub Hi Hr Her Hst. split; cbn; rewrite ?Hc; try done.
  - intros x Hx. apply U1. by right.
  - intros x Hx. rewrite Hi. destruct (decide (in_ID x.1 = in_ID i)) as [E|Hne].
    + right. assert (x = (i, c)) as ->; [|by apply undone_new].
      eapply (nodup_inj (fun x : Instance_ * AppliedChange => in_ID x.1)); [done|done|apply U1; by left|done].
    + destruct (U2 x Hx) as [[->|Hu]%elem_of_cons|Hd]; [done|by left|right]. by eapply undone_other.
  - intros Hb. specialize (U5 Hb). specialize (Her Hb). cbn in U5. lia.
  - rewrite Hi. intros id r' Hr' Hs'. destruct (decide (id = in_ID i)) as [->|Hne].
    + rewrite lookup_insert_eq in Hr'. injection Hr' as <-. exists (i, c). rewrite Hc. split; [apply U1; by left|].
      split; [|done]. destruct rollbacker; [|by rewrite Hs' in Hst]. destruct Hst as [[_ H]|H]; [done|by rewrite Hs' in H].
    + rewrite lookup_insert_ne in Hr' by done. destruct (U6 id r' Hr' Hs') as (x & Hx1 & Hx2 & Hx3). exists x.
      rewrite Hc. split_and!; [done|by apply Hsub|done].
Qed.

Lemma follows_rollback undo run ph : undoing undo run ph ->
  (rollbacker = true -> ph_Stage ph = Undoing undo) ->
  follows req ph (fun run' ph' => undoing [] run' ph' /\ same_halt run run' /\ ph_Changed ph' = ph_Changed ph /\
    ph_Outcomes ph' = ph_Outcomes ph) (rollbackAll rollbacker undo run).
Proof.
  revert run ph. induction undo as [|[i c] undo IH]; intros run ph Hu Hs; [by split_and!|]. cbn [rollbackAll].
  destruct (negb rollbacker) eqn:Hb.
  - apply negb_true_iff in Hb. eapply follows_mono; [apply IH|].
    + refine (undoing_next undo run ph i c _ (rr_result run) ph Hu eq_refl (fun _ H => H) eq_refl (un_count _ _ _ Hu) _ _); [congruence|].
      by rewrite Hb.
    + congruence.
    + intros run' ph' (H1 & H2 & H3 & H4). split_and!; try done; by apply H2.
  - apply negb_false_iff in Hb. specialize (Hs Hb). split; [by exists undo|].
    assert (Hnext : forall run1 ph1, undoing undo run1 ph1 -> ph_Stage ph1 = Undoing undo -> same_halt run run1 ->
      ph_Changed ph1 = ph_Changed ph -> ph_Outcomes ph1 = ph_Outcomes ph ->
      follows req ph1 (fun run' ph' => undoing [] run' ph' /\ same_halt run run' /\ ph_Changed ph' = ph_Changed ph /\
        ph_Outcomes ph' = ph_Outcomes ph) (rollbackAll rollbacker undo run1)).
    { intros run1 ph1 Hu1 Hs1 (E1 & E2 & E3) Hc1 Ho1. eapply follows_mono; [by apply IH|].
      intros run' ph' (H1 & (F1 & F2 & F3) & H3 & H4). split; [done|]. split; [split_and!; congruence|].
      split; congruence. }
    intros [u|e]; cbn [next]; rewrite Hs; cbn [List.tl]; (apply Hnext; [|done..]);
      apply (undoing_next undo run ph i c _ (rolled_back _ _ (rr_result run)) _ Hu); try done; cbn.
    + intros y Hy. apply elem_of_app. by left.
    + rewrite length_app, (un_count _ _ _ Hu). cbn. lia.
    + intros _. rewrite app_nil_r. lia.
    + rewrite Hb. left. split; [done|]. apply elem_of_app. right. by apply list_elem_of_singleton.
    + rewrite (un_count _ _ _ Hu). lia.
    + intros _. rewrite length_app. cbn. lia.
    + rewrite Hb. by right.
Qed.

(** ** The whole rollout *)

Lemma follows_roll instances run ph : tracks req run ph -> ph_Stage ph = Deciding -> ph_Todo ph = instances ->
  follows req ph (ended rollbacker req) (roll rollbacker req instances run).
Proof.
  revert run ph. induction instances as [|i rest IH]; intros run ph Ht Hs Hn; cbn [roll].
  - destruct Ht as [T1 T2 T3 T4 Tm T5 (T6 & T7 & T8 & T9) T10 T11 T12 T13 T14]. split; cbn; try congruence; try done.
    + intros _ _. split_and!; try done. intros i Hi. destruct (T12 i Hi) as [Hin|H]; [|done].
      rewrite Hn in Hin. by apply not_elem_of_nil in Hin.
    + by apply none_truthful.
  - split; [done|]. intros ctx. cbn [next]. destruct (the_error ctx) as [e|].
    { destruct Ht as [T1 T2 T3 T4 Tm T5 (T6 & T7 & T8 & T9) T10 T11 T12 T13 T14].
      split; cbn; try done; [intros _; lia| |by apply none_truthful]. intros _. split_and!; try done; [lia|].
      intros x Hx. apply T10. by rewrite take_ge in Hx by lia. }
    destruct (Z.leb_spec (py_MaxAffectedInstances (rq_Policy req)) (rs_AppliedInstances (rr_result run))) as [Hmax|Hmax].
    { destruct Ht as [T1 T2 T3 T4 Tm T5 T6 T10 T11 T12 T13 T14]. split; cbn; try done. { intros _. lia. }
      { intros _ _ _. split; [lia|done]. } by apply none_truthful. }
    eapply follows_bind; [by apply follows_step|]. intros [[halt run']|[e run']] ph' Hr; cbn in Hr.
    + destruct Hr as [Hn' Hr]. destruct (halt =s "").
      * destruct Hr as [Ht' Hs']. by apply IH.
      * destruct Hr as (Hh & [H1 H2 H3 (H4 & H5 & H6) H7 H8 H9] & Hs'). eapply follows_bind.
        { rewrite H1. apply (follows_rollback (rev (ph_Changed ph')) (set_result (halted halt (rr_result run')) run') ph');
            [|by intros _]. split; cbn.
          - intros x Hx%list_elem_of_In%in_rev. by apply list_elem_of_In.
          - intros x Hx. left. apply list_elem_of_In, in_rev. rewrite rev_involutive. by apply list_elem_of_In.
          - done.
          - by rewrite H4, H6.
          - intros _. rewrite H4, H5, length_rev. cbn. lia.
          - by apply none_truthful. }
        intros run2 ph2 ([U1 U2 U3 U4 U5 U6] & (E1 & E2 & E3) & C1 & C2). cbn in E1, E2, E3.
        split; cbn; rewrite ?C1, ?C2, ?E1, ?E2, ?E3; try done; [intros _; lia|].
        intros _ _ _. split; [done|]. split; [|split; [done|]].
        -- intros x Hx. rewrite <- C1 in Hx. by destruct (U2 x Hx) as [Hx'%not_elem_of_nil|?].
        -- intros Hb. specialize (U5 Hb). cbn in U5. rewrite C1 in U5. lia.
    + destruct Hr as (H1 & H2 & H3 & H4 & H5 & H6 & H7 & H8). split; cbn; try done; [intros _; lia|by apply none_truthful].
Qed.
End Runs.

(** C33: whatever its verifier and applier answer, a rollout with distinct instances
    changes one only under a valid policy and prior, if it was re-verified, while fewer
    than the limit are changed and while the mean of the canary and every later
    instance are within the regression limit.  A halt on what was measured undoes what
    was changed, the newest first, and the result counts and reports each instance,
    done, undone or not undone.  At the limit it stops with nothing undone; after an
    error of a call, too, nothing is undone, and a change whose measurement failed is
    counted and not reported. *)
Theorem rollout_follows rollbacker (req : Request) : NoDup (map in_ID (rq_Instances req)) ->
  follows req (start req) (ended rollbacker req) (Rollout rollbacker req).
Proof.
  intros Hids. assert (Hrefused : forall e, ended rollbacker req (no_result, Some e) (start req)).
  { intros e. split; cbn; try done; [intros [H1 H2 _ _]; lia|]. intros _. split_and!; try done.
    intros x Hx. by apply not_elem_of_nil in Hx. }
  unfold Rollout. destruct (_ || _ || _) eqn:Ep; [apply Hrefused|].
  destruct (validatePolicy (rq_Policy req)) as [e|] eqn:Hv; [apply Hrefused|].
  assert (Hr : ready req).
  { apply orb_false_iff in Ep as [[E1%String.eqb_neq E2%String.eqb_neq]%orb_false_iff E3%bool_decide_eq_false].
    split; [by apply valid_spec|]. split_and!; try done. by apply not_eq_None_Some. }
  destruct (valid_bounds _ Hv) as [Hc Hmax]. apply follows_roll; [done|done| |done|done]. split; cbn; try done.
  - by rewrite take_nil.
  - unfold calm, canary. cbn. destruct (Z.to_nat _) eqn:E; [lia|done].
  - intros x Hx. by apply not_elem_of_nil in Hx.
  - intros i Hi. by left.
  - lia.
Qed.

(** Two instances, the first of them the canary. *)
Definition small_request : Request :=
  {| rq_Prior := {| pr_EvidenceID := "e"; pr_ValidatedInstanceID := "a"; pr_Intent := Some [("sql", "s")] |};
     rq_Instances := [{| in_ID := "b"; in_Class := "fleet"; in_Tags := [] |};
                      {| in_ID := "c"; in_Class := "fleet"; in_Tags := [] |}];
     rq_Policy := {| py_CanaryInstances := 1; py_MaxAffectedInstances := 2;
                     py_AggregateRegressionLimitPct := f64_of_Z 10; py_RequireLocalReverification := true;
                     py_Sources := [] |} |}.

Lemma rollout_follows_witness : validatePolicy (rq_Policy small_request) = None /\
  NoDup (map in_ID (rq_Instances small_request)) /\
  follows small_request (start small_request) (ended true small_request) (Rollout true small_request).
Proof.
  assert (Hn : NoDup (map in_ID (rq_Instances small_request))).
  { apply NoDup_cons. split; [|apply NoDup_singleton]. intros [= H]%list_elem_of_singleton. }
  split; [vm_compute; reflexivity|]. split; [exact Hn|]. apply (rollout_follows true small_request Hn).
Defined.
