(* ===== verification/Canary.v ===== *)
(** * Fleet canaries

    internal/rollout: canary.go, postgres.go and postgres_canary.go.  The canary service
    rolls a verified action out to other fleet databases, one canary at a time: its
    backend is the engine's verifier and applier, over each database's
    [CanaryTarget].  The run tables are on the control database; what a target's
    executor does is outside: an executed action is in effect until it is undone. *)

From Stdlib Require Import DecimalString DecimalZ DecimalPos.
From S2P Require Import Prelude.
From S2P Require Import GoStd.
From S2P Require Earned.
From S2P Require EarnedLedger.
From S2P Require Import Rollout.

Open Scope go_scope.

(** ** canary.go: data *)

Definition ErrInvalidCanary : error := "invalid canary request".
Definition ErrSourceNotVerified : error := "the source action is not a verified success with a rollback".
Definition ErrCanaryRunning : error := "a canary rollout is already running".

Record SourceAction : Type := {
  sa_SQL : string;
  sa_RollbackSQL : string;
  sa_ActionType : string;
  sa_Outcome : string;
  sa_Verification : string;
}.

Record CanaryOptions : Type := {
  co_CanaryInstances : Z;
  co_RegressionLimitPct : float64;
}.

(** The defaults of [NewCanaryService]. *)
Definition NewCanaryService (o : CanaryOptions) : CanaryOptions :=
  {| co_CanaryInstances := if co_CanaryInstances o <? 1 then 1 else co_CanaryInstances o;
     co_RegressionLimitPct := co_RegressionLimitPct o |}.

Record StartRequest : Type := {
  sq_SourceDatabase : string;
  sq_ActionLogID : Z;
  sq_Targets : list string;
  sq_Family : string;
  sq_Class : string;
  sq_StartedBy : string;
  sq_ApprovedBy : option Z;
}.

Record RunRecord : Type := {
  rd_EvidenceID : string;
  rd_SourceInstance : string;
  rd_PriorEvidenceID : string;
  rd_Policy : Policy;
  rd_State : string;
  rd_HaltReason : string;
  rd_AppliedInstances : Z;
  rd_CanaryInstanceIDs : list string;
  rd_AggregateRegressionPct : float64;
  rd_CreatedAt : Time;
  rd_UpdatedAt : Time;
  rd_Family : string;
  rd_Class : string;
  rd_StartedBy : string;
}.

Record InstanceRecord : Type := {
  ic_InstanceID : string;
  ic_Ordinal : Z;
  ic_Status : string;
  ic_EvidenceID : string;
  ic_ActionLogID : Z;
  ic_RegressionPct : float64;
  ic_Detail : string;
  ic_UpdatedAt : Time;
}.

(** [strconv.FormatInt] and [strconv.ParseInt] in base 10. *)
Definition FormatInt (z : Z) : string := NilZero.string_of_int (Z.to_int z).
Definition ParseInt (s : string) : Z := match NilZero.int_of_string s with Some d => Z.of_int d | None => 0 end.

Lemma ParseInt_FormatInt z : ParseInt (FormatInt z) = z.
Proof.
  unfold ParseInt, FormatInt. rewrite NilZero.isi; [apply DecimalZ.of_to| |];
    destruct z as [|p|p]; try done; cbn; intros [= H]; by apply (DecimalPos.Unsigned.to_uint_nonnil p).
Qed.

(** ** Validation *)

Definition knownClass (class : string) : bool := bool_decide (is_Some (Earned.Spec class)).

Definition humanStarter (actor : string) : bool :=
  let actor := TrimSpace actor in
  negb (existsb (HasPrefix actor) [EarnedLedger.ActorPgSage; "system"; "mcp"]) && negb (actor =s "").

Definition invalid_canary (what : string) : error := ErrInvalidCanary +:+ ": " +:+ what.

(** A target that is empty, repeated or the source. *)
Fixpoint bad_target (source : string) (seen targets : list string) : option string :=
  match targets with
  | [] => None
  | t :: rest =>
      if (TrimSpace t =s "") || existsb (fun s => s =s t) seen || (t =s source) then Some t
      else bad_target source (t :: seen) rest
  end.

Definition validateStart (req : StartRequest) : option error :=
  match bad_target (sq_SourceDatabase req) [] (sq_Targets req) with
  | Some t => Some (invalid_canary ("target " +:+ quote t +:+ " is empty, repeated or the source"))
  | None =>
      if (TrimSpace (sq_SourceDatabase req) =s "") || (sq_ActionLogID req <=? 0)
      then Some (invalid_canary "a source database and action are required") else
      if (Z.of_nat (length (sq_Targets req)) =? 0) || (100 <? Z.of_nat (length (sq_Targets req)))
      then Some (invalid_canary "1-100 target databases") else
      if negb (humanStarter (sq_StartedBy req)) then Some (invalid_canary "a canary is started by a person") else
      if (sq_Family req <>s "") && negb (Earned.KnownFamily (sq_Family req))
      then Some (invalid_canary ("unknown family " +:+ quote (sq_Family req))) else
      if (sq_Class req <>s "") && negb (knownClass (sq_Class req))
      then Some (invalid_canary ("unknown action class " +:+ quote (sq_Class req))) else None
  end.

Definition policyFor (o : CanaryOptions) (targets : Z) : Policy :=
  {| py_CanaryInstances := Z.min (co_CanaryInstances o) targets; py_MaxAffectedInstances := targets;
     py_AggregateRegressionLimitPct := co_RegressionLimitPct o; py_RequireLocalReverification := true;
     py_Sources := [] |}.

(** A successful, verified action with a rollback. *)
Definition source_verified (src : SourceAction) : bool :=
  let verified := (sa_Verification src =s "") || (sa_Verification src =s "success") in
  (sa_Outcome src =s "success") && verified && (TrimSpace (sa_SQL src) <>s "") &&
  (TrimSpace (sa_RollbackSQL src) <>s "").

(** ** Statements *)

(** The service's running flag, what a database's [CanaryTarget] does, the clock, the
    random id, and the run tables. *)
Inductive stmt : Type -> Type :=
| CompareAndSwap : stmt bool
| StoreFalse : stmt unit
| Resolve_ (database : string) : stmt unit
| GetSource (database : string) (action : Z) : stmt SourceAction
| MatchingFinding (database sql : string) : stmt (option Z)
| Execute (database : string) (finding : Z) (sql rollback : string) (approvedBy : option Z) : stmt Z
| UndoAction (database : string) (action : Z) (reason : string) : stmt unit
| ActionResult (database : string) (action : Z) : stmt (string * string)
| Settle : stmt unit
| Cancelled : stmt (option error)
| TimeNow : stmt Time
| NewRunID : stmt string
| CreateRun (r : RunRecord) : stmt unit
| UpdateRun (r : RunRecord) : stmt unit
| SaveInstance (run : string) (r : InstanceRecord) : stmt unit.

Abbreviation cprog := (Interleave.prog stmt error).

(** ** The backend of the engine *)

(** [canaryBackend]'s maps, and the order of its targets. *)
Record canaryBackend : Type := {
  cb_findings : gmap string Z;
  cb_actions : gmap string Z;
  cb_order : list string;
}.

Definition no_backend : canaryBackend := {| cb_findings := ∅; cb_actions := ∅; cb_order := [] |}.

Definition note (id : string) (b : canaryBackend) : canaryBackend :=
  {| cb_findings := cb_findings b; cb_actions := cb_actions b; cb_order := cb_order b ++ [id] |}.
Definition set_finding (id : string) (finding : Z) (b : canaryBackend) : canaryBackend :=
  {| cb_findings := <[id := finding]> (cb_findings b); cb_actions := cb_actions b; cb_order := cb_order b |}.
Definition set_action (id : string) (action : Z) (b : canaryBackend) : canaryBackend :=
  {| cb_findings := cb_findings b; cb_actions := <[id := action]> (cb_actions b); cb_order := cb_order b |}.

Definition f64_hundred : float64 := f64_of_Z 100.

(** The outcome [Measure] makes of an action's result. *)
Definition measured (change : AppliedChange) (outcome verification : string) : Outcome :=
  let failed := (verification =s "failed") || (verification =s "revert") || (verification =s "unverifiable") ||
                (outcome <>s "success") in
  {| oc_RegressionPct := if failed then f64_hundred else f64_zero;
     oc_EvidenceID := "action_log:" +:+ ac_Handle change; oc_Failed := failed;
     oc_Detail := "outcome " +:+ outcome +:+ ", verification " +:+ quote verification |}.

Section Backend.
Context (source : SourceAction) (approvedBy : option Z).

Definition backend_Reverify (b : canaryBackend) (i : Instance_) : cprog ((Reverification + error) * canaryBackend) :=
  let b := note (in_ID i) b in
  do~ target := Resolve_ (in_ID i) in
  match target with
  | inr e => Ret (inr e, b)
  | inl _ =>
      do~ found := MatchingFinding (in_ID i) (sa_SQL source) in
      Ret match found with
          | inr e => (inr e, b)
          | inl None => (inl {| rv_Eligible := false; rv_Reason := "no matching local recommendation";
                                rv_LocalEvidenceID := "" |}, b)
          | inl (Some id) => (inl {| rv_Eligible := true; rv_Reason := "";
                                     rv_LocalEvidenceID := "finding:" +:+ FormatInt id |}, set_finding (in_ID i) id b)
          end
  end.

Definition backend_Apply (b : canaryBackend) (i : Instance_) : cprog ((AppliedChange + error) * canaryBackend) :=
  do~ target := Resolve_ (in_ID i) in
  match target with
  | inr e => Ret (inr e, b)
  | inl _ =>
      let finding := default 0 (cb_findings b !! in_ID i) in
      do~ action := Execute (in_ID i) finding (sa_SQL source) (sa_RollbackSQL source) approvedBy in
      Ret match action with
          | inr e => (inr e, b)
          | inl id => (inl {| ac_Handle := FormatInt id |}, set_action (in_ID i) id b)
          end
  end.

Definition backend_Measure (b : canaryBackend) (i : Instance_) (c : AppliedChange)
    : cprog ((Outcome + error) * canaryBackend) :=
  do~ settled := Settle in
  match settled with
  | inr e => Ret (inr e, b)
  | inl _ =>
      do~ target := Resolve_ (in_ID i) in
      match target with
      | inr e => Ret (inr e, b)
      | inl _ =>
          do~ r := ActionResult (in_ID i) (ParseInt (ac_Handle c)) in
          Ret (match r with inr e => inr e | inl (outcome, verification) => inl (measured c outcome verification) end, b)
      end
  end.

Definition backend_Rollback (b : canaryBackend) (i : Instance_) (c : AppliedChange)
    : cprog ((unit + error) * canaryBackend) :=
  do~ target := Resolve_ (in_ID i) in
  match target with
  | inr e => Ret (inr e, b)
  | inl _ =>
      do~ r := UndoAction (in_ID i) (ParseInt (ac_Handle c)) "fleet canary halted: rolled back" in
      Ret (r, b)
  end.

(** [detached]: the context cannot be cancelled. *)
Definition backend (detached : bool) (X : Type) (b : canaryBackend) (c : call X)
    : cprog ((X + error) * canaryBackend) :=
  match c in call X return cprog ((X + error) * canaryBackend) with
  | CtxErr => if detached then Ret (inl None, b) else do~ e := Cancelled in Ret (e, b)
  | Reverify i _ => backend_Reverify b i
  | ApplyChange i _ => backend_Apply b i
  | Measure i c => backend_Measure b i c
  | Rollback i c => backend_Rollback b i c
  end.
End Backend.

(** [canaryBackend.records]: the instance results in rollout order. *)
Fixpoint records_from (n : Z) (order : list string) (b : canaryBackend) (result : Result) (at_ : Time)
    : list InstanceRecord :=
  match order with
  | [] => []
  | id :: rest =>
      let more := records_from (n + 1) rest b result at_ in
      match rs_Instances result !! id with
      | None => more
      | Some res =>
          {| ic_InstanceID := id; ic_Ordinal := n; ic_Status := ir_Status res; ic_EvidenceID := ir_EvidenceID res;
             ic_ActionLogID := default 0 (cb_actions b !! id); ic_RegressionPct := ir_RegressionPct res;
             ic_Detail := ir_Detail res; ic_UpdatedAt := at_ |} :: more
      end
  end.
Definition records (b : canaryBackend) (result : Result) (at_ : Time) : list InstanceRecord :=
  records_from 1 (cb_order b) b result at_.

(** ** Running a canary *)

Record preparedCanary : Type := {
  pc_record : RunRecord;
  pc_request : Request;
  pc_source : SourceAction;
  pc_approved : option Z;
}.

Definition intent_of (src : SourceAction) : list (string * string) :=
  [("action_type", sa_ActionType src); ("rollback_sql", sa_RollbackSQL src); ("sql", sa_SQL src)].

Section Service.
Context (o : CanaryOptions).

Definition verifiedSource (req : StartRequest) : cprog (SourceAction + error) :=
  do~ target := Resolve_ (sq_SourceDatabase req) in
  match target with
  | inr e => Ret (inr (invalid_canary e))
  | inl _ =>
      do~ src := GetSource (sq_SourceDatabase req) (sq_ActionLogID req) in
      Ret match src with
          | inr e => inr (ErrSourceNotVerified +:+ ": " +:+ e)
          | inl src => if source_verified src then inl src
                       else inr (ErrSourceNotVerified +:+ ": outcome " +:+ quote (sa_Outcome src) +:+
                                 ", verification " +:+ quote (sa_Verification src))
          end
  end.

Definition prepare (req : StartRequest) : cprog (preparedCanary + error) :=
  match validateStart req with
  | Some e => Ret (inr e)
  | None =>
      do* src := verifiedSource req in
      match src with
      | inr e => Ret (inr e)
      | inl src =>
          let prior := {| pr_EvidenceID := "action_log:" +:+ sq_SourceDatabase req +:+ ":" +:+ itoa (sq_ActionLogID req);
                          pr_ValidatedInstanceID := sq_SourceDatabase req; pr_Intent := Some (intent_of src) |} in
          let request := {| rq_Prior := prior;
                            rq_Instances := map (fun t => {| in_ID := t; in_Class := "fleet"; in_Tags := [] |}) (sq_Targets req);
                            rq_Policy := policyFor o (Z.of_nat (length (sq_Targets req))) |} in
          do~ now := TimeNow in
          do~ id := NewRunID in
          match now, id with
          | inl now, inl id =>
              let record := {| rd_EvidenceID := "canary-" +:+ id; rd_SourceInstance := sq_SourceDatabase req;
                               rd_PriorEvidenceID := pr_EvidenceID prior; rd_Policy := rq_Policy request;
                               rd_State := "canary"; rd_HaltReason := ""; rd_AppliedInstances := 0;
                               rd_CanaryInstanceIDs := []; rd_AggregateRegressionPct := f64_zero;
                               rd_CreatedAt := now; rd_UpdatedAt := now; rd_Family := sq_Family req;
                               rd_Class := sq_Class req; rd_StartedBy := sq_StartedBy req |} in
              do~ created := CreateRun record in
              match created with
              | inr e => Ret (inr e)
              | inl _ => Ret (inl {| pc_record := record; pc_request := request; pc_source := src;
                                     pc_approved := sq_ApprovedBy req |})
              end
          | inr e, _ | _, inr e => Ret (inr e)
          end
      end
  end.

(** What a run's record says of its result. *)
Definition finished (record : RunRecord) (result : Result) (err : option error) (now : Time) : RunRecord :=
  let '(state, reason) := match err with
                          | Some _ => ("failed", "rollout_error")
                          | None => if rs_Halted result then ("halted", rs_HaltReason result)
                                    else ("complete", rd_HaltReason record)
                          end in
  {| rd_EvidenceID := rd_EvidenceID record; rd_SourceInstance := rd_SourceInstance record;
     rd_PriorEvidenceID := rd_PriorEvidenceID record; rd_Policy := rd_Policy record; rd_State := state;
     rd_HaltReason := reason; rd_AppliedInstances := rs_AppliedInstances result;
     rd_CanaryInstanceIDs := rs_CanaryInstanceIDs result;
     rd_AggregateRegressionPct := rs_AggregateRegressionPct result; rd_CreatedAt := rd_CreatedAt record;
     rd_UpdatedAt := now; rd_Family := rd_Family record; rd_Class := rd_Class record;
     rd_StartedBy := rd_StartedBy record |}.

(** [SaveInstances] stops at the first that fails. *)
Fixpoint SaveInstances (run : string) (l : list InstanceRecord) : cprog (option error) :=
  match l with
  | [] => Ret None
  | r :: rest =>
      do~ saved := SaveInstance run r in
      match saved with
      | inr e => Ret (Some ("save rollout instance " +:+ ic_InstanceID r +:+ ": " +:+ e))
      | inl _ => SaveInstances run rest
      end
  end.

(** [execute] with the result's error, then those of its two saves. *)
Definition execute (detached : bool) (p : preparedCanary) : cprog (RunRecord * list error) :=
  do* run := interp (backend (pc_source p) (pc_approved p) detached) no_backend (Rollout true (pc_request p)) in
  let '((result, err), b) := run in
  do~ now := TimeNow in
  let now := match now with inl t => t | inr _ => 0 end in
  let record := finished (pc_record p) result err now in
  do~ updated := UpdateRun record in
  do* saved := SaveInstances (rd_EvidenceID record) (records b result now) in
  Ret (record, option_list err ++ match updated with inl _ => [] | inr e => [e] end ++ option_list saved).

(** [Run], and [Start] with its goroutine, which is [detached]; [Start] answers the
    prepared record before its goroutine runs. *)
Definition Run (detached : bool) (req : StartRequest) : cprog (RunRecord * list error + error) :=
  do~ swapped := CompareAndSwap in
  match swapped with
  | inl true =>
      do* prepared := prepare req in
      match prepared with
      | inr e => do~ _ := StoreFalse in Ret (inr e)
      | inl p =>
          do* r := execute detached p in
          do~ _ := StoreFalse in
          Ret (inl r)
      end
  | _ => Ret (inr ErrCanaryRunning)
  end.
End Service.

(** ** The system *)

(** The service, the run tables, and every target's actions, in effect or undone. *)
Record World : Type := {
  cw_Running : bool;
  cw_Runs : gmap string RunRecord;
  cw_Instances : gmap (string * string) InstanceRecord;
  cw_Actions : gmap (string * Z) bool;
}.

Definition set_running (b : bool) (w : World) : World :=
  {| cw_Running := b; cw_Runs := cw_Runs w; cw_Instances := cw_Instances w; cw_Actions := cw_Actions w |}.
Definition set_runs (m : gmap string RunRecord) (w : World) : World :=
  {| cw_Running := cw_Running w; cw_Runs := m; cw_Instances := cw_Instances w; cw_Actions := cw_Actions w |}.
Definition set_instances (m : gmap (string * string) InstanceRecord) (w : World) : World :=
  {| cw_Running := cw_Running w; cw_Runs := cw_Runs w; cw_Instances := m; cw_Actions := cw_Actions w |}.
Definition set_actions (m : gmap (string * Z) bool) (w : World) : World :=
  {| cw_Running := cw_Running w; cw_Runs := cw_Runs w; cw_Instances := cw_Instances w; cw_Actions := m |}.

(** What the world answers: the clock, the random bytes, a target's answers. *)
Record Answers : Type := {
  x_now : Time;
  x_id : string;
  x_source : SourceAction;
  x_finding : option Z;
  x_action : Z;
  x_result : string * string;
  x_cancelled : option error;
}.

(** How a statement goes; what fails may have been carried out. *)
Inductive fate : Type :=
| Done (x : Answers)
| Fails (applied : bool) (x : Answers) (e : error).

Definition oracle (f : fate) : Answers := match f with Done x => x | Fails _ x _ => x end.

(** The row [SaveInstances] writes: an id of 0 is none, a long detail is cut. *)
Definition truncateDetail (s : string) : string :=
  if 2000 <? Z.of_nat (String.length s) then String.substring 0 2000 s else s.

Definition saved_row (r : InstanceRecord) : InstanceRecord :=
  {| ic_InstanceID := ic_InstanceID r; ic_Ordinal := ic_Ordinal r; ic_Status := ic_Status r;
     ic_EvidenceID := ic_EvidenceID r; ic_ActionLogID := if 0 <? ic_ActionLogID r then ic_ActionLogID r else 0;
     ic_RegressionPct := ic_RegressionPct r; ic_Detail := truncateDetail (ic_Detail r);
     ic_UpdatedAt := ic_UpdatedAt r |}.

(** The row [Create] and [Update] write, which keeps no canary instances. *)
Definition run_row (r : RunRecord) (created : Time) : RunRecord :=
  {| rd_EvidenceID := rd_EvidenceID r; rd_SourceInstance := rd_SourceInstance r;
     rd_PriorEvidenceID := rd_PriorEvidenceID r; rd_Policy := rd_Policy r; rd_State := rd_State r;
     rd_HaltReason := rd_HaltReason r; rd_AppliedInstances := rd_AppliedInstances r; rd_CanaryInstanceIDs := [];
     rd_AggregateRegressionPct := rd_AggregateRegressionPct r; rd_CreatedAt := created;
     rd_UpdatedAt := rd_UpdatedAt r; rd_Family := rd_Family r; rd_Class := rd_Class r;
     rd_StartedBy := rd_StartedBy r |}.

(** What a statement answers and does when it is carried out; [None] what the
    constraints of the tables refuse. *)
Definition exec_done (x : Answers) {X} (st : stmt X) (w : World) : option (X * World) :=
  match st in stmt X return option (X * World) with
  | CompareAndSwap => Some (negb (cw_Running w), set_running true w)
  | StoreFalse => Some (tt, set_running false w)
  | Resolve_ _ => Some (tt, w)
  | GetSource _ _ => Some (x_source x, w)
  | MatchingFinding _ _ => Some (x_finding x, w)
  | Execute db _ _ _ _ =>
      match cw_Actions w !! (db, x_action x) with
      | None => if 0 <? x_action x then Some (x_action x, set_actions (<[(db, x_action x) := true]> (cw_Actions w)) w) else None
      | Some _ => None
      end
  | UndoAction db id _ =>
      match cw_Actions w !! (db, id) with
      | Some _ => Some (tt, set_actions (<[(db, id) := false]> (cw_Actions w)) w)
      | None => None
      end
  | ActionResult _ _ => Some (x_result x, w)
  | Settle => Some (tt, w)
  | Cancelled => Some (x_cancelled x, w)
  | TimeNow => Some (x_now x, w)
  | NewRunID => Some (x_id x, w)
  | CreateRun r =>
      match cw_Runs w !! rd_EvidenceID r with
      | None => Some (tt, set_runs (<[rd_EvidenceID r := run_row r (rd_CreatedAt r)]> (cw_Runs w)) w)
      | Some _ => None
      end
  | UpdateRun r =>
      match cw_Runs w !! rd_EvidenceID r with
      | Some old => Some (tt, set_runs (<[rd_EvidenceID r := run_row r (rd_CreatedAt old)]> (cw_Runs w)) w)
      | None => None
      end
  | SaveInstance run r =>
      match cw_Runs w !! run with
      | Some _ => Some (tt, set_instances (<[(run, ic_InstanceID r) := saved_row r]> (cw_Instances w)) w)
      | None => None
      end
  end.

(** The process's own statements do not fail. *)
Definition own {X} (st : stmt X) : bool :=
  match st with CompareAndSwap | StoreFalse | TimeNow | NewRunID => true | _ => false end.

Definition exec (f : fate) {X} (st : stmt X) (w : World) : option ((X + error) * World) :=
  match f with
  | Done x => option_map (fun r => (inl r.1, r.2)) (exec_done x st w)
  | Fails applied x e =>
      if own st then None
      else Some (inr e, if applied then match exec_done x st w with Some r => r.2 | None => w end else w)
  end.

Inductive operation : Type := OpCanary (o : CanaryOptions) (detached : bool) (req : StartRequest).

(** Other changes of a target's action log: a new action, or one undone. *)
Inductive event : Type :=
| OtherAction (database : string) (action : Z)
| OtherUndo (database : string) (action : Z).

Definition happens (e : event) (w : World) : option World :=
  match e with
  | OtherAction db id =>
      match cw_Actions w !! (db, id) with
      | None => Some (set_actions (<[(db, id) := true]> (cw_Actions w)) w)
      | Some _ => None
      end
  | OtherUndo db id =>
      match cw_Actions w !! (db, id) with
      | Some _ => Some (set_actions (<[(db, id) := false]> (cw_Actions w)) w)
      | None => None
      end
  end.

Definition program (op : operation) : cprog (RunRecord * list error + error) :=
  match op with OpCanary o detached req => Run (NewCanaryService o) detached req end.

#[export] Instance canaries : Machine stmt error fate World event operation (RunRecord * list error + error) := {
  m_exec := @exec;
  m_event := happens;
  m_program := program;
}.

Abbreviation System := (Interleave.System stmt error World operation (RunRecord * list error + error)).

(** Nothing running, nothing recorded. *)
Definition no_runs (w : World) : Prop := cw_Running w = false /\ cw_Instances w = ∅.
