(* ===== verification/CanarySafety.v ===== *)
(** * What canaries do to a fleet

    One canary runs at a time, it executes only the verified source's statements on a
    target that recommends them itself, and an instance reported as rolled back was
    undone on its target; however canaries and the targets' other actions interleave,
    and whatever fails.  The engine's protocol carries over to the service's
    statements through the backend. *)

From S2P Require Import Prelude.
From S2P Require Import GoStd.
From S2P Require Import Rollout.
From S2P Require Import RolloutSafety.
From S2P Require Import Canary.

(** ** The protocol of a canary *)

(** What a canary that holds the service knows: the source, each target's finding for
    its statement, the actions it executed and those it undid. *)
Record Held : Type := {
  he_source : option SourceAction;
  he_found : list (string * Z);
  he_done : list (string * Z);
  he_undone : list (string * Z);
}.

(** [Lost]: after an answer no target gives. *)
Inductive CanaryPhase : Type :=
| Outside
| Holding (h : Held)
| Lost.

Definition held_nothing : Held := {| he_source := None; he_found := []; he_done := []; he_undone := [] |}.
Definition know (src : SourceAction) (h : Held) : Held :=
  {| he_source := Some src; he_found := he_found h; he_done := he_done h; he_undone := he_undone h |}.
Definition find (x : string * Z) (h : Held) : Held :=
  {| he_source := he_source h; he_found := x :: he_found h; he_done := he_done h; he_undone := he_undone h |}.
Definition did (x : string * Z) (h : Held) : Held :=
  {| he_source := he_source h; he_found := he_found h; he_done := x :: he_done h; he_undone := he_undone h |}.
Definition undo (x : string * Z) (h : Held) : Held :=
  {| he_source := he_source h; he_found := he_found h; he_done := he_done h; he_undone := x :: he_undone h |}.

Definition now_held (f : Held -> Held) (ph : CanaryPhase) : CanaryPhase :=
  match ph with Holding h => Holding (f h) | _ => ph end.

Definition canary_answered (ph : CanaryPhase) {X} (st : stmt X) : X + error -> CanaryPhase :=
  match st in stmt X return X + error -> CanaryPhase with
  | CompareAndSwap => fun r => match r with inl true => Holding held_nothing | _ => Outside end
  | StoreFalse => fun _ => Outside
  | GetSource _ _ => fun r => match r with inl src => now_held (know src) ph | inr _ => ph end
  | MatchingFinding db _ => fun r => match r with inl (Some f) => now_held (find (db, f)) ph | _ => ph end
  | Execute db _ _ _ _ => fun r =>
      match r with inl id => if 0 <? id then now_held (did (db, id)) ph else Lost | inr _ => ph end
  | UndoAction db id _ => fun r => match r with inl _ => now_held (undo (db, id)) ph | inr _ => ph end
  | _ => fun _ => ph
  end.

Definition canary_next (ph : CanaryPhase) {X} (st : stmt X) (r : X + error) : CanaryPhase :=
  match ph with Lost => Lost | _ => canary_answered ph st r end.

Definition reports_truly (h : Held) (r : InstanceRecord) : Prop :=
  ic_Status r = StatusRolledBack ->
  0 < ic_ActionLogID r /\ (ic_InstanceID r, ic_ActionLogID r) ∈ he_undone h.

(** A request a person may start: 1 to 100 databases, each once and none the source,
    and a source action. *)
Record valid_start (req : StartRequest) : Prop := {
  vs_source : TrimSpace (sq_SourceDatabase req) <> "" /\ 0 < sq_ActionLogID req;
  vs_count : 1 <= Z.of_nat (length (sq_Targets req)) <= 100;
  vs_once : NoDup (sq_Targets req);
  vs_targets : forall t, t ∈ sq_Targets req -> TrimSpace t <> "" /\ t <> sq_SourceDatabase req;
  vs_person : humanStarter (sq_StartedBy req) = true;
}.

(** A source action that succeeded, was not found wanting, and can be undone. *)
Record verified_action (src : SourceAction) : Prop := {
  va_outcome : sa_Outcome src = "success";
  va_verified : sa_Verification src = "" \/ sa_Verification src = "success";
  va_sql : TrimSpace (sa_SQL src) <> "";
  va_rollback : TrimSpace (sa_RollbackSQL src) <> "";
}.

(** Nothing before it holds the service.  It reads the request's source action, asks
    each target of the request for its finding for the source's statement, executes
    that statement on that finding, as approved, looks at and undoes what it executed,
    and reports undone what is. *)
Definition canary_allowed (req : StartRequest) (ph : CanaryPhase) {X} (st : stmt X) : Prop :=
  ph = Lost \/
  match st with
  | CompareAndSwap => ph = Outside
  | Resolve_ db => exists h, ph = Holding h /\ (db = sq_SourceDatabase req \/ db ∈ sq_Targets req)
  | GetSource db id =>
      exists h, ph = Holding h /\ valid_start req /\ he_source h = None /\
        db = sq_SourceDatabase req /\ id = sq_ActionLogID req
  | MatchingFinding db sql =>
      exists h src, ph = Holding h /\ he_source h = Some src /\ sql = sa_SQL src /\ db ∈ sq_Targets req
  | Execute db f sql rollback approved =>
      exists h src, ph = Holding h /\ he_source h = Some src /\ verified_action src /\
        valid_start req /\ sql = sa_SQL src /\ rollback = sa_RollbackSQL src /\ approved = sq_ApprovedBy req /\
        (db, f) ∈ he_found h /\ db ∈ sq_Targets req
  | ActionResult db id => exists h, ph = Holding h /\ (db, id) ∈ he_done h
  | UndoAction db id _ => exists h, ph = Holding h /\ (db, id) ∈ he_done h
  | SaveInstance _ r => exists h, ph = Holding h /\ reports_truly h r
  | _ => exists h, ph = Holding h
  end.

Abbreviation keeps req ph := (Interleave.follows (fun now X (st : stmt X) => canary_allowed req now st)
  (fun now X (st : stmt X) r => canary_next now st r) ph).

(** ** The backend *)

(** The instances the engine may still come to, with the one in hand. *)
Definition pending (ph : RolloutSafety.Phase) : list string :=
  match ph_Stage ph with Verified i _ => [in_ID i] | _ => [] end ++ map in_ID (ph_Todo ph).

Definition change_id (x : Instance_ * AppliedChange) : string * Z := (in_ID x.1, ParseInt (ac_Handle x.2)).

Record backed (src : SourceAction) (targets : list string) (ph : RolloutSafety.Phase) (b : canaryBackend) (h : Held)
    : Prop := {
  ba_source : he_source h = Some src;
  ba_ids : NoDup (map (fun x => in_ID x.1) (ph_Changed ph) ++ pending ph);
  ba_targets : forall id, id ∈ pending ph -> id ∈ targets;
  ba_changed : forall x, x ∈ ph_Changed ph -> cb_actions b !! (change_id x).1 = Some (change_id x).2 /\
    0 < (change_id x).2;
  ba_undone : forall x, x ∈ ph_Undone ph -> change_id x ∈ he_undone h;
  ba_found : forall id f, cb_findings b !! id = Some f -> (id, f) ∈ he_found h;
  ba_verified : forall i v, ph_Stage ph = Verified i v -> is_Some (cb_findings b !! in_ID i);
  ba_done : forall x, x ∈ ph_Changed ph -> change_id x ∈ he_done h /\ in_ID x.1 ∈ targets;
  ba_stage : match ph_Stage ph with
             | Changed i c => (i, c) ∈ ph_Changed ph
             | Undoing l => forall x, x ∈ l -> x ∈ ph_Changed ph
             | _ => True
             end;
}.

Definition related (src : SourceAction) (targets : list string) (ph : RolloutSafety.Phase) (b : canaryBackend)
    (cph : CanaryPhase) : Prop :=
  cph = Lost \/ exists h, cph = Holding h /\ backed src targets ph b h.

Lemma keeps_lost req {A} (Q : A -> CanaryPhase -> Prop) (p : cprog A) :
  (forall a, Q a Lost) -> keeps req Lost Q p.
Proof. intros HQ. induction p as [a|X st k IH]; cbn; [apply HQ|]. split; [by left|]. intros r. apply IH. Qed.

Section Backend.
Context (sreq : StartRequest) (req : Request) (src : SourceAction).
Hypothesis Hsrc : verified_action src.
Hypothesis Hvalid : valid_start sreq.

Abbreviation Rel := (related src (sq_Targets sreq)).

Lemma related_lost ph b : Rel ph b Lost.
Proof. by left. Qed.

(** What a call's answer makes of the engine's phase, the backend and the canary's. *)
Abbreviation answers st ph := (fun r cph => Rel (RolloutSafety.next req ph st r.1) r.2 cph).

(** A call that changes nothing of what is tracked. *)
Lemma backed_broken ph b h : backed src (sq_Targets sreq) ph b h ->
  backed src (sq_Targets sreq) (set_stage Broken ph) b h.
Proof.
  intros [H1 H2 H3 H4 H5 H6 H7 H8 H9]. assert (Hp : pending (set_stage Broken ph) = map in_ID (ph_Todo ph)) by done.
  split; try done; rewrite ?Hp.
  - unfold pending in H2. destruct (ph_Stage ph); try done. cbn in H2.
    apply NoDup_app in H2 as (N1 & Hd & N2). apply NoDup_cons in N2 as [_ N2]. apply NoDup_app. split; [done|].
    split; [|done]. intros x Hx Hr. apply (Hd x Hx). by right.
  - intros id Hid. apply H3. unfold pending. apply elem_of_app. by right.
Qed.

Lemma holds_resolve {A} h db (Q : A -> CanaryPhase -> Prop) (k : unit + error -> cprog A) :
  db ∈ sq_Targets sreq -> (forall r, keeps sreq (Holding h) Q (k r)) -> keeps sreq (Holding h) Q (do~ r := Resolve_ db in k r).
Proof. intros Hdb Hk. split; [right; exists h; auto|]. intros r. apply Hk. Qed.

Lemma backend_reverify ph b h i prior : backed src (sq_Targets sreq) ph b h ->
  RolloutSafety.allowed req ph (Reverify i prior) ->
  keeps sreq (Holding h) (answers (Reverify i prior) ph) (backend_Reverify src b i).
Proof.
  intros Hb (_ & Hs & _ & Ht & _ & _). destruct (ph_Todo ph) as [|j rest] eqn:Et; [done|]. injection Ht as ->.
  assert (Hbroken : forall h' b', backed src (sq_Targets sreq) ph b' h' ->
    Rel (set_stage Broken ph) b' (Holding h')).
  { intros h' b' Hb'. right. exists h'. split; [done|]. by apply backed_broken. }
  assert (Hn : backed src (sq_Targets sreq) ph (note (in_ID i) b) h) by (destruct Hb; by split).
  assert (Hin : in_ID i ∈ sq_Targets sreq).
  { apply (ba_targets _ _ _ _ _ Hb). unfold pending. rewrite Hs, Et. by left. }
  apply holds_resolve; [done|]. intros [u|e]; [|by apply Hbroken].
  split; [right; exists h, src; split_and!; [done|apply Hb|done|done]|]. intros [[f|]|e]; cbn; [| |by apply Hbroken].
  - right. eexists. split; [done|]. destruct Hb as [H1 H2 H3 H4 H5 H6 H7 H8 H9]. split; cbn; try done.
    + unfold pending in *. cbn. rewrite Hs, Et in H2. by rewrite Et.
    + unfold pending in *. cbn. rewrite Hs, Et in H3. by rewrite Et.
    + intros id f'. destruct (decide (id = in_ID i)) as [->|Hne].
      * rewrite lookup_insert_eq. intros [= ->]. by left.
      * rewrite lookup_insert_ne by done. intros Hf. right. by apply H6.
    + intros j v [= <- _]. rewrite lookup_insert_eq. by eexists.
  - right. exists h. split; [done|]. destruct Hn as [H1 H2 H3 H4 H5 H6 H7 H8 H9]. split; cbn; try done.
    + unfold pending in *. cbn. rewrite Hs, Et in H2. cbn in H2. apply NoDup_app in H2 as (N1 & Hd & N2).
      apply NoDup_cons in N2 as [_ N2]. rewrite Et. apply NoDup_app. split; [done|].
      split; [|done]. intros x Hx Hr. apply (Hd x Hx). by right.
    + unfold pending in *. cbn. rewrite Hs, Et in H3. rewrite Et. intros id Hid. apply H3. by right.
Qed.

Lemma backend_apply ph b h i v : backed src (sq_Targets sreq) ph b h ->
  RolloutSafety.allowed req ph (ApplyChange i v) ->
  keeps sreq (Holding h) (answers (ApplyChange i v) ph) (backend_Apply src (sq_ApprovedBy sreq) b i).
Proof.
  intros Hb [Hs _]. assert (Hbroken : forall e, answers (ApplyChange i v) ph (inr e, b) (Holding h)).
  { intros e. right. exists h. split; [done|]. by apply backed_broken. }
  assert (Hid : in_ID i ∈ pending ph) by (unfold pending; rewrite Hs; by left).
  apply holds_resolve; [by apply Hb|]. intros [u|e]; [|apply Hbroken].
  destruct (ba_verified _ _ _ _ _ Hb i v Hs) as [f Hf]. rewrite Hf. split.
  - right. exists h, src. split_and!; try done; [apply Hb|by apply (ba_found _ _ _ _ _ Hb)|by apply Hb].
  - intros [id|e]; [|apply Hbroken]. cbn. destruct (Z.ltb_spec 0 id) as [Hpos|]; [|by left].
    right. eexists. split; [done|]. destruct Hb as [H1 H2 H3 H4 H5 H6 H7 H8 H9].
    assert (H2' : NoDup (map (fun x => in_ID x.1) (ph_Changed ph) ++ in_ID i :: map in_ID (ph_Todo ph))).
    { unfold pending in H2. by rewrite Hs in H2. }
    split; cbn; try done.
    + rewrite map_app, <- app_assoc. done.
    + intros j Hj. apply H3. unfold pending in *. rewrite Hs. by right.
    + intros x [Hx| ->]%elem_of_snoc.
      * rewrite lookup_insert_ne; [by apply H4|]. intros E. apply NoDup_app in H2' as (_ & Hd & _).
        apply (Hd (in_ID x.1)); [by apply list_elem_of_In, (in_map (fun y => in_ID y.1)), list_elem_of_In|].
        rewrite <- E. by left.
      * cbn. by rewrite lookup_insert_eq, ParseInt_FormatInt.
    + intros x [Hx| ->]%elem_of_snoc; [destruct (H8 x Hx); split; [by right|done]|].
      unfold change_id. cbn. rewrite ParseInt_FormatInt. split; [by left|by apply H3].
    + apply elem_of_snoc. by right.
Qed.

Lemma backend_keeps detached ph b cph X (c : call X) : Rel ph b cph -> RolloutSafety.allowed req ph c ->
  keeps sreq cph (answers c ph) (backend src (sq_ApprovedBy sreq) detached X b c).
Proof.
  intros [->|(h & -> & Hb)] Ha; [apply keeps_lost; by left|].
  assert (Hbroken : Rel (set_stage Broken ph) b (Holding h)).
  { right. exists h. split; [done|]. by apply backed_broken. }
  destruct c as [|i prior|i v|i c|i c]; cbn [backend].
  - destruct detached; [by right; exists h|]. split; [right; by exists h|]. intros r. right. exists h.
    split; [done|]. cbn. destruct (the_error r); [by apply backed_broken|done].
  - by apply backend_reverify.
  - by apply backend_apply.
  - cbn in Ha. assert (Hc := ba_stage _ _ _ _ _ Hb). rewrite Ha in Hc.
    destruct (ba_done _ _ _ _ _ Hb _ Hc) as [Hdone Hdb].
    split; [right; by exists h|]. intros [u|e]; [|done]. apply holds_resolve; [done|]. intros [u'|e]; [|done].
    split; [right; by exists h|]. intros [[o v]|e]; [|done]. right. exists h. split; [done|].
    destruct Hb as [H1 H2 H3 H4 H5 H6 H7 H8 H9].
    unfold pending in *. rewrite Ha in H2, H3. split; cbn; try done; destruct (calm _ _); try done.
    intros x Hx%list_elem_of_In%in_rev. by apply list_elem_of_In.
  - destruct Ha as [undo' Hu]. assert (Hc := ba_stage _ _ _ _ _ Hb). rewrite Hu in Hc.
    destruct (ba_done _ _ _ _ _ Hb (i, c)) as [Hdone Hdb]; [apply Hc; by left|].
    assert (Hn : forall h' u', backed src (sq_Targets sreq) ph b h' ->
      (forall x, x ∈ he_undone h' -> x ∈ he_undone h') -> (forall x, x ∈ u' -> x ∈ ph_Undone ph \/ change_id x ∈ he_undone h') ->
      backed src (sq_Targets sreq) {| ph_Todo := ph_Todo ph; ph_Changed := ph_Changed ph; ph_Outcomes := ph_Outcomes ph;
        ph_Undone := u'; ph_Stage := Undoing undo' |} b h').
    { intros h' u' [H1 H2 H3 H4 H5 H6 H7 H8 H9] _ Hx. unfold pending in *. rewrite Hu in H2, H3. split; cbn; try done.
      - intros x Hx'. destruct (Hx x Hx') as [?|?]; auto.
      - intros x Hx'. apply Hc. by right. }
    apply holds_resolve; [done|]. intros [u|e]; cbn; rewrite ?Hu; cbn [List.tl].
    2: { right. exists h. split; [done|]. apply Hn; auto. }
    split; [right; by exists h|]. intros [u'|e]; cbn; rewrite ?Hu; cbn [List.tl]; right; eexists; (split; [done|]).
    + apply Hn; [|done|].
      * destruct Hb as [H1 H2 H3 H4 H5 H6 H7 H8 H9]. split; try done. intros x Hx. right. by apply H5.
      * intros x [Hx| ->]%elem_of_snoc; [by left|right]. by left.
    + apply Hn; auto.
Qed.
End Backend.

(** ** A whole canary *)

Lemma bad_target_none source seen targets : bad_target source seen targets = None ->
  NoDup targets /\ forall t, t ∈ targets -> (t ∉ seen) /\ TrimSpace t <> "" /\ t <> source.
Proof.
  revert seen. induction targets as [|t rest IH]; intros seen H; cbn in H; [split; [constructor|by intros t []%not_elem_of_nil]|].
  destruct ((TrimSpace t =s "") || existsb _ seen || (t =s source)) eqn:E; [done|].
  apply orb_false_elim in E as [[E1%String.eqb_neq E2]%orb_false_elim E3%String.eqb_neq].
  destruct (IH _ H) as [Hn Hs]. split.
  - constructor; [|done]. intros Ht. destruct (Hs t Ht) as [Hs' _]. apply Hs'. by left.
  - intros u [->|Hu]%elem_of_cons; [split; [|done]|].
    + intros Hin. assert (existsb (fun s => s =s t) seen = true); [|congruence]. apply existsb_exists. exists t.
      split; [by apply list_elem_of_In|apply String.eqb_refl].
    + destruct (Hs u Hu) as [H1 H2]. split; [|done]. intros Hin. apply H1. by right.
Qed.

Lemma validateStart_spec req : validateStart req = None -> valid_start req.
Proof.
  unfold validateStart. destruct (bad_target _ _ _) eqn:E; [done|]. apply bad_target_none in E as [Hn Ht].
  destruct (_ || _) eqn:E1; [done|]. apply orb_false_elim in E1 as [E1%String.eqb_neq E2%Z.leb_gt].
  destruct (_ || _) eqn:E3; [done|]. apply orb_false_elim in E3 as [E3%Z.eqb_neq E4%Z.ltb_ge].
  destruct (humanStarter _) eqn:E5; [|done]. intros _. split; try done; [lia|].
  intros t Hin. by apply Ht.
Qed.

Lemma source_verified_spec src : source_verified src = true -> verified_action src.
Proof.
  unfold source_verified. intros [[[Ho%String.eqb_eq Hv%orb_prop]%andb_prop Hs]%andb_prop Hr]%andb_prop.
  apply negb_true_iff, String.eqb_neq in Hs, Hr. rewrite !String.eqb_eq in Hv. by split.
Qed.

Lemma records_say b result now n order r : r ∈ records_from n order b result now ->
  exists res, rs_Instances result !! ic_InstanceID r = Some res /\ ic_Status r = ir_Status res /\
    ic_ActionLogID r = default 0 (cb_actions b !! ic_InstanceID r).
Proof.
  revert n. induction order as [|id rest IH]; intros n; cbn [records_from]; [by intros []%not_elem_of_nil|].
  destruct (rs_Instances result !! id) as [res|] eqn:E; [|apply IH].
  intros [->|Hr]%elem_of_cons; [by exists res|by eapply IH].
Qed.

Section Service.
Context (o : CanaryOptions) (req : StartRequest).

Lemma keeps_save h run l : (forall r, r ∈ l -> reports_truly h r) ->
  keeps req (Holding h) (fun _ ph => ph = Holding h) (SaveInstances run l).
Proof.
  induction l as [|r rest IH]; intros Hl; cbn [SaveInstances]; [done|]. split.
  - right. exists h. split; [done|]. apply Hl. by left.
  - intros [u|e]; [|done]. apply IH. intros r' Hr'. apply Hl. by right.
Qed.

(** The canary still holds the service, unless it is lost. *)
Definition held (ph : CanaryPhase) : Prop := ph <> Outside.

Lemma keeps_execute detached p h : sq_ApprovedBy req = pc_approved p -> he_source h = Some (pc_source p) ->
  verified_action (pc_source p) -> he_undone h = [] -> valid_start req ->
  rq_Instances (pc_request p) = map (fun t => {| in_ID := t; in_Class := "fleet"; in_Tags := [] |}) (sq_Targets req) ->
  keeps req (Holding h) (fun _ ph => held ph) (execute detached p).
Proof.
  intros Hap Hsrc Hver Hun Hv Hinst. unfold execute.
  assert (Hnd := vs_once req Hv).
  assert (Hids : map in_ID (rq_Instances (pc_request p)) = sq_Targets req).
  { rewrite Hinst, map_map. cbn. apply map_id. }
  eapply follows_bind.
  { rewrite <- Hap. eapply follows_interp with (ph := RolloutSafety.start (pc_request p)).
    - intros ph b cph X c HR Ha. apply (backend_keeps req (pc_request p) (pc_source p) Hver Hv); [exact HR|exact Ha].
    - right. exists h. split; [done|]. split; cbn; try done.
      + unfold pending. cbn. by rewrite Hids.
      + unfold pending. cbn. by rewrite Hids.
      + intros x []%not_elem_of_nil.
      + intros x []%not_elem_of_nil.
      + intros x []%not_elem_of_nil.
    - apply (rollout_follows true). by rewrite Hids. }
  intros [[result err] b] cph (ph & He & [->|(h' & -> & Hb)]); [by apply (keeps_lost req)|]; cbn [fst snd] in *.
  split; [right; by exists h'|]. intros now. split; [right; by exists h'|]. intros updated.
  eapply follows_bind; [apply keeps_save|intros saved ph2 ->; done].
  intros r Hr Hst. destruct (records_say _ _ _ _ _ _ Hr) as (res & R1 & R2 & R3).
  rewrite R2 in Hst. destruct (en_truth _ _ _ _ He _ _ R1 Hst) as (x & X1 & X2 & X3).
  destruct (ba_changed _ _ _ _ _ Hb x X1) as [C1 C2]. cbn in C1. rewrite <- X3, C1 in R3. cbn in R3.
  rewrite R3, <- X3. split; [done|]. apply (ba_undone _ _ _ _ _ Hb x X2).
Qed.

Definition prepared_well (r : preparedCanary + error) (ph : CanaryPhase) : Prop :=
  exists h, ph = Holding h /\
  match r with
  | inr _ => True
  | inl p => sq_ApprovedBy req = pc_approved p /\ he_source h = Some (pc_source p) /\
      verified_action (pc_source p) /\ he_undone h = [] /\ valid_start req /\
      rq_Instances (pc_request p) = map (fun t => {| in_ID := t; in_Class := "fleet"; in_Tags := [] |}) (sq_Targets req)
  end.

Lemma keeps_prepare : keeps req (Holding held_nothing) prepared_well (prepare o req).
Proof.
  unfold prepare. destruct (validateStart req) as [e|] eqn:Hv; [by exists held_nothing|].
  apply validateStart_spec in Hv.
  eapply (follows_bind _ _ _ (fun r ph => exists h, ph = Holding h /\ he_undone h = [] /\
    match r with inl src => he_source h = Some src /\ verified_action src | inr _ => True end)).
  - unfold verifiedSource. split; [right; eexists; split; [done|by left]|]. intros [u|e]; [|by eexists].
    split; [right; by eexists|]. intros [src|e]; [|by eexists]. cbn.
    destruct (source_verified src) eqn:Ev; [apply source_verified_spec in Ev|]; by eexists.
  - intros [src|e] ph (h & -> & Hu & Hsrc); [|by exists h].
    split; [right; by exists h|]. intros now. split; [right; by exists h|]. intros id.
    destruct now as [now|e], id as [id|e']; try by exists h.
    split; [right; by exists h|]. intros [u|e]; [|by exists h]. exists h. split; [done|]. cbn.
    by destruct Hsrc.
Qed.

End Service.

(** C35: a canary runs its engine only while it holds the service; of a valid request it
    reads the source action, and if that succeeded and can be undone asks each target
    for its finding for the source's statement; executes that statement with its
    rollback, as approved, on a target and the finding the target reported; looks at
    and undoes only what it executed; and saves an instance as rolled back only after
    its action was undone; whatever its targets and tables answer. *)
Theorem canary_follows (o : CanaryOptions) (req : StartRequest) detached :
  keeps req Outside (fun _ _ => True) (Run o detached req).
Proof.
  unfold Run. split; [by right|]. intros [[|]|e]; cbn [canary_next canary_answered]; try done.
  eapply follows_bind; [apply keeps_prepare|]. intros [p|e] ph (h & -> & Hp).
  - destruct Hp as (H1 & H2 & H3 & H4 & H5 & H6). eapply follows_bind; [by apply keeps_execute|].
    intros r ph Hheld. split; [|done]. destruct ph as [|h'|]; [done|right; by exists h'|by left].
  - split; [right; by exists h|]. done.
Qed.

(** ** The system *)

(** An action undone stays undone. *)
Definition stay_undone (w w' : World) : Prop :=
  forall x, cw_Actions w !! x = Some false -> cw_Actions w' !! x = Some false.

Lemma stay_same w w' : cw_Actions w' = cw_Actions w -> stay_undone w w'.
Proof. intros E x. by rewrite E. Qed.

Lemma stay_insert w w' x b : (b = true -> cw_Actions w !! x = None) ->
  cw_Actions w' = <[x := b]> (cw_Actions w) -> stay_undone w w'.
Proof.
  intros Hb E y Hy. rewrite E. destruct (decide (y = x)) as [->|Hne]; [|by rewrite lookup_insert_ne].
  rewrite lookup_insert_eq. destruct b; [|done]. rewrite Hb in Hy; done.
Qed.

(** A statement is carried out or it is not; one that answers was. *)
Lemma exec_ways how X (st : stmt X) w r w' : exec how st w = Some (r, w') ->
  (exists x y, exec_done x st w = Some (y, w') /\ (r = inl y \/ own st = false /\ exists e, r = inr e)) \/
  (w' = w /\ own st = false /\ exists e, r = inr e).
Proof.
  destruct how as [x|applied x e]; cbn.
  - destruct (exec_done x st w) as [[y w1]|] eqn:E; [|done]. intros [= <- <-]. left. exists x, y. auto.
  - destruct (own st) eqn:Eo; [done|]. destruct applied.
    + destruct (exec_done x st w) as [[y w1]|] eqn:E; intros [= <- <-]; [|right; eauto]. left. exists x, y.
      split; [done|]. right. eauto.
    + intros [= <- <-]. right. eauto.
Qed.

Record done_well (x : Answers) {X} (st : stmt X) (w : World) (y : X) (w' : World) : Prop := {
  dw_undone : stay_undone w w';
  dw_running : cw_Running w' = match st with CompareAndSwap => true | StoreFalse => false | _ => cw_Running w end;
  dw_rows : cw_Instances w' = match st with
                              | SaveInstance run r => <[(run, ic_InstanceID r) := saved_row r]> (cw_Instances w)
                              | _ => cw_Instances w
                              end;
}.

Lemma exec_done_well x X (st : stmt X) w y w' : exec_done x st w = Some (y, w') -> done_well x st w y w'.
Proof.
  destruct st; cbn; try (intros [= <- <-]; split; [by apply stay_same|done|done]).
  - destruct (cw_Actions w !! _) eqn:E; [done|]. destruct (0 <? _); [|done]. intros [= <- <-].
    split; [|done|done]. by apply (stay_insert _ _ (database, x_action x) true).
  - destruct (cw_Actions w !! _) eqn:E; [|done]. intros [= <- <-].
    split; [|done|done]. by apply (stay_insert _ _ (database, action) false).
  - destruct (cw_Runs w !! _); [done|]. intros [= <- <-]. split; [by apply stay_same|done|done].
  - destruct (cw_Runs w !! _); [|done]. intros [= <- <-]. split; [by apply stay_same|done|done].
  - destruct (cw_Runs w !! _); [|done]. intros [= <- <-]. split; [by apply stay_same|done|done].
Qed.

Definition row_true (w : World) (key : string * string) (r : InstanceRecord) : Prop :=
  ic_InstanceID r = key.2 /\
  (ic_Status r = StatusRolledBack -> 0 < ic_ActionLogID r /\ cw_Actions w !! (key.2, ic_ActionLogID r) = Some false).

Definition phase_true (w : World) (ph : CanaryPhase) : Prop :=
  match ph with
  | Outside => True
  | Holding h => cw_Running w = true /\ forall x, x ∈ he_undone h -> cw_Actions w !! x = Some false
  | Lost => False
  end.

Record world_true (phs : list CanaryPhase) (w : World) : Prop := {
  wt_phases : forall ph, ph ∈ phs -> phase_true w ph;
  wt_one : forall i j h h', phs !! i = Some (Holding h) -> phs !! j = Some (Holding h') -> i = j;
  wt_rows : forall key r, cw_Instances w !! key = Some r -> row_true w key r;
}.

Lemma row_stays w w' key r : stay_undone w w' -> row_true w key r -> row_true w' key r.
Proof. intros Hs [H1 H2]. split; [done|]. intros Hr. destruct (H2 Hr). auto. Qed.

Lemma phase_stays w w' ph : stay_undone w w' -> (cw_Running w = true -> cw_Running w' = true) ->
  phase_true w ph -> phase_true w' ph.
Proof. intros Hs Hr. destruct ph; cbn; try done. intros [H1 H2]. split; auto. Qed.

(** One canary's step. *)
Lemma true_step phs w i ph ph' w' : world_true phs w -> phs !! i = Some ph ->
  (forall j ph2, j <> i -> phs !! j = Some ph2 -> phase_true w' ph2) -> phase_true w' ph' ->
  (forall h', ph' = Holding h' -> forall j h, j <> i -> phs !! j <> Some (Holding h)) ->
  (forall key r, cw_Instances w' !! key = Some r -> row_true w' key r) ->
  world_true (<[i := ph']> phs) w'.
Proof.
  intros [H1 H2 H3] Hi Hoth Hph Hone Hrows. assert (Hlt := lookup_lt_Some _ _ _ Hi). split; [|..|done].
  - intros ph2 [j Hj]%list_elem_of_lookup. destruct (decide (j = i)) as [->|Hne].
    + rewrite list_lookup_insert_eq in Hj by done. by injection Hj as <-.
    + rewrite list_lookup_insert_ne in Hj by done. by eapply Hoth.
  - intros j k h h' Hj Hk. destruct (decide (j = i)) as [->|Hji], (decide (k = i)) as [->|Hki]; [done| | |].
    + rewrite list_lookup_insert_eq in Hj by done. rewrite list_lookup_insert_ne in Hk by done.
      injection Hj as Hj. by destruct (Hone h Hj k h' Hki).
    + rewrite list_lookup_insert_eq in Hk by done. rewrite list_lookup_insert_ne in Hj by done.
      injection Hk as Hk. by destruct (Hone h' Hk j h Hji).
    + rewrite !list_lookup_insert_ne in Hj, Hk by done. by eapply H2.
Qed.

Lemma exec_stays how X (st : stmt X) w r w' : exec how st w = Some (r, w') ->
  stay_undone w w' /\ match st with CompareAndSwap | StoreFalse => True | _ => cw_Running w' = cw_Running w end.
Proof.
  intros [(x & y & Hd & _)|(-> & _)]%exec_ways; [|split; [by apply stay_same|by destruct st]].
  destruct (exec_done_well _ _ _ _ _ _ Hd) as [D1 D2 _]. split; [done|by destruct st].
Qed.

Lemma held_next how X (st : stmt X) w r w' h : exec how st w = Some (r, w') ->
  match st with CompareAndSwap | StoreFalse => False | _ => True end -> phase_true w (Holding h) ->
  phase_true w' (canary_next (Holding h) st r) /\ exists h', canary_next (Holding h) st r = Holding h'.
Proof.
  intros Hex Hst [Hr Hu]. destruct (exec_stays _ _ _ _ _ _ Hex) as [Hs Hw].
  assert (Hh : forall h', cw_Running w' = true -> (forall x, x ∈ he_undone h' -> x ∈ he_undone h \/ cw_Actions w' !! x = Some false) ->
    phase_true w' (Holding h') /\ exists h2, Holding h' = Holding h2).
  { intros h' Hr' Hx. split; [|by exists h']. split; [done|]. intros x Hin. destruct (Hx x Hin); auto. }
  assert (Hsame : cw_Running w' = true -> phase_true w' (Holding h) /\ exists h2, Holding h = Holding h2) by (intros Hr'; apply Hh; auto).
  destruct st; try done; try (apply Hsame; congruence); cbn.
  - destruct r; [apply Hh; [congruence|auto]|apply Hsame; congruence].
  - destruct r as [[f|]|e]; [apply Hh; [congruence|auto]|apply Hsame; congruence..].
  - destruct r as [id|e]; [|apply Hsame; congruence].
    apply exec_ways in Hex as [(x & y & Hd & [[= ->]|(_ & e & [=])])|(_ & _ & e & [=])]. cbn in Hd.
    destruct (cw_Actions w !! _); [done|]. destruct (0 <? x_action x) eqn:Ep; [|done]. injection Hd as <- _.
    rewrite Ep. apply Hh; [congruence|auto].
  - destruct r as [u|e]; [|apply Hsame; congruence]. apply Hh; [congruence|].
    apply exec_ways in Hex as [(x & y & Hd & [[= ->]|(_ & e & [=])])|(_ & _ & e & [=])]. cbn in Hd.
    destruct (cw_Actions w !! _); [|done]. injection Hd as _ <-.
    intros z [->|Hz]%elem_of_cons; [right|by left]. cbn. by rewrite lookup_insert_eq.
Qed.

(** The rows a canary's statement leaves. *)
Lemma rows_stay how X (st : stmt X) w r w' req ph : exec how st w = Some (r, w') -> canary_allowed req ph st ->
  phase_true w ph -> (forall key r, cw_Instances w !! key = Some r -> row_true w key r) ->
  forall key r, cw_Instances w' !! key = Some r -> row_true w' key r.
Proof.
  intros Hex Ha Hp Hrows key row Hk. destruct (exec_stays _ _ _ _ _ _ Hex) as [Hs _].
  apply exec_ways in Hex as [(x & y & Hd & _)|(-> & _)]; [|by apply Hrows].
  destruct (exec_done_well _ _ _ _ _ _ Hd) as [_ _ D3].
  destruct st; try (rewrite D3 in Hk; by eapply row_stays; [|apply Hrows]).
  rewrite D3 in Hk. destruct (decide (key = (run, ic_InstanceID r0))) as [->|Hne].
  - rewrite lookup_insert_eq in Hk. injection Hk as <-. split; [done|]. intros Hst.
    destruct Ha as [->|(h & -> & Ht)]; [done|]. destruct (Ht Hst) as [Hpos Hin]. cbn.
    rewrite (proj2 (Z.ltb_lt _ _) Hpos). split; [done|]. apply Hs. by apply Hp.
  - rewrite lookup_insert_ne in Hk by done. by eapply row_stays; [|apply Hrows].
Qed.

Lemma run_true phs w i ph how X (st : stmt X) r w' req : world_true phs w -> phs !! i = Some ph ->
  canary_allowed req ph st -> exec how st w = Some (r, w') -> world_true (<[i := canary_next ph st r]> phs) w'.
Proof.
  intros Hw Hi Ha Hex. assert (Hp : phase_true w ph) by (apply Hw, list_elem_of_lookup; by exists i).
  destruct (exec_stays _ _ _ _ _ _ Hex) as [Hs Hrun].
  assert (Hrows := rows_stay _ _ _ _ _ _ _ _ Hex Ha Hp (wt_rows _ _ Hw)).
  assert (Hoth : (cw_Running w = true -> cw_Running w' = true) -> forall j ph2, j <> i -> phs !! j = Some ph2 -> phase_true w' ph2).
  { intros Hr j ph2 _ Hj. eapply phase_stays; [done|done|]. apply Hw, list_elem_of_lookup. by exists j. }
  assert (Hone : forall h j h', ph = Holding h -> j <> i -> phs !! j <> Some (Holding h')).
  { intros h j h' -> Hne Hj. apply Hne. eapply (wt_one _ _ Hw); [exact Hj|exact Hi]. }
  destruct ph as [|h|]; [| |done].
  - destruct Ha as [Ha|Ha]; [done|]. assert (Hcas : match st with CompareAndSwap => True | _ => False end)
      by (destruct st; naive_solver).
    destruct st; try done. clear Ha.
    apply exec_ways in Hex as [(x & y & [= <- <-] & [->|(Ho & _)])|(_ & Ho & _)]; [|done..].
    apply (true_step _ w _ _ _ _ Hw Hi); [by apply Hoth| | |done]; cbn; destruct (cw_Running w) eqn:Er; cbn; try done.
    + split; [done|]. by intros z Hz%not_elem_of_nil.
    + intros h' _ j h Hne Hj. assert (Hj' : phase_true w (Holding h)) by (apply Hw, list_elem_of_lookup; by exists j).
      destruct Hj'. congruence.
  - assert (Hst : match st with CompareAndSwap | StoreFalse => False | _ => True end \/
                  match st with StoreFalse => True | _ => False end).
    { destruct st; auto. by destruct Ha. }
    destruct Hst as [Hst|Hst].
    + destruct (held_next _ _ _ _ _ _ _ Hex Hst Hp) as [Hp' [h' Hh']].
      apply (true_step _ w _ _ _ _ Hw Hi); [|done| |done].
      * apply Hoth. by destruct st; try done; rewrite Hrun.
      * intros h2 _ j h3 Hne. by apply (Hone h).
    + destruct st; try done. apply (true_step _ w _ _ _ _ Hw Hi); [|done|done|done].
      intros j [|h'|] Hne Hj; [done| |].
      * by destruct (Hone h j h' eq_refl Hne).
      * assert (Hl : phase_true w Lost) by (apply (wt_phases _ _ Hw), list_elem_of_lookup; by exists j). done.
Qed.

Lemma event_true phs w e w' : world_true phs w -> happens e w = Some w' -> world_true phs w'.
Proof.
  intros [H1 H2 H3] He.
  assert (Hs : stay_undone w w' /\ cw_Running w' = cw_Running w /\ cw_Instances w' = cw_Instances w).
  { destruct e as [db id|db id]; cbn in He; destruct (cw_Actions w !! _) eqn:E; try done; injection He as <-;
      (split; [|done]); [by apply (stay_insert _ _ (db, id) true)|by apply (stay_insert _ _ (db, id) false)]. }
  destruct Hs as (Hs & Hr & Hi). split; [|done|].
  - intros ph Hin. eapply phase_stays; [done| |by apply H1]. by rewrite Hr.
  - rewrite Hi. intros key r Hk. by eapply row_stays; [|apply H3].
Qed.

Definition req_of (op : operation) : StartRequest := match op with OpCanary _ _ req => req end.

Lemma canaries_ok (sy : System) : reachable no_runs sy ->
  exists phs, Forall2 (in_phase (fun op ph X (st : stmt X) => canary_allowed (req_of op) ph st)
    (fun ph X (st : stmt X) r => canary_next ph st r) (fun _ _ _ => True)) (sy_Threads sy) phs /\
    world_true phs (sy_Server sy).
Proof.
  apply (reachable_phases _ _ (fun _ => Outside) (fun _ _ _ => True) no_runs (fun _ w phs => world_true phs w)).
  - intros w [_ Hw]. split; [by intros ph Hp%not_elem_of_nil|done|]. by rewrite Hw.
  - intros [o detached req]. apply canary_follows.
  - intros os w phs op [H1 H2 H3]. split; [| |done].
    + intros ph [Hp| ->]%elem_of_snoc; [by apply H1|done].
    + intros i j h h' Hi Hj. assert (Hold : forall k h2, (phs ++ [Outside]) !! k = Some (Holding h2) -> phs !! k = Some (Holding h2)).
      { intros k h2 [Hk|[_ Hk]]%lookup_snoc_Some; [by destruct Hk|done]. }
      eapply H2; by apply Hold.
  - intros os w phs i op ph X st how r w' Hw _ Hi Ha Hex. by eapply run_true.
  - intros os w phs e w' Hw He. by eapply event_true.
Qed.

(** Past the service's [CompareAndSwap]. *)
Definition started {A} (p : cprog A) : bool :=
  match p with Do CompareAndSwap _ | Ret _ => false | _ => true end.

Definition under_way (sy : System) (i : nat) : bool :=
  match sy_Threads sy !! i with Some t => started t.2 | None => false end.

(** C36: at most one canary is under way, and while it is the service is marked running;
    however starts, failures and the targets' own actions interleave. *)
Theorem one_canary (sy : System) i j : reachable no_runs sy -> under_way sy i = true ->
  cw_Running (sy_Server sy) = true /\ (under_way sy j = true -> i = j).
Proof.
  intros Hr Hi. destruct (canaries_ok sy Hr) as (phs & Hf & Hw).
  assert (Hh : forall k, under_way sy k = true -> exists h, phs !! k = Some (Holding h)).
  { intros k Hk. unfold under_way in Hk. destruct (sy_Threads sy !! k) as [[op [a|X st kont]]|] eqn:Ek; try done.
    destruct (Forall2_lookup_l _ _ _ _ _ Hf Ek) as (ph & Hph & Ha & _). cbn in Ha. destruct Ha as [->|Ha].
    - assert (Hl : phase_true (sy_Server sy) Lost) by (apply Hw, list_elem_of_lookup; by exists k). done.
    - destruct st; naive_solver. }
  destruct (Hh i Hi) as [h Hp]. split.
  - assert (Ht : phase_true (sy_Server sy) (Holding h)) by (apply Hw, list_elem_of_lookup; by exists i). apply Ht.
  - intros Hj. destruct (Hh j Hj) as [h' Hp']. by eapply (wt_one _ _ Hw).
Qed.

(** C34: an instance recorded as rolled back names an action of that instance, and that
    action is undone there; however canaries, their failures and the targets' own
    actions interleave. *)
Theorem rolled_back_truly (sy : System) run id r : reachable no_runs sy ->
  cw_Instances (sy_Server sy) !! (run, id) = Some r -> ic_Status r = StatusRolledBack ->
  ic_InstanceID r = id /\ 0 < ic_ActionLogID r /\ cw_Actions (sy_Server sy) !! (id, ic_ActionLogID r) = Some false.
Proof.
  intros Hr Hrow Hst. destruct (canaries_ok sy Hr) as (phs & _ & Hw).
  destruct (wt_rows _ _ Hw _ _ Hrow) as [H1 H2]. split; [done|]. by apply H2.
Qed.

(** ** A canary that halts *)

Definition index_source : SourceAction :=
  {| sa_SQL := "CREATE INDEX i ON t (c)"; sa_RollbackSQL := "DROP INDEX i"; sa_ActionType := "create_index";
     sa_Outcome := "success"; sa_Verification := "success" |}.

(** The action log gives every action the id 7 on its own database. *)
Definition answers_with (verification : string) : Answers :=
  {| x_now := 5; x_id := "0123456789abcdef"; x_source := index_source; x_finding := Some 3; x_action := 7;
     x_result := ("success", verification); x_cancelled := None |}.

Definition two_targets : StartRequest :=
  {| sq_SourceDatabase := "orders"; sq_ActionLogID := 4; sq_Targets := ["billing"; "users"]; sq_Family := "";
     sq_Class := ""; sq_StartedBy := "ana"; sq_ApprovedBy := Some 2 |}.

Definition one_first : CanaryOptions := {| co_CanaryInstances := 1; co_RegressionLimitPct := f64_of_Z 10 |}.

Definition nothing_yet : World := {| cw_Running := false; cw_Runs := ∅; cw_Instances := ∅; cw_Actions := ∅ |}.

Definition canary_steps (n : nat) (verification : string) : list (action fate event operation) :=
  repeat (Interleave.Run 0 (Done (answers_with verification))) n.

(** The first target's action verifies, the second's does not, and both are undone; a
    second canary, started meanwhile, is refused. *)
Definition halfway : list (action fate event operation) :=
  Start (OpCanary one_first true two_targets) :: canary_steps 13 "success" ++
  [Start (OpCanary one_first true two_targets); Interleave.Run 1 (Done (answers_with "success"))].
Definition halting_run : list (action fate event operation) := halfway ++ canary_steps 16 "failed".

Definition read_canary (sy : System) :=
  (under_way sy 0, under_way sy 1, cw_Running (sy_Server sy),
   map (fun id => (fun r => (ic_Status r, ic_ActionLogID r)) <$> cw_Instances (sy_Server sy) !! ("canary-0123456789abcdef", id))
     ["billing"; "users"],
   rd_State <$> cw_Runs (sy_Server sy) !! "canary-0123456789abcdef").

Lemma halfway_ends : option_map read_canary (acts halfway (idle nothing_yet)) =
  Some (true, false, true, [None; None], Some "canary").
Proof. vm_compute. reflexivity. Qed.

Lemma halting_run_ends : option_map read_canary (acts halting_run (idle nothing_yet)) =
  Some (false, false, false, [Some ("rolled_back", 7); Some ("rolled_back", 7)], Some "halted").
Proof. vm_compute. reflexivity. Qed.

Lemma one_canary_witness : exists sy, reachable no_runs sy /\ under_way sy 0 = true /\ cw_Running (sy_Server sy) = true.
Proof.
  destruct (acts_read no_runs _ _ _ _ (conj eq_refl eq_refl : no_runs nothing_yet) halfway_ends) as (sy & Hr & H).
  injection H as Hu _ _ _ _. exists sy. split; [done|]. split; [done|]. by destruct (one_canary sy 0 0 Hr Hu).
Defined.

Lemma rolled_back_truly_witness : exists sy, reachable no_runs sy /\ cw_Actions (sy_Server sy) !! ("users", 7) = Some false.
Proof.
  destruct (acts_read no_runs _ _ _ _ (conj eq_refl eq_refl : no_runs nothing_yet) halting_run_ends) as (sy & Hr & H).
  injection H as _ _ _ _ Hrow _. exists sy. split; [done|].
  destruct (cw_Instances (sy_Server sy) !! ("canary-0123456789abcdef", "users")) as [r|] eqn:E; [|done].
  injection Hrow as Hs Hid. destruct (rolled_back_truly sy _ _ _ Hr E Hs) as (_ & _ & Hu). by rewrite Hid in Hu.
Defined.

Lemma canary_follows_witness : validateStart two_targets = None /\
  option_map (fun sy => map (fun id => cw_Actions (sy_Server sy) !! (id, 7)) ["billing"; "users"])
    (acts halfway (idle nothing_yet)) = Some [Some true; None] /\
  keeps two_targets Outside (fun _ _ => True) (Run one_first true two_targets).
Proof.
  split; [vm_compute; reflexivity|]. split; [vm_compute; reflexivity|].
  exact (canary_follows one_first two_targets true).
Defined.
