(* ===== verification/PolicyStore.v ===== *)
(** * The policy store

    internal/policy: store.go, store_approvals.go, store_queries.go and
    store_types.go.  Versions of the standing policy in sage.policy, proposals of
    people and agents, and the approvals a widening agent proposal needs.  Ratify
    is one transaction under the scope's advisory lock; the other operations are
    single statements, between which anything may happen. *)

From S2P Require Import Prelude.
From S2P Require Import GoStd.
From S2P Require Import PolicyTypes.
From S2P Require Import Document.
From S2P Require Export Interleave.

Open Scope go_scope.

(** ** store_types.go *)

Definition Scope : Type := option Z.

(** A statement's failure. *)
Definition failure : Type := error.

Inductive StoreError : Type :=
| ErrUnavailable
| ErrNotFound
| ErrVersionConflict
| ErrInvalidDocument (detail : error)
| ErrSecondApprovalRequired
| ErrSponsorCannotApprove
| ErrReasonRequired
| ErrActorRequired
| Broken (what : error) (f : failure).

Record Policy : Type := {
  po_ID : Z;
  po_Scope : Scope;
  po_Version : Z;
  po_Profile : string;
  po_Document : json;
  po_UpdatedBy : string;
  po_UpdatedAt : Time;
}.

Record PendingOutcomeChange : Type := { oc_ActionID : Z; oc_Before : string; oc_After : string }.
Definition ImpactPreview : Type := list PendingOutcomeChange.

Record Proposal : Type := {
  pp_ID : Z;
  pp_Scope : Scope;
  pp_BaseVersion : Z;
  pp_Profile : string;
  pp_Document : json;
  pp_Actor : string;
  pp_Preview : ImpactPreview;
  pp_CreatedAt : Time;
  pp_PrincipalID : string;
  pp_SponsorID : Z;
  pp_Widening : bool;
}.

Record ProposalRequest : Type := {
  pq_Scope : Scope;
  pq_ExpectedVersion : Z;
  pq_Profile : string;
  pq_Document : json;
  pq_Actor : string;
  pq_Preview : ImpactPreview;
  pq_Principal : option PrincipalRef;
}.

Record RatifyRequest : Type := {
  rq_ProposalID : Z;
  rq_ExpectedVersion : Z;
  rq_Actor : string;
  rq_ApproverUserID : Z;
  rq_Reason : string;
  rq_SingleOperatorMode : bool;
}.

Record Approval : Type := {
  ap_PolicyID : Z;
  ap_Approver : string;
  ap_ApproverUserID : Z;
  ap_Reason : string;
  ap_SingleOperator : bool;
  ap_ReviewStatus : string;
  ap_DecidedAt : Time;
}.

Definition requiredApprovals : Z := 2.

(** ** The tables *)

Definition Proposed : string := "proposed".
Definition Active : string := "active".
Definition Superseded : string := "superseded".

(** A row of sage.policy; the principal is "" and the sponsor 0 for NULL. *)
Record PolicyRow : Type := {
  pl_ID : Z;
  pl_DatabaseID : option Z;
  pl_Version : Z;
  pl_Scope : string;
  pl_Profile : string;
  pl_Doc : json;
  pl_Preview : ImpactPreview;
  pl_Status : string;
  pl_ProposedBy : string;
  pl_RatifiedBy : option string;
  pl_ProposedAt : Time;
  pl_ActivatedAt : option Time;
  pl_SupersedesID : option Z;
  pl_Principal : string;
  pl_Sponsor : Z;
  pl_Widening : bool;
}.

Record Tables : Type := {
  tb_Now : Time;
  tb_Policies : list PolicyRow;
  tb_Approvals : list Approval;
  tb_NextID : Z;
}.

Definition set_Now (t : Time) (tb : Tables) : Tables :=
  {| tb_Now := t; tb_Policies := tb_Policies tb; tb_Approvals := tb_Approvals tb;
     tb_NextID := tb_NextID tb |}.
Definition set_Policies (rows : list PolicyRow) (tb : Tables) : Tables :=
  {| tb_Now := tb_Now tb; tb_Policies := rows; tb_Approvals := tb_Approvals tb;
     tb_NextID := tb_NextID tb |}.
Definition set_Approvals (rows : list Approval) (tb : Tables) : Tables :=
  {| tb_Now := tb_Now tb; tb_Policies := tb_Policies tb; tb_Approvals := rows;
     tb_NextID := tb_NextID tb |}.
Definition set_NextID (n : Z) (tb : Tables) : Tables :=
  {| tb_Now := tb_Now tb; tb_Policies := tb_Policies tb; tb_Approvals := tb_Approvals tb;
     tb_NextID := n |}.

Definition supersede (r : PolicyRow) : PolicyRow :=
  {| pl_ID := pl_ID r; pl_DatabaseID := pl_DatabaseID r; pl_Version := pl_Version r;
     pl_Scope := pl_Scope r; pl_Profile := pl_Profile r; pl_Doc := pl_Doc r;
     pl_Preview := pl_Preview r; pl_Status := Superseded; pl_ProposedBy := pl_ProposedBy r;
     pl_RatifiedBy := pl_RatifiedBy r; pl_ProposedAt := pl_ProposedAt r;
     pl_ActivatedAt := pl_ActivatedAt r; pl_SupersedesID := pl_SupersedesID r;
     pl_Principal := pl_Principal r; pl_Sponsor := pl_Sponsor r; pl_Widening := pl_Widening r |}.

Definition activate (version : Z) (actor : string) (now : Time) (r : PolicyRow) : PolicyRow :=
  {| pl_ID := pl_ID r; pl_DatabaseID := pl_DatabaseID r; pl_Version := version;
     pl_Scope := pl_Scope r; pl_Profile := pl_Profile r; pl_Doc := pl_Doc r;
     pl_Preview := pl_Preview r; pl_Status := Active; pl_ProposedBy := pl_ProposedBy r;
     pl_RatifiedBy := Some actor; pl_ProposedAt := pl_ProposedAt r;
     pl_ActivatedAt := Some now; pl_SupersedesID := pl_SupersedesID r;
     pl_Principal := pl_Principal r; pl_Sponsor := pl_Sponsor r; pl_Widening := pl_Widening r |}.

(** [a IS NOT DISTINCT FROM b] *)
Definition same_scope (a b : Scope) : bool := bool_decide (a = b).

Definition is_active (db : Scope) (r : PolicyRow) : bool :=
  same_scope (pl_DatabaseID r) db && (pl_Status r =s Active).

(** The columns of a policy. *)
Definition scanPolicy (r : PolicyRow) : Policy :=
  {| po_ID := pl_ID r; po_Scope := pl_DatabaseID r; po_Version := pl_Version r;
     po_Profile := pl_Profile r; po_Document := pl_Doc r;
     po_UpdatedBy := default (pl_ProposedBy r) (pl_RatifiedBy r);
     po_UpdatedAt := default (pl_ProposedAt r) (pl_ActivatedAt r) |}.

(** The row of the highest version. *)
Fixpoint highest (rows : list PolicyRow) : option PolicyRow :=
  match rows with
  | [] => None
  | r :: rows' =>
      match highest rows' with
      | Some r' => if pl_Version r <? pl_Version r' then Some r' else Some r
      | None => Some r
      end
  end.

(** [currentPolicySQL] *)
Definition current (db : Scope) (tb : Tables) : option PolicyRow :=
  highest (List.filter (is_active db) (tb_Policies tb)).

(** ** store_approvals.go *)

Section Store.
Context `{GoEnv}.

(** The proposing agent's id and sponsor, and whether its proposal widens
    [document]: unreadable documents count as widening. *)
Definition proposalProvenance (request : ProposalRequest) (document : json) : string * Z * bool :=
  match pq_Principal request with
  | None => ("", 0, false)
  | Some p =>
      let '(widening, err) := WidensJSON document (pq_Document request) in
      (pr_ID p, pr_SponsorID p, widening || bool_decide (is_Some err))
  end.

(** [ON CONFLICT (policy_id, approver) DO NOTHING] *)
Definition insertApproval (policyID : Z) (request : RatifyRequest) (reason : string) (single : bool)
    (tb : Tables) : Tables :=
  let approver := TrimSpace (rq_Actor request) in
  if existsb (fun a => (ap_PolicyID a =? policyID) && (ap_Approver a =s approver)) (tb_Approvals tb)
  then tb
  else set_Approvals (tb_Approvals tb ++
         [{| ap_PolicyID := policyID; ap_Approver := approver;
             ap_ApproverUserID := rq_ApproverUserID request; ap_Reason := reason;
             ap_SingleOperator := single; ap_ReviewStatus := if single then "pending" else "";
             ap_DecidedAt := tb_Now tb |}]) tb.

(** [count(DISTINCT approver_user_id)] of the approvals not by the sponsor. *)
Definition approvers (policyID sponsor : Z) (tb : Tables) : list Z :=
  remove_dups (map ap_ApproverUserID
    (List.filter (fun a => (ap_PolicyID a =? policyID) && negb (ap_ApproverUserID a =? sponsor))
       (tb_Approvals tb))).

(** [None]: the proposal may be activated now. *)
Definition approveProposal (proposal : PolicyRow) (request : RatifyRequest) (tb : Tables)
    : option StoreError * Tables :=
  if (pl_Principal proposal =s "") || negb (pl_Widening proposal) then (None, tb) else
  if rq_ApproverUserID request <=? 0
  then (Some (ErrInvalidDocument "a widening agent proposal needs the approver's user id"), tb) else
  let reason := TrimSpace (rq_Reason request) in
  if rq_SingleOperatorMode request then
    if reason =s "" then (Some ErrReasonRequired, tb)
    else (None, insertApproval (pl_ID proposal) request reason true tb)
  else
  if (0 <? pl_Sponsor proposal) && (rq_ApproverUserID request =? pl_Sponsor proposal)
  then (Some ErrSponsorCannotApprove, tb) else
  let tb := insertApproval (pl_ID proposal) request reason false tb in
  if Z.of_nat (length (approvers (pl_ID proposal) (pl_Sponsor proposal) tb)) <? requiredApprovals
  then (Some ErrSecondApprovalRequired, tb) else (None, tb).

(** ** store_queries.go *)

Definition scopeName (scope : Scope) : string :=
  match scope with None => "global" | Some _ => "database" end.

Definition profileDocument (profile : string) : json + StoreError :=
  let marshal doc := match MarshalDocument doc with
                     | Ok j => inl j
                     | Err e => inr (ErrInvalidDocument e)
                     end in
  if profile =s "staffed" then marshal StaffedProfile
  else if profile =s "unattended" then marshal UnattendedProfile
  else inr (ErrInvalidDocument "").

Definition validateProposal (request : ProposalRequest) : option StoreError :=
  if (pq_ExpectedVersion request <=? 0) || (TrimSpace (pq_Actor request) =s "") ||
     ((pq_Profile request <>s "staffed") && (pq_Profile request <>s "unattended"))
  then Some (ErrInvalidDocument "")
  else match ParseDocument (pq_Document request) with
       | Err e => Some (ErrInvalidDocument e)
       | Ok _ => None
       end.

(** The largest value of an integer column. *)
Definition MaxInt4 : Z := 2147483647.

(** [insertProposal]: a proposal's version is its id, negated. *)
Definition proposal_row (request : ProposalRequest) (base : Policy) (id : Z) (now : Time) : PolicyRow :=
  let '(agent, sponsor, widening) := proposalProvenance request (po_Document base) in
  {| pl_ID := id; pl_DatabaseID := pq_Scope request; pl_Version := - id;
     pl_Scope := scopeName (pq_Scope request); pl_Profile := pq_Profile request;
     pl_Doc := pq_Document request; pl_Preview := pq_Preview request; pl_Status := Proposed;
     pl_ProposedBy := pq_Actor request; pl_RatifiedBy := None; pl_ProposedAt := now;
     pl_ActivatedAt := None; pl_SupersedesID := Some (po_ID base); pl_Principal := agent;
     pl_Sponsor := sponsor; pl_Widening := widening |}.

Definition proposal_of (base : Policy) (r : PolicyRow) : Proposal :=
  {| pp_ID := pl_ID r; pp_Scope := pl_DatabaseID r; pp_BaseVersion := po_Version base;
     pp_Profile := pl_Profile r; pp_Document := pl_Doc r; pp_Actor := pl_ProposedBy r;
     pp_Preview := pl_Preview r; pp_CreatedAt := pl_ProposedAt r; pp_PrincipalID := pl_Principal r;
     pp_SponsorID := pl_Sponsor r; pp_Widening := pl_Widening r |}.

(** [loadProposalForUpdate] *)
Definition open_proposal (id : Z) (tb : Tables) : option PolicyRow :=
  List.find (fun r => (pl_ID r =? id) && (pl_Status r =s Proposed)) (tb_Policies tb).

(** The two updates of [ratifyInTransaction] and [activateProposal]. *)
Definition replace (old proposal : PolicyRow) (actor : string) (tb : Tables) : Tables :=
  set_Policies (map (fun r =>
      if pl_ID r =? pl_ID proposal then activate (pl_Version old + 1) actor (tb_Now tb) r
      else if pl_ID r =? pl_ID old then supersede r else r) (tb_Policies tb)) tb.

(** The transaction of [Ratify]: what it answers, and what it commits. *)
Definition ratifyInTransaction (request : RatifyRequest) (tb : Tables)
    : (Policy + StoreError) * Tables :=
  match open_proposal (rq_ProposalID request) tb with
  | None => (inr ErrNotFound, tb)
  | Some proposal =>
      match current (pl_DatabaseID proposal) tb with
      | None => (inr ErrNotFound, tb)
      | Some old =>
          if bool_decide (pl_SupersedesID proposal <> Some (pl_ID old)) ||
             negb (pl_Version old =? rq_ExpectedVersion request)
          then (inr ErrVersionConflict, tb) else
          match approveProposal proposal request tb with
          | (Some ErrSecondApprovalRequired, tb') => (inr ErrSecondApprovalRequired, tb')
          | (Some e, _) => (inr e, tb)
          | (None, tb') =>
              if MaxInt4 <? pl_Version old + 1
              then (inr (Broken "activate policy proposal" "integer out of range"), tb) else
              (inl (scanPolicy (activate (pl_Version old + 1) (rq_Actor request) (tb_Now tb) proposal)),
               replace old proposal (rq_Actor request) tb')
          end
      end
  end.

(** ** Statements *)

Inductive stmt : Type -> Type :=
| ReadCurrent (db : Scope) : stmt (option Policy)
| InsertActive (db : Scope) (profile : string) (document : json) (actor : string) : stmt unit
| InsertProposal (request : ProposalRequest) (base : Policy) : stmt Proposal
| RatifyTx (request : RatifyRequest) : stmt (Policy + StoreError)
| ReadHistory (db : Scope) (limit : Z) : stmt (list Policy)
| ReadApprovals (policyID : Z) : stmt (list Approval)
| ReadReviews (limit : Z) : stmt (list Approval).

Abbreviation prog := (Interleave.prog stmt failure).

(** Rows in the order of a column, equal ones as they are. *)
Fixpoint insert_by {A} (before : A -> A -> bool) (x : A) (l : list A) : list A :=
  match l with
  | [] => [x]
  | y :: l' => if before x y then x :: l else y :: insert_by before x l'
  end.
Definition order_by {A} (before : A -> A -> bool) (l : list A) : list A :=
  foldr (insert_by before) [] l.

Definition history (db : Scope) (limit : Z) (tb : Tables) : list Policy :=
  take (Z.to_nat limit) (map scanPolicy (order_by (fun a b => pl_Version b <=? pl_Version a)
    (List.filter (fun r => same_scope (pl_DatabaseID r) db &&
                           ((pl_Status r =s Active) || (pl_Status r =s Superseded)))
       (tb_Policies tb)))).

Definition approvals_of (policyID : Z) (tb : Tables) : list Approval :=
  order_by (fun a b => (ap_DecidedAt a <? ap_DecidedAt b) ||
                       ((ap_DecidedAt a =? ap_DecidedAt b) && String.leb (ap_Approver a) (ap_Approver b)))
    (List.filter (fun a => ap_PolicyID a =? policyID) (tb_Approvals tb)).

Definition pending_reviews (limit : Z) (tb : Tables) : list Approval :=
  take (Z.to_nat limit) (order_by (fun a b => ap_DecidedAt a <=? ap_DecidedAt b)
    (List.filter (fun a => ap_ReviewStatus a =s "pending") (tb_Approvals tb))).

Definition exec_done {X} (st : stmt X) (tb : Tables) : option (X * Tables) :=
  match st in stmt X return option (X * Tables) with
  | ReadCurrent db => Some (option_map scanPolicy (current db tb), tb)
  | InsertActive db profile document actor =>
      if existsb (is_active db) (tb_Policies tb) then Some (tt, tb) else
      Some (tt, set_NextID (tb_NextID tb + 1) (set_Policies (tb_Policies tb ++
        [{| pl_ID := tb_NextID tb; pl_DatabaseID := db; pl_Version := 1; pl_Scope := scopeName db;
            pl_Profile := profile; pl_Doc := document; pl_Preview := []; pl_Status := Active;
            pl_ProposedBy := actor; pl_RatifiedBy := Some actor; pl_ProposedAt := tb_Now tb;
            pl_ActivatedAt := Some (tb_Now tb); pl_SupersedesID := None; pl_Principal := "";
            pl_Sponsor := 0; pl_Widening := false |}]) tb))
  | InsertProposal request base =>
      if MaxInt4 + 1 <? tb_NextID tb then None else
      let row := proposal_row request base (tb_NextID tb) (tb_Now tb) in
      Some (proposal_of base row,
            set_NextID (tb_NextID tb + 1) (set_Policies (tb_Policies tb ++ [row]) tb))
  | RatifyTx request => Some (ratifyInTransaction request tb)
  | ReadHistory db limit => Some (history db limit tb, tb)
  | ReadApprovals id => Some (approvals_of id tb, tb)
  | ReadReviews limit => Some (pending_reviews limit tb, tb)
  end.

(** A statement that fails may have been carried out nevertheless: the answer to
    a commit is lost. *)
Inductive outcome : Type :=
| Done
| Fails (applied : bool) (f : failure).

Definition exec (o : outcome) {X} (st : stmt X) (tb : Tables) : option ((X + failure) * Tables) :=
  match o with
  | Done => option_map (fun r => (inl r.1, r.2)) (exec_done st tb)
  | Fails applied f =>
      Some (inr f, if applied then match exec_done st tb with Some r => r.2 | None => tb end else tb)
  end.

(** ** store.go

    [pool]: whether the store has one. *)

Definition reading {A} (what : error) (r : A + failure) : A + StoreError :=
  match r with inl a => inl a | inr f => inr (Broken what f) end.

Definition Current (pool : bool) (scope : Scope) : prog (Policy + StoreError) :=
  if negb pool then Ret (inr ErrUnavailable) else
  do~ row := ReadCurrent scope in
  Ret match row with
      | inl (Some policy) => inl policy
      | inl None => inr ErrNotFound
      | inr f => inr (Broken "read current policy" f)
      end.

Definition Bootstrap (pool : bool) (scope : Scope) (profile actor : string)
    : prog (Policy + StoreError) :=
  do* found := Current pool scope in
  match found with
  | inr ErrNotFound =>
      match profileDocument profile with
      | inr e => Ret (inr e)
      | inl document =>
          if TrimSpace actor =s "" then Ret (inr ErrActorRequired) else
          do~ inserted := InsertActive scope profile document actor in
          match inserted with
          | inl _ => Current pool scope
          | inr f => Ret (inr (Broken "bootstrap policy" f))
          end
      end
  | _ => Ret found
  end.

Definition Propose (pool : bool) (request : ProposalRequest) : prog (Proposal + StoreError) :=
  if negb pool then Ret (inr ErrUnavailable) else
  match validateProposal request with
  | Some e => Ret (inr e)
  | None =>
      do* found := Current pool (pq_Scope request) in
      match found with
      | inr e => Ret (inr e)
      | inl base =>
          if negb (po_Version base =? pq_ExpectedVersion request) then Ret (inr ErrVersionConflict)
          else do~ r := InsertProposal request base in
               Ret (reading "insert policy proposal" r)
      end
  end.

Definition Ratify (pool : bool) (request : RatifyRequest) : prog (Policy + StoreError) :=
  if negb pool then Ret (inr ErrUnavailable) else
  if (rq_ProposalID request <=? 0) || (rq_ExpectedVersion request <=? 0) ||
     (TrimSpace (rq_Actor request) =s "")
  then Ret (inr (ErrInvalidDocument "")) else
  do~ r := RatifyTx request in
  Ret match r with inl a => a | inr f => inr (Broken "policy ratification" f) end.

(** A limit outside 1 to 1000 is 100. *)
Definition page (limit : Z) : Z := if (limit <=? 0) || (1000 <? limit) then 100 else limit.

Definition History (pool : bool) (scope : Scope) (limit : Z) : prog (list Policy + StoreError) :=
  if negb pool then Ret (inr ErrUnavailable) else
  do~ r := ReadHistory scope (page limit) in Ret (reading "read policy history" r).

Definition Approvals (pool : bool) (policyID : Z) : prog (list Approval + StoreError) :=
  if negb pool then Ret (inr ErrUnavailable) else
  do~ r := ReadApprovals policyID in Ret (reading "read policy approvals" r).

Definition PendingReviews (pool : bool) (limit : Z) : prog (list Approval + StoreError) :=
  if negb pool then Ret (inr ErrUnavailable) else
  do~ r := ReadReviews (page limit) in Ret (reading "read policy approvals" r).

(** ** The system *)

Inductive operation : Type :=
| OpCurrent (pool : bool) (scope : Scope)
| OpBootstrap (pool : bool) (scope : Scope) (profile actor : string)
| OpPropose (pool : bool) (request : ProposalRequest)
| OpRatify (pool : bool) (request : RatifyRequest)
| OpHistory (pool : bool) (scope : Scope) (limit : Z)
| OpApprovals (pool : bool) (policyID : Z)
| OpPendingReviews (pool : bool) (limit : Z).

Inductive answer : Type :=
| APolicy (r : Policy + StoreError)
| AProposal (r : Proposal + StoreError)
| APolicies (r : list Policy + StoreError)
| AApprovals (r : list Approval + StoreError).

Definition program (o : operation) : prog answer :=
  match o with
  | OpCurrent pool scope => do* r := Current pool scope in Ret (APolicy r)
  | OpBootstrap pool scope profile actor =>
      do* r := Bootstrap pool scope profile actor in Ret (APolicy r)
  | OpPropose pool request => do* r := Propose pool request in Ret (AProposal r)
  | OpRatify pool request => do* r := Ratify pool request in Ret (APolicy r)
  | OpHistory pool scope limit => do* r := History pool scope limit in Ret (APolicies r)
  | OpApprovals pool policyID => do* r := Approvals pool policyID in Ret (AApprovals r)
  | OpPendingReviews pool limit => do* r := PendingReviews pool limit in Ret (AApprovals r)
  end.

(** Time passes. *)
Definition pass (d : Duration) (tb : Tables) : option Tables :=
  if 0 <=? d then Some (set_Now (tb_Now tb + d) tb) else None.

#[export] Instance policies : Machine stmt failure outcome Tables Duration operation answer :=
  { m_exec := @exec; m_event := pass; m_program := program }.

Definition no_policies (tb : Tables) : Prop :=
  tb_Policies tb = [] /\ tb_Approvals tb = [] /\ tb_NextID tb = 1.
End Store.

Abbreviation prog := (Interleave.prog stmt failure).
Abbreviation System := (Interleave.System stmt failure Tables operation answer).
Abbreviation action := (Interleave.action outcome Duration operation).
