(* ===== verification/PolicySafety.v ===== *)
(** * What the policy store keeps

    However proposals, ratifications and bootstraps interleave: the versions of a
    scope form one chain, each the successor of the version it was judged against,
    with the highest active; and an agent's proposal that widens its predecessor
    was approved by two people other than its sponsor, or by one person with a
    reason in single-operator mode. *)

From S2P Require Import Prelude.
From S2P Require Import GoStd.
From S2P Require Import PolicyTypes.
From S2P Require Import Document.
From S2P Require Import PolicyStore.

Section Safety.
Context `{GoEnv}.

(** ** The invariant of the tables *)

(** Once in force, now or before. *)
Definition activated (r : PolicyRow) : Prop := pl_Status r = Active \/ pl_Status r = Superseded.

Section Asked.
(** The ratifications people asked for. *)
Context (asked : RatifyRequest -> Prop).

(** One person's approval of [r]. *)
Definition asked_for (r : PolicyRow) (q : RatifyRequest) : Prop :=
  asked q /\ rq_ProposalID q = pl_ID r /\ 0 < rq_ApproverUserID q.

Definition alone_with_reason (r : PolicyRow) : Prop :=
  exists q, asked_for r q /\ rq_SingleOperatorMode q = true /\ TrimSpace (rq_Reason q) <> "".

Definition two_people (r : PolicyRow) : Prop :=
  exists q q', asked_for r q /\ asked_for r q' /\ rq_ApproverUserID q <> rq_ApproverUserID q' /\
    rq_ApproverUserID q <> pl_Sponsor r /\ rq_ApproverUserID q' <> pl_Sponsor r.

Record row_ok (rows : list PolicyRow) (r : PolicyRow) : Prop := {
  ro_status : pl_Status r = Proposed \/ activated r;
  ro_base : forall b, pl_SupersedesID r = Some b -> exists rb, rb ∈ rows /\ pl_ID rb = b /\
    activated rb /\ pl_DatabaseID rb = pl_DatabaseID r /\
    (pl_Principal r <> "" -> pl_Widening r = false -> WidensJSON (pl_Doc rb) (pl_Doc r) = (false, None));
  ro_first : activated r -> pl_SupersedesID r = None -> pl_Version r = 1 /\ pl_Principal r = "";
  ro_next : activated r -> forall rb, rb ∈ rows -> pl_SupersedesID r = Some (pl_ID rb) ->
    pl_Version r = pl_Version rb + 1 /\ pl_Status rb = Superseded;
  ro_pos : activated r -> 1 <= pl_Version r;
  ro_approved : activated r -> pl_Principal r <> "" -> pl_Widening r = true ->
    alone_with_reason r \/ two_people r;
}.

Record policies_ok (rows : list PolicyRow) : Prop := {
  ps_rows : forall r, r ∈ rows -> row_ok rows r;
  ps_version : forall r r', r ∈ rows -> r' ∈ rows -> activated r -> activated r' ->
    pl_DatabaseID r = pl_DatabaseID r' -> pl_Version r = pl_Version r' -> r = r';
  ps_active : forall r, r ∈ rows -> activated r -> exists a, a ∈ rows /\ pl_Status a = Active /\
    pl_DatabaseID a = pl_DatabaseID r /\ pl_Version r <= pl_Version a;
  ps_one : forall r r', r ∈ rows -> r' ∈ rows -> pl_Status r = Active -> pl_Status r' = Active ->
    pl_DatabaseID r = pl_DatabaseID r' -> r = r';
}.

Record approval_ok (a : Approval) : Prop := {
  ao_user : 0 < ap_ApproverUserID a;
  ao_asked : exists q, asked q /\ rq_ProposalID q = ap_PolicyID a /\
    rq_ApproverUserID q = ap_ApproverUserID a;
}.

Record tables_ok (tb : Tables) : Prop := {
  to_ids : NoDup (map pl_ID (tb_Policies tb));
  to_next : forall r, r ∈ tb_Policies tb -> pl_ID r < tb_NextID tb;
  to_policies : policies_ok (tb_Policies tb);
  to_approvals : forall a, a ∈ tb_Approvals tb -> approval_ok a;
}.

(** ** Reading the tables *)

Lemma highest_in rows r : highest rows = Some r -> r ∈ rows.
Proof.
  revert r. induction rows as [|x rows IH]; intros r; [done|]. cbn.
  destruct (highest rows) as [y|] eqn:E.
  - destruct (_ <? _); intros [= <-]; apply elem_of_cons; [right; by apply IH|by left].
  - intros [= <-]. apply elem_of_cons. by left.
Qed.

Lemma highest_none rows : highest rows = None -> rows = [].
Proof. destruct rows as [|x rows]; [done|]. cbn. by destruct (highest rows) as [y|]; [destruct (_ <? _)|]. Qed.

Lemma is_active_spec db r : is_active db r = true <-> pl_DatabaseID r = db /\ pl_Status r = Active.
Proof.
  unfold is_active, same_scope. rewrite andb_true_iff, String.eqb_eq. by case_bool_decide; naive_solver.
Qed.

Lemma current_some db tb r : current db tb = Some r ->
  r ∈ tb_Policies tb /\ pl_DatabaseID r = db /\ pl_Status r = Active.
Proof. intros [Hin Ha%is_active_spec]%highest_in%list_elem_of_In%filter_In. by apply list_elem_of_In in Hin. Qed.

Lemma current_none db tb r : current db tb = None -> r ∈ tb_Policies tb -> pl_DatabaseID r = db ->
  pl_Status r <> Active.
Proof.
  intros Hn%highest_none Hin Hdb Hs. assert (Hf : List.In r (List.filter (is_active db) (tb_Policies tb))).
  { apply filter_In. split; [by apply list_elem_of_In|by apply is_active_spec]. }
  by rewrite Hn in Hf.
Qed.

Lemma open_some id tb r : open_proposal id tb = Some r ->
  r ∈ tb_Policies tb /\ pl_ID r = id /\ pl_Status r = Proposed.
Proof.
  intros [Hin Hb]%find_some. apply andb_prop in Hb as [H1%Z.eqb_eq H2%String.eqb_eq].
  by apply list_elem_of_In in Hin.
Qed.

(** ** Adding a row *)

Lemma activated_proposed r : pl_Status r = Proposed -> ~ activated r.
Proof. intros E [H1|H1]; by rewrite E in H1. Qed.

Lemma row_ok_more rows r x : (forall y, y ∈ rows -> pl_ID y < pl_ID x) ->
  row_ok rows r -> row_ok (rows ++ [x]) r.
Proof.
  intros Hnew [H1 H2 H3 H4 H5 H6]. split; try done.
  - intros b Hb. destruct (H2 b Hb) as (rb & Hin & Hr). exists rb. split; [|done].
    apply elem_of_app. by left.
  - intros Ha rb [Hin| ->%list_elem_of_singleton]%elem_of_app Hs; [by apply H4|].
    destruct (H2 _ Hs) as (y & Hy & Hid & _). specialize (Hnew y Hy). lia.
Qed.

Lemma policies_more rows x : (forall y, y ∈ rows -> pl_ID y < pl_ID x) ->
  policies_ok rows -> row_ok (rows ++ [x]) x ->
  (activated x -> pl_Status x = Active /\
     forall r, r ∈ rows -> activated r -> pl_DatabaseID r <> pl_DatabaseID x) ->
  policies_ok (rows ++ [x]).
Proof.
  intros Hnew [H1 H2 H3 H4] Hx Hact. split.
  - intros r [Hin| ->%list_elem_of_singleton]%elem_of_app; [|done]. apply row_ok_more; auto.
  - intros r r' [Hin| ->%list_elem_of_singleton]%elem_of_app
      [Hin'| ->%list_elem_of_singleton]%elem_of_app Ha Ha' Hdb Hv; auto.
    + by destruct (proj2 (Hact Ha') r Hin Ha).
    + by destruct (proj2 (Hact Ha) r' Hin' Ha').
  - intros r [Hin| ->%list_elem_of_singleton]%elem_of_app Ha.
    + destruct (H3 r Hin Ha) as (a & Ha1 & Ha2). exists a. split; [|done]. apply elem_of_app. by left.
    + exists x. split_and!; [apply elem_of_app; right; by apply list_elem_of_singleton|by apply Hact|done|lia].
  - intros r r' [Hin| ->%list_elem_of_singleton]%elem_of_app
      [Hin'| ->%list_elem_of_singleton]%elem_of_app Ha Ha' Hdb; auto.
    + assert (Hx' : activated x) by by left. by destruct (proj2 (Hact Hx') r Hin (or_introl Ha)).
    + assert (Hx' : activated x) by by left. by destruct (proj2 (Hact Hx') r' Hin' (or_introl Ha')).
Qed.

(** A new row under the next id. *)
Lemma tables_more tb x : tables_ok tb -> pl_ID x = tb_NextID tb ->
  row_ok (tb_Policies tb ++ [x]) x ->
  (activated x -> pl_Status x = Active /\
     forall r, r ∈ tb_Policies tb -> activated r -> pl_DatabaseID r <> pl_DatabaseID x) ->
  tables_ok (set_NextID (tb_NextID tb + 1) (set_Policies (tb_Policies tb ++ [x]) tb)).
Proof.
  intros [H1 H2 H3 H4] Hid Hx Hact. assert (Hnew : forall y, y ∈ tb_Policies tb -> pl_ID y < pl_ID x).
  { intros y Hy. rewrite Hid. by apply H2. }
  split; cbn; try done.
  - rewrite map_app. apply NoDup_app. split_and!; [done| |apply NoDup_singleton].
    intros i (y & -> & Hy)%list_elem_of_fmap Hi%list_elem_of_singleton. specialize (Hnew y Hy). cbn in Hi. lia.
  - intros r [Hin| ->%list_elem_of_singleton]%elem_of_app; [specialize (H2 r Hin)|]; lia.
  - by apply policies_more.
Qed.

(** ** Ratifying *)

Section Replace.
Context (tb : Tables) (old p : PolicyRow) (actor : string).
Context (Htb : tables_ok tb) (Hp : p ∈ tb_Policies tb) (Hps : pl_Status p = Proposed).
Context (Hold : current (pl_DatabaseID p) tb = Some old) (Hbase : pl_SupersedesID p = Some (pl_ID old)).

(** What becomes of a row. *)
Definition becomes (r : PolicyRow) : PolicyRow :=
  if pl_ID r =? pl_ID p then activate (pl_Version old + 1) actor (tb_Now tb) r
  else if pl_ID r =? pl_ID old then supersede r else r.

Lemma becomes_keeps r : pl_ID (becomes r) = pl_ID r /\ pl_DatabaseID (becomes r) = pl_DatabaseID r /\
  pl_Doc (becomes r) = pl_Doc r /\ pl_SupersedesID (becomes r) = pl_SupersedesID r /\
  pl_Principal (becomes r) = pl_Principal r /\ pl_Sponsor (becomes r) = pl_Sponsor r /\
  pl_Widening (becomes r) = pl_Widening r.
Proof. unfold becomes. by destruct (_ =? _); [|destruct (_ =? _)]. Qed.

Let Hids := to_ids _ Htb.

Lemma old_in : old ∈ tb_Policies tb /\ pl_DatabaseID old = pl_DatabaseID p /\ pl_Status old = Active.
Proof. by apply current_some. Qed.

Lemma old_not_p : pl_ID old <> pl_ID p.
Proof.
  intros E. destruct old_in as (Hin & _ & Hs).
  assert (old = p) as -> by by apply (nodup_map_inj pl_ID (tb_Policies tb)). by rewrite Hs in Hps.
Qed.

(** A row is the proposal, the version it replaces, or as it was. *)
Lemma becomes_cases r : r ∈ tb_Policies tb ->
  (r = p /\ becomes r = activate (pl_Version old + 1) actor (tb_Now tb) p) \/
  (r = old /\ becomes r = supersede old) \/ (r <> p /\ r <> old /\ becomes r = r).
Proof.
  intros Hr. unfold becomes. destruct (Z.eqb_spec (pl_ID r) (pl_ID p)) as [E|E].
  - left. assert (r = p) as -> by by apply (nodup_map_inj pl_ID (tb_Policies tb)). done.
  - destruct (Z.eqb_spec (pl_ID r) (pl_ID old)) as [E'|E'].
    + right. left. assert (r = old) as -> by (apply (nodup_map_inj pl_ID (tb_Policies tb)); try done; apply old_in).
      done.
    + right. right. split_and!; congruence.
Qed.

Lemma becomes_activated r : r ∈ tb_Policies tb -> activated r -> activated (becomes r).
Proof.
  intros Hr Ha. destruct (becomes_cases r Hr) as [[-> _]|[[-> ->]|(_ & _ & ->)]]; [|by right|done].
  by apply activated_proposed in Hps.
Qed.

Lemma activated_becomes r : r ∈ tb_Policies tb -> activated (becomes r) -> r = p \/ activated r.
Proof.
  intros Hr Ha. destruct (becomes_cases r Hr) as [[-> _]|[[-> _]|(_ & _ & E)]]; [by left|right; by left; apply old_in|].
  right. by rewrite <- E.
Qed.

Lemma becomes_version r : r ∈ tb_Policies tb -> r <> p -> pl_Version (becomes r) = pl_Version r.
Proof. intros Hr Hne. by destruct (becomes_cases r Hr) as [[-> _]|[[-> ->]|(_ & _ & ->)]]. Qed.

(** The versions of the scope are below the next one. *)
Lemma below_next r : r ∈ tb_Policies tb -> activated r -> pl_DatabaseID r = pl_DatabaseID p ->
  pl_Version r <= pl_Version old.
Proof.
  intros Hr Ha Hdb. destruct (ps_active _ (to_policies _ Htb) r Hr Ha) as (a & Hin & Hs & Hda & Hv).
  destruct old_in as (Ho & Hdo & Hso).
  assert (a = old) as -> by (apply (ps_one _ (to_policies _ Htb)); try done; congruence). done.
Qed.

Context (Happroved : pl_Principal p <> "" -> pl_Widening p = true -> alone_with_reason p \/ two_people p).

Lemma becomes_ok r : r ∈ tb_Policies tb -> row_ok (map becomes (tb_Policies tb)) (becomes r).
Proof.
  intros Hr. destruct (ps_rows _ (to_policies _ Htb) r Hr) as [H1 H2 H3 H4 H5 H6].
  destruct (becomes_keeps r) as (K1 & K2 & K3 & K4 & K5 & K6 & K7). split.
  - destruct (becomes_cases r Hr) as [[_ ->]|[[_ ->]|(_ & _ & ->)]]; [right; by left|right; by right|done].
  - intros b. rewrite K4. intros Hb. destruct (H2 b Hb) as (rb & Hin & Hid & Ha & Hdb & Hw).
    exists (becomes rb). destruct (becomes_keeps rb) as (B1 & B2 & B3 & _).
    split_and!; [by apply list_elem_of_fmap_2|congruence|by apply becomes_activated|congruence|].
    by rewrite B3, K3, K5, K7.
  - rewrite K4, K5. intros Ha Hb. destruct (activated_becomes r Hr Ha) as [->|Ha']; [congruence|].
    destruct (H3 Ha' Hb) as [Hv Hpr]. split; [|done].
    rewrite becomes_version; [done..|]. intros ->. by rewrite Hbase in Hb.
  - intros Ha rb' (rb & -> & Hrb)%list_elem_of_fmap. destruct (becomes_keeps rb) as (B1 & _).
    rewrite K4, B1. intros Hb. destruct (activated_becomes r Hr Ha) as [->|Ha'].
    + assert (rb = old) as -> by (apply (nodup_map_inj pl_ID (tb_Policies tb)); [done..|apply old_in|congruence]).
      destruct (becomes_cases p Hr) as [[_ Ep]|[[E _]|(E & _)]]; [|by destruct old_not_p; f_equal|done].
      destruct (becomes_cases old Hrb) as [[E _]|[[_ Eo]|(_ & E & _)]]; [by destruct old_not_p; f_equal| |done].
      rewrite Ep, Eo. by split.
    + destruct (H4 Ha' rb Hrb Hb) as [Hv Hs].
      assert (rb <> p) by (intros ->; by rewrite Hs in Hps).
      assert (r <> p) by (intros ->; by apply activated_proposed in Hps).
      rewrite !becomes_version by done. split; [done|].
      destruct (becomes_cases rb Hrb) as [[-> _]|[[-> ->]|(_ & _ & ->)]]; done.
  - intros Ha. destruct (activated_becomes r Hr Ha) as [->|Ha'].
    + destruct (becomes_cases p Hr) as [[_ ->]|[[E _]|(E & _)]]; [|by destruct old_not_p; f_equal|done].
      cbn. destruct old_in as (Ho & _ & Hso).
      pose proof (ro_pos _ _ (ps_rows _ (to_policies _ Htb) old Ho) (or_introl Hso)). lia.
    + rewrite becomes_version; [by apply H5|done|intros ->; by apply activated_proposed in Hps].
  - intros Ha. rewrite K5, K7. intros Hpr Hw. unfold alone_with_reason, two_people, asked_for. rewrite K1, K6.
    destruct (activated_becomes r Hr Ha) as [->|Ha']; [by apply Happroved|by apply H6].
Qed.

Lemma becomes_policies : policies_ok (map becomes (tb_Policies tb)).
Proof.
  destruct (to_policies _ Htb) as [H1 H2 H3 H4]. destruct old_in as (Ho & Hdo & Hso).
  assert (Hnew : forall r, r ∈ tb_Policies tb -> activated r -> r <> p -> pl_DatabaseID r = pl_DatabaseID p ->
    pl_Version (becomes r) <> pl_Version (becomes p)).
  { intros r Hr Ha Hne Hdb. rewrite becomes_version by done. pose proof (below_next r Hr Ha Hdb).
    destruct (becomes_cases p Hp) as [[_ ->]|[[E _]|(E & _)]]; [cbn; lia|by destruct old_not_p; f_equal|done]. }
  split.
  - intros r' (r & -> & Hr)%list_elem_of_fmap. by apply becomes_ok.
  - intros r1 r2 (r & -> & Hr)%list_elem_of_fmap (r' & -> & Hr')%list_elem_of_fmap Ha Ha'.
    rewrite (proj1 (proj2 (becomes_keeps r))), (proj1 (proj2 (becomes_keeps r'))). intros Hdb Hv. f_equal.
    destruct (activated_becomes r Hr Ha) as [->|Hact], (activated_becomes r' Hr' Ha') as [->|Hact'];
      [done|exfalso|exfalso|].
    + apply (Hnew r'); auto. intros ->. by apply activated_proposed in Hps.
    + apply (Hnew r); auto. intros ->. by apply activated_proposed in Hps.
    + apply H2; auto. rewrite <- (becomes_version r), <- (becomes_version r'); auto;
        intros ->; by apply activated_proposed in Hps.
  - intros r' (r & -> & Hr)%list_elem_of_fmap Ha. rewrite (proj1 (proj2 (becomes_keeps r))).
    assert (Hpe : becomes p = activate (pl_Version old + 1) actor (tb_Now tb) p).
    { destruct (becomes_cases p Hp) as [[_ ->]|[[E _]|(E & _)]]; [done|by destruct old_not_p; f_equal|done]. }
    destruct (decide (pl_DatabaseID r = pl_DatabaseID p)) as [Hdb|Hdb].
    + exists (becomes p). split; [by apply list_elem_of_fmap_2|]. rewrite Hpe. cbn. split_and!; [done..|].
      destruct (activated_becomes r Hr Ha) as [->|Hact]; [rewrite Hpe; cbn; lia|].
      rewrite becomes_version; [|done|intros ->; by apply activated_proposed in Hps].
      pose proof (below_next r Hr Hact Hdb). lia.
    + destruct (activated_becomes r Hr Ha) as [->|Hact]; [done|].
      destruct (H3 r Hr Hact) as (a & Hin & Hs & Hda & Hv). exists (becomes a).
      assert (a <> p) by (intros ->; by rewrite Hps in Hs). assert (a <> old) by (intros ->; congruence).
      assert (r <> p) by (intros ->; congruence).
      split; [by apply list_elem_of_fmap_2|].
      destruct (becomes_cases a Hin) as [[-> _]|[[-> _]|(_ & _ & ->)]]; [done..|].
      rewrite becomes_version by done. by split_and!.
  - intros r1 r2 (r & -> & Hr)%list_elem_of_fmap (r' & -> & Hr')%list_elem_of_fmap.
    destruct (becomes_cases r Hr) as [[-> ->]|[[-> ->]|(Hn1 & Hn2 & ->)]],
      (becomes_cases r' Hr') as [[-> ->]|[[-> ->]|(Hn1' & Hn2' & ->)]]; cbn; try done.
    + intros _ Hs Hdb. destruct Hn2'. apply H4; try done. congruence.
    + intros Hs _ Hdb. destruct Hn2. apply H4; try done. congruence.
    + by apply H4.
Qed.

Lemma replace_ok : tables_ok (replace old p actor tb).
Proof.
  split; cbn; fold becomes.
  - rewrite map_map. erewrite map_ext; [exact Hids|]. intros r. apply becomes_keeps.
  - intros r' (r & -> & Hr)%list_elem_of_fmap. fold (becomes r). rewrite (proj1 (becomes_keeps r)). by apply Htb.
  - apply becomes_policies.
  - apply Htb.
Qed.
End Replace.
(** ** Approving *)

Lemma insert_policies id q reason single tb :
  tb_Policies (insertApproval id q reason single tb) = tb_Policies tb /\
  tb_NextID (insertApproval id q reason single tb) = tb_NextID tb /\
  tb_Now (insertApproval id q reason single tb) = tb_Now tb.
Proof. unfold insertApproval. by destruct (existsb _ _). Qed.

Lemma insert_ok id q reason single tb : asked q -> rq_ProposalID q = id -> 0 < rq_ApproverUserID q ->
  tables_ok tb -> tables_ok (insertApproval id q reason single tb).
Proof.
  intros Hq Hid Hu [H1 H2 H3 H4]. unfold insertApproval. destruct (existsb _ _); [done|].
  split; cbn; try done. intros a [Ha| ->%list_elem_of_singleton]%elem_of_app; [by apply H4|].
  split; [done|]. by exists q.
Qed.

(** Two approvers in the count are two people who asked. *)
Lemma approvers_two tb p : tables_ok tb ->
  2 <= Z.of_nat (length (approvers (pl_ID p) (pl_Sponsor p) tb)) -> two_people p.
Proof.
  intros Htb Hn. unfold approvers in Hn. set (l := map _ _) in Hn.
  assert (Hl : forall u, u ∈ l -> u <> pl_Sponsor p /\ exists q, asked_for p q /\ rq_ApproverUserID q = u).
  { intros u (a & -> & [Hin Hb]%list_elem_of_In%filter_In)%list_elem_of_fmap.
    apply andb_prop in Hb as [Hid%Z.eqb_eq Hs%negb_true_iff%Z.eqb_neq]. split; [done|].
    destruct (to_approvals _ Htb a) as [Hu (q & Hq & Hpid & Hqu)]; [by apply list_elem_of_In|].
    exists q. split; [|done]. split_and!; [done|congruence|congruence]. }
  pose proof (NoDup_remove_dups l) as Hd.
  assert (Hsub : forall u, u ∈ remove_dups l -> u ∈ l) by (intros u; apply elem_of_remove_dups).
  destruct (remove_dups l) as [|u [|u' l']]; cbn in Hn; [lia..|].
  apply NoDup_cons in Hd as [Hne _].
  destruct (Hl u) as [Hu (q & Hq & <-)]; [apply Hsub, list_elem_of_here|].
  destruct (Hl u') as [Hu' (q' & Hq' & <-)]; [apply Hsub, list_elem_of_further, list_elem_of_here|].
  exists q, q'. split_and!; try done. intros E. apply Hne. rewrite E. apply list_elem_of_here.
Qed.

Lemma approve_ok p q tb e tb' : asked q -> rq_ProposalID q = pl_ID p -> tables_ok tb ->
  approveProposal p q tb = (e, tb') ->
  tables_ok tb' /\ tb_Policies tb' = tb_Policies tb /\
  (e = None -> pl_Principal p <> "" -> pl_Widening p = true -> alone_with_reason p \/ two_people p).
Proof.
  intros Hq Hid Htb. unfold approveProposal.
  destruct (_ || _) eqn:Ew.
  { intros [= <- <-]. split_and!; [done..|]. intros _ Hp Hw. rewrite Hw in Ew.
    cbn in Ew. rewrite orb_false_r in Ew. by apply String.eqb_eq in Ew. }
  destruct (Z.leb_spec (rq_ApproverUserID q) 0) as [|Hu]; [by intros [= <- <-]|].
  destruct (rq_SingleOperatorMode q) eqn:Es.
  - destruct (String.eqb_spec (TrimSpace (rq_Reason q)) "") as [|Hr]; [by intros [= <- <-]|].
    intros [= <- <-]. split_and!; [by apply insert_ok|by apply insert_policies|].
    intros _ _ _. left. by exists q.
  - destruct (_ && _); [by intros [= <- <-]|].
    set (tb1 := insertApproval _ _ _ _ _). assert (Htb1 : tables_ok tb1) by by apply insert_ok.
    destruct (Z.ltb_spec (Z.of_nat (length (approvers (pl_ID p) (pl_Sponsor p) tb1))) requiredApprovals)
      as [|Hn]; intros [= <- <-]; (split_and!; [done|by apply insert_policies|]); [done|].
    intros _ _ _. right. by apply (approvers_two tb1).
Qed.

Lemma ratify_ok q tb r tb' : asked q -> tables_ok tb -> ratifyInTransaction q tb = (r, tb') ->
  tables_ok tb'.
Proof.
  intros Hq Htb. unfold ratifyInTransaction.
  destruct (open_proposal _ tb) as [p|] eqn:Ep; [|by intros [= <- <-]].
  destruct (open_some _ _ _ Ep) as (Hin & Hid & Hs).
  destruct (current _ tb) as [old|] eqn:Eo; [|by intros [= <- <-]].
  destruct (_ || _) eqn:Ec; [by intros [= <- <-]|].
  apply orb_false_iff in Ec as [Eb%bool_decide_eq_false _]. apply dec_stable in Eb.
  destruct (approveProposal p q tb) as [e tb1] eqn:Ea.
  destruct (approve_ok p q tb e tb1 Hq (eq_sym Hid) Htb Ea) as (Htb1 & Epol & Happ).
  destruct e as [e|].
  - destruct e; intros [= <- <-]; done.
  - destruct (_ <? _); [by intros [= <- <-]|]. intros [= <- <-].
    apply replace_ok; try done.
    + by rewrite Epol.
    + unfold current. by rewrite Epol.
    + by apply Happ.
Qed.
End Asked.

Lemma approval_more (asked asked' : RatifyRequest -> Prop) a : (forall q, asked q -> asked' q) ->
  approval_ok asked a -> approval_ok asked' a.
Proof. intros Hm [H1 (q & Hq & Hr)]. split; [done|]. exists q. split; [by apply Hm|done]. Qed.

Lemma row_more (asked asked' : RatifyRequest -> Prop) rows r : (forall q, asked q -> asked' q) ->
  row_ok asked rows r -> row_ok asked' rows r.
Proof.
  intros Hm [H1 H2 H3 H4 H5 H6]. split; try done. intros Ha Hp Hw.
  destruct (H6 Ha Hp Hw) as [(q & (Hq & Hr) & Hs)|(q & q' & (Hq & Hr) & (Hq' & Hr') & Hs)].
  - left. exists q. split; [split; [by apply Hm|done]|done].
  - right. exists q, q'. split_and!; try apply Hs; (split; [by apply Hm|done]).
Qed.

(** More people asked. *)
Lemma tables_asked (asked asked' : RatifyRequest -> Prop) tb : (forall q, asked q -> asked' q) ->
  tables_ok asked tb -> tables_ok asked' tb.
Proof.
  intros Hm [H1 H2 [P1 P2 P3 P4] H4]. split; [done|done| |].
  - split; try done. intros r Hr. by eapply row_more, P1.
  - intros a Ha. by eapply approval_more, H4.
Qed.

(** ** The operations *)

(** A version read from the tables, which keep it. *)
Definition known (tb : Tables) (v : Policy) : Prop :=
  exists r, r ∈ tb_Policies tb /\ pl_ID r = po_ID v /\ pl_DatabaseID r = po_Scope v /\
    pl_Doc r = po_Document v /\ activated r.

(** [p] proposes only against versions it read, [K], and ratifies only what
    operation [o] asked for. *)
Fixpoint careful {A} (o : operation) (K : list Policy) (p : prog A) : Prop :=
  match p with
  | Ret _ => True
  | @Do _ _ _ X st k =>
      match st in stmt X return (X + failure -> prog A) -> Prop with
      | ReadCurrent db => fun k =>
          (forall v, po_Scope v = db -> careful o (v :: K) (k (inl (Some v)))) /\
          careful o K (k (inl None)) /\ forall f, careful o K (k (inr f))
      | InsertProposal request base => fun k =>
          base ∈ K /\ po_Scope base = pq_Scope request /\ forall r, careful o K (k r)
      | RatifyTx q => fun k => (exists pool, o = OpRatify pool q) /\ forall r, careful o K (k r)
      | _ => fun k => forall r, careful o K (k r)
      end k
  end.

Lemma careful_program o : careful o [] (program o).
Proof.
  destruct o as [pool scope|pool scope profile actor|pool q|pool q|pool scope limit|pool id|pool limit];
    cbn [program].
  - unfold Current. by destruct pool.
  - unfold Bootstrap, Current. destruct pool; [|done]. cbn. split_and!; [done| |done].
    destruct (profileDocument profile); [|done]. destruct (_ =s _); [done|]. cbn. intros [[]|f]; [|done]. done.
  - unfold Propose, Current. destruct pool; [|done]. cbn [negb].
    destruct (validateProposal q); [done|]. cbn. split_and!; [|done..]. intros v Hv.
    destruct (negb _); [done|]. cbn. split_and!; [apply list_elem_of_here|done|done].
  - unfold Ratify. destruct pool; [|done]. cbn [negb]. destruct (_ || _); [done|]. cbn. split; [by exists true|done].
  - unfold History. by destruct pool.
  - unfold Approvals. by destruct pool.
  - unfold PendingReviews. by destruct pool.
Qed.

(** ** What one statement does *)

(** No row is lost, nor its document, nor that it was in force. *)
Definition keeps (tb tb' : Tables) : Prop :=
  forall r, r ∈ tb_Policies tb -> exists r', r' ∈ tb_Policies tb' /\ pl_ID r' = pl_ID r /\
    pl_DatabaseID r' = pl_DatabaseID r /\ pl_Doc r' = pl_Doc r /\ (activated r -> activated r').

Lemma keeps_same tb tb' : tb_Policies tb' = tb_Policies tb -> keeps tb tb'.
Proof. intros E r Hr. exists r. by rewrite E. Qed.

Lemma keeps_more tb tb' x : tb_Policies tb' = tb_Policies tb ++ [x] -> keeps tb tb'.
Proof. intros E r Hr. exists r. rewrite E. split_and!; try done. apply elem_of_app. by left. Qed.

Lemma known_keeps tb tb' v : keeps tb tb' -> known tb v -> known tb' v.
Proof.
  intros Hk (r & Hr & H1 & H2 & H3 & H4). destruct (Hk r Hr) as (r' & Hr' & E1 & E2 & E3 & E4).
  exists r'. split_and!; try congruence. by apply E4.
Qed.

Lemma ratify_keeps asked q tb r tb' : asked q -> tables_ok asked tb -> ratifyInTransaction q tb = (r, tb') ->
  keeps tb tb'.
Proof.
  intros Hq Htb. unfold ratifyInTransaction.
  destruct (open_proposal _ tb) as [p|] eqn:Ep; [|intros [= <- <-]; by apply keeps_same].
  destruct (open_some _ _ _ Ep) as (Hin & Hid & Hs).
  destruct (current _ tb) as [old|] eqn:Eo; [|intros [= <- <-]; by apply keeps_same].
  destruct (_ || _); [intros [= <- <-]; by apply keeps_same|].
  destruct (approveProposal p q tb) as [e tb1] eqn:Ea.
  destruct (approve_ok asked p q tb e tb1 Hq (eq_sym Hid) Htb Ea) as (Htb1 & Epol & _).
  destruct e as [e|]; [destruct e; intros [= <- <-]; by apply keeps_same|].
  destruct (_ <? _); intros [= <- <-]; [by apply keeps_same|].
  intros x Hx. exists (becomes tb1 old p (rq_Actor q) x).
  destruct (becomes_keeps tb1 old p (rq_Actor q) x) as (K1 & K2 & K3 & _).
  split_and!; try done.
  - unfold replace. cbn. rewrite Epol. by apply list_elem_of_fmap_2.
  - apply (becomes_activated asked); try done; rewrite ?Epol; try done. unfold current. by rewrite Epol.
Qed.

Lemma proposal_row_ok asked tb request base : known tb base -> po_Scope base = pq_Scope request ->
  row_ok asked (tb_Policies tb ++ [proposal_row request base (tb_NextID tb) (tb_Now tb)])
    (proposal_row request base (tb_NextID tb) (tb_Now tb)).
Proof.
  intros (rb & Hin & Hid & Hdb & Hdoc & Hact) Hs. unfold proposal_row.
  destruct (proposalProvenance request (po_Document base)) as [[agent sponsor] widening] eqn:Ep.
  assert (Hn : forall r, pl_Status r = Proposed -> activated r -> False)
    by (intros r H1 H2; by apply activated_proposed in H1).
  split; try (intros Ha; by apply Hn in Ha).
  - by left.
  - intros b [= <-]. exists rb. split_and!; [apply elem_of_app; by left|done|done|cbn; congruence|].
    cbn. intros Hp ->. unfold proposalProvenance in Ep. destruct (pq_Principal request) as [pr|]; [|congruence].
    rewrite Hdoc. destruct (WidensJSON _ _) as [w err]. injection Ep as _ _ Ew.
    apply orb_false_iff in Ew as [-> He%bool_decide_eq_false]. by destruct err; [destruct He|].
Qed.

Lemma bootstrap_row_ok asked rows x : pl_Status x = Active -> pl_SupersedesID x = None ->
  pl_Version x = 1 -> pl_Principal x = "" -> row_ok asked rows x.
Proof.
  intros Hs Hb Hv Hp. split.
  - by right; left.
  - intros b. by rewrite Hb.
  - by intros _ _.
  - intros _ rb _. by rewrite Hb.
  - intros _. lia.
  - by intros _ [].
Qed.

(** No row of the scope is active: none ever was. *)
Lemma never_active asked tb db r : tables_ok asked tb ->
  existsb (is_active db) (tb_Policies tb) = false -> r ∈ tb_Policies tb -> activated r ->
  pl_DatabaseID r <> db.
Proof.
  intros Htb He Hr Ha Hdb. destruct (ps_active _ _ (to_policies _ _ Htb) r Hr Ha) as (a & Hin & Hs & Hda & _).
  apply not_true_iff_false in He. apply He, existsb_exists. exists a.
  split; [by apply list_elem_of_In|]. apply is_active_spec. split; [congruence|done].
Qed.

Lemma done_ok asked {X} (st : stmt X) {A} (k : X + failure -> prog A) o K tb r : tables_ok asked tb ->
  (forall pool q, o = OpRatify pool q -> asked q) -> careful o K (Do st k) ->
  (forall v, v ∈ K -> known tb v) -> exec_done st tb = Some r -> tables_ok asked r.2 /\ keeps tb r.2.
Proof.
  intros Htb Hasked Hc HK. destruct st as [db|db profile document actor|request base|q|db limit|id|limit];
    cbn [exec_done careful] in *; try (intros [= <-]; split; [done|by apply keeps_same]).
  - destruct (existsb _ _) eqn:He; intros [= <-]; (split; [|first [by apply keeps_same|by eapply keeps_more]]).
    + done.
    + apply tables_more; [done|done|by apply bootstrap_row_ok|]. intros _. split; [done|].
      intros r Hr Ha. by eapply never_active.
  - destruct (_ <? _); [done|]. destruct Hc as (Hb & Hs & _). intros [= <-]. split; [|by eapply keeps_more].
    assert (E : forall n t, pl_ID (proposal_row request base n t) = n /\
      pl_Status (proposal_row request base n t) = Proposed).
    { intros n t. unfold proposal_row. by destruct (proposalProvenance _ _) as [[? ?] ?]. }
    apply tables_more; [done|apply E|apply proposal_row_ok; [by apply HK|done]|].
    intros Ha. by apply activated_proposed in Ha; [|apply E].
  - destruct Hc as ((pool & Ho) & _). destruct (ratifyInTransaction q tb) as [x tb'] eqn:Er. intros [= <-].
    specialize (Hasked pool q Ho). split; [by eapply ratify_ok|by eapply ratify_keeps].
Qed.

Lemma exec_ok asked {X} (st : stmt X) {A} (k : X + failure -> prog A) o K tb oc r tb' :
  tables_ok asked tb -> (forall pool q, o = OpRatify pool q -> asked q) -> careful o K (Do st k) ->
  (forall v, v ∈ K -> known tb v) -> exec oc st tb = Some (r, tb') ->
  tables_ok asked tb' /\ keeps tb tb' /\ exists K', careful o K' (k r) /\ forall v, v ∈ K' -> known tb' v.
Proof.
  intros Htb Hasked Hc HK He.
  assert (Hstep : tables_ok asked tb' /\ keeps tb tb').
  { destruct oc as [|applied f]; cbn [exec] in He.
    - destruct (exec_done st tb) as [[x t]|] eqn:Ed; [|done]. injection He as _ <-.
      exact (done_ok asked st k o K tb _ Htb Hasked Hc HK Ed).
    - injection He as _ <-. destruct applied; [|split; [done|by apply keeps_same]].
      destruct (exec_done st tb) as [[x t]|] eqn:Ed; [|split; [done|by apply keeps_same]].
      exact (done_ok asked st k o K tb _ Htb Hasked Hc HK Ed). }
  destruct Hstep as [Htb' Hkeep]. split_and!; [done..|].
  assert (Hsame : careful o K (k r) -> exists K', careful o K' (k r) /\ forall v, v ∈ K' -> known tb' v).
  { intros H'. exists K. split; [done|]. intros v Hv. by apply (known_keeps tb), HK. }
  destruct st as [db|db profile document actor|request base|q|db limit|id|limit]; cbn [careful] in Hc;
    try (apply Hsame, Hc).
  - destruct Hc as (Hsome & Hnone & Hfail). destruct r as [[v|]|f]; [|by apply Hsame..].
    destruct oc as [|applied f]; cbn in He; [|done]. injection He as Hv <-.
    destruct (current db tb) as [row|] eqn:Er; [|done]. injection Hv as <-.
    destruct (current_some db tb row Er) as (Hin & Hdb & Hs). exists (scanPolicy row :: K). split; [by apply Hsome|].
    intros v [->|Hv]%elem_of_cons; [|by apply HK]. exists row. split_and!; try done. by left.
Qed.

(** ** Every reachable system *)

Definition asked_in (sy : System) (q : RatifyRequest) : Prop :=
  exists i pool p, sy_Threads sy !! i = Some (OpRatify pool q, p).

Definition sys_ok (sy : System) : Prop :=
  tables_ok (asked_in sy) (sy_Server sy) /\
  forall i o p, sy_Threads sy !! i = Some (o, p) ->
    exists K, careful o K p /\ forall v, v ∈ K -> known (sy_Server sy) v.

Lemma sys_reachable sy : reachable no_policies sy -> sys_ok sy.
Proof.
  revert sy. apply reachable_ind.
  - intros tb (Hp & Ha & Hn). split; [|by intros i o p]. split; cbn; rewrite ?Hp, ?Ha.
    + constructor.
    + by intros r ?%elem_of_nil.
    + split; intros r; first [by intros []%elem_of_nil|by intros r' []%elem_of_nil].
    + by intros a ?%elem_of_nil.
  - intros sy o [Htb Hts]. split; cbn.
    + eapply tables_asked; [|exact Htb]. intros q (i & pool & p & Hi). exists i, pool, p.
      by apply lookup_app_l_Some.
    + intros i o' p [Hi|[_ Hi]]%lookup_app_Some; [by apply (Hts i)|].
      apply list_lookup_singleton_Some in Hi as [_ [= <- <-]]. exists []. split; [apply careful_program|].
      by intros v ?%elem_of_nil.
  - intros sy i o X st k oc r tb' [Htb Hts] Ei Ex. cbn in Ex. destruct (Hts i o _ Ei) as (K & Hc & HK).
    destruct (exec_ok (asked_in sy) st k o K (sy_Server sy) oc r tb') as (Htb' & Hkeep & Hnext); try done.
    { intros pool q ->. by exists i, pool, (Do st k). }
    split; cbn.
    + eapply tables_asked; [|exact Htb']. intros q (j & pool & p & Hj).
      destruct (decide (j = i)) as [->|Hne].
      * exists i, pool, (k r). cbn. rewrite Ei in Hj. injection Hj as -> _.
        apply list_lookup_insert_eq. by eapply lookup_lt_Some.
      * exists j, pool, p. cbn. by rewrite list_lookup_insert_ne.
    + intros j o' p [(-> & [= <- <-] & _)|[_ Hj]]%list_lookup_insert_Some; [done|].
      destruct (Hts j o' p Hj) as (K' & Hc' & HK'). exists K'. split; [done|].
      intros v Hv. by apply (known_keeps (sy_Server sy)), HK'.
  - intros sy d tb' [Htb Hts] He. cbn in He. unfold pass in He. destruct (0 <=? d); [|done].
    injection He as <-. split; [by destruct Htb|]. cbn. intros i o p Hi. exact (Hts i o p Hi).
Qed.

(** C21: an agent cannot widen the policy by itself.  In every reachable system,
    when a version an agent proposed does not provably keep within the version
    before it, two people other than the sponsor asked for its ratification, or
    one did in single-operator mode with a reason. *)
Theorem agent_widening_approved sy r b : reachable no_policies sy ->
  r ∈ tb_Policies (sy_Server sy) -> b ∈ tb_Policies (sy_Server sy) -> activated r -> activated b ->
  pl_DatabaseID b = pl_DatabaseID r -> pl_Version r = pl_Version b + 1 -> pl_Principal r <> "" ->
  WidensJSON (pl_Doc b) (pl_Doc r) <> (false, None) ->
  alone_with_reason (asked_in sy) r \/ two_people (asked_in sy) r.
Proof.
  intros [Htb _]%sys_reachable Hr Hb Ha Hab Hdb Hv Hp Hw.
  destruct (to_policies _ _ Htb) as [Hrows Hversion _ _].
  destruct (Hrows r Hr) as [_ H2 H3 H4 _ H6]. destruct (pl_Widening r) eqn:Ew; [by apply H6|].
  destruct (pl_SupersedesID r) as [i|] eqn:Es; [|by destruct (H3 Ha eq_refl)].
  destruct (H2 i eq_refl) as (rb & Hin & Hid & Harb & Hdrb & Hno).
  destruct (H4 Ha rb Hin) as [Hvb _]; [congruence|].
  assert (rb = b) as -> by (apply Hversion; try done; [congruence|lia]).
  by destruct Hw; apply Hno.
Qed.

Lemma chain_down rows v : policies_ok (fun _ => True) rows ->
  forall n r, r ∈ rows -> activated r -> pl_Version r = v + Z.of_nat n -> 1 <= v ->
  exists r', r' ∈ rows /\ activated r' /\ pl_DatabaseID r' = pl_DatabaseID r /\ pl_Version r' = v.
Proof.
  intros [Hrows _ _ _]. induction n as [|n IH]; intros r Hr Ha Hv Hpos.
  { exists r. split_and!; try done. lia. }
  destruct (Hrows r Hr) as [_ H2 H3 H4 _ _].
  destruct (pl_SupersedesID r) as [i|] eqn:Es; [|destruct (H3 Ha eq_refl); lia].
  destruct (H2 i eq_refl) as (rb & Hin & Hid & Harb & Hdrb & _).
  destruct (H4 Ha rb Hin) as [Hvb _]; [congruence|].
  destruct (IH rb Hin Harb) as (r' & Hin' & Ha' & Hd' & Hv'); [lia|done|].
  exists r'. split_and!; congruence.
Qed.

(** C22: a scope's history has no gaps and no forks.  In every reachable system the
    versions 1 to n of a scope, n being the current one, were each in force under
    exactly one row, no other row was, and only the current one is active. *)
Theorem policy_history_exact sy db a : reachable no_policies sy -> current db (sy_Server sy) = Some a ->
  (forall v, 1 <= v <= pl_Version a -> exists r, r ∈ tb_Policies (sy_Server sy) /\ activated r /\
     pl_DatabaseID r = db /\ pl_Version r = v) /\
  (forall r, r ∈ tb_Policies (sy_Server sy) -> activated r -> pl_DatabaseID r = db ->
     1 <= pl_Version r <= pl_Version a /\ (pl_Status r = Active <-> r = a) /\
     forall r', r' ∈ tb_Policies (sy_Server sy) -> activated r' -> pl_DatabaseID r' = db ->
       pl_Version r' = pl_Version r -> r' = r).
Proof.
  intros [Htb _]%sys_reachable Hc. destruct (current_some db _ a Hc) as (Ha & Hdb & Hs).
  apply (tables_asked _ (fun _ => True)) in Htb; [|done].
  pose proof (to_policies _ _ Htb) as Hok. destruct (Hok) as [Hrows Hversion Hactive Hone]. split.
  - intros v Hv. destruct (chain_down _ v Hok (Z.to_nat (pl_Version a - v)) a) as (r & Hr & Har & Hdr & Hvr);
      [done|by left|lia|lia|]. exists r. split_and!; congruence.
  - intros r Hr Har Hdr. split_and!.
    + by apply (ro_pos _ _ _ (Hrows r Hr)).
    + destruct (Hactive r Hr Har) as (a' & Ha' & Hs' & Hd' & Hv').
      assert (a' = a) as -> by (apply Hone; try done; congruence). done.
    + split; [|by intros ->]. intros Hsr. apply Hone; try done. congruence.
    + intros r' Hr' Har' Hdr' Hv. apply Hversion; try done. congruence.
Qed.
End Safety.

(** ** An agent's proposal and two approvals *)

#[local] Instance plain_env : GoEnv := {| tz_lookup := fun _ => None; time_Local := UTC |}.

Definition wide : json := document_json UnattendedProfile.
Definition agent_proposal : ProposalRequest :=
  {| pq_Scope := Some 3; pq_ExpectedVersion := 1; pq_Profile := "staffed"; pq_Document := wide;
     pq_Actor := "agent"; pq_Preview := [];
     pq_Principal := Some {| pr_ID := "agent-1"; pr_SponsorID := 7; pr_TaskID := "";
                             pr_OnBehalfOf := ""; pr_Tool := "" |} |}.
Definition ratification (user : Z) (name : string) (single : bool) : operation :=
  OpRatify true {| rq_ProposalID := 2; rq_ExpectedVersion := 1; rq_Actor := name;
                   rq_ApproverUserID := user; rq_Reason := "agreed"; rq_SingleOperatorMode := single |}.

(** Bootstraps scope 3, and an agent proposes. *)
Definition proposed_run : list action :=
  Start (OpBootstrap true (Some 3) "staffed" "ops") :: repeat (Run 0 Done) 3 ++
  Start (OpPropose true agent_proposal) :: repeat (Run 1 Done) 2.
Definition two_people_run : list action :=
  proposed_run ++ [Start (ratification 8 "ana" false); Run 2 Done;
                   Start (ratification 9 "ben" false); Run 3 Done].
Definition nothing : Tables := {| tb_Now := 0; tb_Policies := []; tb_Approvals := []; tb_NextID := 1 |}.

(** What is read of a row. *)
Definition summary (r : PolicyRow) :=
  (pl_ID r, pl_Version r, pl_Status r, pl_Principal r, pl_Sponsor r, pl_DatabaseID r).

Lemma two_people_seen : option_map (fun sy => (map summary (tb_Policies (sy_Server sy)),
      match tb_Policies (sy_Server sy) with
      | [b; r] => WidensJSON (pl_Doc b) (pl_Doc r)
      | _ => (false, None)
      end, ended_with sy 2, option_map pl_ID (current (Some 3) (sy_Server sy))))
    (acts two_people_run (idle nothing)) =
  Some ([(1, 1, Superseded, "", 0, Some 3); (2, 2, Active, "agent-1", 7, Some 3)], (true, None),
        Some (APolicy (inr ErrSecondApprovalRequired)), Some 2).
Proof. vm_compute. reflexivity. Qed.

Lemma agent_widening_approved_witness : exists sy b r, reachable no_policies sy /\
  tb_Policies (sy_Server sy) = [b; r] /\ pl_Principal r = "agent-1" /\ pl_Version r = 2 /\
  (alone_with_reason (asked_in sy) r \/ two_people (asked_in sy) r).
Proof.
  destruct (acts_read no_policies _ _ nothing _ ltac:(done) two_people_seen) as (sy & Hr & Hs).
  injection Hs as Hrows Hw _ _. destruct (tb_Policies (sy_Server sy)) as [|b [|r [|]]] eqn:E; try done.
  injection Hrows as B1 B2 B3 B4 B5 B6 R1 R2 R3 R4 R5 R6. exists sy, b, r. split_and!; try done.
  apply (agent_widening_approved sy r b); rewrite ?E; try done.
  - apply list_elem_of_further, list_elem_of_here.
  - apply list_elem_of_here.
  - by left.
  - by right.
  - by rewrite B6, R6.
  - by rewrite B2, R2.
  - by rewrite R4.
  - by rewrite Hw.
Defined.

Lemma policy_history_exact_witness : exists sy a r, reachable no_policies sy /\
  current (Some 3) (sy_Server sy) = Some a /\ pl_Version a = 2 /\
  r ∈ tb_Policies (sy_Server sy) /\ activated r /\ pl_DatabaseID r = Some 3 /\ pl_Version r = 1.
Proof.
  destruct (acts_read no_policies _ _ nothing _ ltac:(done) two_people_seen) as (sy & Hr & Hs).
  pose proof (f_equal (fun x => x.1.1.1) Hs) as Hrows. pose proof (f_equal (fun x => x.2) Hs) as Hc.
  cbn in Hrows, Hc. destruct (current (Some 3) (sy_Server sy)) as [a|] eqn:Ea; [|done].
  destruct (current_some _ _ _ Ea) as (Hin & _ & _). injection Hc as Hid.
  assert (Hv : pl_Version a = 2).
  { destruct (tb_Policies (sy_Server sy)) as [|b [|r [|]]]; try done. injection Hrows as B1 _ _ _ _ _ _ R2 _ _ _ _.
    apply elem_of_cons in Hin as [->|[->|[]%elem_of_nil]%elem_of_cons]; [lia|done]. }
  destruct (proj1 (policy_history_exact sy (Some 3) a Hr Ea) 1) as (r & H1 & H2 & H3 & H4); [lia|].
  by exists sy, a, r.
Defined.

(** ** An approval that is not recorded *)

(** The same person, first with a second approval pending, then alone. *)
Definition lost_review_run : list action :=
  proposed_run ++ [Start (ratification 8 "ana" false); Run 2 Done;
                   Start (ratification 8 "ana" true); Run 3 Done].

(** The proposal is in force on one person's word, and no review is pending: the
    approval of the first attempt stands in the way of the second's. *)
Lemma single_operator_review_lost :
  match acts lost_review_run (idle nothing) with
  | Some sy => option_map summary (current (Some 3) (sy_Server sy)) =
                 Some (2, 2, Active, "agent-1", 7, Some 3) /\
               map ap_SingleOperator (tb_Approvals (sy_Server sy)) = [false] /\
               pending_reviews 100 (sy_Server sy) = []
  | None => False
  end.
Proof. vm_compute. by split_and!. Qed.
