(* ===== verification/Lease.v ===== *)
(** * Change leases: the names of leased objects

    internal/policy: lease.go, typed_target.go, the keys of lease_conflict.go and
    the row of change_table.go.  A relation name, as a statement writes it, is
    normalised to the canonical text a lease's advisory key is made of; the
    catalog resolves names to typed targets. *)

From S2P Require Import Prelude.
From S2P Require Import GoStd.
From S2P Require Import Sha256.

(** ** lease.go *)

Record TargetObject : Type := { to_Schema : string; to_Name : string; to_Canonical : string }.

Definition dq : ascii := of_code 34.

(** [splitQualifiedIdentifier] after its test for emptiness: the parts from
    here on, the first one being the rest of the current part. *)
Fixpoint split_parts (quoted : bool) (s : string) : result (list string) :=
  match s with
  | EmptyString => if quoted then Err "unterminated quoted identifier" else Ok [""]
  | String c s' =>
      if char_eqb c "."%char && negb quoted
      then let? parts := split_parts quoted s' in Ok ("" :: parts) else
      if char_eqb c ";"%char && negb quoted then Err "unsafe delimiter" else
      let? parts := split_parts (if char_eqb c dq then negb quoted else quoted) s' in
      Ok (cons_head c parts)
  end.

Definition splitQualifiedIdentifier (input : string) : result (list string) :=
  if input =s "" then Err "empty identifier" else split_parts false input.

(** A character after the first, and a first one. *)
Definition ident_char (c : ascii) : bool :=
  char_eqb c "_"%char || char_eqb c "$"%char || is_letter c || is_digit c.
Definition ident_start (c : ascii) : bool := char_eqb c "_"%char || is_letter c.

Definition validUnquotedIdentifier (value : string) : bool :=
  match value with
  | EmptyString => false
  | String c rest => ident_start c && forallb ident_char (str_chars rest)
  end.

Definition quoted_text (name : string) : string := String dq (name +:+ String dq "").

(** [input[1 : len(input)-1]] of a text between double quotes. *)
Fixpoint before_quote (s : string) : option string :=
  match s with
  | EmptyString => None
  | String c EmptyString => if char_eqb c dq then Some "" else None
  | String c s' => option_map (String c) (before_quote s')
  end.
Definition unquote (s : string) : option string :=
  match s with String c s' => if char_eqb c dq then before_quote s' else None | _ => None end.

(** The name and its canonical text. *)
Definition normalizeIdentifier (input : string) : result (string * string) :=
  let input := TrimSpace input in
  match unquote input with
  | Some name =>
      if (name =s "") || existsb (fun c => char_eqb c dq) (str_chars name)
      then Err "invalid quoted identifier"
      else Ok (name, quoted_text name)
  | None =>
      if negb (validUnquotedIdentifier input)
      then Err ("invalid identifier " +:+ quote input)
      else let name := ToLower input in Ok (name, name)
  end.

Definition normalizeTargetObject (input : string) : result TargetObject :=
  let bad e := Err ("target object " +:+ quote input +:+ ": " +:+ e) in
  match splitQualifiedIdentifier (TrimSpace input) with
  | Ok [schema; name] =>
      match normalizeIdentifier schema with
      | Err e => bad e
      | Ok (schema, schemaCanonical) =>
          match normalizeIdentifier name with
          | Err e => bad e
          | Ok (name, nameCanonical) =>
              Ok {| to_Schema := schema; to_Name := name;
                    to_Canonical := schemaCanonical +:+ "." +:+ nameCanonical |}
          end
      end
  | _ => Err ("target object " +:+ quote input +:+ " must be schema-qualified")
  end.

(** The values of a map whose keys are their canonical texts, in their order. *)
Definition in_key_order {A} (m : gmap string A) : list A :=
  omap (fun k => m !! k) (sort_strings (map fst (map_to_list m))).

Definition NormalizeTargetObjects (inputs : list string) : result (list TargetObject) :=
  let? objects := rmap normalizeTargetObject inputs in
  Ok (in_key_order (foldl (fun unique o => <[to_Canonical o := o]> unique) ∅ objects)).

Definition nul : string := String (of_code 0) "".

Definition LeaseKey (objects : list TargetObject) : string :=
  hex_encode (Sum256 (Join (sort_strings (map to_Canonical objects)) nul)).

(** ** typed_target.go *)

Definition TargetKind : Type := string.
Definition TargetTable : TargetKind := "table".
Definition TargetPartitionedTable : TargetKind := "partitioned_table".
Definition TargetIndex : TargetKind := "index".
Definition TargetMaterializedView : TargetKind := "materialized_view".
Definition TargetRelation : TargetKind := "relation".
Definition TargetUnresolved : TargetKind := "unresolved".

Record TypedTarget : Type := {
  tt_Kind : TargetKind;
  tt_Schema : string;
  tt_Name : string;
  tt_OID : Z;
}.

Definition canonicalIdentifier (name : string) : string :=
  if validUnquotedIdentifier name && (name =s ToLower name) then name else quoted_text name.

Definition Canonical (t : TypedTarget) : string :=
  canonicalIdentifier (tt_Schema t) +:+ "." +:+ canonicalIdentifier (tt_Name t).

Definition oidLeaseKey (oid : Z) : string := "oid:" +:+ itoa oid.

Definition LeaseKeys (t : TypedTarget) : list string :=
  Canonical t :: (if 0 <? tt_OID t then [oidLeaseKey (tt_OID t)] else []).

(** Distinct texts, each at its first occurrence. *)
Fixpoint distinct (seen l : list string) : list string :=
  match l with
  | [] => []
  | x :: l' => if str_in x seen then distinct seen l' else x :: distinct (x :: seen) l'
  end.

Definition TypedLeaseKeys (targets : list TypedTarget) : list string :=
  sort_strings (distinct [] (concat (map LeaseKeys targets))).

Definition quoteIdentifier (name : string) : string :=
  quoted_text (Join (Split name dq) (String dq (String dq ""))).

(** The canonical unresolved target of a qualified name. *)
Definition unresolved (plain : list string) : option TypedTarget :=
  match plain with
  | [schema; name] =>
      Some {| tt_Kind := TargetUnresolved; tt_Schema := schema; tt_Name := name; tt_OID := 0 |}
  | _ => None
  end.

(** One round of [targetInputs]: the text for to_regclass, and the unresolved
    target of a qualified name. *)
Definition targetInput (name : string) : result (string * option TypedTarget) :=
  let not_relation := Err ("lease target " +:+ quote name +:+ " is not a relation name") in
  match splitQualifiedIdentifier (TrimSpace name) with
  | Ok parts =>
      if Nat.ltb 2 (length parts) then not_relation else
      match rmap normalizeIdentifier parts with
      | Err e => Err ("lease target " +:+ quote name +:+ ": " +:+ e)
      | Ok values =>
          let plain := map fst values in
          Ok (Join (map quoteIdentifier plain) ".", unresolved plain)
      end
  | Err _ => not_relation
  end.

Definition targetKind (relkind : string) : TargetKind :=
  if relkind =s "r" then TargetTable
  else if relkind =s "p" then TargetPartitionedTable
  else if (relkind =s "i") || (relkind =s "I") then TargetIndex
  else if relkind =s "m" then TargetMaterializedView
  else TargetRelation.

(** A row of resolveTargetsSQL: an oid of 0 is a name without a relation. *)
Record ResolvedRow : Type := {
  rr_OID : Z;
  rr_Kind : string;
  rr_Schema : string;
  rr_Name : string;
  rr_ParentOID : Z;
  rr_ParentKind : string;
  rr_ParentSchema : string;
  rr_ParentName : string;
}.

(** [scanResolvedTarget]; [qualified] is the entry of the row's name. *)
Definition scanResolvedTarget (ord : Z) (qualified : option TypedTarget) (r : ResolvedRow)
    : result (list TypedTarget) :=
  if rr_OID r =? 0 then
    match qualified with
    | Some target => Ok [target]
    | None => Err ("lease target " +:+ itoa ord +:+ " is unqualified and names no relation " +:+
                   "on the search path")
    end
  else
    let target := {| tt_Kind := targetKind (rr_Kind r); tt_Schema := rr_Schema r;
                     tt_Name := rr_Name r; tt_OID := rr_OID r |} in
    Ok (target :: if 0 <? rr_ParentOID r
                  then [{| tt_Kind := targetKind (rr_ParentKind r);
                           tt_Schema := rr_ParentSchema r; tt_Name := rr_ParentName r;
                           tt_OID := rr_ParentOID r |}]
                  else []).

Definition target_key (t : TypedTarget) : string := Canonical t +:+ nul +:+ itoa (tt_OID t).

Fixpoint dedupe (seen : list string) (targets : list TypedTarget) : list TypedTarget :=
  match targets with
  | [] => []
  | t :: targets' => if str_in (target_key t) seen then dedupe seen targets'
                     else t :: dedupe (target_key t :: seen) targets'
  end.
Definition dedupeTargets (targets : list TypedTarget) : list TypedTarget := dedupe [] targets.

(** The loop over the catalog's answer, one row for each input in order. *)
Fixpoint scan_rows (ord : Z) (qualified : list (option TypedTarget)) (rows : list ResolvedRow)
    : result (list TypedTarget) :=
  match qualified, rows with
  | q :: qualified', r :: rows' =>
      let? targets := scanResolvedTarget ord q r in
      let? rest := scan_rows (ord + 1) qualified' rows' in
      Ok (targets ++ rest)
  | _, _ => Ok []
  end.

(** [ResolveTypedTargets]; [catalog] answers resolveTargetsSQL. *)
Definition ResolveTypedTargets {W} (catalog : option (list string -> M W (result (list ResolvedRow))))
    (names : list string) : M W (result (list TypedTarget)) :=
  match names with
  | [] => ret (Ok [])
  | _ =>
      match catalog with
      | None => ret (Err "resolve lease targets: database is unavailable")
      | Some query =>
          match rmap targetInput names with
          | Err e => ret (Err e)
          | Ok inputs =>
              let! rows := query (map fst inputs) in
              ret match rows with
                  | Err e => Err ("resolve lease targets: " +:+ e)
                  | Ok rows => let? targets := scan_rows 1 (map snd inputs) rows in
                               Ok (dedupeTargets targets)
                  end
          end
      end
  end.

(** ** lease_conflict.go: the keys of a lease *)

Record leaseKey : Type := {
  lk_key : string;
  lk_kind : string;
  lk_oid : Z;
  lk_name : string;
}.

Definition keys_of (t : TypedTarget) : list leaseKey :=
  map (fun k => {| lk_key := k; lk_kind := tt_Kind t; lk_oid := tt_OID t; lk_name := Canonical t |})
      (LeaseKeys t).

Definition typedKeys (targets : list TypedTarget) : list leaseKey :=
  in_key_order (foldl (fun byKey k => match byKey !! lk_key k with
                                      | Some _ => byKey
                                      | None => <[lk_key k := k]> byKey
                                      end) ∅ (concat (map keys_of targets))).

(** The keys [AcquireLease] takes. *)
Definition object_key (o : TargetObject) : leaseKey :=
  {| lk_key := to_Canonical o; lk_kind := ""; lk_oid := 0; lk_name := to_Canonical o |}.

(** ** change_table.go *)

Record ChangeTable : Type := { ct_Table : string; ct_Root : string }.

(** [TypedTarget{Schema: schema, Name: name}.Canonical()] *)
Definition relation_name (schema name : string) : string :=
  Canonical {| tt_Kind := ""; tt_Schema := schema; tt_Name := name; tt_OID := 0 |}.

(** One resolved row; [None] for a name that identifies no object. *)
Definition changeTable (input : string) (oid : Z) (schema name rootSchema rootName : string)
    : option ChangeTable :=
  if 0 <? oid
  then Some {| ct_Table := relation_name schema name;
               ct_Root := if rootName <>s "" then relation_name rootSchema rootName else "" |}
  else match splitQualifiedIdentifier (TrimSpace input) with
       | Ok [s; n] =>
           match normalizeIdentifier s, normalizeIdentifier n with
           | Ok (schema, _), Ok (name, _) =>
               Some {| ct_Table := relation_name schema name; ct_Root := "" |}
           | _, _ => None
           end
       | _ => None
       end.

(** The text of a relation name for to_regclass. *)
Definition renderRelationName (name : string) : option string :=
  match splitQualifiedIdentifier (TrimSpace name) with
  | Ok parts =>
      if Nat.ltb 2 (length parts) then None else
      match rmap normalizeIdentifier parts with
      | Ok values => if existsb (fun v => v =s "") (map fst values) then None
                     else Some (Join (map quoteIdentifier (map fst values)) ".")
      | Err _ => None
      end
  | Err _ => None
  end.

(** A row of resolveChangeTablesSQL. *)
Record ChangeRow : Type := {
  cr_OID : Z;
  cr_Schema : string;
  cr_Name : string;
  cr_RootSchema : string;
  cr_RootName : string;
}.

(** The loop over the catalog's answer, one row for each kept name in order. *)
Fixpoint scan_tables (kept : list string) (rows : list ChangeRow) (tables : gmap string ChangeTable)
    : gmap string ChangeTable :=
  match kept, rows with
  | name :: kept', r :: rows' =>
      scan_tables kept' rows'
        (match changeTable name (cr_OID r) (cr_Schema r) (cr_Name r) (cr_RootSchema r)
                 (cr_RootName r) with
         | Some table => <[name := table]> tables
         | None => tables
         end)
  | _, _ => tables
  end.

(** [ResolveChangeTables]; [catalog] answers resolveChangeTablesSQL. *)
Definition ResolveChangeTables {W} (catalog : option (list string -> M W (result (list ChangeRow))))
    (names : list string) : M W (result (gmap string ChangeTable)) :=
  let kept := omap (fun n => option_map (pair n) (renderRelationName n)) names in
  match kept with
  | [] => ret (Ok ∅)
  | _ =>
      match catalog with
      | None => ret (Err "resolve change tables: database is unavailable")
      | Some query =>
          let! rows := query (map snd kept) in
          ret match rows with
              | Err e => Err ("resolve change tables: " +:+ e)
              | Ok rows => Ok (scan_tables (map fst kept) rows ∅)
              end
      end
  end.
