(* ===== verification/LeaseNames.v ===== *)
(** * Lease names

    What the canonical texts of Lease.v are good for: they name their object, and
    nothing else. *)

From S2P Require Import Prelude.
From S2P Require Import GoStd.
From S2P Require Import Lease.

(** ** Characters and texts *)

(** A property of characters that 256 cases decide. *)
Ltac every_char c := destruct c as [[] [] [] [] [] [] [] []]; vm_compute; congruence.

Lemma lower_lower c : lower_char (lower_char c) = lower_char c.
Proof. every_char c. Qed.
Lemma lower_ident c : ident_char c = true -> ident_char (lower_char c) = true.
Proof. every_char c. Qed.
Lemma lower_start c : ident_start c = true -> ident_start (lower_char c) = true.
Proof. every_char c. Qed.

(** Characters that neither end a part nor are trimmed. *)
Definition plain (c : ascii) : bool :=
  negb (char_eqb c "."%char || char_eqb c ";"%char || char_eqb c dq || is_space c).

Lemma ident_plain c : ident_char c = true -> plain c = true.
Proof. every_char c. Qed.
Lemma start_plain c : ident_start c = true -> plain c = true.
Proof. every_char c. Qed.

Lemma lower_chars s : str_chars (ToLower s) = map lower_char (str_chars s).
Proof. unfold ToLower. induction s as [|c s IH]; [done|]. cbn. by rewrite IH. Qed.

Lemma ToLower_idem s : ToLower (ToLower s) = ToLower s.
Proof.
  apply str_chars_inj. rewrite !lower_chars, map_map. apply map_ext. apply lower_lower.
Qed.

Lemma forallb_map {A B} (f : A -> B) (p : B -> bool) (q : A -> bool) l :
  (forall x, q x = true -> p (f x) = true) -> forallb q l = true -> forallb p (map f l) = true.
Proof.
  intros H. induction l as [|x l IH]; [done|]. cbn. rewrite !andb_true_iff.
  intros [Hx Hl]. auto.
Qed.

Lemma valid_lower s : validUnquotedIdentifier s = true -> validUnquotedIdentifier (ToLower s) = true.
Proof.
  destruct s as [|c s]; [done|]. unfold validUnquotedIdentifier.
  change (ToLower (String c s)) with (String (lower_char c) (ToLower s)).
  rewrite !andb_true_iff, lower_chars. intros [Hc Hs]. split; [by apply lower_start|].
  eapply forallb_map; [|exact Hs]. apply lower_ident.
Qed.

Lemma valid_plain s : validUnquotedIdentifier s = true -> forallb plain (str_chars s) = true.
Proof.
  destruct s as [|c s]; [done|]. unfold validUnquotedIdentifier. cbn [str_chars forallb].
  rewrite !andb_true_iff. intros [Hc Hs]. split; [by apply start_plain|].
  rewrite List.forallb_forall in Hs |- *. intros x Hx. by apply ident_plain, Hs.
Qed.

(** ** Canonical identifiers *)

(** The canonical text of a name: itself, if it is a lower-case identifier, or
    in double quotes. *)
Definition canon_ident (name c : string) : Prop :=
  (validUnquotedIdentifier name = true /\ ToLower name = name /\ c = name) \/
  (name <> "" /\ existsb (fun c => char_eqb c dq) (str_chars name) = false /\ c = quoted_text name).

Lemma canonicalIdentifier_canon name : name <> "" ->
  existsb (fun c => char_eqb c dq) (str_chars name) = false ->
  canon_ident name (canonicalIdentifier name).
Proof.
  intros Hne Hq. unfold canonicalIdentifier. destruct (_ && _) eqn:E; [|by right].
  apply andb_true_iff in E as [Hv Hl%eqb_str]. by left.
Qed.

Lemma before_quote_app name : before_quote (name +:+ String dq "") = Some name.
Proof.
  induction name as [|c name IH]; [done|].
  change (String c name +:+ String dq "") with (String c (name +:+ String dq "")).
  destruct (name +:+ String dq "") as [|d s] eqn:E; [by destruct name|].
  cbn [before_quote] in *. by rewrite IH.
Qed.

Lemma unquote_quoted name : unquote (quoted_text name) = Some name.
Proof. unfold unquote, quoted_text. change (char_eqb dq dq) with true. apply before_quote_app. Qed.

Lemma unquote_valid s : validUnquotedIdentifier s = true -> unquote s = None.
Proof.
  destruct s as [|c s]; [done|]. unfold validUnquotedIdentifier. rewrite andb_true_iff. intros [Hc _].
  cbn [unquote]. destruct (char_eqb c dq) eqn:E; [|done]. exfalso. revert E Hc. every_char c.
Qed.

(** A plain text, or one in quotes, keeps its edges. *)
Lemma plain_edges s : forallb plain (str_chars s) = true ->
  (forall c, head (str_chars s) = Some c -> is_space c = false) /\
  (forall c, last (str_chars s) = Some c -> is_space c = false).
Proof.
  rewrite List.forallb_forall. intros H.
  assert (Hp : forall c, c ∈ str_chars s -> is_space c = false).
  { intros c Hc%list_elem_of_In%H. unfold plain in Hc. reflect_all. tauto. }
  split; intros c Hc; apply Hp; [by apply head_Some_elem_of|by apply last_Some_elem_of].
Qed.

Lemma quoted_chars name : str_chars (quoted_text name) = dq :: str_chars name ++ [dq].
Proof. unfold quoted_text. cbn [str_chars]. by rewrite str_chars_app. Qed.

Lemma canon_edges name c : canon_ident name c ->
  (forall x, head (str_chars c) = Some x -> is_space x = false) /\
  (forall x, last (str_chars c) = Some x -> is_space x = false).
Proof.
  intros [(Hv & _ & ->)|(_ & _ & ->)].
  - apply plain_edges, valid_plain, Hv.
  - rewrite quoted_chars. split; intros x; [by intros [= <-]|].
    change (dq :: str_chars name ++ [dq]) with ((dq :: str_chars name) ++ [dq]).
    rewrite last_snoc. by intros [= <-].
Qed.

Lemma canon_nonempty name c : canon_ident name c -> exists x, head (str_chars c) = Some x.
Proof.
  intros [(Hv & _ & ->)|(_ & _ & ->)]; [|rewrite quoted_chars; by eexists].
  destruct name as [|x name]; [done|by eexists].
Qed.

Lemma normalize_canon name c : canon_ident name c -> normalizeIdentifier c = Ok (name, c).
Proof.
  intros Hc. unfold normalizeIdentifier. rewrite TrimSpace_id by apply (canon_edges name c Hc).
  destruct Hc as [(Hv & Hl & ->)|(Hne & Hq & ->)].
  - by rewrite unquote_valid, Hv, Hl.
  - rewrite unquote_quoted, Hq, orb_false_r. by apply neqb_str in Hne as ->.
Qed.

Lemma normalizeIdentifier_canon i name c : normalizeIdentifier i = Ok (name, c) -> canon_ident name c.
Proof.
  unfold normalizeIdentifier. destruct (unquote (TrimSpace i)) as [n|].
  - destruct (_ || _) eqn:E; [done|]. intros [= <- <-]. apply orb_false_iff in E as [Hne%neqb_str Hq].
    by right.
  - destruct (negb _) eqn:E; [done|]. intros [= <- <-]. apply negb_false_iff in E. left.
    split_and!; [by apply valid_lower|apply ToLower_idem|done].
Qed.

(** ** Splitting canonical texts *)

Lemma str_app_nil s : s +:+ "" = s.
Proof. apply str_chars_inj. by rewrite str_chars_app, app_nil_r. Qed.

Definition prepend (s : string) (parts : list string) : list string :=
  foldr cons_head parts (str_chars s).

Lemma prepend_head s x l : prepend s (x :: l) = (s +:+ x) :: l.
Proof. unfold prepend. induction s as [|c s IH]; [done|]. cbn [str_chars foldr]. by rewrite IH. Qed.

Lemma split_plain s t : forallb plain (str_chars s) = true ->
  split_parts false (s +:+ t) = rbind (split_parts false t) (fun ps => Ok (prepend s ps)).
Proof.
  induction s as [|c s IH]; cbn [str_chars forallb]; rewrite ?andb_true_iff.
  - intros _. change ("" +:+ t) with t. by destruct (split_parts false t).
  - intros [Hc Hs]. change (String c s +:+ t) with (String c (s +:+ t)). cbn [split_parts].
    unfold plain in Hc. apply negb_true_iff in Hc. rewrite !orb_false_iff in Hc.
    destruct Hc as [[[-> ->] ->] _]. cbn [andb]. rewrite (IH Hs). by destruct (split_parts false t).
Qed.

Lemma split_inside name t : existsb (fun c => char_eqb c dq) (str_chars name) = false ->
  split_parts true (name +:+ String dq t) =
  rbind (split_parts false t) (fun ps => Ok (prepend (name +:+ String dq "") ps)).
Proof.
  induction name as [|c s IH]; cbn [str_chars existsb]; rewrite ?orb_false_iff.
  - intros _. done.
  - intros [Hc Hs]. change (String c s +:+ String dq t) with (String c (s +:+ String dq t)).
    cbn [split_parts]. rewrite Hc, !andb_false_r, (IH Hs). by destruct (split_parts false t).
Qed.

Lemma split_canon name c t : canon_ident name c ->
  split_parts false (c +:+ t) = rbind (split_parts false t) (fun ps => Ok (prepend c ps)).
Proof.
  intros [(Hv & _ & ->)|(_ & Hq & ->)]; [by apply split_plain, valid_plain|].
  unfold quoted_text. change (String dq (name +:+ String dq "") +:+ t)
    with (String dq ((name +:+ String dq "") +:+ t)).
  cbn [split_parts]. change (char_eqb dq "."%char) with false. change (char_eqb dq ";"%char) with false.
  change (char_eqb dq dq) with true. cbn [andb negb].
  replace ((name +:+ String dq "") +:+ t) with (name +:+ String dq t).
  - rewrite split_inside by done. by destruct (split_parts false t).
  - apply str_chars_inj. rewrite !str_chars_app. cbn [str_chars]. by rewrite <- app_assoc.
Qed.

Lemma split_canonical s n cs cn : canon_ident s cs -> canon_ident n cn ->
  splitQualifiedIdentifier (cs +:+ "." +:+ cn) = Ok [cs; cn].
Proof.
  intros Hs Hn. unfold splitQualifiedIdentifier.
  replace (cs +:+ "." +:+ cn =s "") with false.
  - rewrite (split_canon _ _ _ Hs). change ("." +:+ cn) with (String "."%char cn). cbn [split_parts].
    change (char_eqb "."%char "."%char && negb false) with true. cbv iota.
    assert (Hcn : split_parts false cn = Ok [cn]).
    { assert (E : split_parts false (cn +:+ "") = Ok (prepend cn [""])) by by rewrite (split_canon _ _ _ Hn).
      rewrite prepend_head in E. by rewrite str_app_nil in E. }
    rewrite Hcn. cbn [rbind]. rewrite prepend_head. by rewrite str_app_nil.
  - symmetry. apply neqb_str. intros E. apply (f_equal str_chars) in E.
    rewrite str_chars_app in E. destruct (canon_nonempty _ _ Hs) as [x Hx]. by destruct (str_chars cs).
Qed.

Lemma normalize_canonical s n cs cn : canon_ident s cs -> canon_ident n cn ->
  normalizeTargetObject (cs +:+ "." +:+ cn) =
  Ok {| to_Schema := s; to_Name := n; to_Canonical := cs +:+ "." +:+ cn |}.
Proof.
  intros Hs Hn. unfold normalizeTargetObject. rewrite TrimSpace_id.
  - by rewrite (split_canonical s n), (normalize_canon s), (normalize_canon n).
  - intros c. rewrite str_chars_app. destruct (canon_nonempty _ _ Hs) as [x Hx].
    destruct (canon_edges _ _ Hs) as [He _]. rewrite head_app. rewrite Hx.
    intros [= <-]. by apply He.
  - intros c. rewrite !str_chars_app, last_app. destruct (canon_edges _ _ Hn) as [_ He].
    rewrite last_app. destruct (canon_nonempty _ _ Hn) as [x Hx].
    destruct (last (str_chars cn)) as [y|] eqn:E; [intros [= <-]; by apply He|].
    apply last_None in E. by rewrite E in Hx.
Qed.

(** *** A normalised name and a catalog identity *)

Lemma normalized_canon i o : normalizeTargetObject i = Ok o ->
  exists cs cn, canon_ident (to_Schema o) cs /\ canon_ident (to_Name o) cn /\
    to_Canonical o = cs +:+ "." +:+ cn.
Proof.
  unfold normalizeTargetObject. destruct (splitQualifiedIdentifier _) as [[|s [|n [|x l]]]|e]; try done.
  destruct (normalizeIdentifier s) as [[s' cs]|e] eqn:Es; [|done].
  destruct (normalizeIdentifier n) as [[n' cn]|e] eqn:En; [|done]. intros [= <-].
  exists cs, cn. split_and!; [by eapply normalizeIdentifier_canon..|done].
Qed.

(** A name the catalog can spell without escapes. *)
Definition unescaped (name : string) : Prop :=
  name <> "" /\ existsb (fun c => char_eqb c dq) (str_chars name) = false.

(** Lease names are canonical: the canonical text of a normalised name, and
    of a catalog identity whose names hold no double quote, normalises to itself
    and to the very schema and name it was made of - so two objects never share
    a lease name. *)
Theorem canonical_names_roundtrip :
  (forall i o, normalizeTargetObject i = Ok o -> normalizeTargetObject (to_Canonical o) = Ok o) /\
  (forall t, unescaped (tt_Schema t) -> unescaped (tt_Name t) ->
     normalizeTargetObject (Canonical t) =
       Ok {| to_Schema := tt_Schema t; to_Name := tt_Name t; to_Canonical := Canonical t |}).
Proof.
  split.
  - intros i o Ho. destruct (normalized_canon i o Ho) as (cs & cn & Hs & Hn & Hc).
    rewrite Hc, (normalize_canonical _ _ _ _ Hs Hn), <- Hc. by destruct o.
  - intros t [Hs Hqs] [Hn Hqn]. unfold Canonical. apply normalize_canonical;
      by apply canonicalIdentifier_canon.
Qed.

(** A quoted name that needs no quotes keeps them, although the catalog's
    identity of the same relation is spelled without. *)
Lemma quoted_lower_case_differs :
  let written := "public." +:+ quoted_text "orders" in
  let relation := {| tt_Kind := TargetTable; tt_Schema := "public"; tt_Name := "orders"; tt_OID := 7 |} in
  match normalizeTargetObject written with
  | Ok o => to_Schema o = tt_Schema relation /\ to_Name o = tt_Name relation /\
            to_Canonical o <> Canonical relation
  | Err _ => False
  end.
Proof. vm_compute. split_and!; congruence. Qed.

Lemma canonical_names_roundtrip_witness :
  normalizeTargetObject "public.orders" =
    Ok {| to_Schema := "public"; to_Name := "orders"; to_Canonical := "public.orders" |} /\
  normalizeTargetObject (Canonical {| tt_Kind := TargetTable; tt_Schema := "public";
                                      tt_Name := "Order items"; tt_OID := 7 |}) =
    Ok {| to_Schema := "public"; to_Name := "Order items";
          to_Canonical := "public." +:+ quoted_text "Order items" |}.
Proof.
  split.
  - exact (proj1 canonical_names_roundtrip " Public.Orders"
             {| to_Schema := "public"; to_Name := "orders"; to_Canonical := "public.orders" |} eq_refl).
  - apply (proj2 canonical_names_roundtrip {| tt_Kind := TargetTable; tt_Schema := "public";
                                              tt_Name := "Order items"; tt_OID := 7 |}); done.
Defined.
