(* ===== verification/LeaseStore.v ===== *)
(** * Change leases: statements and the server

    The statements postgres_lease.go, lease_queue.go and lease_queue_wait.go of
    internal/policy send, each one atomic step on the server they share: session
    advisory locks, sage.change_lease, sage.lease_queue, the pool's connections
    and the leases each manager remembers.  An operation is a [prog]: its next
    statement, and what it does with the answer.

    A statement may fail: the driver's error reaches the caller, the effect may
    have happened nevertheless.  A lock statement that fails has no effect: the
    driver refused to send it, or its session is lost, which frees the session's
    locks. *)

From S2P Require Import Prelude.
From S2P Require Import GoStd.
From S2P Require Import Sha256.
From S2P Require Export Interleave.
From S2P Require Import Lease.

(** ** Tables *)

Record LeaseRow : Type := {
  cl_DatabaseID : option Z;
  cl_ObjectKey : string;
  cl_DecisionID : Z;
  cl_Holder : string;
  cl_Intent : string;
  cl_AcquiredAt : Time;
  cl_ExpiresAt : Time;
  cl_State : string;
  cl_Actor : string;
  cl_Type : string;
  cl_OID : Z;
  cl_Name : string;
}.

Record QueueEntry : Type := {
  qe_ID : Z;
  qe_DatabaseID : option Z;
  qe_RequestKey : string;
  qe_Keys : list string;
  qe_Kind : string;
  qe_Actor : string;
  qe_Intent : string;
  qe_DecisionID : Z;
  qe_Instance : string;
  qe_State : string;
  qe_HeartbeatAt : Time;
  qe_DeadlineAt : Time;
  qe_Resumed : Z;
}.

(** [sv_Locks]: the session holding an advisory key, and how often.
    [sv_Held]: what each manager remembers of its leases; [sv_Issued]: the lease
    ids drawn so far, which random ids of 128 bits never repeat. *)
Record Server : Type := {
  sv_Now : Time;
  sv_Locks : gmap Z (Z * nat);
  sv_Rows : list LeaseRow;
  sv_Queue : list QueueEntry;
  sv_NextID : Z;
  sv_Conns : gset Z;
  sv_Lost : gset Z;
  sv_Held : gmap (Z * string) (Z * list Z);
  sv_Issued : gset string;
}.

Definition set_Now (t : Time) (sv : Server) : Server :=
  {| sv_Now := t; sv_Locks := sv_Locks sv; sv_Rows := sv_Rows sv; sv_Queue := sv_Queue sv;
     sv_NextID := sv_NextID sv; sv_Conns := sv_Conns sv; sv_Lost := sv_Lost sv;
     sv_Held := sv_Held sv;
     sv_Issued := sv_Issued sv |}.
Definition set_Locks (locks : gmap Z (Z * nat)) (sv : Server) : Server :=
  {| sv_Now := sv_Now sv; sv_Locks := locks; sv_Rows := sv_Rows sv; sv_Queue := sv_Queue sv;
     sv_NextID := sv_NextID sv; sv_Conns := sv_Conns sv; sv_Lost := sv_Lost sv;
     sv_Held := sv_Held sv;
     sv_Issued := sv_Issued sv |}.
Definition set_Rows (rows : list LeaseRow) (sv : Server) : Server :=
  {| sv_Now := sv_Now sv; sv_Locks := sv_Locks sv; sv_Rows := rows; sv_Queue := sv_Queue sv;
     sv_NextID := sv_NextID sv; sv_Conns := sv_Conns sv; sv_Lost := sv_Lost sv;
     sv_Held := sv_Held sv;
     sv_Issued := sv_Issued sv |}.
Definition set_Queue (queue : list QueueEntry) (next : Z) (sv : Server) : Server :=
  {| sv_Now := sv_Now sv; sv_Locks := sv_Locks sv; sv_Rows := sv_Rows sv; sv_Queue := queue;
     sv_NextID := next; sv_Conns := sv_Conns sv; sv_Lost := sv_Lost sv; sv_Held := sv_Held sv;
     sv_Issued := sv_Issued sv |}.
Definition set_Conns (conns lost : gset Z) (sv : Server) : Server :=
  {| sv_Now := sv_Now sv; sv_Locks := sv_Locks sv; sv_Rows := sv_Rows sv; sv_Queue := sv_Queue sv;
     sv_NextID := sv_NextID sv; sv_Conns := conns; sv_Lost := lost; sv_Held := sv_Held sv;
     sv_Issued := sv_Issued sv |}.
Definition set_Held (held : gmap (Z * string) (Z * list Z)) (sv : Server) : Server :=
  {| sv_Now := sv_Now sv; sv_Locks := sv_Locks sv; sv_Rows := sv_Rows sv; sv_Queue := sv_Queue sv;
     sv_NextID := sv_NextID sv; sv_Conns := sv_Conns sv; sv_Lost := sv_Lost sv; sv_Held := held;
     sv_Issued := sv_Issued sv |}.
Definition set_Issued (issued : gset string) (sv : Server) : Server :=
  {| sv_Now := sv_Now sv; sv_Locks := sv_Locks sv; sv_Rows := sv_Rows sv; sv_Queue := sv_Queue sv;
     sv_NextID := sv_NextID sv; sv_Conns := sv_Conns sv; sv_Lost := sv_Lost sv;
     sv_Held := sv_Held sv; sv_Issued := issued |}.

(** [COALESCE(a, 0) = COALESCE(b, 0)] *)
Definition same_database (a b : option Z) : bool := default 0 a =? default 0 b.

(** [a && b] of text arrays *)
Definition overlap (a b : list string) : bool := existsb (fun k => str_in k b) a.

Definition LeaseActive : string := "active".
Definition LeaseReleased : string := "released".
Definition LeaseExpired : string := "expired".
Definition EntryWaiting : string := "waiting".
Definition EntryGranted : string := "granted".
Definition EntryTimedOut : string := "timed_out".
Definition EntryCancelled : string := "cancelled".

Definition set_row_state (st : string) (r : LeaseRow) : LeaseRow :=
  {| cl_DatabaseID := cl_DatabaseID r; cl_ObjectKey := cl_ObjectKey r;
     cl_DecisionID := cl_DecisionID r; cl_Holder := cl_Holder r; cl_Intent := cl_Intent r;
     cl_AcquiredAt := cl_AcquiredAt r; cl_ExpiresAt := cl_ExpiresAt r; cl_State := st;
     cl_Actor := cl_Actor r; cl_Type := cl_Type r; cl_OID := cl_OID r; cl_Name := cl_Name r |}.

Definition set_entry_state (st : string) (e : QueueEntry) : QueueEntry :=
  {| qe_ID := qe_ID e; qe_DatabaseID := qe_DatabaseID e; qe_RequestKey := qe_RequestKey e;
     qe_Keys := qe_Keys e; qe_Kind := qe_Kind e; qe_Actor := qe_Actor e; qe_Intent := qe_Intent e;
     qe_DecisionID := qe_DecisionID e; qe_Instance := qe_Instance e; qe_State := st;
     qe_HeartbeatAt := qe_HeartbeatAt e; qe_DeadlineAt := qe_DeadlineAt e;
     qe_Resumed := qe_Resumed e |}.

Definition heartbeat (now : Time) (e : QueueEntry) : QueueEntry :=
  {| qe_ID := qe_ID e; qe_DatabaseID := qe_DatabaseID e; qe_RequestKey := qe_RequestKey e;
     qe_Keys := qe_Keys e; qe_Kind := qe_Kind e; qe_Actor := qe_Actor e; qe_Intent := qe_Intent e;
     qe_DecisionID := qe_DecisionID e; qe_Instance := qe_Instance e; qe_State := qe_State e;
     qe_HeartbeatAt := now; qe_DeadlineAt := qe_DeadlineAt e; qe_Resumed := qe_Resumed e |}.

(** The columns the resuming process takes over. *)
Definition take_over (instance actor : string) (decision : Z) (now : Time) (e : QueueEntry)
    : QueueEntry :=
  {| qe_ID := qe_ID e; qe_DatabaseID := qe_DatabaseID e; qe_RequestKey := qe_RequestKey e;
     qe_Keys := qe_Keys e; qe_Kind := qe_Kind e; qe_Actor := actor; qe_Intent := qe_Intent e;
     qe_DecisionID := decision; qe_Instance := instance; qe_State := qe_State e;
     qe_HeartbeatAt := now; qe_DeadlineAt := qe_DeadlineAt e; qe_Resumed := qe_Resumed e + 1 |}.

Definition waiting (e : QueueEntry) : bool := qe_State e =s EntryWaiting.
(** [state='waiting' AND deadline_at > now()] *)
Definition live (now : Time) (e : QueueEntry) : bool := waiting e && (now <? qe_DeadlineAt e).

(** ** Statements *)

Inductive failure : Type :=
| TimedOut
| Failed (e : error).

Inductive queued : Type :=
| QueuedAs (id : Z)
| QueueIsFull (perTarget total : Z)
| AlreadyQueued.

Inductive stmt : Type -> Type :=
(* the pool and the process *)
| AcquireConn : stmt Z
| ReleaseConn (s : Z) : stmt unit
| NewLeaseID : stmt string
| Remember (manager : Z) (id : string) (s : Z) (keys : list Z) : stmt unit
| Forget (manager : Z) (id : string) : stmt (option (Z * list Z))
| CallerGone : stmt bool
| NextTick : stmt bool
(* a lease's own session *)
| TryLock (s key : Z) : stmt bool
| Unlock (s key : Z) : stmt unit
| ExpireRows (s : Z) : stmt unit
| InsertRow (s : Z) (row : LeaseRow) (ttl : Duration) : stmt bool
| ReleaseRows (s : Z) (holder : string) : stmt unit
| HolderOf (s : Z) (key : string) (db : option Z) : stmt (option (string * Z * string))
(* any session *)
| AnyWaiting (keys : list string) (db : option Z) : stmt bool
| SweepQueue (db : option Z) : stmt unit
| ResumeEntry (db : option Z) (requestKey instance actor : string) (decision : Z)
    (stale : Duration) : stmt (option Z)
| Enqueue (e : QueueEntry) (wait : Duration) (maxPerTarget maxTotal : Z) : stmt queued
| Position (id : Z) (db : option Z) : stmt (option (Z * bool))
| ResolveEntry (id : Z) (state : string) : stmt unit.

Section Statements.
Context (sv : Server).

Definition alive (s : Z) : bool := bool_decide (s ∉ sv_Lost sv).

(** pg_try_advisory_lock and pg_advisory_unlock: a session takes a key again
    and again, and gives it back as often. *)
Definition try_lock (s key : Z) : bool * Server :=
  match sv_Locks sv !! key with
  | None => (true, set_Locks (<[key := (s, 1%nat)]> (sv_Locks sv)) sv)
  | Some (s', n) => if s' =? s then (true, set_Locks (<[key := (s, S n)]> (sv_Locks sv)) sv)
                    else (false, sv)
  end.

Definition unlock (s key : Z) : Server :=
  match sv_Locks sv !! key with
  | Some (s', n) =>
      if negb (s' =? s) then sv else
      if Nat.leb n 1 then set_Locks (delete key (sv_Locks sv)) sv
      else set_Locks (<[key := (s, pred n)]> (sv_Locks sv)) sv
  | None => sv
  end.

Definition expire_rows : Server :=
  set_Rows (map (fun r => if (cl_State r =s LeaseActive) && (cl_ExpiresAt r <=? sv_Now sv)
                          then set_row_state LeaseExpired r else r) (sv_Rows sv)) sv.

(** The unique index: one active row for a database and object. *)
Definition insert_row (row : LeaseRow) (ttl : Duration) : bool * Server :=
  if existsb (fun r => (cl_State r =s LeaseActive) && (cl_ObjectKey r =s cl_ObjectKey row) &&
                       same_database (cl_DatabaseID r) (cl_DatabaseID row)) (sv_Rows sv)
  then (false, sv)
  else (true, set_Rows (sv_Rows sv ++
          [{| cl_DatabaseID := cl_DatabaseID row; cl_ObjectKey := cl_ObjectKey row;
              cl_DecisionID := cl_DecisionID row; cl_Holder := cl_Holder row;
              cl_Intent := cl_Intent row; cl_AcquiredAt := sv_Now sv;
              cl_ExpiresAt := sv_Now sv + ttl; cl_State := LeaseActive; cl_Actor := cl_Actor row;
              cl_Type := cl_Type row; cl_OID := cl_OID row; cl_Name := cl_Name row |}]) sv).

Definition release_rows (holder : string) : Server :=
  set_Rows (map (fun r => if (cl_Holder r =s holder) && (cl_State r =s LeaseActive)
                          then set_row_state LeaseReleased r else r) (sv_Rows sv)) sv.

(** Rows are inserted in the order of acquired_at. *)
Definition holder_of (key : string) (db : option Z) : option (string * Z * string) :=
  option_map (fun r => (cl_Actor r, cl_DecisionID r, cl_Name r))
    (List.find (fun r => (cl_State r =s LeaseActive) && (sv_Now sv <? cl_ExpiresAt r) &&
                         (cl_ObjectKey r =s key) && same_database (cl_DatabaseID r) db)
       (sv_Rows sv)).

Definition here (db : option Z) (e : QueueEntry) : bool := same_database (qe_DatabaseID e) db.

Definition any_waiting (keys : list string) (db : option Z) : bool :=
  existsb (fun e => live (sv_Now sv) e && overlap (qe_Keys e) keys && here db e) (sv_Queue sv).

(** Entries of [db] past their deadline, [id] apart. *)
Definition sweep (db id : option Z) : list QueueEntry :=
  map (fun e => if waiting e && (qe_DeadlineAt e <=? sv_Now sv) && here db e &&
                   bool_decide (id <> Some (qe_ID e))
                then set_entry_state EntryTimedOut e else e) (sv_Queue sv).

Definition resumable (db : option Z) (requestKey instance : string) (stale : Duration)
    (e : QueueEntry) : bool :=
  here db e && (qe_RequestKey e =s requestKey) && live (sv_Now sv) e &&
  (qe_Instance e <>s instance) && (qe_HeartbeatAt e <? sv_Now sv - stale).

(** The unique index on waiting entries leaves at most one. *)
Definition resume_entry (db : option Z) (requestKey instance actor : string) (decision : Z)
    (stale : Duration) : option Z * Server :=
  (option_map qe_ID (List.find (resumable db requestKey instance stale) (sv_Queue sv)),
   set_Queue (map (fun e => if resumable db requestKey instance stale e
                            then take_over instance actor decision (sv_Now sv) e else e)
                (sv_Queue sv)) (sv_NextID sv) sv).

Definition depth (f : QueueEntry -> bool) : Z := Z.of_nat (length (List.filter f (sv_Queue sv))).

(** The transaction of [enqueue], once it has its advisory lock: its now() is when
    it began, [began]. *)
Definition enqueue_entry (began : Time) (e : QueueEntry) (wait : Duration)
    (maxPerTarget maxTotal : Z) : queued * Server :=
  let mine x := live began x && here (qe_DatabaseID e) x in
  let perTarget := depth (fun x => mine x && overlap (qe_Keys x) (qe_Keys e)) in
  let total := depth mine in
  if (maxPerTarget <=? perTarget) || (maxTotal <=? total)
  then (QueueIsFull perTarget total, sv) else
  if existsb (fun x => waiting x && (qe_RequestKey x =s qe_RequestKey e) && here (qe_DatabaseID e) x)
       (sv_Queue sv)
  then (AlreadyQueued, set_Queue (sv_Queue sv) (sv_NextID sv + 1) sv)
  else let id := sv_NextID sv in
       (QueuedAs id, set_Queue (sv_Queue sv ++
          [{| qe_ID := id; qe_DatabaseID := qe_DatabaseID e; qe_RequestKey := qe_RequestKey e;
              qe_Keys := qe_Keys e; qe_Kind := qe_Kind e; qe_Actor := qe_Actor e;
              qe_Intent := qe_Intent e; qe_DecisionID := qe_DecisionID e;
              qe_Instance := qe_Instance e; qe_State := EntryWaiting;
              qe_HeartbeatAt := began; qe_DeadlineAt := began + wait; qe_Resumed := 0 |}])
          (id + 1) sv).

(** The entries ahead of [me]. *)
Definition ahead_of (me e : QueueEntry) : bool :=
  live (sv_Now sv) e && (qe_ID e <? qe_ID me) && overlap (qe_Keys e) (qe_Keys me) &&
  here (qe_DatabaseID me) e.

(** [position]'s statement: every part of it reads the same snapshot. *)
Definition position (id : Z) (db : option Z) : option (Z * bool) * Server :=
  let mine e := (qe_ID e =? id) && waiting e in
  (option_map (fun me => (depth (ahead_of me), qe_DeadlineAt me <=? sv_Now sv))
     (List.find mine (sv_Queue sv)),
   set_Queue (map (fun e => if mine e then heartbeat (sv_Now sv) e else e) (sweep db (Some id)))
     (sv_NextID sv) sv).

Definition resolve_entry (id : Z) (state : string) : Server :=
  set_Queue (map (fun e => if (qe_ID e =? id) && waiting e then set_entry_state state e else e)
               (sv_Queue sv)) (sv_NextID sv) sv.
End Statements.

(** ** Executing a statement *)

Definition lease_id (n : Z) : string := "lease_" +:+ hex_encode (be_bytes 16 n).

(** What a statement that succeeds answers and does; [n] is what the server or
    the process chose: a connection, a random number, how long a lock was waited
    for, or whether the caller's context ended.  [None]: it cannot succeed so. *)
Definition exec_done (n : Z) {X} (st : stmt X) (sv : Server) : option (X * Server) :=
  match st in stmt X return option (X * Server) with
  | AcquireConn =>
      if bool_decide ((n ∉ sv_Conns sv) /\ (n ∉ sv_Lost sv))
      then Some (n, set_Conns ({[n]} ∪ sv_Conns sv) (sv_Lost sv) sv) else None
  | ReleaseConn s => Some (tt, set_Conns (sv_Conns sv ∖ {[s]}) (sv_Lost sv) sv)
  | NewLeaseID => if bool_decide (lease_id n ∈ sv_Issued sv) then None
                  else Some (lease_id n, set_Issued ({[lease_id n]} ∪ sv_Issued sv) sv)
  | Remember m id s keys => Some (tt, set_Held (<[(m, id) := (s, keys)]> (sv_Held sv)) sv)
  | Forget m id => Some (sv_Held sv !! (m, id), set_Held (delete (m, id) (sv_Held sv)) sv)
  | CallerGone => Some (negb (n =? 0), sv)
  | NextTick => Some (negb (n =? 0), sv)
  | TryLock s key => if alive sv s then Some (try_lock sv s key) else None
  | Unlock s key => if alive sv s then Some (tt, unlock sv s key) else None
  | ExpireRows s => if alive sv s then Some (tt, expire_rows sv) else None
  | InsertRow s row ttl => if alive sv s then Some (insert_row sv row ttl) else None
  | ReleaseRows s holder => if alive sv s then Some (tt, release_rows sv holder) else None
  | HolderOf s key db => if alive sv s then Some (holder_of sv key db, sv) else None
  | AnyWaiting keys db => Some (any_waiting sv keys db, sv)
  | SweepQueue db => Some (tt, set_Queue (sweep sv db None) (sv_NextID sv) sv)
  | ResumeEntry db key instance actor decision stale =>
      Some (resume_entry sv db key instance actor decision stale)
  | Enqueue e wait maxPerTarget maxTotal =>
      if 0 <=? n then Some (enqueue_entry sv (sv_Now sv - n) e wait maxPerTarget maxTotal) else None
  | Position id db => Some (position sv id db)
  | ResolveEntry id state => Some (tt, resolve_entry sv id state)
  end.

(** Which statements fail, and whether their effect may have happened then. *)
Definition may_fail {X} (st : stmt X) (sv : Server) : bool :=
  match st with
  | ReleaseConn _ | Remember _ _ _ _ | Forget _ _ | CallerGone | NextTick => false
  | _ => true
  end.
Definition may_apply {X} (st : stmt X) : bool :=
  match st with AcquireConn | NewLeaseID | TryLock _ _ | Unlock _ _ => false | _ => true end.

Inductive outcome : Type :=
| Done (n : Z)
| Fails (applied : bool) (f : failure).

Definition exec (o : outcome) {X} (st : stmt X) (sv : Server) : option ((X + failure) * Server) :=
  match o with
  | Done n => option_map (fun r => (inl r.1, r.2)) (exec_done n st sv)
  | Fails applied f =>
      if negb (may_fail st sv) then None else
      Some (inr f, if applied && may_apply st
                   then match exec_done 0 st sv with Some r => r.2 | None => sv end else sv)
  end.

(** Operations are programs of these statements. *)
Abbreviation prog := (Interleave.prog stmt failure).
