(* ===== verification/LeaseQueue.v ===== *)
(** * Change leases: the manager and the queue

    internal/policy: postgres_lease.go (a lease holds the advisory locks of its
    objects' keys on a connection of its own), lease_queue.go and
    lease_queue_wait.go (leases granted in FIFO order per object), as programs
    over the statements of LeaseStore.v.  Operations run side by side: the system
    is a server and the operations under way, and a step is one statement of one
    of them, time passing, or a session that is lost. *)

From S2P Require Import Prelude.
From S2P Require Import GoStd.
From S2P Require Import Sha256.
From S2P Require Import Lease.
From S2P Require Import LeaseStore.


(** ** Errors *)

Inductive lease_error : Type :=
| LeaseConflict (key object holder : string) (decision : Z) (unreadable : option failure)
| LeaseBusy
| LeaseNotFound
| QueueTimeout (ahead : Z)
| QueueTimeoutAfter (last : lease_error)
| QueueFull (perTarget total : Z)
| QueueDuplicate
| CallerEnded
| Invalid (e : error)
| Broken (what : error) (f : failure)
| Joined (a b : lease_error).

(** [errors.Is(err, ErrLeaseConflict) || errors.Is(err, ErrLeaseBusy)] *)
Fixpoint retryableLeaseError (e : lease_error) : bool :=
  match e with
  | LeaseConflict _ _ _ _ _ | LeaseBusy | QueueTimeout _ | QueueTimeoutAfter _ | QueueFull _ _ | QueueDuplicate => true
  | Joined a b => retryableLeaseError a || retryableLeaseError b
  | LeaseNotFound | CallerEnded | Invalid _ | Broken _ _ => false
  end.

Definition LeaseID : Type := string.
Definition answer : Type := LeaseID + lease_error.

(** ** postgres_lease.go *)

(** [pm_ID] tells managers apart; [pm_Pool]: whether there is a pool. *)
Record PostgresLeaseManager : Type := {
  pm_ID : Z;
  pm_Pool : bool;
  pm_DatabaseID : option Z;
  pm_DecisionID : Z;
  pm_TTL : Duration;
}.

Definition LeaseConnectionWait : Duration := 5 * Second.

(** [int64(binary.BigEndian.Uint64(digest[:8]))] *)
Definition advisoryObjectKey (canonical : string) : Z :=
  wrap64 (be_word 0 (take 8 (Sum256 canonical))).

Definition validateAcquire (m : PostgresLeaseManager) (actor : string) (keys : nat)
    (intent : string) : option lease_error :=
  if negb (pm_Pool m) then Some (Invalid "lease manager database is unavailable") else
  if pm_DecisionID m <=? 0 then Some (Invalid "lease decision ID is required") else
  if pm_TTL m <=? 0 then Some (Invalid "lease TTL must be positive") else
  if (TrimSpace actor =s "") || (TrimSpace intent =s "")
  then Some (Invalid "lease actor and intent are required") else
  if Nat.eqb keys 0 then Some (Invalid "lease target objects are required") else None.

(** [acquireConn]: a connection, at the latest after [LeaseConnectionWait]. *)
Definition acquireConn : prog (Z + lease_error) :=
  do~ r := AcquireConn in
  match r with
  | inl s => Ret (inl s)
  | inr f =>
      do~ gone := CallerGone in
      match gone, f with
      | inl true, _ => Ret (inr CallerEnded)
      | _, TimedOut => Ret (inr LeaseBusy)
      | _, Failed _ => Ret (inr (Broken "acquire lease connection" f))
      end
  end.

(** Backwards, errors ignored. *)
Fixpoint release_each (s : Z) (keys : list Z) : prog unit :=
  match keys with
  | [] => Ret tt
  | key :: keys' => do~ _ := Unlock s key in release_each s keys'
  end.
Definition releaseAdvisoryLocks (s : Z) (keys : list Z) : prog unit := release_each s (rev keys).

Section Manager.
Context (m : PostgresLeaseManager).

(** [conflict]: best effort. *)
Definition conflict (s : Z) (key : string) : prog lease_error :=
  do~ r := HolderOf s key (pm_DatabaseID m) in
  Ret match r with
      | inl (Some (holder, decision, object)) => LeaseConflict key object holder decision None
      | inl None => LeaseConflict key key "" 0 None
      | inr f => LeaseConflict key key "" 0 (Some f)
      end.

Fixpoint lock_keys (s : Z) (keys : list leaseKey) (held : list Z) : prog (list Z + lease_error) :=
  match keys with
  | [] => Ret (inl held)
  | key :: keys' =>
      let advisory := advisoryObjectKey (lk_key key) in
      do~ r := TryLock s advisory in
      match r with
      | inr f => do* _ := releaseAdvisoryLocks s held in
                 Ret (inr (Broken "acquire advisory lease" f))
      | inl false => do* _ := releaseAdvisoryLocks s held in
                     do* e := conflict s (lk_key key) in Ret (inr e)
      | inl true => lock_keys s keys' (held ++ [advisory])
      end
  end.
Definition acquireAdvisoryLocks (s : Z) (keys : list leaseKey) : prog (list Z + lease_error) :=
  lock_keys s keys [].

Definition lease_row (holder actor intent : string) (key : leaseKey) : LeaseRow :=
  {| cl_DatabaseID := pm_DatabaseID m; cl_ObjectKey := lk_key key;
     cl_DecisionID := pm_DecisionID m; cl_Holder := holder; cl_Intent := intent;
     cl_AcquiredAt := 0; cl_ExpiresAt := 0; cl_State := LeaseActive; cl_Actor := actor;
     cl_Type := lk_kind key; cl_OID := lk_oid key; cl_Name := lk_name key |}.

(** The loop of [persistLease]; [None]: all rows are there. *)
Fixpoint insert_rows (s : Z) (id actor intent : string) (keys : list leaseKey)
    : prog (option lease_error) :=
  match keys with
  | [] => Ret None
  | key :: keys' =>
      do~ r := InsertRow s (lease_row id actor intent key) (pm_TTL m) in
      match r with
      | inl true => insert_rows s id actor intent keys'
      | inl false => do~ _ := ReleaseRows s id in
                     do* e := conflict s (lk_key key) in Ret (Some e)
      | inr f => do~ _ := ReleaseRows s id in
                 Ret (Some (Broken "persist DDL change lease" f))
      end
  end.

Definition persistLease (s : Z) (id actor intent : string) (keys : list leaseKey)
    : prog (option lease_error) :=
  do~ r := ExpireRows s in
  match r with
  | inr f => Ret (Some (Broken "reclaim expired DDL leases" f))
  | inl _ => insert_rows s id actor intent keys
  end.

(** Gives everything back and answers [e]. *)
Definition give_back (s : Z) (held : list Z) (e : lease_error) : prog answer :=
  do* _ := releaseAdvisoryLocks s held in
  do~ _ := ReleaseConn s in
  Ret (inr e).

Definition acquireKeys (actor : string) (keys : list leaseKey) (intent : string) : prog answer :=
  match validateAcquire m actor (length keys) intent with
  | Some e => Ret (inr e)
  | None =>
      do* conn := acquireConn in
      match conn with
      | inr e => Ret (inr e)
      | inl s =>
          do* locked := acquireAdvisoryLocks s keys in
          match locked with
          | inr e => do~ _ := ReleaseConn s in Ret (inr e)
          | inl held =>
              do~ id := NewLeaseID in
              match id with
              | inr f => give_back s held (Broken "generate lease ID" f)
              | inl id =>
                  do* persisted := persistLease s id actor intent keys in
                  match persisted with
                  | Some e => give_back s held e
                  | None => do~ _ := Remember (pm_ID m) id s held in Ret (inl id)
                  end
              end
          end
      end
  end.

Definition AcquireLease (actor : string) (objects : list TargetObject) (intent : string)
    : prog answer :=
  acquireKeys actor (map object_key objects) intent.

Definition AcquireTyped (actor : string) (targets : list TypedTarget) (intent : string)
    : prog answer :=
  acquireKeys actor (typedKeys targets) intent.

(** [None]: released. *)
Definition ReleaseLease (id : LeaseID) : prog (option lease_error) :=
  do~ held := Forget (pm_ID m) id in
  match held with
  | inl (Some (s, keys)) =>
      do~ updated := ReleaseRows s id in
      do* _ := releaseAdvisoryLocks s keys in
      do~ _ := ReleaseConn s in
      Ret match updated with
          | inl _ => None
          | inr f => Some (Broken "release DDL change lease" f)
          end
  | _ => Ret (Some LeaseNotFound)
  end.
End Manager.

(** ** lease_queue.go *)

Record LeaseQueueConfig : Type := {
  qc_MaxWait : Duration;
  qc_OperatorMaxWait : Duration;
  qc_MaxDepthPerTarget : Z;
  qc_MaxDepth : Z;
  qc_PollInterval : Duration;
  qc_StaleAfter : Duration;
}.

Definition DefaultLeaseQueueConfig : LeaseQueueConfig :=
  {| qc_MaxWait := 2 * Minute; qc_OperatorMaxWait := 30 * Second; qc_MaxDepthPerTarget := 8;
     qc_MaxDepth := 64; qc_PollInterval := 500 * Millisecond; qc_StaleAfter := 5 * Second |}.

Definition positive_or (x y : Z) : Z := if x <=? 0 then y else x.
Definition withQueueDefaults (c : LeaseQueueConfig) : LeaseQueueConfig :=
  let d := DefaultLeaseQueueConfig in
  {| qc_MaxWait := positive_or (qc_MaxWait c) (qc_MaxWait d);
     qc_OperatorMaxWait := positive_or (qc_OperatorMaxWait c) (qc_OperatorMaxWait d);
     qc_MaxDepthPerTarget := positive_or (qc_MaxDepthPerTarget c) (qc_MaxDepthPerTarget d);
     qc_MaxDepth := positive_or (qc_MaxDepth c) (qc_MaxDepth d);
     qc_PollInterval := positive_or (qc_PollInterval c) (qc_PollInterval d);
     qc_StaleAfter := positive_or (qc_StaleAfter c) (qc_StaleAfter d) |}.

Record LeaseQueue : Type := {
  lq_Pool : bool;
  lq_DatabaseID : option Z;
  lq_cfg : LeaseQueueConfig;
  lq_instance : string;
}.

Definition NewLeaseQueue (pool : bool) (db : option Z) (cfg : LeaseQueueConfig) (instance : string)
    : LeaseQueue :=
  {| lq_Pool := pool; lq_DatabaseID := db; lq_cfg := withQueueDefaults cfg;
     lq_instance := instance |}.

Record QueuedLeaseRequest : Type := {
  qr_Manager : option PostgresLeaseManager;
  qr_Kind : string;
  qr_Actor : string;
  qr_Intent : string;
  qr_Targets : list TypedTarget;
  qr_Operator : bool;
  qr_MaxWait : Duration;
}.

Definition leaseRequestKey (kind intent : string) (keys : list string) : string :=
  hex_encode (Sum256 (kind +:+ nul +:+ intent +:+ nul +:+ Join keys nul)).

Section Queue.
Context (q : LeaseQueue).

Definition maxWait (req : QueuedLeaseRequest) : Duration :=
  if 0 <? qr_MaxWait req then qr_MaxWait req
  else if qr_Operator req then qc_OperatorMaxWait (lq_cfg q) else qc_MaxWait (lq_cfg q).

(** The request's manager, once validated. *)
Definition validate_request (req : QueuedLeaseRequest) : PostgresLeaseManager + lease_error :=
  if negb (lq_Pool q) then inr (Invalid "lease queue database is unavailable") else
  match qr_Manager req with
  | None => inr (Invalid "lease queue request needs a lease manager with a decision")
  | Some m =>
      if pm_DecisionID m <=? 0
      then inr (Invalid "lease queue request needs a lease manager with a decision") else
      if Nat.eqb (length (qr_Targets req)) 0
      then inr (Invalid "lease queue request has no target objects") else
      if (TrimSpace (qr_Kind req) =s "") || (TrimSpace (qr_Actor req) =s "") ||
         (TrimSpace (qr_Intent req) =s "")
      then inr (Invalid "lease queue request needs a kind, actor and intent") else
      if qr_MaxWait req <? 0
      then inr (Invalid "lease queue wait bound must not be negative") else inl m
  end.

(** [tryImmediate]: [None] when the request has to queue. *)
Definition tryImmediate (m : PostgresLeaseManager) (req : QueuedLeaseRequest) (keys : list string)
    : prog (option answer) :=
  do~ waiting := AnyWaiting keys (lq_DatabaseID q) in
  match waiting with
  | inr f => Ret (Some (inr (Broken "read lease queue" f)))
  | inl true => Ret None
  | inl false =>
      do* lease := AcquireTyped m (qr_Actor req) (qr_Targets req) (qr_Intent req) in
      Ret match lease with
          | inr e => if retryableLeaseError e then None else Some (inr e)
          | inl id => Some (inl id)
          end
  end.

Definition entry_of (m : PostgresLeaseManager) (req : QueuedLeaseRequest) (requestKey : string)
    (keys : list string) : QueueEntry :=
  {| qe_ID := 0; qe_DatabaseID := lq_DatabaseID q; qe_RequestKey := requestKey; qe_Keys := keys;
     qe_Kind := qr_Kind req; qe_Actor := qr_Actor req; qe_Intent := qr_Intent req;
     qe_DecisionID := pm_DecisionID m; qe_Instance := lq_instance q; qe_State := EntryWaiting;
     qe_HeartbeatAt := 0; qe_DeadlineAt := 0; qe_Resumed := 0 |}.

Definition enqueue (m : PostgresLeaseManager) (req : QueuedLeaseRequest) (requestKey : string)
    (keys : list string) : prog (Z + lease_error) :=
  do~ r := Enqueue (entry_of m req requestKey keys) (maxWait req)
             (qc_MaxDepthPerTarget (lq_cfg q)) (qc_MaxDepth (lq_cfg q)) in
  Ret match r with
      | inl (QueuedAs id) => inl id
      | inl (QueueIsFull perTarget total) => inr (QueueFull perTarget total)
      | inl AlreadyQueued => inr QueueDuplicate
      | inr f => inr (Broken "enqueue lease request" f)
      end.

(** *** lease_queue_wait.go *)

(** [resolve]: the error, if it could not be recorded. *)
Definition resolve (id : Z) (state : string) : prog (option lease_error) :=
  do~ r := ResolveEntry id state in
  Ret match r with inl _ => None | inr f => Some (Broken "resolve lease queue entry" f) end.

Definition leave (id : Z) (state : string) (cause : lease_error) : prog answer :=
  do* failed := resolve id state in
  Ret (inr match failed with Some e => Joined cause e | None => cause end).

Definition callerError (e : lease_error) : prog lease_error :=
  do~ gone := CallerGone in
  Ret match gone with inl true => CallerEnded | _ => e end.

Definition grant (m : PostgresLeaseManager) (id : Z) (lease : LeaseID) : prog answer :=
  do* failed := resolve id EntryGranted in
  match failed with
  | None => Ret (inl lease)
  | Some e =>
      do* released := ReleaseLease m lease in
      Ret (inr match released with Some e' => Joined e e' | None => e end)
  end.

Definition queueTimeout (last : option lease_error) (ahead : Z) : lease_error :=
  match last with Some e => QueueTimeoutAfter e | None => QueueTimeout ahead end.

(** [wait], for [polls] polls at most: [None] when it has not ended by then. *)
Fixpoint wait (polls : nat) (m : PostgresLeaseManager) (req : QueuedLeaseRequest) (id : Z)
    (last : option lease_error) : prog (option answer) :=
  match polls with
  | O => Ret None
  | S polls' =>
      let next last :=
        do~ gone := NextTick in
        match gone with
        | inl true => do* a := leave id EntryCancelled CallerEnded in Ret (Some a)
        | _ => wait polls' m req id last
        end in
      do~ pos := Position id (lq_DatabaseID q) in
      match pos with
      | inr f => do* e := callerError (Broken "read lease queue position" f) in
                 do* a := leave id EntryCancelled e in Ret (Some a)
      | inl None => do* a := leave id EntryTimedOut (queueTimeout last 0) in Ret (Some a)
      | inl (Some (ahead, true)) =>
          do* a := leave id EntryTimedOut (queueTimeout last ahead) in Ret (Some a)
      | inl (Some (ahead, false)) =>
          if ahead =? 0 then
            do* lease := AcquireTyped m (qr_Actor req) (qr_Targets req) (qr_Intent req) in
            match lease with
            | inl lease => do* a := grant m id lease in Ret (Some a)
            | inr e =>
                if retryableLeaseError e then next (Some e) else
                do* e := callerError e in
                do* a := leave id EntryCancelled e in Ret (Some a)
            end
          else next last
      end
  end.

(** *** Acquire *)

Definition queue_or_wait (polls : nat) (m : PostgresLeaseManager) (req : QueuedLeaseRequest)
    (requestKey : string) (keys : list string) (resumed : option Z) : prog (option answer) :=
  match resumed with
  | Some id => wait polls m req id None
  | None =>
      do* immediate := tryImmediate m req keys in
      match immediate with
      | Some a => Ret (Some a)
      | None =>
          do* queued := enqueue m req requestKey keys in
          match queued with
          | inl id => wait polls m req id None
          | inr e => Ret (Some (inr e))
          end
      end
  end.

Definition Acquire (polls : nat) (req : QueuedLeaseRequest) : prog (option answer) :=
  match validate_request req with
  | inr e => Ret (Some (inr e))
  | inl m =>
      let keys := TypedLeaseKeys (qr_Targets req) in
      let requestKey := leaseRequestKey (qr_Kind req) (qr_Intent req) keys in
      do~ swept := SweepQueue (lq_DatabaseID q) in
      match swept with
      | inr f => Ret (Some (inr (Broken "expire lease queue entries" f)))
      | inl _ =>
          do~ resumed := ResumeEntry (lq_DatabaseID q) requestKey (lq_instance q) (qr_Actor req)
                           (pm_DecisionID m) (qc_StaleAfter (lq_cfg q)) in
          match resumed with
          | inr f => Ret (Some (inr (Broken "resume lease queue entry" f)))
          | inl resumed => queue_or_wait polls m req requestKey keys resumed
          end
      end
  end.
End Queue.

(** ** The system *)

(** An operation under way; what it answers is the caller's. *)
Inductive operation : Type :=
| OpAcquireLease (m : PostgresLeaseManager) (actor : string) (objects : list TargetObject)
    (intent : string)
| OpAcquireTyped (m : PostgresLeaseManager) (actor : string) (targets : list TypedTarget)
    (intent : string)
| OpReleaseLease (m : PostgresLeaseManager) (id : LeaseID)
| OpQueueAcquire (q : LeaseQueue) (polls : nat) (req : QueuedLeaseRequest).

Definition of_answer (p : prog answer) : prog (option answer) := do* a := p in Ret (Some a).

Definition program (op : operation) : prog (option answer) :=
  match op with
  | OpAcquireLease m actor objects intent => of_answer (AcquireLease m actor objects intent)
  | OpAcquireTyped m actor targets intent => of_answer (AcquireTyped m actor targets intent)
  | OpReleaseLease m id =>
      do* e := ReleaseLease m id in
      Ret (Some match e with Some e => inr e | None => inl id end)
  | OpQueueAcquire q polls req => Acquire q polls req
  end.

(** A session that is lost gives its locks back. *)
Definition lose_session (s : Z) (sv : Server) : Server :=
  set_Conns (sv_Conns sv) ({[s]} ∪ sv_Lost sv)
    (set_Locks (filter (fun kv => kv.2.1 <> s) (sv_Locks sv)) sv).

(** Time passes, and sessions are lost. *)
Inductive event : Type :=
| Pass (d : Duration)
| Lose (s : Z).

Definition happens (e : event) (sv : Server) : option Server :=
  match e with
  | Pass d => if 0 <=? d then Some (set_Now (sv_Now sv + d) sv) else None
  | Lose s => Some (lose_session s sv)
  end.

#[global] Instance leases : Machine stmt failure outcome Server event operation (option answer) :=
  { m_exec := @exec; m_event := happens; m_program := program }.
Abbreviation System := (Interleave.System stmt failure Server operation (option answer)).
Abbreviation action := (Interleave.action outcome event operation).

Definition empty_server (now : Time) : Server :=
  {| sv_Now := now; sv_Locks := ∅; sv_Rows := []; sv_Queue := []; sv_NextID := 1; sv_Conns := ∅;
     sv_Lost := ∅; sv_Held := ∅; sv_Issued := ∅ |}.
Definition fresh (sv : Server) : Prop := exists now, sv = empty_server now.
