(* ===== verification/LeaseSafety.v ===== *)
(** * One lease per object

    However the operations of LeaseQueue.v interleave, two leases held at once
    never share a key: each holds the advisory locks of all its keys on a session
    of its own.  An operation owns at most one session and knows the locks it
    took there; the proof follows that ownership through every program. *)

From S2P Require Import Prelude.
From S2P Require Import GoStd.
From S2P Require Import Lease.
From S2P Require Import LeaseStore.
From S2P Require Import LeaseQueue.

#[local] Opaque advisoryObjectKey.

(** ** What an operation owns *)

(** A session with advisory keys it holds there, unless the session is lost; and
    the lease ids it drew. *)
Record owned : Type := { ow_sess : option (Z * list Z); ow_ids : list string }.

Definition no_session (ids : list string) : owned := {| ow_sess := None; ow_ids := ids |}.
Definition with_session (s : Z) (ks : list Z) (o : owned) : owned :=
  {| ow_sess := Some (s, ks); ow_ids := ow_ids o |}.
Definition without_session (o : owned) : owned := no_session (ow_ids o).
Definition with_id (id : string) (o : owned) : owned :=
  {| ow_sess := ow_sess o; ow_ids := id :: ow_ids o |}.

Fixpoint drop_one (k : Z) (l : list Z) : list Z :=
  match l with [] => [] | x :: l' => if x =? k then l' else x :: drop_one k l' end.

Section Ownership.
(** The manager and the keys of the lease the operation takes. *)
Context (want : option (Z * list Z)).

(** From [o] on, [p] only uses what it owns, remembers only leases with all
    their locks, and ends with [Q]. *)
Fixpoint owns {A} (o : owned) (p : prog A) (Q : A -> owned -> Prop) : Prop :=
  match p with
  | Ret a => Q a o
  | @Do _ _ _ X st k =>
      match st in stmt X return (X + failure -> prog A) -> Prop with
      | AcquireConn => fun k =>
          ow_sess o = None /\ (forall s, owns (with_session s [] o) (k (inl s)) Q) /\
          (forall f, owns o (k (inr f)) Q)
      | ReleaseConn s => fun k =>
          (exists ks, ow_sess o = Some (s, ks)) /\
          forall r, owns (without_session o) (k r) Q
      | NewLeaseID => fun k =>
          (forall id, owns (with_id id o) (k (inl id)) Q) /\ (forall f, owns o (k (inr f)) Q)
      | Remember m id s keys => fun k =>
          (exists ks, ow_sess o = Some (s, ks) /\ ks ≡ₚ keys) /\
          want = Some (m, keys) /\ id ∈ ow_ids o /\ forall r, owns (without_session o) (k r) Q
      | Forget m id => fun k =>
          ow_sess o = None /\ (forall s l, owns (with_session s l o) (k (inl (Some (s, l)))) Q) /\
          owns o (k (inl None)) Q /\ (forall f, owns o (k (inr f)) Q)
      | TryLock s key => fun k =>
          exists ks, ow_sess o = Some (s, ks) /\
            owns (with_session s (key :: ks) o) (k (inl true)) Q /\
            owns o (k (inl false)) Q /\ (forall f, owns o (k (inr f)) Q)
      | Unlock s key => fun k =>
          exists ks, ow_sess o = Some (s, ks) /\
            forall r, owns (with_session s (drop_one key ks) o) (k r) Q
      | _ => fun k => forall r, owns o (k r) Q
      end k
  end.

Lemma owns_bind {A B} (p : prog A) (f : A -> prog B) o Q R :
  owns o p Q -> (forall a o', Q a o' -> owns o' (f a) R) -> owns o (pbind p f) R.
Proof.
  intros Hp Hf. revert o Hp. induction p as [a|X st k IH]; intros o; [apply Hf|].
  cbn [pbind]. destruct st; cbn; naive_solver.
Qed.

Lemma owns_mono {A} (p : prog A) o (Q R : A -> owned -> Prop) :
  owns o p Q -> (forall a o', Q a o' -> R a o') -> owns o p R.
Proof.
  intros Hp Hf. revert o Hp. induction p as [a|X st k IH]; intros o; [apply Hf|].
  destruct st; cbn; naive_solver.
Qed.

(** ** The manager's programs *)

(** Session [s] and the locks [l] there. *)
Definition holding (s : Z) (l : list Z) (ids : list string) (o : owned) : Prop :=
  ow_ids o = ids /\ exists ks, ow_sess o = Some (s, ks) /\ ks ≡ₚ l.
Definition free (ids : list string) (o : owned) : Prop := o = no_session ids.

Lemma drop_one_elem k l : k ∈ l -> l ≡ₚ k :: drop_one k l.
Proof.
  induction l as [|x l IH]; [by intros ?%elem_of_nil|]. cbn. intros [->|Hk]%elem_of_cons.
  - by rewrite Z.eqb_refl.
  - destruct (Z.eqb_spec x k) as [->|]; [done|]. rewrite Permutation_swap. by rewrite <- IH.
Qed.

Lemma drop_one_perm k l l0 : l ≡ₚ k :: l0 -> drop_one k l ≡ₚ l0.
Proof.
  intros Hp. apply (Permutation_cons_inv (a := k)). rewrite <- Hp. symmetry. apply drop_one_elem.
  rewrite Hp. apply elem_of_cons. by left.
Qed.

Lemma holding_session s l ids o : holding s l ids o ->
  (exists ks, ow_sess o = Some (s, ks)) /\ without_session o = no_session ids.
Proof. intros (Hi & ks & Hs & Hk). split; [by exists ks|]. unfold without_session. by rewrite Hi. Qed.

Lemma owns_release_each s keys ids : forall o, holding s keys ids o ->
  owns o (release_each s keys) (fun _ o' => holding s [] ids o').
Proof.
  induction keys as [|k keys IH]; intros o Ho; [exact Ho|]. cbn.
  destruct Ho as (Hi & ks & Hs & Hk). exists ks. split; [exact Hs|]. intros _. apply IH. split; [done|].
  eexists. split; [done|]. by apply drop_one_perm.
Qed.

Lemma owns_release s held ids o : holding s held ids o ->
  owns o (releaseAdvisoryLocks s held) (fun _ o' => holding s [] ids o').
Proof.
  intros (Hi & ks & Hs & Hk). apply owns_release_each. split; [done|]. exists ks. split; [done|].
  by rewrite Hk, <- Permutation_rev.
Qed.

Lemma owns_conflict m s key o (Q : lease_error -> owned -> Prop) :
  (forall e, Q e o) -> owns o (conflict m s key) Q.
Proof. intros H. cbn. intros r. apply H. Qed.

Definition adv (key : leaseKey) : Z := advisoryObjectKey (lk_key key).

(** Either all the locks, or none. *)
Definition all_or_none (s : Z) (keys : list Z) (ids : list string) (r : list Z + lease_error)
    (o : owned) : Prop :=
  match r with
  | inl held => held = keys /\ holding s keys ids o
  | inr _ => holding s [] ids o
  end.

Lemma owns_lock_keys m s keys ids : forall held o, holding s held ids o ->
  owns o (lock_keys m s keys held) (all_or_none s (held ++ map adv keys) ids).
Proof.
  induction keys as [|key keys IH]; intros held o Ho.
  { cbn. rewrite app_nil_r. by split. }
  cbn. pose proof Ho as (Hi & ks & Hs & Hk). exists ks. split; [exact Hs|]. split_and!.
  - replace (held ++ adv key :: map adv keys) with ((held ++ [adv key]) ++ map adv keys)
      by (by rewrite <- app_assoc).
    apply IH. split; [done|]. eexists. split; [done|]. rewrite Hk. apply Permutation_cons_append.
  - eapply owns_bind; [by apply owns_release|]. intros [] o' Ho'. cbn. by intros r.
  - intros f. eapply owns_bind; [by apply owns_release|]. by intros [] o' Ho'.
Qed.

Lemma owns_acquire_locks m s keys ids o : holding s [] ids o ->
  owns o (acquireAdvisoryLocks m s keys) (all_or_none s (map adv keys) ids).
Proof. apply owns_lock_keys. Qed.

(** Statements that own nothing. *)
Lemma owns_persist m s id actor intent keys o (Q : option lease_error -> owned -> Prop) :
  (forall e, Q e o) -> owns o (persistLease m s id actor intent keys) Q.
Proof.
  intros HQ. cbn. intros [[]|f]; [|apply HQ].
  induction keys as [|key keys IH]; [apply HQ|]. cbn. intros [[]|f]; [apply IH| |]; cbn; intros; apply HQ.
Qed.

Lemma owns_acquireConn ids : owns (no_session ids) acquireConn (fun r o =>
  match r with inl s => holding s [] ids o | inr _ => free ids o end).
Proof.
  cbn. split; [done|]. split.
  - intros s. split; [done|]. by exists [].
  - intros f. intros [[]|]; cbn; destruct f; done.
Qed.

Lemma owns_give_back s held e ids o : holding s held ids o ->
  owns o (give_back s held e) (fun a o' => a = inr e /\ free ids o').
Proof.
  intros Ho. eapply owns_bind; [by apply owns_release|]. intros _ o' [Hs Hn]%holding_session. cbn.
  split; [exact Hs|]. intros _. by split.
Qed.

(** What an acquisition ends with: the lease was remembered, or there is none. *)
Definition acquired (a : answer) (o : owned) : Prop :=
  ow_sess o = None /\ forall id, a = inl id -> id ∈ ow_ids o.

Lemma owns_acquireKeys m actor keys intent ids : want = Some (pm_ID m, map adv keys) ->
  owns (no_session ids) (acquireKeys m actor keys intent) acquired.
Proof.
  intros Hw. unfold acquireKeys. destruct (validateAcquire _ _ _ _); [by split|].
  eapply owns_bind; [apply owns_acquireConn|]. intros [s|e] o Ho; [|by rewrite Ho].
  eapply owns_bind; [by apply owns_acquire_locks|]. intros [held|e] o1 Ho1.
  - destruct Ho1 as [-> Ho1]. cbn [owns]. split.
    + intros id. eapply owns_bind.
      * apply owns_persist with (Q := fun _ o' => o' = with_id id o1). done.
      * intros [e|] o2 ->.
        -- eapply owns_mono; [apply (owns_give_back _ _ _ (id :: ids))|].
           ++ destruct Ho1 as (Hi & ks & Hs & Hk). split; [cbn; by rewrite Hi|]. by exists ks.
           ++ by intros a o' [-> ->].
        -- cbn. destruct Ho1 as (Hi & ks & Hs & Hk). split_and!.
           ++ by exists ks.
           ++ by rewrite Hw.
           ++ apply elem_of_cons. by left.
           ++ intros _. split; [done|]. intros id' [= <-]. apply elem_of_cons. by left.
    + intros f. eapply owns_mono; [by apply (owns_give_back _ _ _ ids)|]. by intros a o' [-> ->].
  - cbn. apply holding_session in Ho1 as [Hs _]. by split.
Qed.

Lemma owns_ReleaseLease m id ids :
  owns (no_session ids) (ReleaseLease m id) (fun _ o => free ids o).
Proof.
  cbn. split; [done|]. split_and!; try done. intros s l r. eapply owns_bind.
  - apply (owns_release _ _ ids). split; [done|]. by exists l.
  - intros _ o [Hs Hn]%holding_session. cbn. split; [exact Hs|]. intros _. exact Hn.
Qed.

(** ** The queue's programs *)

Definition waited (a : option answer) (o : owned) : Prop :=
  ow_sess o = None /\ forall id, a = Some (inl id) -> id ∈ ow_ids o.

Lemma owns_leave id state cause o :
  owns o (leave id state cause) (fun a o' => o' = o /\ exists e, a = inr e).
Proof. cbn. intros [[]|f]; split; eauto. Qed.

(** Ends by leaving the queue. *)
Lemma owns_left id state cause ids :
  owns (no_session ids) (do* a := leave id state cause in Ret (Some a)) waited.
Proof. eapply owns_bind; [apply owns_leave|]. intros a o [-> [e ->]]. by split. Qed.

Lemma owns_callerError {B} e (f : lease_error -> prog B) o Q :
  (forall e', owns o (f e') Q) -> owns o (do* e' := callerError e in f e') Q.
Proof. intros H. eapply owns_bind with (Q := fun _ o' => o' = o); [by intros r|]. by intros e' o' ->. Qed.

Lemma owns_grant m id lease ids : lease ∈ ids ->
  owns (no_session ids) (do* a := grant m id lease in Ret (Some a)) waited.
Proof.
  intros Hin. eapply owns_bind with (Q := fun a o => o = no_session ids /\ forall id, a = inl id -> id ∈ ids).
  - cbn [grant resolve pbind owns]. unfold grant, resolve. cbn [pbind owns]. intros [[]|f].
    + split; [done|]. by intros id' [= <-].
    + eapply owns_bind; [apply (owns_ReleaseLease _ _ ids)|]. intros e o ->. by split.
  - intros a o [-> Ha]. split; [done|]. intros id' [= ->]. by apply Ha.
Qed.

Section Queued.
Context (q : LeaseQueue) (m : PostgresLeaseManager) (req : QueuedLeaseRequest).
Context (wanted : want = Some (pm_ID m, map adv (typedKeys (qr_Targets req)))).

Lemma owns_wait polls id : forall last ids, owns (no_session ids) (wait q polls m req id last) waited.
Proof.
  induction polls as [|polls IH]; intros last ids; [by split|].
  assert (Hnext : forall l ids, owns (no_session ids)
    (do~ gone := NextTick in
     match gone with
     | inl true => do* a := leave id EntryCancelled CallerEnded in Ret (Some a)
     | _ => wait q polls m req id l
     end) waited).
  { intros l ids'. cbn [owns]. intros [[]|f]; [apply owns_left|apply IH|apply IH]. }
  cbn [wait owns]. intros [[[ahead []]|]|f].
  - apply owns_left.
  - destruct (ahead =? 0); [|apply Hnext].
    eapply owns_bind; [by apply owns_acquireKeys|]. intros [lease|e] o [Hs Hid].
    + destruct o as [sess ids']. cbn in Hs. subst sess. apply owns_grant. by apply Hid.
    + destruct o as [sess ids']. cbn in Hs. subst sess.
      destruct (retryableLeaseError e); [apply Hnext|]. apply owns_callerError. intros e'. apply owns_left.
  - apply owns_left.
  - apply owns_callerError. intros e'. apply owns_left.
Qed.

Lemma owns_queue_or_wait polls requestKey keys resumed ids :
  owns (no_session ids) (queue_or_wait q polls m req requestKey keys resumed) waited.
Proof.
  destruct resumed as [id|]; [apply owns_wait|]. cbn [queue_or_wait].
  eapply owns_bind with (Q := fun a o => ow_sess o = None /\
    forall id, a = Some (inl id) -> id ∈ ow_ids o).
  - cbn [tryImmediate]. unfold tryImmediate. cbn [owns]. intros [[]|f]; [by split| |by split].
    eapply owns_bind; [by apply owns_acquireKeys|]. intros [lease|e] o [Hs Hid].
    + split; [done|]. intros id [= <-]. by apply Hid.
    + destruct (retryableLeaseError e); by split.
  - intros a [sess ids'] [Hs Hid]. cbn in Hs. subst sess. destruct a as [a|]; [by split|].
    cbn. intros [[]|f]; try by split. apply owns_wait.
Qed.
End Queued.

(** The manager and the keys of an operation that takes a lease. *)
Definition wants (op : operation) : option (Z * list leaseKey) :=
  match op with
  | OpAcquireLease m _ objects _ => Some (pm_ID m, map object_key objects)
  | OpAcquireTyped m _ targets _ => Some (pm_ID m, typedKeys targets)
  | OpReleaseLease _ _ => None
  | OpQueueAcquire _ _ req =>
      option_map (fun m => (pm_ID m, typedKeys (qr_Targets req))) (qr_Manager req)
  end.

(** What an operation ends with. *)
Definition ended (op : operation) (a : option answer) (o : owned) : Prop :=
  ow_sess o = None /\ (is_Some (wants op) -> forall id, a = Some (inl id) -> id ∈ ow_ids o).

Lemma owns_of_answer p o : owns o p acquired -> owns o (of_answer p) waited.
Proof.
  intros Hp. eapply owns_bind; [exact Hp|]. intros a o' [Hs Hid]. split; [done|].
  intros id [= ->]. by apply Hid.
Qed.

Lemma owns_program op :
  (forall m keys, wants op = Some (m, keys) -> want = Some (m, map adv keys)) ->
  owns (no_session []) (program op) (ended op).
Proof.
  intros Hw. destruct op as [m actor objects intent|m actor targets intent|m id|q polls req]; cbn [program].
  - eapply owns_mono; [apply owns_of_answer, owns_acquireKeys; by apply Hw|]. intros a o []. by split.
  - eapply owns_mono; [apply owns_of_answer, owns_acquireKeys; by apply Hw|]. intros a o []. by split.
  - eapply owns_bind; [apply (owns_ReleaseLease _ _ [])|]. intros e o ->. split; [done|]. by intros [].
  - unfold Acquire, validate_request in *. destruct (negb _); [by split|].
    cbn [wants] in Hw. destruct (qr_Manager req) as [m|]; [|by split].
    specialize (Hw (pm_ID m) (typedKeys (qr_Targets req)) eq_refl).
    repeat (destruct (_ : bool); [by split|]).
    cbn [owns]. intros [[]|f]; [|by split]. intros [resumed|f]; [|by split].
    eapply owns_mono; [by apply owns_queue_or_wait|]. intros a o []. by split.
Qed.
End Ownership.

(** ** The system's invariant *)

Definition held_count (sv : Server) (s k : Z) : nat :=
  match sv_Locks sv !! k with Some (s', n) => if s' =? s then n else 0%nat | None => 0%nat end.

(** Session [s] holds the locks [l], unless it is lost. *)
Definition holds_locks (sv : Server) (s : Z) (l : list Z) : Prop :=
  s ∉ sv_Lost sv -> forall k, (count_occ Z.eq_dec l k <= held_count sv s k)%nat.

Definition want_of (op : operation) : option (Z * list Z) :=
  option_map (fun w : Z * list leaseKey => (w.1, map adv w.2)) (wants op).

(** [who] says which operation or lease has a session, [issuer] which operation
    drew a lease id. *)
Record core (sv : Server) (os : list owned) (who : gmap Z (nat + Z * string))
    (issuer : gmap string nat) (ops : list operation) : Prop := {
  co_sess : forall i o s ks, os !! i = Some o -> ow_sess o = Some (s, ks) ->
    who !! s = Some (inl i) /\ holds_locks sv s ks;
  co_held : forall m id s l, sv_Held sv !! (m, id) = Some (s, l) ->
    who !! s = Some (inr (m, id)) /\ holds_locks sv s l /\
    exists i op, issuer !! id = Some i /\ ops !! i = Some op /\ want_of op = Some (m, l);
  co_who : forall s, is_Some (who !! s) -> s ∈ sv_Conns sv;
  co_ids : forall i o id, os !! i = Some o -> id ∈ ow_ids o -> issuer !! id = Some i;
  co_issued : forall id, is_Some (issuer !! id) -> id ∈ sv_Issued sv;
}.

(** The tables the invariant reads. *)
Record same_core (sv sv' : Server) : Prop := {
  sc_Locks : sv_Locks sv' = sv_Locks sv;
  sc_Conns : sv_Conns sv' = sv_Conns sv;
  sc_Lost : sv_Lost sv' = sv_Lost sv;
  sc_Held : sv_Held sv' = sv_Held sv;
  sc_Issued : sv_Issued sv' = sv_Issued sv;
}.

Lemma core_same sv sv' os who issuer ops :
  same_core sv sv' -> core sv os who issuer ops -> core sv' os who issuer ops.
Proof.
  intros [E1 E2 E3 E4 E5] [H1 H2 H3 H4 H5].
  split; unfold holds_locks, held_count in *; rewrite ?E1, ?E2, ?E3, ?E4, ?E5; assumption.
Qed.

(** Statements on the lease rows, the queue and the caller. *)
Definition neutral {X} (st : stmt X) : bool :=
  match st with
  | AcquireConn | ReleaseConn _ | NewLeaseID | Remember _ _ _ _ | Forget _ _ | TryLock _ _
  | Unlock _ _ => false
  | _ => true
  end.

Lemma neutral_done {X} (st : stmt X) n sv r : neutral st = true ->
  exec_done n st sv = Some r -> same_core sv r.2.
Proof.
  intros Hn. destruct st; try done; cbn; unfold insert_row, enqueue_entry, position; cbv zeta;
    intros H; repeat case_match; simplify_eq; by split.
Qed.

Lemma neutral_exec {X} (st : stmt X) oc sv r sv' : neutral st = true ->
  exec oc st sv = Some (r, sv') -> same_core sv sv'.
Proof.
  intros Hn. destruct oc as [n|applied f]; cbn [exec].
  - destruct (exec_done n st sv) as [[x sv1]|] eqn:E; [|done]. intros [= _ <-].
    by apply (neutral_done _ _ _ _ Hn E).
  - destruct (negb _); [done|]. intros [= _ <-]. destruct (_ && _); [|by split].
    destruct (exec_done 0 st sv) as [[x sv1]|] eqn:E; [|by split]. by apply (neutral_done _ _ _ _ Hn E).
Qed.

Lemma neutral_owns {A X} want o (st : stmt X) (k : X + failure -> prog A) Q :
  neutral st = true -> owns want o (Do st k) Q -> forall r, owns want o (k r) Q.
Proof. by destruct st. Qed.

(** ** The lock table *)

Lemma held_try_true sv s k sv' : try_lock sv s k = (true, sv') ->
  forall s' k', held_count sv' s' k' =
    if bool_decide (s' = s /\ k' = k) then S (held_count sv s k) else held_count sv s' k'.
Proof.
  unfold try_lock, held_count. intros H s' k'.
  destruct (sv_Locks sv !! k) as [[s0 n]|] eqn:Ek.
  - destruct (Z.eqb_spec s0 s) as [->|]; [|done]. injection H as <-. cbn [sv_Locks set_Locks].
    destruct (decide (k' = k)) as [->|Hk]; [rewrite lookup_insert_eq, Ek|rewrite lookup_insert_ne by done].
    + destruct (Z.eqb_spec s s') as [->|]; case_bool_decide; naive_solver.
    + case_bool_decide; naive_solver.
  - injection H as <-. cbn [sv_Locks set_Locks].
    destruct (decide (k' = k)) as [->|Hk]; [rewrite lookup_insert_eq, Ek|rewrite lookup_insert_ne by done].
    + destruct (Z.eqb_spec s s') as [->|]; case_bool_decide; naive_solver.
    + case_bool_decide; naive_solver.
Qed.

Lemma held_try_false sv s k sv' : try_lock sv s k = (false, sv') -> sv' = sv.
Proof. unfold try_lock. intros H. repeat case_match; by simplify_eq. Qed.

(** An unlock gives back one lock of its own session. *)
Lemma held_unlock sv s k s' k' : (held_count sv s' k' - (if bool_decide (s' = s /\ k' = k) then 1 else 0)
  <= held_count (unlock sv s k) s' k')%nat.
Proof.
  unfold unlock, held_count. destruct (sv_Locks sv !! k) as [[s0 n]|] eqn:Ek; [|lia].
  destruct (Z.eqb_spec s0 s) as [->|Hs]; cbn [negb]; [|lia].
  destruct (Nat.leb_spec n 1); cbn [sv_Locks set_Locks];
    (destruct (decide (k' = k)) as [->|Hk];
     [rewrite ?lookup_delete_eq, ?lookup_insert_eq, ?Ek
     |rewrite ?lookup_delete_ne, ?lookup_insert_ne by done; lia]);
    (destruct (Z.eqb_spec s s') as [->|Hs]; [rewrite bool_decide_eq_true_2 by done|]); lia.
Qed.

Lemma count_drop k l k' : (count_occ Z.eq_dec (drop_one k l) k' <= count_occ Z.eq_dec l k')%nat /\
  (count_occ Z.eq_dec (drop_one k l) k <= count_occ Z.eq_dec l k - 1)%nat.
Proof.
  induction l as [|x l IH]; cbn [drop_one count_occ]; [lia|].
  destruct (Z.eqb_spec x k) as [->|Hx].
  - destruct (Z.eq_dec k k), (Z.eq_dec k k'); lia || done.
  - cbn [count_occ]. destruct (Z.eq_dec x k), (Z.eq_dec x k'); lia || done.
Qed.

(** Session [s] keeps its locks where the lock table does. *)
Lemma holds_mono sv sv' s l : sv_Lost sv ⊆ sv_Lost sv' ->
  (s ∉ sv_Lost sv' -> forall k, (held_count sv s k <= held_count sv' s k)%nat) ->
  holds_locks sv s l -> holds_locks sv' s l.
Proof.
  intros El E H Hl k. etransitivity; [apply H; set_solver|]. by apply E.
Qed.

Lemma holds_locked sv s k sv' l : try_lock sv s k = (true, sv') -> sv_Lost sv' = sv_Lost sv ->
  holds_locks sv s l -> holds_locks sv' s (k :: l).
Proof.
  intros Ht El H. unfold holds_locks. rewrite El. intros Hl k'. specialize (H Hl).
  rewrite (held_try_true _ _ _ _ Ht). cbn [count_occ].
  destruct (Z.eq_dec k k') as [<-|].
  - rewrite bool_decide_eq_true_2 by done. specialize (H k). lia.
  - rewrite bool_decide_eq_false_2 by naive_solver. apply H.
Qed.

Lemma holds_unlocked sv s k l : holds_locks sv s l -> holds_locks (unlock sv s k) s (drop_one k l).
Proof.
  intros H. unfold holds_locks. replace (sv_Lost (unlock sv s k)) with (sv_Lost sv)
    by (unfold unlock; repeat case_match; done).
  intros Hl k'. specialize (H Hl k'). pose proof (held_unlock sv s k s k') as Hu.
  destruct (count_drop k l k') as [H1 H2]. case_bool_decide as Hc; [destruct Hc as [_ ->]|]; lia.
Qed.

(** ** Each statement keeps the invariant *)

(** The owner of session [s] after operation [i] owns [o']. *)
Section Steps.
Context (sv : Server) (os : list owned) (who : gmap Z (nat + Z * string)).
Context (issuer : gmap string nat) (ops : list operation).
Context (Hcore : core sv os who issuer ops).
Context (i : nat) (o : owned) (Hi : os !! i = Some o).

Lemma put_lookup o' j x : <[i := o']> os !! j = Some x ->
  (j = i /\ x = o') \/ (j <> i /\ os !! j = Some x).
Proof. rewrite list_lookup_insert_Some. naive_solver. Qed.

Lemma ids_kept o' : (forall id, id ∈ ow_ids o' -> id ∈ ow_ids o) ->
  forall j x id, <[i := o']> os !! j = Some x -> id ∈ ow_ids x -> issuer !! id = Some j.
Proof.
  intros H j x id [[-> ->]|[_ Hx]]%put_lookup Hid; [|by eapply co_ids].
  eapply co_ids; [exact Hcore|exact Hi|by apply H].
Qed.

(** Sessions other operations and leases have are not [s]. *)
Lemma other_session s ks j x s' ks' : ow_sess o = Some (s, ks) -> os !! j = Some x -> j <> i ->
  ow_sess x = Some (s', ks') -> s' <> s.
Proof.
  intros Hs Hx Hj Hs' ->. destruct (co_sess _ _ _ _ _ Hcore i o s ks Hi Hs) as [H1 _].
  destruct (co_sess _ _ _ _ _ Hcore j x s ks' Hx Hs') as [H2 _]. congruence.
Qed.

Lemma lease_session s ks m id s' l : ow_sess o = Some (s, ks) -> sv_Held sv !! (m, id) = Some (s', l) ->
  s' <> s.
Proof.
  intros Hs Hl ->. destruct (co_sess _ _ _ _ _ Hcore i o s ks Hi Hs) as [H1 _].
  destruct (co_held _ _ _ _ _ Hcore m id s l Hl) as [H2 _]. congruence.
Qed.

(** The owner of [s] changes its locks from [ks] to [ks']. *)
Lemma core_locks s ks ks' sv' :
  ow_sess o = Some (s, ks) ->
  sv_Conns sv' = sv_Conns sv -> sv_Lost sv' = sv_Lost sv -> sv_Held sv' = sv_Held sv ->
  sv_Issued sv' = sv_Issued sv ->
  (forall s' k', s' <> s -> (held_count sv s' k' <= held_count sv' s' k')%nat) ->
  holds_locks sv' s ks' ->
  core sv' (<[i := with_session s ks' o]> os) who issuer ops.
Proof.
  intros Hs Ec El Eh Ei Hother Hmine. split.
  - intros j x s' k' [[-> ->]|[Hj Hx]]%put_lookup Hs'.
    + injection Hs' as <- <-. split; [by eapply co_sess|done].
    + destruct (co_sess _ _ _ _ _ Hcore j x s' k' Hx Hs') as [Hw Hl]. split; [exact Hw|].
      pose proof (other_session s ks j x s' k' Hs Hx Hj Hs') as Hne.
      apply (holds_mono sv); [by rewrite El|by auto|exact Hl].
  - intros m id s' l. rewrite Eh. intros Hl.
    destruct (co_held _ _ _ _ _ Hcore m id s' l Hl) as (Hw & Hh & Hex). split_and!; [done| |done].
    pose proof (lease_session s ks m id s' l Hs Hl). apply (holds_mono sv); [by rewrite El|by auto|exact Hh].
  - intros s'. rewrite Ec. by apply Hcore.
  - apply ids_kept. done.
  - intros id. rewrite Ei. by apply Hcore.
Qed.

Lemma core_try s ks key b sv' :
  ow_sess o = Some (s, ks) -> try_lock sv s key = (b, sv') ->
  core sv' (<[i := with_session s (if b then key :: ks else ks) o]> os) who issuer ops.
Proof.
  intros Hs Ht. destruct (co_sess _ _ _ _ _ Hcore i o s ks Hi Hs) as [_ Hk].
  assert (E : sv_Conns sv' = sv_Conns sv /\ sv_Lost sv' = sv_Lost sv /\ sv_Held sv' = sv_Held sv /\
              sv_Issued sv' = sv_Issued sv).
  { revert Ht. unfold try_lock. intros Ht. repeat case_match; by simplify_eq. }
  destruct E as (E1 & E2 & E3 & E4). eapply core_locks; try done.
  - intros s' k' Hne. destruct b; [|by apply held_try_false in Ht as ->].
    rewrite (held_try_true _ _ _ _ Ht). by rewrite bool_decide_eq_false_2 by naive_solver.
  - destruct b; [by apply (holds_locked sv)|]. by apply held_try_false in Ht as ->.
Qed.

Lemma core_unlock s ks key :
  ow_sess o = Some (s, ks) ->
  core (unlock sv s key) (<[i := with_session s (drop_one key ks) o]> os) who issuer ops.
Proof.
  intros Hs. destruct (co_sess _ _ _ _ _ Hcore i o s ks Hi Hs) as [_ Hk].
  assert (E : sv_Conns (unlock sv s key) = sv_Conns sv /\ sv_Lost (unlock sv s key) = sv_Lost sv /\
     sv_Held (unlock sv s key) = sv_Held sv /\ sv_Issued (unlock sv s key) = sv_Issued sv).
  { unfold unlock. repeat case_match; done. }
  destruct E as (E1 & E2 & E3 & E4). eapply core_locks; try done; [|by apply holds_unlocked].
  intros s' k' Hne. pose proof (held_unlock sv s key s' k') as Hu.
  rewrite bool_decide_eq_false_2 in Hu by naive_solver. lia.
Qed.

(** An unlock without effect. *)
Lemma core_forsake s ks key : ow_sess o = Some (s, ks) ->
  core sv (<[i := with_session s (drop_one key ks) o]> os) who issuer ops.
Proof.
  intros Hs. destruct (co_sess _ _ _ _ _ Hcore i o s ks Hi Hs) as [_ Hk].
  eapply core_locks; try done. intros Hl k'. specialize (Hk Hl k').
  destruct (count_drop key ks k') as [H1 _]. lia.
Qed.

Lemma core_conn n : ow_sess o = None -> n ∉ sv_Conns sv -> n ∉ sv_Lost sv ->
  core (set_Conns ({[n]} ∪ sv_Conns sv) (sv_Lost sv) sv) (<[i := with_session n [] o]> os)
    (<[n := inl i]> who) issuer ops.
Proof.
  intros Hs Hn Hl.
  assert (Hwho : forall s x, who !! s = Some x -> <[n := inl i]> who !! s = Some x).
  { intros s x Hx. rewrite lookup_insert_ne; [done|]. intros ->. apply Hn.
    eapply co_who; [exact Hcore|by eexists]. }
  split; cbn [sv_Conns sv_Lost sv_Held sv_Issued set_Conns].
  - intros j x s' ks' [[-> ->]|[Hj Hx]]%put_lookup Hs'.
    + injection Hs' as <- <-. split; [by rewrite lookup_insert_eq|]. intros _ k. cbn. lia.
    + destruct (co_sess _ _ _ _ _ Hcore j x s' ks' Hx Hs') as [Hw Hk]. by split; [apply Hwho|].
  - intros m id s l Hh. destruct (co_held _ _ _ _ _ Hcore m id s l Hh) as (Hw & Hr). split; [by apply Hwho|done].
  - intros s. destruct (decide (s = n)) as [->|Hne]; [set_solver|]. rewrite lookup_insert_ne by done.
    intros Hw. apply elem_of_union. right. by eapply co_who.
  - apply ids_kept. done.
  - apply Hcore.
Qed.

Lemma core_release s ks : ow_sess o = Some (s, ks) ->
  core (set_Conns (sv_Conns sv ∖ {[s]}) (sv_Lost sv) sv) (<[i := without_session o]> os)
    (delete s who) issuer ops.
Proof.
  intros Hs.
  split; cbn [sv_Conns sv_Lost sv_Held sv_Issued set_Conns].
  - intros j x s' ks' [[-> ->]|[Hj Hx]]%put_lookup Hs'; [done|].
    destruct (co_sess _ _ _ _ _ Hcore j x s' ks' Hx Hs') as [Hw Hk']. split; [|exact Hk'].
    rewrite lookup_delete_ne; [done|]. symmetry. by eapply other_session.
  - intros m id s' l Hh. destruct (co_held _ _ _ _ _ Hcore m id s' l Hh) as (Hw & Hr). split; [|done].
    rewrite lookup_delete_ne; [done|]. symmetry. by eapply lease_session.
  - intros s' Hw. destruct (decide (s' = s)) as [->|Hne]; [rewrite lookup_delete_eq in Hw; by destruct Hw|].
    rewrite lookup_delete_ne in Hw by done. apply elem_of_difference. split; [by eapply co_who|set_solver].
  - apply ids_kept. done.
  - apply Hcore.
Qed.

Lemma core_id id : id ∉ sv_Issued sv ->
  core (set_Issued ({[id]} ∪ sv_Issued sv) sv) (<[i := with_id id o]> os) who (<[id := i]> issuer) ops.
Proof.
  intros Hid.
  assert (Hiss : forall x j, issuer !! x = Some j -> <[id := i]> issuer !! x = Some j).
  { intros x j Hx. rewrite lookup_insert_ne; [done|]. intros ->. apply Hid.
    eapply co_issued; [exact Hcore|by eexists]. }
  split; cbn [sv_Conns sv_Lost sv_Held sv_Issued set_Issued].
  - intros j x s ks [[-> ->]|[Hj Hx]]%put_lookup Hs.
    + exact (co_sess _ _ _ _ _ Hcore i o s ks Hi Hs).
    + exact (co_sess _ _ _ _ _ Hcore j x s ks Hx Hs).
  - intros m x s l Hh. destruct (co_held _ _ _ _ _ Hcore m x s l Hh) as (Hw & Hl & j & op & Hj & Hr).
    split_and!; try done. exists j, op. split; [by apply Hiss|done].
  - apply Hcore.
  - intros j x y [[-> ->]|[Hj Hx]]%put_lookup Hy.
    + apply elem_of_cons in Hy as [->|Hy]; [by rewrite lookup_insert_eq|]. eapply Hiss, co_ids; done.
    + eapply Hiss, co_ids; done.
  - intros x Hx. destruct (decide (x = id)) as [->|Hne]; [set_solver|].
    rewrite lookup_insert_ne in Hx by done. apply elem_of_union. right. by eapply co_issued.
Qed.

Lemma core_remember m id s keys op ks :
  ow_sess o = Some (s, ks) -> ks ≡ₚ keys ->
  ops !! i = Some op -> want_of op = Some (m, keys) -> id ∈ ow_ids o ->
  core (set_Held (<[(m, id) := (s, keys)]> (sv_Held sv)) sv) (<[i := without_session o]> os)
    (<[s := inr (m, id)]> who) issuer ops.
Proof.
  intros Hs Hk Hop Hwant Hid.
  destruct (co_sess _ _ _ _ _ Hcore i o s ks Hi Hs) as [Hws Hl].
  split; cbn [sv_Conns sv_Lost sv_Held sv_Issued set_Held].
  - intros j x s' ks' [[-> ->]|[Hj Hx]]%put_lookup Hs'; [done|].
    destruct (co_sess _ _ _ _ _ Hcore j x s' ks' Hx Hs') as [Hw Hl']. split; [|exact Hl'].
    rewrite lookup_insert_ne; [done|]. symmetry. by eapply other_session.
  - intros m' id' s' l. rewrite lookup_insert_Some. intros [[[= <- <-] [= <- <-]]|[Hne Hh]].
    + split_and!; [by rewrite lookup_insert_eq| |exists i, op; split_and!; try done; by eapply co_ids].
      intros Hlost k. rewrite <- (proj1 (Permutation_count_occ Z.eq_dec ks keys) Hk). by apply Hl.
    + destruct (co_held _ _ _ _ _ Hcore m' id' s' l Hh) as (Hw & Hr). split; [|done].
      rewrite lookup_insert_ne; [done|]. symmetry. by eapply lease_session.
  - intros s' Hw. destruct (decide (s' = s)) as [->|Hne]; [eapply co_who; [exact Hcore|by eexists]|].
    rewrite lookup_insert_ne in Hw by done. by eapply co_who.
  - apply ids_kept. done.
  - apply Hcore.
Qed.

Lemma core_forget m id s l : ow_sess o = None -> sv_Held sv !! (m, id) = Some (s, l) ->
  core (set_Held (delete (m, id) (sv_Held sv)) sv) (<[i := with_session s l o]> os)
    (<[s := inl i]> who) issuer ops.
Proof.
  intros Hs Hh. destruct (co_held _ _ _ _ _ Hcore m id s l Hh) as (Hw & Hl & _).
  split; cbn [sv_Conns sv_Lost sv_Held sv_Issued set_Held].
  - intros j x s' ks' [[-> ->]|[Hj Hx]]%put_lookup Hs'.
    + injection Hs' as <- <-. split; [by rewrite lookup_insert_eq|exact Hl].
    + destruct (co_sess _ _ _ _ _ Hcore j x s' ks' Hx Hs') as [Hw' Hl']. split; [|exact Hl'].
      rewrite lookup_insert_ne; [done|]. congruence.
  - intros m' id' s' l'. rewrite lookup_delete_Some. intros [Hne Hh'].
    destruct (co_held _ _ _ _ _ Hcore m' id' s' l' Hh') as (Hw' & Hr). split; [|done].
    rewrite lookup_insert_ne; [done|]. congruence.
  - intros s' Hw'. destruct (decide (s' = s)) as [->|Hne]; [eapply co_who; [exact Hcore|by eexists]|].
    rewrite lookup_insert_ne in Hw' by done. by eapply co_who.
  - apply ids_kept. done.
  - apply Hcore.
Qed.
End Steps.

(** One statement of operation [i], which then owns [o']. *)
Lemma core_exec {A} sv os who issuer ops i o op {X} (st : stmt X) (k : X + failure -> prog A) Q oc r sv' :
  core sv os who issuer ops -> os !! i = Some o -> ops !! i = Some op ->
  owns (want_of op) o (Do st k) Q -> exec oc st sv = Some (r, sv') ->
  exists o' who' issuer', core sv' (<[i := o']> os) who' issuer' ops /\ owns (want_of op) o' (k r) Q.
Proof.
  intros Hc Hi Hop Ho He. destruct (neutral st) eqn:Hn.
  { exists o, who, issuer. rewrite list_insert_id by done. split.
    - eapply core_same; [by eapply neutral_exec|done].
    - by eapply neutral_owns. }
  destruct st; try done; clear Hn.
  - (* AcquireConn *) destruct Ho as (Hs & Hok & Hfail). destruct oc as [n|applied f]; cbn in He.
    + case_bool_decide as Hn; [|done]. injection He as <- <-. destruct Hn as [Hn Hl].
      exists (with_session n [] o), (<[n := inl i]> who), issuer. split; [by apply core_conn|apply Hok].
    + rewrite andb_false_r in He. injection He as <- <-. exists o, who, issuer.
      rewrite list_insert_id by done. split; [done|apply Hfail].
  - (* ReleaseConn *) destruct Ho as (Hs & Hok). destruct oc as [n|applied f]; [|done]. cbn in He.
    injection He as <- <-. exists (without_session o), (delete s who), issuer.
    destruct Hs as [ks Hs]. split; [by eapply core_release|apply Hok].
  - (* NewLeaseID *) destruct Ho as (Hok & Hfail). destruct oc as [n|applied f]; cbn in He.
    + case_bool_decide as Hn; [done|]. injection He as <- <-.
      exists (with_id (lease_id n) o), who, (<[lease_id n := i]> issuer). split; [by apply core_id|apply Hok].
    + rewrite andb_false_r in He. injection He as <- <-. exists o, who, issuer.
      rewrite list_insert_id by done. split; [done|apply Hfail].
  - (* Remember *) destruct Ho as ((ks & Hs & Hk) & Hw & Hid & Hok). destruct oc as [n|applied f]; [|done].
    cbn in He. injection He as <- <-.
    exists (without_session o), (<[s := inr (manager, id)]> who), issuer.
    split; [by eapply core_remember|apply Hok].
  - (* Forget *) destruct Ho as (Hs & Hok & Hnone & Hfail). destruct oc as [n|applied f]; [|done].
    cbn in He. injection He as <- <-. destruct (sv_Held sv !! (manager, id)) as [[s l]|] eqn:Eh.
    + exists (with_session s l o), (<[s := inl i]> who), issuer.
      split; [by apply core_forget|apply Hok].
    + exists o, who, issuer. rewrite list_insert_id by done. split; [|done].
      eapply core_same; [|exact Hc]. split; try done. by apply delete_id.
  - (* TryLock *) destruct Ho as (ks & Hs & Htrue & Hfalse & Hfail).
    destruct oc as [n|applied f]; cbn in He; unfold alive in He.
    + case_bool_decide as Hl; [|done]. destruct (try_lock sv s key) as [b sv1] eqn:Et.
      injection He as <- <-. exists (with_session s (if b then key :: ks else ks) o), who, issuer.
      split; [by eapply core_try|]. destruct b; [exact Htrue|].
      replace (with_session s ks o) with o; [exact Hfalse|]. destruct o. cbn in Hs. by subst.
    + rewrite andb_false_r in He. injection He as <- <-. exists o, who, issuer.
      rewrite list_insert_id by done. split; [done|apply Hfail].
  - (* Unlock *) destruct Ho as (ks & Hs & Hok).
    exists (with_session s (drop_one key ks) o), who, issuer. split; [|apply Hok].
    destruct oc as [n|applied f]; cbn in He; unfold alive in He.
    + case_bool_decide as Hl; [|done]. injection He as <- <-. by apply core_unlock.
    + rewrite andb_false_r in He. injection He as <- <-. by eapply core_forsake.
Qed.

(** ** Every action keeps the invariant *)

Definition sys_inv (sy : System) : Prop :=
  exists os who issuer, core (sy_Server sy) os who issuer (map fst (sy_Threads sy)) /\
    Forall2 (fun o (t : operation * prog (option answer)) => owns (want_of t.1) o t.2 (ended t.1))
      os (sy_Threads sy).

Lemma idle_inv sv : fresh sv -> sys_inv (idle sv).
Proof.
  intros [now ->]. exists [], ∅, ∅. split; [|constructor]. split; cbn; try done; intros *;
    rewrite ?lookup_empty; first [done | by intros []].
Qed.

Lemma start_inv sy op : sys_inv sy ->
  sys_inv {| sy_Server := sy_Server sy; sy_Threads := sy_Threads sy ++ [(op, m_program op)] |}.
Proof.
  intros (os & who & issuer & [H1 H2 H3 H4 H5] & Hf).
  exists (os ++ [no_session []]), who, issuer. split.
  - cbn [sy_Server sy_Threads]. rewrite map_app.
    assert (Hin : forall i o, (os ++ [no_session []]) !! i = Some o -> os !! i = Some o \/ o = no_session []).
    { intros i o Hi. apply lookup_app_Some in Hi as [Hi|[_ Hi]]; [by left|right].
      by apply list_lookup_singleton_Some in Hi as [_ <-]. }
    split; try done.
    + intros i o s ks [Hi| ->]%Hin Hs; [by eapply H1|done].
    + intros m id s l Hh. destruct (H2 m id s l Hh) as (Hw & Hl & i & op' & Hi & Hop & Hr).
      split_and!; try done. exists i, op'. split_and!; try done. by apply lookup_app_l_Some.
    + intros i o id [Hi| ->]%Hin Hid; [by eapply H4|by apply elem_of_nil in Hid].
  - apply Forall2_app; [exact Hf|]. constructor; [|constructor]. apply owns_program.
    intros m keys E. unfold want_of. by rewrite E.
Qed.

Lemma run_inv (sy : System) i op X (st : stmt X) k oc r sv : sys_inv sy ->
  sy_Threads sy !! i = Some (op, Do st k) -> exec oc st (sy_Server sy) = Some (r, sv) ->
  sys_inv {| sy_Server := sv; sy_Threads := <[i := (op, k r)]> (sy_Threads sy) |}.
Proof.
  intros (os & who & issuer & Hc & Hf) Ei Ex.
  destruct (Forall2_lookup_r _ _ _ _ _ Hf Ei) as (o & Hi & Ho). cbn [fst snd] in Ho.
  assert (Hop : map fst (sy_Threads sy) !! i = Some op).
  { rewrite list_lookup_fmap. by rewrite Ei. }
  destruct (core_exec _ _ _ _ _ _ _ _ st k _ _ _ _ Hc Hi Hop Ho Ex) as (o' & who' & issuer' & Hc' & Ho').
  exists (<[i := o']> os), who', issuer'. split.
  - cbn [sy_Server sy_Threads].
    assert (E : map fst (<[i := (op, k r)]> (sy_Threads sy)) = map fst (sy_Threads sy)).
    { etransitivity; [apply list_fmap_insert|]. by apply list_insert_id. }
    rewrite E. exact Hc'.
  - cbn [sy_Threads]. by apply Forall2_insert.
Qed.

Lemma pass_inv sy d : sys_inv sy ->
  sys_inv {| sy_Server := set_Now (sv_Now (sy_Server sy) + d) (sy_Server sy);
             sy_Threads := sy_Threads sy |}.
Proof.
  intros (os & who & issuer & Hc & Hf). exists os, who, issuer. split; [|exact Hf].
  eapply core_same; [|exact Hc]. by split.
Qed.

Lemma lose_held s sv s' k : held_count (lose_session s sv) s' k =
  if bool_decide (s' = s) then 0%nat else held_count sv s' k.
Proof.
  unfold held_count, lose_session. cbn [sv_Locks set_Conns set_Locks].
  destruct (sv_Locks sv !! k) as [[s0 n]|] eqn:E.
  - destruct (decide (s0 = s)) as [->|Hne].
    + rewrite map_lookup_filter_None_2 by (right; intros x; rewrite E; intros [= <-] Hx; by apply Hx).
      case_bool_decide as Hs; [done|]. destruct (Z.eqb_spec s s'); [congruence|done].
    + rewrite (map_lookup_filter_Some_2 _ _ _ (s0, n)) by done.
      case_bool_decide as Hs; [subst|done]. by destruct (Z.eqb_spec s0 s).
  - rewrite map_lookup_filter_None_2 by (by left). by case_bool_decide.
Qed.

Lemma lose_holds s sv s' l : holds_locks sv s' l -> holds_locks (lose_session s sv) s' l.
Proof.
  apply holds_mono; cbn [sv_Lost lose_session set_Conns]; [set_solver|].
  intros Hl k. rewrite lose_held. rewrite bool_decide_eq_false_2 by set_solver. done.
Qed.

Lemma lose_inv s sy : sys_inv sy ->
  sys_inv {| sy_Server := lose_session s (sy_Server sy); sy_Threads := sy_Threads sy |}.
Proof.
  intros (os & who & issuer & [H1 H2 H3 H4 H5] & Hf). exists os, who, issuer. split; [|exact Hf].
  split; try done.
  - intros i o s' ks Hi Hs. destruct (H1 i o s' ks Hi Hs) as [Hw Hk]. split; [exact Hw|].
    by apply lose_holds.
  - intros m id s' l Hh. destruct (H2 m id s' l Hh) as (Hw & Hl & Hr). split_and!; [done| |done].
    by apply lose_holds.
Qed.

Lemma reachable_inv sy : reachable fresh sy -> sys_inv sy.
Proof.
  revert sy. apply reachable_ind.
  - apply idle_inv.
  - intros sy op. apply start_inv.
  - intros. by eapply run_inv.
  - intros sy [d|s] sv Hi He; cbn in He.
    + destruct (0 <=? d); [|done]. injection He as <-. by apply pass_inv.
    + injection He as <-. by apply lose_inv.
Qed.
