(* ===== verification/LeaseExclusive.v ===== *)
(** * Leases exclude each other

    The theorem LeaseSafety.v's invariant is for: two operations that both ended
    with a lease, both still held, have no object in common; and the run of a
    system in which one lease waits for another. *)

From S2P Require Import Prelude.
From S2P Require Import GoStd.
From S2P Require Import Lease.
From S2P Require Import LeaseStore.
From S2P Require Import LeaseQueue.
From S2P Require Import LeaseSafety.

#[local] Opaque advisoryObjectKey.

(** Operation [i] ended with lease [id] on [keys], and holds it on session [s]. *)
Definition holds (sy : System) (i : nat) (id : LeaseID) (s : Z) (keys : list leaseKey) : Prop :=
  exists op m l, sy_Threads sy !! i = Some (op, @Ret stmt failure (option answer) (Some (inl id))) /\ wants op = Some (m, keys) /\
    sv_Held (sy_Server sy) !! (m, id) = Some (s, l) /\ s ∉ sv_Lost (sy_Server sy).

(** A lease's session has the lock of every key, and is no other operation's. *)
Lemma held_locks sy os who issuer i id s keys :
  core (sy_Server sy) os who issuer (map fst (sy_Threads sy)) ->
  Forall2 (fun o (t : operation * prog (option answer)) => owns (want_of t.1) o t.2 (ended t.1))
    os (sy_Threads sy) ->
  holds sy i id s keys ->
  issuer !! id = Some i /\ (exists m, who !! s = Some (inr (m, id))) /\
  forall k, k ∈ keys -> (0 < held_count (sy_Server sy) s (adv k))%nat.
Proof.
  intros Hc Hf (op & m & l & Ht & Hw & Hh & Hl).
  destruct (Forall2_lookup_r _ _ _ _ _ Hf Ht) as (o & Ho & Hend). cbn in Hend.
  destruct Hend as [_ Hend]. specialize (Hend (ex_intro _ _ Hw) id eq_refl).
  pose proof (co_ids _ _ _ _ _ Hc i o id Ho Hend) as Hi.
  destruct (co_held _ _ _ _ _ Hc m id s l Hh) as (Hwho & Hlocks & i' & op' & Hi' & Hop & Hwant).
  rewrite Hi in Hi'. injection Hi' as <-. split_and!; [done|by exists m|]. intros k Hk.
  assert (Eop : op' = op).
  { apply list_lookup_fmap_Some in Hop as (t & -> & Ht'). rewrite Ht in Ht'. by injection Ht' as <-. }
  subst op'. unfold want_of in Hwant. rewrite Hw in Hwant. injection Hwant as <-. cbn [snd] in Hlocks.
  specialize (Hlocks Hl (adv k)). eapply Nat.lt_le_trans; [|exact Hlocks]. apply count_occ_In, list_elem_of_In, list_elem_of_fmap. by exists k.
Qed.

(** A lock has one holder. *)
Lemma one_holder sv s s' k :
  (0 < held_count sv s k)%nat -> (0 < held_count sv s' k)%nat -> s = s'.
Proof.
  unfold held_count. destruct (sv_Locks sv !! k) as [[s0 n]|]; [|lia].
  destruct (Z.eqb_spec s0 s), (Z.eqb_spec s0 s'); lia.
Qed.

(** C26: however lease operations interleave with failures, lost sessions and the
    passing of time, the leases of two operations that both ended with one and
    still hold it are on objects with different keys, and have different ids and
    sessions. *)
Theorem lease_exclusive sy i j id id' s s' keys keys' :
  reachable fresh sy -> i <> j -> holds sy i id s keys -> holds sy j id' s' keys' ->
  id <> id' /\ s <> s' /\
  forall k k', k ∈ keys -> k' ∈ keys' -> lk_key k <> lk_key k'.
Proof.
  intros (os & who & issuer & Hc & Hf)%reachable_inv Hij Hh Hh'.
  destruct (held_locks _ _ _ _ _ _ _ _ Hc Hf Hh) as (Hi & [m Hw] & Hk).
  destruct (held_locks _ _ _ _ _ _ _ _ Hc Hf Hh') as (Hj & [m' Hw'] & Hk').
  assert (Hid : id <> id') by congruence.
  assert (Hs : s <> s') by congruence.
  split_and!; try done. intros k k' Hin Hin' E. apply Hs. apply (one_holder (sy_Server sy) s s' (adv k)).
  - by apply Hk.
  - unfold adv. rewrite E. by apply Hk'.
Qed.

(** ** Two leases side by side *)

Definition sample_manager (n : Z) : PostgresLeaseManager :=
  {| pm_ID := n; pm_Pool := true; pm_DatabaseID := Some 1; pm_DecisionID := n + 6; pm_TTL := Minute |}.
Definition sample_object (name : string) : TargetObject :=
  {| to_Schema := "public"; to_Name := name; to_Canonical := "public." +:+ name |}.
Definition sample_lease (n : Z) (name : string) : operation :=
  OpAcquireLease (sample_manager n) "dba" [sample_object name] "add index".

(** Both take a connection, then both lock, and so on. *)
Definition sample_run : list action :=
  [Start (sample_lease 1 "orders"); Start (sample_lease 2 "users"); Run 0 (Done 11); Run 1 (Done 12);
   Run 0 (Done 0); Run 1 (Done 0); Run 0 (Done 5); Run 1 (Done 6); Run 0 (Done 0); Run 1 (Done 0);
   Event (Pass Second); Run 1 (Done 0); Run 0 (Done 0); Run 1 (Done 0); Run 0 (Done 0)].
Definition sample_system : System := 
  default (idle (empty_server 0)) (acts sample_run (idle (empty_server 0))).

(** What is read of the system. *)
Definition lease_of (sy : System) (i : nat) : option (LeaseID * Z) :=
  match sy_Threads sy !! i with
  | Some (op, Ret (Some (inl id))) =>
      match wants op with
      | Some (m, _) => option_map (fun h => (id, h.1)) (sv_Held (sy_Server sy) !! (m, id))
      | None => None
      end
  | _ => None
  end.

Lemma lease_of_holds sy i id s op m keys : lease_of sy i = Some (id, s) ->
  option_map fst (sy_Threads sy !! i) = Some op -> wants op = Some (m, keys) ->
  s ∉ sv_Lost (sy_Server sy) -> holds sy i id s keys.
Proof.
  unfold lease_of. destruct (sy_Threads sy !! i) as [[op' [[[id'|]|]|]]|] eqn:E; try done.
  intros H [= ->] Hw Hl. rewrite Hw in H.
  destruct (sv_Held (sy_Server sy) !! (m, id')) as [[s' l]|] eqn:Eh; [|done]. injection H as <- <-.
  by exists op, m, l.
Qed.

Definition seen (sy : System) :=
  (lease_of sy 0, lease_of sy 1, map fst (sy_Threads sy), elements (sv_Lost (sy_Server sy))).

Lemma sample_seen : option_map seen (acts sample_run (idle (empty_server 0))) =
  Some (Some ("lease_00000000000000000000000000000005", 11),
        Some ("lease_00000000000000000000000000000006", 12),
        [sample_lease 1 "orders"; sample_lease 2 "users"], []).
Proof. vm_compute. reflexivity. Qed.

Lemma sample_holds : exists sy, reachable fresh sy /\
  holds sy 0 "lease_00000000000000000000000000000005" 11 [object_key (sample_object "orders")] /\
  holds sy 1 "lease_00000000000000000000000000000006" 12 [object_key (sample_object "users")].
Proof.
  destruct (acts_read fresh _ _ _ _ (ex_intro _ 0 eq_refl) sample_seen) as (sy & Hr & H).
  injection H as H0 H1 Hops Hlost.
  assert (Hl : forall s, s ∉ sv_Lost (sy_Server sy)).
  { intros s Hs. apply elem_of_elements in Hs. rewrite Hlost in Hs. by apply elem_of_nil in Hs. }
  assert (Hop : forall i, option_map fst (sy_Threads sy !! i) =
                [sample_lease 1 "orders"; sample_lease 2 "users"] !! i).
  { intros i. rewrite <- Hops. symmetry. apply list_lookup_fmap. }
  exists sy. split; [done|].
  split; (eapply lease_of_holds; [eassumption|rewrite Hop; done|done|apply Hl]).
Qed.

Lemma lease_exclusive_witness : exists sy,
  reachable fresh sy /\
  holds sy 0 "lease_00000000000000000000000000000005" 11 [object_key (sample_object "orders")] /\
  holds sy 1 "lease_00000000000000000000000000000006" 12 [object_key (sample_object "users")] /\
  11 <> 12.
Proof.
  destruct sample_holds as (sy & Hr & H0 & H1). exists sy. split_and!; [done..|].
  by apply (lease_exclusive sy 0 1 _ _ _ _ _ _ Hr ltac:(done) H0 H1).
Defined.
