(* ===== verification/LeaseMoves.v ===== *)
(** * Change leases: how the queue moves

    Which statements the lease manager sends, and what one step of a system does
    to the queue's entries: they keep their id, keys, database and deadline, never
    wait again once resolved, and a new one comes behind all others. *)

From S2P Require Import Prelude.
From S2P Require Import GoStd.
From S2P Require Import Lease.
From S2P Require Import LeaseStore.
From S2P Require Import LeaseQueue.

#[local] Opaque advisoryObjectKey.

(** ** The manager stays off the queue *)

(** No statement on the queue, nor a pause between polls. *)
Definition off_queue (X : Type) (st : stmt X) : Prop :=
  match st with
  | NextTick | SweepQueue _ | ResumeEntry _ _ _ _ _ _ | Enqueue _ _ _ _ | Position _ _
  | ResolveEntry _ _ => False
  | _ => True
  end.

Create HintDb programs.
#[export] Hint Resolve always_bind : programs.

(** Through a program, one statement and one answer at a time. *)
Ltac walk := repeat first
  [ progress cbn [always pbind off_queue]
  | done
  | apply always_bind
  | match goal with
    | |- _ /\ _ => split
    | |- forall _, _ => intros ?
    | |- context [match ?x with _ => _ end] => destruct x
    end
  | solve [eauto with programs] ].

Lemma off_release s keys : always off_queue (releaseAdvisoryLocks s keys).
Proof. unfold releaseAdvisoryLocks. induction (rev keys) as [|k l IH]; cbn [release_each]; walk. Qed.
#[export] Hint Resolve off_release : programs.

Lemma off_conflict m s key : always off_queue (conflict m s key).
Proof. unfold conflict. walk. Qed.
#[export] Hint Resolve off_conflict : programs.

Lemma off_lock_keys m s keys : forall held, always off_queue (lock_keys m s keys held).
Proof. induction keys as [|k keys IH]; intros held; cbn [lock_keys]; walk. Qed.

Lemma off_insert_rows m s id actor intent keys : always off_queue (insert_rows m s id actor intent keys).
Proof. induction keys as [|k keys IH]; cbn [insert_rows]; walk. Qed.
#[export] Hint Resolve off_lock_keys off_insert_rows : programs.

Lemma off_acquireKeys m actor keys intent : always off_queue (acquireKeys m actor keys intent).
Proof.
  unfold acquireKeys, acquireConn, acquireAdvisoryLocks, persistLease, give_back. walk.
Qed.

Lemma off_ReleaseLease m id : always off_queue (ReleaseLease m id).
Proof. unfold ReleaseLease. walk. Qed.
#[export] Hint Resolve off_acquireKeys off_ReleaseLease : programs.

(** ** What a step does to the queue *)

(** [e'] is [e], perhaps resolved or taken over. *)
Record same_entry (e e' : QueueEntry) : Prop := {
  se_ID : qe_ID e' = qe_ID e;
  se_DatabaseID : qe_DatabaseID e' = qe_DatabaseID e;
  se_Keys : qe_Keys e' = qe_Keys e;
  se_DeadlineAt : qe_DeadlineAt e' = qe_DeadlineAt e;
  se_waiting : waiting e' -> waiting e;
}.

#[global] Instance same_entry_po : PreOrder same_entry.
Proof.
  split; [by split|]. intros x y z [] []. split; try congruence. auto.
Qed.

(** The limits of an [Enqueue]. *)
Definition limits {X} (st : stmt X) : option (Z * Z) :=
  match st with Enqueue _ _ perTarget total => Some (perTarget, total) | _ => None end.

(** The entries of [e]'s database live at [began], and those that share a key. *)
Definition beside (began : Time) (e x : QueueEntry) : bool :=
  live began x && here (qe_DatabaseID e) x.
Definition against (began : Time) (e x : QueueEntry) : bool :=
  beside began e x && overlap (qe_Keys x) (qe_Keys e).

(** The queue's entries go on, or one more comes, under its limits. *)
Inductive queue_move (lim : option (Z * Z)) (sv sv' : Server) : Prop :=
| QueueKept (f : QueueEntry -> QueueEntry) : (forall e, same_entry e (f e)) ->
    sv_Queue sv' = map f (sv_Queue sv) -> sv_NextID sv <= sv_NextID sv' ->
    sv_Now sv <= sv_Now sv' -> queue_move lim sv sv'
| QueueAdded (e : QueueEntry) (began : Time) (perTarget total : Z) :
    lim = Some (perTarget, total) -> began <= sv_Now sv ->
    depth sv (against began e) < perTarget -> depth sv (beside began e) < total ->
    qe_ID e = sv_NextID sv -> sv_Queue sv' = sv_Queue sv ++ [e] ->
    sv_NextID sv' = sv_NextID sv + 1 -> sv_Now sv' = sv_Now sv -> queue_move lim sv sv'.

Lemma kept_same lim sv sv' : sv_Queue sv' = sv_Queue sv -> sv_NextID sv' = sv_NextID sv ->
  sv_Now sv' = sv_Now sv -> queue_move lim sv sv'.
Proof. intros E1 E2 E3. apply (QueueKept _ _ _ id); rewrite ?map_id; done || lia. Qed.

Lemma kept_map lim sv f : (forall e, same_entry e (f e)) ->
  queue_move lim sv (set_Queue (map f (sv_Queue sv)) (sv_NextID sv) sv).
Proof. intros H. by apply (QueueKept _ _ _ f). Qed.

Lemma pass_move lim sv d : 0 <= d -> queue_move lim sv (set_Now (sv_Now sv + d) sv).
Proof. intros Hd. apply (QueueKept _ _ _ id); cbn; rewrite ?map_id; done || lia. Qed.

Lemma same_resolved (b : bool) e st : (b -> waiting e) ->
  same_entry e (if b then set_entry_state st e else e).
Proof. destruct b; [|by split]. intros H. split; try done. intros _. by apply H. Qed.

Lemma same_if (b : bool) e e' : same_entry e e' -> same_entry e (if b then e' else e).
Proof. by destruct b. Qed.

Lemma sweep_same sv db id : exists f, (forall e, same_entry e (f e)) /\ sweep sv db id = map f (sv_Queue sv).
Proof. 
  eexists. split; [|done]. intros e. apply same_resolved. by intros [[[? ?]%andb_True ?]%andb_True ?]%andb_True.
Qed.

Lemma position_move sv id db : queue_move None sv (position sv id db).2.
Proof.
  cbn. destruct (sweep_same sv db (Some id)) as (f & Hf & ->). rewrite map_map.
  apply kept_map. intros e. etransitivity; [apply Hf|].
  apply same_if. by split.
Qed.

Lemma enqueue_move sv began e wait perTarget total : began <= sv_Now sv ->
  queue_move (Some (perTarget, total)) sv (enqueue_entry sv began e wait perTarget total).2.
Proof.
  intros Hb. unfold enqueue_entry. destruct (_ || _) eqn:Hfull; [by apply kept_same|].
  destruct (existsb _ _).
  - apply (QueueKept _ _ _ id); cbn; rewrite ?map_id; done || lia.
  - apply orb_false_iff in Hfull as [H1%Z.leb_gt H2%Z.leb_gt].
    eapply QueueAdded; [done|exact Hb|shelve|shelve|shelve|cbn; reflexivity|done|done].
    Unshelve. all: assumption || done.
Qed.

Lemma done_move {X} (st : stmt X) n sv r : exec_done n st sv = Some r ->
  queue_move (limits st) sv r.2.
Proof.
  destruct st; cbn [exec_done limits]; intros H; try (case_match; try done); injection H as <-; cbn [snd];
    try by apply kept_same.
  - unfold try_lock. repeat case_match; by apply kept_same.
  - unfold unlock. repeat case_match; by apply kept_same.
  - unfold insert_row. repeat case_match; by apply kept_same.
  - destruct (sweep_same sv db None) as (f & Hf & ->). by apply kept_map.
  - unfold resume_entry. cbn [snd]. apply kept_map. intros e. apply same_if. by split.
  - apply enqueue_move. match goal with H : (0 <=? n) = true |- _ => apply Z.leb_le in H; lia end.
  - apply position_move.
  - apply kept_map. intros e. apply same_resolved. by intros [? ?]%andb_True.
Qed.

Lemma exec_move {X} (st : stmt X) oc sv r sv' : exec oc st sv = Some (r, sv') ->
  queue_move (limits st) sv sv'.
Proof.
  destruct oc as [n|applied f]; cbn [exec].
  - destruct (exec_done n st sv) as [[x sv1]|] eqn:E; [|done]. intros [= _ <-]. apply (done_move _ _ _ _ E).
  - destruct (negb _); [done|]. intros [= _ <-]. destruct (_ && _); [|by apply kept_same].
    destruct (exec_done 0 st sv) as [r'|] eqn:E; [apply (done_move _ _ _ _ E)|by apply kept_same].
Qed.

(** ** Ids *)

(** Every entry has an id of its own, below the next one. *)
Definition ids_ok (sv : Server) : Prop :=
  NoDup (map qe_ID (sv_Queue sv)) /\ forall e, e ∈ sv_Queue sv -> qe_ID e < sv_NextID sv.

Lemma ids_move lim sv sv' : queue_move lim sv sv' -> ids_ok sv -> ids_ok sv'.
Proof.
  intros [f Hf Eq Hn Ht|e began p t _ _ _ _ Hid Eq En Ht] [Hd Hlt]; unfold ids_ok; rewrite Eq.
  - split.
    + rewrite map_map. erewrite map_ext; [exact Hd|]. intros e. apply Hf.
    + intros e' (e & -> & He)%list_elem_of_fmap. rewrite (se_ID _ _ (Hf e)). specialize (Hlt e He). lia.
  - rewrite map_app, En. split.
    + apply NoDup_app. split_and!; [done| |apply NoDup_singleton].
      intros i (x & -> & Hx)%list_elem_of_fmap Hi%list_elem_of_singleton.
      specialize (Hlt x Hx). cbn in Hi. lia.
    + intros x [Hx| ->%list_elem_of_singleton]%elem_of_app; [specialize (Hlt x Hx)|]; lia.
Qed.
