(* ===== verification/LeaseFifo.v ===== *)
(** * The lease queue is first come, first served

    A queue entry is only recorded as granted after a poll found nobody ahead of
    it, and nobody can come ahead afterwards: so whenever any process is about to
    grant an entry, no live entry of the same database with an earlier id shares
    an object with it, whatever the other processes did meanwhile. *)

From S2P Require Import Prelude.
From S2P Require Import GoStd.
From S2P Require Import Lease.
From S2P Require Import LeaseStore.
From S2P Require Import LeaseQueue.
From S2P Require Import LeaseMoves.
From S2P Require Import LeaseSafety.

#[local] Opaque advisoryObjectKey.

(** ** A program's turn *)

(** [turn]: the entry the program last saw at the head of its line. *)
Fixpoint turns {A} (turn : option Z) (p : prog A) (Q : option Z -> Prop) : Prop :=
  match p with
  | Ret _ => Q turn
  | @Do _ _ _ X st k =>
      match st in stmt X return (X + failure -> prog A) -> Prop with
      | Position id db => fun k =>
          (forall ahead expired, turns (if ahead =? 0 then Some id else None)
                                   (k (inl (Some (ahead, expired)))) Q) /\
          turns None (k (inl None)) Q /\ forall f, turns None (k (inr f)) Q
      | ResolveEntry id state => fun k =>
          (state = EntryGranted -> turn = Some id) /\ forall r, turns turn (k r) Q
      | _ => fun k => forall r, turns turn (k r) Q
      end k
  end.

Definition whatever (turn : option Z) : Prop := True.

Lemma turns_off {A B} (p : prog A) (f : A -> prog B) turn Q :
  always off_queue p -> (forall a, turns turn (f a) Q) -> turns turn (pbind p f) Q.
Proof.
  intros Hp Hf. induction p as [a|X st k IH]; [apply Hf|]. cbn in *.
  destruct Hp as [Hst Hk]. destruct st; try done; intros r; by apply IH.
Qed.

Lemma turns_bind {A B} (p : prog A) (f : A -> prog B) turn R :
  (forall a turn', turns turn' (f a) R) -> turns turn p whatever -> turns turn (pbind p f) R.
Proof.
  intros Hf. revert turn. induction p as [a|X st k IH]; intros turn; [by intros _; apply Hf|].
  destruct st; cbn; naive_solver.
Qed.

Lemma turns_off_last {A} (p : prog A) turn : always off_queue p -> turns turn p whatever.
Proof.
  intros Hp. induction p as [a|X st k IH]; [done|]. cbn in *.
  destruct Hp as [Hst Hk]. destruct st; try done; intros r; by apply IH.
Qed.

Section Queue.
Context (q : LeaseQueue) (m : PostgresLeaseManager) (req : QueuedLeaseRequest).

(** Leaving the queue needs no turn. *)
Lemma turns_left id state e turn : state <> EntryGranted ->
  turns turn (do* a := leave id state e in Ret (Some a)) whatever.
Proof. intros H. cbn. split; [by intros ->|]. by intros [[]|f]. Qed.

Lemma turns_grant id lease :
  turns (Some id) (do* a := grant m id lease in Ret (Some a)) whatever.
Proof.
  unfold grant, resolve. cbn [pbind turns]. split; [done|]. intros [[]|f]; [done|]. apply turns_bind; [done|].
  apply turns_off; [apply off_ReleaseLease|done].
Qed.

Lemma turns_wait polls id : forall last turn, turns turn (wait q polls m req id last) whatever.
Proof.
  induction polls as [|polls IH]; intros last turn; [done|].
  assert (Hnext : forall l turn, turns turn
    (do~ gone := NextTick in
     match gone with
     | inl true => do* a := leave id EntryCancelled CallerEnded in Ret (Some a)
     | _ => wait q polls m req id l
     end) whatever).
  { intros l turn'. cbn [turns]. intros [[]|f]; [by apply turns_left|apply IH|apply IH]. }
  cbn [wait turns]. split_and!.
  - intros ahead []; [by apply turns_left|]. destruct (Z.eqb_spec ahead 0) as [->|]; [|apply Hnext].
    apply turns_off; [apply off_acquireKeys|]. intros [lease|e]; [apply turns_grant|].
    destruct (retryableLeaseError e); [apply Hnext|]. apply turns_off; [unfold callerError; walk|].
    intros e'. by apply turns_left.
  - by apply turns_left.
  - intros f. apply turns_off; [unfold callerError; walk|]. intros e'. by apply turns_left.
Qed.
End Queue.

Lemma turns_program op : turns None (program op) whatever.
Proof.
  destruct op as [m actor objects intent|m actor targets intent|m id|q polls req]; cbn [program].
  - apply turns_off; [apply off_acquireKeys|done].
  - apply turns_off; [apply off_acquireKeys|done].
  - apply turns_off; [apply off_ReleaseLease|done].
  - unfold Acquire. destruct (validate_request q req) as [m|e]; [|done]. cbn [turns].
    intros [[]|f]; [|done]. intros [[id|]|f]; [apply turns_wait| |done].
    cbn [queue_or_wait tryImmediate]. unfold tryImmediate. cbn [pbind turns]. intros [[]|f]; [| |done].
    + cbn [pbind turns enqueue]. intros [[]|f]; try done. apply turns_wait.
    + apply turns_bind.
      * intros [a|] turn; [done|]. cbn. intros [[]|f]; try done. apply turns_wait.
      * apply turns_off; [apply off_acquireKeys|done].
Qed.

(** ** The system *)

(** No live entry is ahead of entry [id]. *)
Definition first_in_line (sv : Server) (id : Z) : Prop :=
  id < sv_NextID sv /\ forall me e, me ∈ sv_Queue sv -> e ∈ sv_Queue sv -> qe_ID me = id ->
    ahead_of sv me e = false.

Definition turn_ok (sv : Server) (turn : option Z) : Prop :=
  match turn with Some id => first_in_line sv id | None => True end.

Lemma ahead_move sv sv' me me' e e' : same_entry me me' -> same_entry e e' -> sv_Now sv <= sv_Now sv' ->
  ahead_of sv me e = false -> ahead_of sv' me' e' = false.
Proof.
  intros [A1 A2 A3 A4 A5] [B1 B2 B3 B4 B5] Hn. unfold ahead_of, live, here.
  rewrite A1, A2, A3, B1, B2, B3, B4. intros H. apply not_true_is_false. intros Ha.
  apply andb_prop in Ha as [Ha H4]. apply andb_prop in Ha as [Ha H3]. apply andb_prop in Ha as [Ha H2].
  apply andb_prop in Ha as [Hw%Is_true_true%B5 Hd%Z.ltb_lt].
  rewrite H2, H3, H4, !andb_true_r in H. apply andb_false_iff in H as [H|H%Z.ltb_ge]; [|lia].
  by rewrite H in Hw.
Qed.

Lemma turn_move lim sv sv' turn : queue_move lim sv sv' -> turn_ok sv turn -> turn_ok sv' turn.
Proof.
  destruct turn as [id|]; [|done]. intros [f Hf Eq Hn Ht|n began p t _ _ _ _ Hid Eq En Ht] [Hlt Hfirst];
    (split; [lia|]); rewrite Eq.
  - intros me e (me0 & -> & Hme)%list_elem_of_fmap (e0 & -> & He)%list_elem_of_fmap Eid.
    apply (ahead_move sv sv' me0 _ e0); auto. apply Hfirst; [done..|]. rewrite <- Eid. symmetry. apply Hf.
  - intros me e [Hme| ->%list_elem_of_singleton]%elem_of_app He Eid; [|lia].
    apply elem_of_app in He as [He| ->%list_elem_of_singleton].
    + apply (ahead_move sv sv' me _ e); try reflexivity; [lia|]. by apply Hfirst.
    + unfold ahead_of. destruct (Z.ltb_spec (qe_ID n) (qe_ID me)); [lia|]. by rewrite andb_false_r.
Qed.

Definition fifo_inv (sy : System) : Prop :=
  ids_ok (sy_Server sy) /\ forall i op p, sy_Threads sy !! i = Some (op, p) ->
    exists turn, turn_ok (sy_Server sy) turn /\ turns turn p whatever.

(** What the queue does while other operations run. *)
Lemma fifo_threads lim sv sv' (ts : list (operation * prog (option answer))) :
  queue_move lim sv sv' ->
  (forall i op p, ts !! i = Some (op, p) -> exists turn, turn_ok sv turn /\ turns turn p whatever) ->
  forall i op p, ts !! i = Some (op, p) -> exists turn, turn_ok sv' turn /\ turns turn p whatever.
Proof.
  intros Hm H i op p Hi. destruct (H i op p Hi) as (turn & Ht & Hp). exists turn.
  split; [by eapply turn_move|done].
Qed.

(** [position] saw nobody ahead. *)
Lemma position_first sv id db ahead expired : ids_ok sv ->
  (position sv id db).1 = Some (ahead, expired) -> turn_ok sv (if ahead =? 0 then Some id else None).
Proof.
  intros [Hd Hlt]. cbn. destruct (List.find _ (sv_Queue sv)) as [me|] eqn:Ef; [|done].
  intros [= Ha _]. destruct (Z.eqb_spec ahead 0) as [->|]; [|done].
  apply find_some in Ef as [Hin [Hid%Z.eqb_eq Hw]%andb_prop].
  apply list_elem_of_In in Hin. split; [rewrite <- Hid; by apply Hlt|].
  intros me' e Hme' He Hid'. assert (me' = me) as ->.
  { apply (nodup_map_inj qe_ID (sv_Queue sv)); [done..|congruence]. }
  unfold depth in Ha. apply not_true_is_false. intros Hahead.
  assert (Hf : e ∈ List.filter (ahead_of sv me) (sv_Queue sv)).
  { apply list_elem_of_In, filter_In. split; [by apply list_elem_of_In|done]. }
  destruct (List.filter _ _); [by apply elem_of_nil in Hf|done].
Qed.

(** One statement of an operation, and what it then may do. *)
Lemma turns_step {A X} oc (st : stmt X) (k : X + failure -> prog A) sv r sv' turn :
  ids_ok sv -> turn_ok sv turn -> turns turn (Do st k) whatever -> exec oc st sv = Some (r, sv') ->
  exists turn', turn_ok sv' turn' /\ turns turn' (k r) whatever.
Proof.
  intros Hids Hturn Ht He. pose proof (exec_move _ _ _ _ _ He) as Hm.
  assert (Hsame : turns turn (k r) whatever ->
    exists turn', turn_ok sv' turn' /\ turns turn' (k r) whatever).
  { intros H. exists turn. split; [by eapply turn_move|done]. }
  destruct st; cbn [turns] in Ht; try (by apply Hsame); [|by apply Hsame, Ht].
  destruct Ht as (Hsome & Hnone & Hfail). destruct r as [[[ahead expired]|]|f].
  - exists (if ahead =? 0 then Some id else None). split; [|apply Hsome].
    eapply turn_move; [exact Hm|]. destruct oc as [n|applied f]; cbn [exec exec_done] in He.
    + injection He as Hpos _. by apply (position_first sv id db _ expired).
    + by destruct (negb _).
  - by exists None.
  - by exists None.
Qed.

(** Something moved the queue, and no operation's turn changed. *)
Lemma fifo_moved lim sv sv' (ts : list (operation * prog (option answer))) :
  queue_move lim sv sv' -> fifo_inv {| sy_Server := sv; sy_Threads := ts |} ->
  fifo_inv {| sy_Server := sv'; sy_Threads := ts |}.
Proof.
  intros Hm [Hids Hts]. split; [by eapply ids_move|]. by apply (fifo_threads _ _ _ _ Hm).
Qed.

Lemma fifo_reachable sy : reachable fresh sy -> fifo_inv sy.
Proof.
  revert sy. apply reachable_ind.
  - intros sv [now ->]. split; [split; [by constructor|by intros e ?%elem_of_nil]|]. by intros i op p.
  - intros sy op [Hids Hts]. split; [done|]. cbn. intros i op' p.
    intros [Hi|[_ Hi]]%lookup_app_Some; [by apply (Hts i op')|].
    apply list_lookup_singleton_Some in Hi as [_ [= <- <-]]. exists None.
    split; [done|apply turns_program].
  - intros sy i op X st k oc r sv [Hids Hts] Ei Ex. cbn in Ex.
    pose proof (exec_move _ _ _ _ _ Ex) as Hm. split; [by eapply ids_move|]. cbn.
    intros j op' p [(-> & [= <- <-] & _)|[_ Hj]]%list_lookup_insert_Some.
    + destruct (Hts j op _ Ei) as (turn & Hturn & Ht). by eapply turns_step.
    + by apply (fifo_threads _ _ _ _ Hm Hts j op').
  - intros [sv0 ts] [d|s] sv H He; cbn in He; eapply fifo_moved; try exact H.
    + destruct (Z.leb_spec 0 d) as [Hd|]; [|done]. injection He as <-. by apply (pass_move _ _ d).
    + injection He as <-. by apply kept_same.
  Unshelve. all: exact None.
Qed.

(** C27: the lease queue grants in FIFO order.  In every reachable system, when an
    operation is about to record entry [id] as granted, each entry of the same
    database that came earlier and is still waiting within its deadline shares no
    object with it. *)
Theorem lease_queue_fifo sy i op id k me e :
  reachable fresh sy ->
  sy_Threads sy !! i = Some (op, Do (ResolveEntry id EntryGranted) k) ->
  me ∈ sv_Queue (sy_Server sy) -> qe_ID me = id ->
  e ∈ sv_Queue (sy_Server sy) -> qe_ID e < id -> waiting e = true ->
  sv_Now (sy_Server sy) < qe_DeadlineAt e ->
  same_database (qe_DatabaseID e) (qe_DatabaseID me) = true ->
  forall key, key ∈ qe_Keys e -> key ∉ qe_Keys me.
Proof.
  intros [_ Hts]%fifo_reachable Hi Hme Hid He Hlt Hw Hd Hdb key Hk Hk'.
  destruct (Hts i op _ Hi) as (turn & Hturn & Ht). cbn [turns] in Ht. destruct Ht as [Ht _].
  rewrite (Ht eq_refl) in Hturn. destruct Hturn as [_ Hfirst].
  specialize (Hfirst me e Hme He Hid). unfold ahead_of, live, here in Hfirst.
  rewrite Hw, Hdb, Hid, (proj2 (Z.ltb_lt _ _) Hlt), (proj2 (Z.ltb_lt _ _) Hd) in Hfirst.
  cbn in Hfirst. rewrite andb_true_r in Hfirst.
  assert (Ho : overlap (qe_Keys e) (qe_Keys me) = true); [|congruence].
  apply existsb_exists. exists key. split; [by apply list_elem_of_In|].
  apply str_in_spec. done.
Qed.

(** ** Two requests wait for different tables *)

Definition queue_manager (n : Z) : PostgresLeaseManager :=
  {| pm_ID := n; pm_Pool := true; pm_DatabaseID := Some 1; pm_DecisionID := n + 6; pm_TTL := Minute |}.
Definition named (name : string) : TypedTarget :=
  {| tt_Kind := TargetUnresolved; tt_Schema := "public"; tt_Name := name; tt_OID := 0 |}.
Definition take (n : Z) (name : string) : operation :=
  OpAcquireTyped (queue_manager n) "dba" [named name] "vacuum".
Definition queued_take (cfg : LeaseQueueConfig) (n : Z) (name : string) : operation :=
  OpQueueAcquire (NewLeaseQueue true (Some 1) cfg "process-A") 9
    {| qr_Manager := Some (queue_manager n); qr_Kind := "finding"; qr_Actor := "pg_sage";
       qr_Intent := "add index"; qr_Targets := [named name]; qr_Operator := false; qr_MaxWait := 0 |}.

(** [n] statements of operation [i] that succeed. *)
Definition steps (i n : nat) : list action := repeat (Run i (Done 0)) n.
Definition takes (i : nat) (session id : Z) : list action :=
  [Run i (Done session); Run i (Done 0); Run i (Done id)] ++ steps i 3.
(** Queues behind a holder. *)
Definition queues (i : nat) (session : Z) : list action :=
  steps i 3 ++ [Run i (Done session)] ++ steps i 4.

Definition fifo_run : list action :=
  Start (take 1 "users") :: takes 0 11 1 ++
  Start (queued_take DefaultLeaseQueueConfig 2 "users") :: queues 1 12 ++
  Start (take 3 "orders") :: takes 2 13 2 ++
  Start (queued_take DefaultLeaseQueueConfig 4 "orders") :: queues 3 14 ++
  Start (OpReleaseLease (queue_manager 3) (lease_id 2)) :: steps 4 4 ++
  Event (Pass (500 * Millisecond)) :: steps 3 1 ++ takes 3 15 3.

(** The entry a program is about to record as granted. *)
Definition grants_next (p : prog (option answer)) : option Z :=
  match p with
  | Do st _ => match st with
               | ResolveEntry id state => if state =s EntryGranted then Some id else None
               | _ => None
               end
  | Ret _ => None
  end.
Definition next_grant (sy : System) (i : nat) : option Z :=
  match sy_Threads sy !! i with Some t => grants_next t.2 | None => None end.
Definition waits (e : QueueEntry) := (qe_ID e, qe_DatabaseID e, qe_Keys e, qe_State e, qe_DeadlineAt e).

Lemma next_grant_is sy i id : next_grant sy i = Some id ->
  exists op k, sy_Threads sy !! i = Some (op, Do (ResolveEntry id EntryGranted) k).
Proof.
  unfold next_grant. destruct (sy_Threads sy !! i) as [[op [a|X st k]]|]; try done.
  cbn. destruct st; try done. destruct (String.eqb_spec state EntryGranted) as [->|]; [|done].
  intros [= <-]. by exists op, k.
Qed.

Lemma fifo_run_ends :
  option_map (fun sy => (next_grant sy 3, map waits (sv_Queue (sy_Server sy)), sv_Now (sy_Server sy)))
    (acts fifo_run (idle (empty_server 0))) =
  Some (Some 2, [(1, Some 1, ["public.users"], "waiting", 120 * Second);
                 (2, Some 1, ["public.orders"], "waiting", 120 * Second)], 500 * Millisecond).
Proof. vm_compute. reflexivity. Qed.

Lemma lease_queue_fifo_witness : exists sy op k me e,
  reachable fresh sy /\ sy_Threads sy !! 3%nat = Some (op, Do (ResolveEntry 2 EntryGranted) k) /\
  sv_Queue (sy_Server sy) = [e; me] /\ qe_ID me = 2 /\ qe_ID e = 1 /\
  qe_Keys e = ["public.users"] /\ "public.users" ∉ qe_Keys me.
Proof.
  destruct (acts_read fresh _ _ _ _ (ex_intro _ 0 eq_refl) fifo_run_ends) as (sy & Hr & H).
  injection H as (op & k & Hop)%next_grant_is Hq Hn.
  destruct (sv_Queue (sy_Server sy)) as [|e [|me [|]]] eqn:Eq; try done.
  injection Hq as He1 He2 He3 He4 He5 Hm1 Hm2 Hm3 Hm4 Hm5.
  exists sy, op, k, me, e. split_and!; try done.
  apply (lease_queue_fifo sy 3 op 2 k me e); try done.
  - rewrite Eq. by apply list_elem_of_further, list_elem_of_here.
  - rewrite Eq. by apply list_elem_of_here.
  - by rewrite He1.
  - unfold waiting. by rewrite He4.
  - by rewrite Hn, He5.
  - by rewrite He2, Hm2.
  - rewrite He3. by apply list_elem_of_here.
Defined.
