(* ===== verification/LeaseDepth.v ===== *)
(** * The lease queue is bounded

    However many processes queue at once, the live entries of a database never
    exceed its MaxDepth, and those that name one object never exceed
    MaxDepthPerTarget: the check and the insertion are one step, and nothing else
    makes an entry wait. *)

From S2P Require Import Prelude.
From S2P Require Import GoStd.
From S2P Require Import Lease.
From S2P Require Import LeaseStore.
From S2P Require Import LeaseQueue.
From S2P Require Import LeaseMoves.
From S2P Require Import LeaseSafety.
From S2P Require Import LeaseFifo.

#[local] Opaque advisoryObjectKey.

(** ** The limits of an operation *)

Definition limits_of (op : operation) : option (Z * Z) :=
  match op with
  | OpQueueAcquire q _ _ => Some (qc_MaxDepthPerTarget (lq_cfg q), qc_MaxDepth (lq_cfg q))
  | _ => None
  end.

Definition within (lim : option (Z * Z)) (X : Type) (st : stmt X) : Prop :=
  limits st = None \/ limits st = lim.

Lemma off_within lim {A} (p : prog A) : always off_queue p -> always (within lim) p.
Proof. apply always_weaken. intros X st H. left. by destruct st. Qed.

Ltac bound := repeat first
  [ progress cbn [always pbind]
  | done
  | by left
  | by right
  | apply off_within; solve [eauto with programs]
  | apply always_bind
  | match goal with
    | |- _ /\ _ => split
    | |- forall _, _ => intros ?
    | |- always _ (match ?x with _ => _ end) => destruct x
    end ].

Lemma within_wait lim q polls m req id : forall last, always (within lim) (wait q polls m req id last).
Proof.
  induction polls as [|polls IH]; intros last; [done|]. cbn [wait].
  unfold leave, resolve, callerError, grant, resolve. bound; apply IH.
Qed.

Lemma within_program op : always (within (limits_of op)) (program op).
Proof.
  destruct op as [m actor objects intent|m actor targets intent|m id|q polls req]; cbn [program].
  1-3: unfold of_answer, AcquireLease, AcquireTyped; bound.
  unfold Acquire. destruct (validate_request q req) as [m|e]; [|done].
  unfold queue_or_wait, tryImmediate, enqueue, AcquireTyped. bound; apply within_wait.
Qed.

(** ** Counting *)

Lemma count_le {A} (f : A -> A) (g g' : A -> bool) l : (forall x, g' (f x) = true -> g x = true) ->
  (length (List.filter g' (map f l)) <= length (List.filter g l))%nat.
Proof.
  intros H. induction l as [|x l IH]; [done|]. cbn. specialize (H x).
  destruct (g' (f x)); [rewrite H by done|destruct (g x)]; cbn; lia.
Qed.

Lemma depth_le sv sv' f (g g' : QueueEntry -> bool) : sv_Queue sv' = map f (sv_Queue sv) ->
  (forall x, g' (f x) = true -> g x = true) -> depth sv' g' <= depth sv g.
Proof. unfold depth. intros -> H. apply inj_le. by apply count_le. Qed.

Lemma depth_mono sv (g g' : QueueEntry -> bool) : (forall x, g' x = true -> g x = true) ->
  depth sv g' <= depth sv g.
Proof. intros H. apply (depth_le sv sv id); [by rewrite map_id|exact H]. Qed.

Lemma depth_added sv sv' e (g : QueueEntry -> bool) : sv_Queue sv' = sv_Queue sv ++ [e] ->
  depth sv' g = depth sv g + (if g e then 1 else 0).
Proof.
  unfold depth. intros ->. rewrite List.filter_app, length_app, Nat2Z.inj_add. cbn. by destruct (g e).
Qed.

(** ** The bound *)

(** The live entries of a database, and those on one object. *)
Definition in_database (sv : Server) (db : option Z) (e : QueueEntry) : bool :=
  live (sv_Now sv) e && here db e.
Definition on_object (sv : Server) (db : option Z) (key : string) (e : QueueEntry) : bool :=
  in_database sv db e && str_in key (qe_Keys e).

Record depth_ok (perTarget total : Z) (sv : Server) : Prop := {
  do_total : forall db, depth sv (in_database sv db) <= total;
  do_target : forall db key, depth sv (on_object sv db key) <= perTarget;
}.

Lemma live_kept now now' e e' : same_entry e e' -> now <= now' -> live now' e' = true -> live now e = true.
Proof.
  intros [_ _ _ E4 E5] Hn. unfold live. rewrite E4. intros [Hw%Is_true_true%E5 Hd%Z.ltb_lt]%andb_prop.
  apply andb_true_intro. split; [by apply Is_true_true|]. apply Z.ltb_lt. lia.
Qed.

Lemma in_database_same sv sv' db e e' : same_entry e e' -> sv_Now sv <= sv_Now sv' ->
  in_database sv' db e' = true -> in_database sv db e = true.
Proof.
  intros Hs Hn [Hl Hh]%andb_prop. apply andb_true_intro. split; [by eapply live_kept|].
  unfold here in *. by rewrite <- (se_DatabaseID _ _ Hs).
Qed.

Lemma same_database_beside sv began db e x : began <= sv_Now sv -> here db e = true ->
  in_database sv db x = true -> beside began e x = true.
Proof.
  unfold in_database, beside, here, same_database. intros Hb H1%Z.eqb_eq [H2 H3%Z.eqb_eq]%andb_prop.
  apply andb_true_intro. split; [by apply (live_kept began (sv_Now sv) x x)|]. apply Z.eqb_eq. congruence.
Qed.

Lemma overlap_key key a b : str_in key a = true -> str_in key b = true -> overlap a b = true.
Proof.
  intros Ha%str_in_spec%list_elem_of_In Hb. apply existsb_exists. by exists key.
Qed.

Lemma depth_move perTarget total lim sv sv' :
  (forall p t, lim = Some (p, t) -> p <= perTarget /\ t <= total) ->
  queue_move lim sv sv' -> depth_ok perTarget total sv -> depth_ok perTarget total sv'.
Proof.
  intros Hlim [f Hf Eq _ Ht|e began p t -> Hb Hp Ht _ Eq _ Et] [H1 H2].
  - split.
    + intros db. etransitivity; [|apply (H1 db)]. apply (depth_le _ _ f); [done|].
      intros x. by apply in_database_same.
    + intros db key. etransitivity; [|apply (H2 db key)]. apply (depth_le _ _ f); [done|].
      intros x [Hd Hk]%andb_prop. apply andb_true_intro. split; [by apply (in_database_same sv sv' db _ _ (Hf x))|].
      by rewrite <- (se_Keys _ _ (Hf x)).
  - destruct (Hlim p t eq_refl) as [Hp' Ht'].
    assert (Enow : forall db, in_database sv' db = in_database sv db).
    { intros db. unfold in_database. by rewrite Et. }
    split.
    + intros db. rewrite (depth_added _ _ e), Enow by done. specialize (H1 db).
      destruct (in_database sv db e) eqn:Ein; [|lia]. apply andb_prop in Ein as [_ Hh].
      enough (depth sv (in_database sv db) <= depth sv (beside began e)) by lia.
      apply depth_mono. intros x. by apply same_database_beside.
    + intros db key. rewrite (depth_added sv _ e) by done.
      assert (Eon : on_object sv' db key = on_object sv db key) by (unfold on_object; by rewrite Enow).
      rewrite Eon. specialize (H2 db key). destruct (on_object sv db key e) eqn:Ein; [|lia].
      apply andb_prop in Ein as [[_ Hh]%andb_prop Hk].
      enough (depth sv (on_object sv db key) <= depth sv (against began e)) by lia.
      apply depth_mono. intros x [Hd Hx]%andb_prop. apply andb_true_intro.
      split; [by eapply same_database_beside|by eapply overlap_key].
Qed.

(** ** The system *)

(** Every operation under way still keeps to its limits. *)
Definition depth_inv (perTarget total : Z) (sy : System) : Prop :=
  depth_ok perTarget total (sy_Server sy) /\
  forall i op p, sy_Threads sy !! i = Some (op, p) -> always (within (limits_of op)) p.

(** The operations' configurations have these limits at most. *)
Definition configured (perTarget total : Z) (sy : System) : Prop :=
  forall i op p x t, sy_Threads sy !! i = Some (op, p) -> limits_of op = Some (x, t) ->
    x <= perTarget /\ t <= total.

Lemma configured_start perTarget total sy op :
  configured perTarget total {| sy_Server := sy_Server sy; sy_Threads := sy_Threads sy ++ [(op, m_program op)] |} ->
  configured perTarget total sy.
Proof. intros H i op' p x t Hi. apply (H i op' p). by apply lookup_app_l_Some. Qed.

Lemma configured_run perTarget total (sy : System) i op p p' sv : sy_Threads sy !! i = Some (op, p) ->
  configured perTarget total {| sy_Server := sv; sy_Threads := <[i := (op, p')]> (sy_Threads sy) |} ->
  configured perTarget total sy.
Proof.
  intros Ei H j op' p0 x t Hj. destruct (decide (j = i)) as [->|Hne].
  - assert (op' = op) as -> by congruence. apply (H i op p'). cbn. apply list_lookup_insert_eq.
    by eapply lookup_lt_Some.
  - apply (H j op' p0). cbn. by rewrite list_lookup_insert_ne.
Qed.

Lemma depth_reachable perTarget total sy : 0 <= perTarget -> 0 <= total -> reachable fresh sy ->
  configured perTarget total sy -> depth_inv perTarget total sy.
Proof.
  intros Hp Ht. revert sy. apply (reachable_ind fresh (fun sy => configured _ _ sy -> depth_inv _ _ sy)).
  - intros sv [now ->] _. split; [by split|]. by intros i op p.
  - intros sy op IH Hc. destruct (IH (configured_start _ _ _ _ Hc)) as [Hd Hts]. split; [done|].
    intros i op' p. cbn. intros [Hi|[_ Hi]]%lookup_app_Some; [by apply (Hts i op')|].
    apply list_lookup_singleton_Some in Hi as [_ [= <- <-]]. apply within_program.
  - intros sy i op X st k oc r sv IH Ei Ex Hc. pose proof (configured_run _ _ _ _ _ _ _ _ Ei Hc) as Hc0.
    destruct (IH Hc0) as [Hd Hts]. destruct (Hts i op _ Ei) as [Hst Hk]. split; cbn.
    + apply (depth_move _ _ (limits st) (sy_Server sy)); [|by eapply exec_move|done].
      intros p t E. destruct Hst as [Hst|Hst]; rewrite Hst in E; [done|]. by apply (Hc0 i op (Do st k)).
    + intros j op' p [(-> & [= <- <-] & _)|[_ Hj]]%list_lookup_insert_Some; [apply Hk|by apply (Hts j op')].
  - intros sy e sv IH He Hc. destruct (IH Hc) as [Hd Hts]. split; [|done].
    apply (depth_move _ _ None (sy_Server sy)); [done| |done]. destruct e as [d|s]; cbn in He.
    + destruct (Z.leb_spec 0 d) as [Hle|]; [|done]. injection He as <-. by apply pass_move.
    + injection He as <-. by apply kept_same.
Qed.

(** C28: the lease queue is bounded.  In every reachable system whose operations
    were configured with at most these limits, the entries of a database that
    wait within their deadline number at most MaxDepth, and those naming one
    object at most MaxDepthPerTarget. *)
Theorem lease_queue_bounded sy perTarget total :
  reachable fresh sy -> 0 <= perTarget -> 0 <= total -> configured perTarget total sy ->
  (forall db, depth (sy_Server sy) (in_database (sy_Server sy) db) <= total) /\
  (forall db key, depth (sy_Server sy) (on_object (sy_Server sy) db key) <= perTarget).
Proof.
  intros Hr Hp Ht Hc. by destruct (depth_reachable _ _ _ Hp Ht Hr Hc) as [[H1 H2] _].
Qed.

(** ** A queue of one *)

Definition one : LeaseQueueConfig :=
  {| qc_MaxWait := 0; qc_OperatorMaxWait := 0; qc_MaxDepthPerTarget := 1; qc_MaxDepth := 1;
     qc_PollInterval := 0; qc_StaleAfter := 0 |}.

(** A second request finds the queue full. *)
Definition full_run : list action :=
  Start (take 1 "users") :: takes 0 11 1 ++ Start (queued_take one 2 "users") :: queues 1 12 ++
  Start (queued_take one 3 "users") :: steps 2 4.

Lemma full_run_ends :
  option_map (fun sy => (map limits_of (map fst (sy_Threads sy)), ended_with sy 2,
                         depth (sy_Server sy) (in_database (sy_Server sy) (Some 1))))
    (acts full_run (idle (empty_server 0))) =
  Some ([None; Some (1, 1); Some (1, 1)], Some (Some (inr (QueueFull 1 1))), 1).
Proof. vm_compute. reflexivity. Qed.

Lemma lease_queue_bounded_witness : exists sy,
  reachable fresh sy /\ ended_with sy 2 = Some (Some (inr (QueueFull 1 1))) /\
  depth (sy_Server sy) (in_database (sy_Server sy) (Some 1)) = 1 /\
  depth (sy_Server sy) (on_object (sy_Server sy) (Some 1) "public.users") <= 1.
Proof.
  destruct (acts_read fresh _ _ _ _ (ex_intro _ 0 eq_refl) full_run_ends) as (sy & Hr & H).
  injection H as Hl He Hd.
  exists sy. split_and!; [done..|]. apply (lease_queue_bounded sy 1 1); [done|lia..|].
  intros i op p x t Hi Hx. assert (Hin : limits_of op ∈ map limits_of (map fst (sy_Threads sy))).
  { apply list_elem_of_fmap. exists op. split; [done|]. apply list_elem_of_fmap. exists (op, p).
    split; [done|]. by eapply list_elem_of_lookup_2. }
  rewrite Hl, Hx in Hin. apply list_elem_of_In in Hin. cbn in Hin.
  destruct Hin as [|[[= <- <-]|[[= <- <-]|[]]]]; done.
Defined.
