(* ===== verification/LeaseWait.v ===== *)
(** * A waiter always leaves the queue

    [LeaseQueue.wait] is bounded by polls in the model, and by the entry's deadline
    in the code: with enough polls to reach the deadline it always ends, whatever
    the other processes and the server do between its statements. *)

From S2P Require Import Prelude.
From S2P Require Import GoStd.
From S2P Require Import Lease.
From S2P Require Import LeaseStore.
From S2P Require Import LeaseQueue.
From S2P Require Import LeaseMoves.

#[local] Opaque advisoryObjectKey.

(** ** Runs of one operation *)

Section Paced.
Context (id : Z) (deadline : Time) (poll : Duration).

(** [p] answers [a]: each statement meets some server, no earlier than [now], on
    which entry [id] waits until [deadline] at most; a ticker of period [poll]
    fires at [tick] at the earliest. *)
Fixpoint paced {A} (tick now : Time) (p : prog A) (a : A) : Prop :=
  match p with
  | Ret b => a = b
  | Do st k => exists oc sv r sv',
      now <= sv_Now sv /\
      (forall e, e ∈ sv_Queue sv -> qe_ID e = id -> waiting e = true -> qe_DeadlineAt e <= deadline) /\
      exec oc st sv = Some (r, sv') /\
      match st with
      | NextTick => tick <= sv_Now sv /\ paced (tick + poll) (sv_Now sv) (k r) a
      | _ => paced tick (sv_Now sv) (k r) a
      end
  end.

Lemma paced_returns {A} (Q : A -> Prop) (p : prog A) a tick now :
  yields_only Q p -> paced tick now p a -> Q a.
Proof.
  revert tick now. induction p as [b|X st k IH]; intros tick now Hr; [by intros ->|].
  intros (oc & sv & r & sv' & _ & _ & _ & Hp). destruct st; try by eapply IH.
  eapply IH; [apply Hr|apply Hp].
Qed.

Lemma paced_bind {A B} (p : prog A) (f : A -> prog B) b tick now : always off_queue p ->
  paced tick now (pbind p f) b -> exists a now', now <= now' /\ paced tick now' (f a) b.
Proof.
  revert now. induction p as [a|X st k IH]; intros now Hp.
  - intros H. exists a, now. split; [lia|done].
  - intros (oc & sv & r & sv' & Hn & _ & _ & H). destruct Hp as [Hst Hk].
    destruct st; try done; destruct (IH r _ (Hk r) H) as (a & now' & Hn' & H');
      exists a, now'; (split; [lia|done]).
Qed.

(** ** wait *)

Context (q : LeaseQueue) (m : PostgresLeaseManager) (req : QueuedLeaseRequest).

Lemma left_some state e : yields_only is_Some (do* a := leave id state e in Ret (Some a)).
Proof. unfold leave, resolve. cbn. intros r. by eexists. Qed.

Lemma position_deadline sv db ahead expired : (position sv id db).1 = Some (ahead, expired) ->
  (forall e, e ∈ sv_Queue sv -> qe_ID e = id -> waiting e = true -> qe_DeadlineAt e <= deadline) ->
  deadline <= sv_Now sv -> expired = true.
Proof.
  cbn. destruct (List.find _ (sv_Queue sv)) as [me|] eqn:Ef; [|done]. intros [= _ <-] Hd Hn.
  apply find_some in Ef as [Hin%list_elem_of_In [Hid%Z.eqb_eq Hw]%andb_prop].
  apply Z.leb_le. specialize (Hd me Hin Hid Hw). lia.
Qed.

Lemma paced_wait polls : forall last tick now a,
  paced tick now (wait q polls m req id last) a -> tick - poll <= now ->
  deadline <= tick - poll + (Z.of_nat polls - 1) * poll -> (0 < polls)%nat -> is_Some a.
Proof.
  induction polls as [|polls IH]; intros last tick now a Hp Hnow Hd Hpos; [lia|].
  assert (Hnext : forall l now', now <= now' -> (0 < polls)%nat ->
    paced tick now' (do~ gone := NextTick in
     match gone with
     | inl true => do* a := leave id EntryCancelled CallerEnded in Ret (Some a)
     | _ => wait q polls m req id l
     end) a -> is_Some a).
  { intros l now' Hn Hpolls (oc & sv & r & sv' & Hn' & _ & _ & Htick & H).
    assert (Hgo : paced (tick + poll) (sv_Now sv) (wait q polls m req id l) a -> is_Some a).
    { intros H'. eapply IH; [exact H'|lia|nia|lia]. }
    destruct r as [[]|f]; [|by apply Hgo..]. eapply paced_returns; [apply left_some|exact H]. }
  cbn [wait paced] in Hp. destruct Hp as (oc & sv & r & sv' & Hn & Hent & He & Hp).
  destruct r as [[[ahead expired]|]|f].
  - assert (Hex : deadline <= sv_Now sv -> expired = true).
    { destruct oc as [n|applied f]; cbn [exec exec_done] in He; [|by destruct (negb _)].
      injection He as Hfound _. by apply (position_deadline sv (lq_DatabaseID q) ahead). }
    destruct expired; [eapply paced_returns; [apply left_some|exact Hp]|].
    assert (Hpolls : (0 < polls)%nat).
    { destruct polls; [|lia]. specialize (Hex ltac:(lia)). done. }
    destruct (ahead =? 0); [|by apply (Hnext last (sv_Now sv))].
    apply paced_bind in Hp as (lease & now' & Hn' & Hp); [|apply off_acquireKeys].
    destruct lease as [lease|e].
    + eapply paced_returns; [|exact Hp]. apply yields_only_bind. intros b. by exists b.
    + destruct (retryableLeaseError e); [apply (Hnext (Some e) now'); [lia|done..]|].
      eapply paced_returns; [|exact Hp]. apply yields_only_bind. intros e'. apply left_some.
  - eapply paced_returns; [apply left_some|exact Hp].
  - eapply paced_returns; [|exact Hp]. apply yields_only_bind. intros e'. apply left_some.
Qed.
End Paced.

(** C29: waiting for a turn ends.  With a poll interval as long as configured, as
    many polls as it takes to reach the entry's deadline are enough for [wait] to
    answer, whatever the server is between its statements: granted, timed out,
    cancelled or failed. *)
Theorem lease_wait_ends (id : Z) deadline start q polls m req last a :
  let poll := qc_PollInterval (lq_cfg q) in
  deadline <= start + (Z.of_nat polls - 1) * poll -> (0 < polls)%nat ->
  paced id deadline poll (start + poll) start (wait q polls m req id last) a ->
  exists given : answer, a = Some given.
Proof.
  intros poll Hd Hpos Hp. eapply (paced_wait id deadline poll q m req polls); [exact Hp|lia..].
Qed.

(** ** Behind another entry until the deadline *)

Definition waiting_entry (id : Z) (deadline : Time) : QueueEntry :=
  {| qe_ID := id; qe_DatabaseID := Some 1; qe_RequestKey := itoa id; qe_Keys := ["public.users"];
     qe_Kind := "finding"; qe_Actor := "pg_sage"; qe_Intent := "add index"; qe_DecisionID := 7;
     qe_Instance := "process-A"; qe_State := EntryWaiting; qe_HeartbeatAt := 0;
     qe_DeadlineAt := deadline; qe_Resumed := 0 |}.

(** Entry 1 waits for a minute, entry 2 for a second. *)
Definition two_waiting (now : Time) : Server :=
  set_Queue [waiting_entry 1 Minute; waiting_entry 2 Second] 3 (empty_server now).

Definition waiter : LeaseQueue :=
  NewLeaseQueue true (Some 1)
    {| qc_MaxWait := Second; qc_OperatorMaxWait := 0; qc_MaxDepthPerTarget := 0; qc_MaxDepth := 0;
       qc_PollInterval := Second; qc_StaleAfter := 0 |} "process-A".
Definition waiter_manager : PostgresLeaseManager :=
  {| pm_ID := 2; pm_Pool := true; pm_DatabaseID := Some 1; pm_DecisionID := 7; pm_TTL := Minute |}.
Definition waiter_request : QueuedLeaseRequest :=
  {| qr_Manager := Some waiter_manager; qr_Kind := "finding"; qr_Actor := "pg_sage";
     qr_Intent := "add index"; qr_Targets := []; qr_Operator := false; qr_MaxWait := 0 |}.

Lemma waiting_deadlines now e : e ∈ sv_Queue (two_waiting now) -> qe_ID e = 2 -> waiting e = true ->
  qe_DeadlineAt e <= Second.
Proof.
  intros [->|[->|[]%elem_of_nil]%elem_of_cons]%elem_of_cons; done || (intros H; discriminate H).
Qed.

Lemma two_waiting_paced : paced 2 Second Second Second 0
  (wait waiter 2 waiter_manager waiter_request 2 None) (Some (inr (QueueTimeout 1))).
Proof.
  exists (Done 0), (two_waiting 0). do 2 eexists. split; [done|]. split; [by apply waiting_deadlines|].
  split; [vm_compute; reflexivity|]. cbn -[Second two_waiting].
  exists (Done 0), (two_waiting Second). do 2 eexists. split; [done|]. split; [by apply waiting_deadlines|].
  split; [vm_compute; reflexivity|]. split; [done|]. cbn -[Second two_waiting].
  exists (Done 0), (two_waiting Second). do 2 eexists. split; [done|]. split; [by apply waiting_deadlines|].
  split; [vm_compute; reflexivity|]. cbn -[Second two_waiting].
  exists (Done 0), (two_waiting Second). do 2 eexists. split; [done|]. split; [by apply waiting_deadlines|].
  split; [vm_compute; reflexivity|]. done.
Qed.

Lemma lease_wait_ends_witness : exists given : answer, Some (inr (QueueTimeout 1)) = Some given.
Proof.
  apply (lease_wait_ends 2 Second 0 waiter 2 waiter_manager waiter_request None); [done|lia|].
  exact two_waiting_paced.
Defined.
