(* ===== verification/Guard.v ===== *)
(** * The kill switch's requests and tables

    internal/agentguard: the requests of kill_types.go, unfreeze.go and store.go with
    their checks, the control database's tables guard_principals, guard_kills,
    guard_freezes and guard_unfreeze_requests (schema/guard_kill_migration.go), the
    mcp_tokens a kill revokes, and the transactions of kill_control.go,
    unfreeze.go, store_update.go and decide/hold.go as functions of them. *)

From S2P Require Import Prelude.
From S2P Require Import GoStd.
From S2P Require Import Principal.

(** ** Errors

    A failing statement of the control database either timed out on a lock or
    failed for another reason. *)

Inductive failure : Type :=
| LockTimeout
| OtherFailure (e : error).

Inductive GuardError : Type :=
| ErrInvalid (msg : error)
| ErrNotFound
| ErrRetired
| ErrUnavailable
| ErrNotFrozen
| ErrApprovalRequired
| ErrSponsorCannotApprove
| ErrEncryptionKeyRequired
| Denied (e : DeniedError)
| ApplyFailed (e : error)
| Broken (what : error) (f : failure).

Definition isLockTimeout (e : GuardError) : bool :=
  match e with Broken _ LockTimeout => true | _ => false end.

Definition isNotFound (e : GuardError) : bool :=
  match e with ErrNotFound => true | _ => false end.

(** ** Texts

    The number of runes of a byte string, [None] when it is not valid UTF-8. *)

Definition continuation (b : Z) : bool := (128 <=? b) && (b <=? 191).

Fixpoint rune_count (l : list Z) : option nat :=
  match l with
  | [] => Some 0%nat
  | a :: l1 =>
      if a <? 128 then S <$> rune_count l1 else
      match l1 with
      | [] => None
      | b :: l2 =>
          if (194 <=? a) && (a <=? 223) && continuation b then S <$> rune_count l2 else
          match l2 with
          | [] => None
          | c :: l3 =>
              if (224 <=? a) && (a <=? 239) && continuation b && continuation c &&
                 (negb (a =? 224) || (160 <=? b)) && (negb (a =? 237) || (b <=? 159))
              then S <$> rune_count l3 else
              match l3 with
              | [] => None
              | d :: l4 =>
                  if (240 <=? a) && (a <=? 244) && continuation b && continuation c &&
                     continuation d && (negb (a =? 240) || (144 <=? b)) &&
                     (negb (a =? 244) || (b <=? 143))
                  then S <$> rune_count l4 else None
              end
          end
      end
  end.

Definition checkText (field value : string) (min max : Z) : option GuardError :=
  let codes := map code (str_chars value) in
  match rune_count codes with
  | None => Some (ErrInvalid (field +:+ " must be text"))
  | Some n =>
      if (Z.of_nat n <? min) || (max <? Z.of_nat n)
      then Some (ErrInvalid (field +:+ " has the wrong length"))
      else if existsb (fun c => (c <? 32) || (c =? 127)) codes
      then Some (ErrInvalid (field +:+ " must not contain control characters"))
      else None
  end.

Definition maxActorLen : Z := 200.
Definition maxReasonLen : Z := 2000.

(** The first failing check. *)
Definition first_bad (checks : list (option GuardError)) : option GuardError :=
  List.fold_right (fun c rest => match c with Some e => Some e | None => rest end) None checks.

Definition checkReasonActor (reason actor : string) : option GuardError :=
  first_bad [checkText "reason" reason 1 maxReasonLen; checkText "actor" actor 1 maxActorLen].

Definition checkApprover (reason actor : string) (userID : Z) : option GuardError :=
  first_bad [checkText "reason" reason 0 maxReasonLen; checkText "actor" actor 1 maxActorLen;
             if userID <=? 0 then Some ErrApprovalRequired else None].

(** ** Requests *)

Abbreviation KillScope := string (only parsing).
Definition KillScopeAll : KillScope := "all".
Definition KillScopePrincipal : KillScope := "principal".
Definition KillScopeDatabase : KillScope := "database".

Record KillRequest : Type := {
  kq_Scope : KillScope;
  kq_ID : string;
  kq_Reason : string;
  kq_Actor : string;
}.

Definition KillRequest_Validate (r : KillRequest) : option GuardError :=
  let rest := checkReasonActor (kq_Reason r) (kq_Actor r) in
  if kq_Scope r =s KillScopeAll then
    if kq_ID r <>s "" then Some (ErrInvalid "scope all takes no id") else rest
  else if kq_Scope r =s KillScopePrincipal then
    if negb (ValidID (kq_ID r)) then Some (ErrInvalid "scope principal needs a principal id (agp_...)")
    else rest
  else if kq_Scope r =s KillScopeDatabase then
    first_bad [checkText "database" (kq_ID r) 1 200; rest]
  else Some (ErrInvalid "scope must be all, principal or database").

Record FreezeRequest : Type := {
  fq_PrincipalID : string;
  fq_Reason : string;
  fq_Actor : string;
}.

Definition FreezeRequest_Validate (r : FreezeRequest) : option GuardError :=
  if negb (ValidID (fq_PrincipalID r)) then Some (ErrInvalid "principal id is not valid")
  else checkReasonActor (fq_Reason r) (fq_Actor r).

Record UnfreezeRequest : Type := {
  uq_PrincipalID : string;
  uq_Reason : string;
  uq_Actor : string;
  uq_ActorUserID : Z;
}.

Definition UnfreezeRequest_Validate (r : UnfreezeRequest) : option GuardError :=
  if negb (ValidID (uq_PrincipalID r)) then Some (ErrInvalid "principal id is not valid")
  else checkApprover (uq_Reason r) (uq_Actor r) (uq_ActorUserID r).

Record ReleaseRequest : Type := {
  lq_Scope : KillScope;
  lq_Database : string;
  lq_Reason : string;
  lq_Actor : string;
  lq_ActorUserID : Z;
}.

Definition ReleaseRequest_Validate (r : ReleaseRequest) : option GuardError :=
  let rest := checkApprover (lq_Reason r) (lq_Actor r) (lq_ActorUserID r) in
  if lq_Scope r =s KillScopeAll then
    if lq_Database r <>s "" then Some (ErrInvalid "scope all takes no database") else rest
  else if lq_Scope r =s KillScopeDatabase then
    first_bad [checkText "database" (lq_Database r) 1 200; rest]
  else Some (ErrInvalid "scope must be all or database").

(** The bounds of kill and unfreeze that the control database's steps read. *)
Record KillConfig : Type := {
  kc_Attempts : Z;
  kc_ApprovalTTL : Duration;
  kc_SingleOperatorMode : bool;
}.

(** ** Tables *)

(** A row of guard_principals, less the columns none of these operations read. *)
Record PrincipalRow : Type := {
  gp_ID : string;
  gp_Sponsor : option Z;
  gp_Status : Status;
  gp_FrozenReason : string;
  gp_UpdatedAt : Time;
}.

(** [UPDATE ... SET status, frozen_reason, updated_at] *)
Definition with_status (status : Status) (reason : string) (now : Time) (p : PrincipalRow) : PrincipalRow :=
  {| gp_ID := gp_ID p; gp_Sponsor := gp_Sponsor p; gp_Status := status; gp_FrozenReason := reason;
     gp_UpdatedAt := now |}.

Definition with_sponsor (sponsor : Z) (now : Time) (p : PrincipalRow) : PrincipalRow :=
  {| gp_ID := gp_ID p; gp_Sponsor := Some sponsor; gp_Status := gp_Status p;
     gp_FrozenReason := gp_FrozenReason p; gp_UpdatedAt := now |}.

Record KillRow : Type := {
  kl_ID : Z;
  kl_Scope : KillScope;
  kl_Target : string;
  kl_Reason : string;
  kl_RequestedBy : string;
  kl_StartedAt : Time;
  kl_FinishedAt : option Time;
}.

Record FreezeRow : Type := {
  fz_ID : Z;
  fz_Scope : string;
  fz_Target : string;
  fz_KillID : option Z;
  fz_Reason : string;
  fz_SetBy : string;
  fz_SetAt : Time;
  fz_ClearedAt : option Time;
  fz_ClearedBy : string;
}.

Definition is_open (f : FreezeRow) : bool :=
  match fz_ClearedAt f with None => true | Some _ => false end.

Definition of_target (scope target : string) (f : FreezeRow) : bool :=
  (fz_Scope f =s scope) && (fz_Target f =s target).

(** The id of a kill stays once it is there. *)
Definition with_kill (kill : option Z) (f : FreezeRow) : FreezeRow :=
  {| fz_ID := fz_ID f; fz_Scope := fz_Scope f; fz_Target := fz_Target f;
     fz_KillID := match fz_KillID f with Some k => Some k | None => kill end;
     fz_Reason := fz_Reason f; fz_SetBy := fz_SetBy f; fz_SetAt := fz_SetAt f;
     fz_ClearedAt := fz_ClearedAt f; fz_ClearedBy := fz_ClearedBy f |}.

Definition cleared (now : Time) (by_ : string) (f : FreezeRow) : FreezeRow :=
  {| fz_ID := fz_ID f; fz_Scope := fz_Scope f; fz_Target := fz_Target f; fz_KillID := fz_KillID f;
     fz_Reason := fz_Reason f; fz_SetBy := fz_SetBy f; fz_SetAt := fz_SetAt f;
     fz_ClearedAt := Some now; fz_ClearedBy := by_ |}.

Definition Pending : string := "pending".
Definition Applied : string := "applied".
Definition Expired : string := "expired".
Definition Superseded : string := "superseded".

(** A row of guard_unfreeze_requests. *)
Record RequestRow : Type := {
  uf_ID : Z;
  uf_Scope : string;
  uf_Target : string;
  uf_FreezeID : Z;
  uf_RequestedBy : string;
  uf_RequestedByUser : Z;
  uf_Reason : string;
  uf_RequestedAt : Time;
  uf_ExpiresAt : Time;
  uf_ApprovedBy : string;
  uf_ApprovedByUser : option Z;
  uf_DecidedAt : option Time;
  uf_Status : string;
}.

Definition decide_request (status : string) (now : Time) (by_ : string) (user : option Z)
    (r : RequestRow) : RequestRow :=
  {| uf_ID := uf_ID r; uf_Scope := uf_Scope r; uf_Target := uf_Target r; uf_FreezeID := uf_FreezeID r;
     uf_RequestedBy := uf_RequestedBy r; uf_RequestedByUser := uf_RequestedByUser r;
     uf_Reason := uf_Reason r; uf_RequestedAt := uf_RequestedAt r; uf_ExpiresAt := uf_ExpiresAt r;
     uf_ApprovedBy := by_; uf_ApprovedByUser := user; uf_DecidedAt := Some now; uf_Status := status |}.

(** A row of mcp_tokens bound to a principal. *)
Record TokenRow : Type := {
  tk_ID : Z;
  tk_Principal : string;
  tk_RevokedAt : option Time;
  tk_RevokedBy : string;
}.

(** A transaction that holds a principal's row FOR SHARE, and the status it read. *)
Record Hold : Type := {
  ho_ID : Z;
  ho_Principal : string;
  ho_Status : Status;
}.

(** The control database; [g_Holds]: the rows locked FOR SHARE. *)
Record Guard : Type := {
  g_Now : Time;
  g_Principals : list PrincipalRow;
  g_Kills : list KillRow;
  g_Freezes : list FreezeRow;
  g_Requests : list RequestRow;
  g_Tokens : list TokenRow;
  g_Holds : list Hold;
  g_Next : Z;
}.

Definition g_set_now (t : Time) (g : Guard) : Guard :=
  {| g_Now := t; g_Principals := g_Principals g; g_Kills := g_Kills g; g_Freezes := g_Freezes g;
     g_Requests := g_Requests g; g_Tokens := g_Tokens g; g_Holds := g_Holds g; g_Next := g_Next g |}.
Definition g_set_principals (l : list PrincipalRow) (g : Guard) : Guard :=
  {| g_Now := g_Now g; g_Principals := l; g_Kills := g_Kills g; g_Freezes := g_Freezes g;
     g_Requests := g_Requests g; g_Tokens := g_Tokens g; g_Holds := g_Holds g; g_Next := g_Next g |}.
Definition g_set_kills (l : list KillRow) (g : Guard) : Guard :=
  {| g_Now := g_Now g; g_Principals := g_Principals g; g_Kills := l; g_Freezes := g_Freezes g;
     g_Requests := g_Requests g; g_Tokens := g_Tokens g; g_Holds := g_Holds g; g_Next := g_Next g |}.
Definition g_set_freezes (l : list FreezeRow) (g : Guard) : Guard :=
  {| g_Now := g_Now g; g_Principals := g_Principals g; g_Kills := g_Kills g; g_Freezes := l;
     g_Requests := g_Requests g; g_Tokens := g_Tokens g; g_Holds := g_Holds g; g_Next := g_Next g |}.
Definition g_set_requests (l : list RequestRow) (g : Guard) : Guard :=
  {| g_Now := g_Now g; g_Principals := g_Principals g; g_Kills := g_Kills g; g_Freezes := g_Freezes g;
     g_Requests := l; g_Tokens := g_Tokens g; g_Holds := g_Holds g; g_Next := g_Next g |}.
Definition g_set_tokens (l : list TokenRow) (g : Guard) : Guard :=
  {| g_Now := g_Now g; g_Principals := g_Principals g; g_Kills := g_Kills g; g_Freezes := g_Freezes g;
     g_Requests := g_Requests g; g_Tokens := l; g_Holds := g_Holds g; g_Next := g_Next g |}.
Definition g_set_holds (l : list Hold) (g : Guard) : Guard :=
  {| g_Now := g_Now g; g_Principals := g_Principals g; g_Kills := g_Kills g; g_Freezes := g_Freezes g;
     g_Requests := g_Requests g; g_Tokens := g_Tokens g; g_Holds := l; g_Next := g_Next g |}.
(** A fresh id; every sequence of the tables is this one. *)
Definition g_take_id (g : Guard) : Guard :=
  {| g_Now := g_Now g; g_Principals := g_Principals g; g_Kills := g_Kills g; g_Freezes := g_Freezes g;
     g_Requests := g_Requests g; g_Tokens := g_Tokens g; g_Holds := g_Holds g; g_Next := g_Next g + 1 |}.

Definition get_principal (id : string) (g : Guard) : option PrincipalRow :=
  List.find (fun p => gp_ID p =s id) (g_Principals g).

Definition held (id : string) (g : Guard) : bool := existsb (fun h => ho_Principal h =s id) (g_Holds g).
