(* ===== verification/GuardRoles.v ===== *)
(** * Roles and sessions of killed agents

    internal/agentguard, the kill's steps on a cluster: which roles a kill covers and
    how it disables them and keeps what they were (kill_cluster.go, kill_run.go),
    how an unfreeze restores them (unfreeze_roles.go, ParsePriorAttrs of
    kill_types.go), and how a kill checks that nothing is left (kill_verify.go,
    kill_replica.go).  A cluster is its role catalog; what a server answers or
    refuses is an argument. *)

From S2P Require Import Prelude.
From S2P Require Import GoStd.
From S2P Require Import Principal.
From S2P Require Import Guard.

(** ** Role attributes *)

Record RoleAttrs : Type := {
  ra_Login : bool;
  ra_ConnectionLimit : Z;
}.

#[export] Instance RoleAttrs_eq : EqDecision RoleAttrs.
Proof. solve_decision. Defined.

(** NOLOGIN CONNECTION LIMIT 0 *)
Definition disabled : RoleAttrs := {| ra_Login := false; ra_ConnectionLimit := 0 |}.

Definition killed (a : RoleAttrs) : bool := negb (ra_Login a) && (ra_ConnectionLimit a =? 0).

Abbreviation PriorAttrs := (gmap string RoleAttrs) (only parsing).
(** pg_roles: a role's name to its attributes. *)
Abbreviation Catalog := (gmap string RoleAttrs) (only parsing).

(** On the decoded column. *)
Definition ParsePriorAttrs (raw : option PriorAttrs) : PriorAttrs + GuardError :=
  let prior := default ∅ raw in
  if forallb (fun ra => IsAgentRoleName ra.1 && (-1 <=? ra_ConnectionLimit ra.2)) (map_to_list prior)
  then inl prior
  else inr (ErrInvalid "prior_attrs names a role that is not an agent role, or a connection limit").

Definition RoleStatusActive : string := "active".
Definition RoleStatusKilled : string := "killed".
Definition RoleStatusRetired : string := "retired".

(** A row of guard_cluster_roles, less the credential. *)
Record ClusterRole : Type := {
  cr_PrincipalID : string;
  cr_ClusterKey : string;
  cr_LoginRole : string;
  cr_BrokerRole : string;
  cr_PriorAttrs : option PriorAttrs;
  cr_Status : string;
}.

(** [SetClusterRoleStatus] on its row: a nil prior keeps the stored one. *)
Definition with_role_status (status : string) (prior : option PriorAttrs) (r : ClusterRole) : ClusterRole :=
  {| cr_PrincipalID := cr_PrincipalID r; cr_ClusterKey := cr_ClusterKey r;
     cr_LoginRole := cr_LoginRole r; cr_BrokerRole := cr_BrokerRole r;
     cr_PriorAttrs := match prior with Some p => Some p | None => cr_PriorAttrs r end;
     cr_Status := status |}.

(** ** What a kill covers *)

Record killScope : Type := {
  k_actionType : string;
  k_scope : KillScope;
  k_all : bool;
  k_ids : list string;
  k_database : string;
  k_reason : string;
  k_actor : string;
  k_killID : Z;
}.

Definition roles (k : killScope) : list string :=
  flat_map (fun id => [BrokerRoleName id; LoginRoleName id]) (k_ids k).
Definition anyRole (k : killScope) : bool := k_all k || (k_scope k =s KillScopeDatabase).
Definition disablesRoles (k : killScope) : bool := k_scope k <>s KillScopeDatabase.

(** The condition of [roleAttrsSQL]. *)
Definition in_scope (k : killScope) (name : string) : bool :=
  existsb (String.eqb name) (roles k) || (k_all k && IsAgentRoleName name).

Definition readRoleAttrs (k : killScope) (cat : Catalog) : list (string * RoleAttrs) :=
  List.filter (fun row => in_scope k row.1) (map_to_list cat).

(** ** Disabling roles *)

(** What the servers let a kill do: whether it can read the roles, alter one,
    read the registrations, and store one. *)
Record KillEnv : Type := {
  ke_reads : bool;
  ke_alters : string -> bool;
  ke_control : bool;
  ke_stores : string -> bool;
}.

(** [ClusterRolesOf] *)
Definition row_of (pid key : string) (rows : list ClusterRole) : option ClusterRole :=
  List.find (fun r => (cr_PrincipalID r =s pid) && (cr_ClusterKey r =s key)) rows.

Definition registeredRoles (env : KillEnv) (k : killScope) (key : string) (rows : list ClusterRole)
    : list ClusterRole :=
  if negb (disablesRoles k) || negb (ke_control env) then [] else
  if k_all k then List.filter (fun r => cr_ClusterKey r =s key) rows
  else flat_map (fun id => match row_of id key rows with Some r => [r] | None => [] end) (k_ids k).

(** A principal's entries in the map of role owners; later ones win. *)
Definition own (broker login pid : string) (m : gmap string string) : gmap string string :=
  <[login := pid]> (<[broker := pid]> m).

Definition scope_owners (k : killScope) : gmap string string :=
  foldl (fun m id => own (BrokerRoleName id) (LoginRoleName id) id m) ∅ (k_ids k).

Definition roleOwners (k : killScope) (registered : list ClusterRole) : gmap string string :=
  foldl (fun m r => own (cr_BrokerRole r) (cr_LoginRole r) (cr_PrincipalID r) m) (scope_owners k)
    registered.

Record Disabling : Type := {
  d_cat : Catalog;
  d_prior : gmap string PriorAttrs;
  d_count : Z;
  d_failed : list string;
}.

(** [r.prior[pid][name] = attrs] *)
Definition note_prior (owner : gmap string string) (name : string) (attrs : RoleAttrs)
    (prior : gmap string PriorAttrs) : gmap string PriorAttrs :=
  match owner !! name with
  | Some pid => if killed attrs then prior
                else <[pid := <[name := attrs]> (default ∅ (prior !! pid))]> prior
  | None => prior
  end.

(** One role of the loop of [disableRoles]. *)
Definition disable_role (env : KillEnv) (owner : gmap string string) (d : Disabling)
    (row : string * RoleAttrs) : Disabling :=
  let prior := note_prior owner row.1 row.2 (d_prior d) in
  if killed row.2 then
    {| d_cat := d_cat d; d_prior := prior; d_count := d_count d + 1; d_failed := d_failed d |}
  else if ke_alters env row.1 then
    {| d_cat := <[row.1 := disabled]> (d_cat d); d_prior := prior; d_count := d_count d + 1;
       d_failed := d_failed d |}
  else {| d_cat := d_cat d; d_prior := prior; d_count := d_count d; d_failed := d_failed d ++ [row.1] |}.

(** A registration's new prior attributes: only from an active one. *)
Definition prior_of (prior : gmap string PriorAttrs) (r : ClusterRole) : option PriorAttrs :=
  if cr_Status r =s RoleStatusActive then
    match prior !! cr_PrincipalID r with
    | Some p => if bool_decide (p = ∅) then None else Some p
    | None => None
    end
  else None.

(** [UPDATE ... WHERE principal_id = $1 AND cluster_key = $2] *)
Definition set_role_status (pid key status : string) (prior : option PriorAttrs)
    (rows : list ClusterRole) : list ClusterRole :=
  map (fun r => if (cr_PrincipalID r =s pid) && (cr_ClusterKey r =s key)
                then with_role_status status prior r else r) rows.

Definition storeKilled (env : KillEnv) (key : string) (registered : list ClusterRole)
    (prior : gmap string PriorAttrs) (rows : list ClusterRole) : list ClusterRole :=
  foldl (fun rows r => if ke_stores env (cr_PrincipalID r)
                       then set_role_status (cr_PrincipalID r) key RoleStatusKilled (prior_of prior r) rows
                       else rows) rows registered.

(** A cluster's roles and the registrations of the control database. *)
Record Roles : Type := {
  rs_cat : Catalog;
  rs_rows : list ClusterRole;
}.

(** Step 5 of a kill on cluster [key]; the registrations are read before. *)
Definition disableRoles (env : KillEnv) (k : killScope) (key : string) (s : Roles) : Roles :=
  let registered := registeredRoles env k key (rs_rows s) in
  if negb (disablesRoles k) || negb (ke_reads env) then s else
  let d := foldl (disable_role env (roleOwners k registered))
             {| d_cat := rs_cat s; d_prior := ∅; d_count := 0; d_failed := [] |}
             (readRoleAttrs k (rs_cat s)) in
  {| rs_cat := d_cat d; rs_rows := storeKilled env key registered (d_prior d) (rs_rows s) |}.

(** ** Restoring roles *)

Record RoleConfig : Type := {
  rc_ConnectionLimit : Z;
  rc_BrokerConnectionLimit : Z;
}.

Definition restoreAttrs (rc : RoleConfig) (r : ClusterRole) : PriorAttrs + GuardError :=
  match ParsePriorAttrs (cr_PriorAttrs r) with
  | inr e => inr e
  | inl prior =>
      let get role fallback := default fallback (prior !! role) in
      inl (<[cr_LoginRole r := get (cr_LoginRole r)
               {| ra_Login := false; ra_ConnectionLimit := rc_ConnectionLimit rc |}]>
           (<[cr_BrokerRole r := get (cr_BrokerRole r)
               {| ra_Login := true; ra_ConnectionLimit := rc_BrokerConnectionLimit rc |}]> ∅))
  end.

(** [alterRoles]: one transaction; a role that does not exist fails it. *)
Definition alterRoles (r : ClusterRole) (attrs : PriorAttrs) (cat : Catalog) : option Catalog :=
  match cat !! cr_BrokerRole r, cat !! cr_LoginRole r, attrs !! cr_BrokerRole r, attrs !! cr_LoginRole r with
  | Some _, Some _, Some broker, Some login =>
      Some (<[cr_LoginRole r := login]> (<[cr_BrokerRole r := broker]> cat))
  | _, _, _, _ => None
  end.

(** [guard_unfreeze] on cluster [key] for registration [r]: the roles, then the new
    credential with the status active. *)
Definition restore_roles (rc : RoleConfig) (r : ClusterRole) (s : Roles) : option Roles :=
  match restoreAttrs rc r with
  | inr _ => None
  | inl attrs =>
      match alterRoles r attrs (rs_cat s) with
      | None => None
      | Some cat => Some {| rs_cat := cat;
                            rs_rows := set_role_status (cr_PrincipalID r) (cr_ClusterKey r)
                                         RoleStatusActive None (rs_rows s) |}
      end
  end.

(** ** Sessions and verification *)

(** A row of pg_stat_activity. *)
Record Backend : Type := {
  be_User : string;
  be_Datname : string;
}.

(** [^sage_agentb?_] *)
Definition agentPrefix (name : string) : bool :=
  HasPrefix name "sage_agent_" || HasPrefix name "sage_agentb_".

(** The condition of [terminateSQL] and [countAgentSQL]. *)
Definition session_in_scope (k : killScope) (datname : string) (b : Backend) : bool :=
  (existsb (String.eqb (be_User b)) (roles k) || (anyRole k && agentPrefix (be_User b))) &&
  ((datname =s "") || (be_Datname b =s datname)).

Definition countAgents (k : killScope) (datname : string) (backends : list Backend) : Z :=
  Z.of_nat (length (List.filter (session_in_scope k datname) backends)).

Definition loginsBlocked (k : killScope) (cat : Catalog) : bool :=
  forallb (fun row => killed row.2) (readRoleAttrs k cat).

(** A server as one round of verification sees it; [None]: the read fails. *)
Record Observed : Type := {
  ob_Backends : option (list Backend);
  ob_TerminateFails : bool;
  ob_Roles : option Catalog;
  ob_Alters : string -> bool;
}.

(** [redisable]: whether it changed any role. *)
Definition redisable (k : killScope) (o : Observed) : bool :=
  match ob_Roles o with
  | None => false
  | Some cat => existsb (fun row => negb (killed row.2) && ob_Alters o row.1) (readRoleAttrs k cat)
  end.

(** [checkPrimary]: clean and settled. *)
Definition checkPrimary (k : killScope) (datname : string) (o : Observed) : bool * bool :=
  match ob_Backends o with
  | None => (false, false)
  | Some backends =>
      let none := countAgents k datname backends =? 0 in
      let clean := none in
      let settled := none || ob_TerminateFails o in
      if negb (disablesRoles k) then (clean, settled) else
      match ob_Roles o with
      | None => (false, false)
      | Some cat =>
          if loginsBlocked k cat then (clean, settled)
          else (false, settled && negb (redisable k o))
      end
  end.

(** A configured replica of a database: whether a connection is open, and the errors of its report. *)
Record ReplicaRun : Type := {
  rr_Target : string;
  rr_Conn : bool;
  rr_Failed : bool;
  rr_Verified : bool;
}.

(** [replicaRun.check]: the replica and whether it is verified. *)
Definition check_replica (k : killScope) (datname : string) (o : Observed) (r : ReplicaRun)
    : ReplicaRun * bool :=
  let failed := {| rr_Target := rr_Target r; rr_Conn := rr_Conn r; rr_Failed := true; rr_Verified := rr_Verified r |} in
  if negb (rr_Conn r) then (r, false) else
  match ob_Backends o with
  | None => (failed, false)
  | Some backends =>
      if 0 <? countAgents k datname backends then
        (if ob_TerminateFails o then failed else r, false)
      else
        let verdict blocked :=
          let v := blocked && negb (rr_Failed r) in
          ({| rr_Target := rr_Target r; rr_Conn := rr_Conn r; rr_Failed := rr_Failed r; rr_Verified := v |}, v) in
        if negb (disablesRoles k) then verdict true else
        match ob_Roles o with
        | None => (failed, false)
        | Some cat => verdict (loginsBlocked k cat)
        end
  end.

(** The replicas of a run in turn; what each sees is paired with it. *)
Fixpoint check_replicas (k : killScope) (datname : string) (rs : list (ReplicaRun * Observed))
    (clean settled : bool) : list ReplicaRun * (bool * bool) :=
  match rs with
  | [] => ([], (clean, settled))
  | (r, o) :: rs' =>
      let '(r', ok) := check_replica k datname o r in
      let '(done, v) := check_replicas k datname rs'
        (if ok then clean else false)
        (if ok then settled else if rr_Conn r' then false else settled) in
      (r' :: done, v)
  end.

(** [clusterRun.check]; [seen] pairs the primary's observation with the replicas'. *)
Definition check (k : killScope) (datname : string) (seen : Observed * list Observed)
    (replicas : list ReplicaRun) : list ReplicaRun * (bool * bool) :=
  let '(clean, settled) := checkPrimary k datname seen.1 in
  check_replicas k datname (zip replicas seen.2) clean settled.

(** [verify] on one cluster: [rounds] is what each poll sees and when it ends; the
    last poll's replicas and verdict, [None] when more polls are needed. *)
Fixpoint verify (k : killScope) (datname : string) (deadline : Time)
    (rounds : list ((Observed * list Observed) * Time)) (replicas : list ReplicaRun)
    : option (list ReplicaRun * bool) :=
  match rounds with
  | [] => None
  | (seen, now) :: rounds' =>
      let '(replicas', (clean, settled)) := check k datname seen replicas in
      if settled || (deadline <=? now) then Some (replicas', clean)
      else verify k datname deadline rounds' replicas'
  end.

(** [finish]: whether the report calls database [name] verified. *)
Definition finish (name : string) (failed : bool) (outcome : list ReplicaRun * bool) : bool :=
  outcome.2 && negb failed &&
  forallb (fun r => negb (rr_Target r =s name) || rr_Verified r) outcome.1.
