(* ===== verification/GuardRestore.v ===== *)
(** * A kill takes the roles away, an unfreeze gives them back

    Whatever kills run on a cluster, complete or not, what the first recorded of a
    registered pair of roles is what the unfreeze restores; and a database the kill
    reports as verified had no agent session left and no agent role that can log
    in. *)

From S2P Require Import Prelude.
From S2P Require Import GoStd.
From S2P Require Import Principal.
From S2P Require Import Guard.
From S2P Require Import GuardRoles.

(** ** Registrations *)

Definition row_is (pid key : string) (r : ClusterRole) : bool :=
  (cr_PrincipalID r =s pid) && (cr_ClusterKey r =s key).

Lemma row_is_spec pid key r : row_is pid key r = true <-> cr_PrincipalID r = pid /\ cr_ClusterKey r = key.
Proof. unfold row_is. by rewrite andb_true_iff, !String.eqb_eq. Qed.

Lemma row_of_some pid key rows r : row_of pid key rows = Some r ->
  r ∈ rows /\ cr_PrincipalID r = pid /\ cr_ClusterKey r = key.
Proof.
  intros [Hin Hr%row_is_spec]%find_some. split; [by apply list_elem_of_In|done].
Qed.

Lemma with_role_status_keys status prior r :
  cr_PrincipalID (with_role_status status prior r) = cr_PrincipalID r /\
  cr_ClusterKey (with_role_status status prior r) = cr_ClusterKey r /\
  cr_LoginRole (with_role_status status prior r) = cr_LoginRole r /\
  cr_BrokerRole (with_role_status status prior r) = cr_BrokerRole r.
Proof. done. Qed.

(** What an update makes of a registration. *)
Lemma row_of_set pid key pid' key' status prior rows :
  row_of pid key (set_role_status pid' key' status prior rows) =
  (fun r => if row_is pid' key' r then with_role_status status prior r else r) <$> row_of pid key rows.
Proof.
  unfold row_of, set_role_status. induction rows as [|r rows IH]; [done|]. cbn [map List.find].
  change ((cr_PrincipalID r =s pid') && (cr_ClusterKey r =s key')) with (row_is pid' key' r).
  destruct (row_is pid' key' r) eqn:E; cbn [with_role_status cr_PrincipalID cr_ClusterKey];
    (destruct ((cr_PrincipalID r =s pid) && (cr_ClusterKey r =s key)); [cbn; by rewrite E|exact IH]).
Qed.

(** ** One principal's registration on one cluster *)

Section Restore.
Context (pid key broker login : string).

(** It is there under its role names. *)
Definition registered_as (rows : list ClusterRole) : Prop :=
  exists r, row_of pid key rows = Some r /\ cr_BrokerRole r = broker /\ cr_LoginRole r = login.

(** It is killed, with the prior attributes [P]. *)
Definition kept (P : PriorAttrs) (rows : list ClusterRole) : Prop :=
  exists r, row_of pid key rows = Some r /\ cr_BrokerRole r = broker /\ cr_LoginRole r = login /\
    cr_Status r = RoleStatusKilled /\ cr_PriorAttrs r = Some P.

Lemma kept_set P pid' key' p rows : kept P rows ->
  (pid' = pid -> p = None \/ p = Some P) ->
  kept P (set_role_status pid' key' RoleStatusKilled p rows).
Proof.
  intros (r & Hr & Hb & Hl & Hs & Hp) Hpid. unfold kept. rewrite row_of_set, Hr. cbn.
  eexists. split; [done|]. destruct (row_is pid' key' r) eqn:E; [|done].
  apply row_is_spec in E as [E _]. apply row_of_some in Hr as (_ & Hr & _).
  split_and!; try done. cbn. destruct Hpid as [-> | ->]; congruence.
Qed.

Lemma set_keeps P p rows : registered_as rows -> p = Some P ->
  kept P (set_role_status pid key RoleStatusKilled p rows).
Proof.
  intros (r & Hr & Hb & Hl) ->. unfold kept. rewrite row_of_set, Hr. cbn.
  assert (E : row_is pid key r = true) by (apply row_is_spec; apply row_of_some in Hr; naive_solver).
  rewrite E. eexists. split; [done|]. done.
Qed.

Lemma registered_set pid' key' status p rows : registered_as rows ->
  registered_as (set_role_status pid' key' status p rows).
Proof.
  intros (r & Hr & Hb & Hl). unfold registered_as. rewrite row_of_set, Hr. cbn. eexists.
  split; [done|]. by destruct (row_is pid' key' r).
Qed.

(** A later kill keeps what is stored. *)
Lemma store_keeps P env registered prior rows : kept P rows ->
  (forall x, x ∈ registered -> cr_PrincipalID x = pid ->
     prior_of prior x = None \/ prior_of prior x = Some P) ->
  kept P (storeKilled env key registered prior rows).
Proof.
  revert rows. induction registered as [|x xs IH]; intros rows Hk Hx; [done|].
  cbn [storeKilled foldl]. apply IH; [|intros y Hy; apply Hx, elem_of_cons; by right].
  destruct (ke_stores env (cr_PrincipalID x)); [|done]. apply kept_set; [done|].
  intros E. apply Hx; [apply elem_of_cons; by left|done].
Qed.

(** The first one stores it. *)
Lemma store_first P env registered prior rows : registered_as rows -> ke_stores env pid = true ->
  (forall x, x ∈ registered -> cr_PrincipalID x = pid -> prior_of prior x = Some P) ->
  (exists x, x ∈ registered /\ cr_PrincipalID x = pid) ->
  kept P (storeKilled env key registered prior rows).
Proof.
  intros Hreg Hst. revert rows Hreg. induction registered as [|x xs IH]; intros rows Hreg Hx (y & Hy & Ey).
  { by apply not_elem_of_nil in Hy. }
  cbn [storeKilled foldl].
  assert (Hxs : forall z, z ∈ xs -> cr_PrincipalID z = pid -> prior_of prior z = Some P)
    by (intros z Hz; apply Hx, elem_of_cons; by right).
  destruct (decide (cr_PrincipalID x = pid)) as [E|E].
  - rewrite E, Hst. apply (store_keeps P env xs); [|intros z Hz Ez; right; by apply Hxs].
    apply set_keeps; [done|]. apply Hx; [apply elem_of_cons; by left|done].
  - apply IH; [|done|].
    + destruct (ke_stores env (cr_PrincipalID x)); [by apply registered_set|done].
    + apply elem_of_cons in Hy as [->|Hy]; [done|eauto].
Qed.

(** ** The attributes a kill reads *)

Definition disabling (env : KillEnv) (owner : gmap string string) (cat : Catalog)
    (rows : list (string * RoleAttrs)) : Disabling :=
  foldl (disable_role env owner) {| d_cat := cat; d_prior := ∅; d_count := 0; d_failed := [] |} rows.

Lemma disable_role_prior env owner d row :
  d_prior (disable_role env owner d row) = note_prior owner row.1 row.2 (d_prior d).
Proof. unfold disable_role. by destruct (killed row.2); [|destruct (ke_alters env row.1)]. Qed.

(** The roles stay; each is as it was or disabled. *)
Lemma disable_role_dom env owner d row n : is_Some (d_cat d !! n) ->
  is_Some (d_cat (disable_role env owner d row) !! n).
Proof.
  intros H. unfold disable_role. destruct (killed row.2); [done|]. destruct (ke_alters env row.1); [|done].
  cbn. destruct (decide (row.1 = n)) as [->|Hn]; [by rewrite lookup_insert_eq|by rewrite lookup_insert_ne].
Qed.

Lemma disabling_dom env owner cat rows n : is_Some (cat !! n) ->
  is_Some (d_cat (disabling env owner cat rows) !! n).
Proof.
  unfold disabling. revert cat. generalize (∅ : gmap string PriorAttrs). generalize 0. generalize (@nil string).
  induction rows as [|row rows IH]; intros fs z m cat H; [done|]. cbn [foldl].
  pose proof (disable_role_dom env owner {| d_cat := cat; d_prior := m; d_count := z; d_failed := fs |} row n H) as Hd.
  destruct (disable_role env owner _ row) as [cat' m' z' fs']. by apply IH.
Qed.
End Restore.

(** ** What the kill notes of one principal *)

Section Noted.
Context (owner : gmap string string) (pid : string).

Definition noted (rows : list (string * RoleAttrs)) (m : gmap string PriorAttrs) : gmap string PriorAttrs :=
  foldl (fun m row => note_prior owner row.1 row.2 m) m rows.

Lemma disabling_prior env cat rows : d_prior (disabling env owner cat rows) = noted rows ∅.
Proof.
  unfold disabling, noted. revert cat. generalize (∅ : gmap string PriorAttrs). generalize 0.
  generalize (@nil string). induction rows as [|row rows IH]; intros fs z m cat; [done|]. cbn [foldl].
  pose proof (disable_role_prior env owner {| d_cat := cat; d_prior := m; d_count := z; d_failed := fs |} row) as Hd.
  destruct (disable_role env owner _ row) as [cat' m' z' fs']. cbn in Hd. rewrite <- Hd. apply IH.
Qed.

(** The attributes noted for [pid]. *)
Definition mine (m : gmap string PriorAttrs) : PriorAttrs := default ∅ (m !! pid).

Lemma note_mine n a m x : mine (note_prior owner n a m) !! x =
  if decide (x = n /\ owner !! n = Some pid /\ killed a = false) then Some a else mine m !! x.
Proof.
  unfold mine, note_prior. destruct (owner !! n) as [q|] eqn:Eo; [|case_decide; naive_solver].
  destruct (killed a) eqn:Ek; [case_decide; naive_solver|].
  destruct (decide (q = pid)) as [->|Hq].
  - rewrite lookup_insert_eq. cbn. case_decide as D.
    + destruct D as (-> & _). by rewrite lookup_insert_eq.
    + rewrite lookup_insert_ne by naive_solver. done.
  - rewrite lookup_insert_ne by done. case_decide; naive_solver.
Qed.

Lemma noted_mine rows m : NoDup (map fst rows) -> (forall n, n ∈ map fst rows -> mine m !! n = None) ->
  forall x a, mine (noted rows m) !! x = Some a <->
    mine m !! x = Some a \/ ((x, a) ∈ rows /\ owner !! x = Some pid /\ killed a = false).
Proof.
  revert m. induction rows as [|[n b] rows IH]; intros m Hnd Hfresh x a.
  { split; [by left|]. intros [H|[[]%not_elem_of_nil _]]. done. }
  change (noted ((n, b) :: rows) m) with (noted rows (note_prior owner n b m)).
  cbn [map fst] in Hnd. apply NoDup_cons in Hnd as [Hn Hnd].
  assert (Hm : mine m !! n = None) by (apply Hfresh; cbn; apply elem_of_cons; by left).
  rewrite IH; [|done|].
  - rewrite note_mine. split.
    + intros [H|(Hin & Ho & Hk)]; [|right; split; [apply elem_of_cons; by right|done]].
      case_decide as D; [|by left]. destruct D as (-> & Ho & Hk). injection H as <-.
      right. split; [apply elem_of_cons; by left|done].
    + intros [H|([[= -> ->]|Hin]%elem_of_cons & Ho & Hk)].
      * left. case_decide as D; [|done]. destruct D as (-> & _). congruence.
      * left. by rewrite decide_True.
      * right. done.
  - intros y Hy. rewrite note_mine, decide_False; [apply Hfresh; cbn; apply elem_of_cons; by right|].
    intros (-> & _). done.
Qed.

Lemma noted_empty rows x a : NoDup (map fst rows) ->
  (mine (noted rows ∅) !! x = Some a <-> (x, a) ∈ rows /\ owner !! x = Some pid /\ killed a = false).
Proof.
  intros Hnd. assert (E : mine ∅ = ∅) by (unfold mine; by rewrite lookup_empty).
  rewrite noted_mine; [|done|by intros; rewrite E, lookup_empty]. rewrite E, lookup_empty. naive_solver.
Qed.

Lemma prior_of_mine rows r x : cr_PrincipalID r = pid -> cr_Status r = RoleStatusActive ->
  is_Some (mine (noted rows ∅) !! x) -> prior_of (noted rows ∅) r = Some (mine (noted rows ∅)).
Proof.
  intros Hr Hs Hx. unfold prior_of. rewrite Hs, Hr. cbn. unfold mine in *.
  destruct (noted rows ∅ !! pid) as [p|]; cbn in *.
  - rewrite bool_decide_false; [done|]. intros ->. by rewrite lookup_empty in Hx; destruct Hx.
  - by rewrite lookup_empty in Hx; destruct Hx.
Qed.
End Noted.

(** ** The roles of a kill *)

Lemma readRoleAttrs_spec k cat n a : (n, a) ∈ readRoleAttrs k cat <-> cat !! n = Some a /\ in_scope k n = true.
Proof. unfold readRoleAttrs. by rewrite elem_of_filter_in, elem_of_map_to_list. Qed.

Lemma nodup_filter_fst {A B} (f : A * B -> bool) (l : list (A * B)) :
  NoDup (map fst l) -> NoDup (map fst (List.filter f l)).
Proof.
  induction l as [|x l IH]; intros Hnd; [done|]. cbn in *. apply NoDup_cons in Hnd as [Hx Hl].
  destruct (f x); [|by apply IH]. cbn. apply NoDup_cons. split; [|by apply IH].
  intros (y & Ey & Hy%elem_of_filter_in)%list_elem_of_fmap. apply Hx. rewrite Ey.
  apply list_elem_of_fmap. exists y. naive_solver.
Qed.

Lemma readRoleAttrs_nodup k cat : NoDup (map fst (readRoleAttrs k cat)).
Proof. apply nodup_filter_fst. apply NoDup_fst_map_to_list. Qed.

Lemma role_names_agent id : IsAgentRoleName (LoginRoleName id) = true /\ IsAgentRoleName (BrokerRoleName id) = true.
Proof.
  unfold IsAgentRoleName, LoginRoleName, BrokerRoleName.
  by rewrite !base32_name_app, !roleSuffix_run, orb_true_r.
Qed.

Lemma login_is_not_broker id other : LoginRoleName id <> BrokerRoleName other.
Proof. unfold LoginRoleName, BrokerRoleName. by intros [=]. Qed.

Lemma in_scope_ids k pid n : pid ∈ k_ids k -> n = BrokerRoleName pid \/ n = LoginRoleName pid ->
  in_scope k n = true.
Proof.
  intros Hin Hn. unfold in_scope. apply orb_true_iff. left. apply existsb_exists. exists n.
  split; [|apply String.eqb_refl]. unfold roles. apply in_flat_map. exists pid.
  split; [by apply list_elem_of_In|]. destruct Hn as [->| ->]; cbn; auto.
Qed.

Lemma in_scope_all k pid n : k_all k = true -> n = BrokerRoleName pid \/ n = LoginRoleName pid ->
  in_scope k n = true.
Proof.
  intros Ha Hn. unfold in_scope. rewrite Ha. apply orb_true_iff. right. cbn.
  destruct (role_names_agent pid). by destruct Hn as [->| ->].
Qed.

(** ** Owners *)

(** Registrations under the names of their principals. *)
Definition canonical (r : ClusterRole) : Prop :=
  cr_BrokerRole r = BrokerRoleName (cr_PrincipalID r) /\ cr_LoginRole r = LoginRoleName (cr_PrincipalID r).

Definition named (pid n : string) : Prop := n = BrokerRoleName pid \/ n = LoginRoleName pid.

Lemma own_named b l pid m n : (b = BrokerRoleName pid /\ l = LoginRoleName pid) ->
  (forall q, m !! n = Some q -> named q n) -> forall q, own b l pid m !! n = Some q -> named q n.
Proof.
  intros [-> ->] Hm q. unfold own. destruct (decide (n = LoginRoleName pid)) as [->|H1].
  { rewrite lookup_insert_eq. intros [= <-]. by right. }
  rewrite lookup_insert_ne by done. destruct (decide (n = BrokerRoleName pid)) as [->|H2].
  { rewrite lookup_insert_eq. intros [= <-]. by left. }
  rewrite lookup_insert_ne by done. apply Hm.
Qed.

Lemma own_some b l pid m n : n = b \/ n = l -> own b l pid m !! n = Some pid.
Proof.
  unfold own. intros H. destruct (decide (n = l)) as [->|Hl]; [apply lookup_insert_eq|].
  rewrite lookup_insert_ne by done. destruct H as [->|]; [apply lookup_insert_eq|done].
Qed.

Lemma own_other b l pid m n : n <> b -> n <> l -> own b l pid m !! n = m !! n.
Proof. intros Hb Hl. unfold own. by rewrite !lookup_insert_ne. Qed.

Lemma scope_owners_named k n q : scope_owners k !! n = Some q -> named q n.
Proof.
  unfold scope_owners. assert (Hm : forall q, (∅ : gmap string string) !! n = Some q -> named q n)
    by (intros q'; by rewrite lookup_empty).
  revert Hm q. generalize (∅ : gmap string string). induction (k_ids k) as [|id ids IH]; intros m Hm q; [apply Hm|].
  cbn [foldl]. apply IH. by apply own_named.
Qed.

Lemma roleOwners_named k registered n q : (forall x, x ∈ registered -> canonical x) ->
  roleOwners k registered !! n = Some q -> named q n.
Proof.
  unfold roleOwners. intros Hc. pose proof (scope_owners_named k n) as Hm. revert Hm q.
  generalize (scope_owners k). induction registered as [|x xs IH]; intros m Hm q; [apply Hm|].
  cbn [foldl]. apply IH; [intros y Hy; apply Hc, elem_of_cons; by right|].
  apply own_named; [apply Hc, elem_of_cons; by left|done].
Qed.

Lemma roleOwners_some k registered pid n :
  (forall x, x ∈ registered -> n = cr_BrokerRole x \/ n = cr_LoginRole x -> cr_PrincipalID x = pid) ->
  (exists x, x ∈ registered /\ (n = cr_BrokerRole x \/ n = cr_LoginRole x)) ->
  roleOwners k registered !! n = Some pid.
Proof.
  unfold roleOwners. intros Hu Hx. assert (H : scope_owners k !! n = Some pid \/
    exists x, x ∈ registered /\ (n = cr_BrokerRole x \/ n = cr_LoginRole x)) by by right.
  clear Hx. revert H. generalize (scope_owners k).
  induction registered as [|x xs IH]; intros m H.
  - by destruct H as [H|(x & []%not_elem_of_nil & _)].
  - cbn [foldl]. apply IH; [intros y Hy; apply Hu, elem_of_cons; by right|].
    destruct (decide (n = cr_BrokerRole x \/ n = cr_LoginRole x)) as [D|D].
    + left. rewrite <- (Hu x) by (try (apply elem_of_cons; by left); done). by apply own_some.
    + destruct H as [H|(y & [->|Hy]%elem_of_cons & Hn)]; [|done|right; eauto].
      left. rewrite own_other; naive_solver.
Qed.

(** ** A cluster's registrations *)

(** The keys of guard_cluster_roles, and names given by [LoginRoleName] and
    [BrokerRoleName]. *)
Record registrations_ok (rows : list ClusterRole) : Prop := {
  ro_key : forall r r', r ∈ rows -> r' ∈ rows -> cr_PrincipalID r = cr_PrincipalID r' ->
    cr_ClusterKey r = cr_ClusterKey r' -> r = r';
  ro_canonical : forall r, r ∈ rows -> canonical r;
  ro_unique : forall r r', r ∈ rows -> r' ∈ rows -> cr_ClusterKey r = cr_ClusterKey r' ->
    cr_BrokerRole r = cr_BrokerRole r' \/ cr_LoginRole r = cr_LoginRole r' ->
    cr_PrincipalID r = cr_PrincipalID r';
}.

Lemma registrations_set pid key status p rows : registrations_ok rows ->
  registrations_ok (set_role_status pid key status p rows).
Proof.
  intros [H1 H2 H3]. unfold set_role_status.
  set (f := fun r => if (cr_PrincipalID r =s pid) && (cr_ClusterKey r =s key)
                     then with_role_status status p r else r).
  assert (Hf : forall x, cr_PrincipalID (f x) = cr_PrincipalID x /\ cr_ClusterKey (f x) = cr_ClusterKey x /\
    cr_BrokerRole (f x) = cr_BrokerRole x /\ cr_LoginRole (f x) = cr_LoginRole x)
    by (intros x; unfold f; by destruct (_ && _)).
  split.
  - intros r r' (x & -> & Hx)%list_elem_of_fmap (y & -> & Hy)%list_elem_of_fmap.
    destruct (Hf x) as (-> & -> & _), (Hf y) as (-> & -> & _). intros Hp Hk. by rewrite (H1 x y).
  - intros r (x & -> & Hx)%list_elem_of_fmap. unfold canonical. destruct (Hf x) as (-> & _ & -> & ->).
    by apply H2.
  - intros r r' (x & -> & Hx)%list_elem_of_fmap (y & -> & Hy)%list_elem_of_fmap.
    destruct (Hf x) as (-> & -> & -> & ->), (Hf y) as (-> & -> & -> & ->). by apply H3.
Qed.

Lemma registrations_store env key registered prior rows : registrations_ok rows ->
  registrations_ok (storeKilled env key registered prior rows).
Proof.
  revert rows. induction registered as [|x xs IH]; intros rows H; [done|].
  cbn [storeKilled foldl]. apply IH. destruct (ke_stores _ _); [by apply registrations_set|done].
Qed.

Lemma registrations_kill env k key s : registrations_ok (rs_rows s) ->
  registrations_ok (rs_rows (disableRoles env k key s)).
Proof. intros H. unfold disableRoles. destruct (_ || _); [done|]. by apply registrations_store. Qed.

Lemma registered_in env k key rows x : x ∈ registeredRoles env k key rows ->
  x ∈ rows /\ cr_ClusterKey x = key.
Proof.
  unfold registeredRoles. destruct (_ || _); [by intros []%not_elem_of_nil|]. destruct (k_all k).
  - intros [Hin Hk%String.eqb_eq]%elem_of_filter_in. done.
  - intros (id & Hid & Hx)%list_elem_of_In%in_flat_map. destruct (row_of id key rows) as [y|] eqn:E; [|done].
    destruct Hx as [->|[]]. by apply row_of_some in E as (? & _ & ?).
Qed.

Definition covers (k : killScope) (pid : string) : Prop :=
  disablesRoles k = true /\ (k_all k = true \/ pid ∈ k_ids k).

Lemma registered_has env k key rows pid r : ke_control env = true -> covers k pid ->
  row_of pid key rows = Some r -> r ∈ registeredRoles env k key rows.
Proof.
  intros Hc [Hd Hk] Hr. unfold registeredRoles. rewrite Hd, Hc. cbn.
  apply row_of_some in Hr as Hr'. destruct Hr' as (Hin & Hp & Hkey).
  destruct (k_all k) eqn:Ea.
  - apply elem_of_filter_in. by rewrite Hkey, String.eqb_refl.
  - destruct Hk as [|Hk]; [done|]. apply list_elem_of_In, in_flat_map. exists pid.
    split; [by apply list_elem_of_In|]. rewrite Hr. by left.
Qed.

(** ** The first kill, later kills, the unfreeze *)

Section Kills.
Context (pid key : string).

(** The stored attributes are usable, and have the two roles as they were. *)
Definition saved (broker login : RoleAttrs) (P : PriorAttrs) : Prop :=
  P !! BrokerRoleName pid = Some broker /\ P !! LoginRoleName pid = Some login /\
  ParsePriorAttrs (Some P) = inl P.

Lemma owner_of env k rows r n : registrations_ok rows -> ke_control env = true -> covers k pid ->
  row_of pid key rows = Some r -> named pid n ->
  roleOwners k (registeredRoles env k key rows) !! n = Some pid.
Proof.
  intros Hok Hc Hk Hr Hn. apply row_of_some in Hr as Hr'. destruct Hr' as (Hin & Hp & Hkey).
  destruct (ro_canonical _ Hok r Hin) as [Hb Hl]. rewrite Hp in Hb, Hl.
  apply roleOwners_some.
  - intros x [Hx Hxk]%registered_in Hxn. rewrite <- Hp. symmetry.
    apply (ro_unique _ Hok); [done..|congruence|]. destruct (ro_canonical _ Hok x Hx) as [Hxb Hxl].
    unfold named in Hn. pose proof (login_is_not_broker pid (cr_PrincipalID x)).
    pose proof (login_is_not_broker (cr_PrincipalID x) pid). naive_solver congruence.
  - exists r. split; [by apply (registered_has _ _ _ _ pid)|]. unfold named in Hn. naive_solver congruence.
Qed.

Lemma saved_usable (P : PriorAttrs) :
  (forall n a, P !! n = Some a -> named pid n /\ -1 <= ra_ConnectionLimit a) -> ParsePriorAttrs (Some P) = inl P.
Proof.
  intros H. unfold ParsePriorAttrs. cbn. rewrite (proj2 (forallb_forall _ _)); [done|].
  intros [n a] Hna%list_elem_of_In%elem_of_map_to_list. apply H in Hna as [Hn Ha]. cbn.
  destruct (role_names_agent pid) as [Hl Hb].
  assert (E : IsAgentRoleName n = true) by by destruct Hn as [->| ->]. rewrite E. lia.
Qed.

Lemma first_kill env k s r broker login :
  registrations_ok (rs_rows s) -> row_of pid key (rs_rows s) = Some r -> cr_Status r = RoleStatusActive ->
  rs_cat s !! BrokerRoleName pid = Some broker -> rs_cat s !! LoginRoleName pid = Some login ->
  killed broker = false -> killed login = false ->
  (forall n a, rs_cat s !! n = Some a -> -1 <= ra_ConnectionLimit a) ->
  covers k pid -> ke_reads env = true -> ke_control env = true -> ke_stores env pid = true ->
  exists P, saved broker login P /\
    kept pid key (BrokerRoleName pid) (LoginRoleName pid) P (rs_rows (disableRoles env k key s)).
Proof.
  intros Hok Hr Hs Hb Hl Hkb Hkl Hlim Hk He1 He2 He3.
  unfold disableRoles. rewrite (proj1 Hk), He1. cbn.
  set (registered := registeredRoles env k key (rs_rows s)). set (owner := roleOwners k registered).
  fold (disabling env owner (rs_cat s) (readRoleAttrs k (rs_cat s))). rewrite disabling_prior.
  set (rows := readRoleAttrs k (rs_cat s)). exists (mine pid (noted owner rows ∅)).
  assert (Hsc : forall n, named pid n -> in_scope k n = true).
  { intros n Hn. destruct (proj2 Hk); [by eapply in_scope_all|by eapply in_scope_ids]. }
  assert (Hnd : NoDup (map fst rows)) by apply readRoleAttrs_nodup.
  assert (Hmine : forall n a, rs_cat s !! n = Some a -> killed a = false -> named pid n ->
    mine pid (noted owner rows ∅) !! n = Some a).
  { intros n a Hn Ha Hnn. apply noted_empty; [done|]. split; [apply readRoleAttrs_spec; auto|].
    split; [|done]. by eapply owner_of. }
  assert (Hmb := Hmine _ _ Hb Hkb (or_introl eq_refl)). assert (Hml := Hmine _ _ Hl Hkl (or_intror eq_refl)).
  apply row_of_some in Hr as Hr'. destruct Hr' as (Hin & Hp & Hkey).
  destruct (ro_canonical _ Hok r Hin) as [Hrb Hrl].
  split.
  - split_and!; [done..|]. apply saved_usable. intros n a (Hna & Ho & _)%noted_empty; [|done].
    apply readRoleAttrs_spec in Hna as [Hna _]. split; [|by eapply Hlim].
    eapply roleOwners_named; [|exact Ho]. intros x [Hx _]%registered_in. by apply (ro_canonical _ Hok).
  - apply store_first; [|done| |exists r; split; [by apply (registered_has _ _ _ _ pid)|done]].
    + exists r. by rewrite Hrb, Hrl, Hp.
    + intros x Hx Ex. apply registered_in in Hx as [Hx Hxk].
      assert (x = r) as -> by (apply (ro_key _ Hok); [done..| |]; congruence).
      eapply prior_of_mine; [done..|]. by eexists.
Qed.

Lemma later_kill env k s P : registrations_ok (rs_rows s) ->
  kept pid key (BrokerRoleName pid) (LoginRoleName pid) P (rs_rows s) ->
  kept pid key (BrokerRoleName pid) (LoginRoleName pid) P (rs_rows (disableRoles env k key s)).
Proof.
  intros Hok Hk. unfold disableRoles. destruct (_ || _); [done|]. cbn. apply store_keeps; [done|].
  intros x [Hx Hxk]%registered_in Ex. left. destruct Hk as (r & Hr & _ & _ & Hs & _).
  apply row_of_some in Hr as (Hin & Hp & Hkey).
  assert (x = r) as -> by (apply (ro_key _ Hok); [done..| |]; congruence).
  unfold prior_of. by rewrite Hs.
Qed.

(** The roles are still there. *)
Lemma kill_dom env k s n : is_Some (rs_cat s !! n) -> is_Some (rs_cat (disableRoles env k key s) !! n).
Proof. intros H. unfold disableRoles. destruct (_ || _); [done|]. cbn. by apply disabling_dom. Qed.

Definition kills (l : list (KillEnv * killScope)) (s : Roles) : Roles :=
  foldl (fun s e => disableRoles e.1 e.2 key s) s l.

Lemma later_kills l s P : registrations_ok (rs_rows s) ->
  kept pid key (BrokerRoleName pid) (LoginRoleName pid) P (rs_rows s) ->
  is_Some (rs_cat s !! BrokerRoleName pid) -> is_Some (rs_cat s !! LoginRoleName pid) ->
  kept pid key (BrokerRoleName pid) (LoginRoleName pid) P (rs_rows (kills l s)) /\
  is_Some (rs_cat (kills l s) !! BrokerRoleName pid) /\ is_Some (rs_cat (kills l s) !! LoginRoleName pid).
Proof.
  revert s. induction l as [|[env k] l IH]; intros s Hok Hk Hb Hl; [done|]. cbn [kills foldl].
  apply IH; [by apply registrations_kill|by apply later_kill|by apply kill_dom..].
Qed.
End Kills.

(** C14: when a first kill or freeze that covers a principal read its roles, reached the
    control database and stored what it read, then however many follow it on the
    cluster, complete or not, the unfreeze gives the two roles exactly the attributes
    they had before the first, unless those already were NOLOGIN CONNECTION LIMIT 0. *)
Theorem unfreeze_restores_roles pid key rc s r broker login env k later :
  registrations_ok (rs_rows s) -> row_of pid key (rs_rows s) = Some r -> cr_Status r = RoleStatusActive ->
  rs_cat s !! BrokerRoleName pid = Some broker -> rs_cat s !! LoginRoleName pid = Some login ->
  killed broker = false -> killed login = false ->
  (forall n a, rs_cat s !! n = Some a -> -1 <= ra_ConnectionLimit a) ->
  covers k pid -> ke_reads env = true -> ke_control env = true -> ke_stores env pid = true ->
  exists r' s', row_of pid key (rs_rows (kills key ((env, k) :: later) s)) = Some r' /\
    restore_roles rc r' (kills key ((env, k) :: later) s) = Some s' /\
    rs_cat s' !! BrokerRoleName pid = Some broker /\ rs_cat s' !! LoginRoleName pid = Some login /\
    cr_Status <$> row_of pid key (rs_rows s') = Some RoleStatusActive.
Proof.
  intros Hok Hr Hs Hb Hl Hkb Hkl Hlim Hk He1 He2 He3.
  destruct (first_kill pid key env k s r broker login) as (P & (Pb & Pl & Hparse) & Hkept); try done.
  destruct (later_kills pid key later (disableRoles env k key s) P) as ((r' & Hr' & Hrb & Hrl & Hrs & Hrp) & [b Hb'] & [l Hl']);
    [by apply registrations_kill|done|by apply kill_dom..|].
  change (kills key later (disableRoles env k key s)) with (kills key ((env, k) :: later) s) in *.
  assert (Hne : LoginRoleName pid <> BrokerRoleName pid) by apply login_is_not_broker.
  generalize dependent (kills key ((env, k) :: later) s). intros s1 Hr' Hb' Hl'.
  apply row_of_some in Hr' as Hk'. destruct Hk' as (_ & Hp' & Hk').
  exists r', {| rs_cat := <[LoginRoleName pid := login]> (<[BrokerRoleName pid := broker]> (rs_cat s1));
                rs_rows := set_role_status pid key RoleStatusActive None (rs_rows s1) |}.
  split; [done|]. cbn [rs_cat rs_rows]. split_and!.
  - unfold restore_roles, restoreAttrs. rewrite Hrp, Hparse, Hrb, Hrl, Pb, Pl. unfold alterRoles.
    rewrite Hrb, Hrl, Hb', Hl', lookup_insert_eq, lookup_insert_ne, lookup_insert_eq by done.
    by rewrite Hp', Hk'.
  - by rewrite lookup_insert_ne, lookup_insert_eq.
  - by rewrite lookup_insert_eq.
  - rewrite row_of_set, Hr'. cbn. by rewrite (proj2 (row_is_spec pid key r')).
Qed.

(** ** A concrete cluster *)

Definition agent : string := "agp_aaaaaaaaaaaaaaaaaaaa".

Definition agent_row : ClusterRole :=
  {| cr_PrincipalID := agent; cr_ClusterKey := "main"; cr_LoginRole := LoginRoleName agent;
     cr_BrokerRole := BrokerRoleName agent; cr_PriorAttrs := None; cr_Status := RoleStatusActive |}.

Definition agent_roles : Roles :=
  {| rs_cat := <[BrokerRoleName agent := {| ra_Login := true; ra_ConnectionLimit := 2 |}]>
                 (<[LoginRoleName agent := {| ra_Login := false; ra_ConnectionLimit := 5 |}]> ∅);
     rs_rows := [agent_row] |}.

Definition fleet_kill : killScope :=
  {| k_actionType := "guard_kill"; k_scope := KillScopeAll; k_all := true; k_ids := [];
     k_database := ""; k_reason := "leak"; k_actor := "ann"; k_killID := 1 |}.

Definition all_works : KillEnv :=
  {| ke_reads := true; ke_alters := fun _ => true; ke_control := true; ke_stores := fun _ => true |}.

(** A role could not be altered the first time. *)
Definition locked_role : KillEnv :=
  {| ke_reads := true; ke_alters := fun _ => false; ke_control := true; ke_stores := fun _ => true |}.

Lemma agent_registrations : registrations_ok [agent_row].
Proof.
  split; intros r; [intros r'| |intros r']; rewrite ?list_elem_of_singleton; [by intros -> ->|by intros ->|by intros -> ->].
Qed.

Lemma agent_limits n a : rs_cat agent_roles !! n = Some a -> -1 <= ra_ConnectionLimit a.
Proof.
  cbn. intros [[<- <-]|[Hn H]]%lookup_insert_Some; [cbn; lia|].
  apply lookup_insert_Some in H as [[<- <-]|[_ H]]; [cbn; lia|by rewrite lookup_empty in H].
Qed.

Lemma unfreeze_restores_roles_witness : exists r' s',
  row_of agent "main" (rs_rows (kills "main" [(locked_role, fleet_kill); (all_works, fleet_kill)] agent_roles)) = Some r' /\
  restore_roles {| rc_ConnectionLimit := 9; rc_BrokerConnectionLimit := 9 |} r'
    (kills "main" [(locked_role, fleet_kill); (all_works, fleet_kill)] agent_roles) = Some s' /\
  rs_cat s' !! BrokerRoleName agent = Some {| ra_Login := true; ra_ConnectionLimit := 2 |} /\
  rs_cat s' !! LoginRoleName agent = Some {| ra_Login := false; ra_ConnectionLimit := 5 |} /\
  cr_Status <$> row_of agent "main" (rs_rows s') = Some RoleStatusActive.
Proof.
  apply (unfreeze_restores_roles agent "main" _ agent_roles agent_row _ _ locked_role fleet_kill [(all_works, fleet_kill)]);
    try reflexivity.
  - apply agent_registrations.
  - apply agent_limits.
  - split; [reflexivity|by left].
Defined.

(** A first kill that took the roles away and could not store what they were: the
    next one finds nothing to store, and the unfreeze falls back to the defaults. *)
Definition control_down : KillEnv :=
  {| ke_reads := true; ke_alters := fun _ => true; ke_control := false; ke_stores := fun _ => false |}.

Lemma unstored_attributes_lost :
  let s := kills "main" [(control_down, fleet_kill); (all_works, fleet_kill)] agent_roles in
  match row_of agent "main" (rs_rows s) with
  | Some r => (fun s' => (rs_cat s' !! BrokerRoleName agent, rs_cat s' !! LoginRoleName agent)) <$>
              restore_roles {| rc_ConnectionLimit := 9; rc_BrokerConnectionLimit := 9 |} r s
  | None => None
  end = Some (Some {| ra_Login := true; ra_ConnectionLimit := 9 |}, Some {| ra_Login := false; ra_ConnectionLimit := 9 |}).
Proof. vm_compute. reflexivity. Qed.

(** ** What a verified report says *)

(** What a kill covers: roles of its principals, or of every agent when it kills all;
    sessions under those, and under any agent's role when it kills all or a database,
    in the database it names, if any. *)
Definition covered_role (k : killScope) (n : string) : Prop :=
  (exists id, id ∈ k_ids k /\ named id n) \/ (k_all k = true /\ IsAgentRoleName n = true).

Definition covered_session (k : killScope) (datname : string) (b : Backend) : Prop :=
  ((exists id, id ∈ k_ids k /\ named id (be_User b)) \/
   ((k_all k = true \/ k_scope k = KillScopeDatabase) /\ agentPrefix (be_User b) = true)) /\
  (datname = "" \/ be_Datname b = datname).

(** No session the kill covers, and, unless it kills a database, no role it covers
    can log in. *)
Definition contained (k : killScope) (datname : string) (o : Observed) : Prop :=
  (exists bs, ob_Backends o = Some bs /\ forall b, b ∈ bs -> ~ covered_session k datname b) /\
  (k_scope k <> KillScopeDatabase -> exists cat, ob_Roles o = Some cat /\
     forall n a, cat !! n = Some a -> covered_role k n -> ra_Login a = false /\ ra_ConnectionLimit a = 0).

Lemma roles_spec k n : existsb (String.eqb n) (roles k) = true <-> exists id, id ∈ k_ids k /\ named id n.
Proof.
  unfold roles. rewrite existsb_exists. split.
  - intros (x & (id & Hid & Hx)%in_flat_map & ->%String.eqb_eq). exists id.
    split; [by apply list_elem_of_In|]. destruct Hx as [<-|[<-|[]]]; [by left|by right].
  - intros (id & Hid & Hn). exists n. split; [|apply String.eqb_refl]. apply in_flat_map. exists id.
    split; [by apply list_elem_of_In|]. destruct Hn as [->| ->]; cbn; auto.
Qed.

Lemma in_scope_covers k n : in_scope k n = true <-> covered_role k n.
Proof. unfold in_scope, covered_role. by rewrite orb_true_iff, roles_spec, andb_true_iff. Qed.

Lemma session_covers k datname b : session_in_scope k datname b = true <-> covered_session k datname b.
Proof.
  unfold session_in_scope, covered_session, anyRole.
  by rewrite andb_true_iff, !orb_true_iff, andb_true_iff, roles_spec, orb_true_iff, !String.eqb_eq.
Qed.

Lemma disables_spec k : disablesRoles k = true <-> k_scope k <> KillScopeDatabase.
Proof. unfold disablesRoles. by rewrite negb_true_iff, String.eqb_neq. Qed.

Lemma killed_is_disabled a : killed a = true -> ra_Login a = false /\ ra_ConnectionLimit a = 0.
Proof. unfold killed. by intros [Hl%negb_true_iff Hn%Z.eqb_eq]%andb_prop. Qed.

Lemma countAgents_none k datname bs : countAgents k datname bs = 0 ->
  forall b, b ∈ bs -> ~ covered_session k datname b.
Proof.
  unfold countAgents. intros H b Hb E%session_covers.
  assert (Hin : b ∈ List.filter (session_in_scope k datname) bs) by by apply elem_of_filter_in.
  destruct (List.filter _ bs); [by apply not_elem_of_nil in Hin|cbn in H; lia].
Qed.

Lemma loginsBlocked_spec k cat : loginsBlocked k cat = true ->
  forall n a, cat !! n = Some a -> covered_role k n -> ra_Login a = false /\ ra_ConnectionLimit a = 0.
Proof.
  intros H n a Hn Hk%in_scope_covers. apply killed_is_disabled. unfold loginsBlocked in H. rewrite forallb_forall in H.
  apply (H (n, a)), list_elem_of_In, readRoleAttrs_spec. done.
Qed.

Lemma checkPrimary_clean k datname o settled : checkPrimary k datname o = (true, settled) ->
  contained k datname o.
Proof.
  unfold checkPrimary. destruct (ob_Backends o) as [bs|] eqn:Eb; [|done].
  destruct (disablesRoles k) eqn:Ed; cbn.
  - destruct (ob_Roles o) as [cat|] eqn:Er; [|done]. destruct (loginsBlocked k cat) eqn:El; [|done].
    intros [= Hc%Z.eqb_eq _]. split; [eauto using countAgents_none|]. intros _. eauto using loginsBlocked_spec.
  - intros [= Hc%Z.eqb_eq _]. split; [eauto using countAgents_none|]. intros Hk%disables_spec. congruence.
Qed.

Lemma check_replica_ok k datname o r r' : check_replica k datname o r = (r', true) -> contained k datname o.
Proof.
  unfold check_replica. destruct (rr_Conn r); [|done]. cbn. destruct (ob_Backends o) as [bs|] eqn:Eb; [|done].
  destruct (0 <? countAgents k datname bs) eqn:Ec; [done|]. apply Z.ltb_ge in Ec.
  assert (Hc : countAgents k datname bs = 0) by (unfold countAgents in *; lia).
  destruct (disablesRoles k) eqn:Ed; cbn.
  - destruct (ob_Roles o) as [cat|] eqn:Er; [|done]. intros [= _ [Hl _]%andb_prop].
    split; [eauto using countAgents_none|]. intros _. eauto using loginsBlocked_spec.
  - intros _. split; [eauto using countAgents_none|]. intros Hk%disables_spec. congruence.
Qed.

Lemma check_replicas_clean k datname rs clean settled out settled' :
  check_replicas k datname rs clean settled = (out, (true, settled')) ->
  clean = true /\ length out = length rs /\ forall r o, (r, o) ∈ rs -> contained k datname o.
Proof.
  revert clean settled out. induction rs as [|[r o] rs IH]; intros clean settled out; cbn.
  - intros [= <- -> _]. split_and!; [done..|]. by intros r o []%not_elem_of_nil.
  - destruct (check_replica k datname o r) as [r' ok] eqn:Er.
    destruct (check_replicas k datname rs _ _) as [done v] eqn:E. intros [= <- ->].
    destruct (IH _ _ _ E) as (Hc & Hlen & Hin). destruct ok; [|done]. split_and!; [done|cbn; by f_equal|].
    intros x y [[= -> ->]|Hxy]%elem_of_cons; [by eapply check_replica_ok|by eapply Hin].
Qed.

Lemma check_replicas_length k datname rs clean settled :
  length (check_replicas k datname rs clean settled).1 = length rs.
Proof.
  revert clean settled. induction rs as [|[r o] rs IH]; intros clean settled; cbn; [done|].
  destruct (check_replica k datname o r) as [r' ok].
  specialize (IH (if ok then clean else false) (if ok then settled else if rr_Conn r' then false else settled)).
  destruct (check_replicas k datname rs _ _) as [out v]. cbn in *. by rewrite IH.
Qed.

Lemma zip_snd {A B} (l : list A) (k : list B) y : length l = length k -> y ∈ k -> exists x, (x, y) ∈ zip l k.
Proof.
  intros Hlen [i Hi]%list_elem_of_lookup. destruct (lookup_lt_is_Some_2 l i) as [x Hx].
  { rewrite Hlen. by apply lookup_lt_Some in Hi. }
  exists x. apply list_elem_of_lookup. exists i. rewrite lookup_zip_with, Hx, Hi. done.
Qed.

(** C15: a database the kill reports as verified was seen, in one round of checks,
    without any session the kill covers and, unless the kill is of a database, with
    every role it covers NOLOGIN CONNECTION LIMIT 0, on the primary and on every
    configured replica. *)
Theorem verified_is_contained k datname deadline rounds replicas out name failed :
  (forall seen now, (seen, now) ∈ rounds -> length seen.2 = length replicas) ->
  verify k datname deadline rounds replicas = Some out -> finish name failed out = true ->
  exists seen now, (seen, now) ∈ rounds /\ contained k datname seen.1 /\
    forall o, o ∈ seen.2 -> contained k datname o.
Proof.
  revert replicas. induction rounds as [|[seen now] rounds IH]; intros replicas Hlen Hv Hf; [done|].
  cbn in Hv. unfold check in Hv. assert (Hl := Hlen seen now ltac:(apply elem_of_cons; by left)).
  destruct (checkPrimary k datname seen.1) as [clean settled] eqn:Ep.
  pose proof (check_replicas_length k datname (zip replicas seen.2) clean settled) as Hz.
  destruct (check_replicas k datname (zip replicas seen.2) clean settled) as [rs [c st]] eqn:Er.
  cbn in Hz. rewrite length_zip_with, Hl, Nat.min_id in Hz.
  destruct (st || (deadline <=? now)).
  - injection Hv as <-. unfold finish in Hf. cbn in Hf. apply andb_prop in Hf as [[-> _]%andb_prop _].
    apply check_replicas_clean in Er as (-> & _ & Hin). exists seen, now.
    split_and!; [apply elem_of_cons; by left|by eapply checkPrimary_clean|].
    intros o Ho. destruct (zip_snd replicas seen.2 o) as [r Hr]; [done|done|]. by eapply Hin.
  - destruct (IH rs) as (seen' & now' & Hin & Hc); [|done|done|].
    + intros s' n' Hin. rewrite Hz, <- Hl. rewrite (Hlen s' n'); [done|]. apply elem_of_cons. by right.
    + exists seen', now'. split; [apply elem_of_cons; by right|done].
Qed.

(** The checks end when their time is over. *)
Lemma verify_ends k datname deadline rounds replicas :
  (exists r, r ∈ rounds /\ deadline <= r.2) -> is_Some (verify k datname deadline rounds replicas).
Proof.
  revert replicas. induction rounds as [|[seen now] rounds IH]; intros replicas (r & Hr & Hd).
  { by apply not_elem_of_nil in Hr. }
  cbn. destruct (check k datname seen replicas) as [rs [c st]].
  destruct (st || (deadline <=? now)) eqn:E; [by eexists|]. apply orb_false_iff in E as [_ E%Z.leb_gt].
  apply IH. exists r. apply elem_of_cons in Hr as [->|Hr]; [cbn in Hd; lia|done].
Qed.

(** ** A verified kill *)

Definition busy_server : Observed :=
  {| ob_Backends := Some [{| be_User := BrokerRoleName agent; be_Datname := "orders" |}];
     ob_TerminateFails := false; ob_Roles := Some (rs_cat agent_roles); ob_Alters := fun _ => true |}.

Definition quiet_server : Observed :=
  {| ob_Backends := Some [{| be_User := "app"; be_Datname := "orders" |}];
     ob_TerminateFails := false; ob_Roles := Some (<[BrokerRoleName agent := disabled]>
       (<[LoginRoleName agent := disabled]> ∅)); ob_Alters := fun _ => true |}.

Definition two_rounds : list ((Observed * list Observed) * Time) :=
  [((busy_server, [quiet_server]), 1); ((quiet_server, [quiet_server]), 2)].

Definition one_replica : list ReplicaRun :=
  [{| rr_Target := "orders"; rr_Conn := true; rr_Failed := false; rr_Verified := false |}].

Lemma verified_is_contained_witness : exists seen now, (seen, now) ∈ two_rounds /\ contained fleet_kill "" seen.1 /\
  forall o, o ∈ seen.2 -> contained fleet_kill "" o.
Proof.
  apply (verified_is_contained fleet_kill "" 100 two_rounds one_replica
    ([{| rr_Target := "orders"; rr_Conn := true; rr_Failed := false; rr_Verified := true |}], true) "orders" false);
    [|vm_compute; reflexivity|reflexivity].
  intros seen now [[= -> ->]|[[= -> ->]|[]%not_elem_of_nil]%elem_of_cons]%elem_of_cons; reflexivity.
Defined.
