(* ===== verification/GuardKill.v ===== *)
(** * Kill, freeze, unfreeze and release

    internal/agentguard: the transactions of kill_control.go, unfreeze.go,
    store_update.go and decide/hold.go on the tables of Guard.v, and the operations
    of kill_switch.go and unfreeze.go as programs of them.  A transaction that waits
    for rows another one holds cannot be carried out until they are free; it may
    time out instead. *)

From S2P Require Import Prelude.
From S2P Require Import GoStd.
From S2P Require Import Principal.
From S2P Require Import Guard.
From S2P Require Import GuardRoles.
From S2P Require Export Interleave.

(** ** Freezing: kill_control.go *)

Record freezeMark : Type := {
  fm_all : bool;
  fm_ids : list string;
  fm_flagScope : string;
  fm_flagTarget : string;
  fm_reason : string;
  fm_actor : string;
  fm_killID : Z;
}.

(** [NULLIF(id, 0)] *)
Definition nullif_zero (id : Z) : option Z := if id =? 0 then None else Some id.

Definition in_mark (m : freezeMark) (p : PrincipalRow) : bool :=
  (gp_Status p <>s StatusRetired) && (fm_all m || existsb (String.eqb (gp_ID p)) (fm_ids m)).

(** The rows [lockPrincipals] selects, as its statement's snapshot has them. *)
Definition scan_principals (m : freezeMark) (g : Guard) : list string :=
  map gp_ID (List.filter (in_mark m) (g_Principals g)).

(** Once they are locked the condition is read again. *)
Definition locked_principals (m : freezeMark) (scanned : list string) (g : Guard) : list string :=
  List.filter (fun id => match get_principal id g with Some p => in_mark m p | None => false end) scanned.

(** [INSERT INTO guard_freezes ... ON CONFLICT (scope, target) WHERE cleared_at IS
    NULL DO UPDATE SET kill_id = COALESCE(kill_id, EXCLUDED.kill_id)] *)
Definition upsert_freeze (m : freezeMark) (started : Time) (scope target : string) (g : Guard) : Guard :=
  let open f := is_open f && of_target scope target f in
  g_take_id (g_set_freezes
    (if existsb open (g_Freezes g)
     then map (fun f => if open f then with_kill (nullif_zero (fm_killID m)) f else f) (g_Freezes g)
     else g_Freezes g ++
       [{| fz_ID := g_Next g; fz_Scope := scope; fz_Target := target;
           fz_KillID := nullif_zero (fm_killID m); fz_Reason := take_chars 2000 (fm_reason m);
           fz_SetBy := fm_actor m; fz_SetAt := started; fz_ClearedAt := None; fz_ClearedBy := "" |}]) g).

Definition ScopePrincipal : string := "principal".

(** Pending requests of what is frozen again are void. *)
Definition supersedes (m : freezeMark) (ids : list string) (r : RequestRow) : bool :=
  (uf_Status r =s Pending) &&
  (((uf_Scope r =s ScopePrincipal) && existsb (String.eqb (uf_Target r)) ids) ||
   ((uf_Scope r =s fm_flagScope m) && (uf_Target r =s fm_flagTarget m))).

Definition writeFreeze (m : freezeMark) (ids : list string) (started : Time) (g : Guard) : Guard :=
  let frozen p := if existsb (String.eqb (gp_ID p)) ids
                  then with_status StatusFrozen (take_chars 2000 (fm_reason m)) (g_Now g) p else p in
  let g := g_set_principals (map frozen (g_Principals g)) g in
  let g := foldl (fun g id => upsert_freeze m started ScopePrincipal id g) g ids in
  let g := if fm_flagScope m <>s "" then upsert_freeze m started (fm_flagScope m) (fm_flagTarget m) g else g in
  g_set_requests (map (fun r => if supersedes m ids r then decide_request Superseded started (uf_ApprovedBy r) (uf_ApprovedByUser r) r else r)
    (g_Requests g)) g.

(** The transaction of [markFrozen] after its scan; it waits for holds. *)
Definition freeze_tx (m : freezeMark) (scanned : list string) (started : Time) (g : Guard)
    : option (list string * Guard) :=
  if existsb (fun id => held id g) scanned then None else
  let ids := locked_principals m scanned g in
  Some (ids, writeFreeze m ids started g).

Definition revoke_tokens (ids : list string) (actor : string) (g : Guard) : Z * Guard :=
  let live t := existsb (String.eqb (tk_Principal t)) ids &&
                match tk_RevokedAt t with None => true | Some _ => false end in
  (Z.of_nat (length (List.filter live (g_Tokens g))),
   g_set_tokens (map (fun t => if live t
     then {| tk_ID := tk_ID t; tk_Principal := tk_Principal t; tk_RevokedAt := Some (g_Now g);
             tk_RevokedBy := take_chars 200 ("kill: " +:+ actor) |}
     else t) (g_Tokens g)) g).

(** A flag of the earliest [set_at]. *)
Fixpoint earliest (l : list FreezeRow) : option FreezeRow :=
  match l with
  | [] => None
  | f :: l' => match earliest l' with
               | Some f' => if fz_SetAt f' <? fz_SetAt f then Some f' else Some f
               | None => Some f
               end
  end.

Definition flagged (database : string) (f : FreezeRow) : bool :=
  is_open f && (of_target "fleet" "" f || of_target "database" database f).

Definition read_frozen (database : string) (g : Guard) : option (string * string) :=
  (fun f => (fz_Scope f, fz_Reason f)) <$> earliest (List.filter (flagged database) (g_Freezes g)).

(** ** Lifting a freeze: unfreeze.go *)

Record openFreeze : Type := {
  of_id : Z;
  of_killed : bool;
  of_scope : string;
  of_target_ : string;
}.

Record signoff : Type := {
  so_freeze : openFreeze;
  so_quorum : Z;
  so_single : bool;
  so_sponsor : option Z;
  so_reason : string;
  so_actor : string;
  so_userID : Z;
}.

Record UnfreezeCluster : Type := {
  uc_ClusterKey : string;
  uc_ActionID : Z;
  uc_Restored : PriorAttrs;
}.

Record UnfreezeResult : Type := {
  ur_Applied : bool;
  ur_Pending : bool;
  ur_RequestID : Z;
  ur_RequestedBy : string;
  ur_Quorum : Z;
  ur_SingleOperator : bool;
  ur_Clusters : list UnfreezeCluster;
}.

Definition signoffFor (cfg : KillConfig) (fr : openFreeze) (sponsor : option Z) (reason actor : string)
    (userID : Z) : signoff :=
  {| so_freeze := fr; so_quorum := if of_killed fr && negb (kc_SingleOperatorMode cfg) then 2 else 1;
     so_single := of_killed fr && kc_SingleOperatorMode cfg; so_sponsor := sponsor;
     so_reason := reason; so_actor := actor; so_userID := userID |}.

Definition lockOpenFreeze (scope target : string) (required : bool) (g : Guard) : openFreeze + GuardError :=
  match List.find (fun f => of_target scope target f && is_open f) (g_Freezes g) with
  | Some f => inl {| of_id := fz_ID f; of_killed := bool_decide (is_Some (fz_KillID f));
                     of_scope := scope; of_target_ := target |}
  | None => if required then inr ErrNotFrozen
            else inl {| of_id := 0; of_killed := false; of_scope := scope; of_target_ := target |}
  end.

(** The pending request of a freeze; one whose time is over is marked expired. *)
Definition pendingRequest (freezeID : Z) (started : Time) (g : Guard) : option RequestRow * Guard :=
  match List.find (fun r => (uf_FreezeID r =? freezeID) && (uf_Status r =s Pending)) (g_Requests g) with
  | None => (None, g)
  | Some p =>
      if uf_ExpiresAt p <=? started then
        (None, g_set_requests (map (fun r => if uf_ID r =? uf_ID p
                 then decide_request Expired started (uf_ApprovedBy r) (uf_ApprovedByUser r) r else r) (g_Requests g)) g)
      else (Some p, g)
  end.

Definition newRequest (cfg : KillConfig) (so : signoff) (started : Time) (g : Guard) : RequestRow * Guard :=
  let row := {| uf_ID := g_Next g; uf_Scope := of_scope (so_freeze so); uf_Target := of_target_ (so_freeze so);
                uf_FreezeID := of_id (so_freeze so); uf_RequestedBy := so_actor so;
                uf_RequestedByUser := so_userID so; uf_Reason := so_reason so; uf_RequestedAt := started;
                uf_ExpiresAt := started + kc_ApprovalTTL cfg; uf_ApprovedBy := "";
                uf_ApprovedByUser := None; uf_DecidedAt := None; uf_Status := Pending |} in
  (row, g_take_id (g_set_requests (g_Requests g ++ [row]) g)).

Definition result_of (so : signoff) (pending : bool) (r : option RequestRow) : UnfreezeResult :=
  {| ur_Applied := false; ur_Pending := pending;
     ur_RequestID := match r with Some p => uf_ID p | None => 0 end;
     ur_RequestedBy := match r with Some p => uf_RequestedBy p | None => "" end;
     ur_Quorum := so_quorum so; ur_SingleOperator := so_single so; ur_Clusters := [] |}.

(** The result, whether the caller proceeds, and the tables. *)
Definition signOff (cfg : KillConfig) (so : signoff) (started : Time) (g : Guard)
    : (UnfreezeResult * bool + GuardError) * Guard :=
  if so_single so && (so_reason so =s "")
  then (inr (ErrInvalid "single-operator mode needs a reason for the review queue"), g)
  else if (so_quorum so =? 1) || (of_id (so_freeze so) =? 0)
  then (inl (result_of so false None, true), g) else
  let '(pend, g) := pendingRequest (of_id (so_freeze so)) started g in
  match pend with
  | None => let '(p, g) := newRequest cfg so started g in (inl (result_of so true (Some p), false), g)
  | Some p =>
      if uf_RequestedByUser p =? so_userID so then (inl (result_of so true (Some p), false), g)
      else if bool_decide (so_sponsor so = Some (so_userID so)) then (inr ErrSponsorCannotApprove, g)
      else (inl (result_of so false (Some p), true), g)
  end.

Definition liftFreeze (so : signoff) (requestID : Z) (started : Time) (g : Guard) : Guard :=
  if of_id (so_freeze so) =? 0 then g else
  let by_ := if so_single so then so_actor so +:+ " (single operator: " +:+ so_reason so +:+ ")"
             else so_actor so in
  let g := g_set_freezes (map (fun f => if fz_ID f =? of_id (so_freeze so)
                                        then cleared started (take_chars 2000 by_) f else f) (g_Freezes g)) g in
  if 0 <? requestID then
    g_set_requests (map (fun r => if uf_ID r =? requestID
      then decide_request Applied started (so_actor so) (Some (so_userID so)) r else r) (g_Requests g)) g
  else g.

(** What the executors of the plan's clusters answer, in order: the action recorded,
    or an error that ends the transaction. *)
Fixpoint run_plan (rc : RoleConfig) (plan : list ClusterRole) (applies : list (Z + error))
    : list UnfreezeCluster + GuardError :=
  match plan with
  | [] => inl []
  | r :: plan' =>
      match restoreAttrs rc r with
      | inr e => inr e
      | inl attrs =>
          match applies with
          | inl id :: applies' =>
              match run_plan rc plan' applies' with
              | inl cs => inl ({| uc_ClusterKey := cr_ClusterKey r; uc_ActionID := id;
                                  uc_Restored := attrs |} :: cs)
              | inr e => inr e
              end
          | inr e :: _ => inr (ApplyFailed e)
          | [] => inr (ApplyFailed "")
          end
      end
  end.

Definition applied (cs : list UnfreezeCluster) (r : UnfreezeResult) : UnfreezeResult :=
  {| ur_Applied := true; ur_Pending := false; ur_RequestID := ur_RequestID r;
     ur_RequestedBy := ur_RequestedBy r; ur_Quorum := ur_Quorum r;
     ur_SingleOperator := ur_SingleOperator r; ur_Clusters := cs |}.

Definition activate_principal (id : string) (started : Time) (g : Guard) : Guard :=
  g_set_principals (map (fun p => if (gp_ID p =s id) && (gp_Status p =s StatusFrozen)
                                  then with_status StatusActive "" started p else p) (g_Principals g)) g.

(** [unfreezeInTx]: [p] as it was read before.  An error rolls everything back. *)
Definition unfreezeInTx (cfg : KillConfig) (rc : RoleConfig) (p : PrincipalRow) (req : UnfreezeRequest)
    (plan : list ClusterRole) (applies : list (Z + error)) (started : Time) (g : Guard)
    : (UnfreezeResult + GuardError) * Guard :=
  match get_principal (gp_ID p) g with
  | None => (inr ErrNotFound, g)
  | Some row =>
      if gp_Status row <>s StatusFrozen then (inr ErrNotFrozen, g) else
      match lockOpenFreeze ScopePrincipal (gp_ID p) false g with
      | inr e => (inr e, g)
      | inl fr =>
          let so := signoffFor cfg fr (gp_Sponsor p) (uq_Reason req) (uq_Actor req) (uq_ActorUserID req) in
          match signOff cfg so started g with
          | (inr e, _) => (inr e, g)
          | (inl (res, false), g') => (inl res, g')
          | (inl (res, true), g') =>
              match run_plan rc plan applies with
              | inr e => (inr e, g)
              | inl cs => (inl (applied cs res),
                           activate_principal (gp_ID p) started (liftFreeze so (ur_RequestID res) started g'))
              end
          end
      end
  end.

Definition release_tx (cfg : KillConfig) (scope target : string) (req : ReleaseRequest) (started : Time)
    (g : Guard) : (UnfreezeResult + GuardError) * Guard :=
  match lockOpenFreeze scope target true g with
  | inr e => (inr e, g)
  | inl fr =>
      let fr := {| of_id := of_id fr; of_killed := true; of_scope := of_scope fr; of_target_ := of_target_ fr |} in
      let so := signoffFor cfg fr None (lq_Reason req) (lq_Actor req) (lq_ActorUserID req) in
      match signOff cfg so started g with
      | (inr e, _) => (inr e, g)
      | (inl (res, false), g') => (inl res, g')
      | (inl (res, true), g') => (inl (applied [] res), liftFreeze so (ur_RequestID res) started g')
      end
  end.

(** ** Statements *)

(** One monitored database a kill reaches. *)
Record KillTarget : Type := {
  kt_Name : string;
  kt_ClusterKey : string;
  kt_Executor : bool;
}.

Record DatabaseReport : Type := {
  dr_Name : string;
  dr_ApprovalsCancelled : Z;
  dr_Verified : bool;
}.

(** The statements of one operation; the last four reach other databases, the
    brokers' memory and the local log. *)
Inductive stmt : Type -> Type :=
| ReadPrincipal (id : string) : stmt (option PrincipalRow)
| StartKill (scope : KillScope) (target reason actor : string) : stmt Z
| FinishKill (id : Z) : stmt unit
| ScanPrincipals (m : freezeMark) : stmt (list string)
| FreezeTx (m : freezeMark) (scanned : list string) : stmt (list string)
| RevokeTokens (ids : list string) (actor : string) : stmt Z
| ReadFrozen (database : string) : stmt (option (string * string))
| ReadRoles (id : string) : stmt (list ClusterRole)
| UnfreezeTx (cfg : KillConfig) (rc : RoleConfig) (p : PrincipalRow) (req : UnfreezeRequest)
    (plan : list ClusterRole) : stmt (UnfreezeResult + GuardError)
| ReleaseTx (cfg : KillConfig) (scope target : string) (req : ReleaseRequest)
    : stmt (UnfreezeResult + GuardError)
| HoldRow (id : string) : stmt (option (Z * Status))
| EndHold (hold : Z) : stmt unit
| SetStatusRow (id : string) (to : Status) (reason : string) : stmt bool
| UpdateSponsor (id : string) (sponsor : option Z) : stmt bool
| RevokeMemory (ids : list string) (all : bool) : stmt unit
| RunClusters (k : killScope) (targets : list KillTarget) : stmt unit
| VerifyClusters : stmt (list DatabaseReport)
| AppendFallback : stmt unit.

Abbreviation prog := (Interleave.prog stmt failure).

(** How a statement goes: when its transaction began, and what other databases
    answer. *)
Record External : Type := {
  x_started : Time;
  x_applies : list (Z + error);
  x_roles : list ClusterRole;
  x_reports : list DatabaseReport;
}.

(** [UPDATE ... WHERE id = $1 AND status <> 'retired' RETURNING id]; it waits for a
    hold. *)
Definition update_principal (id : string) (f : PrincipalRow -> PrincipalRow) (g : Guard)
    : option (bool * Guard) :=
  let hit p := (gp_ID p =s id) && (gp_Status p <>s StatusRetired) in
  if existsb hit (g_Principals g) then
    if held id g then None
    else Some (true, g_set_principals (map (fun p => if hit p then f p else p) (g_Principals g)) g)
  else Some (false, g).

Definition hold_row (id : string) (g : Guard) : option (Z * Status) * Guard :=
  match get_principal id g with
  | None => (None, g)
  | Some p => (Some (g_Next g, gp_Status p),
               g_take_id (g_set_holds (g_Holds g ++
                 [{| ho_ID := g_Next g; ho_Principal := id; ho_Status := gp_Status p |}]) g))
  end.

Definition end_hold (hold : Z) (g : Guard) : Guard :=
  g_set_holds (List.filter (fun h => negb (ho_ID h =? hold)) (g_Holds g)) g.

Definition exec_done (x : External) {X} (st : stmt X) (g : Guard) : option (X * Guard) :=
  match st in stmt X return option (X * Guard) with
  | ReadPrincipal id => Some (get_principal id g, g)
  | StartKill scope target reason actor =>
      Some (g_Next g, g_take_id (g_set_kills (g_Kills g ++
        [{| kl_ID := g_Next g; kl_Scope := scope; kl_Target := target; kl_Reason := reason;
            kl_RequestedBy := actor; kl_StartedAt := g_Now g; kl_FinishedAt := None |}]) g))
  | FinishKill id =>
      Some (tt, g_set_kills (map (fun k => if kl_ID k =? id
        then {| kl_ID := kl_ID k; kl_Scope := kl_Scope k; kl_Target := kl_Target k;
                kl_Reason := kl_Reason k; kl_RequestedBy := kl_RequestedBy k;
                kl_StartedAt := kl_StartedAt k; kl_FinishedAt := Some (g_Now g) |}
        else k) (g_Kills g)) g)
  | ScanPrincipals m => Some (scan_principals m g, g)
  | FreezeTx m scanned =>
      if x_started x <=? g_Now g then freeze_tx m scanned (x_started x) g else None
  | RevokeTokens ids actor => Some (revoke_tokens ids actor g)
  | ReadFrozen database => Some (read_frozen database g, g)
  | ReadRoles id => Some (x_roles x, g)
  | UnfreezeTx cfg rc p req plan =>
      if (x_started x <=? g_Now g) && negb (held (gp_ID p) g)
      then Some (unfreezeInTx cfg rc p req plan (x_applies x) (x_started x) g) else None
  | ReleaseTx cfg scope target req =>
      if x_started x <=? g_Now g then Some (release_tx cfg scope target req (x_started x) g) else None
  | HoldRow id => Some (hold_row id g)
  | EndHold hold => Some (tt, end_hold hold g)
  | SetStatusRow id to reason =>
      update_principal id (with_status to (if to =s StatusFrozen then reason else "") (g_Now g)) g
  | UpdateSponsor id sponsor =>
      update_principal id (fun p => match sponsor with
                                    | Some s => with_sponsor s (g_Now g) p
                                    | None => with_status (gp_Status p) (gp_FrozenReason p) (g_Now g) p
                                    end) g
  | RevokeMemory _ _ => Some (tt, g)
  | RunClusters _ _ => Some (tt, g)
  | VerifyClusters => Some (x_reports x, g)
  | AppendFallback => Some (tt, g)
  end.

(** A statement that fails may have been carried out nevertheless: the answer to a
    commit is lost.  One that timed out on a lock did nothing. *)
Inductive outcome : Type :=
| Done (x : External)
| Fails (applied : bool) (x : External) (f : failure).

Definition exec (o : outcome) {X} (st : stmt X) (g : Guard) : option ((X + failure) * Guard) :=
  match o with
  | Done x => option_map (fun r => (inl r.1, r.2)) (exec_done x st g)
  | Fails applied x f =>
      Some (inr f, match applied, f with
                   | true, OtherFailure _ => match exec_done x st g with Some r => r.2 | None => g end
                   | _, _ => g
                   end)
  end.

(** What happens by itself: time passes, principals and tokens are made, a sponsor's
    user is deleted, a holding session dies. *)
Inductive event : Type :=
| Pass (d : Duration)
| NewPrincipal (id : string) (sponsor : option Z)
| NewToken (id : string)
| SponsorGone (id : string)
| HoldLost (hold : Z).

Definition happens (e : event) (g : Guard) : option Guard :=
  match e with
  | Pass d => if 0 <=? d then Some (g_set_now (g_Now g + d) g) else None
  | NewPrincipal id sponsor =>
      match get_principal id g with
      | Some _ => None
      | None => Some (g_set_principals (g_Principals g ++
          [{| gp_ID := id; gp_Sponsor := sponsor; gp_Status := StatusActive; gp_FrozenReason := "";
              gp_UpdatedAt := g_Now g |}]) g)
      end
  | NewToken id => Some (g_take_id (g_set_tokens (g_Tokens g ++
      [{| tk_ID := g_Next g; tk_Principal := id; tk_RevokedAt := None; tk_RevokedBy := "" |}]) g))
  | SponsorGone id =>
      if held id g then None
      else Some (g_set_principals (map (fun p => if gp_ID p =s id
        then {| gp_ID := gp_ID p; gp_Sponsor := None; gp_Status := gp_Status p;
                gp_FrozenReason := gp_FrozenReason p; gp_UpdatedAt := gp_UpdatedAt p |}
        else p) (g_Principals g)) g)
  | HoldLost hold => Some (end_hold hold g)
  end.

(** ** Reading a principal: store.go

    [pool]: whether the control database is configured. *)

Definition Get (pool : bool) (id : string) : prog (PrincipalRow + GuardError) :=
  if negb (ValidID id) then Ret (inr ErrNotFound) else
  if negb pool then Ret (inr ErrUnavailable) else
  do~ r := ReadPrincipal id in
  Ret match r with
      | inl (Some p) => inl p
      | inl None => inr ErrNotFound
      | inr f => inr (Broken "loading principal" f)
      end.

(** [mutate]: one update, then the principal again. *)
Definition mutate (pool : bool) (id : string) (update : stmt bool) : prog (PrincipalRow + GuardError) :=
  if negb (ValidID id) then Ret (inr ErrNotFound) else
  if negb pool then Ret (inr ErrUnavailable) else
  do~ r := update in
  match r with
  | inl true => Get pool id
  | inl false =>
      do* again := Get pool id in
      Ret match again with inl _ => inr ErrRetired | inr e => inr e end
  | inr f => Ret (inr (Broken "updating principal" f))
  end.

Definition Update (pool : bool) (id : string) (sponsor : option Z) : prog (PrincipalRow + GuardError) :=
  if match sponsor with Some s => s <=? 0 | None => false end
  then Ret (inr (ErrInvalid "sponsor_user_id must be a positive user id"))
  else mutate pool id (UpdateSponsor id sponsor).

Definition SetStatus (pool : bool) (id : string) (to : Status) (reason : string)
    : prog (PrincipalRow + GuardError) :=
  if negb (Status_Valid to) then Ret (inr (ErrInvalid "status is not a principal status")) else
  match checkText "reason" reason 0 maxReasonLen with
  | Some e => Ret (inr e)
  | None => mutate pool id (SetStatusRow id to reason)
  end.

(** ** The hold of a change: decide/hold.go *)

Definition HoldActive (pool : bool) (id : string) : prog (Z + GuardError) :=
  if id =s "" then Ret (inr (ErrInvalid "a hold needs a principal id")) else
  if negb pool then Ret (inr ErrUnavailable) else
  let denied reason detail := Denied {| de_Reason := reason; de_Detail := detail; de_Fix := "" |} in
  do~ r := HoldRow id in
  match r with
  | inl (Some (hold, status)) =>
      if status =s StatusActive then Ret (inl hold) else
      do~ _ := EndHold hold in
      Ret (inr (if status =s StatusFrozen
        then denied ReasonFrozen ("principal " +:+ id +:+ " was frozen before its change committed")
        else denied ReasonRetired ("principal " +:+ id +:+ " is " +:+ status)))
  | inl None => Ret (inr (denied ReasonRetired ("principal " +:+ id +:+ " does not exist")))
  | inr f => Ret (inr (Broken "holding principal" f))
  end.

(** ** Kill and freeze: kill_switch.go *)

Record KillReport : Type := {
  kr_KillID : Z;
  kr_Scope : KillScope;
  kr_ID : string;
  kr_Principals : list string;
  kr_TokensRevoked : Z;
  kr_ApprovalsCancelled : Z;
  kr_Databases : list DatabaseReport;
  kr_Verified : bool;
  kr_ControlError : list GuardError;
}.

Definition startKill (pool : bool) (scope : KillScope) (id reason actor : string) : prog (Z + GuardError) :=
  if negb pool then Ret (inr ErrUnavailable) else
  do~ r := StartKill scope id reason actor in
  Ret match r with inl id => inl id | inr f => inr (Broken "recording the kill" f) end.

Definition markFrozen (pool : bool) (m : freezeMark) : prog (list string + GuardError) :=
  let freeze scanned :=
    do~ r := FreezeTx m scanned in
    Ret match r with inl ids => inl ids | inr f => inr (Broken "freezing principals" f) end in
  if negb pool then Ret (inr ErrUnavailable) else
  if negb (fm_all m) && match fm_ids m with [] => true | _ => false end then freeze [] else
  do~ r := ScanPrincipals m in
  match r with
  | inl scanned => freeze scanned
  | inr f => Ret (inr (Broken "freezing principals" f))
  end.

Definition revokeTokens (pool : bool) (ids : list string) (actor : string) : prog (Z + GuardError) :=
  if negb pool then Ret (inr ErrUnavailable) else
  match ids with
  | [] => Ret (inl 0)
  | _ =>
      do~ r := RevokeTokens ids actor in
      Ret match r with inl n => inl n | inr f => inr (Broken "revoking agent tokens" f) end
  end.

(** [retryFreeze]: the attempts left, while the last one timed out on a lock. *)
Fixpoint retryFreeze (pool : bool) (m : freezeMark) (attempts : nat) (e : GuardError)
    : prog (option GuardError) :=
  match attempts with
  | O => Ret (Some e)
  | S attempts' =>
      if negb (isLockTimeout e) then Ret (Some e) else
      do* r := markFrozen pool m in
      match r with
      | inl _ => Ret None
      | inr e' => retryFreeze pool m attempts' e'
      end
  end.

Definition freezeMarkFor (k : killScope) : freezeMark :=
  {| fm_all := k_all k; fm_ids := k_ids k;
     fm_flagScope := if k_scope k =s KillScopeAll then "fleet"
                     else if k_scope k =s KillScopeDatabase then "database" else "";
     fm_flagTarget := if k_scope k =s KillScopeDatabase then k_database k else "";
     fm_reason := (if k_actionType k =s "guard_kill" then "kill: " else "freeze: ") +:+ k_reason k;
     fm_actor := k_actor k; fm_killID := k_killID k |}.

Definition scopeTargets (pool : bool) (targets : list KillTarget + error) (k : killScope)
    : prog (list KillTarget + GuardError) :=
  let listed :=
    match targets with
    | inr e => inr (ApplyFailed e)
    | inl ts =>
        if k_scope k <>s KillScopeDatabase then
          match ts with [] => inr ErrUnavailable | _ => inl ts end
        else match List.find (fun t => kt_Name t =s k_database k) ts with
             | Some t => inl [t]
             | None => inr ErrNotFound
             end
    end in
  if k_scope k =s KillScopePrincipal then
    do* p := Get pool (hd "" (k_ids k)) in
    Ret match p with
        | inr e => if isNotFound e then inr e else listed
        | inl _ => listed
        end
  else Ret listed.

Definition set_killID (id : Z) (k : killScope) : killScope :=
  {| k_actionType := k_actionType k; k_scope := k_scope k; k_all := k_all k; k_ids := k_ids k;
     k_database := k_database k; k_reason := k_reason k; k_actor := k_actor k; k_killID := id |}.
Definition set_ids (ids : list string) (k : killScope) : killScope :=
  {| k_actionType := k_actionType k; k_scope := k_scope k; k_all := k_all k; k_ids := ids;
     k_database := k_database k; k_reason := k_reason k; k_actor := k_actor k; k_killID := k_killID k |}.

Definition finishReport (pool : bool) (k : killScope) (id : string) (revoked : Z)
    (errors : list GuardError) (dbs : list DatabaseReport) : prog KillReport :=
  let report errors :=
    {| kr_KillID := k_killID k; kr_Scope := k_scope k; kr_ID := id; kr_Principals := k_ids k;
       kr_TokensRevoked := revoked;
       kr_ApprovalsCancelled := foldr (fun d n => dr_ApprovalsCancelled d + n) 0 dbs;
       kr_Databases := dbs; kr_Verified := forallb dr_Verified dbs; kr_ControlError := errors |} in
  if negb pool || (k_killID k =? 0) then Ret (report errors) else
  do~ r := FinishKill (k_killID k) in
  Ret (report match r with inl _ => errors | inr f => errors ++ [Broken "storing the kill report" f] end).

(** Errors in the order [joinErr] notes them. *)
Definition errors_of {A} (r : A + GuardError) : list GuardError :=
  match r with inl _ => [] | inr e => [e] end.

Definition contain (cfg : KillConfig) (pool : bool) (targets : list KillTarget + error) (k : killScope)
    (kill : bool) : prog (KillReport + GuardError) :=
  do* found := scopeTargets pool targets k in
  match found with
  | inr e => Ret (inr e)
  | inl ts =>
      let id := if k_scope k =s KillScopePrincipal then hd "" (k_ids k) else k_database k in
      do* started := (if kill then startKill pool (k_scope k) id (k_reason k) (k_actor k) else Ret (inl 0)) in
      let k := set_killID (match started with inl n => n | inr _ => 0 end) k in
      do* _ := (if k_scope k =s KillScopeDatabase then Ret tt
                else do~ _ := RevokeMemory (k_ids k) (k_all k) in Ret tt) in
      let mark := freezeMarkFor k in
      do* froze := markFrozen pool mark in
      let k := match froze with inl ids => if k_all k then set_ids ids k else k | inr _ => k end in
      do* revoked := (if kill && match froze with inl _ => true | inr _ => false end
                      then revokeTokens pool (k_ids k) (k_actor k) else Ret (inl 0)) in
      do~ _ := RunClusters k ts in
      do* failed := match froze with
                    | inl _ => Ret None
                    | inr e => retryFreeze pool mark (Z.to_nat (kc_Attempts cfg - 1)) e
                    end in
      do* _ := match failed with None => Ret tt | Some _ => do~ _ := AppendFallback in Ret tt end in
      do~ dbs := VerifyClusters in
      do* rep := finishReport pool k id (match revoked with inl n => n | inr _ => 0 end)
        (errors_of started ++ errors_of revoked ++ match failed with Some e => [e] | None => [] end)
        (match dbs with inl l => l | inr _ => [] end) in
      Ret (inl rep)
  end.

Definition Kill (cfg : KillConfig) (pool : bool) (targets : list KillTarget + error) (req : KillRequest)
    : prog (KillReport + GuardError) :=
  match KillRequest_Validate req with
  | Some e => Ret (inr e)
  | None =>
      contain cfg pool targets
        {| k_actionType := "guard_kill"; k_scope := kq_Scope req; k_all := kq_Scope req =s KillScopeAll;
           k_ids := if kq_Scope req =s KillScopePrincipal then [kq_ID req] else [];
           k_database := if kq_Scope req =s KillScopeDatabase then kq_ID req else "";
           k_reason := kq_Reason req; k_actor := kq_Actor req; k_killID := 0 |} true
  end.

Definition Freeze (cfg : KillConfig) (pool : bool) (targets : list KillTarget + error) (req : FreezeRequest)
    : prog (KillReport + GuardError) :=
  match FreezeRequest_Validate req with
  | Some e => Ret (inr e)
  | None =>
      contain cfg pool targets
        {| k_actionType := "guard_freeze"; k_scope := KillScopePrincipal; k_all := false;
           k_ids := [fq_PrincipalID req]; k_database := ""; k_reason := fq_Reason req;
           k_actor := fq_Actor req; k_killID := 0 |} false
  end.

(** D1's reader of flags. *)
Definition ReadFlags (pool : bool) (database : string) : prog (bool * string + GuardError) :=
  if negb pool then Ret (inr ErrUnavailable) else
  do~ r := ReadFrozen database in
  Ret match r with
      | inl None => inl (false, "")
      | inl (Some (scope, reason)) => inl (true, scope +:+ " frozen: " +:+ reason)
      | inr f => inr (Broken "reading freeze flags" f)
      end.

(** ** Unfreeze and release: unfreeze.go, unfreeze_roles.go *)

(** The database whose executor runs a cluster's unfreeze. *)
Definition has_executor (key : string) (t : KillTarget) : bool :=
  (kt_ClusterKey t =s key) && kt_Executor t && (key <>s "").

Definition unfreezePlan (pool keyring : bool) (targets : list KillTarget + error) (id : string)
    : prog (list ClusterRole + GuardError) :=
  if negb keyring then Ret (inr ErrEncryptionKeyRequired) else
  if negb (ValidID id) then Ret (inr ErrNotFound) else
  if negb pool then Ret (inr ErrUnavailable) else
  do~ r := ReadRoles id in
  Ret match r with
      | inr f => inr (Broken "reading cluster roles" f)
      | inl rows =>
          match targets with
          | inr e => inr (ApplyFailed e)
          | inl ts =>
              let plan := List.filter (fun r => cr_Status r <>s RoleStatusRetired) rows in
              if forallb (fun r => existsb (has_executor (cr_ClusterKey r)) ts) plan
              then inl plan else inr ErrUnavailable
          end
      end.

Definition Unfreeze (cfg : KillConfig) (rc : RoleConfig) (pool keyring : bool)
    (targets : list KillTarget + error) (req : UnfreezeRequest) : prog (UnfreezeResult + GuardError) :=
  match UnfreezeRequest_Validate req with
  | Some e => Ret (inr e)
  | None =>
      if negb pool then Ret (inr ErrUnavailable) else
      do* found := Get pool (uq_PrincipalID req) in
      match found with
      | inr e => Ret (inr e)
      | inl p =>
          if gp_Status p <>s StatusFrozen then Ret (inr ErrNotFrozen) else
          do* planned := unfreezePlan pool keyring targets (gp_ID p) in
          match planned with
          | inr e => Ret (inr e)
          | inl plan =>
              do~ r := UnfreezeTx cfg rc p req plan in
              Ret match r with inl a => a | inr f => inr (Broken "unfreezing" f) end
          end
      end
  end.

Definition Release (cfg : KillConfig) (pool : bool) (req : ReleaseRequest) : prog (UnfreezeResult + GuardError) :=
  match ReleaseRequest_Validate req with
  | Some e => Ret (inr e)
  | None =>
      if negb pool then Ret (inr ErrUnavailable) else
      let db := lq_Scope req =s KillScopeDatabase in
      do~ r := ReleaseTx cfg (if db then "database" else "fleet") (if db then lq_Database req else "") req in
      Ret match r with inl a => a | inr f => inr (Broken "releasing" f) end
  end.
