(* ===== verification/GuardSafety.v ===== *)
(** * What the kill switch's tables keep

    However kills, freezes, unfreezes, releases, set statuses and holds interleave: a
    principal under an open freeze is not active unless someone set it so by hand, a
    freeze a recorded kill made and every flag is lifted by two people or by one with a
    reason on record, and a principal stays as it was read while a change holds it. *)

From S2P Require Import Prelude.
From S2P Require Import GoStd.
From S2P Require Import Principal.
From S2P Require Import Guard.
From S2P Require Import GuardRoles.
From S2P Require Import GuardKill.

(** ** The invariant

    [solo]: whether any operation runs in single-operator mode; [by_hand]: the
    principals an operation sets active whatever freezes them. *)

Section Keeps.
Context (solo : Prop) (by_hand : string -> Prop).

Definition principal_of (ps : list PrincipalRow) (id : string) : option PrincipalRow :=
  List.find (fun p => gp_ID p =s id) ps.

(** Lifting [f] takes two people. *)
Definition guarded (f : FreezeRow) : Prop := is_Some (fz_KillID f) \/ fz_Scope f <> ScopePrincipal.

(** A request of one person for [f], completed in time by another. *)
Definition two_people (rs : list RequestRow) (f : FreezeRow) : Prop :=
  exists r approver decided, r ∈ rs /\ uf_FreezeID r = fz_ID f /\ uf_Status r = Applied /\
    uf_ApprovedByUser r = Some approver /\ 0 < uf_RequestedByUser r /\ 0 < approver /\
    uf_RequestedByUser r <> approver /\ uf_DecidedAt r = Some decided /\ decided < uf_ExpiresAt r.

(** One person, in single-operator mode and with the reason on record. *)
Definition single_operator (f : FreezeRow) : Prop :=
  solo /\ exists actor reason, reason <> "" /\
    fz_ClearedBy f = take_chars 2000 (actor +:+ " (single operator: " +:+ reason +:+ ")").

Record freezes_ok (next : Z) (fs : list FreezeRow) : Prop := {
  fo_ids : NoDup (map fz_ID fs);
  fo_next : forall f, f ∈ fs -> 0 < fz_ID f < next;
  fo_open : forall f f', f ∈ fs -> f' ∈ fs -> is_open f = true -> is_open f' = true ->
    fz_Scope f = fz_Scope f' -> fz_Target f = fz_Target f' -> f = f';
}.

Record requests_ok (next : Z) (fs : list FreezeRow) (rs : list RequestRow) : Prop := {
  qo_ids : NoDup (map uf_ID rs);
  qo_next : forall r, r ∈ rs -> 0 < uf_ID r < next;
  qo_user : forall r, r ∈ rs -> 0 < uf_RequestedByUser r;
  qo_lifted : forall f, f ∈ fs -> is_open f = false -> guarded f -> two_people rs f \/ single_operator f;
}.

(** There, and not active. *)
Definition inactive (id : string) (g : Guard) : Prop :=
  exists p, get_principal id g = Some p /\ gp_Status p <> StatusActive.

Record guard_ok (g : Guard) : Prop := {
  go_freezes : freezes_ok (g_Next g) (g_Freezes g);
  go_requests : requests_ok (g_Next g) (g_Freezes g) (g_Requests g);
  go_status : forall f, f ∈ g_Freezes g -> is_open f = true -> fz_Scope f = ScopePrincipal ->
    by_hand (fz_Target f) \/ inactive (fz_Target f) g;
  go_holds : forall h, h ∈ g_Holds g -> exists p, get_principal (ho_Principal h) g = Some p /\
    gp_Status p = ho_Status h;
  go_next : 0 < g_Next g;
}.

(** What the programs ask for: a principal is set active by hand only by who is known
    to, a person signed in, and flags are not principals. *)
Definition stmt_ok X (st : stmt X) : Prop :=
  match st with
  | SetStatusRow id to _ => to = StatusActive -> by_hand id
  | UnfreezeTx cfg _ _ req _ => 0 < uq_ActorUserID req /\ (kc_SingleOperatorMode cfg = true -> solo)
  | ReleaseTx cfg scope _ req =>
      0 < lq_ActorUserID req /\ scope <> ScopePrincipal /\ (kc_SingleOperatorMode cfg = true -> solo)
  | FreezeTx m _ => fm_flagScope m <> ScopePrincipal
  | _ => True
  end.

(** ** Principals *)

Lemma get_principal_of id g : get_principal id g = principal_of (g_Principals g) id.
Proof. done. Qed.

Lemma principal_map f ps id : (forall p, gp_ID (f p) = gp_ID p) ->
  principal_of (map f ps) id = f <$> principal_of ps id.
Proof.
  intros Hf. unfold principal_of. induction ps as [|p ps IH]; [done|]. cbn. rewrite Hf.
  by destruct (gp_ID p =s id).
Qed.

Lemma get_principal_map f id g : (forall p, gp_ID (f p) = gp_ID p) ->
  get_principal id (g_set_principals (map f (g_Principals g)) g) = f <$> get_principal id g.
Proof. intros Hf. apply (principal_map f (g_Principals g) id Hf). Qed.

Lemma principal_of_id ps id p : principal_of ps id = Some p -> gp_ID p = id.
Proof. intros [_ H%String.eqb_eq]%find_some. done. Qed.

Lemma not_held id g h : held id g = false -> h ∈ g_Holds g -> ho_Principal h <> id.
Proof.
  unfold held. intros H Hh E. assert (existsb (fun h => ho_Principal h =s id) (g_Holds g) = true); [|congruence].
  apply existsb_exists. exists h. split; [by apply list_elem_of_In|]. by apply String.eqb_eq.
Qed.

(** An update of rows nobody holds that makes nothing active. *)
Lemma ok_principals f g : guard_ok g -> (forall p, gp_ID (f p) = gp_ID p) ->
  (forall p, f p = p \/ held (gp_ID p) g = false) ->
  (forall p, gp_Status (f p) = StatusActive -> by_hand (gp_ID p) \/ gp_Status p = StatusActive) ->
  guard_ok (g_set_principals (map f (g_Principals g)) g).
Proof.
  intros [H1 H2 H3 H4 H5] Hid Hh Ha. split; try done.
  - intros x Hx Ho Hs. destruct (H3 x Hx Ho Hs) as [Hm|(p & Hp & Hst)]; [by left|].
    destruct (decide (gp_Status (f p) = StatusActive)) as [[Hm|]%Ha|Hn]; [|done|].
    + left. apply principal_of_id in Hp. by rewrite <- Hp.
    + right. exists (f p). by rewrite get_principal_map, Hp by done.
  - intros h Hin. destruct (H4 h Hin) as (p & Hp & Hst). exists (f p).
    rewrite get_principal_map, Hp by done. split; [done|].
    destruct (Hh p) as [->|Hn]; [done|]. apply principal_of_id in Hp. by destruct (not_held _ _ h Hn).
Qed.

(** ** Freezes *)

Lemma with_kill_keys k f : fz_ID (with_kill k f) = fz_ID f /\ fz_Scope (with_kill k f) = fz_Scope f /\
  fz_Target (with_kill k f) = fz_Target f /\ is_open (with_kill k f) = is_open f.
Proof. done. Qed.

Lemma two_people_more rs rs' f : two_people rs f -> (forall r, r ∈ rs -> uf_Status r = Applied -> r ∈ rs') ->
  two_people rs' f.
Proof. intros (r & a & d & Hr & H1 & H2 & H3) Hin. exists r, a, d. split; [by apply Hin|done]. Qed.

(** An open freeze notes a kill. *)
Lemma ok_note (sel : FreezeRow -> bool) k g : guard_ok g -> (forall f, sel f = true -> is_open f = true) ->
  guard_ok (g_set_freezes (map (fun f => if sel f then with_kill k f else f) (g_Freezes g)) g).
Proof.
  intros [H1 H2 H3 H4 H5] Hsel. set (w := fun f => if sel f then with_kill k f else f).
  assert (Hw : forall f, fz_ID (w f) = fz_ID f /\ fz_Scope (w f) = fz_Scope f /\ fz_Target (w f) = fz_Target f /\
    is_open (w f) = is_open f) by (intros f; unfold w; by destruct (sel f)).
  split; try done; cbn.
  - destruct H1 as [A1 A2 A3]. split.
    + rewrite map_map. erewrite map_ext; [exact A1|]. apply Hw.
    + intros f (x & -> & Hx)%list_elem_of_fmap. destruct (Hw x) as (-> & _). by apply A2.
    + intros f f' (x & -> & Hx)%list_elem_of_fmap (y & -> & Hy)%list_elem_of_fmap.
      destruct (Hw x) as (_ & -> & -> & ->), (Hw y) as (_ & -> & -> & ->). intros. f_equal. by apply A3.
  - destruct H2 as [B1 B2 B3 B4]. split; try done.
    intros f (x & -> & Hx)%list_elem_of_fmap Ho Hg. destruct (Hw x) as (_ & _ & _ & Ho').
    rewrite Ho' in Ho. assert (E : w x = x).
    { unfold w. destruct (sel x) eqn:E; [|done]. apply Hsel in E. congruence. }
    rewrite E in *. by apply B4.
  - intros f (x & -> & Hx)%list_elem_of_fmap. destruct (Hw x) as (_ & -> & -> & ->). by apply H3.
Qed.

(** A new freeze of what has no open one. *)
Lemma ok_freeze f g : guard_ok g -> fz_ID f = g_Next g -> is_open f = true ->
  existsb (fun x => is_open x && of_target (fz_Scope f) (fz_Target f) x) (g_Freezes g) = false ->
  (fz_Scope f = ScopePrincipal -> by_hand (fz_Target f) \/ inactive (fz_Target f) g) ->
  guard_ok (g_take_id (g_set_freezes (g_Freezes g ++ [f]) g)).
Proof.
  intros [H1 H2 H3 H4 H5] Hid Ho Hnone Hst.
  assert (Hn : forall x, x ∈ g_Freezes g -> is_open x = true -> fz_Scope x = fz_Scope f ->
    fz_Target x = fz_Target f -> False).
  { intros x Hx Hxo Hs Ht. assert (existsb (fun x => is_open x && of_target (fz_Scope f) (fz_Target f) x) (g_Freezes g) = true);
      [|congruence]. apply existsb_exists. exists x. split; [by apply list_elem_of_In|].
    unfold of_target. by rewrite Hxo, Hs, Ht, !String.eqb_refl. }
  split; cbn; try done; [| | |lia].
  - destruct H1 as [A1 A2 A3]. split.
    + rewrite map_app. apply NoDup_app. split_and!; [done| |apply NoDup_singleton].
      intros i (x & -> & Hx)%list_elem_of_fmap E%list_elem_of_singleton. specialize (A2 x Hx). lia.
    + intros x [Hx| ->]%elem_of_snoc; [specialize (A2 x Hx)|]; lia.
    + intros x y [Hx| ->]%elem_of_snoc [Hy| ->]%elem_of_snoc; intros; [by apply A3| | |done];
        exfalso; [by eapply (Hn x)|by eapply (Hn y)].
  - destruct H2 as [B1 B2 B3 B4]. split; [done| |done|].
    + intros r Hr. specialize (B2 r Hr). lia.
    + intros x [Hx| ->]%elem_of_snoc Hc; [by apply B4|congruence].
  - intros x [Hx| ->]%elem_of_snoc Hxo Hs; [by apply H3|by apply Hst].
Qed.

Lemma ok_take_id g : guard_ok g -> guard_ok (g_take_id g).
Proof.
  intros [[A1 A2 A3] [B1 B2 B3 B4] H3 H4 H5]. split; cbn; [| |done|done|lia].
  - split; [done| |done]. intros f Hf. specialize (A2 f Hf). lia.
  - split; [done| |done|done]. intros r Hr. specialize (B2 r Hr). lia.
Qed.

Lemma ok_upsert m started scope target g : guard_ok g ->
  (scope = ScopePrincipal -> inactive target g) ->
  guard_ok (upsert_freeze m started scope target g).
Proof.
  intros Hg Hst. unfold upsert_freeze. destruct (existsb _ (g_Freezes g)) eqn:E.
  - apply ok_take_id, (ok_note (fun f => is_open f && of_target scope target f)); [done|].
    by intros f [Hf _]%andb_prop.
  - apply ok_freeze; [done..|]. intros Hs. right. by apply Hst.
Qed.

(** ** Requests *)

(** Requests decided against. *)
Lemma ok_decide (sel : RequestRow -> bool) status started g : guard_ok g -> status <> Applied ->
  (forall r, r ∈ g_Requests g -> sel r = true -> uf_Status r <> Applied) ->
  guard_ok (g_set_requests (map (fun r => if sel r
    then decide_request status started (uf_ApprovedBy r) (uf_ApprovedByUser r) r else r) (g_Requests g)) g).
Proof.
  intros [H1 [B1 B2 B3 B4] H3 H4 H5] Hs Hsel. set (w := fun r => if sel r then decide_request status started (uf_ApprovedBy r) (uf_ApprovedByUser r) r else r).
  assert (Hw : forall r, uf_ID (w r) = uf_ID r /\ uf_RequestedByUser (w r) = uf_RequestedByUser r)
    by (intros r; unfold w; by destruct (sel r)).
  split; try done. cbn. split.
  - rewrite map_map. erewrite map_ext; [exact B1|]. apply Hw.
  - intros r (x & -> & Hx)%list_elem_of_fmap. destruct (Hw x) as (-> & _). by apply B2.
  - intros r (x & -> & Hx)%list_elem_of_fmap. destruct (Hw x) as (_ & ->). by apply B3.
  - intros f Hf Ho Hg. destruct (B4 f Hf Ho Hg) as [H2|Hsingle]; [left|by right].
    apply (two_people_more (g_Requests g)); [done|]. intros r Hr Ha. apply list_elem_of_fmap. exists r.
    split; [|done]. unfold w. destruct (sel r) eqn:E; [|done]. by destruct (Hsel r Hr E).
Qed.

Lemma ok_request r g : guard_ok g -> uf_ID r = g_Next g -> 0 < uf_RequestedByUser r ->
  guard_ok (g_take_id (g_set_requests (g_Requests g ++ [r]) g)).
Proof.
  intros Hg Hid Hu. apply ok_take_id in Hg as Hg'. destruct Hg' as [H1 _ H3 H4 H5].
  destruct Hg as [_ [B1 B2 B3 B4] _ _ H5']. split; cbn; try done. split.
  - rewrite map_app. apply NoDup_app. split_and!; [done| |apply NoDup_singleton].
    intros i (x & -> & Hx)%list_elem_of_fmap E%list_elem_of_singleton. specialize (B2 x Hx). lia.
  - intros x [Hx| ->]%elem_of_snoc; [specialize (B2 x Hx)|]; lia.
  - intros x [Hx| ->]%elem_of_snoc; [by apply B3|done].
  - intros f Hf Ho Hgd. destruct (B4 f Hf Ho Hgd) as [H2|Hsingle]; [left|by right].
    apply (two_people_more (g_Requests g)); [done|]. intros x Hx _. apply elem_of_snoc. by left.
Qed.

(** ** Freezing *)

Lemma existsb_id ids id : existsb (String.eqb id) ids = true <-> id ∈ ids.
Proof.
  rewrite existsb_exists, list_elem_of_In. split; [|by exists id; rewrite String.eqb_refl].
  by intros (x & Hx & ->%String.eqb_eq).
Qed.

Lemma upsert_principals m started scope target g :
  g_Principals (upsert_freeze m started scope target g) = g_Principals g /\
  g_Holds (upsert_freeze m started scope target g) = g_Holds g /\
  g_Requests (upsert_freeze m started scope target g) = g_Requests g.
Proof. done. Qed.

Lemma upserts_principals m started ids g :
  g_Principals (foldl (fun g id => upsert_freeze m started ScopePrincipal id g) g ids) = g_Principals g.
Proof. revert g. induction ids as [|id ids IH]; intros g; [done|]. cbn [foldl]. by rewrite IH. Qed.

Lemma ok_upserts m started ids g : guard_ok g ->
  (forall id, id ∈ ids -> inactive id g) ->
  guard_ok (foldl (fun g id => upsert_freeze m started ScopePrincipal id g) g ids).
Proof.
  revert g. induction ids as [|id ids IH]; intros g Hg Hst; [done|]. cbn [foldl]. apply IH.
  - apply ok_upsert; [done|]. intros _. apply Hst, elem_of_cons. by left.
  - intros i Hi. apply (Hst i), elem_of_cons. by right.
Qed.

Lemma supersedes_pending m ids r : supersedes m ids r = true -> uf_Status r <> Applied.
Proof. unfold supersedes. intros [->%String.eqb_eq _]%andb_prop. discriminate. Qed.

Lemma ok_writeFreeze m ids started g : guard_ok g -> fm_flagScope m <> ScopePrincipal ->
  (forall id, id ∈ ids -> held id g = false /\ is_Some (get_principal id g)) ->
  guard_ok (writeFreeze m ids started g).
Proof.
  intros Hg Hscope Hh. unfold writeFreeze.
  set (w := fun p => if existsb (String.eqb (gp_ID p)) ids
                     then with_status StatusFrozen (take_chars 2000 (fm_reason m)) (g_Now g) p else p).
  assert (Hg1 : guard_ok (g_set_principals (map w (g_Principals g)) g)).
  { apply ok_principals; [done|..]; intros p; unfold w.
    - by destruct (existsb _ ids).
    - destruct (existsb _ ids) eqn:E; [right; by apply Hh, existsb_id|by left].
    - destruct (existsb _ ids); [done|by right]. }
  assert (Hfrozen : forall id, id ∈ ids -> inactive id (g_set_principals (map w (g_Principals g)) g)).
  { intros id Hid. destruct (Hh id Hid) as [_ [p Hp]]. exists (w p).
    rewrite get_principal_map, Hp by (intros q; unfold w; by destruct (existsb _ ids)). split; [done|].
    apply principal_of_id in Hp. unfold w. by rewrite Hp, (proj2 (existsb_id ids id) Hid). }
  apply (ok_decide (supersedes m ids) Superseded started); [|done|by intros r _ ?%supersedes_pending].
  destruct (fm_flagScope m =s "") eqn:E; cbn [negb]; [by apply ok_upserts|].
  apply ok_upsert; [by apply ok_upserts|]. done.
Qed.

Lemma ok_freeze_tx m scanned started g ids g' : guard_ok g -> fm_flagScope m <> ScopePrincipal ->
  freeze_tx m scanned started g = Some (ids, g') -> guard_ok g'.
Proof.
  intros Hg Hs. unfold freeze_tx. destruct (existsb _ scanned) eqn:E; [done|]. intros [= _ <-].
  apply ok_writeFreeze; [done|done|]. intros id [Hid Hin]%elem_of_filter_in.
  split; [|by destruct (get_principal id g)]. destruct (held id g) eqn:Eh; [|done]. assert (existsb (fun id => held id g) scanned = true); [|congruence].
  apply existsb_exists. exists id. split; [by apply list_elem_of_In|done].
Qed.

(** ** The people check *)

(** The tables an unfreeze or a release reads stay while it signs off. *)
Definition same_but_requests (g g' : Guard) : Prop :=
  g_Principals g' = g_Principals g /\ g_Freezes g' = g_Freezes g /\ g_Holds g' = g_Holds g.

(** One person may lift it alone. *)
Definition alone (so : signoff) : Prop :=
  (so_quorum so = 1 \/ of_id (so_freeze so) = 0) /\ (so_single so = true -> so_reason so <> "").

(** This person completes another's request. *)
Definition completes (so : signoff) (started : Time) (rid : Z) (rs : list RequestRow) : Prop :=
  exists r, r ∈ rs /\ uf_ID r = rid /\ uf_FreezeID r = of_id (so_freeze so) /\ uf_Status r = Pending /\
    started < uf_ExpiresAt r /\ uf_RequestedByUser r <> so_userID so /\
    so_sponsor so <> Some (so_userID so).

Lemma pending_spec fid started g p g' : pendingRequest fid started g = (p, g') -> guard_ok g ->
  guard_ok g' /\ same_but_requests g g' /\
  match p with
  | Some r => g' = g /\ r ∈ g_Requests g /\ uf_FreezeID r = fid /\ uf_Status r = Pending /\
              started < uf_ExpiresAt r
  | None => True
  end.
Proof.
  unfold pendingRequest. intros E Hg. destruct (List.find _ _) as [r|] eqn:Er; [|by injection E as <- <-].
  apply find_some in Er as [Hr [Hf%Z.eqb_eq Hs%String.eqb_eq]%andb_prop]. apply list_elem_of_In in Hr.
  destruct (uf_ExpiresAt r <=? started) eqn:Ee.
  - injection E as <- <-. split; [|done].
    apply (ok_decide (fun x => uf_ID x =? uf_ID r) Expired started); [done|done|].
    intros x Hx Hid%Z.eqb_eq. assert (x = r) as ->; [|by rewrite Hs].
    by apply (nodup_map_inj uf_ID (g_Requests g)); [apply (qo_ids _ _ _ (go_requests _ Hg))|..].
  - injection E as <- <-. apply Z.leb_gt in Ee. done.
Qed.

Lemma signOff_spec cfg so started g r g' : guard_ok g -> 0 < so_userID so ->
  signOff cfg so started g = (r, g') ->
  guard_ok g' /\ same_but_requests g g' /\
  forall res, r = inl (res, true) ->
    (ur_RequestID res = 0 /\ alone so) \/ completes so started (ur_RequestID res) (g_Requests g').
Proof.
  intros Hg Hu. unfold signOff. destruct (so_single so && (so_reason so =s "")) eqn:E1.
  { intros [= <- <-]. split; [done|]. split; [done|]. by intros res. }
  assert (Hreason : so_single so = true -> so_reason so <> "").
  { intros Hs Hr. by rewrite Hs, Hr in E1. }
  destruct ((so_quorum so =? 1) || _) eqn:E2.
  { intros [= <- <-]. split; [done|]. split; [done|]. intros res [= <-]. left. split; [done|].
    split; [|done]. apply orb_prop in E2 as [->%Z.eqb_eq| ->%Z.eqb_eq]; auto. }
  destruct (pendingRequest _ started g) as [pend g1] eqn:Ep.
  destruct (pending_spec _ _ _ _ _ Ep Hg) as (Hg1 & Hsame & Hpend). destruct pend as [p|].
  - destruct Hpend as (-> & Hin & Hf & Hst & Ht).
    destruct (uf_RequestedByUser p =? so_userID so) eqn:E3; [by intros [= <- <-]|].
    case_bool_decide as E4; [by intros [= <- <-]|]. intros [= <- <-]. split; [done|]. split; [done|].
    intros res [= <-]. right. exists p. apply Z.eqb_neq in E3. split_and!; done.
  - unfold newRequest. intros [= <- <-]. split; [by apply ok_request|]. split; [done|]. by intros res.
Qed.

(** ** Lifting *)

Lemma ok_lift so rid started g f : guard_ok g -> f ∈ g_Freezes g -> of_id (so_freeze so) = fz_ID f ->
  0 < so_userID so -> (guarded f -> so_quorum so = 1 -> so_single so = true /\ solo) ->
  (rid = 0 /\ alone so) \/ completes so started rid (g_Requests g) ->
  guard_ok (liftFreeze so rid started g).
Proof.
  intros Hg Hf Hid Hu Hsingle Hpeople. unfold liftFreeze.
  assert (Hfid : 0 < fz_ID f) by (apply (fo_next _ _ (go_freezes _ Hg)); done).
  rewrite Hid. destruct (fz_ID f =? 0) eqn:E0; [lia|]. clear E0.
  set (by_ := if so_single so then _ else so_actor so).
  set (w := fun x => if fz_ID x =? fz_ID f then cleared started (take_chars 2000 by_) x else x).
  set (v := fun r => if uf_ID r =? rid then decide_request Applied started (so_actor so) (Some (so_userID so)) r else r).
  assert (Hw : forall x, x ∈ g_Freezes g -> x = f \/ w x = x).
  { intros x Hx. unfold w. destruct (Z.eqb_spec (fz_ID x) (fz_ID f)); [left|by right].
    by apply (nodup_map_inj fz_ID (g_Freezes g)); [apply (fo_ids _ _ (go_freezes _ Hg))|..]. }
  assert (Hwk : forall x, fz_ID (w x) = fz_ID x /\ fz_Scope (w x) = fz_Scope x /\ fz_Target (w x) = fz_Target x /\
    fz_KillID (w x) = fz_KillID x /\ (is_open (w x) = true -> is_open x = true))
    by (intros x; unfold w; by destruct (_ =? _)).
  set (rs := if 0 <? rid then map v (g_Requests g) else g_Requests g).
  assert (Hgoal : guard_ok (g_set_requests rs (g_set_freezes (map w (g_Freezes g)) g))).
  2:{ unfold rs in Hgoal. by destruct (0 <? rid). }
  destruct Hg as [[A1 A2 A3] [B1 B2 B3 B4] H3 H4 H5].
  assert (Hrs : forall r, r ∈ rs -> exists x, x ∈ g_Requests g /\ uf_ID r = uf_ID x /\
    uf_RequestedByUser r = uf_RequestedByUser x).
  { unfold rs. destruct (0 <? rid); [|intros r Hr; by exists r]. intros r (x & -> & Hx)%list_elem_of_fmap.
    exists x. split; [done|]. unfold v. by destruct (_ =? _). }
  assert (Hkeep : forall r, r ∈ g_Requests g -> uf_Status r = Applied -> r ∈ rs).
  { intros r Hr Ha. unfold rs. destruct (0 <? rid) eqn:Er; [|done]. apply list_elem_of_fmap. exists r.
    split; [|done]. unfold v. destruct (Z.eqb_spec (uf_ID r) rid) as [Ei|]; [|done].
    destruct Hpeople as [[-> _]|(x & Hx & Hxi & _ & Hxs & _)]; [done|].
    assert (r = x) as -> by (apply (nodup_map_inj uf_ID (g_Requests g)); [done..|congruence]). by rewrite Hxs in Ha. }
  split; cbn; try done.
  - split.
    + rewrite map_map. erewrite map_ext; [exact A1|]. apply Hwk.
    + intros x (y & -> & Hy)%list_elem_of_fmap. destruct (Hwk y) as (-> & _). by apply A2.
    + intros x x' (y & -> & Hy)%list_elem_of_fmap (y' & -> & Hy')%list_elem_of_fmap.
      destruct (Hwk y) as (_ & -> & -> & _ & Ho), (Hwk y') as (_ & -> & -> & _ & Ho'). intros. f_equal. auto.
  - split.
    + unfold rs. destruct (0 <? rid); [|done]. rewrite map_map. erewrite map_ext; [exact B1|].
      intros r. unfold v. by destruct (_ =? _).
    + intros r (x & Hx & -> & _)%Hrs. by apply B2.
    + intros r (x & Hx & _ & ->)%Hrs. by apply B3.
    + intros y (x & -> & Hx)%list_elem_of_fmap Ho Hgd. destruct (Hw x Hx) as [->|E].
      * destruct Hpeople as [[Hr0 [Hal Hreason]]|(r & Hr & Hri & Hrf & Hrs' & Hrt & Hru & _)].
        { right. assert (Hs : so_single so = true /\ solo).
          { apply Hsingle; [|rewrite Hid in Hal; naive_solver lia].
            destruct (Hwk f) as (_ & Es & _ & Ek & _). unfold guarded in *. by rewrite Es, Ek in Hgd. }
          destruct Hs as [Hs Hsolo]. split; [done|].
          exists (so_actor so), (so_reason so). split; [by apply Hreason|].
          unfold w. rewrite Z.eqb_refl. unfold by_. by rewrite Hs. }
        left. assert (Hpos : 0 < rid) by (rewrite <- Hri; by apply B2).
        exists (v r), (so_userID so), started. unfold rs. rewrite (proj2 (Z.ltb_lt 0 rid)) by done.
        split; [apply list_elem_of_fmap; by exists r|]. unfold v. rewrite Hri, Z.eqb_refl. cbn.
        destruct (Hwk f) as (-> & _). split_and!; try done; [congruence|by apply B3].
      * rewrite E in *. destruct (B4 x Hx Ho Hgd) as [H2|Hs]; [left|by right].
        by apply (two_people_more (g_Requests g)).
  - intros y (x & -> & Hx)%list_elem_of_fmap. destruct (Hwk x) as (_ & -> & -> & _ & Ho).
    intros Hxo Hs. by apply (H3 x Hx (Ho Hxo) Hs).
Qed.

Lemma lift_none so rid started g f : guard_ok g -> f ∈ g_Freezes g -> is_open f = true ->
  of_id (so_freeze so) = fz_ID f ->
  forall x, x ∈ g_Freezes (liftFreeze so rid started g) -> is_open x = true -> fz_Scope x = fz_Scope f ->
    fz_Target x <> fz_Target f.
Proof.
  intros Hg Hf Hfo Hid x. unfold liftFreeze.
  assert (Hfid : 0 < fz_ID f) by (apply (fo_next _ _ (go_freezes _ Hg)); done).
  rewrite Hid. destruct (fz_ID f =? 0) eqn:E0; [lia|].
  assert (Hfs : forall b g' , g_Freezes (if 0 <? rid then g_set_requests b g' else g') = g_Freezes g')
    by (intros; by destruct (0 <? rid)).
  rewrite Hfs. cbn. intros (y & -> & Hy)%list_elem_of_fmap. destruct (Z.eqb_spec (fz_ID y) (fz_ID f)) as [E|E]; [done|].
  intros Ho Hs Ht. apply E. f_equal. by apply (fo_open _ _ (go_freezes _ Hg)).
Qed.

Lemma ok_activate id started g : guard_ok g -> held id g = false ->
  (forall x, x ∈ g_Freezes g -> is_open x = true -> fz_Scope x = ScopePrincipal -> fz_Target x <> id) ->
  guard_ok (activate_principal id started g).
Proof.
  intros [H1 H2 H3 H4 H5] Hh Hno. unfold activate_principal.
  set (w := fun p => if (gp_ID p =s id) && (gp_Status p =s StatusFrozen)
                     then with_status StatusActive "" started p else p).
  assert (Hw : forall p, gp_ID (w p) = gp_ID p) by (intros p; unfold w; by destruct (_ && _)).
  assert (Hid : forall p, gp_ID p <> id -> w p = p).
  { intros p Hp. unfold w. by rewrite (proj2 (String.eqb_neq _ _) Hp). }
  split; try done.
  - intros x Hx Ho Hs. destruct (H3 x Hx Ho Hs) as [Hm|(p & Hp & Hst)]; [by left|right].
    exists p. rewrite get_principal_map, Hp by done. split; [|done]. cbn. f_equal. apply Hid. apply principal_of_id in Hp. rewrite Hp. by apply Hno.
  - intros h Hin. destruct (H4 h Hin) as (p & Hp & Hst). exists p. rewrite get_principal_map, Hp by done.
    split; [|done]. cbn. f_equal. apply Hid. apply principal_of_id in Hp. rewrite Hp.
    by apply (not_held id g).
Qed.

(** ** Transactions *)

Lemma lockOpenFreeze_spec scope target required g fr : lockOpenFreeze scope target required g = inl fr ->
  (exists f, f ∈ g_Freezes g /\ is_open f = true /\ fz_Scope f = scope /\ fz_Target f = target /\
     of_id fr = fz_ID f /\ of_killed fr = bool_decide (is_Some (fz_KillID f))) \/
  (required = false /\ of_id fr = 0 /\ of_killed fr = false /\
     forall x, x ∈ g_Freezes g -> is_open x = true -> fz_Scope x = scope -> fz_Target x <> target).
Proof.
  unfold lockOpenFreeze. destruct (List.find _ _) as [f|] eqn:E.
  - intros [= <-]. left. apply find_some in E as [Hf [[Hs%String.eqb_eq Ht%String.eqb_eq]%andb_prop Ho]%andb_prop].
    apply list_elem_of_In in Hf. eauto 10.
  - destruct required; [done|]. intros [= <-]. right. split_and!; try done.
    intros x Hx Ho Hs Ht. apply list_elem_of_In in Hx. pose proof (find_none _ _ E x Hx) as Hn. cbn in Hn.
    unfold of_target in Hn. by rewrite Hs, Ht, !String.eqb_refl, Ho in Hn.
Qed.

Lemma lift_principals so rid started g : g_Principals (liftFreeze so rid started g) = g_Principals g /\
  g_Holds (liftFreeze so rid started g) = g_Holds g.
Proof. unfold liftFreeze. destruct (_ =? 0); [done|]. by destruct (0 <? rid). Qed.

Lemma held_same id g g' : g_Holds g' = g_Holds g -> held id g' = held id g.
Proof. unfold held. by intros ->. Qed.

(** An unfreeze, whatever it answers. *)
Lemma ok_unfreeze cfg rc p req plan applies started g r g' : guard_ok g -> 0 < uq_ActorUserID req ->
  (kc_SingleOperatorMode cfg = true -> solo) ->
  held (gp_ID p) g = false ->
  unfreezeInTx cfg rc p req plan applies started g = (r, g') -> guard_ok g'.
Proof.
  intros Hg Hu Hsolo Hh. unfold unfreezeInTx. destruct (get_principal _ g) as [row|]; [|by intros [= _ <-]].
  destruct (_ <>s _); [by intros [= _ <-]|].
  destruct (lockOpenFreeze _ _ false g) as [fr|] eqn:Efr; [|by intros [= _ <-]].
  set (so := signoffFor cfg fr _ _ _ _). destruct (signOff cfg so started g) as [rs g1] eqn:Es.
  destruct (signOff_spec cfg so started g rs g1) as (Hg1 & (Hp & Hf & Hho) & Hres); [done|done|done|].
  destruct rs as [[res [|]]|e]; [|by intros [= _ <-]..].
  destruct (run_plan rc plan applies); [|by intros [= _ <-]]. intros [= _ <-].
  specialize (Hres res eq_refl). destruct (lift_principals so (ur_RequestID res) started g1) as [_ HhL].
  assert (Hh' : held (gp_ID p) (liftFreeze so (ur_RequestID res) started g1) = false)
    by (rewrite (held_same _ _ _ HhL), (held_same _ _ _ Hho); done).
  destruct (lockOpenFreeze_spec _ _ _ _ _ Efr) as [(f & Hfin & Hfo & Hfs & Hft & Hfid & Hfk)|(_ & Hid0 & _ & Hno)].
  - apply ok_activate; [|done|].
    + apply (ok_lift so _ _ _ f); try done; [by rewrite Hf|]. intros Hgd Hq.
      unfold so, signoffFor in *. cbn in *. rewrite Hfk in *.
      destruct Hgd as [Hk|]; [|done]. rewrite (bool_decide_true _ Hk) in *. destruct (kc_SingleOperatorMode cfg); [auto|done].
    + intros x Hx Hxo Hxs. rewrite <- Hft.
      apply (lift_none so (ur_RequestID res) started g1 f); try done; [by rewrite Hf|congruence].
  - assert (E : liftFreeze so (ur_RequestID res) started g1 = g1) by (unfold liftFreeze; cbn; by rewrite Hid0).
    rewrite E in *. apply ok_activate; [done|done|]. rewrite Hf. intros x Hx Hxo Hxs. by apply Hno.
Qed.

Lemma ok_release cfg scope target req started g r g' : guard_ok g -> 0 < lq_ActorUserID req ->
  (kc_SingleOperatorMode cfg = true -> solo) ->
  release_tx cfg scope target req started g = (r, g') -> guard_ok g'.
Proof.
  intros Hg Hu Hsolo. unfold release_tx. destruct (lockOpenFreeze _ _ true g) as [fr|] eqn:Efr; [|by intros [= _ <-]].
  set (so := signoffFor cfg _ _ _ _ _). destruct (signOff cfg so started g) as [rs g1] eqn:Es.
  destruct (signOff_spec cfg so started g rs g1) as (Hg1 & (Hp & Hf & Hho) & Hres); [done|done|done|].
  destruct rs as [[res [|]]|e]; [|by intros [= _ <-]..]. intros [= _ <-].
  destruct (lockOpenFreeze_spec _ _ _ _ _ Efr) as [(f & Hfin & Hfo & Hfs & Hft & Hfid & Hfk)|(? & _)]; [|done].
  apply (ok_lift so _ _ _ f); try done; [by rewrite Hf| |by apply Hres].
  intros _ Hq. unfold so, signoffFor in *. cbn in *. destruct (kc_SingleOperatorMode cfg); [auto|done].
Qed.

(** ** Statements and events *)

Lemma ok_update id f g b g' : guard_ok g -> (forall p, gp_ID (f p) = gp_ID p) ->
  (forall p, gp_ID p = id -> gp_Status (f p) = StatusActive -> by_hand id \/ gp_Status p = StatusActive) ->
  update_principal id f g = Some (b, g') -> guard_ok g'.
Proof.
  intros Hg Hid Ha. unfold update_principal. destruct (existsb _ _); [|by intros [= _ <-]].
  destruct (held id g) eqn:Eh; [done|]. intros [= _ <-]. apply ok_principals; [done|..]; intros p.
  - destruct (_ && _); [apply Hid|done].
  - destruct ((gp_ID p =s id) && _) eqn:E; [right|by left]. apply andb_prop in E as [->%String.eqb_eq _]. done.
  - destruct (_ && _) eqn:E; [|by right]. apply andb_prop in E as [E%String.eqb_eq _]. rewrite E. by apply Ha.
Qed.

Lemma ok_hold id g : guard_ok g -> guard_ok (hold_row id g).2.
Proof.
  intros Hg. unfold hold_row. destruct (get_principal id g) as [p|] eqn:E; [|done]. cbn.
  apply ok_take_id in Hg as [H1 H2 H3 H4 H5]. split; try done.
  intros h [Hin| ->]%elem_of_snoc; [by apply H4|]. by exists p.
Qed.

Lemma ok_end_hold h g : guard_ok g -> guard_ok (end_hold h g).
Proof.
  intros [H1 H2 H3 H4 H5]. split; try done. intros x [Hx _]%elem_of_filter_in. by apply H4.
Qed.

Lemma ok_exec_done x X (st : stmt X) g r g' : guard_ok g -> stmt_ok X st ->
  exec_done x st g = Some (r, g') -> guard_ok g'.
Proof.
  intros Hg Hok. destruct st; cbn in *; try (by intros [= _ <-]).
  - intros [= _ <-]. apply ok_take_id. destruct Hg. by split.
  - intros [= _ <-]. destruct Hg. by split.
  - destruct (_ <=? _); [|done]. by apply ok_freeze_tx.
  - intros [= _ <-]. destruct Hg. by split.
  - destruct (_ && _) eqn:E; [|done]. apply andb_prop in E as [_ E%negb_true_iff].
    destruct Hok as [Hu Hsolo]. intros [= H]. by eapply ok_unfreeze.
  - destruct (_ <=? _); [|done]. destruct Hok as (Hu & _ & Hsolo). intros [= H]. by eapply ok_release.
  - intros [= H]. pose proof (ok_hold id g Hg) as Hh. by rewrite H in Hh.
  - intros [= _ <-]. by apply ok_end_hold.
  - apply ok_update; [done..|]. intros p _ E. left. by apply Hok.
  - apply ok_update; [done|by intros p; destruct sponsor|]. intros p _. destruct sponsor; cbn; auto.
Qed.

Lemma ok_exec o X (st : stmt X) g r g' : guard_ok g -> stmt_ok X st -> exec o st g = Some (r, g') -> guard_ok g'.
Proof.
  intros Hg Hok. destruct o as [x|applied x f]; cbn.
  - destruct (exec_done x st g) as [[a g1]|] eqn:E; [|done]. intros [= _ <-]. by eapply ok_exec_done.
  - intros [= _ <-]. destruct applied; [|done]. destruct f; [done|].
    destruct (exec_done x st g) as [[a g1]|] eqn:E; [|done]. by eapply ok_exec_done.
Qed.

Lemma get_new id new g : gp_ID new = id ->
  get_principal id g = None -> forall i, get_principal i (g_set_principals (g_Principals g ++ [new]) g) =
  match get_principal i g with Some p => Some p | None => if id =s i then Some new else None end.
Proof.
  intros <- _ i. unfold get_principal. cbn. induction (g_Principals g) as [|p ps IH]; [done|]. cbn.
  by destruct (gp_ID p =s i).
Qed.

Lemma ok_event e g g' : guard_ok g -> happens e g = Some g' -> guard_ok g'.
Proof.
  intros Hg. destruct e as [d|id sponsor|id|id|hold]; cbn.
  - destruct (0 <=? d); [|done]. intros [= <-]. destruct Hg. by split.
  - destruct (get_principal id g) eqn:E; [done|]. intros [= <-]. destruct Hg as [H1 H2 H3 H4 H5].
    pose proof (get_new id {| gp_ID := id; gp_Sponsor := sponsor; gp_Status := StatusActive;
      gp_FrozenReason := ""; gp_UpdatedAt := g_Now g |} g eq_refl E) as Hget.
    split; try done.
    + intros f Hf Ho Hs. destruct (H3 f Hf Ho Hs) as [Hm|(p & Hp & Hst)]; [by left|right].
      exists p. by rewrite Hget, Hp.
    + intros h Hh. destruct (H4 h Hh) as (p & Hp & Hst). exists p. by rewrite Hget, Hp.
  - intros [= <-]. apply ok_take_id. destruct Hg. by split.
  - destruct (held id g) eqn:E; [done|]. intros [= <-]. apply ok_principals; [done|..]; intros p.
    + by destruct (gp_ID p =s id).
    + destruct (gp_ID p =s id) eqn:Ei; [right|by left]. apply String.eqb_eq in Ei as ->. done.
    + destruct (gp_ID p =s id); auto.
  - intros [= <-]. by apply ok_end_hold.
Qed.
End Keeps.

Lemma guard_ok_weaken (P Q : Prop) (by_P by_Q : string -> Prop) g : (P -> Q) -> (forall id, by_P id -> by_Q id) ->
  guard_ok P by_P g -> guard_ok Q by_Q g.
Proof.
  intros HPQ Hby [H1 [B1 B2 B3 B4] H3 H4 H5]. split; [done| | |done..].
  - split; [done..|]. intros f Hf Ho Hg. destruct (B4 f Hf Ho Hg) as [H|[HP H]]; [by left|right].
    split; [by apply HPQ|done].
  - intros f Hf Ho Hs. destruct (H3 f Hf Ho Hs) as [H|H]; [left; by apply Hby|by right].
Qed.

(** ** Holds

    A hold is there until its transaction ends, under an id of its own. *)

Record holds_ok (g : Guard) : Prop := {
  hk_next : forall h, h ∈ g_Holds g -> ho_ID h < g_Next g;
  hk_ids : forall h h', h ∈ g_Holds g -> h' ∈ g_Holds g -> ho_ID h = ho_ID h' -> h = h';
}.

(** No new hold, and no id back. *)
Record fewer_holds (g g' : Guard) : Prop := {
  fh_holds : forall h, h ∈ g_Holds g' -> h ∈ g_Holds g;
  fh_next : g_Next g <= g_Next g';
}.

Lemma fewer_refl g : fewer_holds g g.
Proof. by split. Qed.

Lemma fewer_trans g1 g2 g3 : fewer_holds g1 g2 -> fewer_holds g2 g3 -> fewer_holds g1 g3.
Proof. intros [A1 A2] [B1 B2]. split; [auto|lia]. Qed.

Lemma fewer_ok g g' : fewer_holds g g' -> holds_ok g -> holds_ok g'.
Proof. intros [A1 A2] [B1 B2]. split; [|auto]. intros h Hh%A1%B1. lia. Qed.

Lemma fewer_upsert m started scope target g : fewer_holds g (upsert_freeze m started scope target g).
Proof. split; [done|]. cbn. lia. Qed.

Lemma fewer_upserts m started ids g :
  fewer_holds g (foldl (fun g id => upsert_freeze m started ScopePrincipal id g) g ids).
Proof.
  revert g. induction ids as [|id ids IH]; intros g; [done|]. cbn [foldl].
  eapply fewer_trans; [apply fewer_upsert|apply IH].
Qed.

Lemma fewer_writeFreeze m ids started g : fewer_holds g (writeFreeze m ids started g).
Proof.
  unfold writeFreeze. set (w := fun p => if existsb _ ids then _ else p).
  pose proof (fewer_upserts m started ids (g_set_principals (map w (g_Principals g)) g)) as [A1 A2].
  destruct (fm_flagScope m <>s ""); (split; [exact A1|]; cbn in A2 |- *; lia).
Qed.

Lemma fewer_signOff cfg so started g : fewer_holds g (signOff cfg so started g).2.
Proof.
  unfold signOff, pendingRequest. destruct (_ && _); [done|]. destruct (_ || _); [done|].
  destruct (List.find _ _) as [p|].
  - destruct (_ <=? _); [split; cbn; [done|lia]|].
    destruct (_ =? _); [done|]. by case_bool_decide.
  - split; cbn; [done|lia].
Qed.

Lemma fewer_lift so rid started g : fewer_holds g (liftFreeze so rid started g).
Proof. unfold liftFreeze. destruct (_ =? 0); [done|]. by destruct (0 <? rid). Qed.

Lemma fewer_unfreeze cfg rc p req plan applies started g :
  fewer_holds g (unfreezeInTx cfg rc p req plan applies started g).2.
Proof.
  unfold unfreezeInTx. destruct (get_principal _ g); [|done]. destruct (_ <>s _); [done|].
  destruct (lockOpenFreeze _ _ _ _) as [fr|]; [|done].
  pose proof (fewer_signOff cfg (signoffFor cfg fr (gp_Sponsor p) (uq_Reason req) (uq_Actor req) (uq_ActorUserID req))
    started g) as Hs. destruct (signOff _ _ _ _) as [[[res [|]]|e] g1]; [|done..].
  destruct (run_plan _ _ _); [|done]. eapply fewer_trans; [exact Hs|].
  cbn [snd]. eapply fewer_trans; [apply fewer_lift|].
  split; [exact (fun h H => H)|exact (Z.le_refl _)].
Qed.

Lemma fewer_release cfg scope target req started g :
  fewer_holds g (release_tx cfg scope target req started g).2.
Proof.
  unfold release_tx. destruct (lockOpenFreeze _ _ _ _) as [fr|]; [|done].
  set (so := signoffFor cfg _ _ _ _ _). pose proof (fewer_signOff cfg so started g) as Hs.
  destruct (signOff _ _ _ _) as [[[res [|]]|e] g1]; [|done..].
  cbn [snd] in *. eapply fewer_trans; [exact Hs|apply fewer_lift].
Qed.

Lemma fewer_update id f g b g' : update_principal id f g = Some (b, g') -> fewer_holds g g'.
Proof.
  unfold update_principal. destruct (existsb _ _); [|by intros [= _ <-]]. destruct (held id g); [done|].
  by intros [= _ <-].
Qed.

(** Only reading a row to hold it makes a hold, a new one. *)
Lemma exec_done_holds x X (st : stmt X) g r g' : exec_done x st g = Some (r, g') ->
  match st with HoldRow _ => True | _ => fewer_holds g g' end.
Proof.
  destruct st; cbn; try (by intros [= _ <-]); try (by intros [= _ <-]; split; cbn; [done|lia]); try done.
  - destruct (_ <=? _); [|done]. unfold freeze_tx. destruct (existsb _ _); [done|]. intros [= _ <-].
    apply fewer_writeFreeze.
  - destruct (_ && _); [|done]. intros [= H].
    pose proof (fewer_unfreeze cfg rc p req plan (x_applies x) (x_started x) g) as Hf. by rewrite H in Hf.
  - destruct (_ <=? _); [|done]. intros [= H].
    pose proof (fewer_release cfg scope target req (x_started x) g) as Hf. by rewrite H in Hf.
  - intros [= _ <-]. split; [|done]. by intros h [Hh _]%elem_of_filter_in.
  - apply fewer_update.
  - apply fewer_update.
Qed.

Lemma hold_row_ok id g : holds_ok g -> holds_ok (hold_row id g).2.
Proof.
  intros [A1 A2]. unfold hold_row. destruct (get_principal id g) as [p|]; [|done]. cbn. split; cbn.
  - intros h [Hh| ->]%elem_of_snoc; [specialize (A1 h Hh)|cbn]; lia.
  - intros h h' [Hh| ->]%elem_of_snoc [Hh'| ->]%elem_of_snoc E; try done; [by apply A2|..]; cbn in E;
      [specialize (A1 h Hh)|specialize (A1 h' Hh')]; lia.
Qed.

Lemma exec_holds_ok o X (st : stmt X) g r g' : holds_ok g -> exec o st g = Some (r, g') -> holds_ok g'.
Proof.
  intros Hg. assert (Hdone : forall x a g1, exec_done x st g = Some (a, g1) -> holds_ok g1).
  { intros x a g1 E. pose proof (exec_done_holds x X st g a g1 E) as Hf.
    destruct st; try by eapply fewer_ok. injection E as Eh. pose proof (hold_row_ok id g Hg) as Hk.
    by rewrite Eh in Hk. }
  destruct o as [x|applied x f]; cbn.
  - destruct (exec_done x st g) as [[a g1]|] eqn:E; [|done]. intros [= _ <-]. by eapply Hdone.
  - intros [= _ <-]. destruct applied; [|done]. destruct f; [done|].
    destruct (exec_done x st g) as [[a g1]|] eqn:E; [|done]. by eapply Hdone.
Qed.

(** A hold that was there is there as it was, or gone for good. *)
Definition hold_is (h : Z) (id : string) (s : Status) (g : Guard) : Prop :=
  h < g_Next g /\ forall x, x ∈ g_Holds g -> ho_ID x = h -> ho_Principal x = id /\ ho_Status x = s.

Lemma fewer_hold_is h id s g g' : fewer_holds g g' -> hold_is h id s g -> hold_is h id s g'.
Proof. intros [A1 A2] [B1 B2]. split; [lia|auto]. Qed.

Lemma hold_row_is h id s i g : hold_is h id s g -> hold_is h id s (hold_row i g).2.
Proof.
  intros [B1 B2]. unfold hold_row. destruct (get_principal i g) as [p|]; [|done]. cbn. split; cbn; [lia|].
  intros x [Hx| ->]%elem_of_snoc E; [by apply B2|]. cbn in E. lia.
Qed.

Lemma exec_hold_is o X (st : stmt X) h id s g r g' : hold_is h id s g -> exec o st g = Some (r, g') ->
  hold_is h id s g'.
Proof.
  intros Hg. assert (Hdone : forall x a g1, exec_done x st g = Some (a, g1) -> hold_is h id s g1).
  { intros x a g1 E. pose proof (exec_done_holds x X st g a g1 E) as Hf.
    destruct st; try by eapply fewer_hold_is. injection E as Eh. pose proof (hold_row_is h id s id0 g Hg) as Hk.
    by rewrite Eh in Hk. }
  destruct o as [x|applied x f]; cbn.
  - destruct (exec_done x st g) as [[a g1]|] eqn:E; [|done]. intros [= _ <-]. by eapply Hdone.
  - intros [= _ <-]. destruct applied; [|done]. destruct f; [done|].
    destruct (exec_done x st g) as [[a g1]|] eqn:E; [|done]. by eapply Hdone.
Qed.

(** What a change is told it holds. *)
Lemma exec_HoldRow o id g h s g' : holds_ok g -> exec o (HoldRow id) g = Some (inl (Some (h, s)), g') ->
  hold_is h id s g'.
Proof.
  intros [A1 A2]. destruct o as [x|]; [|done]. cbn. unfold hold_row.
  destruct (get_principal id g) as [p|]; [|done]. intros [= <- <- <-]. split; cbn; [lia|].
  intros y [Hy| ->]%elem_of_snoc E; [|done]. specialize (A1 y Hy). lia.
Qed.

Lemma event_fewer e g g' : happens e g = Some g' -> fewer_holds g g'.
Proof.
  destruct e as [d|id sponsor|id|id|hold]; cbn.
  - destruct (0 <=? d); [|done]. by intros [= <-].
  - destruct (get_principal id g); [done|]. by intros [= <-].
  - intros [= <-]. split; cbn; [done|lia].
  - destruct (held id g); [done|]. by intros [= <-].
  - intros [= <-]. split; [|done]. by intros h [Hh _]%elem_of_filter_in.
Qed.
