(* ===== verification/PrincipalStore.v ===== *)
(** * The principal store

    internal/agentguard: store.go and store_update.go.  The operations of the store as
    programs of their statements, over the tables of the control database: the
    principals, their sponsors' users, their taint, and the bindings and owners the
    principals files keep (internal/schema/audit_chain_migration.go). *)

From S2P Require Import Prelude.
From S2P Require Import GoStd.
From S2P Require Import Principal.
From S2P Require Import Guard.
From S2P Require Export Interleave.

Open Scope go_scope.

(** ** Requests *)

Definition maxTenantLen : Z := 200.
Definition maxSourceLen : Z := 2000.
Definition defaultLimit : Z := 50.
Definition maxLimit : Z := 200.

(** [^[a-z][a-z0-9_-]{0,99}$] *)
Definition profilePattern (s : string) : bool :=
  match s with
  | EmptyString => false
  | String c rest =>
      is_lower c && (String.length rest <=? 99)%nat &&
      forallb (fun d => is_slug d || (code d =? 95)) (str_chars rest)
  end.

Record CreateRequest : Type := {
  cq_Name : string;
  cq_SponsorUserID : option Z;
  cq_Tenant : string;
  cq_Profile : string;
  cq_EnvCeiling : Env;
  cq_CreatedBy : string;
}.

(** A failing statement: a constraint of the tables, or anything else. *)
Inductive failed : Type :=
| UniqueName
| UniqueBinding
| SponsorKey
| PrincipalKey
| OtherFault (e : error).

(** The store's errors: those of agentguard, and what [mapWriteError] makes of a
    failed write. *)
Inductive StoreError : Type :=
| Guarded (e : GuardError)
| ErrDuplicateName (what : error)
| ErrSponsorNotFound (what : error)
| Faulted (what : error) (f : failed).

Definition invalid (msg : error) : StoreError := Guarded (ErrInvalid msg).

Definition bad_sponsor (s : option Z) : bool := match s with Some id => id <=? 0 | None => false end.

Definition normalize (r : CreateRequest) : CreateRequest + StoreError :=
  let r := {| cq_Name := cq_Name r; cq_SponsorUserID := cq_SponsorUserID r; cq_Tenant := cq_Tenant r;
              cq_Profile := cq_Profile r;
              cq_EnvCeiling := if cq_EnvCeiling r =s "" then EnvDev else cq_EnvCeiling r;
              cq_CreatedBy := cq_CreatedBy r |} in
  if negb (ValidName (cq_Name r)) then inr (invalid "name must match ^[a-z][a-z0-9-]{1,62}$") else
  if bad_sponsor (cq_SponsorUserID r) then inr (invalid "sponsor_user_id must be a positive user id") else
  if negb (profilePattern (cq_Profile r)) then inr (invalid "profile must be a profile name") else
  if negb (Env_Valid (cq_EnvCeiling r)) then inr (invalid "env_ceiling must be branch, dev, stage or prod") else
  match first_bad [checkText "tenant" (cq_Tenant r) 0 maxTenantLen; checkText "created_by" (cq_CreatedBy r) 1 maxActorLen] with
  | Some e => inr (Guarded e)
  | None => inl r
  end.

Record ListOptions : Type := { lo_Limit : Z; lo_Cursor : string; lo_Status : Status }.
Record Page : Type := { pg_Items : list Principal; pg_NextCursor : string }.

Record Patch : Type := {
  pt_SponsorUserID : option Z;
  pt_Profile : option string;
  pt_EnvCeiling : option Env;
}.

Definition Patch_Widens (patch : Patch) (p : Principal) : bool :=
  match pt_EnvCeiling patch with Some e => Env_Rank (p_EnvCeiling p) <? Env_Rank e | None => false end ||
  match pt_Profile patch with Some s => s <>s p_Profile p | None => false end.

Definition Patch_validate (patch : Patch) : option StoreError :=
  if bad_sponsor (pt_SponsorUserID patch) then Some (invalid "sponsor_user_id must be a positive user id") else
  if match pt_Profile patch with Some s => negb (profilePattern s) | None => false end
  then Some (invalid "profile must be a profile name") else
  if match pt_EnvCeiling patch with Some e => negb (Env_Valid e) | None => false end
  then Some (invalid "env_ceiling must be branch, dev, stage or prod") else None.

(** ** Statements *)

(** An external identity, and what [extrasSQL] reads. *)
Record Identity : Type := { id_Issuer : string; id_Subject : string }.

Record extras : Type := {
  ex_emails : gmap Z string;
  ex_owners : gmap string string;
  ex_identities : gmap string (list Identity);
}.

Inductive stmt : Type -> Type :=
| RandomID : stmt string
| InsertPrincipal (id : string) (req : CreateRequest) : stmt unit
| SelectID (id : string) : stmt (option Principal)
| SelectName (name : string) : stmt (option Principal)
| SelectPage (after : string) (status : Status) (limit : Z) : stmt (list Principal)
| UpdateRow (id : string) (patch : Patch) : stmt bool
| StatusRow (id : string) (to : Status) (reason : string) : stmt bool
| InsertTaint (id task source : string) : stmt unit
| ClearTaints (id by_ : string) : stmt Z
| SelectExtras : stmt extras
| SelectUser (email : string) : stmt (option Z)
| UpsertOwner (id file actor : string) : stmt unit
| InsertBinding (id : string) (ident : Identity) : stmt unit
| DeleteBinding (id : string) (ident : Identity) : stmt unit.

Abbreviation prog := (Interleave.prog stmt failed).

(** ** Operations: store.go and store_update.go *)

Section Store.
(** Whether the store has a pool. *)
Context (pool : bool).

Definition unavailable : StoreError := Guarded ErrUnavailable.

Definition loaded (r : option Principal + failed) : Principal + StoreError :=
  match r with
  | inl (Some p) => inl p
  | inl None => inr (Guarded ErrNotFound)
  | inr f => inr (Faulted "loading principal" f)
  end.

Definition Get (id : string) : prog (Principal + StoreError) :=
  if negb (ValidID id) then Ret (inr (Guarded ErrNotFound)) else
  if negb pool then Ret (inr unavailable) else
  do~ r := SelectID id in Ret (loaded r).

Definition GetByName (name : string) : prog (Principal + StoreError) :=
  if negb (ValidName name) then Ret (inr (Guarded ErrNotFound)) else
  if negb pool then Ret (inr unavailable) else
  do~ r := SelectName name in Ret (loaded r).

Definition mapWriteError (f : failed) (what : error) : StoreError :=
  match f with
  | UniqueName => ErrDuplicateName what
  | SponsorKey => ErrSponsorNotFound what
  | _ => Faulted what f
  end.

Definition Create (req : CreateRequest) : prog (Principal + StoreError) :=
  match normalize req with
  | inr e => Ret (inr e)
  | inl req =>
      if negb pool then Ret (inr unavailable) else
      do~ id := RandomID in
      match id with
      | inr f => Ret (inr (Faulted "random id" f))
      | inl id =>
          do~ r := InsertPrincipal id req in
          match r with
          | inr f => Ret (inr (mapWriteError f ("creating principal " +:+ cq_Name req)))
          | inl _ => Get id
          end
      end
  end.

Definition List (opts : ListOptions) : prog (Page + StoreError) :=
  let limit := if lo_Limit opts =? 0 then defaultLimit else lo_Limit opts in
  if (limit <? 0) || (maxLimit <? limit) then Ret (inr (invalid "limit must be 1 to 200")) else
  if (lo_Status opts <>s "") && negb (Status_Valid (lo_Status opts))
  then Ret (inr (invalid "status is not a principal status")) else
  if (lo_Cursor opts <>s "") && negb (ValidName (lo_Cursor opts))
  then Ret (inr (invalid "cursor is not valid")) else
  if negb pool then Ret (inr unavailable) else
  do~ r := SelectPage (lo_Cursor opts) (lo_Status opts) (limit + 1) in
  Ret match r with
      | inr f => inr (Faulted "listing principals" f)
      | inl items =>
          if limit <? Z.of_nat (length items)
          then let items := take (Z.to_nat limit) items in
               inl {| pg_Items := items; pg_NextCursor := match last items with Some p => p_Name p | None => "" end |}
          else inl {| pg_Items := items; pg_NextCursor := "" |}
      end.

(** One [UPDATE ... RETURNING id], and the principal again. *)
Definition mutate (id : string) (what : error) (update : stmt bool) : prog (Principal + StoreError) :=
  if negb (ValidID id) then Ret (inr (Guarded ErrNotFound)) else
  if negb pool then Ret (inr unavailable) else
  do~ r := update in
  match r with
  | inl true => Get id
  | inl false =>
      do* again := Get id in
      Ret match again with inl _ => inr (Guarded ErrRetired) | inr e => inr e end
  | inr f => Ret (inr (mapWriteError f (what +:+ " principal " +:+ id)))
  end.

Definition Update (id : string) (patch : Patch) : prog (Principal + StoreError) :=
  match Patch_validate patch with
  | Some e => Ret (inr e)
  | None => mutate id "updating" (UpdateRow id patch)
  end.

Definition SetStatus (id : string) (to : Status) (reason : string) : prog (Principal + StoreError) :=
  if negb (Status_Valid to) then Ret (inr (invalid "status is not a principal status")) else
  match checkText "reason" reason 0 maxReasonLen with
  | Some e => Ret (inr (Guarded e))
  | None => mutate id "setting status of" (StatusRow id to reason)
  end.

Definition Taint (id taskID source : string) : prog (option StoreError) :=
  let taskID := if taskID =s "" then "*" else taskID in
  match first_bad [checkText "source" source 1 maxSourceLen; checkText "task_id" taskID 1 maxActorLen] with
  | Some e => Ret (Some (Guarded e))
  | None =>
      if negb (ValidID id) then Ret (Some (Guarded ErrNotFound)) else
      if negb pool then Ret (Some unavailable) else
      do~ r := InsertTaint id taskID source in
      Ret match r with
          | inl _ => None
          | inr PrincipalKey => Some (Guarded ErrNotFound)
          | inr f => Some (Faulted ("tainting principal " +:+ id) f)
          end
  end.

Definition ClearTaint (id by_ : string) : prog (Z + StoreError) :=
  match checkText "cleared_by" by_ 1 maxActorLen with
  | Some e => Ret (inr (Guarded e))
  | None =>
      if negb (ValidID id) then Ret (inr (Guarded ErrNotFound)) else
      if negb pool then Ret (inr unavailable) else
      do~ r := ClearTaints id by_ in
      Ret match r with inl n => inl n | inr f => inr (Faulted ("clearing taint of " +:+ id) f) end
  end.
End Store.

(** ** The tables *)

#[global] Instance Identity_eq_dec : EqDecision Identity.
Proof. solve_decision. Defined.
#[global] Instance Identity_countable : Countable Identity.
Proof.
  refine (inj_countable' (fun i => (id_Issuer i, id_Subject i)) (fun p => {| id_Issuer := p.1; id_Subject := p.2 |}) _).
  by intros [].
Defined.

(** [ta_Taints]: by principal, task and source, whether it is open. *)
Record Tables : Type := {
  ta_Now : Time;
  ta_Users : gmap Z string;
  ta_Principals : gmap string Principal;
  ta_Taints : gmap (string * string * string) bool;
  ta_Owners : gmap string string;
  ta_Bindings : gmap Identity string;
}.

Definition set_Principals (m : gmap string Principal) (w : Tables) : Tables :=
  {| ta_Now := ta_Now w; ta_Users := ta_Users w; ta_Principals := m; ta_Taints := ta_Taints w;
     ta_Owners := ta_Owners w; ta_Bindings := ta_Bindings w |}.
Definition set_Taints (m : gmap (string * string * string) bool) (w : Tables) : Tables :=
  {| ta_Now := ta_Now w; ta_Users := ta_Users w; ta_Principals := ta_Principals w; ta_Taints := m;
     ta_Owners := ta_Owners w; ta_Bindings := ta_Bindings w |}.
Definition set_Owners (m : gmap string string) (w : Tables) : Tables :=
  {| ta_Now := ta_Now w; ta_Users := ta_Users w; ta_Principals := ta_Principals w; ta_Taints := ta_Taints w;
     ta_Owners := m; ta_Bindings := ta_Bindings w |}.
Definition set_Bindings (m : gmap Identity string) (w : Tables) : Tables :=
  {| ta_Now := ta_Now w; ta_Users := ta_Users w; ta_Principals := ta_Principals w; ta_Taints := ta_Taints w;
     ta_Owners := ta_Owners w; ta_Bindings := m |}.

(** A row as [principalColumns] reads it, with its sponsor and taint. *)
Definition tainted (id : string) (w : Tables) : bool :=
  existsb (fun t => (t.1.1.1 =s id) && t.2) (map_to_list (ta_Taints w)).

Definition scanPrincipal (w : Tables) (p : Principal) : Principal :=
  {| p_ID := p_ID p; p_Name := p_Name p; p_SponsorUserID := p_SponsorUserID p; p_Tenant := p_Tenant p;
     p_Profile := p_Profile p; p_EnvCeiling := p_EnvCeiling p; p_Status := p_Status p;
     p_FrozenReason := p_FrozenReason p; p_CreatedBy := p_CreatedBy p; p_CreatedAt := p_CreatedAt p;
     p_UpdatedAt := p_UpdatedAt p;
     p_SponsorActive := match p_SponsorUserID p with
                        | Some u => bool_decide (is_Some (ta_Users w !! u))
                        | None => false
                        end;
     p_Tainted := tainted (p_ID p) w |}.

(** A sort by a text key, compared byte by byte. *)
Fixpoint insert_by {A} (key : A -> string) (x : A) (l : list A) : list A :=
  match l with
  | [] => [x]
  | y :: l' => if String.leb (key x) (key y) then x :: l else y :: insert_by key x l'
  end.
Definition sort_by {A} (key : A -> string) (l : list A) : list A := foldr (insert_by key) [] l.

(** [ORDER BY p.name] *)
Definition by_name (w : Tables) : list Principal := sort_by p_Name (map snd (map_to_list (ta_Principals w))).

Definition named (name : string) (w : Tables) : option Principal :=
  List.find (fun p => p_Name p =s name) (by_name w).

Definition new_principal (id : string) (r : CreateRequest) (now : Time) : Principal :=
  {| p_ID := id; p_Name := cq_Name r; p_SponsorUserID := cq_SponsorUserID r; p_Tenant := cq_Tenant r;
     p_Profile := cq_Profile r; p_EnvCeiling := cq_EnvCeiling r; p_Status := StatusActive; p_FrozenReason := "";
     p_CreatedBy := cq_CreatedBy r; p_CreatedAt := now; p_UpdatedAt := now; p_SponsorActive := false;
     p_Tainted := false |}.

Definition patched (patch : Patch) (now : Time) (p : Principal) : Principal :=
  {| p_ID := p_ID p; p_Name := p_Name p;
     p_SponsorUserID := match pt_SponsorUserID patch with Some u => Some u | None => p_SponsorUserID p end;
     p_Tenant := p_Tenant p; p_Profile := default (p_Profile p) (pt_Profile patch);
     p_EnvCeiling := default (p_EnvCeiling p) (pt_EnvCeiling patch); p_Status := p_Status p;
     p_FrozenReason := p_FrozenReason p; p_CreatedBy := p_CreatedBy p; p_CreatedAt := p_CreatedAt p;
     p_UpdatedAt := now; p_SponsorActive := p_SponsorActive p; p_Tainted := p_Tainted p |}.

Definition with_status (to : Status) (reason : string) (now : Time) (p : Principal) : Principal :=
  {| p_ID := p_ID p; p_Name := p_Name p; p_SponsorUserID := p_SponsorUserID p; p_Tenant := p_Tenant p;
     p_Profile := p_Profile p; p_EnvCeiling := p_EnvCeiling p; p_Status := to;
     p_FrozenReason := if to =s StatusFrozen then reason else ""; p_CreatedBy := p_CreatedBy p;
     p_CreatedAt := p_CreatedAt p; p_UpdatedAt := now; p_SponsorActive := p_SponsorActive p;
     p_Tainted := p_Tainted p |}.

(** A sponsor the foreign key accepts. *)
Definition sponsor_exists (w : Tables) (s : option Z) : bool :=
  match s with Some u => bool_decide (is_Some (ta_Users w !! u)) | None => true end.

(** Rows that are not retired are updated; a taint that is open stays as it is. *)
Definition update_row (f : Principal -> Principal) (id : string) (w : Tables) : bool * Tables :=
  match ta_Principals w !! id with
  | Some p => if p_Status p =s StatusRetired then (false, w) else (true, set_Principals (<[id := f p]> (ta_Principals w)) w)
  | None => (false, w)
  end.

Definition find_user (email : string) (w : Tables) : option Z :=
  option_map fst (List.find (fun u => u.2 =s email) (map_to_list (ta_Users w))).

Definition identities_of (w : Tables) (id : string) : list Identity :=
  map fst (List.filter (fun b => b.2 =s id) (map_to_list (ta_Bindings w))).

(** The rows of [extrasSQL]: the emails of sponsors, the owners and the identities. *)
Definition extras_of (w : Tables) : extras :=
  {| ex_emails := filter (fun u => Exists (fun p => p_SponsorUserID p = Some u.1) (by_name w)) (ta_Users w);
     ex_owners := ta_Owners w;
     ex_identities := list_to_map (map (fun id => (id, identities_of w id)) (map snd (map_to_list (ta_Bindings w)))) |}.

(** ** What a statement does *)

(** The random bytes. *)
Record Answers : Type := { x_read : nat -> result (list Z) }.

Inductive fate : Type :=
| Done (x : Answers)
| Fails (applied : bool) (x : Answers) (e : error).

Definition check_violated : failed := OtherFault "new row for relation violates check constraint".

Definition exec_done (x : Answers) {X} (st : stmt X) (w : Tables) : (X + failed) * Tables :=
  match st in stmt X return (X + failed) * Tables with
  | RandomID => (match NewID (x_read x) with Ok id => inl id | Err e => inr (OtherFault e) end, w)
  | InsertPrincipal id req =>
      if negb (ValidID id && ValidName (cq_Name req)) then (inr check_violated, w) else
      if existsb (fun p => p_Name p =s cq_Name req) (by_name w) then (inr UniqueName, w) else
      if negb (sponsor_exists w (cq_SponsorUserID req)) then (inr SponsorKey, w) else
      match ta_Principals w !! id with
      | Some _ => (inr (OtherFault "duplicate key value violates unique constraint"), w)
      | None => (inl tt, set_Principals (<[id := new_principal id req (ta_Now w)]> (ta_Principals w)) w)
      end
  | SelectID id => (inl (scanPrincipal w <$> ta_Principals w !! id), w)
  | SelectName name => (inl (scanPrincipal w <$> named name w), w)
  | SelectPage after status limit =>
      (inl (map (scanPrincipal w) (take (Z.to_nat limit)
         (List.filter (fun p => String.ltb after (p_Name p) && ((status =s "") || (p_Status p =s status))) (by_name w)))), w)
  | UpdateRow id patch =>
      if sponsor_exists w (pt_SponsorUserID patch)
      then let '(r, w') := update_row (patched patch (ta_Now w)) id w in (inl r, w')
      else (inr SponsorKey, w)
  | StatusRow id to reason =>
      let '(r, w') := update_row (with_status to reason (ta_Now w)) id w in (inl r, w')
  | InsertTaint id task source =>
      match ta_Principals w !! id with
      | Some _ => (inl tt, set_Taints (<[(id, task, source) := true]> (ta_Taints w)) w)
      | None => (inr PrincipalKey, w)
      end
  | ClearTaints id by_ =>
      (inl (Z.of_nat (length (List.filter (fun t => (t.1.1.1 =s id) && t.2) (map_to_list (ta_Taints w))))),
       set_Taints (map_imap (fun k open => Some (if k.1.1 =s id then false else open)) (ta_Taints w)) w)
  | SelectExtras => (inl (extras_of w), w)
  | SelectUser email => (inl (find_user email w), w)
  | UpsertOwner id file actor =>
      match ta_Principals w !! id with
      | Some _ =>
          if ValidName file then (inl tt, set_Owners (<[id := file]> (ta_Owners w)) w)
          else (inr check_violated, w)
      | None => (inr PrincipalKey, w)
      end
  | InsertBinding id ident =>
      match ta_Principals w !! id, ta_Bindings w !! ident with
      | None, _ => (inr PrincipalKey, w)
      | _, Some _ => (inr UniqueBinding, w)
      | Some _, None => (inl tt, set_Bindings (<[ident := id]> (ta_Bindings w)) w)
      end
  | DeleteBinding id ident =>
      (inl tt, if bool_decide (ta_Bindings w !! ident = Some id)
               then set_Bindings (delete ident (ta_Bindings w)) w else w)
  end.

(** What fails may have been carried out. *)
Definition exec (f : fate) {X} (st : stmt X) (w : Tables) : option ((X + failed) * Tables) :=
  match f with
  | Done x => Some (exec_done x st w)
  | Fails applied x e => Some (inr (OtherFault e), if applied then (exec_done x st w).2 else w)
  end.
