(* ===== verification/PrincipalFile.v ===== *)
(** * Principals files

    internal/principalfile: file.go (the declarative file), plan.go (what applying it
    would change) and apply.go (applying a plan that is not stale).  The backend and
    the catalog are interfaces: a [bcall] is one use of them, and planning and
    applying are programs of calls. *)

From S2P Require Import Prelude.
From S2P Require Import GoStd.
From S2P Require Import Sha256.
From S2P Require Principal.
From S2P Require Guard.
From S2P Require Import PrincipalStore.

Open Scope go_scope.

(** ** The file: file.go *)

Definition APIVersion : string := "pg_sage/v1".
Definition Kind : string := "AgentPrincipals".

Definition slug (s : string) : bool := Principal.ValidName s.

(** How much an environment exposes. *)
Definition envRank : gmap string Z := list_to_map [("branch", 0); ("dev", 1); ("stage", 2); ("prod", 3)].
Definition rank (env : string) : Z := default 0 (envRank !! env).

(** A nil slice is [None]. *)
Record PrincipalSpec : Type := {
  sp_Name : string;
  sp_Sponsor : string;
  sp_Profile : string;
  sp_EnvCeiling : string;
  sp_Tenant : string;
  sp_Status : string;
  sp_Identities : option (list Identity);
}.

(** [fi_Reserved]: profiles or envelopes are set. *)
Record File : Type := {
  fi_APIVersion : string;
  fi_Kind : string;
  fi_Name : string;
  fi_Prune : bool;
  fi_Principals : option (list PrincipalSpec);
  fi_Reserved : bool;
}.

Definition specs (f : File) : list PrincipalSpec := default [] (fi_Principals f).
Definition idents (p : PrincipalSpec) : list Identity := default [] (sp_Identities p).

Definition with_defaults (p : PrincipalSpec) : PrincipalSpec :=
  {| sp_Name := sp_Name p; sp_Sponsor := sp_Sponsor p; sp_Profile := sp_Profile p;
     sp_EnvCeiling := if sp_EnvCeiling p =s "" then "dev" else sp_EnvCeiling p; sp_Tenant := sp_Tenant p;
     sp_Status := if sp_Status p =s "" then "active" else sp_Status p; sp_Identities := sp_Identities p |}.

Definition of_ident (i : Identity) : string := id_Issuer i +:+ "|" +:+ id_Subject i.

Section Validate.
(** Whether [url.Parse] takes an issuer for an https URL with a host. *)
Context (https_url : string -> bool).

Definition validate_identity (id : Identity) : list error :=
  (if https_url (id_Issuer id) then [] else ["identity issuer " +:+ quote (id_Issuer id) +:+ " must be an https URL"]) ++
  (if (id_Subject id =s "") || (255 <? Z.of_nat (String.length (id_Subject id)))
   then ["identity subject must be 1-255 characters"] else []).

Definition validate_spec (p : PrincipalSpec) : list error :=
  map (fun e => "principal " +:+ quote (sp_Name p) +:+ ": " +:+ e)
    ((if slug (sp_Name p) then [] else ["name must match ^[a-z][a-z0-9-]{1,62}$"]) ++
     (if sp_Profile p =s "" then ["profile is required"] else []) ++
     (match envRank !! sp_EnvCeiling p with
      | Some _ => []
      | None => ["env_ceiling " +:+ quote (sp_EnvCeiling p) +:+ " must be branch, dev, stage or prod"]
      end) ++
     (if (sp_Status p <>s "active") && (sp_Status p <>s "frozen")
      then ["status " +:+ quote (sp_Status p) +:+ " must be active or frozen (retire by removing it, with prune)"]
      else []) ++
     concat (map validate_identity (idents p))).

(** An identity is bound once; [owners] says where so far. *)
Fixpoint bound_twice (name : string) (owners : gmap Identity string) (ids : list Identity)
    : list error * gmap Identity string :=
  match ids with
  | [] => ([], owners)
  | id :: rest =>
      let '(errs, owners') := bound_twice name (<[id := name]> owners) rest in
      (match owners !! id with
       | Some owner => ["identity " +:+ of_ident id +:+ " is bound to both " +:+ quote owner +:+ " and " +:+ quote name]
       | None => []
       end ++ errs, owners')
  end.

Fixpoint validate_specs (names : list string) (owners : gmap Identity string) (ps : list PrincipalSpec) : list error :=
  match ps with
  | [] => []
  | p :: rest =>
      let '(twice, owners) := bound_twice (sp_Name p) owners (idents p) in
      validate_spec p ++
      (if existsb (String.eqb (sp_Name p)) names then ["principal " +:+ quote (sp_Name p) +:+ " is declared twice"] else []) ++
      twice ++ validate_specs (sp_Name p :: names) owners rest
  end.

Definition validate_errors (f : File) : list error :=
  (if (fi_APIVersion f <>s APIVersion) || (fi_Kind f <>s Kind)
   then ["apiVersion/kind must be " +:+ APIVersion +:+ "/" +:+ Kind +:+ ", got " +:+ quote (fi_APIVersion f) +:+ "/" +:+
         quote (fi_Kind f)] else []) ++
  (if slug (fi_Name f) then [] else ["metadata.name " +:+ quote (fi_Name f) +:+ " must match ^[a-z][a-z0-9-]{1,62}$"]) ++
  (if fi_Reserved f then ["spec.profiles and spec.envelopes are not supported until G2; declare profiles in agents.profiles"]
   else []) ++
  validate_specs [] ∅ (specs f).

(** [errors.Join] *)
Definition join (errs : list error) : error := String.concat (String (of_code 10) "") errs.

Definition validate (f : File) : option error :=
  match validate_errors f with [] => None | errs => Some ("principals file: " +:+ join errs) end.

(** [Parse] of what the YAML decoder read: the document, and whether another follows. *)
Definition Parse (decoded : File + error) (more : bool) : File + error :=
  match decoded with
  | inr e => inr ("principals file: " +:+ e)
  | inl f =>
      if more then inr "principals file: must hold exactly one YAML document" else
      let f := {| fi_APIVersion := fi_APIVersion f; fi_Kind := fi_Kind f; fi_Name := fi_Name f; fi_Prune := fi_Prune f;
                  fi_Principals := option_map (map with_defaults) (fi_Principals f); fi_Reserved := fi_Reserved f |} in
      match validate f with Some e => inr e | None => inl f end
  end.
End Validate.

(** ** The interfaces: plan.go *)

Record Principal : Type := {
  fp_ID : string;
  fp_Name : string;
  fp_Sponsor : string;
  fp_Profile : string;
  fp_EnvCeiling : string;
  fp_Tenant : string;
  fp_Status : string;
  fp_ManagedBy : string;
  fp_CreatedBy : string;
  fp_Identities : list Identity;
}.

Inductive Op : Type := OpCreate | OpAdopt | OpUpdate | OpFreeze | OpUnfreeze | OpRetire | OpBind | OpUnbind.

Record Change : Type := {
  ch_Op : Op;
  ch_Principal : string;
  ch_Field : string;
  ch_From : string;
  ch_To : string;
  ch_Identity : option Identity;
  ch_Widening : bool;
}.

(** The backend's operations, and the catalog's look-up of a user. *)
Inductive bcall : Type -> Type :=
| BList : bcall (list Principal)
| BCreate (p : Principal) : bcall string
| BUpdate (id : string) (c : Change) : bcall unit
| BBind (id : string) (ident : Identity) : bcall unit
| BUnbind (id : string) (ident : Identity) : bcall unit
| BUserExists (sponsor : string) : bcall bool.

Abbreviation bprog := (Interleave.prog bcall error).

Record Plan : Type := {
  pl_File : string;
  pl_FileHash : string;
  pl_StateHash : string;
  pl_Changes : list Change;
  pl_Unmanaged : list string;
  pl_Warnings : list string;
}.

Definition ErrConflict : error := "principals file: conflicts with the current state".
Definition errCatalog : error := "principals file: unknown reference".

Definition Widening (p : Plan) : bool := existsb ch_Widening (pl_Changes p).

Definition managedBy (f : File) : string := "file:" +:+ fi_Name f.

(** ** Digests: [json.Marshal] and SHA-256 *)

Definition chr (z : Z) : string := String (of_code z) EmptyString.

Definition hex2 (z : Z) : string := String (hex_digit (z / 16)) (String (hex_digit (z mod 16)) EmptyString).

(** One ASCII character in a JSON string, HTML characters escaped. *)
Definition json_ascii (a : Z) : string :=
  if (a =? 34) || (a =? 92) then "\" +:+ chr a else
  if a =? 8 then "\b" else if a =? 12 then "\f" else if a =? 10 then "\n" else
  if a =? 13 then "\r" else if a =? 9 then "\t" else
  if (a <? 32) || (a =? 60) || (a =? 62) || (a =? 38) then "\u00" +:+ hex2 a else chr a.

(** Bytes that are no UTF-8 become U+FFFD; U+2028 and U+2029 are escaped. *)
Fixpoint json_body (l : list Z) : string :=
  match l with
  | [] => ""
  | a :: l1 =>
      if a <? 128 then json_ascii a +:+ json_body l1 else
      match l1 with
      | [] => "\ufffd"
      | b :: l2 =>
          if (194 <=? a) && (a <=? 223) && Guard.continuation b then chr a +:+ chr b +:+ json_body l2 else
          match l2 with
          | [] => "\ufffd" +:+ json_body l1
          | c :: l3 =>
              if (224 <=? a) && (a <=? 239) && Guard.continuation b && Guard.continuation c &&
                 (negb (a =? 224) || (160 <=? b)) && (negb (a =? 237) || (b <=? 159))
              then (if (a =? 226) && (b =? 128) && ((c =? 168) || (c =? 169))
                    then "\u20" +:+ hex2 (c - 128) else chr a +:+ chr b +:+ chr c) +:+ json_body l3 else
              match l3 with
              | [] => "\ufffd" +:+ json_body l1
              | d :: l4 =>
                  if (240 <=? a) && (a <=? 244) && Guard.continuation b && Guard.continuation c &&
                     Guard.continuation d && (negb (a =? 240) || (144 <=? b)) && (negb (a =? 244) || (b <=? 143))
                  then chr a +:+ chr b +:+ chr c +:+ chr d +:+ json_body l4
                  else "\ufffd" +:+ json_body l1
              end
          end
      end
  end.

Definition json_string (s : string) : string := dquote +:+ json_body (bytes_of s) +:+ dquote.
Definition json_bool (b : bool) : string := if b then "true" else "false".
Definition json_object (members : list (string * string)) : string :=
  "{" +:+ String.concat "," (map (fun m => json_string m.1 +:+ ":" +:+ m.2) members) +:+ "}".
Definition json_array (items : list string) : string := "[" +:+ String.concat "," items +:+ "]".

(** A nil slice is [null]. *)
Definition json_slice {A} (enc : A -> string) (l : option (list A)) : string :=
  match l with Some l => json_array (map enc l) | None => "null" end.

Definition identity_json (i : Identity) : string :=
  json_object [("issuer", json_string (id_Issuer i)); ("subject", json_string (id_Subject i))].

Definition spec_json (p : PrincipalSpec) : string :=
  json_object [("name", json_string (sp_Name p)); ("sponsor", json_string (sp_Sponsor p));
               ("profile", json_string (sp_Profile p)); ("env_ceiling", json_string (sp_EnvCeiling p));
               ("tenant", json_string (sp_Tenant p)); ("status", json_string (sp_Status p));
               ("identities", json_slice identity_json (sp_Identities p))].

Definition file_json (f : File) : string :=
  json_object [("api_version", json_string (fi_APIVersion f)); ("kind", json_string (fi_Kind f));
               ("metadata", json_object [("name", json_string (fi_Name f))]);
               ("spec", json_object [("prune", json_bool (fi_Prune f));
                                     ("principals", json_slice spec_json (fi_Principals f))])].

Definition principal_json (p : Principal) : string :=
  json_object [("id", json_string (fp_ID p)); ("name", json_string (fp_Name p));
               ("sponsor", json_string (fp_Sponsor p)); ("profile", json_string (fp_Profile p));
               ("env_ceiling", json_string (fp_EnvCeiling p)); ("tenant", json_string (fp_Tenant p));
               ("status", json_string (fp_Status p)); ("managed_by", json_string (fp_ManagedBy p));
               ("created_by", json_string (fp_CreatedBy p));
               ("identities", json_slice identity_json
                  (match fp_Identities p with [] => None | l => Some l end))].

Definition digest (body : string) : string := hex_encode (Sum256 body).

Definition fileHash (f : File) : string := digest (file_json f).

Definition set_identities (ids : list Identity) (p : Principal) : Principal :=
  {| fp_ID := fp_ID p; fp_Name := fp_Name p; fp_Sponsor := fp_Sponsor p; fp_Profile := fp_Profile p;
     fp_EnvCeiling := fp_EnvCeiling p; fp_Tenant := fp_Tenant p; fp_Status := fp_Status p;
     fp_ManagedBy := fp_ManagedBy p; fp_CreatedBy := fp_CreatedBy p; fp_Identities := ids |}.

(** The principals by name, each with its identities in order. *)
Definition canonical (state : list Principal) : list Principal :=
  sort_by fp_Name (map (fun p => set_identities (sort_by of_ident (fp_Identities p)) p) state).

Definition stateHash (state : list Principal) : string :=
  digest (json_array (map principal_json (canonical state))).

(** ** Planning: plan.go *)

Definition change (op : Op) (name field from to_ : string) (widening : bool) : Change :=
  {| ch_Op := op; ch_Principal := name; ch_Field := field; ch_From := from; ch_To := to_; ch_Identity := None;
     ch_Widening := widening |}.
Definition ident_change (op : Op) (name : string) (id : Identity) (widening : bool) : Change :=
  {| ch_Op := op; ch_Principal := name; ch_Field := ""; ch_From := ""; ch_To := ""; ch_Identity := Some id;
     ch_Widening := widening |}.

Definition fieldChanges (want : PrincipalSpec) (have : Principal) : list Change :=
  let upd field from to_ widening :=
    if from =s to_ then [] else [change OpUpdate (sp_Name want) field from to_ widening] in
  upd "profile" (fp_Profile have) (sp_Profile want) true ++
  upd "env_ceiling" (fp_EnvCeiling have) (sp_EnvCeiling want) (rank (fp_EnvCeiling have) <? rank (sp_EnvCeiling want)) ++
  upd "sponsor" (fp_Sponsor have) (sp_Sponsor want) false ++
  (if fp_Status have =s sp_Status want then [] else
   let '(op, widening) := if sp_Status want =s "active" then (OpUnfreeze, true) else (OpFreeze, false) in
   [change op (sp_Name want) "status" (fp_Status have) (sp_Status want) widening]).

Definition mem (id : Identity) (l : list Identity) : bool := bool_decide (id ∈ l).

Definition identityChanges (want : PrincipalSpec) (have : Principal) : list Change :=
  map (fun id => ident_change OpBind (sp_Name want) id true)
    (List.filter (fun id => negb (mem id (fp_Identities have))) (idents want)) ++
  map (fun id => ident_change OpUnbind (sp_Name want) id false)
    (List.filter (fun id => negb (mem id (idents want))) (fp_Identities have)).

(** The last of a name, as the map [byName] keeps it. *)
Definition byName (state : list Principal) (name : string) : option Principal :=
  List.find (fun p => fp_Name p =s name) (rev state).

Section Planning.
Context (f : File).

Definition planPrincipal (want : PrincipalSpec) (state : list Principal) : list Change + error :=
  match byName state (sp_Name want) with
  | None => inl (change OpCreate (sp_Name want) "" "" "" true ::
                 map (fun id => ident_change OpBind (sp_Name want) id true) (idents want))
  | Some have =>
      let adopted :=
        if fp_Status have =s "retired" then inr (ErrConflict +:+ ": " +:+ sp_Name want +:+ " is retired; declare a new name") else
        if fp_ManagedBy have =s "" then inl [change OpAdopt (sp_Name want) "managed_by" "" (managedBy f) false] else
        if fp_ManagedBy have <>s managedBy f
        then inr (ErrConflict +:+ ": " +:+ sp_Name want +:+ " is managed by " +:+ fp_ManagedBy have) else inl [] in
      match adopted with
      | inr e => inr e
      | inl adopt =>
          if fp_Tenant have <>s sp_Tenant want
          then inr (ErrConflict +:+ ": " +:+ sp_Name want +:+ " belongs to tenant " +:+ quote (fp_Tenant have) +:+
                    "; a tenant cannot change, declare a new principal")
          else inl (adopt ++ fieldChanges want have ++ identityChanges want have)
      end
  end.

Fixpoint planPrincipals (wants : list PrincipalSpec) (state : list Principal) : list Change + error :=
  match wants with
  | [] => inl []
  | want :: rest =>
      match planPrincipal want state with
      | inr e => inr e
      | inl changes =>
          match planPrincipals rest state with inr e => inr e | inl more => inl (changes ++ more) end
      end
  end.

Definition listed (name : string) : bool := existsb (fun want => sp_Name want =s name) (specs f).

(** The changes, the unmanaged names and the warnings of [planRemovals]. *)
Fixpoint planRemovals (state : list Principal) : list Change * list string * list string :=
  match state with
  | [] => ([], [], [])
  | s :: rest =>
      let '(changes, unmanaged, warnings) := planRemovals rest in
      if listed (fp_Name s) || (fp_Status s =s "retired") then (changes, unmanaged, warnings) else
      if fp_ManagedBy s <>s managedBy f then (changes, fp_Name s :: unmanaged, warnings) else
      if fi_Prune f then (change OpRetire (fp_Name s) "status" (fp_Status s) "retired" false :: changes, unmanaged, warnings)
      else (changes, unmanaged, (fp_Name s +:+ " is no longer listed; set spec.prune to retire it") :: warnings)
  end.
End Planning.

(** The errors and the warnings of the catalog: the profiles there are, and the users. *)
Fixpoint checkCatalog (profiles : gmap string (list string)) (wants : list PrincipalSpec)
    : bprog (list error * list string) :=
  match wants with
  | [] => Ret ([], [])
  | want :: rest =>
      let unknown := match profiles !! sp_Profile want with
                     | Some _ => []
                     | None => ["principal " +:+ quote (sp_Name want) +:+ ": profile " +:+ quote (sp_Profile want) +:+
                                " is not in agents.profiles"]
                     end in
      if sp_Sponsor want =s "" then
        do* r := checkCatalog profiles rest in
        Ret (unknown ++ r.1,
             (sp_Name want +:+ " is unsponsored: it stays at L0 everywhere until a sponsor is set") :: r.2)
      else
        do~ user := BUserExists (sp_Sponsor want) in
        do* r := checkCatalog profiles rest in
        Ret (unknown ++
             (match user with
              | inl true => []
              | _ => ["principal " +:+ quote (sp_Name want) +:+ ": sponsor " +:+ quote (sp_Sponsor want) +:+
                      " is not a pg_sage user"]
              end) ++ r.1, r.2)
  end.

Definition MakePlan (profiles : gmap string (list string)) (file : option File) : bprog (Plan + error) :=
  match file with
  | None => Ret (inr "principals file: plan needs a file, a backend and a catalog")
  | Some f =>
      do~ state := BList in
      match state with
      | inr e => Ret (inr ("principals file: read principals: " +:+ e))
      | inl state =>
          do* checked := checkCatalog profiles (specs f) in
          match checked.1 with
          | _ :: _ => Ret (inr (errCatalog +:+ ": " +:+ join checked.1))
          | [] =>
              match planPrincipals f (specs f) state with
              | inr e => Ret (inr e)
              | inl changes =>
                  let '(removals, unmanaged, warnings) := planRemovals f state in
                  Ret (inl {| pl_File := fi_Name f; pl_FileHash := fileHash f; pl_StateHash := stateHash state;
                              pl_Changes := changes ++ removals; pl_Unmanaged := sort_strings unmanaged;
                              pl_Warnings := checked.2 ++ warnings |})
              end
          end
      end
  end.

(** ** Rendering: plan.go *)

Definition op_text (op : Op) : string :=
  match op with
  | OpCreate => "create" | OpAdopt => "adopt" | OpUpdate => "update" | OpFreeze => "freeze"
  | OpUnfreeze => "unfreeze" | OpRetire => "retire" | OpBind => "bind" | OpUnbind => "unbind"
  end.

Definition newline : string := String (of_code 10) EmptyString.

Definition render_change (c : Change) : string :=
  match ch_Op c with OpCreate | OpBind => "+" | OpRetire | OpUnbind | OpFreeze => "-" | _ => "~" end +:+ " " +:+
  op_text (ch_Op c) +:+ " " +:+ ch_Principal c +:+
  (if ch_Field c =s "" then "" else " " +:+ ch_Field c +:+ ": " +:+ quote (ch_From c) +:+ " -> " +:+ quote (ch_To c)) +:+
  match ch_Identity c with Some id => " " +:+ id_Issuer id +:+ " " +:+ id_Subject id | None => "" end +:+
  (if ch_Widening c then "  ! widening" else "") +:+ newline.

Definition Render (p : Plan) : string :=
  "plan for " +:+ pl_File p +:+ ": " +:+ itoa (Z.of_nat (length (pl_Changes p))) +:+ " change(s)" +:+ newline +:+
  String.concat "" (map render_change (pl_Changes p)) +:+
  String.concat "" (map (fun w => "warning: " +:+ w +:+ newline) (pl_Warnings p)).

(** ** Applying: apply.go *)

Definition ErrStalePlan : error := "principals file: the file or the principals changed since the plan; plan again".
Definition ErrWideningNotApproved : error := "principals file: the plan widens access; approve it explicitly".

Record ApplyOptions : Type := { ao_Actor : string; ao_ApproveWidening : bool }.
Record Result : Type := { rs_Applied : list Change; rs_Failed : option Change }.

(** [sort.SliceStable], narrowing changes first. *)
Fixpoint insert_ordered (c : Change) (l : list Change) : list Change :=
  match l with
  | [] => [c]
  | d :: l' => if ch_Widening c && negb (ch_Widening d) then d :: insert_ordered c l' else c :: l
  end.
Definition ordered (changes : list Change) : list Change := foldr insert_ordered [] changes.

Definition find (f : File) (name : string) : PrincipalSpec :=
  match List.find (fun p => sp_Name p =s name) (specs f) with
  | Some p => p
  | None => {| sp_Name := name; sp_Sponsor := ""; sp_Profile := ""; sp_EnvCeiling := ""; sp_Tenant := "";
               sp_Status := ""; sp_Identities := None |}
  end.

Definition created_by (f : File) (actor : string) (want : PrincipalSpec) : Principal :=
  {| fp_ID := ""; fp_Name := sp_Name want; fp_Sponsor := sp_Sponsor want; fp_Profile := sp_Profile want;
     fp_EnvCeiling := sp_EnvCeiling want; fp_Tenant := sp_Tenant want; fp_Status := sp_Status want;
     fp_ManagedBy := managedBy f; fp_CreatedBy := actor; fp_Identities := [] |}.

Definition to_error (r : unit + error) : option error := match r with inl _ => None | inr e => Some e end.

(** A bind without its identity is a nil dereference, which ends the process. *)
Definition nil_dereference : error := "runtime error: invalid memory address or nil pointer dereference".

(** The error, and the ids that may have a new one. *)
Definition applyOne (c : Change) (f : File) (ids : gmap string string) (actor : string)
    : bprog (option error * gmap string string) :=
  let id := default "" (ids !! ch_Principal c) in
  match ch_Op c with
  | OpCreate =>
      do~ r := BCreate (created_by f actor (find f (ch_Principal c))) in
      Ret match r with
          | inl id => (None, <[ch_Principal c := id]> ids)
          | inr e => (Some e, ids)
          end
  | OpBind =>
      match ch_Identity c with
      | Some ident => do~ r := BBind id ident in Ret (to_error r, ids)
      | None => Ret (Some nil_dereference, ids)
      end
  | OpUnbind =>
      match ch_Identity c with
      | Some ident => do~ r := BUnbind id ident in Ret (to_error r, ids)
      | None => Ret (Some nil_dereference, ids)
      end
  | _ => do~ r := BUpdate id c in Ret (to_error r, ids)
  end.

Fixpoint applyAll (cs : list Change) (f : File) (ids : gmap string string) (actor : string) (done_ : list Change)
    : bprog (Result * option error) :=
  match cs with
  | [] => Ret ({| rs_Applied := done_; rs_Failed := None |}, None)
  | c :: rest =>
      do* r := applyOne c f ids actor in
      match r.1 with
      | Some e => Ret ({| rs_Applied := done_; rs_Failed := Some c |},
                       Some ("principals file: " +:+ op_text (ch_Op c) +:+ " " +:+ ch_Principal c +:+ ": " +:+ e))
      | None => applyAll rest f r.2 actor (done_ ++ [c])
      end
  end.

(** The ids of the state, the last of a name winning. *)
Definition ids_of (state : list Principal) : gmap string string :=
  list_to_map (rev (map (fun s => (fp_Name s, fp_ID s)) state)).

Definition no_result : Result := {| rs_Applied := []; rs_Failed := None |}.

Definition Apply (plan : option Plan) (file : option File) (opts : ApplyOptions) : bprog (Result * option error) :=
  match plan, file with
  | Some p, Some f =>
      if ao_Actor opts =s ""
      then Ret (no_result, Some "principals file: apply needs a plan, a file, a backend and an actor") else
      do~ state := BList in
      match state with
      | inr e => Ret (no_result, Some ("principals file: read principals: " +:+ e))
      | inl state =>
          if (fileHash f <>s pl_FileHash p) || (stateHash state <>s pl_StateHash p)
          then Ret (no_result, Some ErrStalePlan) else
          if Widening p && negb (ao_ApproveWidening opts) then Ret (no_result, Some ErrWideningNotApproved) else
          applyAll (ordered (pl_Changes p)) f (ids_of state) (ao_Actor opts) []
      end
  | _, _ => Ret (no_result, Some "principals file: apply needs a plan, a file, a backend and an actor")
  end.
