(* ===== verification/PrincipalApply.v ===== *)
(** * Applying a principals file

    What planning and applying promise of any backend that keeps the laws below:
    applying a plan is carrying out its changes in order, narrowing ones first, up to
    the one that failed; a plan applied without a failure leaves every principal as
    the file declares it and nothing to plan again; and without the approval of
    widening nothing is widened, even by a plan made earlier that fails halfway. *)

From S2P Require Import Prelude.
From S2P Require Import GoStd.
From S2P Require Import PrincipalStore.
From S2P Require Import PrincipalFile.

(** ** What a backend holds *)

Record Holder : Type := {
  h_ID : string;
  h_Sponsor : string;
  h_Profile : string;
  h_EnvCeiling : string;
  h_Tenant : string;
  h_Status : string;
  h_ManagedBy : string;
  h_Identities : gset Identity;
}.

Abbreviation View := (gmap string Holder).

Definition holder_of (p : Principal) : Holder :=
  {| h_ID := fp_ID p; h_Sponsor := fp_Sponsor p; h_Profile := fp_Profile p; h_EnvCeiling := fp_EnvCeiling p;
     h_Tenant := fp_Tenant p; h_Status := fp_Status p; h_ManagedBy := fp_ManagedBy p;
     h_Identities := list_to_set (fp_Identities p) |}.

(** A list of the principals, by name. *)
Definition shows (l : list Principal) (v : View) : Prop :=
  NoDup (map fp_Name l) /\
  forall n h, v !! n = Some h <-> exists p, p ∈ l /\ fp_Name p = n /\ holder_of p = h.

(** One field, by the name a change gives it. *)
Definition get (field : string) (h : Holder) : string :=
  if field =s "profile" then h_Profile h else if field =s "env_ceiling" then h_EnvCeiling h else
  if field =s "sponsor" then h_Sponsor h else if field =s "status" then h_Status h else
  if field =s "managed_by" then h_ManagedBy h else "".

Definition set_field (field to_ : string) (h : Holder) : Holder :=
  let pick name old := if field =s name then to_ else old in
  {| h_ID := h_ID h; h_Sponsor := pick "sponsor" (h_Sponsor h); h_Profile := pick "profile" (h_Profile h);
     h_EnvCeiling := pick "env_ceiling" (h_EnvCeiling h); h_Tenant := h_Tenant h;
     h_Status := pick "status" (h_Status h); h_ManagedBy := pick "managed_by" (h_ManagedBy h);
     h_Identities := h_Identities h |}.

Definition with_idents (ids : gset Identity) (h : Holder) : Holder :=
  {| h_ID := h_ID h; h_Sponsor := h_Sponsor h; h_Profile := h_Profile h; h_EnvCeiling := h_EnvCeiling h;
     h_Tenant := h_Tenant h; h_Status := h_Status h; h_ManagedBy := h_ManagedBy h; h_Identities := ids |}.

Definition bind (i : Identity) (h : Holder) : Holder := with_idents ({[i]} ∪ h_Identities h) h.
Definition unbind (i : Identity) (h : Holder) : Holder := with_idents (h_Identities h ∖ {[i]}) h.
Definition with_ID (id : string) (h : Holder) : Holder :=
  {| h_ID := id; h_Sponsor := h_Sponsor h; h_Profile := h_Profile h; h_EnvCeiling := h_EnvCeiling h;
     h_Tenant := h_Tenant h; h_Status := h_Status h; h_ManagedBy := h_ManagedBy h; h_Identities := h_Identities h |}.

(** ** The interface *)

(** [bk_does c w r w']: in [w] the call [c] may answer [r] and leave [w']. *)
Class Backend (W : Type) := {
  bk_ok : W -> Prop;
  bk_view : W -> View;
  bk_does : forall X, bcall X -> W -> X + error -> W -> Prop;
}.
Arguments bk_does {W _} [X] c w r w'.

(** An operation on one principal: done, or when it fails perhaps done. *)
Definition changes_one {X} (n : string) (h' : Holder) (v v' : View) (r : X + error) : Prop :=
  match r with
  | inl _ => v' = <[n := h']> v
  | inr _ => v' = v \/ v' = <[n := h']> v
  end.

Definition declarable (p : Principal) : Prop :=
  (fp_Status p = "active" \/ fp_Status p = "frozen") /\ fp_EnvCeiling p <> "" /\ fp_Identities p = [].

Class LawfulBackend (W : Type) `{Backend W} := {
  lb_List w r w' : bk_ok w -> bk_does BList w r w' ->
    bk_ok w' /\ bk_view w' = bk_view w /\ forall l, r = inl l -> shows l (bk_view w);
  lb_UserExists w s r w' : bk_ok w -> bk_does (BUserExists s) w r w' -> bk_ok w' /\ bk_view w' = bk_view w;
  lb_Create w p r w' : bk_ok w -> declarable p -> bk_does (BCreate p) w r w' ->
    bk_ok w' /\ (forall n, n <> fp_Name p -> bk_view w' !! n = bk_view w !! n) /\
    match r with
    | inl id => bk_view w !! fp_Name p = None /\ bk_view w' !! fp_Name p = Some (with_ID id (holder_of p))
    | inr _ => forall h, bk_view w !! fp_Name p = Some h -> bk_view w' !! fp_Name p = Some h
    end;
  lb_Update w n h c r w' : bk_ok w -> bk_view w !! n = Some h -> bk_does (BUpdate (h_ID h) c) w r w' ->
    bk_ok w' /\ changes_one n (set_field (ch_Field c) (ch_To c) h) (bk_view w) (bk_view w') r;
  lb_Bind w n h i r w' : bk_ok w -> bk_view w !! n = Some h -> bk_does (BBind (h_ID h) i) w r w' ->
    bk_ok w' /\ changes_one n (bind i h) (bk_view w) (bk_view w') r;
  lb_Unbind w n h i r w' : bk_ok w -> bk_view w !! n = Some h -> bk_does (BUnbind (h_ID h) i) w r w' ->
    bk_ok w' /\ changes_one n (unbind i h) (bk_view w) (bk_view w') r;
}.

(** ** Changes *)

Section Changes.
Context (f : File) (actor : string).

(** What a change makes of its principal. *)
Definition hstep (c : Change) (o : option Holder) (h' : Holder) : Prop :=
  match ch_Op c with
  | OpCreate => o = None /\ exists id, h' = with_ID id (holder_of (created_by f actor (find f (ch_Principal c))))
  | OpBind => exists h i, o = Some h /\ ch_Identity c = Some i /\ h' = bind i h
  | OpUnbind => exists h i, o = Some h /\ ch_Identity c = Some i /\ h' = unbind i h
  | _ => exists h, o = Some h /\ h' = set_field (ch_Field c) (ch_To c) h
  end.

Definition vstep (c : Change) (v v' : View) : Prop :=
  exists h', hstep c (v !! ch_Principal c) h' /\ v' = <[ch_Principal c := h']> v.

(** The changes, one after another. *)
Fixpoint vsteps (cs : list Change) (v v' : View) : Prop :=
  match cs with
  | [] => v' = v
  | c :: rest => exists v1, vstep c v v1 /\ vsteps rest v1 v'
  end.

Fixpoint hsteps (cs : list Change) (o o' : option Holder) : Prop :=
  match cs with
  | [] => o' = o
  | c :: rest => exists h, hstep c o h /\ hsteps rest (Some h) o'
  end.

Definition about (n : string) (c : Change) : bool := ch_Principal c =s n.

Lemma vsteps_app cs cs' v v' : vsteps (cs ++ cs') v v' <-> exists v1, vsteps cs v v1 /\ vsteps cs' v1 v'.
Proof.
  revert v. induction cs as [|c cs IH]; intros v; cbn; [naive_solver|]. setoid_rewrite IH. naive_solver.
Qed.

(** A principal sees only its own changes. *)
Lemma vsteps_about cs v v' n : vsteps cs v v' -> hsteps (List.filter (about n) cs) (v !! n) (v' !! n).
Proof.
  revert v. induction cs as [|c cs IH]; intros v; cbn; [by intros ->|].
  intros (v1 & (h & Hh & ->) & Hr). specialize (IH _ Hr). unfold about at 1.
  destruct (String.eqb_spec (ch_Principal c) n) as [<-|Hne].
  - exists h. by rewrite lookup_insert_eq in IH.
  - by rewrite lookup_insert_ne in IH.
Qed.

(** The principals there are when each change comes. *)
Definition creates (c : Change) : bool := match ch_Op c with OpCreate => true | _ => false end.

Fixpoint sound (cs : list Change) (names : gset string) : Prop :=
  match cs with
  | [] => True
  | c :: rest => (creates c = false -> ch_Principal c ∈ names) /\ sound rest ({[ch_Principal c]} ∪ names)
  end.

Lemma sound_mono cs a b : a ⊆ b -> sound cs a -> sound cs b.
Proof.
  revert a b. induction cs as [|c cs IH]; intros a b Hab; cbn; [done|]. intros [H1 H2]. split; [set_solver|].
  eapply IH; [|done]. set_solver.
Qed.

Lemma sound_app cs cs' a : sound cs a -> sound cs' a -> sound (cs ++ cs') a.
Proof.
  revert a. induction cs as [|c cs IH]; intros a H1 H2; cbn; [done|]. destruct H1 as [H1 H3]. split; [done|].
  apply IH; [done|]. eapply sound_mono; [|done]. set_solver.
Qed.

Lemma sound_present cs a : (forall c, c ∈ cs -> ch_Principal c ∈ a) -> sound cs a.
Proof.
  revert a. induction cs as [|c cs IH]; intros a H; cbn; [done|]. split; [intros _; apply H; by left|].
  apply IH. intros d Hd. apply elem_of_union_r, H. by right.
Qed.
End Changes.

(** ** Narrowing first *)

Definition narrows (c : Change) : bool := negb (ch_Widening c).

Lemma insert_narrow c l : ch_Widening c = false -> insert_ordered c l = c :: l.
Proof. intros Hc. destruct l as [|d l]; [done|]. cbn. by rewrite Hc. Qed.

Lemma insert_wide c ns ws : ch_Widening c = true -> Forall (fun d => ch_Widening d = false) ns ->
  Forall (fun d => ch_Widening d = true) ws -> insert_ordered c (ns ++ ws) = ns ++ c :: ws.
Proof.
  intros Hc Hn Hw. induction Hn as [|d ns Hd Hn IH]; cbn.
  - destruct Hw as [|d ws Hd Hw]; [done|]. cbn. by rewrite Hc, Hd.
  - rewrite Hc, Hd. cbn. by rewrite IH.
Qed.

Lemma ordered_split cs : ordered cs = List.filter narrows cs ++ List.filter ch_Widening cs.
Proof.
  unfold ordered. induction cs as [|c cs IH]; [done|]. cbn [foldr List.filter]. rewrite IH.
  unfold narrows at 2. destruct (ch_Widening c) eqn:Ec; cbn [negb]; [|by rewrite insert_narrow].
  apply insert_wide; [done|..]; apply Forall_forall; intros d [_ Hd]%list_elem_of_In%filter_In; [|done].
  by apply negb_true_iff in Hd.
Qed.

Lemma ordered_elem c cs : c ∈ ordered cs <-> c ∈ cs.
Proof.
  rewrite ordered_split, elem_of_app, !list_elem_of_In, !filter_In. unfold narrows.
  destruct (ch_Widening c); naive_solver.
Qed.

(** ** Applying, change by change *)

Section Applying.
Context `{HL : LawfulBackend W} (f : File) (actor : string).

Abbreviation does p := (runs (fun X (c : bcall X) => bk_does c) p).

(** The ids [Apply] knows. *)
Definition knows (ids : gmap string string) (v : View) : Prop :=
  forall n h, v !! n = Some h -> ids !! n = Some (h_ID h).

(** A change that a declared file plans. *)
Definition plannable (c : Change) : Prop :=
  match ch_Op c with
  | OpCreate => declarable (created_by f actor (find f (ch_Principal c))) /\
                sp_Name (find f (ch_Principal c)) = ch_Principal c
  | OpBind | OpUnbind => is_Some (ch_Identity c)
  | _ => True
  end.

(** What is left when a change fails: nothing of it, or all of it; of a new principal,
    some of it. *)
Definition halfway (c : Change) (v v' : View) : Prop :=
  if creates c
  then (forall n, n <> ch_Principal c -> v' !! n = v !! n) /\
       (forall h, v !! ch_Principal c = Some h -> v' !! ch_Principal c = Some h)
  else v' = v \/ vstep f actor c v v'.

Lemma one_call c ids h h' v v' (r : unit + error) : knows ids v -> v !! ch_Principal c = Some h ->
  creates c = false -> hstep f actor c (Some h) h' -> h_ID h' = h_ID h ->
  changes_one (ch_Principal c) h' v v' r ->
  match to_error r with
  | None => vstep f actor c v v' /\ knows ids v'
  | Some _ => halfway c v v'
  end.
Proof.
  intros Hk Hv Hc Hs Hid Hr.
  assert (Hstep : vstep f actor c v (<[ch_Principal c := h']> v)) by (exists h'; by rewrite Hv).
  unfold halfway. rewrite Hc. destruct r; cbn in *; [|destruct Hr as [->| ->]; auto]. subst v'. split; [done|].
  intros n k. destruct (decide (n = ch_Principal c)) as [->|Hne].
  - rewrite lookup_insert_eq. intros [= <-]. rewrite Hid. by apply Hk.
  - rewrite lookup_insert_ne by done. apply Hk.
Qed.

Lemma applyOne_does c ids w e ids' w' : bk_ok w -> knows ids (bk_view w) -> plannable c ->
  (creates c = false -> is_Some (bk_view w !! ch_Principal c)) ->
  does (applyOne c f ids actor) w (e, ids') w' ->
  bk_ok w' /\ match e with
              | None => vstep f actor c (bk_view w) (bk_view w') /\ knows ids' (bk_view w')
              | Some _ => halfway c (bk_view w) (bk_view w')
              end.
Proof.
  intros Hok Hk Hp Hex.
  assert (Hcall : forall h h' (r : unit + error) w1, bk_view w !! ch_Principal c = Some h -> creates c = false ->
    hstep f actor c (Some h) h' -> h_ID h' = h_ID h ->
    bk_ok w1 /\ changes_one (ch_Principal c) h' (bk_view w) (bk_view w1) r ->
    bk_ok w1 /\ match to_error r with None => vstep f actor c (bk_view w) (bk_view w1) /\ knows ids (bk_view w1)
                | Some _ => halfway c (bk_view w) (bk_view w1) end).
  { intros h h' r w1 Hh Hc Hs Hid [Hok1 Hone]. split; [done|]. by eapply one_call. }
  unfold applyOne. destruct (ch_Op c) eqn:Ec; unfold plannable in Hp; rewrite Ec in Hp;
    try match type of Hp with is_Some _ => destruct Hp as [i Hi]; rewrite Hi end;
    try (destruct Hex as [h Hh]; [by unfold creates; rewrite Ec|]; rewrite (Hk _ _ Hh); cbn [default from_option id];
         intros (r & w1 & Hd & [= -> ->] & ->)).
  1: {
    destruct Hp as [Hp Hn]. intros (r & w1 & Hd & He & ->).
    destruct (lb_Create _ _ _ _ Hok Hp Hd) as (Hok1 & Ho & Hr). cbn [fp_Name created_by] in Ho, Hr. rewrite Hn in Ho, Hr.
    split; [done|]. destruct r as [id|err]; injection He as -> ->; cbn.
    + destruct Hr as [Hr1 Hr2]. assert (Hv : bk_view w1 = <[ch_Principal c :=
        with_ID id (holder_of (created_by f actor (find f (ch_Principal c))))]> (bk_view w)).
      { apply map_eq. intros n. destruct (decide (n = ch_Principal c)) as [->|Hne].
        - by rewrite Hr2, lookup_insert_eq.
        - rewrite Ho, lookup_insert_ne; done. }
      split; [eexists; split; [|exact Hv]; unfold hstep; rewrite Ec; split; [done|by eexists]|].
      rewrite Hv. intros n h. destruct (decide (n = ch_Principal c)) as [->|Hne].
      * rewrite !lookup_insert_eq. by intros [= <-].
      * rewrite !lookup_insert_ne by done. apply Hk.
    + unfold halfway, creates. by rewrite Ec. }
  6: { refine (Hcall _ _ _ _ Hh _ _ _ (lb_Bind _ _ _ _ _ _ Hok Hh Hd)); [by unfold creates; rewrite Ec| |done].
       unfold hstep. rewrite Ec. by exists h, i. }
  6: { refine (Hcall _ _ _ _ Hh _ _ _ (lb_Unbind _ _ _ _ _ _ Hok Hh Hd)); [by unfold creates; rewrite Ec| |done].
       unfold hstep. rewrite Ec. by exists h, i. }
  all: refine (Hcall _ _ _ _ Hh _ _ _ (lb_Update _ _ _ _ _ _ Hok Hh Hd)); [by unfold creates; rewrite Ec| |done];
    unfold hstep; rewrite Ec; by exists h.
Qed.

Lemma vstep_dom c v v' : vstep f actor c v v' -> dom v' = {[ch_Principal c]} ∪ dom v.
Proof. intros (h & _ & ->). by rewrite dom_insert_L. Qed.

(** What [applyAll] did of [cs]. *)
Definition applied (cs done_ : list Change) (r : Result * option error) (v v' : View) : Prop :=
  exists k v1, rs_Applied r.1 = done_ ++ take k cs /\ vsteps f actor (take k cs) v v1 /\
    match r.2 with
    | None => take k cs = cs /\ v' = v1 /\ rs_Failed r.1 = None
    | Some _ => exists c, cs !! k = Some c /\ rs_Failed r.1 = Some c /\ halfway c v1 v'
    end.

Lemma applyAll_does cs ids done_ w r w' : bk_ok w -> knows ids (bk_view w) -> Forall plannable cs ->
  sound cs (dom (bk_view w)) -> does (applyAll cs f ids actor done_) w r w' ->
  bk_ok w' /\ applied cs done_ r (bk_view w) (bk_view w').
Proof.
  revert ids done_ w. induction cs as [|c cs IH]; intros ids done_ w Hok Hk Hp Hs; cbn [applyAll].
  - intros [-> ->]. split; [done|]. exists 0%nat, (bk_view w). by rewrite app_nil_r.
  - intros ([e ids'] & w1 & Hd & Hr)%runs_bind. apply Forall_cons in Hp as [Hp Hps]. destruct Hs as [Hs Hss].
    destruct (applyOne_does c ids w e ids' w1 Hok Hk Hp) as [Hok1 Hstep]; [|done|].
    { intros Hc. apply elem_of_dom. by apply Hs. }
    destruct e as [err|]; cbn in Hr.
    + destruct Hr as [-> ->]. split; [done|]. exists 0%nat, (bk_view w). cbn. rewrite app_nil_r. split_and!; try done.
      by exists c.
    + destruct Hstep as [Hstep Hk1]. assert (Hss1 : sound cs (dom (bk_view w1))) by by rewrite (vstep_dom _ _ _ Hstep).
      destruct (IH _ _ _ Hok1 Hk1 Hps Hss1 Hr) as [Hok2 (k & v1 & H1 & H2 & H3)].
      split; [done|]. exists (S k), v1. cbn [take lookup list_lookup]. rewrite H1, <- app_assoc. split; [done|].
      split; [by exists (bk_view w1)|]. destruct r.2; [done|]. destruct H3 as (H3 & H4 & H5). by rewrite H3.
Qed.
End Applying.

(** ** Lists and views *)

Lemma byName_shows l v n : shows l v -> option_map holder_of (byName l n) = v !! n.
Proof.
  intros [_ Hl]. unfold byName. destruct (List.find _ (rev l)) as [p|] eqn:E; cbn.
  - apply find_some in E as [Hp Hpn]. apply String.eqb_eq in Hpn. symmetry. apply Hl. exists p.
    split; [|done]. by apply list_elem_of_In, in_rev.
  - destruct (v !! n) as [h|] eqn:Eh; [|done]. apply Hl in Eh as (p & Hp & Hpn & _).
    assert (Hin : In p (rev l)) by by apply in_rev; rewrite rev_involutive; apply list_elem_of_In.
    assert (Hf := find_none _ _ E p Hin). cbn in Hf. by rewrite Hpn, String.eqb_refl in Hf.
Qed.

Lemma ids_shows l v : shows l v -> knows (ids_of l) v.
Proof.
  intros [Hn Hl] n h (p & Hp & <- & <-)%Hl. unfold ids_of. apply elem_of_list_to_map_1.
  - change (fmap (M := list)) with (@map (string * string) string). rewrite <- Permutation_rev, map_map. done.
  - rewrite <- Permutation_rev. apply list_elem_of_In. apply in_map_iff. exists p. split; [done|]. by apply list_elem_of_In.
Qed.

(** ** Plans *)

Section Plans.
Context (f : File).

Definition planned (want : PrincipalSpec) (l : list Principal) (b : list Change) : Prop := planPrincipal f want l = inl b.

Lemma planPrincipals_blocks wants l cs : planPrincipals f wants l = inl cs ->
  exists bs, Forall2 (fun want b => planned want l b) wants bs /\ cs = concat bs.
Proof.
  revert cs. induction wants as [|want rest IH]; intros cs; cbn.
  - intros [= <-]. by exists [].
  - destruct (planPrincipal f want l) as [b|] eqn:E; [|done]. destruct (planPrincipals f rest l) as [more|]; [|done].
    intros [= <-]. destruct (IH _ eq_refl) as (bs & Hbs & ->). exists (b :: bs). by split; [constructor|].
Qed.

(** A declared principal that is there may be planned for. *)
Definition manageable (want : PrincipalSpec) (h : Holder) : Prop :=
  h_Status h <> "retired" /\ (h_ManagedBy h = "" \/ h_ManagedBy h = managedBy f) /\ h_Tenant h = sp_Tenant want.

(** The changes of a principal that is there. *)
Definition adoption (want : PrincipalSpec) (have : Principal) : list Change :=
  if fp_ManagedBy have =s "" then [change OpAdopt (sp_Name want) "managed_by" "" (managedBy f) false] else [].
Definition revision (want : PrincipalSpec) (have : Principal) : list Change :=
  adoption want have ++ fieldChanges want have ++ identityChanges want have.

Lemma planned_inv want l b : planned want l b ->
  match byName l (sp_Name want) with
  | None => b = change OpCreate (sp_Name want) "" "" "" true ::
                map (fun id => ident_change OpBind (sp_Name want) id true) (idents want)
  | Some have => manageable want (holder_of have) /\ b = revision want have
  end.
Proof.
  unfold planned, planPrincipal, revision, adoption, manageable. destruct (byName l (sp_Name want)) as [have|]; [|by intros [= <-]].
  cbn. destruct (String.eqb_spec (fp_Status have) "retired"); [done|].
  destruct (String.eqb_spec (fp_ManagedBy have) ""); [|destruct (String.eqb_spec (fp_ManagedBy have) (managedBy f)); cbn [negb]; [|done]];
    (destruct (String.eqb_spec (fp_Tenant have) (sp_Tenant want)); cbn [negb]; [|done]);
    intros [= <-]; (split; [|done]); auto.
Qed.

(** What a declaration makes of each field. *)
Definition declared_field (want : PrincipalSpec) (field : string) : string :=
  if field =s "profile" then sp_Profile want else if field =s "env_ceiling" then sp_EnvCeiling want else
  if field =s "sponsor" then sp_Sponsor want else if field =s "status" then sp_Status want else
  if field =s "managed_by" then managedBy f else "".

Definition fields : list string := ["profile"; "env_ceiling"; "sponsor"; "status"; "managed_by"].

(** A change of a field moves it to the declared value; it is no widening only if it
    narrows. *)
Definition moves (want : PrincipalSpec) (h : Holder) (c : Change) : Prop :=
  ch_Field c ∈ fields /\ ch_To c = declared_field want (ch_Field c) /\
  (ch_Widening c = false -> ch_Field c <> "profile" /\
     (ch_Field c = "env_ceiling" -> rank (sp_EnvCeiling want) <= rank (h_EnvCeiling h)) /\
     (ch_Field c = "status" -> sp_Status want <> "active")).

(** A revision's changes: to the declared value, of what differs from it. *)
Definition revises (want : PrincipalSpec) (h : Holder) (c : Change) : Prop :=
  ch_Principal c = sp_Name want /\
  match ch_Op c with
  | OpCreate | OpRetire => False
  | OpBind => ch_Widening c = true /\ exists i, ch_Identity c = Some i /\ i ∈ idents want
  | OpUnbind => exists i, ch_Identity c = Some i /\ i ∉ idents want
  | _ => moves want h c
  end.

Lemma revision_revises want have c : (h_ManagedBy (holder_of have) = "" \/ h_ManagedBy (holder_of have) = managedBy f) ->
  c ∈ revision want have -> revises want (holder_of have) c.
Proof.
  intros Hm. unfold revision, adoption, fieldChanges, identityChanges. rewrite !elem_of_app.
  assert (Hone : forall (b : bool) d, c ∈ (if b then [] else [d]) -> c = d).
  { intros [] d; [by intros ?%not_elem_of_nil|by intros ?%list_elem_of_singleton]. }
  intros [Hc|[[Hc|[Hc|[Hc|Hc]]]|[Hc|Hc]]].
  - destruct (_ =s ""); [|by apply not_elem_of_nil in Hc]. apply list_elem_of_singleton in Hc as ->.
    split; [done|]. split; [set_solver|]. split; [done|]. intros _. by split_and!.
  - apply Hone in Hc as ->. split; [done|]. split; [set_solver|]. by split.
  - apply Hone in Hc as ->. split; [done|]. split; [set_solver|]. split; [done|]. cbn. intros H%Z.ltb_ge.
    by split_and!.
  - apply Hone in Hc as ->. split; [done|]. split; [set_solver|]. split; [done|]. cbn. intros _. by split_and!.
  - destruct (String.eqb_spec (sp_Status want) "active") as [E|E];
      apply Hone in Hc as ->; (split; [done|]; split; [set_solver|]; split; [done|]; cbn; intros H; by split_and!).
  - apply list_elem_of_In, in_map_iff in Hc as (i & <- & [Hi _]%filter_In). split; [done|]. split; [done|].
    exists i. split; [done|]. by apply list_elem_of_In.
  - apply list_elem_of_In, in_map_iff in Hc as (i & <- & [_ Hi]%filter_In). split; [done|].
    exists i. split; [done|]. apply negb_true_iff in Hi. unfold mem in Hi. by apply bool_decide_eq_false in Hi.
Qed.

(** What differs from its declaration is changed. *)
Lemma revision_covers want have x : x ∈ fields -> get x (holder_of have) = declared_field want x \/
  (h_ManagedBy (holder_of have) <> "" /\ h_ManagedBy (holder_of have) <> managedBy f) \/
  exists c, c ∈ revision want have /\ ch_Field c = x /\ ch_Op c <> OpBind /\ ch_Op c <> OpUnbind.
Proof.
  intros Hx. unfold revision, adoption, fieldChanges. repeat setoid_rewrite elem_of_app.
  repeat (apply elem_of_cons in Hx as [->|Hx]); [..|by apply not_elem_of_nil in Hx]; cbn.
  - destruct (String.eqb_spec (fp_Profile have) (sp_Profile want)); [by left|]. right. right. eexists.
    split; [right; left; left; by left|done].
  - destruct (String.eqb_spec (fp_EnvCeiling have) (sp_EnvCeiling want)); [by left|]. right. right. eexists.
    split; [right; left; right; left; by left|done].
  - destruct (String.eqb_spec (fp_Sponsor have) (sp_Sponsor want)); [by left|]. right. right. eexists.
    split; [right; left; right; right; left; by left|done].
  - destruct (String.eqb_spec (fp_Status have) (sp_Status want)); [by left|]. right. right.
    destruct (sp_Status want =s "active"); eexists; (split; [right; left; right; right; right; by left|done]).
  - destruct (String.eqb_spec (fp_ManagedBy have) (managedBy f)); [by left|].
    destruct (String.eqb_spec (fp_ManagedBy have) ""); [|by right; left]. right. right. eexists.
    split; [left; by left|done].
Qed.

Lemma revision_binds want have i : i ∈ idents want -> i ∉ h_Identities (holder_of have) ->
  exists c, c ∈ revision want have /\ ch_Op c = OpBind /\ ch_Identity c = Some i.
Proof.
  intros Hi Hn. exists (ident_change OpBind (sp_Name want) i true). split; [|done]. unfold revision, identityChanges.
  apply elem_of_app. right. apply elem_of_app. right. apply elem_of_app. left.
  apply list_elem_of_In, in_map_iff. exists i. split; [done|]. apply filter_In. split; [by apply list_elem_of_In|].
  apply negb_true_iff. unfold mem. apply bool_decide_eq_false. intros H. apply Hn. cbn. by apply elem_of_list_to_set.
Qed.

Lemma revision_unbinds want have i : i ∉ idents want -> i ∈ h_Identities (holder_of have) ->
  exists c, c ∈ revision want have /\ ch_Op c = OpUnbind /\ ch_Identity c = Some i.
Proof.
  intros Hi Hn. exists (ident_change OpUnbind (sp_Name want) i false). split; [|done]. unfold revision, identityChanges.
  apply elem_of_app. right. apply elem_of_app. right. apply elem_of_app. right. cbn in Hn. apply elem_of_list_to_set in Hn.
  apply list_elem_of_In, in_map_iff. exists i. split; [done|]. apply filter_In. split; [by apply list_elem_of_In|].
  apply negb_true_iff. unfold mem. by apply bool_decide_eq_false.
Qed.

(** ** Removals *)

Definition retires (h : Holder) (n : string) : bool :=
  negb (listed f n) && (h_Status h <>s "retired") && (h_ManagedBy h =s managedBy f) && fi_Prune f.

Definition retirement (h : Holder) (n : string) : Change := change OpRetire n "status" (h_Status h) "retired" false.

Lemma removals_elem l c : c ∈ (planRemovals f l).1.1 <->
  exists p, p ∈ l /\ retires (holder_of p) (fp_Name p) = true /\ c = retirement (holder_of p) (fp_Name p).
Proof.
  unfold retires. induction l as [|s rest IH]; cbn [planRemovals].
  - split; [by intros ?%not_elem_of_nil|]. by intros (p & ?%not_elem_of_nil & _).
  - setoid_rewrite elem_of_cons. destruct (planRemovals f rest) as [[changes unmanaged] warnings]. cbn in IH |- *.
    destruct (listed f (fp_Name s)) eqn:El, (fp_Status s =s "retired") eqn:Es, (fp_ManagedBy s =s managedBy f) eqn:Em,
      (fi_Prune f) eqn:Ep; cbn; rewrite ?elem_of_cons, IH;
      (split; [intros Hc|intros (p & [->|Hp] & Hr & ->)]); cbn in *; rewrite ?El, ?Es, ?Em in *; try done; try naive_solver.
  destruct Hc as [->|(p & Hp & Hr)]; [|by exists p; auto]. exists s. rewrite El, Es, Em. auto.
Qed.
End Plans.

(** ** What a valid file is *)

Section Valid.
Context (https_url : string -> bool) (f : File).

Lemma validate_specs_nil names owners ps : validate_specs https_url names owners ps = [] ->
  NoDup (map sp_Name ps) /\
  (forall p, p ∈ ps -> (sp_Name p ∉ names) /\ validate_spec https_url p = []).
Proof.
  revert names owners. induction ps as [|p rest IH]; intros names owners; cbn; [split; [constructor|by intros p ?%not_elem_of_nil]|].
  destruct (bound_twice _ _ _) as [twice owners']. intros (H1 & (H2 & (H3 & H4)%app_eq_nil)%app_eq_nil)%app_eq_nil.
  destruct (IH _ _ H4) as [Hn Hp].
  assert (Hnew : sp_Name p ∉ names).
  { intros Hin. destruct (existsb _ names) eqn:E; [done|]. assert (Ht : existsb (String.eqb (sp_Name p)) names = true); [|congruence].
    apply existsb_exists. exists (sp_Name p). split; [by apply list_elem_of_In|apply String.eqb_refl]. }
  split.
  - constructor; [|done]. intros (q & Hq & Hqin)%list_elem_of_In%in_map_iff. apply list_elem_of_In in Hqin.
    destruct (Hp q Hqin) as [Hq1 _]. apply Hq1. rewrite Hq. by left.
  - intros q [->|Hq]%elem_of_cons; [done|]. destruct (Hp q Hq) as [Hq1 Hq2]. split; [|done]. set_solver.
Qed.

Hypothesis Hvalid : validate https_url f = None.

Lemma valid_specs : NoDup (map sp_Name (specs f)) /\
  forall p, p ∈ specs f -> (sp_Status p = "active" \/ sp_Status p = "frozen") /\ is_Some (envRank !! sp_EnvCeiling p).
Proof.
  unfold validate in Hvalid. destruct (validate_errors https_url f) eqn:E; [|done].
  unfold validate_errors in E. apply app_eq_nil in E as [_ E]. apply app_eq_nil in E as [_ E]. apply app_eq_nil in E as [_ E].
  destruct (validate_specs_nil _ _ _ E) as [Hn Hp]. split; [done|]. intros p Hin. destruct (Hp p Hin) as [_ Hv].
  unfold validate_spec in Hv. apply map_eq_nil, app_eq_nil in Hv as [_ Hv]. apply app_eq_nil in Hv as [_ Hv].
  apply app_eq_nil in Hv as [He Hv]. apply app_eq_nil in Hv as [Hs _]. split.
  - destruct (String.eqb_spec (sp_Status p) "active"); [by left|].
    destruct (String.eqb_spec (sp_Status p) "frozen"); [by right|done].
  - by destruct (envRank !! sp_EnvCeiling p); [eexists|].
Qed.

Lemma find_spec want : want ∈ specs f -> find f (sp_Name want) = want.
Proof.
  intros Hw. destruct valid_specs as [Hn _]. unfold find. destruct (List.find _ (specs f)) as [p|] eqn:E.
  - apply find_some in E as [Hp Hpn]. apply String.eqb_eq in Hpn. apply list_elem_of_In in Hp.
    clear Hvalid. induction (specs f) as [|s l IH]; [by apply not_elem_of_nil in Hw|].
    cbn in Hn. apply NoDup_cons in Hn as [Hs Hn].
    assert (Hin : forall x, x ∈ l -> sp_Name x ∈ map sp_Name l) by (intros x Hx; by apply list_elem_of_In, in_map, list_elem_of_In).
    apply elem_of_cons in Hw as [->|Hw], Hp as [->|Hp]; [done| | |by apply IH];
      exfalso; apply Hs; [rewrite <- Hpn|rewrite Hpn]; by apply Hin.
  - assert (Hx := find_none _ _ E want). cbn in Hx. rewrite String.eqb_refl in Hx. by discriminate Hx; apply list_elem_of_In.
Qed.

Lemma listed_spec n : listed f n = true <-> exists want, want ∈ specs f /\ sp_Name want = n.
Proof.
  unfold listed. rewrite existsb_exists. split.
  - intros (want & Hw & He). exists want. split; [by apply list_elem_of_In|by apply String.eqb_eq].
  - intros (want & Hw & He). exists want. split; [by apply list_elem_of_In|by apply String.eqb_eq].
Qed.
End Valid.

(** ** Planning and applying, as they run *)

Section Running.
Context `{HL : LawfulBackend W} (f : File).

Abbreviation does p := (runs (fun X (c : bcall X) => bk_does c) p).

Record plan_of (p : Plan) (v : View) (l : list Principal) (bs : list (list Change)) : Prop := {
  po_shows : shows l v;
  po_blocks : Forall2 (fun want b => planned f want l b) (specs f) bs;
  po_changes : pl_Changes p = concat bs ++ (planRemovals f l).1.1;
  po_state : pl_StateHash p = stateHash l;
}.

Lemma catalog_view profiles wants w r w' : bk_ok w -> does (checkCatalog profiles wants) w r w' ->
  bk_ok w' /\ bk_view w' = bk_view w.
Proof.
  revert w r. induction wants as [|want rest IH]; intros w r Hok; cbn [checkCatalog]; [by intros [-> ->]|].
  destruct (_ =s "").
  - intros (r1 & w1 & H1 & [-> ->])%runs_bind. by eapply IH.
  - intros (u & w1 & Hu & (r1 & w2 & H1 & [-> ->])%runs_bind). cbn in Hu.
    destruct (lb_UserExists _ _ _ _ Hok Hu) as [Hok1 Hv].
    destruct (IH _ _ Hok1 H1) as [? ->]. done.
Qed.

Lemma MakePlan_inv profiles p w w' : bk_ok w -> does (MakePlan profiles (Some f)) w (inl p) w' ->
  bk_ok w' /\ bk_view w' = bk_view w /\
  exists l bs, (exists w1, bk_does BList w (inl l) w1) /\ plan_of p (bk_view w) l bs.
Proof.
  intros Hok (r & w1 & Hd & Hr). destruct (lb_List _ _ _ Hok Hd) as (Hok1 & Hv & Hl).
  destruct r as [l|e]; [|by destruct Hr]. specialize (Hl l eq_refl).
  apply runs_bind in Hr as (checked & w2 & Hc & Hr). destruct (catalog_view _ _ _ _ _ Hok1 Hc) as [Hok2 Hv2].
  destruct (checked.1); [|by destruct Hr]. destruct (planPrincipals f (specs f) l) as [cs|e] eqn:Ep; [|by destruct Hr].
  destruct (planRemovals f l) as [[removals unmanaged] warnings] eqn:Er. destruct Hr as [[= ->] ->].
  split; [done|]. split; [congruence|]. destruct (planPrincipals_blocks _ _ _ _ Ep) as (bs & Hbs & ->).
  exists l, bs. split; [by exists w1|]. split; cbn; [done|done|by rewrite Er|done].
Qed.

Lemma Apply_inv p opts w r w' : bk_ok w -> does (Apply (Some p) (Some f) opts) w r w' ->
  (bk_view w' = bk_view w /\ r.1 = no_result /\ is_Some r.2) \/
  (exists l w1, bk_does BList w (inl l) w1 /\ shows l (bk_view w) /\ bk_view w1 = bk_view w /\ bk_ok w1 /\ stateHash l = pl_StateHash p /\
     (Widening p = true -> ao_ApproveWidening opts = true) /\
     does (applyAll (ordered (pl_Changes p)) f (ids_of l) (ao_Actor opts) []) w1 r w').
Proof.
  intros Hok. unfold Apply. destruct (_ =s ""); [intros [-> ->]; left; by split_and!|].
  intros (st & w1 & Hd & Hr). cbn in Hd. destruct (lb_List _ _ _ Hok Hd) as (Hok1 & Hv & Hl).
  destruct st as [l|e]; [|destruct Hr as [-> ->]; left; by split_and!]. specialize (Hl l eq_refl).
  destruct (fileHash f <>s pl_FileHash p); cbn [orb] in Hr; [destruct Hr as [-> ->]; left; by split_and!|].
  destruct (String.eqb_spec (stateHash l) (pl_StateHash p)) as [Hh|Hh]; cbn [negb] in Hr; [|destruct Hr as [-> ->]; left; by split_and!].
  destruct (Widening p) eqn:Ew, (ao_ApproveWidening opts) eqn:Ea; cbn [andb negb] in Hr;
    [|destruct Hr as [-> ->]; left; by split_and!|..]; right; exists l, w1; by split_and!.
Qed.
End Running.

(** ** The changes of a plan *)

Section PlanChanges.
Context (f : File) (p : Plan) (v : View) (l : list Principal) (bs : list (list Change)).
Hypothesis Hplan : plan_of f p v l bs.

(** A change is of a declared principal that is new, of one that is there, or retires
    one that is no longer listed. *)
Definition new_change (want : PrincipalSpec) (c : Change) : Prop :=
  ch_Principal c = sp_Name want /\ ch_Widening c = true /\
  (ch_Op c = OpCreate \/ ch_Op c = OpBind /\ exists i, ch_Identity c = Some i /\ i ∈ idents want).

Lemma block_changes want b c : planned f want l b -> c ∈ b ->
  match v !! sp_Name want with
  | None => new_change want c
  | Some h => manageable f want h /\ revises f want h c
  end.
Proof.
  intros Hb Hc. apply planned_inv in Hb. rewrite <- (byName_shows _ _ _ (po_shows _ _ _ _ _ Hplan)).
  destruct (byName l (sp_Name want)) as [have|]; cbn.
  - destruct Hb as [Hm ->]. split; [done|]. apply revision_revises; [|done]. by apply Hm.
  - subst b. apply elem_of_cons in Hc as [->|Hc]; [split_and!; auto|].
    apply list_elem_of_In, in_map_iff in Hc as (i & <- & Hi). split_and!; try done. right. split; [done|].
    exists i. split; [done|]. by apply list_elem_of_In.
Qed.

Lemma plan_changes c : c ∈ pl_Changes p ->
  (exists want, want ∈ specs f /\ match v !! sp_Name want with
                                  | None => new_change want c
                                  | Some h => manageable f want h /\ revises f want h c
                                  end) \/
  (exists n h, v !! n = Some h /\ retires f h n = true /\ c = retirement h n).
Proof.
  rewrite (po_changes _ _ _ _ _ Hplan), elem_of_app. intros [Hc|Hc].
  - left. apply list_elem_of_In, in_concat in Hc as (b & Hb & Hc). apply list_elem_of_In in Hb, Hc.
    apply list_elem_of_lookup in Hb as [i Hi].
    destruct (Forall2_lookup_r _ _ _ _ _ (po_blocks _ _ _ _ _ Hplan) Hi) as (want & Hw & Hpl). exists want.
    split; [by apply list_elem_of_lookup_2 in Hw|]. by eapply block_changes.
  - right. apply removals_elem in Hc as (q & Hq & Hr & ->). exists (fp_Name q), (holder_of q). split; [|done].
    apply (proj2 (po_shows _ _ _ _ _ Hplan)). by exists q.
Qed.

Lemma revises_creates want h c : revises f want h c -> creates c = false.
Proof. intros [_ Hr]. unfold creates. by destruct (ch_Op c). Qed.

Lemma plan_plannable https_url actor c : validate https_url f = None -> c ∈ pl_Changes p -> plannable f actor c.
Proof.
  intros Hv Hc. unfold plannable. destruct (plan_changes c Hc) as [(want & Hw & Hm)|(n & h & _ & _ & ->)]; [|done].
  destruct (v !! sp_Name want) as [h|].
  - destruct Hm as [_ [_ Hr]]. destruct (ch_Op c); try done; [destruct Hr as [_ (i & -> & _)]|destruct Hr as (i & -> & _)]; by eexists.
  - destruct Hm as (Hn & _ & [-> | (-> & i & -> & _)]); [|by eexists]. rewrite Hn, (find_spec _ _ Hv want Hw).
    destruct (valid_specs _ _ Hv) as [_ Hs]. destruct (Hs want Hw) as [Hst [r Hr]]. split; [|done].
    split_and!; [done| |done]. intros E. cbn in E. by rewrite E in Hr.
Qed.

(** What is there, or what is created before it, is what a change is of. *)
Lemma narrow_present c : c ∈ pl_Changes p -> ch_Widening c = false -> ch_Principal c ∈ dom v.
Proof.
  intros Hc Hn. apply elem_of_dom. destruct (plan_changes c Hc) as [(want & Hw & Hm)|(n & h & Hh & _ & ->)]; [|by exists h].
  destruct (v !! sp_Name want) as [h|] eqn:E.
  - destruct Hm as [_ [-> _]]. by exists h.
  - destruct Hm as (_ & Hw' & _). congruence.
Qed.

Lemma block_sound want b : planned f want l b -> sound (List.filter ch_Widening b) (dom v).
Proof.
  intros Hb. assert (Hc := fun c => block_changes want b c Hb). destruct (v !! sp_Name want) as [h|] eqn:E.
  - apply sound_present. intros c [Hin _]%list_elem_of_In%filter_In. apply list_elem_of_In in Hin.
    destruct (Hc c Hin) as [_ [-> _]]. apply elem_of_dom. by exists h.
  - assert (Hb' := planned_inv _ _ _ _ Hb). assert (Hbn := byName_shows _ _ (sp_Name want) (po_shows _ _ _ _ _ Hplan)).
    rewrite E in Hbn. destruct (byName l (sp_Name want)); [done|]. subst b. cbn. split; [done|].
    apply sound_present. intros c [Hin _]%list_elem_of_In%filter_In.
    apply in_map_iff in Hin as (i & <- & _). cbn. set_solver.
Qed.

Lemma filter_concat {A} (g : A -> bool) ls : List.filter g (concat ls) = concat (map (List.filter g) ls).
Proof. induction ls as [|x ls IH]; [done|]. cbn. by rewrite List.filter_app, IH. Qed.

Lemma plan_sound : sound (ordered (pl_Changes p)) (dom v).
Proof.
  rewrite ordered_split. apply sound_app.
  - apply sound_present. intros c [Hin Hn]%list_elem_of_In%filter_In. apply narrow_present; [by apply list_elem_of_In|].
    by apply negb_true_iff in Hn.
  - rewrite (po_changes _ _ _ _ _ Hplan), List.filter_app, filter_concat. apply sound_app.
    + assert (Hs : forall wants bs', Forall2 (fun want b => planned f want l b) wants bs' ->
        sound (concat (map (List.filter ch_Widening) bs')) (dom v)).
      { intros wants bs' Hbs. induction Hbs as [|want b wants bs' Hb Hbs IH]; [done|]. cbn. apply sound_app; [|done].
        by eapply block_sound. }
      eapply Hs, Hplan.
    + apply sound_present. intros c [Hin Hw]%list_elem_of_In%filter_In.
      by apply list_elem_of_In, removals_elem in Hin as (q & _ & _ & ->).
Qed.
End PlanChanges.

(** ** One principal's changes *)

Section OnePrincipal.
Context (f : File) (actor : string) (want : PrincipalSpec).

(** A principal is as the file declares it. *)
Record declared (h : Holder) : Prop := {
  de_fields : forall x, x ∈ fields -> get x h = declared_field f want x;
  de_tenant : h_Tenant h = sp_Tenant want;
  de_idents : forall i, i ∈ h_Identities h <-> i ∈ idents want;
}.

Lemma get_set x y t h : x ∈ fields -> get x (set_field y t h) = if x =s y then t else get x h.
Proof.
  intros Hx. unfold get, set_field. rewrite (String.eqb_sym x y).
  repeat (apply elem_of_cons in Hx as [->|Hx]); [..|by apply not_elem_of_nil in Hx]; cbn;
    (destruct (y =s _) eqn:E; [apply String.eqb_eq in E as ->|]; cbn; done).
Qed.

Definition of_field (x : string) (c : Change) : Prop := ch_Field c = x /\ ch_Op c <> OpBind /\ ch_Op c <> OpUnbind.
Definition of_bind (op : Op) (i : Identity) (c : Change) : Prop := ch_Op c = op /\ ch_Identity c = Some i.

(** Where [h] is as declared, or a change of [L] makes it so, [h'] is as declared. *)
Record moved (L : list Change) (h h' : Holder) : Prop := {
  mo_tenant : h_Tenant h' = h_Tenant h;
  mo_fields : forall x, x ∈ fields -> get x h = declared_field f want x \/ (exists c, c ∈ L /\ of_field x c) ->
    get x h' = declared_field f want x;
  mo_binds : forall i, i ∈ idents want -> i ∈ h_Identities h \/ (exists c, c ∈ L /\ of_bind OpBind i c) -> i ∈ h_Identities h';
  mo_unbinds : forall i, i ∉ idents want -> i ∉ h_Identities h \/ (exists c, c ∈ L /\ of_bind OpUnbind i c) ->
    i ∉ h_Identities h';
}.

Lemma moved_step c h0 h h1 : revises f want h0 c -> hstep f actor c (Some h) h1 -> moved [c] h h1.
Proof.
  intros [_ Hr] Hs. unfold hstep in Hs.
  assert (Hset : ch_Op c <> OpBind -> ch_Op c <> OpUnbind -> ch_To c = declared_field f want (ch_Field c) ->
    h1 = set_field (ch_Field c) (ch_To c) h -> moved [c] h h1).
  { intros N1 N2 Hto ->. split; [done|..].
    - intros x Hx Hor. rewrite get_set by done. destruct (String.eqb_spec x (ch_Field c)) as [->|Hne]; [done|].
      destruct Hor as [Ho|(d & ->%list_elem_of_singleton & Hd & _)]; [done|]. by destruct Hne.
    - intros i Hi [Ho|(d & ->%list_elem_of_singleton & Hd & _)]; done.
    - intros i Hi [Ho|(d & ->%list_elem_of_singleton & Hd & _)]; done. }
  destruct (ch_Op c) eqn:Ec; try done;
    try (destruct Hs as (h2 & [= <-] & ->), Hr as (_ & Hr & _); by apply Hset).
  - destruct Hs as (h2 & i & [= <-] & Hi & ->), Hr as (_ & j & Hj & Hw). rewrite Hi in Hj. injection Hj as <-.
    split; [done|..].
    + intros x Hx [Ho|(d & ->%list_elem_of_singleton & _ & Hd & _)]; done.
    + intros k Hk [Ho|(d & ->%list_elem_of_singleton & _ & Hd)]; cbn; [set_solver|].
      rewrite Hi in Hd. injection Hd as ->. set_solver.
    + intros k Hk [Ho|(d & ->%list_elem_of_singleton & Hd & _)]; cbn; [set_solver|congruence].
  - destruct Hs as (h2 & i & [= <-] & Hi & ->), Hr as (j & Hj & Hw). rewrite Hi in Hj. injection Hj as <-.
    split; [done|..].
    + intros x Hx [Ho|(d & ->%list_elem_of_singleton & _ & _ & Hd)]; done.
    + intros k Hk [Ho|(d & ->%list_elem_of_singleton & Hd & _)]; cbn; [set_solver|congruence].
    + intros k Hk [Ho|(d & ->%list_elem_of_singleton & _ & Hd)]; cbn; [set_solver|].
      rewrite Hi in Hd. injection Hd as ->. set_solver.
Qed.

Lemma moved_trans c L h h1 h' : moved [c] h h1 -> moved L h1 h' -> moved (c :: L) h h'.
Proof.
  intros [A1 A2 A3 A4] [B1 B2 B3 B4].
  assert (Hsplit : forall P : Change -> Prop, (exists d, d ∈ c :: L /\ P d) -> (exists d, d ∈ [c] /\ P d) \/ (exists d, d ∈ L /\ P d)).
  { intros P (d & [->|Hd]%elem_of_cons & HP); [left; exists c; split; [by left|done]|right; by exists d]. }
  split; [congruence|..].
  - intros x Hx [Ho|[Ho|Ho]%Hsplit]; apply B2; auto.
  - intros i Hi [Ho|[Ho|Ho]%Hsplit]; apply B3; auto.
  - intros i Hi [Ho|[Ho|Ho]%Hsplit]; apply B4; auto.
Qed.

Lemma moved_all L h0 h o' : (forall c, c ∈ L -> revises f want h0 c) -> hsteps f actor L (Some h) o' ->
  exists h', o' = Some h' /\ moved L h h'.
Proof.
  revert h. induction L as [|c L IH]; intros h Hr; cbn [hsteps].
  - intros ->. exists h. split; [done|]. split; [done|..]; intros x Hx [Ho|(c & ?%not_elem_of_nil & _)]; done.
  - intros (h1 & Hs & Hrest). assert (Hc := moved_step _ _ _ _ (Hr c ltac:(by left)) Hs).
    destruct (IH h1) as (h' & -> & Hm); [intros d Hd; apply Hr; by right|done|]. exists h'. split; [done|].
    by eapply moved_trans.
Qed.

(** A principal that is there is revised into what is declared. *)
Lemma revised_declared L have o' : manageable f want (holder_of have) ->
  (forall c, c ∈ L <-> c ∈ revision f want have) -> hsteps f actor L (Some (holder_of have)) o' ->
  exists h', o' = Some h' /\ declared h'.
Proof.
  intros (_ & Hm & Ht) HL Hs. destruct (moved_all L (holder_of have) (holder_of have) o') as (h' & -> & [M1 M2 M3 M4]); [|done|].
  { intros c Hc. apply revision_revises; [done|by apply HL]. }
  exists h'. split; [done|]. split.
  - intros x Hx. apply M2; [done|]. destruct (revision_covers f want have x Hx) as [H|[[H1 H2]|(c & H1 & H2)]]; [by left| |].
    + by destruct Hm.
    + right. exists c. split; [by apply HL|done].
  - congruence.
  - intros i. destruct (decide (i ∈ idents want)) as [Hi|Hi].
    + split; [done|]. intros _. apply M3; [done|]. destruct (decide (i ∈ h_Identities (holder_of have))) as [Hh|Hh]; [by left|].
      right. destruct (revision_binds f want have i Hi Hh) as (c & Hc & Ho). exists c. split; [by apply HL|done].
    + split; [|done]. intros Hin. exfalso. revert Hin. apply M4; [done|].
      destruct (decide (i ∈ h_Identities (holder_of have))) as [Hh|Hh]; [|by left].
      right. destruct (revision_unbinds f want have i Hi Hh) as (c & Hc & Ho). exists c. split; [by apply HL|done].
Qed.

(** One that is not there is created and bound as declared. *)
Lemma created_declared L o' : find f (sp_Name want) = want ->
  (forall c, c ∈ L -> new_change want c) -> (exists c, c ∈ L /\ ch_Op c = OpCreate) ->
  (forall i, i ∈ idents want -> exists c, c ∈ L /\ of_bind OpBind i c) -> hsteps f actor L None o' ->
  exists h', o' = Some h' /\ declared h'.
Proof.
  intros Hf Hnew (c0 & Hc0 & Ho0) Hb Hs. destruct L as [|c L]; [by apply not_elem_of_nil in Hc0|].
  destruct Hs as (h1 & Hs & Hrest). destruct (Hnew c ltac:(by left)) as (Hn & _ & Hop). unfold hstep in Hs.
  destruct Hop as [Hop|[Hop _]]; rewrite Hop in Hs; [|by destruct Hs as (h & i & [=] & _)].
  destruct Hs as (_ & id & ->). rewrite Hn, Hf in Hrest.
  set (h0 := with_ID id (holder_of (created_by f actor want))) in Hrest.
  destruct (moved_all L h0 h0 o') as (h' & -> & [M1 M2 M3 M4]); [|done|].
  { intros d Hd. destruct (Hnew d ltac:(by right)) as (Hdn & Hdw & Hop'). split; [done|].
    destruct Hop' as [Hop'|[Hop' Hi]]; rewrite Hop'; [|done]. exfalso. clear - Hrest Hd Hop'.
    revert Hrest. generalize h0. revert o'.
    induction L as [|e L IH]; intros o' h; [by apply not_elem_of_nil in Hd|]. intros (h1 & Hs & Hr).
    apply elem_of_cons in Hd as [<-|Hd]; [|by eapply IH]. unfold hstep in Hs. rewrite Hop' in Hs. by destruct Hs. }
  exists h'. split; [done|]. split.
  - intros x Hx. apply M2; [done|]. left.
    repeat (apply elem_of_cons in Hx as [->|Hx]; [done|]). by apply not_elem_of_nil in Hx.
  - done.
  - intros i. destruct (decide (i ∈ idents want)) as [Hi|Hi].
    + split; [done|]. intros _. apply M3; [done|]. right. destruct (Hb i Hi) as (d & [->|Hd]%elem_of_cons & Ho); [|by exists d].
      destruct Ho. congruence.
    + split; [|done]. intros Hin. exfalso. revert Hin. apply M4; [done|]. left. cbn. set_solver.
Qed.

(** Nothing is left to revise. *)
Lemma declared_revision have : managedBy f <> "" -> declared (holder_of have) -> revision f want have = [].
Proof.
  intros Hne [D1 D2 D3]. assert (E : forall x, x ∈ fields -> get x (holder_of have) = declared_field f want x) by done.
  unfold revision, adoption, fieldChanges, identityChanges.
  assert (E1 := E "profile" ltac:(set_solver)). assert (E2 := E "env_ceiling" ltac:(set_solver)).
  assert (E3 := E "sponsor" ltac:(set_solver)). assert (E4 := E "status" ltac:(set_solver)).
  assert (E5 := E "managed_by" ltac:(set_solver)). cbn in E1, E2, E3, E4, E5. rewrite E1, E2, E3, E4, E5.
  rewrite !String.eqb_refl, (proj2 (String.eqb_neq _ _) Hne). cbn.
  assert (Hnil : forall (g : Identity -> bool) (l : list Identity), (forall i, i ∈ l -> g i = true) -> List.filter (fun i => negb (g i)) l = []).
  { intros g l. induction l as [|i l IH]; intros Hg; [done|]. cbn. rewrite Hg by (by left). cbn. apply IH. intros j Hj. apply Hg. by right. }
  rewrite (Hnil (fun i => mem i (fp_Identities have))), (Hnil (fun i => mem i (idents want))); [done|..].
  - intros i Hi. unfold mem. apply bool_decide_eq_true. apply D3. cbn. by apply elem_of_list_to_set.
  - intros i Hi. unfold mem. apply bool_decide_eq_true. apply D3 in Hi. cbn in Hi. by apply elem_of_list_to_set in Hi.
Qed.
End OnePrincipal.

(** ** What the changes of a plan make of the principals *)

Section Outcome.
Context (https_url : string -> bool) (f : File) (actor : string) (p : Plan) (v : View) (l : list Principal)
  (bs : list (list Change)).
Hypothesis Hvalid : validate https_url f = None.
Hypothesis Hplan : plan_of f p v l bs.

Abbreviation part n := (List.filter (about n) (ordered (pl_Changes p))).

Lemma of_elem n c : c ∈ part n <-> c ∈ pl_Changes p /\ ch_Principal c = n.
Proof.
  rewrite list_elem_of_In, filter_In, <- list_elem_of_In, ordered_elem. unfold about. by rewrite String.eqb_eq.
Qed.

Lemma block_principal want b c : planned f want l b -> c ∈ b -> ch_Principal c = sp_Name want.
Proof.
  intros Hb Hc. assert (H := block_changes _ _ _ _ _ Hplan want b c Hb Hc).
  destruct (v !! sp_Name want); [by destruct H as [_ [-> _]]|by destruct H].
Qed.

Lemma retires_unlisted h n : retires f h n = true -> listed f n = false.
Proof. unfold retires. by destruct (listed f n). Qed.

(** The changes of a declared principal are its block. *)
Lemma of_listed want : want ∈ specs f -> exists b, planned f want l b /\ forall c, c ∈ part (sp_Name want) <-> c ∈ b.
Proof.
  intros Hw. assert (Hw' := Hw). apply list_elem_of_lookup in Hw' as [i Hi].
  destruct (Forall2_lookup_l _ _ _ _ _ (po_blocks _ _ _ _ _ Hplan) Hi) as (b & Hbi & Hb). exists b. split; [done|].
  intros c. rewrite of_elem, (po_changes _ _ _ _ _ Hplan), elem_of_app. split.
  - intros [[Hc|Hc] Hn].
    + apply list_elem_of_In, in_concat in Hc as (b' & Hb' & Hc). apply list_elem_of_In in Hb', Hc.
      apply list_elem_of_lookup in Hb' as [j Hj].
      destruct (Forall2_lookup_r _ _ _ _ _ (po_blocks _ _ _ _ _ Hplan) Hj) as (want' & Hwj & Hb').
      assert (E : sp_Name want' = sp_Name want) by (rewrite <- Hn; symmetry; by eapply block_principal).
      destruct (valid_specs _ _ Hvalid) as [Hnd _]. assert (i = j) as <-; [|congruence].
      eapply NoDup_lookup; [exact Hnd| |].
      * change (map sp_Name) with (fmap (M := list) sp_Name). rewrite list_lookup_fmap, Hi. done.
      * change (map sp_Name) with (fmap (M := list) sp_Name). rewrite list_lookup_fmap, Hwj. cbn. by rewrite E.
    + apply removals_elem in Hc as (q & _ & Hr%retires_unlisted & ->). cbn in Hn. rewrite Hn in Hr.
      assert (listed f (sp_Name want) = true); [|congruence]. apply listed_spec. by exists want.
  - intros Hc. split; [|by eapply block_principal]. left. apply list_elem_of_In, in_concat. exists b.
    split; apply list_elem_of_In; [|done]. apply list_elem_of_lookup. by exists i.
Qed.

Lemma outcome_listed v' want : vsteps f actor (ordered (pl_Changes p)) v v' -> want ∈ specs f ->
  exists h', v' !! sp_Name want = Some h' /\ declared f want h'.
Proof.
  intros Hs Hw. apply vsteps_about with (n := sp_Name want) in Hs. destruct (of_listed want Hw) as (b & Hb & Hof).
  assert (Hinv := planned_inv _ _ _ _ Hb). assert (Hbn := byName_shows _ _ (sp_Name want) (po_shows _ _ _ _ _ Hplan)).
  destruct (byName l (sp_Name want)) as [have|]; cbn in Hbn; rewrite <- Hbn in Hs.
  - destruct Hinv as [Hm ->]. eapply revised_declared; [exact Hm| |exact Hs]. done.
  - eapply (created_declared f actor want); [by eapply find_spec| | | |exact Hs].
    + intros c Hc%Hof. assert (H := block_changes _ _ _ _ _ Hplan want b c Hb Hc). by rewrite <- Hbn in H.
    + eexists. rewrite Hof. subst b. split; [by left|done].
    + intros i Hi. exists (ident_change OpBind (sp_Name want) i true). rewrite Hof. subst b. split; [|done].
      right. apply list_elem_of_In, in_map_iff. exists i. split; [done|]. by apply list_elem_of_In.
Qed.

(** A principal no longer listed is retired if the file prunes and manages it. *)
Definition left_over (h : Holder) (n : string) : Holder :=
  if retires f h n then set_field "status" "retired" h else h.

Lemma of_unlisted n c : listed f n = false -> c ∈ part n ->
  exists h, v !! n = Some h /\ retires f h n = true /\ c = retirement h n.
Proof.
  intros Hl [Hc Hn]%of_elem. destruct (plan_changes _ _ _ _ _ Hplan c Hc) as [(want & Hw & Hm)|(m & h & Hh & Hr & ->)].
  - assert (listed f n = true); [|congruence]. apply listed_spec. exists want. split; [done|]. rewrite <- Hn.
    destruct (v !! sp_Name want); [by destruct Hm as [_ [-> _]]|by destruct Hm].
  - cbn in Hn. subst m. by exists h.
Qed.

Lemma outcome_unlisted v' n : vsteps f actor (ordered (pl_Changes p)) v v' -> listed f n = false ->
  v' !! n = (fun h => left_over h n) <$> v !! n.
Proof.
  intros Hs Hl. apply vsteps_about with (n := n) in Hs. assert (Hof := fun c => of_unlisted n c Hl).
  destruct (v !! n) as [h|] eqn:E; cbn.
  - assert (Hre : retires f h n = true -> retirement h n ∈ part n).
    { intros Hr. apply of_elem. split; [|done]. rewrite (po_changes _ _ _ _ _ Hplan). apply elem_of_app. right.
      apply removals_elem. apply (proj2 (po_shows _ _ _ _ _ Hplan)) in E as (q & Hq & <- & <-). by exists q. }
    unfold left_over. destruct (part n) as [|c L]; cbn in Hs.
    + destruct (retires f h n); [by apply not_elem_of_nil in Hre|done].
    + destruct (Hof c ltac:(by left)) as (h2 & [= <-] & Hr & ->). rewrite Hr. clear Hre. cbn in Hs.
      destruct Hs as (h1 & (h2 & [= <-] & ->) & Hs). cbn in Hs.
      assert (Hset : set_field "status" "retired" (set_field "status" "retired" h) = set_field "status" "retired" h) by done.
      assert (HL : forall c, c ∈ L -> c = retirement h n).
      { intros c Hc. by destruct (Hof c ltac:(by right)) as (h2 & [= <-] & _ & ->). }
      clear Hof. induction L as [|c L IH]; [done|]. destruct Hs as (h1 & Hc & Hs).
      rewrite (HL c ltac:(by left)) in Hc. destruct Hc as (h2 & [= <-] & ->). cbn in Hs. rewrite Hset in Hs.
      apply IH; [done|]. intros d Hd. apply HL. by right.
  - destruct (part n) as [|c L]; [done|]. by destruct (Hof c ltac:(by left)) as (h & [=] & _).
Qed.

(** Once all is as declared, a plan has nothing to change. *)
Lemma plan_empty : (forall want, want ∈ specs f -> exists h, v !! sp_Name want = Some h /\ declared f want h) ->
  (forall n h, v !! n = Some h -> retires f h n = false) -> pl_Changes p = [].
Proof.
  intros Hd Hr. rewrite (po_changes _ _ _ _ _ Hplan).
  assert (Hrem : (planRemovals f l).1.1 = []).
  { destruct (planRemovals f l).1.1 as [|c cs] eqn:E; [done|]. assert (Hc : c ∈ (planRemovals f l).1.1) by (rewrite E; by left).
    apply removals_elem in Hc as (q & Hq & Hret & _). rewrite (Hr (fp_Name q) (holder_of q)) in Hret; [done|].
    apply (proj2 (po_shows _ _ _ _ _ Hplan)). by exists q. }
  rewrite Hrem, app_nil_r. assert (Hbs := po_blocks _ _ _ _ _ Hplan). revert Hd. generalize (specs f) as wants, bs, Hbs.
  intros wants bs' Hall. induction Hall as [|want b wants bs' Hb Hall IH]; intros Hd; [done|]. cbn.
  rewrite IH by (intros w Hw; apply Hd; by right). apply planned_inv in Hb.
  destruct (Hd want ltac:(by left)) as (h & Hh & Hdec). rewrite <- (byName_shows _ _ _ (po_shows _ _ _ _ _ Hplan)) in Hh.
  destruct (byName l (sp_Name want)) as [have|]; [|done]. injection Hh as <-. destruct Hb as [_ ->].
  by rewrite declared_revision.
Qed.
End Outcome.
