(* ===== verification/PrincipalCore.v ===== *)
(** * The core backend of principals files

    internal/principalfile/core.go: the backend over the principal store, the identity
    bindings and the owner table; and that it keeps the laws planning and applying
    rely on. *)

From S2P Require Import Prelude.
From S2P Require Import GoStd.
From S2P Require Principal.
From S2P Require Guard.
From S2P Require Import PrincipalStore.
From S2P Require Import PrincipalFile.
From S2P Require Import PrincipalApply.
From Stdlib Require Import Sorted.

Open Scope go_scope.

(** ** core.go *)

Definition bindingCreator : string := "principals-file".

(** The text of a store's error. *)
Definition guard_text (e : Guard.GuardError) : error :=
  match e with Guard.ErrInvalid m => m | Guard.ErrNotFound => "not found" | Guard.ErrRetired => "retired" | _ => "unavailable" end.
Definition fault_text (f : failed) : error := match f with OtherFault e => e | _ => "constraint violated" end.
Definition store_text (e : StoreError) : error :=
  match e with
  | Guarded e => guard_text e
  | ErrDuplicateName what => "duplicate name: " +:+ what
  | ErrSponsorNotFound what => "sponsor not found: " +:+ what
  | Faulted what f => "agentguard: " +:+ what +:+ ": " +:+ fault_text f
  end.

(** A principal with its sponsor's email, owning file and identities. *)
Definition principal (e : extras) (p : Principal.Principal) : Principal :=
  {| fp_ID := Principal.p_ID p; fp_Name := Principal.p_Name p;
     fp_Sponsor := match Principal.p_SponsorUserID p with Some u => default "" (ex_emails e !! u) | None => "" end;
     fp_Profile := Principal.p_Profile p; fp_EnvCeiling := Principal.p_EnvCeiling p; fp_Tenant := Principal.p_Tenant p;
     fp_Status := Principal.p_Status p;
     fp_ManagedBy := match ex_owners e !! Principal.p_ID p with Some file => "file:" +:+ file | None => "" end;
     fp_CreatedBy := Principal.p_CreatedBy p; fp_Identities := default [] (ex_identities e !! Principal.p_ID p) |}.

Section Core.
Context (pool : bool).

(** The pages of [List], as many as [fuel]. *)
Definition more_pages : error := "more pages".

Fixpoint list_all (fuel : nat) (cursor : string) (all : list Principal.Principal)
    : PrincipalStore.prog (list Principal.Principal + error) :=
  match fuel with
  | O => Ret (inr more_pages)
  | S fuel =>
      do* page := PrincipalStore.List pool {| lo_Limit := 200; lo_Cursor := cursor; lo_Status := "" |} in
      match page with
      | inr e => Ret (inr ("list principals: " +:+ store_text e))
      | inl page =>
          let all := all ++ pg_Items page in
          if pg_NextCursor page =s "" then Ret (inl all) else list_all fuel (pg_NextCursor page) all
      end
  end.

Definition core_List (fuel : nat) : PrincipalStore.prog (list Principal + error) :=
  do* all := list_all fuel "" [] in
  match all with
  | inr e => Ret (inr e)
  | inl all =>
      do~ extra := SelectExtras in
      Ret match extra with
          | inr f => inr ("read principal sponsors, owners and identities: " +:+ fault_text f)
          | inl e => inl (map (principal e) all)
          end
  end.

Definition sponsorID (email : string) : PrincipalStore.prog (option Z + error) :=
  if email =s "" then Ret (inl None) else
  do~ r := SelectUser email in
  Ret match r with
      | inl (Some id) => inl (Some id)
      | inl None => inr ("sponsor " +:+ quote email +:+ " is not a pg_sage user")
      | inr f => inr ("look up sponsor: " +:+ fault_text f)
      end.

Definition own (id managedBy actor : string) : PrincipalStore.prog (option error) :=
  if negb (HasPrefix managedBy "file:") || (TrimPrefix managedBy "file:" =s "")
  then Ret (Some ("owner " +:+ quote managedBy +:+ " is not a principals file")) else
  do~ r := UpsertOwner id (TrimPrefix managedBy "file:") actor in
  Ret match r with inl _ => None | inr f => Some ("record the owning file: " +:+ fault_text f) end.

(** The id with the error, as Go returns both. *)
Definition core_Create (p : Principal) : PrincipalStore.prog (string * option error) :=
  do* sponsor := sponsorID (fp_Sponsor p) in
  match sponsor with
  | inr e => Ret ("", Some e)
  | inl sponsor =>
      do* created := Create pool {| cq_Name := fp_Name p; cq_SponsorUserID := sponsor; cq_Tenant := fp_Tenant p;
                                    cq_Profile := fp_Profile p; cq_EnvCeiling := fp_EnvCeiling p;
                                    cq_CreatedBy := fp_CreatedBy p |} in
      match created with
      | inr e => Ret ("", Some (store_text e))
      | inl created =>
          let id := Principal.p_ID created in
          do* frozen :=
            (if fp_Status p =s Principal.StatusFrozen
             then do* r := SetStatus pool id Principal.StatusFrozen ("declared frozen in " +:+ fp_ManagedBy p) in
                  Ret match r with inl _ => None | inr e => Some (store_text e) end
             else Ret None) in
          match frozen with
          | Some e => Ret (id, Some e)
          | None => do* owned := own id (fp_ManagedBy p) (fp_CreatedBy p) in Ret (id, owned)
          end
      end
  end.

Definition no_patch : Patch := {| pt_SponsorUserID := None; pt_Profile := None; pt_EnvCeiling := None |}.

Definition updated {A} (r : A + StoreError) : unit + error := match r with inl _ => inl tt | inr e => inr (store_text e) end.

Definition core_Update (id : string) (ch : Change) : PrincipalStore.prog (unit + error) :=
  let update patch := do* r := Update pool id patch in Ret (updated r) in
  if ch_Field ch =s "profile"
  then update {| pt_SponsorUserID := None; pt_Profile := Some (ch_To ch); pt_EnvCeiling := None |} else
  if ch_Field ch =s "env_ceiling"
  then update {| pt_SponsorUserID := None; pt_Profile := None; pt_EnvCeiling := Some (ch_To ch) |} else
  if ch_Field ch =s "sponsor" then
    if ch_To ch =s "" then Ret (inr "a sponsor cannot be removed through the file; set another") else
    do* sponsor := sponsorID (ch_To ch) in
    match sponsor with
    | inr e => Ret (inr e)
    | inl sponsor => update {| pt_SponsorUserID := sponsor; pt_Profile := None; pt_EnvCeiling := None |}
    end else
  if ch_Field ch =s "status" then
    do* r := SetStatus pool id (ch_To ch) ("principals file: " +:+ op_text (ch_Op ch)) in Ret (updated r) else
  if ch_Field ch =s "managed_by" then
    do* r := own id (ch_To ch) bindingCreator in
    Ret match r with None => inl tt | Some e => inr e end
  else Ret (inr ("field " +:+ quote (ch_Field ch) +:+ " cannot be changed through core")).

Definition core_Bind (id : string) (ident : Identity) : PrincipalStore.prog (unit + error) :=
  do~ r := InsertBinding id ident in
  Ret match r with inl _ => inl tt | inr f => inr ("bind " +:+ of_ident ident +:+ ": " +:+ fault_text f) end.

Definition core_Unbind (id : string) (ident : Identity) : PrincipalStore.prog (unit + error) :=
  do~ r := DeleteBinding id ident in
  Ret match r with inl _ => inl tt | inr f => inr ("unbind " +:+ of_ident ident +:+ ": " +:+ fault_text f) end.

(** [CoreCatalog.UserExists]: a failed look-up counts as absent. *)
Definition core_UserExists (email : string) : PrincipalStore.prog (bool + error) :=
  do~ r := SelectUser email in
  Ret (inl match r with inl (Some _) => true | _ => false end).

(** The backend's and the catalog's calls. *)
Definition core (fuel : nat) (X : Type) (c : bcall X) : PrincipalStore.prog (X + error) :=
  match c in bcall X return PrincipalStore.prog (X + error) with
  | BList => core_List fuel
  | BCreate p => do* r := core_Create p in Ret match r.2 with None => inl r.1 | Some e => inr e end
  | BUpdate id ch => core_Update id ch
  | BBind id ident => core_Bind id ident
  | BUnbind id ident => core_Unbind id ident
  | BUserExists email => core_UserExists email
  end.
End Core.

(** The profiles of [SpecProfiles]. *)
Definition SpecProfiles : gmap string (list string) := list_to_map
  [("readonly-analyst", ["read"]); ("app-writer", ["read"; "write_insert"; "write_update"]);
   ("coding-agent", ["read"; "write_insert"; "write_update"; "write_delete"; "ddl_additive"; "ddl_locking"; "sandbox"]);
   ("legacy", ["read"])].

(** ** The tables as the backend shows them *)

Import Principal.

Abbreviation Row := Principal.Principal (only parsing).

Record tables_ok (w : Tables) : Prop := {
  to_rows : forall id p, ta_Principals w !! id = Some p -> p_ID p = id /\ ValidID id = true /\ ValidName (p_Name p) = true;
  to_names : forall id id' p p', ta_Principals w !! id = Some p -> ta_Principals w !! id' = Some p' ->
    p_Name p = p_Name p' -> id = id';
  to_owners : forall id file, ta_Owners w !! id = Some file -> file <> "";
  to_bound : forall i id, ta_Bindings w !! i = Some id -> is_Some (ta_Principals w !! id);
}.

Definition email_of (w : Tables) (s : option Z) : string :=
  match s with Some u => default "" (ta_Users w !! u) | None => "" end.
Definition owner_of (w : Tables) (id : string) : string :=
  match ta_Owners w !! id with Some file => "file:" +:+ file | None => "" end.

Definition holder (w : Tables) (id : string) (p : Row) : Holder :=
  {| h_ID := id; h_Sponsor := email_of w (p_SponsorUserID p); h_Profile := p_Profile p;
     h_EnvCeiling := p_EnvCeiling p; h_Tenant := p_Tenant p; h_Status := p_Status p; h_ManagedBy := owner_of w id;
     h_Identities := list_to_set (identities_of w id) |}.

Definition view (w : Tables) : View :=
  list_to_map (map (fun r => (p_Name r.2, holder w r.1 r.2)) (map_to_list (ta_Principals w))).

Lemma view_spec w n h : tables_ok w ->
  view w !! n = Some h <-> exists id p, ta_Principals w !! id = Some p /\ p_Name p = n /\ holder w id p = h.
Proof.
  intros Hok. unfold view. rewrite <- elem_of_list_to_map.
  - rewrite list_elem_of_In, in_map_iff. split.
    + intros ([id p] & [= <- <-] & Hin%list_elem_of_In%elem_of_map_to_list). by exists id, p.
    + intros (id & p & Hp & <- & <-). exists (id, p). split; [done|]. by apply list_elem_of_In, elem_of_map_to_list.
  - change (fmap (M := list) fst (map (fun r : string * Row => (p_Name r.2, holder w r.1 r.2)) (map_to_list (ta_Principals w))))
      with (map fst (map (fun r : string * Row => (p_Name r.2, holder w r.1 r.2)) (map_to_list (ta_Principals w)))).
    rewrite map_map. cbn. apply NoDup_fmap_2_strong; [|apply NoDup_map_to_list].
    intros [id p] [id' p'] H1%elem_of_map_to_list H2%elem_of_map_to_list E. cbn in E.
    assert (id = id') as <- by (by eapply (to_names w Hok)). congruence.
Qed.

Lemma view_none w n : tables_ok w -> (forall id p, ta_Principals w !! id = Some p -> p_Name p <> n) -> view w !! n = None.
Proof. intros Hok Hn. destruct (view w !! n) as [h|] eqn:E; [|done]. apply view_spec in E as (id & p & Hp & Hpn & _); [|done]. by destruct (Hn id p Hp). Qed.

(** One row written, and what is kept beside it: the others show as they did. *)
Lemma view_update w w' id p' : tables_ok w -> tables_ok w' ->
  ta_Principals w' = <[id := p']> (ta_Principals w) ->
  (forall p, ta_Principals w !! id = Some p -> p_Name p = p_Name p') ->
  (forall id2 p, id2 <> id -> holder w' id2 p = holder w id2 p) ->
  view w' = <[p_Name p' := holder w' id p']> (view w).
Proof.
  intros Hok Hok' Hrows Hname Hoth. apply map_eq. intros n. apply option_eq. intros h.
  rewrite view_spec by done. setoid_rewrite Hrows. destruct (decide (n = p_Name p')) as [->|Hne].
  - rewrite lookup_insert_eq. split.
    + intros (id2 & p2 & H2 & Hn & <-). assert (id2 = id) as ->.
      { eapply (to_names w' Hok'); [rewrite Hrows; exact H2|by rewrite Hrows, lookup_insert_eq|done]. }
      rewrite lookup_insert_eq in H2. by injection H2 as <-.
    + intros [= <-]. exists id, p'. by rewrite lookup_insert_eq.
  - rewrite lookup_insert_ne, view_spec by done. split; intros (id2 & p2 & H2 & Hn & Hh).
    + destruct (decide (id2 = id)) as [->|Hid]; [rewrite lookup_insert_eq in H2; congruence|].
      rewrite lookup_insert_ne in H2 by done. exists id2, p2. split; [done|]. split; [done|]. by rewrite <- (Hoth _ p2 Hid).
    + destruct (decide (id2 = id)) as [->|Hid]; [apply Hname in H2; congruence|].
      exists id2, p2. rewrite lookup_insert_ne by done. split; [done|]. split; [done|]. by rewrite (Hoth _ p2 Hid).
Qed.

Lemma view_same w w' : tables_ok w -> tables_ok w' -> ta_Principals w' = ta_Principals w ->
  (forall id p, holder w' id p = holder w id p) -> view w' = view w.
Proof.
  intros Hok Hok' Hr Hh. apply map_eq. intros n. apply option_eq. intros h. rewrite !view_spec by done.
  rewrite Hr. by setoid_rewrite Hh.
Qed.

Lemma identities_elem w id i : i ∈ identities_of w id <-> ta_Bindings w !! i = Some id.
Proof.
  unfold identities_of. rewrite list_elem_of_In, in_map_iff. split.
  - intros ([j id2] & <- & [Hin E]%filter_In). apply String.eqb_eq in E. cbn in *. subst id2.
    by apply elem_of_map_to_list, list_elem_of_In.
  - intros Hi. exists (i, id). split; [done|]. apply filter_In. split; [|by apply String.eqb_eq].
    by apply list_elem_of_In, elem_of_map_to_list.
Qed.

(** ** Statements *)

Definition may (X : Type) (st : stmt X) (w : Tables) (r : X + failed) (w' : Tables) : Prop :=
  exists how, exec how st w = Some (r, w').

Lemma may_ways X (st : stmt X) w r w' : may X st w r w' ->
  exists x, (r = (exec_done x st w).1 \/ exists e, r = inr (OtherFault e)) /\
            (w' = (exec_done x st w).2 \/ w' = w /\ exists e, r = inr (OtherFault e)).
Proof.
  intros [[x|applied x e] H]; cbn in H; exists x.
  - injection H as ->. cbn. auto.
  - injection H as <- <-. split; [right; by eexists|]. destruct applied; [by left|right; split; [done|by eexists]].
Qed.

(** What only reads. *)
Lemma may_read X (st : stmt X) w r w' : (forall x, (exec_done x st w).2 = w) -> may X st w r w' -> w' = w.
Proof. intros Hr (x & _ & [->|[-> _]])%may_ways; [apply Hr|done]. Qed.

(** Rows written by one statement keep the tables well formed. *)
Lemma ok_row w id p p' : tables_ok w -> ta_Principals w !! id = Some p -> p_ID p' = p_ID p -> p_Name p' = p_Name p ->
  tables_ok (set_Principals (<[id := p']> (ta_Principals w)) w).
Proof.
  intros [H1 H2 H3 H4] Hp Hid Hn. split; cbn; [| |done|].
  - intros id2 p2. destruct (decide (id2 = id)) as [->|Hne].
    + rewrite lookup_insert_eq. intros [= <-]. rewrite Hid, Hn. by apply H1.
    + rewrite lookup_insert_ne by done. apply H1.
  - intros a b pa pb Ha Hb E. destruct (decide (a = id)) as [->|Ha'], (decide (b = id)) as [->|Hb'];
      [done|rewrite lookup_insert_eq in Ha; rewrite lookup_insert_ne in Hb by done|
       rewrite lookup_insert_ne in Ha by done; rewrite lookup_insert_eq in Hb|
       rewrite lookup_insert_ne in Ha by done; rewrite lookup_insert_ne in Hb by done].
    + injection Ha as <-. eapply H2; [exact Hp|exact Hb|congruence].
    + injection Hb as <-. eapply H2; [exact Ha|exact Hp|congruence].
    + by eapply H2.
  - intros i id2 Hi. apply lookup_insert_is_Some'. right. by eapply H4.
Qed.

Lemma ok_new w id p : tables_ok w -> ta_Principals w !! id = None -> p_ID p = id -> ValidID id = true ->
  ValidName (p_Name p) = true -> (forall id2 p2, ta_Principals w !! id2 = Some p2 -> p_Name p2 <> p_Name p) ->
  tables_ok (set_Principals (<[id := p]> (ta_Principals w)) w).
Proof.
  intros [H1 H2 H3 H4] Hno Hid Hv Hn Hf. split; cbn; [| |done|].
  - intros id2 p2. destruct (decide (id2 = id)) as [->|Hne].
    + rewrite lookup_insert_eq. by intros [= <-].
    + rewrite lookup_insert_ne by done. apply H1.
  - intros a b pa pb Ha Hb E. destruct (decide (a = id)) as [->|Ha'], (decide (b = id)) as [->|Hb'];
      [done|rewrite lookup_insert_eq in Ha; rewrite lookup_insert_ne in Hb by done|
       rewrite lookup_insert_ne in Ha by done; rewrite lookup_insert_eq in Hb|
       rewrite lookup_insert_ne in Ha by done; rewrite lookup_insert_ne in Hb by done].
    + injection Ha as <-. by destruct (Hf _ _ Hb).
    + injection Hb as <-. by destruct (Hf _ _ Ha).
    + by eapply H2.
  - intros i id2 Hi. apply lookup_insert_is_Some'. right. by eapply H4.
Qed.

Lemma ok_other w w' : tables_ok w -> ta_Principals w' = ta_Principals w ->
  (forall id file, ta_Owners w' !! id = Some file -> file <> "") ->
  (forall i id, ta_Bindings w' !! i = Some id -> is_Some (ta_Principals w !! id)) -> tables_ok w'.
Proof. intros [H1 H2 H3 H4] Hr Ho Hb. split; rewrite ?Hr; done. Qed.

(** ** Operations *)

Abbreviation may_run p := (runs may p).

Section Backend.
Context (pool : bool) (fuel : nat).

Lemma runs_read X (st : stmt X) A (k : X + failed -> A) w a w' : (forall x, (exec_done x st w).2 = w) ->
  may_run (do~ r := st in Ret (k r)) w a w' -> w' = w.
Proof. intros Hr (r & w1 & Hm & [-> ->]). by eapply may_read. Qed.

Lemma Get_reads id w r w' : may_run (Get pool id) w r w' -> w' = w.
Proof.
  unfold Get. destruct (negb (ValidID id)); [by intros [_ ->]|]. destruct (negb pool); [by intros [_ ->]|]. by apply runs_read.
Qed.

(** A statement that updates the row of [id] to [g], or none. *)
Definition rewrites (st : stmt bool) (id : string) (g : Tables -> Row -> Row) : Prop :=
  forall x w, (exists r, exec_done x st w = (r, w) /\ r <> inl true) \/
    exists p, ta_Principals w !! id = Some p /\ exec_done x st w = (inl true, set_Principals (<[id := g w p]> (ta_Principals w)) w).

Lemma update_row_ways g id w : update_row g id w = (false, w) \/
  exists p, ta_Principals w !! id = Some p /\ update_row g id w = (true, set_Principals (<[id := g p]> (ta_Principals w)) w).
Proof.
  unfold update_row. destruct (ta_Principals w !! id) as [p|]; [|by left]. destruct (_ =s _); [by left|]. right. by exists p.
Qed.

Lemma UpdateRow_rewrites id patch : rewrites (UpdateRow id patch) id (fun w => patched patch (ta_Now w)).
Proof.
  intros x w. cbn. destruct (sponsor_exists w _); [|left; by eexists].
  destruct (update_row_ways (patched patch (ta_Now w)) id w) as [->|(p & Hp & ->)]; [left; by eexists|right; by exists p].
Qed.

Lemma StatusRow_rewrites id to reason : rewrites (StatusRow id to reason) id (fun w => with_status to reason (ta_Now w)).
Proof.
  intros x w. cbn.
  destruct (update_row_ways (with_status to reason (ta_Now w)) id w) as [->|(p & Hp & ->)]; [left; by eexists|right; by exists p].
Qed.

(** [g] written to the row of [id]. *)
Definition row_written (g : Tables -> Row -> Row) (id : string) (w w' : Tables) : Prop :=
  exists p, ta_Principals w !! id = Some p /\ w' = set_Principals (<[id := g w p]> (ta_Principals w)) w.

Lemma mutate_runs st g id what w r w' : rewrites st id g -> may_run (mutate pool id what st) w r w' ->
  (w' = w \/ row_written g id w w') /\ (forall q, r = inl q -> row_written g id w w').
Proof.
  intros Hst. unfold mutate. destruct (negb (ValidID id)); [intros [-> ->]; split; [by left|done]|].
  destruct (negb pool); [intros [-> ->]; split; [by left|done]|].
  intros (b & w1 & Hm & Hr). apply may_ways in Hm as (x & Hb & Hw).
  assert (Hw' : w' = w1 /\ (forall q, r = inl q -> b = inl true)).
  { destruct b as [[|]|e].
    - apply Get_reads in Hr. by split.
    - apply runs_bind in Hr as (again & w2 & Hg%Get_reads & [-> ->]). split; [done|]. by destruct again.
    - destruct Hr as [-> ->]. by split. }
  destruct Hw' as [-> Hq]. destruct (Hst x w) as [(r' & E & Hne)|(p & Hp & E)]; rewrite E in Hb, Hw; cbn in Hb, Hw.
  - assert (w1 = w) as -> by (destruct Hw as [->|[-> _]]; done). split; [by left|]. intros q Hrq.
    exfalso. rewrite (Hq q Hrq) in Hb. destruct Hb as [<-|[e [=]]]. by apply Hne.
  - assert (Hwr : row_written g id w (set_Principals (<[id := g w p]> (ta_Principals w)) w)) by (by exists p).
    destruct Hw as [->|(-> & e & He)]; [by split; [right|]|]. split; [by left|]. intros q Hrq. rewrite (Hq q Hrq) in He. done.
Qed.

(** A row written that keeps its id and name. *)
Lemma written_view g id w w' h n : tables_ok w -> (forall p, p_ID (g w p) = p_ID p /\ p_Name (g w p) = p_Name p) ->
  view w !! n = Some h -> h_ID h = id -> row_written g id w w' ->
  tables_ok w' /\ exists p, holder w id p = h /\ view w' = <[n := holder w id (g w p)]> (view w).
Proof.
  intros Hok Hg Hv Hid (p & Hp & ->). destruct (Hg p) as [G1 G2].
  assert (Hok' : tables_ok (set_Principals (<[id := g w p]> (ta_Principals w)) w)) by (by eapply ok_row).
  split; [done|]. apply view_spec in Hv as (id2 & p2 & Hp2 & <- & <-); [|done]. cbn in Hid. subst id2.
  assert (p2 = p) as -> by congruence. exists p. split; [done|]. rewrite <- G2.
  change (holder w id (g w p)) with (holder (set_Principals (<[id := g w p]> (ta_Principals w)) w) id (g w p)).
  apply view_update; try done. intros q Hq. rewrite G2. congruence.
Qed.

Lemma written_one {A} g w w' h h' n (r0 : A + StoreError) : tables_ok w ->
  (forall p, p_ID (g w p) = p_ID p /\ p_Name (g w p) = p_Name p) -> view w !! n = Some h ->
  (w' = w \/ row_written g (h_ID h) w w') /\ (forall q, r0 = inl q -> row_written g (h_ID h) w w') ->
  (forall p, holder w (h_ID h) p = h -> holder w (h_ID h) (g w p) = h') ->
  tables_ok w' /\ changes_one n h' (view w) (view w') (updated r0).
Proof.
  intros Hok Hg Hv [Hw Hr] Hh. assert (Hwv := fun H => written_view g (h_ID h) w w' h n Hok Hg Hv eq_refl H).
  assert (Hone : row_written g (h_ID h) w w' -> view w' = <[n := h']> (view w)).
  { intros H. destruct (Hwv H) as (_ & p & Hp & ->). by rewrite (Hh p Hp). }
  split; [destruct Hw as [->|Hw]; [done|by destruct (Hwv Hw)]|].
  destruct r0 as [q|e]; cbn; [apply Hone; by eapply Hr|]. destruct Hw as [->|Hw]; [by left|right; by apply Hone].
Qed.

Lemma Update_runs id patch w r w' : may_run (Update pool id patch) w r w' ->
  (w' = w \/ row_written (fun w => patched patch (ta_Now w)) id w w') /\
  (forall q, r = inl q -> row_written (fun w => patched patch (ta_Now w)) id w w').
Proof.
  unfold Update. destruct (Patch_validate patch); [intros [-> ->]; split; [by left|done]|].
  apply mutate_runs, UpdateRow_rewrites.
Qed.

Lemma SetStatus_runs id to reason w r w' : may_run (SetStatus pool id to reason) w r w' ->
  (w' = w \/ row_written (fun w => with_status to reason (ta_Now w)) id w w') /\
  (forall q, r = inl q -> row_written (fun w => with_status to reason (ta_Now w)) id w w').
Proof.
  unfold SetStatus. destruct (negb (Status_Valid to)); [intros [-> ->]; split; [by left|done]|].
  destruct (Guard.checkText _ _ _ _); [intros [-> ->]; split; [by left|done]|]. apply mutate_runs, StatusRow_rewrites.
Qed.

Lemma sponsorID_runs email w r w' : may_run (sponsorID email) w r w' ->
  w' = w /\ (forall s, r = inl s -> email_of w s = email).
Proof.
  unfold sponsorID. destruct (String.eqb_spec email "") as [->|Hne]; [intros [-> ->]; split; [done|]; by intros s [= <-]|].
  intros (u & w1 & Hm & [-> ->]). assert (w1 = w) as -> by (refine (may_read _ _ _ _ _ _ Hm); done). split; [done|].
  apply may_ways in Hm as (x & Hu & _). intros s Hs. destruct u as [[id|]|e]; try done. injection Hs as <-.
  destruct Hu as [Hu|[e [=]]]. cbn in Hu. injection Hu as Hu. unfold find_user in Hu.
  destruct (List.find _ _) as [[u em]|] eqn:E; [|done]. injection Hu as ->. apply find_some in E as [Hin Heq].
  apply String.eqb_eq in Heq. cbn in *. subst em. apply list_elem_of_In, elem_of_map_to_list in Hin. by rewrite Hin.
Qed.

Lemma prefix_drop prefix s : HasPrefix s prefix = true -> prefix +:+ drop_chars (String.length prefix) s = s.
Proof.
  revert s. induction prefix as [|c prefix IH]; intros s H; [by destruct s|]. destruct s as [|d s]; [done|].
  cbn [HasPrefix] in H. apply andb_prop in H as [E H]. unfold char_eqb in E. apply Ascii.eqb_eq in E as ->.
  change (String d (prefix +:+ drop_chars (String.length prefix) s) = String d s). by rewrite IH.
Qed.

Lemma file_prefix s : HasPrefix s "file:" = true -> "file:" +:+ TrimPrefix s "file:" = s.
Proof. intros H. unfold TrimPrefix. rewrite H. by apply prefix_drop. Qed.

(** [own] writes the owner, which is a file. *)
Lemma own_runs id managedBy actor w r w' : may_run (own id managedBy actor) w r w' ->
  (w' = w /\ is_Some r) \/
  (w' = set_Owners (<[id := TrimPrefix managedBy "file:"]> (ta_Owners w)) w /\
   "file:" +:+ TrimPrefix managedBy "file:" = managedBy /\ TrimPrefix managedBy "file:" <> "").
Proof.
  unfold own. destruct (HasPrefix managedBy "file:") eqn:Ep; cbn [negb orb]; [|intros [-> ->]; by left].
  destruct (String.eqb_spec (TrimPrefix managedBy "file:") "") as [|Hne]; [intros [-> ->]; by left|].
  assert (Hf := file_prefix _ Ep). intros (u & w1 & Hm & [-> ->]). apply may_ways in Hm as (x & Hu & Hw). cbn in Hu, Hw.
  destruct (ta_Principals w !! id); [destruct (ValidName _)|]; cbn in Hu, Hw.
  - destruct Hw as [->|(-> & e & ->)]; [by right|by left].
  - left. split; [by destruct Hw as [->|[-> _]]|]. by destruct Hu as [->|[e ->]].
  - left. split; [by destruct Hw as [->|[-> _]]|]. by destruct Hu as [->|[e ->]].
Qed.

(** The owner of a row, written. *)
Lemma owned_view w id file p n : tables_ok w -> ta_Principals w !! id = Some p -> p_Name p = n -> file <> "" ->
  let w' := set_Owners (<[id := file]> (ta_Owners w)) w in
  tables_ok w' /\ view w' = <[n := set_field "managed_by" ("file:" +:+ file) (holder w id p)]> (view w).
Proof.
  intros Hok Hp <- Hne w'. assert (Hok' : tables_ok w').
  { apply (ok_other w); [done|done| |apply Hok]. intros id2 file2. cbn. destruct (decide (id2 = id)) as [->|Hid].
    - rewrite lookup_insert_eq. by intros [= <-].
    - rewrite lookup_insert_ne by done. by apply Hok. }
  split; [done|]. assert (Hown : holder w' id p = set_field "managed_by" ("file:" +:+ file) (holder w id p)).
  { unfold holder, set_field, owner_of. cbn. by rewrite lookup_insert_eq. }
  rewrite <- Hown. apply view_update; [done|done| |congruence|].
  - cbn. by rewrite insert_id.
  - intros id2 q Hid. unfold holder, owner_of. cbn. by rewrite lookup_insert_ne.
Qed.

Lemma core_Update_law w n h c r w' : tables_ok w -> view w !! n = Some h ->
  may_run (core_Update pool (h_ID h) c) w r w' ->
  tables_ok w' /\ changes_one n (set_field (ch_Field c) (ch_To c) h) (view w) (view w') r.
Proof.
  intros Hok Hv. unfold core_Update. destruct c as [op pr field from to_ ident wid]. cbn [ch_Field ch_To ch_Op].
  assert (Hpatch : forall patch r w1, may_run (do* r := Update pool (h_ID h) patch in Ret (updated r)) w r w1 ->
    (forall p, holder w (h_ID h) p = h -> holder w (h_ID h) (patched patch (ta_Now w) p) = set_field field to_ h) ->
    tables_ok w1 /\ changes_one n (set_field field to_ h) (view w) (view w1) r).
  { intros patch r1 w1 (r0 & w2 & Hr%Update_runs & [-> ->])%runs_bind Hh.
    by apply (written_one (fun w => patched patch (ta_Now w)) w w2 h). }
  destruct (String.eqb_spec field "profile") as [->|_].
  { intros H. eapply Hpatch; [exact H|]. by intros p <-. }
  destruct (String.eqb_spec field "env_ceiling") as [->|_].
  { intros H. eapply Hpatch; [exact H|]. by intros p <-. }
  destruct (String.eqb_spec field "sponsor") as [->|_].
  { destruct (String.eqb_spec to_ "") as [->|Hne]; [intros [-> ->]; split; [done|by left]|].
    intros (s & w1 & Hs & H)%runs_bind. destruct (sponsorID_runs _ _ _ _ Hs) as [-> He].
    destruct s as [s|e]; [|destruct H as [-> ->]; split; [done|by left]]. eapply Hpatch; [exact H|].
    intros p <-. specialize (He s eq_refl). destruct s as [u|]; [|by destruct Hne].
    unfold holder, set_field. cbn. cbn in He. by rewrite He. }
  destruct (String.eqb_spec field "status") as [->|_].
  { intros (r0 & w2 & Hr%SetStatus_runs & [-> ->])%runs_bind.
    apply (written_one (fun w => with_status to_ ("principals file: " +:+ op_text op) (ta_Now w)) w w2 h);
      [done|done|done|exact Hr|by intros p <-]. }
  destruct (String.eqb_spec field "managed_by") as [->|_]; [|intros [-> ->]; split; [done|by left]].
  intros (r0 & w2 & Hr & [-> ->])%runs_bind. apply own_runs in Hr as [[-> [e ->]]|(-> & Hf & Hne)]; [split; [done|by left]|].
  apply view_spec in Hv as (id & p & Hp & Hn & <-); [|done].
  destruct (owned_view w id _ p n Hok Hp Hn Hne) as [Hok' Hv']. rewrite Hf in Hv'. split; [done|].
  destruct r0; cbn; auto.
Qed.

Lemma core_Bind_law w n h i r w' : tables_ok w -> view w !! n = Some h -> may_run (core_Bind (h_ID h) i) w r w' ->
  tables_ok w' /\ changes_one n (bind i h) (view w) (view w') r.
Proof.
  intros Hok Hv (u & w1 & Hm & [-> ->]). apply may_ways in Hm as (x & Hu & Hw). cbn in Hu, Hw.
  apply view_spec in Hv as (id & p & Hp & <- & <-); [|done]. cbn in Hu, Hw. rewrite Hp in Hu, Hw.
  destruct (ta_Bindings w !! i) as [id0|] eqn:Ei; cbn in Hu, Hw.
  - assert (w1 = w) as -> by (by destruct Hw as [->|[-> _]]). split; [done|]. destruct Hu as [->|[e ->]]; by left.
  - set (w2 := set_Bindings _ w) in *. assert (Hok2 : tables_ok w2).
    { apply (ok_other w); [done|done|apply Hok|]. intros j id2. cbn. destruct (decide (j = i)) as [->|Hne].
      - rewrite lookup_insert_eq. intros [= <-]. by eexists.
      - rewrite lookup_insert_ne by done. apply Hok. }
    assert (Hv2 : view w2 = <[p_Name p := bind i (holder w id p)]> (view w)).
    { assert (Hh : holder w2 id p = bind i (holder w id p)).
      { unfold holder, bind, with_idents. cbn. f_equal. apply set_eq. intros j. rewrite elem_of_union, !elem_of_list_to_set, !identities_elem.
        cbn. rewrite elem_of_singleton. destruct (decide (j = i)) as [->|Hne].
        - rewrite lookup_insert_eq. naive_solver.
        - rewrite lookup_insert_ne by done. naive_solver. }
      rewrite <- Hh. apply view_update; [done|done|by cbn; rewrite insert_id|congruence|].
      intros id2 q Hid. unfold holder. cbn. f_equal. apply set_eq. intros j. rewrite !elem_of_list_to_set, !identities_elem.
      cbn. destruct (decide (j = i)) as [->|Hne].
      - rewrite lookup_insert_eq, Ei. naive_solver.
      - by rewrite lookup_insert_ne. }
    destruct Hw as [->|(-> & e & ->)]; [|split; [done|by left]]. split; [done|]. destruct Hu as [->|[e ->]]; cbn; auto.
Qed.

Lemma core_Unbind_law w n h i r w' : tables_ok w -> view w !! n = Some h -> may_run (core_Unbind (h_ID h) i) w r w' ->
  tables_ok w' /\ changes_one n (unbind i h) (view w) (view w') r.
Proof.
  intros Hok Hv (u & w1 & Hm & [-> ->]). apply may_ways in Hm as (x & Hu & Hw). cbn in Hu, Hw.
  apply view_spec in Hv as (id & p & Hp & <- & <-); [|done]. cbn in Hu, Hw.
  set (w2 := if bool_decide _ then _ else w) in *.
  assert (Hrows : ta_Principals w2 = ta_Principals w /\ ta_Owners w2 = ta_Owners w /\ ta_Users w2 = ta_Users w) by (unfold w2; by case_bool_decide).
  destruct Hrows as (R1 & R2 & R3).
  assert (Hok2 : tables_ok w2).
  { apply (ok_other w); [done|done|rewrite R2; apply Hok|]. intros j id2. unfold w2. case_bool_decide; cbn; [|apply Hok].
    intros [_ Hj]%lookup_delete_Some. by eapply (to_bound w Hok). }
  assert (Hi : forall id2 j, j ∈ identities_of w2 id2 <-> j ∈ identities_of w id2 /\ ~ (j = i /\ id2 = id)).
  { intros id2 j. rewrite !identities_elem. unfold w2. case_bool_decide as Hb; cbn.
    - destruct (decide (j = i)) as [->|Hne]; [rewrite lookup_delete_eq|rewrite lookup_delete_ne by done]; naive_solver.
    - destruct (decide (j = i)) as [->|Hne]; naive_solver. }
  assert (Hh : forall id2 q, holder w2 id2 q = if decide (id2 = id) then unbind i (holder w id2 q) else holder w id2 q).
  { intros id2 q. assert (Hown : owner_of w2 id2 = owner_of w id2) by (unfold owner_of; by rewrite R2).
    assert (Hem : email_of w2 (p_SponsorUserID q) = email_of w (p_SponsorUserID q)) by (unfold email_of; by rewrite R3).
    destruct (decide (id2 = id)) as [->|Hne]; unfold unbind, with_idents, holder; cbn; rewrite Hown, Hem; f_equal;
      apply set_eq; intros j; rewrite ?elem_of_difference, !elem_of_list_to_set, Hi; set_solver. }
  assert (Hv2 : view w2 = <[p_Name p := unbind i (holder w id p)]> (view w)).
  { assert (E := Hh id p). rewrite decide_True in E by done. rewrite <- E.
    apply view_update; [done|done|by rewrite R1, insert_id|congruence|].
    intros id2 q Hne. rewrite Hh. by rewrite decide_False. }
  destruct Hw as [->|(-> & e & ->)]; [|split; [done|by left]]. split; [done|]. destruct Hu as [->|[e ->]]; cbn; auto.
Qed.
End Backend.

(** ** Listing *)

Lemma ltb_leb a b : String.ltb a b = negb (String.leb b a).
Proof. unfold String.ltb, String.leb. rewrite (String.compare_antisym b a). by destruct (String.compare a b). Qed.

Lemma leb_trans a b c : String.leb a b = true -> String.leb b c = true -> String.leb a c = true.
Proof.
  intros H1 H2. apply Is_true_eq_true. apply Is_true_eq_left in H1, H2. change (String.le a c).
  transitivity b; [exact H1|exact H2].
Qed.

Lemma ltb_trans a b c : String.ltb a b = true -> String.ltb b c = true -> String.ltb a c = true.
Proof.
  rewrite !ltb_leb, !negb_true_iff. intros H1 H2. destruct (String.leb c a) eqn:E; [|done].
  assert (Hab : String.leb a b = true) by (destruct (String.leb_total a b); congruence).
  assert (Hcb := leb_trans _ _ _ E Hab). congruence.
Qed.

Lemma ltb_irrefl a : String.ltb a a = false.
Proof. rewrite ltb_leb. apply negb_false_iff. by destruct (String.leb_total a a). Qed.

Lemma insert_by_perm {A} (key : A -> string) x l : insert_by key x l ≡ₚ x :: l.
Proof. induction l as [|y l IH]; cbn; [done|]. destruct (String.leb _ _); [done|]. rewrite IH. by constructor. Qed.

Lemma sort_by_perm {A} (key : A -> string) l : sort_by key l ≡ₚ l.
Proof. induction l as [|x l IH]; cbn; [done|]. by rewrite insert_by_perm, IH. Qed.

Definition before {A} (key : A -> string) (x y : A) : Prop := String.ltb (key x) (key y) = true.

(** A sort of distinct keys increases strictly. *)
Lemma sort_by_sorted {A} (key : A -> string) l : NoDup (map key l) -> StronglySorted (before key) (sort_by key l).
Proof.
  induction l as [|x l IH]; [constructor|]. cbn [map]. intros [Hx Hn]%NoDup_cons. specialize (IH Hn).
  change (sort_by key (x :: l)) with (insert_by key x (sort_by key l)).
  assert (Hne : forall y, y ∈ sort_by key l -> key y <> key x).
  { intros y Hy E. apply Hx. rewrite <- E. rewrite sort_by_perm in Hy. by apply list_elem_of_In, in_map, list_elem_of_In. }
  revert IH Hne. generalize (sort_by key l). clear Hx Hn. intros s Hs Hne. induction Hs as [|y s Hs IH Hall]; cbn [insert_by]; [apply SSorted_cons; constructor|].
  assert (Hxy : key y <> key x) by (apply Hne; by left). destruct (String.leb (key x) (key y)) eqn:E.
  - assert (Hlt : before key x y).
    { unfold before. rewrite ltb_leb. apply negb_true_iff. destruct (String.leb (key y) (key x)) eqn:E2; [|done].
      by destruct Hxy, (String.leb_antisym _ _ E2 E). }
    constructor; [by constructor|]. constructor; [done|]. eapply Forall_impl; [exact Hall|]. intros z Hz. by eapply ltb_trans.
  - constructor; [apply IH; intros z Hz; apply Hne; by right|]. apply Forall_forall. intros z Hz.
    rewrite insert_by_perm in Hz. apply elem_of_cons in Hz as [->|Hz].
    + unfold before. by rewrite ltb_leb, E.
    + rewrite Forall_forall in Hall. by apply Hall.
Qed.

Lemma sorted_after {A} (key : A -> string) l x r : StronglySorted (before key) (l ++ x :: r) ->
  List.filter (fun y => String.ltb (key x) (key y)) (l ++ x :: r) = r.
Proof.
  induction l as [|y l IH]; cbn; intros Hs; inversion Hs as [|? ? Hs' Hall]; subst.
  - rewrite ltb_irrefl. clear Hs Hs'. induction Hall as [|z r Hz Hr IH]; [done|]. cbn. unfold before in Hz. by rewrite Hz, IH.
  - rewrite Forall_forall in Hall. assert (Hyx : before key y x) by (apply Hall, elem_of_app; right; by left).
    rewrite IH by done. assert (String.ltb (key x) (key y) = false) as ->; [|done].
    destruct (String.ltb (key x) (key y)) eqn:E; [|done]. assert (H := ltb_trans _ _ _ E Hyx). by rewrite ltb_irrefl in H.
Qed.

Section Listing.
Context (w : Tables).
Hypothesis Hok : tables_ok w.

Lemma by_name_elem p : p ∈ by_name w <-> ta_Principals w !! p_ID p = Some p.
Proof.
  unfold by_name. rewrite sort_by_perm, list_elem_of_In, in_map_iff. split.
  - intros ([id q] & <- & Hin%list_elem_of_In%elem_of_map_to_list). cbn. by destruct (to_rows w Hok _ _ Hin) as [-> _].
  - intros Hp. exists (p_ID p, p). split; [done|]. by apply list_elem_of_In, elem_of_map_to_list.
Qed.

Lemma rows_names : NoDup (map p_Name (map snd (map_to_list (ta_Principals w)))).
Proof.
  rewrite map_map. apply NoDup_fmap_2_strong; [|apply NoDup_map_to_list].
  intros [id p] [id' p'] H1%elem_of_map_to_list H2%elem_of_map_to_list E. cbn in E.
  assert (id = id') as <- by (by eapply (to_names w Hok)). congruence.
Qed.

(** The principals after a name. *)
Definition after (c : string) : list Row := List.filter (fun p => String.ltb c (p_Name p)) (by_name w).

Lemma after_all : after "" = by_name w.
Proof.
  unfold after. assert (H : forall p, p ∈ by_name w -> String.ltb "" (p_Name p) = true).
  { intros p Hp%by_name_elem. destruct (to_rows w Hok _ _ Hp) as (_ & _ & Hn). by destruct (p_Name p). }
  revert H. generalize (by_name w). induction l as [|p l IH]; intros H; [done|]. cbn. rewrite H by (by left). f_equal.
  apply IH. intros q Hq. apply H. by right.
Qed.

Lemma after_next c n : (n <= length (after c))%nat -> (0 < n)%nat ->
  exists x, last (take n (after c)) = Some x /\ p_Name x <> "" /\ after (p_Name x) = drop n (after c).
Proof.
  intros Hlen Hn. destruct (last (take n (after c))) as [x|] eqn:Ex.
  2: { apply last_None in Ex. apply (f_equal length) in Ex. rewrite length_take in Ex. cbn in Ex. lia. }
  exists x. split; [done|]. apply last_Some in Ex as [l' El].
  assert (Hsplit : after c = l' ++ x :: drop n (after c)).
  { rewrite <- (take_drop n (after c)) at 1. rewrite El, <- app_assoc. done. }
  assert (Hx : x ∈ after c) by (rewrite Hsplit; apply elem_of_app; right; by left).
  apply list_elem_of_In, filter_In in Hx as [Hx Hcx]. apply list_elem_of_In in Hx.
  split; [apply by_name_elem in Hx; destruct (to_rows w Hok _ _ Hx) as (_ & _ & Hv); by destruct (p_Name x)|].
  assert (Hsub : after (p_Name x) = List.filter (fun y => String.ltb (p_Name x) (p_Name y)) (after c)).
  { unfold after. generalize (by_name w) as s. induction s as [|y s IH]; [done|]. cbn.
    destruct (String.ltb (p_Name x) (p_Name y)) eqn:E1, (String.ltb c (p_Name y)) eqn:E2; cbn; rewrite ?E1, IH; try done.
    by rewrite (ltb_trans _ _ _ Hcx E1) in E2. }
  rewrite Hsub. rewrite Hsplit at 1. apply sorted_after. rewrite <- Hsplit. unfold after.
  assert (Hs := sort_by_sorted p_Name _ rows_names). fold (by_name w) in Hs.
  clear - Hs. induction Hs as [|y s Hs IH Hall]; cbn; [constructor|]. destruct (String.ltb c (p_Name y)); [|done].
  constructor; [done|]. rewrite Forall_forall in Hall. apply Forall_forall. intros z Hz%list_elem_of_In%filter_In.
  apply Hall, list_elem_of_In, Hz.
Qed.

(** A page is the next principals, and says whether there are more. *)
Definition page_of (c : string) (page : Page) : Prop :=
  exists shown, pg_Items page = map (scanPrincipal w) shown /\
    ((pg_NextCursor page = "" /\ after c = shown) \/
     (pg_NextCursor page <> "" /\ after c = shown ++ after (pg_NextCursor page) /\ (0 < length shown)%nat)).

Definition page_options (c : string) : ListOptions := {| lo_Limit := 200; lo_Cursor := c; lo_Status := "" |}.

Lemma selected x c : exec_done x (SelectPage c "" 201) w = (inl (map (scanPrincipal w) (take 201 (after c))), w).
Proof.
  cbn. do 4 f_equal. unfold after. generalize (by_name w). induction l as [|p l IH]; [done|]. cbn.
  rewrite andb_true_r, IH. done.
Qed.

Lemma page_made c items : items = map (scanPrincipal w) (take 201 (after c)) ->
  page_of c (if 200 <? Z.of_nat (length items)
             then let items := take (Z.to_nat 200) items in
                  {| pg_Items := items; pg_NextCursor := match last items with Some p => p_Name p | None => "" end |}
             else {| pg_Items := items; pg_NextCursor := "" |}).
Proof.
  intros ->. change (map (scanPrincipal w)) with (fmap (M := list) (scanPrincipal w)).
  rewrite length_fmap, length_take. destruct (Z.ltb_spec 200 (Z.of_nat (201 `min` length (after c)))) as [Hl|Hl].
  - destruct (after_next c 200) as (x & Hx & Hne & Hd); [lia|lia|]. exists (take 200 (after c)).
    assert (Hit : take (Z.to_nat 200) (scanPrincipal w <$> take 201 (after c)) = scanPrincipal w <$> take 200 (after c)).
    { change (Z.to_nat 200) with 200%nat. rewrite <- fmap_take, take_take. done. }
    cbn [pg_Items pg_NextCursor]. rewrite Hit. split; [done|]. right. rewrite fmap_last, Hx. cbn. rewrite Hd, take_drop.
    split_and!; [done|done|]. rewrite length_take. lia.
  - exists (after c). rewrite take_ge by lia. split; [done|]. by left.
Qed.

Lemma page_runs pool c r w' : may_run (PrincipalStore.List pool (page_options c)) w r w' ->
  w' = w /\ forall page, r = inl page -> page_of c page.
Proof.
  unfold PrincipalStore.List. cbn [lo_Limit lo_Cursor lo_Status page_options]. change (200 =? 0) with false.
  change ((200 <? 0) || (maxLimit <? 200)) with false. cbn [negb andb]. change ("" <>s "") with false. cbn [andb].
  destruct ((c <>s "") && _); [by intros [-> ->]|]. destruct (negb pool); [by intros [-> ->]|].
  intros (items & w1 & Hm & [-> ->]). assert (w1 = w) as -> by (refine (may_read _ _ _ _ _ _ Hm); done). split; [done|].
  intros page Hp. apply may_ways in Hm as (x & Hi & _). destruct items as [items|e]; [|done].
  destruct Hi as [Hi|[e [=]]]. change (200 + 1) with 201 in Hi. rewrite selected in Hi. injection Hi as Hi.
  assert (Hm := page_made c items Hi). destruct (200 <? _); injection Hp as <-; exact Hm.
Qed.

Lemma list_all_runs pool fuel c acc r w' : may_run (list_all pool fuel c acc) w r w' ->
  w' = w /\ forall all, r = inl all -> all = acc ++ map (scanPrincipal w) (after c).
Proof.
  revert c acc. induction fuel as [|fuel IH]; intros c acc; cbn [list_all]; [by intros [-> ->]|].
  intros (page & w1 & [-> Hp]%page_runs & Hr)%runs_bind. destruct page as [page|e]; [|by destruct Hr as [-> ->]].
  destruct (Hp page eq_refl) as (shown & Hit & [[Hn Ha]|(Hn & Ha & _)]).
  - rewrite Hn in Hr. cbn in Hr. destruct Hr as [-> ->]. split; [done|]. intros all [= <-]. by rewrite Hit, Ha.
  - rewrite (proj2 (String.eqb_neq _ _) Hn) in Hr. destruct (IH _ _ Hr) as [-> Hall]. split; [done|].
    intros all Hal. rewrite (Hall all Hal), Ha, map_app, Hit. by rewrite app_assoc.
Qed.

(** Every principal fits as many pages as there are principals, and one. *)
Lemma list_all_answers fuel c acc : (c = "" \/ ValidName c = true) -> (length (after c) < fuel)%nat ->
  exists all, may_run (list_all true fuel c acc) w (inl all) w.
Proof.
  revert c acc. induction fuel as [|fuel IH]; intros c acc Hc Hl; [lia|]. cbn [list_all].
  set (items := map (scanPrincipal w) (take 201 (after c))).
  assert (Hpage := page_made c items eq_refl). set (page := if 200 <? _ then _ else _) in Hpage.
  assert (Hrun : may_run (PrincipalStore.List true (page_options c)) w (inl page) w).
  { unfold PrincipalStore.List. cbn [lo_Limit lo_Cursor lo_Status page_options]. change (200 =? 0) with false.
    change ((200 <? 0) || (maxLimit <? 200)) with false. cbn [negb andb]. change ("" <>s "") with false. cbn [andb].
    assert ((c <>s "") && negb (ValidName c) = false) as ->.
    { destruct Hc as [->|Hc]; [done|]. by rewrite Hc, andb_false_r. }
    exists (inl items), w. split; [by exists (Done {| x_read := fun _ => Err "" |}); cbn [exec]; rewrite selected|].
    unfold page. change (200 + 1) with 201. by destruct (200 <? _). }
  setoid_rewrite runs_bind. destruct Hpage as (shown & Hit & [[Hn Ha]|(Hn & Ha & Hpos)]).
  - eexists. exists (inl page), w. split; [exact Hrun|]. rewrite Hn. done.
  - destruct (IH (pg_NextCursor page) (acc ++ pg_Items page)) as [all Hall].
    + right. unfold page in *. destruct (200 <? _); [|done]. cbn [pg_NextCursor] in *.
      destruct (last _) as [q|] eqn:Eq; [|done]. assert (Hq : q ∈ items).
      { apply last_Some in Eq as [l' El].
        rewrite <- (take_drop (Z.to_nat 200) items), El. set_solver. }
      unfold items in Hq. apply list_elem_of_In, in_map_iff in Hq as (p & <- & Hp%list_elem_of_In). cbn.
      assert (Hpw : p ∈ by_name w).
      { assert (Hpa : p ∈ after c) by (rewrite <- (take_drop 201 (after c)); set_solver).
        by apply list_elem_of_In, filter_In in Hpa as [?%list_elem_of_In _]. }
      apply by_name_elem in Hpw. by destruct (to_rows w Hok _ _ Hpw) as (_ & _ & ?).
    + rewrite Ha, length_app in Hl. lia.
    + exists all. exists (inl page), w. split; [exact Hrun|]. by rewrite (proj2 (String.eqb_neq _ _) Hn).
Qed.

(** *** What is listed *)

Lemma extras_email p : p ∈ by_name w ->
  match p_SponsorUserID p with Some u => default "" (ex_emails (extras_of w) !! u) | None => "" end = email_of w (p_SponsorUserID p).
Proof.
  intros Hp. unfold email_of. destruct (p_SponsorUserID p) as [u|] eqn:Eu; [|done]. cbn [ex_emails extras_of].
  destruct (ta_Users w !! u) as [e|] eqn:E.
  - assert (filter (fun u : Z * string => Exists (fun p => p_SponsorUserID p = Some u.1) (by_name w)) (ta_Users w) !! u = Some e) as ->; [|done].
    apply map_lookup_filter_Some. split; [done|]. cbn. apply Exists_exists. by exists p.
  - assert (filter (fun u : Z * string => Exists (fun p => p_SponsorUserID p = Some u.1) (by_name w)) (ta_Users w) !! u = None) as ->; [|done].
    apply map_lookup_filter_None. by left.
Qed.

Lemma extras_idents id : default [] (ex_identities (extras_of w) !! id) = identities_of w id.
Proof.
  cbn [ex_identities extras_of]. set (ids := map snd (map_to_list (ta_Bindings w))).
  assert (Hl : forall l : list string, (list_to_map (map (fun id => (id, identities_of w id)) l) : gmap string (list Identity)) !! id =
    if decide (id ∈ l) then Some (identities_of w id) else None).
  { induction l as [|x l IH]; [done|]. cbn [map list_to_map foldr]. destruct (decide (id = x)) as [->|Hne].
    - cbn. rewrite lookup_insert_eq, decide_True by (by left). done.
    - cbn. rewrite lookup_insert_ne by done. etrans; [apply IH|]. destruct (decide (id ∈ l)) as [Hin|Hin].
      + by rewrite decide_True by (by right).
      + rewrite decide_False; [done|]. by intros [?|?]%elem_of_cons. }
  rewrite Hl. destruct (decide (id ∈ ids)) as [Hin|Hin]; [done|]. cbn.
  destruct (identities_of w id) as [|i l] eqn:E; [done|]. exfalso. apply Hin.
  assert (Hi : i ∈ identities_of w id) by (rewrite E; by left). apply identities_elem in Hi.
  unfold ids. apply list_elem_of_In, in_map_iff. exists (i, id). split; [done|]. by apply list_elem_of_In, elem_of_map_to_list.
Qed.

Lemma shown_holder p : p ∈ by_name w -> holder_of (principal (extras_of w) (scanPrincipal w p)) = holder w (p_ID p) p.
Proof.
  intros Hp. unfold holder_of, principal, holder. cbn -[extras_of].
  rewrite extras_email by done. rewrite extras_idents. done.
Qed.

Lemma listed_shows : shows (map (principal (extras_of w)) (map (scanPrincipal w) (by_name w))) (view w).
Proof.
  rewrite map_map. split.
  - rewrite map_map. cbn. assert (E : map p_Name (by_name w) ≡ₚ map p_Name (map snd (map_to_list (ta_Principals w)))).
    { change (map p_Name) with (fmap (M := list) p_Name). unfold by_name. by rewrite sort_by_perm. }
    change (map (fun x => p_Name x) (by_name w)) with (map p_Name (by_name w)). rewrite E. apply rows_names.
  - intros n h. rewrite view_spec by done. split.
    + intros (id & p & Hp & <- & <-). assert (Hin : p ∈ by_name w).
      { apply by_name_elem. by destruct (to_rows w Hok _ _ Hp) as [-> _]. }
      exists (principal (extras_of w) (scanPrincipal w p)). split; [|split; [done|]].
      * apply list_elem_of_In, in_map_iff. exists p. split; [done|]. by apply list_elem_of_In.
      * rewrite shown_holder by done. by destruct (to_rows w Hok _ _ Hp) as [-> _].
    + intros (q & Hq & <- & <-). apply list_elem_of_In, in_map_iff in Hq as (p & <- & Hp%list_elem_of_In).
      exists (p_ID p), p. split; [by apply by_name_elem|]. split; [done|]. by rewrite shown_holder.
Qed.
End Listing.

(** ** The laws *)

Section Laws.
Context (pool : bool) (fuel : nat).

(** What [List] answers. *)
Definition listing (w : Tables) : list PrincipalFile.Principal := map (principal (extras_of w)) (map (scanPrincipal w) (by_name w)).

Lemma core_List_runs w r w' : tables_ok w -> may_run (core_List pool fuel) w r w' ->
  w' = w /\ forall l, r = inl l -> l = listing w.
Proof.
  intros Hok (all & w1 & Ha & Hr)%runs_bind. destruct (list_all_runs w Hok _ _ _ _ _ _ Ha) as [-> Hall].
  destruct all as [all|e]; [|by destruct Hr as [-> ->]]. destruct Hr as (ex & w2 & Hm & [-> ->]).
  assert (w2 = w) as -> by (refine (may_read _ _ _ _ _ _ Hm); done). split; [done|].
  intros l Hl. apply may_ways in Hm as (x & He & _). destruct ex as [ex|e]; [|done]. injection Hl as <-.
  destruct He as [[= ->]|[e [=]]]. by rewrite (Hall all eq_refl), after_all.
Qed.

Lemma core_List_law w r w' : tables_ok w -> may_run (core_List pool fuel) w r w' ->
  w' = w /\ forall l, r = inl l -> shows l (view w).
Proof.
  intros Hok H. destruct (core_List_runs w r w' Hok H) as [Hw Hl]. split; [done|].
  intros l Hr. rewrite (Hl l Hr). by apply listed_shows.
Qed.

(** A created row, and nothing else. *)
Lemma insert_ways id req w r w' : tables_ok w -> may _ (InsertPrincipal id req) w r w' ->
  (w' = w /\ r <> inl tt) \/
  (ta_Principals w !! id = None /\ view w !! cq_Name req = None /\
   w' = set_Principals (<[id := new_principal id req (ta_Now w)]> (ta_Principals w)) w /\ tables_ok w').
Proof.
  intros Hok (x & Hr & Hw)%may_ways. cbn in Hr, Hw. destruct (ValidID id && ValidName (cq_Name req)) eqn:Ev; cbn [negb] in Hr, Hw;
    [|left; split; [by destruct Hw as [->|[-> _]]|]; by destruct Hr as [->|[e ->]]].
  destruct (existsb _ _) eqn:Ex; [left; split; [by destruct Hw as [->|[-> _]]|]; by destruct Hr as [->|[e ->]]|].
  destruct (sponsor_exists _ _); cbn [negb] in Hr, Hw; [|left; split; [by destruct Hw as [->|[-> _]]|]; by destruct Hr as [->|[e ->]]].
  destruct (ta_Principals w !! id) eqn:Ei; [left; split; [by destruct Hw as [->|[-> _]]|]; by destruct Hr as [->|[e ->]]|].
  destruct Hw as [->|(-> & e & ->)]; [|by left]. right. apply andb_prop in Ev as [Ev1 Ev2].
  assert (Hfresh : forall id2 p2, ta_Principals w !! id2 = Some p2 -> p_Name p2 <> cq_Name req).
  { intros id2 p2 Hp2 E. assert (existsb (fun p => p_Name p =s cq_Name req) (by_name w) = true); [|congruence].
    apply existsb_exists. exists p2. split; [|by apply String.eqb_eq]. apply list_elem_of_In, by_name_elem; [done|].
    by destruct (to_rows w Hok _ _ Hp2) as [-> _]. }
  split_and!; [done|by apply view_none|done|]. by apply ok_new.
Qed.

Lemma view_new w id req : tables_ok w -> ta_Principals w !! id = None ->
  let w' := set_Principals (<[id := new_principal id req (ta_Now w)]> (ta_Principals w)) w in tables_ok w' ->
  view w' = <[cq_Name req := holder w id (new_principal id req (ta_Now w))]> (view w).
Proof.
  intros Hok Hno w' Hok'.
  change (holder w id (new_principal id req (ta_Now w))) with (holder w' id (new_principal id req (ta_Now w))).
  change (cq_Name req) with (p_Name (new_principal id req (ta_Now w))).
  apply view_update; try done. intros p. by rewrite Hno.
Qed.

(** Only the principal of a name may differ. *)
Definition only (n : string) (w w' : Tables) : Prop :=
  tables_ok w' /\ forall m, m <> n -> view w' !! m = view w !! m.

Lemma only_trans n w w1 w2 : only n w w1 -> only n w1 w2 -> only n w w2.
Proof. intros [_ H1] [Hok H2]. split; [done|]. intros m Hm. by rewrite H2, H1. Qed.

Lemma only_insert n h w w' : tables_ok w' -> view w' = <[n := h]> (view w) -> only n w w'.
Proof. intros Hok Hv. split; [done|]. intros m Hm. by rewrite Hv, lookup_insert_ne. Qed.

Lemma normalize_same req req' : normalize req = inl req' -> cq_EnvCeiling req <> "" -> req' = req.
Proof.
  unfold normalize. intros H Hne. rewrite (proj2 (String.eqb_neq _ _) Hne) in H. destruct req. cbn in H.
  by repeat case_match; simplify_eq.
Qed.

(** What [Create] of the store leaves. *)
Lemma Create_runs req w r w' : tables_ok w -> cq_EnvCeiling req <> "" -> may_run (Create pool req) w r w' ->
  (w' = w /\ forall q, r <> inl q) \/
  exists id, view w !! cq_Name req = None /\ tables_ok w' /\ ta_Principals w !! id = None /\
    w' = set_Principals (<[id := new_principal id req (ta_Now w)]> (ta_Principals w)) w /\
    forall q, r = inl q -> p_ID q = id.
Proof.
  intros Hok Hne. unfold Create. destruct (normalize req) as [req'|e] eqn:En; [|intros [-> ->]; by left].
  apply normalize_same in En as ->; [|done]. destruct (negb pool); [intros [-> ->]; by left|].
  intros (id & w1 & Hm & Hr). assert (w1 = w) as -> by (refine (may_read _ _ _ _ _ _ Hm); done).
  destruct id as [id|e]; [|destruct Hr as [-> ->]; by left]. destruct Hr as (u & w2 & Hi & Hr).
  apply insert_ways in Hi as [[-> Hu]|(Hno & Hv & -> & Hok')]; [|..|done].
  - destruct u as [[]|e]; [done|]. destruct Hr as [-> ->]. by left.
  - right. exists id. destruct u as [[]|e]; [|destruct Hr as [-> ->]; by split_and!]. assert (Hg := Get_reads _ _ _ _ _ Hr). subst w'.
    split_and!; try done. intros q ->. unfold Get in Hr. destruct (negb (ValidID id)); [by destruct Hr|].
    destruct (negb pool); [by destruct Hr|]. destruct Hr as (s & w3 & Hs & [Hq _]).
    apply may_ways in Hs as (x & Hs & _). destruct Hs as [->|[e ->]]; [|done]. cbn in Hq. rewrite lookup_insert_eq in Hq.
    cbn in Hq. by injection Hq as ->.
Qed.

Lemma core_Create_law w p id err w' : tables_ok w -> declarable p -> may_run (core_Create pool p) w (id, err) w' ->
  only (fp_Name p) w w' /\
  match err with
  | None => view w !! fp_Name p = None /\ view w' !! fp_Name p = Some (with_ID id (holder_of p))
  | Some _ => forall h, view w !! fp_Name p = Some h -> w' = w
  end.
Proof.
  intros Hok (Hst & Henv & Hids). assert (Hself : only (fp_Name p) w w) by done. unfold core_Create.
  intros (sponsor & w0 & Hs & Hr)%runs_bind. destruct (sponsorID_runs _ _ _ _ Hs) as [-> Hem].
  destruct sponsor as [sponsor|e]; [|destruct Hr as [[= -> ->] ->]; by split]. specialize (Hem sponsor eq_refl).
  apply runs_bind in Hr as (created & w1 & Hc & Hr). set (req := {| cq_Name := _ |}) in Hc.
  destruct (Create_runs req w created w1 Hok Henv Hc) as [[-> Hno]|(id1 & Hv0 & Hok1 & Hfresh & Hw1 & Hq)].
  { destruct created as [q|e]; [by destruct (Hno q)|]. destruct Hr as [[= -> ->] ->]. by split. }
  change (cq_Name req) with (fp_Name p) in Hv0. set (h1 := holder w id1 (new_principal id1 req (ta_Now w))).
  assert (Hv1 : view w1 = <[fp_Name p := h1]> (view w)) by (subst w1; by apply view_new).
  assert (Ho1 : only (fp_Name p) w w1) by by eapply only_insert.
  destruct created as [q|e]; [|destruct Hr as [[= -> ->] ->]; split; [done|]; by rewrite Hv0].
  rewrite (Hq q eq_refl) in Hr. clear Hc Hq. apply runs_bind in Hr as (frozen & w2 & Hf & Hr).
  assert (Hf2 : tables_ok w2 /\ only (fp_Name p) w w2 /\ (frozen = None ->
    view w2 !! fp_Name p = Some (set_field "status" (fp_Status p) h1))).
  { destruct (String.eqb_spec (fp_Status p) StatusFrozen) as [Efr|Efr].
    - apply runs_bind in Hf as (r0 & w3 & Hss%SetStatus_runs & [-> ->]).
      destruct (written_one (fun w => with_status StatusFrozen ("declared frozen in " +:+ fp_ManagedBy p) (ta_Now w))
        w1 w3 h1 (set_field "status" StatusFrozen h1) (fp_Name p) r0 Hok1) with (3 := Hss) as [Hok3 Hone];
        [done|by rewrite Hv1, lookup_insert_eq|by intros q0 <-|].
      split; [done|]. split; [|destruct r0; [|done]; intros _; cbn in Hone; by rewrite Hone, lookup_insert_eq, Efr].
      eapply only_trans; [exact Ho1|]. destruct r0; cbn in Hone.
      + by eapply only_insert.
      + destruct Hone as [Hone|Hone]; [split; [done|]; by rewrite Hone|by eapply only_insert].
    - destruct Hf as [-> ->]. split; [done|]. split; [done|]. intros _. rewrite Hv1, lookup_insert_eq. f_equal.
      destruct Hst as [->|]; done. }
  destruct Hf2 as (Hok2 & Ho2 & Hv2). destruct frozen as [e|].
  { destruct Hr as [[= -> ->] ->]. split; [done|]. by rewrite Hv0. }
  specialize (Hv2 eq_refl). apply runs_bind in Hr as (owned & w3 & Hown & [[= -> ->] ->]).
  apply own_runs in Hown as [[-> [e ->]]|(-> & Hpre & Hne)]; [split; [done|]; by rewrite Hv0|].
  assert (Hrow := Hv2). apply view_spec in Hrow as (id2 & p2 & Hp2 & Hn2 & Hh2); [|done].
  assert (id2 = id1) as -> by apply (f_equal h_ID Hh2).
  destruct (owned_view w2 id1 _ p2 _ Hok2 Hp2 Hn2 Hne) as [Hok3 Hv3]. rewrite Hpre, Hh2 in Hv3.
  split; [eapply only_trans; [exact Ho2|by eapply only_insert]|].
  assert (Hfinal : view (set_Owners (<[id1 := TrimPrefix (fp_ManagedBy p) "file:"]> (ta_Owners w2)) w2) !! fp_Name p =
    Some (with_ID id1 (holder_of p))); [|destruct owned; [|done]; intros h Hh; congruence].
  rewrite Hv3, lookup_insert_eq. f_equal. unfold h1, holder_of, with_ID, set_field, holder. cbn. f_equal.
  - done.
  - rewrite Hids. apply set_eq. intros i. rewrite elem_of_list_to_set, identities_elem. split; [|done].
    intros Hi. destruct (to_bound w Hok _ _ Hi) as [q' Hq']. congruence.
Qed.

#[export] Instance core_backend : Backend Tables := {
  bk_ok := tables_ok;
  bk_view := view;
  bk_does := implemented may (core pool fuel);
}.

(** The core backend keeps the laws. *)
#[export] Instance core_lawful : LawfulBackend Tables.
Proof.
  split; cbn [bk_ok bk_view bk_does core_backend]; unfold implemented; cbn [core].
  - intros w r w' Hok H. by destruct (core_List_law w r w' Hok H) as [-> Hl].
  - intros w s r w' Hok (u & w1 & Hm & [-> ->]). assert (w1 = w) as -> by (refine (may_read _ _ _ _ _ _ Hm); done). done.
  - intros w p r w' Hok Hd ([id err] & w1 & Hc & [-> ->])%runs_bind.
    destruct (core_Create_law _ _ _ _ _ Hok Hd Hc) as [[Hok' Ho] Hm]. split; [done|]. split; [done|].
    destruct err as [e|]; cbn; [|done]. intros h Hh. by rewrite (Hm h Hh).
  - intros w n h c r w' Hok Hv. by apply core_Update_law.
  - intros w n h i r w' Hok Hv. by apply core_Bind_law.
  - intros w n h i r w' Hok Hv. by apply core_Unbind_law.
Qed.
End Laws.
