(* ===== verification/PrincipalSafety.v ===== *)
(** * What a principals file may do

    Of any backend that keeps the laws, and so of the core backend: applying is
    carrying out the plan's changes, narrowing ones first; without a failure it leaves
    what the file declares and nothing to plan; and a plan that was not approved
    widens nothing, whoever planned it when. *)

From S2P Require Import Prelude.
From S2P Require Import GoStd.
From S2P Require Import PrincipalStore.
From S2P Require Import PrincipalFile.
From S2P Require Import PrincipalApply.
From S2P Require Import PrincipalCore.

(** ** A plan that is fresh *)

Lemma canonical_elem l p : p ∈ canonical l <->
  exists q, q ∈ l /\ p = set_identities (sort_by of_ident (fp_Identities q)) q.
Proof.
  unfold canonical. rewrite sort_by_perm, list_elem_of_In, in_map_iff. split.
  - intros (q & <- & Hq%list_elem_of_In). by exists q.
  - intros (q & Hq & ->). exists q. split; [done|]. by apply list_elem_of_In.
Qed.

Lemma canonical_holder q : holder_of (set_identities (sort_by of_ident (fp_Identities q)) q) = holder_of q.
Proof. unfold holder_of. cbn. f_equal. apply set_eq. intros i. rewrite !elem_of_list_to_set. by rewrite sort_by_perm. Qed.

Lemma canonical_view l0 v0 l v : shows l0 v0 -> shows l v -> canonical l0 = canonical l -> v0 = v.
Proof.
  intros [_ H0] [_ H] E.
  assert (Hc : forall l (v : View), (forall n h, v !! n = Some h <-> exists p, p ∈ l /\ fp_Name p = n /\ holder_of p = h) ->
    forall n h, v !! n = Some h <-> exists p, p ∈ canonical l /\ fp_Name p = n /\ holder_of p = h).
  { intros l' v' Hv n h. rewrite Hv. setoid_rewrite canonical_elem. split.
    - intros (p & Hp & <- & <-). eexists. split; [by exists p|]. by rewrite canonical_holder.
    - intros (p & (q & Hq & ->) & <- & <-). exists q. by rewrite canonical_holder. }
  apply map_eq. intros n. apply option_eq. intros h. by rewrite (Hc _ _ H0), (Hc _ _ H), E.
Qed.

Section Backends.
Context `{HL : LawfulBackend W} (https_url : string -> bool) (f : File).

(** The digests of what is listed in two states differ if that does. *)
Definition digest_apart (w0 w : W) : Prop :=
  forall l0 l w0' w', bk_does BList w0 (inl l0) w0' -> bk_does BList w (inl l) w' -> stateHash l0 = stateHash l ->
    canonical l0 = canonical l.

Abbreviation does p := (runs (fun X (c : bcall X) => bk_does c) p).

(** A plan made earlier that is applied was made of the same principals. *)
Lemma applied_plan profiles p opts w0 w0' w r w' : bk_ok w0 -> bk_ok w -> validate https_url f = None ->
  digest_apart w0 w ->
  does (MakePlan profiles (Some f)) w0 (inl p) w0' -> does (Apply (Some p) (Some f) opts) w r w' ->
  (bk_view w' = bk_view w /\ r.1 = no_result /\ is_Some r.2) \/
  (bk_view w = bk_view w0 /\ (Widening p = true -> ao_ApproveWidening opts = true) /\
   applied f (ao_Actor opts) (ordered (pl_Changes p)) [] r (bk_view w) (bk_view w')).
Proof.
  intros Hok0 Hok Hv Hd Hplan Happ. destruct (MakePlan_inv _ _ _ _ _ Hok0 Hplan) as (_ & _ & l0 & bs & [wl Hl0] & Hp).
  destruct (Apply_inv _ _ _ _ _ _ Hok Happ) as [Ho|(l & w1 & Hlw & Hl & Hw1 & Hok1 & Hh & Hwid & Hall)]; [by left|right].
  assert (Hsame : bk_view w = bk_view w0).
  { symmetry. eapply canonical_view; [apply Hp|exact Hl|]. apply (Hd _ _ _ _ Hl0 Hlw).
    by rewrite Hh, (po_state _ _ _ _ _ Hp). }
  split; [done|]. split; [done|]. rewrite <- Hw1.
  eapply applyAll_does in Hall as [_ Hall]; [exact Hall|done|rewrite Hw1; by apply ids_shows| |].
  - apply Forall_forall. intros c Hc. apply (proj1 (ordered_elem _ _)) in Hc. exact (plan_plannable _ _ _ _ _ Hp _ _ _ Hv Hc).
  - rewrite Hw1, Hsame. by eapply plan_sound.
Qed.

(** C25: applying a plan made of the same file carries out its changes one after another,
    the narrowing ones first, up to the first that fails, of which it leaves nothing or
    all (of a new principal, some); or it refuses the plan, and changes nothing. *)
Theorem apply_in_order profiles p opts w0 w0' w r w' : bk_ok w0 -> bk_ok w -> validate https_url f = None ->
  digest_apart w0 w ->
  does (MakePlan profiles (Some f)) w0 (inl p) w0' -> does (Apply (Some p) (Some f) opts) w r w' ->
  (bk_view w' = bk_view w /\ r.1 = no_result /\ is_Some r.2) \/
  (bk_view w = bk_view w0 /\
   applied f (ao_Actor opts) (List.filter narrows (pl_Changes p) ++ List.filter ch_Widening (pl_Changes p)) [] r
     (bk_view w) (bk_view w')).
Proof.
  intros Hok0 Hok Hv Hd Hplan Happ. rewrite <- ordered_split.
  destruct (applied_plan _ _ _ _ _ _ _ _ Hok0 Hok Hv Hd Hplan Happ) as [Ho|(H1 & _ & H2)]; auto.
Qed.

(** C23: a plan applied without an error leaves every declared principal as the file
    declares it, its identities too, retires what the file manages and no longer lists
    if it prunes, and leaves every other principal alone; and planning the file again
    plans no change. *)
Theorem applied_is_declared profiles p opts w w1 res w2 : bk_ok w -> validate https_url f = None ->
  does (MakePlan profiles (Some f)) w (inl p) w1 -> does (Apply (Some p) (Some f) opts) w1 (res, None) w2 ->
  (forall want, want ∈ specs f -> exists h, bk_view w2 !! sp_Name want = Some h /\ declared f want h) /\
  (forall n, listed f n = false -> bk_view w2 !! n = (fun h => left_over f h n) <$> bk_view w !! n) /\
  (forall profiles' p' w3, does (MakePlan profiles' (Some f)) w2 (inl p') w3 -> pl_Changes p' = []).
Proof.
  intros Hok Hv Hplan Happ. destruct (MakePlan_inv _ _ _ _ _ Hok Hplan) as (Hok1 & Hview & l & bs & _ & Hp).
  destruct (Apply_inv _ _ _ _ _ _ Hok1 Happ) as [(_ & _ & [e [=]])|(l1 & w1' & _ & Hl1 & Hw1 & Hok1' & _ & _ & Hall)].
  assert (Hs := plan_sound _ _ _ _ _ Hp).
  eapply applyAll_does in Hall as [Hok2 (k & v1 & _ & Hk & Hall & Hv1 & _)];
    [|done|rewrite Hw1; by apply ids_shows|apply Forall_forall; intros c Hc; apply (proj1 (ordered_elem _ _)) in Hc; exact (plan_plannable _ _ _ _ _ Hp _ _ _ Hv Hc)|by rewrite Hw1, Hview].
  rewrite Hall, Hw1, Hview in Hk. rewrite <- Hv1 in Hk.
  assert (Hlisted := fun want => outcome_listed https_url f _ p _ l bs Hv Hp _ want Hk).
  assert (Hunlisted := fun n => outcome_unlisted f _ p _ l bs Hp _ n Hk).
  split; [done|]. split; [done|]. intros profiles' p' w3 Hagain.
  destruct (MakePlan_inv _ _ _ _ _ Hok2 Hagain) as (_ & _ & l3 & bs3 & _ & Hp3). eapply plan_empty; [exact Hp3|done|].
  intros n h Hh. destruct (retires f h n) eqn:Er; [|done]. assert (Hun := retires_unlisted _ _ _ Er).
  rewrite (Hunlisted n Hun) in Hh. destruct (bk_view w !! n) as [h0|]; [|done]. injection Hh as <-.
  unfold left_over in Er. destruct (retires f h0 n) eqn:Er0; [|congruence].
  unfold retires in Er. cbn in Er. by rewrite !andb_false_r in Er.
Qed.

(** ** Without an approval *)

(** [h] may do no more than [h0]. *)
Record no_wider (h0 h : Holder) : Prop := {
  nw_profile : h_Profile h = h_Profile h0;
  nw_ceiling : rank (h_EnvCeiling h) <= rank (h_EnvCeiling h0);
  nw_tenant : h_Tenant h = h_Tenant h0;
  nw_status : h_Status h = "active" -> h_Status h0 = "active";
  nw_identities : h_Identities h ⊆ h_Identities h0;
}.

Definition none_wider (v0 v : View) : Prop :=
  forall n h, v !! n = Some h -> exists h0, v0 !! n = Some h0 /\ no_wider h0 h.

Lemma no_wider_refl h : no_wider h h.
Proof. by split. Qed.

(** A change of a plan that is not widening. *)
Lemma narrow_step p v l bs actor c v1 v2 : plan_of f p v l bs -> c ∈ pl_Changes p -> ch_Widening c = false ->
  none_wider v v1 -> vstep f actor c v1 v2 -> none_wider v v2.
Proof.
  intros Hp Hc Hw Hn (h' & Hs & ->) n h. destruct (decide (n = ch_Principal c)) as [->|Hne];
    [|rewrite lookup_insert_ne by done; apply Hn]. rewrite lookup_insert_eq. intros [= <-].
  assert (Hset : forall h1 fld to_, v1 !! ch_Principal c = Some h1 -> fld <> "profile" ->
    (forall h0, v !! ch_Principal c = Some h0 -> (fld = "env_ceiling" -> rank to_ <= rank (h_EnvCeiling h0)) /\
       (fld = "status" -> to_ <> "active")) ->
    exists h0, v !! ch_Principal c = Some h0 /\ no_wider h0 (set_field fld to_ h1)).
  { intros h1 fld to_ Hh1 Hpr Hto. destruct (Hn _ _ Hh1) as (h0 & Hh0 & [N1 N2 N3 N4 N5]). exists h0. split; [done|].
    destruct (Hto h0 Hh0) as [T1 T2]. split; cbn; [|destruct (String.eqb_spec fld "env_ceiling"); auto|done| |done].
    - destruct (String.eqb_spec fld "profile"); done.
    - destruct (String.eqb_spec fld "status") as [E|E]; [intros ->; by destruct (T2 E)|done]. }
  unfold hstep in Hs. destruct (plan_changes _ _ _ _ _ Hp c Hc) as [(want & Hwant & Hm)|(n & h0 & Hh0 & Hr & ->)].
  - destruct (v !! sp_Name want) as [h0|] eqn:E; [|by destruct Hm as (_ & Hm & _); congruence].
    destruct Hm as [_ [Hpr Hrev]]. rewrite Hpr in *. destruct (ch_Op c); try done; try (
      destruct Hs as (h1 & Hh1 & ->), Hrev as (_ & Hto & Hnar); destruct (Hnar Hw) as (M1 & M2 & M3);
      apply (Hset h1); [done|done|]; intros h2 Hh2; rewrite E in Hh2; injection Hh2 as <-; rewrite Hto;
      split; intros Hfld; rewrite Hfld; [apply M2; exact Hfld|apply M3; exact Hfld]).
    + destruct Hrev as [Hrev _]. congruence.
    + destruct Hs as (h1 & i & Hh1 & _ & ->). destruct (Hn _ _ Hh1) as (h2 & Hh2 & [N1 N2 N3 N4 N5]). exists h2.
      split; [congruence|]. split; try done. cbn. set_solver.
  - cbn in Hs. destruct Hs as (h1 & Hh1 & ->). by apply (Hset h1).
Qed.

Lemma narrow_steps p v l bs actor cs v1 v2 : plan_of f p v l bs -> (forall c, c ∈ cs -> c ∈ pl_Changes p /\ ch_Widening c = false) ->
  none_wider v v1 -> vsteps f actor cs v1 v2 -> none_wider v v2.
Proof.
  intros Hp. revert v1. induction cs as [|c cs IH]; intros v1 Hc Hn; cbn [vsteps]; [by intros ->|].
  intros (v3 & Hs & Hr). destruct (Hc c ltac:(by left)) as [Hin Hw].
  eapply IH; [intros d Hd; apply Hc; by right|by eapply narrow_step|done].
Qed.

(** C24: without the approval of widening, applying a plan, made of the same file at any
    time, gives no principal another profile or tenant, a higher ceiling or another
    identity, activates none and creates none; even when it fails halfway. *)
Theorem unapproved_widens_nothing profiles p actor w0 w0' w r w' : bk_ok w0 -> bk_ok w -> validate https_url f = None ->
  digest_apart w0 w ->
  does (MakePlan profiles (Some f)) w0 (inl p) w0' ->
  does (Apply (Some p) (Some f) {| ao_Actor := actor; ao_ApproveWidening := false |}) w r w' ->
  none_wider (bk_view w) (bk_view w').
Proof.
  intros Hok0 Hok Hv Hd Hplan Happ. assert (Hself : none_wider (bk_view w) (bk_view w)).
  { intros n h Hh. exists h. split; [done|apply no_wider_refl]. }
  destruct (applied_plan _ _ _ _ _ _ _ _ Hok0 Hok Hv Hd Hplan Happ) as [(-> & _)|(Hsame & Hwid & k & v1 & _ & Hk & Hlast)]; [done|].
  destruct (MakePlan_inv _ _ _ _ _ Hok0 Hplan) as (_ & _ & l & bs & _ & Hp). rewrite <- Hsame in Hp.
  assert (Hnar : forall c, c ∈ pl_Changes p -> ch_Widening c = false).
  { intros c Hc. destruct (ch_Widening c) eqn:Ew; [|done]. cbn in Hwid. discriminate Hwid. apply existsb_exists.
    exists c. split; [by apply list_elem_of_In|done]. }
  assert (Hin : forall c, c ∈ take k (ordered (pl_Changes p)) -> c ∈ pl_Changes p /\ ch_Widening c = false).
  { intros c Hc. assert (c ∈ pl_Changes p); [|auto]. apply ordered_elem. rewrite <- (take_drop k). apply elem_of_app. by left. }
  assert (Hv1 := narrow_steps _ _ _ _ _ _ _ _ Hp Hin Hself Hk). destruct r.2; [|by destruct Hlast as (_ & -> & _)].
  destruct Hlast as (c & Hck & _ & Hhalf). assert (Hc : c ∈ pl_Changes p) by (apply ordered_elem; by eapply list_elem_of_lookup_2).
  unfold halfway in Hhalf. destruct (creates c) eqn:Ecr.
  - exfalso. assert (Hnc := Hnar c Hc). destruct (plan_changes _ _ _ _ _ Hp c Hc) as [(want & _ & Hm)|(n & h & _ & _ & ->)]; [|done].
    destruct (bk_view w !! sp_Name want); [|destruct Hm as (_ & Hm & _); congruence].
    by rewrite (revises_creates _ _ _ _ (proj2 Hm)) in Ecr.
  - destruct Hhalf as [->|Hs]; [done|]. eapply narrow_step; [exact Hp|exact Hc|by apply Hnar|exact Hv1|exact Hs].
Qed.
End Backends.

(** ** A file planned and applied *)

(** A program of the store with every statement carried out. *)
Fixpoint play {A} (x : Answers) (p : PrincipalStore.prog A) (w : Tables) : A * Tables :=
  match p with
  | Ret a => (a, w)
  | Do st k => let '(r, w') := exec_done x st w in play x (k r) w'
  end.

Lemma play_runs {A} x (p : PrincipalStore.prog A) w : runs may p w (play x p w).1 (play x p w).2.
Proof.
  revert w. induction p as [a|X st k IH]; intros w; [done|]. cbn. destruct (exec_done x st w) as [r w'] eqn:E.
  exists r, w'. split; [exists (Done x); cbn; by rewrite E|apply IH].
Qed.

(** A program of the backend's calls, over the core backend. *)
Fixpoint play_calls {A} (x : Answers) (p : bprog A) (w : Tables) : A * Tables :=
  match p with
  | Ret a => (a, w)
  | Do c k => let '(r, w') := play x (core true 9 _ c) w in play_calls x (k r) w'
  end.

Lemma play_calls_runs {A} x (p : bprog A) w :
  runs (implemented may (core true 9)) p w (play_calls x p w).1 (play_calls x p w).2.
Proof.
  revert w. induction p as [a|X c k IH]; intros w; [done|]. cbn. destruct (play x (core true 9 X c) w) as [r w'] eqn:E.
  exists r, w'. split; [|apply IH]. unfold implemented. assert (Hr := play_runs x (core true 9 X c) w). by rewrite E in Hr.
Qed.

Definition row (id name profile env status : string) (sponsor : option Z) : Principal.Principal :=
  {| Principal.p_ID := id; Principal.p_Name := name; Principal.p_SponsorUserID := sponsor; Principal.p_Tenant := "";
     Principal.p_Profile := profile; Principal.p_EnvCeiling := env; Principal.p_Status := status;
     Principal.p_FrozenReason := ""; Principal.p_CreatedBy := "ana"; Principal.p_CreatedAt := 0;
     Principal.p_UpdatedAt := 0; Principal.p_SponsorActive := false; Principal.p_Tainted := false |}.

Definition okta (subject : string) : Identity := {| id_Issuer := "https://idp.example.com"; id_Subject := subject |}.

Definition spec (name profile env : string) (ids : list Identity) : PrincipalSpec :=
  {| sp_Name := name; sp_Sponsor := "ana@example.com"; sp_Profile := profile; sp_EnvCeiling := env; sp_Tenant := "";
     sp_Status := "active"; sp_Identities := Some ids |}.

Definition file_of (specs : list PrincipalSpec) : File :=
  {| fi_APIVersion := APIVersion; fi_Kind := Kind; fi_Name := "prod-agents"; fi_Prune := true;
     fi_Principals := Some specs; fi_Reserved := false |}.

Definition bot_id : string := "agp_aaaaaaaaaaaaaaaaaaaa".
Definition old_id : string := "agp_bbbbbbbbbbbbbbbbbbbb".

(** [bot], nobody's yet, may reach production under an old identity; [old] is the
    file's. *)
Definition some_tables : Tables :=
  {| ta_Now := 7; ta_Users := {[1 := "ana@example.com"]};
     ta_Principals := list_to_map [(bot_id, row bot_id "bot" "legacy" "prod" "active" None);
                                   (old_id, row old_id "old" "legacy" "dev" "frozen" (Some 1))];
     ta_Taints := ∅; ta_Owners := {[old_id := "prod-agents"]}; ta_Bindings := {[okta "0ob" := bot_id]} |}.

Definition bytes : Answers := {| x_read := fun n => Ok (repeat 77 n) |}.
Definition any_url (s : string) : bool := true.

(** It narrows [bot], retires [old], and creates [new] with an identity. *)
Definition full_file : File := file_of [spec "bot" "legacy" "stage" []; spec "new" "app-writer" "dev" [okta "0on"]].
(** It narrows only. *)
Definition narrow_file : File := file_of [spec "bot" "legacy" "stage" []].

Definition planned_of (f : File) : Plan + error := (play_calls bytes (MakePlan SpecProfiles (Some f)) some_tables).1.
Definition no_plan : Plan :=
  {| pl_File := ""; pl_FileHash := ""; pl_StateHash := ""; pl_Changes := []; pl_Unmanaged := []; pl_Warnings := [] |}.
Definition the_plan (f : File) : Plan := match planned_of f with inl p => p | inr _ => no_plan end.
Definition applied_of (f : File) (approve : bool) : (Result * option error) * Tables :=
  play_calls bytes (Apply (Some (the_plan f)) (Some f) {| ao_Actor := "ana"; ao_ApproveWidening := approve |}) some_tables.

Lemma some_tables_ok : tables_ok some_tables.
Proof.
  assert (Hrows : forall id p, ta_Principals some_tables !! id = Some p ->
    (id = bot_id /\ p = row bot_id "bot" "legacy" "prod" "active" None) \/
    (id = old_id /\ p = row old_id "old" "legacy" "dev" "frozen" (Some 1))).
  { intros id p. cbn. rewrite !lookup_insert_Some, lookup_empty. naive_solver. }
  split.
  - intros id p [[-> ->]|[-> ->]]%Hrows; (split; [done|]; vm_compute; done).
  - intros id id' p p' [[-> ->]|[-> ->]]%Hrows [[-> ->]|[-> ->]]%Hrows; done.
  - intros id file. cbn. by intros [_ <-]%lookup_singleton_Some.
  - intros i id. cbn [ta_Bindings some_tables]. intros [_ <-]%lookup_singleton_Some. by eexists.
Qed.

Lemma apart_itself : digest_apart (H := core_backend true 9) some_tables some_tables.
Proof.
  intros l0 l w0' w' H0 H _. destruct (core_List_runs true 9 _ _ _ some_tables_ok H0) as [_ E0].
  destruct (core_List_runs true 9 _ _ _ some_tables_ok H) as [_ E]. by rewrite (E0 l0 eq_refl), (E l eq_refl).
Qed.

Abbreviation core_runs p := (runs (implemented may (core true 9)) p).

Lemma full_plan_runs : core_runs (MakePlan SpecProfiles (Some full_file)) some_tables (inl (the_plan full_file)) some_tables.
Proof.
  assert (Hr := play_calls_runs bytes (MakePlan SpecProfiles (Some full_file)) some_tables).
  assert (E : play_calls bytes (MakePlan SpecProfiles (Some full_file)) some_tables = (inl (the_plan full_file), some_tables))
    by (vm_compute; reflexivity). by rewrite E in Hr.
Qed.

Lemma narrow_plan_runs : core_runs (MakePlan SpecProfiles (Some narrow_file)) some_tables (inl (the_plan narrow_file)) some_tables.
Proof.
  assert (Hr := play_calls_runs bytes (MakePlan SpecProfiles (Some narrow_file)) some_tables).
  assert (E : play_calls bytes (MakePlan SpecProfiles (Some narrow_file)) some_tables = (inl (the_plan narrow_file), some_tables))
    by (vm_compute; reflexivity). by rewrite E in Hr.
Qed.

Definition approved (b : bool) : ApplyOptions := {| ao_Actor := "ana"; ao_ApproveWidening := b |}.

(** All seven changes are applied: [bot] and [new] are as declared. *)
Lemma applied_is_declared_witness : exists res w2,
  core_runs (Apply (Some (the_plan full_file)) (Some full_file) (approved true)) some_tables (res, None) w2 /\
  length (rs_Applied res) = 7%nat /\
  forall want, want ∈ specs full_file -> exists h, view w2 !! sp_Name want = Some h /\ declared full_file want h.
Proof.
  assert (Hr := play_calls_runs bytes (Apply (Some (the_plan full_file)) (Some full_file) (approved true)) some_tables).
  change (play_calls _ _ _) with (applied_of full_file true) in Hr.
  assert (E : (applied_of full_file true).1 = ((applied_of full_file true).1.1, None)) by (vm_compute; reflexivity).
  rewrite E in Hr. exists (applied_of full_file true).1.1, (applied_of full_file true).2.
  split; [exact Hr|]. split; [vm_compute; reflexivity|].
  apply (applied_is_declared (HL := core_lawful true 9) any_url full_file SpecProfiles (the_plan full_file) (approved true)
    some_tables some_tables _ _ some_tables_ok eq_refl full_plan_runs Hr).
Defined.

(** Nothing approves widening: all five changes are applied, and narrow. *)
Lemma unapproved_widens_nothing_witness : exists res w2,
  core_runs (Apply (Some (the_plan narrow_file)) (Some narrow_file) (approved false)) some_tables (res, None) w2 /\
  length (rs_Applied res) = 5%nat /\ none_wider (view some_tables) (view w2).
Proof.
  assert (Hr := play_calls_runs bytes (Apply (Some (the_plan narrow_file)) (Some narrow_file) (approved false)) some_tables).
  change (play_calls _ _ _) with (applied_of narrow_file false) in Hr.
  assert (E : (applied_of narrow_file false).1 = ((applied_of narrow_file false).1.1, None)) by (vm_compute; reflexivity).
  rewrite E in Hr. exists (applied_of narrow_file false).1.1, (applied_of narrow_file false).2.
  split; [exact Hr|]. split; [vm_compute; reflexivity|].
  apply (unapproved_widens_nothing (HL := core_lawful true 9) any_url narrow_file SpecProfiles (the_plan narrow_file) "ana"
    some_tables some_tables some_tables _ _ some_tables_ok some_tables_ok eq_refl apart_itself narrow_plan_runs Hr).
Defined.

(** What widens is refused without an approval, and nothing is changed. *)
Lemma apply_in_order_witness : exists r w2,
  core_runs (Apply (Some (the_plan full_file)) (Some full_file) (approved false)) some_tables r w2 /\
  r.2 = Some ErrWideningNotApproved /\
  ((view w2 = view some_tables /\ r.1 = no_result /\ is_Some r.2) \/
   (view some_tables = view some_tables /\
    applied full_file "ana" (List.filter narrows (pl_Changes (the_plan full_file)) ++
      List.filter ch_Widening (pl_Changes (the_plan full_file))) [] r (view some_tables) (view w2))).
Proof.
  assert (Hr := play_calls_runs bytes (Apply (Some (the_plan full_file)) (Some full_file) (approved false)) some_tables).
  change (play_calls _ _ _) with (applied_of full_file false) in Hr.
  exists (applied_of full_file false).1, (applied_of full_file false).2. split; [exact Hr|].
  split; [vm_compute; reflexivity|].
  apply (apply_in_order (HL := core_lawful true 9) any_url full_file SpecProfiles (the_plan full_file) (approved false)
    some_tables some_tables some_tables _ _ some_tables_ok some_tables_ok eq_refl apart_itself full_plan_runs Hr).
Defined.
