(* ===== verification/Apply.v ===== *)
(** * The execution pipeline

    internal/executor: apply.go, apply_lease.go, agent_gate.go ([executeHeld]),
    lease_park.go, lock_ceiling.go, quiesce.go, the decision of finding_policy.go and
    the slot of rollback_runtime.go.  Every change runs through [Apply]: authorize,
    admit, lease, DDL slot, re-authorize, hold the agent active, execute, verify,
    give everything back.  It runs beside the kill switch's operations on one
    control database: the system of this file. *)

From S2P Require Import Prelude.
From S2P Require Import GoStd.
From S2P Require Import PolicyTypes.
From S2P Require Import Budget.
From S2P Require Import Gate.
From S2P Require Import Principal.
From S2P Require Import Lease.
From S2P Require LeaseStore.
From S2P Require Import LeaseQueue.
From S2P Require Import Guard.
From S2P Require Import GuardRoles.
From S2P Require Import GuardKill.

(** ** Decisions: action_policy.go, finding_policy.go *)

Definition PolicyDecisionExecute : string := "execute".
Definition PolicyDecisionQueueApproval : string := "queue_for_approval".
Definition PolicyDecisionBlocked : string := "blocked".
Definition PolicyDecisionObserveOnly : string := "observe_only".
Definition PolicyDecisionParked : string := "parked".

Definition verdict_text (v : Verdict) : string :=
  match v with
  | VerdictExecute => "execute"
  | VerdictQueueApproval => "queue_approval"
  | VerdictPark => "park"
  | VerdictBlocked => "blocked"
  | VerdictObserveOnly => "observe_only"
  | VerdictOther s => s
  end.

Record ActionPolicyDecision : Type := {
  ad_Decision : string;
  ad_RiskTier : string;
  ad_RequiresApproval : bool;
  ad_RequiresMaintenanceWindow : bool;
  ad_BlockedReason : string;
  ad_Detail : string;
  ad_Guardrails : list string;
  ad_EvidenceID : string;
  ad_DecisionID : Z;
  ad_LockCeilingMS : Z;
  ad_SerializeMode : string;
  ad_Trusted : option (string * string * string);
}.

Definition standingPolicyDecision (d : Decision) : ActionPolicyDecision :=
  {| ad_Decision := match dec_Verdict d with
                    | VerdictExecute => PolicyDecisionExecute
                    | VerdictQueueApproval => PolicyDecisionQueueApproval
                    | VerdictPark => PolicyDecisionParked
                    | VerdictObserveOnly => PolicyDecisionObserveOnly
                    | _ => PolicyDecisionBlocked
                    end;
     ad_RiskTier := dec_RiskTier d;
     ad_RequiresApproval := verdict_eqb (dec_Verdict d) VerdictQueueApproval;
     ad_RequiresMaintenanceWindow := (dec_RiskTier d =s RiskModerate) || (dec_RiskTier d =s RiskHigh);
     ad_BlockedReason := if (dec_Reason d =s ReasonAuthorized) || (dec_Reason d =s ReasonOperatorApproved)
                         then "" else dec_Reason d;
     ad_Detail := dec_Detail d; ad_Guardrails := dec_Guardrails d; ad_EvidenceID := dec_EvidenceID d;
     ad_DecisionID := dec_DecisionID d; ad_LockCeilingMS := dec_LockCeilingMS d;
     ad_SerializeMode := dec_SerializeMode d;
     ad_Trusted := (fun t => (verdict_text (tv_Verdict t), tv_Reason t, tv_Detail t)) <$> dec_Trusted d |}.

(** No gate: fail closed. *)
Definition no_standing_policy : ActionPolicyDecision :=
  {| ad_Decision := PolicyDecisionBlocked; ad_RiskTier := "unknown"; ad_RequiresApproval := false;
     ad_RequiresMaintenanceWindow := false; ad_BlockedReason := "standing policy unavailable";
     ad_Detail := ""; ad_Guardrails := []; ad_EvidenceID := ""; ad_DecisionID := 0;
     ad_LockCeilingMS := 0; ad_SerializeMode := ""; ad_Trusted := None |}.

Definition executes (d : ActionPolicyDecision) : bool := ad_Decision d =s PolicyDecisionExecute.

(** ** Intents: apply.go, apply_lease.go *)

(** The fields of a finding that a lease reads; [fi_Table]: its detail's "table". *)
Record Finding : Type := {
  fi_Category : string;
  fi_ObjectType : string;
  fi_ObjectIdentifier : string;
  fi_RecommendedSQL : string;
  fi_Table : string;
}.

Record TargetLease : Type := {
  tl_Kind : string;
  tl_Actor : string;
  tl_Targets : list string;
  tl_Intent : string;
  tl_Operator : bool;
}.

(** A callback is there or not. *)
Record ActionIntent : Type := {
  ai_Request : ActionRequest;
  ai_Authorize : bool;
  ai_FirstDecision : option ActionPolicyDecision;
  ai_Lease : option Finding;
  ai_TargetLease : option TargetLease;
  ai_WaitForSlot : bool;
  ai_SlotHeld : bool;
  ai_Admit : bool;
  ai_Verify : bool;
  ai_Refused : bool;
}.

Definition set_LeaseHeld (b : bool) (r : ActionRequest) : ActionRequest :=
  {| req_DatabaseID := req_DatabaseID r; req_Contract := req_Contract r;
     req_Arguments := req_Arguments r; req_InternalControl := req_InternalControl r;
     req_SQL := req_SQL r; req_TargetObjs := req_TargetObjs r; req_Feature := req_Feature r;
     req_Deadline := req_Deadline r; req_Evidence := req_Evidence r;
     req_IsReplica := req_IsReplica r; req_ExplainFamily := req_ExplainFamily r;
     req_OperatorApproved := req_OperatorApproved r; req_OwnerDeclared := req_OwnerDeclared r;
     req_IncidentFamily := req_IncidentFamily r;
     req_EvidenceObservedAt := req_EvidenceObservedAt r; req_LeaseHeld := b;
     req_Rollback := req_Rollback r; req_Principal := req_Principal r;
     req_CapabilityClass := req_CapabilityClass r; req_ArtifactHash := req_ArtifactHash r |}.

(** Whether the executor has a pool, a slot semaphore and a principal hold, and
    whether that hold has a control database. *)
Record Executor : Type := {
  ex_Pool : bool;
  ex_Sem : bool;
  ex_Hold : bool;
  ex_Control : bool;
}.

Definition isDDLMutation (sql : string) : bool :=
  let upper := ToUpper (TrimSpace sql) in
  existsb (HasPrefix upper) ["CREATE INDEX "; "CREATE UNIQUE INDEX "; "DROP INDEX "; "REINDEX "; "ALTER TABLE "].

Definition isLeasedMutation (sql : string) : bool :=
  isDDLMutation sql ||
  (let upper := ToUpper (TrimSpace sql) in
   (upper =s "VACUUM") || HasPrefix upper "VACUUM " || HasPrefix upper "VACUUM(").

(** [strings.Cut(s, "|")]'s first part. *)
Fixpoint before_bar (s : string) : string :=
  match s with
  | EmptyString => ""
  | String c s' => if char_eqb c "|" then "" else String c (before_bar s')
  end.

Definition OptimizerFindingTable (f : Finding) : string :=
  if fi_Table f <>s "" then fi_Table f else before_bar (fi_ObjectIdentifier f).

Definition targetObjectsForFinding (f : Finding) : list string :=
  let target := TrimSpace (fi_ObjectIdentifier f) in if target =s "" then [] else [target].

Definition leaseSpecFor (i : ActionIntent) : option TargetLease :=
  match ai_TargetLease i, ai_Lease i with
  | Some spec, _ => Some spec
  | None, None => None
  | None, Some f =>
      if negb (isLeasedMutation (fi_RecommendedSQL f)) then None else
      let who := if fi_ObjectType f =s "custodian" then "custodian" else "executor" in
      let kind := if fi_ObjectType f =s "custodian" then "custodian" else "finding" in
      let targets := match req_TargetObjs (ai_Request i) with
                     | [] => targetObjectsForFinding f
                     | l => l
                     end in
      let targets := match targets with
                     | [] => []
                     | l => if fi_Category f =s "missing_index" then [OptimizerFindingTable f] else l
                     end in
      Some {| tl_Kind := kind; tl_Actor := who; tl_Targets := targets;
              tl_Intent := fi_RecommendedSQL f; tl_Operator := false |}
  end.

(** ** Lock timeouts: lock_ceiling.go *)

Definition NeedsConcurrently (sql : string) : bool := Contains (ToUpper sql) "CONCURRENTLY".
Definition NeedsTopLevel (sql : string) : bool :=
  let upper := TrimSpace (ToUpper sql) in HasPrefix upper "VACUUM" || HasPrefix upper "ALTER SYSTEM".

Definition ddlLockTimeoutMS (sql : string) (safetyMS ceilingMS : Z) : Z :=
  if NeedsConcurrently sql || NeedsTopLevel sql then safetyMS
  else EffectiveLockTimeoutMS ceilingMS safetyMS.

(** ** Statements *)

Inductive ApplyError : Type :=
| WithheldError (d : ActionPolicyDecision) (reauthorized : bool)
| CallerRefused (e : error)
| NotAdmitted (e : error)
| ErrTargetLeased (e : lease_error)
| LeaseRefused (e : lease_error)
| ErrDDLSlotUnavailable
| SlotWaitEnded
| NoPrincipalHold
| PrincipalInactive (e : GuardError)
| ExecuteFailed (e : error)
| VerifyFailed (e : error).

(** What the pipeline does outside itself. *)
Inductive astmt : Type -> Type :=
| Control {X} (st : GuardKill.stmt X) : astmt X
| GateAuthorize (req : ActionRequest) : astmt (option Decision)
| CallerAuthorize : astmt (ActionPolicyDecision * option error)
| Admit (decisionID : Z) : astmt (option error)
| ResolveTargets (names : list string) : astmt (list TypedTarget + lease_error)
| AcquireLease (queue : bool) (spec : TargetLease) (targets : list TypedTarget) (decisionID : Z)
    : astmt (LeaseID + lease_error)
| ReleaseLease (id : LeaseID) : astmt unit
| RecordLeaseVerdict (decisionID : Z) (verdict : string) : astmt unit
| Refused (decisionID : Z) : astmt unit
| TrySlot : astmt bool
| WaitSlot : astmt bool
| ReleaseSlot : astmt unit
| Execute (req : ActionRequest) (d : ActionPolicyDecision) (hold : option Z) : astmt (Z * option error)
| Verify (actionID : Z) : astmt (option error)
| ReleaseBudget (ids : list Z) : astmt unit
| QuiesceSlot : astmt bool
| StopRuntime : astmt unit
| QuiesceRelease (slots : Z) : astmt unit.

Abbreviation aprog := (Interleave.prog astmt failure).

(** A program of the kill switch, here. *)
Fixpoint control {A} (p : GuardKill.prog A) : aprog A :=
  match p with
  | Ret a => Ret a
  | Do st k => Do (Control st) (fun r => control (k r))
  end.

(** The answer of what does not fail. *)
Definition answered {A} (dflt : A) (r : A + failure) : A := match r with inl a => a | inr _ => dflt end.

(** ** Apply *)

Section Pipeline.
Context (ctx : Ctx) (ex : Executor) (i : ActionIntent).

Definition authorizeIntent (leased reauthorize : bool) : aprog (ActionPolicyDecision * option ApplyError) :=
  if ai_Authorize i then
    do~ r := CallerAuthorize in
    let '(d, e) := answered (no_standing_policy, Some "") r in Ret (d, CallerRefused <$> e)
  else
    let verdict d := Ret (d, if executes d then None else Some (WithheldError d reauthorize)) in
    match reauthorize, ai_FirstDecision i with
    | false, Some d => verdict d
    | _, _ =>
        do~ r := GateAuthorize (if reauthorize then set_LeaseHeld leased (ai_Request i) else ai_Request i) in
        verdict (match answered None r with
                 | Some d => standingPolicyDecision d
                 | None => no_standing_policy
                 end)
    end.

Definition isLeaseConflict (e : lease_error) : bool := retryableLeaseError e.

(** [recordLeaseVerdict]: best effort. *)
Definition recordLeaseVerdict (decisionID : Z) (verdict : string) : aprog unit :=
  if negb (ex_Pool ex) || (decisionID <=? 0) then Ret tt
  else do~ _ := RecordLeaseVerdict decisionID verdict in Ret tt.

Definition leaseRefused (spec : TargetLease) (decisionID : Z) (e : lease_error) : aprog ApplyError :=
  if tl_Operator spec && isLeaseConflict e then
    do* _ := recordLeaseVerdict decisionID "blocked" in Ret (ErrTargetLeased e)
  else if isLeaseConflict e then
    do* _ := recordLeaseVerdict decisionID "parked" in Ret (LeaseRefused e)
  else if ai_Refused i then do~ _ := Refused decisionID in Ret (LeaseRefused e)
  else Ret (LeaseRefused e).

(** The lease, if one is taken. *)
Definition acquireTargetLease (spec : TargetLease) (d : ActionPolicyDecision)
    : aprog (option LeaseID + lease_error) :=
  if negb (ex_Pool ex) then Ret (inr (Invalid "change lease: database pool unavailable")) else
  do~ r := ResolveTargets (tl_Targets spec) in
  match answered (inr LeaseBusy) r with
  | inr e => Ret (inr e)
  | inl [] => Ret (inl None)
  | inl targets =>
      do~ r := AcquireLease (ad_SerializeMode d =s "queue") spec targets (ad_DecisionID d) in
      Ret match answered (inr LeaseBusy) r with inl id => inl (Some id) | inr e => inr e end
  end.

Definition intentLease (d : ActionPolicyDecision) : aprog (option LeaseID + ApplyError) :=
  match leaseSpecFor i with
  | None => Ret (inl None)
  | Some spec =>
      if ad_DecisionID d <=? 0 then Ret (inl None) else
      do* r := acquireTargetLease spec d in
      match r with
      | inl lease => Ret (inl lease)
      | inr e => do* refused := leaseRefused spec (ad_DecisionID d) e in Ret (inr refused)
      end
  end.

(** Whether a slot was taken. *)
Definition intentSlot : aprog (bool + ApplyError) :=
  if ai_SlotHeld i || negb (ex_Sem ex) then Ret (inl false) else
  if ai_WaitForSlot i then
    do~ r := WaitSlot in Ret (if answered false r then inl true else inr SlotWaitEnded)
  else
    do~ r := TrySlot in Ret (if answered false r then inl true else inr ErrDDLSlotUnavailable).

Definition release_lease (lease : option LeaseID) : aprog unit :=
  match lease with None => Ret tt | Some id => do~ _ := ReleaseLease id in Ret tt end.

Definition release_slot (taken : bool) : aprog unit :=
  if taken then do~ _ := ReleaseSlot in Ret tt else Ret tt.

Definition prepareIntent (first : ActionPolicyDecision) : aprog ((bool * option LeaseID) + ApplyError) :=
  let prepare :=
    do* lease := intentLease first in
    match lease with
    | inr e => Ret (inr e)
    | inl lease =>
        do* slot := intentSlot in
        match slot with
        | inl taken => Ret (inl (taken, lease))
        | inr e => do* _ := release_lease lease in Ret (inr e)
        end
    end in
  if ai_Admit i then
    do~ r := Admit (ad_DecisionID first) in
    match answered (Some "") r with
    | Some e => Ret (inr (NotAdmitted e))
    | None => prepare
    end
  else prepare.

(** The agent whose change is held: not pg_sage's own, nor a narrowing one. *)
Definition governed : option string :=
  match RequestPrincipal ctx (ai_Request i) with
  | Some ref => if (pr_ID ref =s "") || IsNarrowing (ai_Request i) then None else Some (pr_ID ref)
  | None => None
  end.

(** [intent.Execute] *)
Definition run_change (leased : bool) (d : ActionPolicyDecision) (hold : option Z)
    : aprog (Z * option ApplyError) :=
  do~ r := Execute (set_LeaseHeld leased (ai_Request i)) d hold in
  let '(id, e) := answered (0, Some "") r in Ret (id, ExecuteFailed <$> e).

Definition executeHeld (leased : bool) (d : ActionPolicyDecision) : aprog (Z * option ApplyError) :=
  match governed with
  | None => run_change leased d None
  | Some agent =>
      if negb (ex_Hold ex) then Ret (0, Some NoPrincipalHold) else
      do* held := control (HoldActive (ex_Control ex) agent) in
      match held with
      | inr e => Ret (0, Some (PrincipalInactive e))
      | inl hold =>
          do* r := run_change leased d (Some hold) in
          do~ _ := Control (EndHold hold) in
          Ret r
      end
  end.

(** The decisions Apply held its budget under. *)
Definition releaseBudget (ids : list Z) : aprog unit :=
  if ai_Authorize i then Ret tt else
  match List.filter (fun id => 0 <? id) ids with
  | [] => Ret tt
  | ids => if ex_Pool ex then do~ _ := ReleaseBudget ids in Ret tt else Ret tt
  end.

Definition Apply : aprog (Z * option ApplyError) :=
  do* first := authorizeIntent false false in
  let ids := [ad_DecisionID first.1] in
  match first.2 with
  | Some e => do* _ := releaseBudget ids in Ret (0, Some e)
  | None =>
      do* prepared := prepareIntent first.1 in
      match prepared with
      | inr e => do* _ := releaseBudget ids in Ret (0, Some e)
      | inl (taken, lease) =>
          let leased := match lease with Some _ => true | None => false end in
          do* final := authorizeIntent leased true in
          do* r := match final.2 with
                   | Some e => Ret (0, Some e)
                   | None =>
                       do* ran := executeHeld leased final.1 in
                       match ran.2, ai_Verify i with
                       | None, true =>
                           do~ v := Verify ran.1 in Ret (ran.1, VerifyFailed <$> answered (Some "") v)
                       | _, _ => Ret ran
                       end
                   end in
          do* _ := release_slot taken in
          do* _ := release_lease lease in
          do* _ := releaseBudget (ids ++ [ad_DecisionID final.1]) in
          Ret r
      end
  end.
End Pipeline.

(** ** Draining: quiesce.go *)

(** [n] slots more; how many are held and whether that is all. *)
Fixpoint quiesce (n : nat) (held : Z) : aprog (Z * bool) :=
  match n with
  | O => Ret (held, true)
  | S n' =>
      do~ r := QuiesceSlot in
      if answered false r then quiesce n' (held + 1) else Ret (held, false)
  end.

(** A drain, the runtime's stop, and the release. *)
Definition Quiesce (cap : nat) : aprog bool :=
  do* r := quiesce cap 0 in
  do~ _ := StopRuntime in
  do~ _ := QuiesceRelease r.1 in
  Ret r.2.

(** ** The system *)

(** The control database and one executor's semaphore: its capacity, the slots taken
    and how many of them drains hold. *)
Record World : Type := {
  w_Guard : Guard;
  w_Cap : Z;
  w_Slots : Z;
  w_Quiesced : Z;
}.

Definition set_Guard (g : Guard) (w : World) : World :=
  {| w_Guard := g; w_Cap := w_Cap w; w_Slots := w_Slots w; w_Quiesced := w_Quiesced w |}.
Definition set_Slots (slots quiesced : Z) (w : World) : World :=
  {| w_Guard := w_Guard w; w_Cap := w_Cap w; w_Slots := slots; w_Quiesced := quiesced |}.

Definition InFlightActions (w : World) : Z := Z.max (w_Slots w - w_Quiesced w) 0.

(** What everything outside answers. *)
Record Answers : Type := {
  x_guard : GuardKill.outcome;
  x_gate : option Decision;
  x_caller : ActionPolicyDecision * option error;
  x_error : option error;
  x_targets : list TypedTarget + lease_error;
  x_lease : LeaseID + lease_error;
  x_action : Z * option error;
  x_ended : bool;
}.

Definition aexec (x : Answers) {X} (st : astmt X) (w : World) : option ((X + failure) * World) :=
  match st in astmt X return option ((X + failure) * World) with
  | Control st =>
      match GuardKill.exec (x_guard x) st (w_Guard w) with
      | Some (r, g) => Some (r, set_Guard g w)
      | None => None
      end
  | GateAuthorize _ => Some (inl (x_gate x), w)
  | CallerAuthorize => Some (inl (x_caller x), w)
  | Admit _ => Some (inl (x_error x), w)
  | ResolveTargets _ => Some (inl (x_targets x), w)
  | AcquireLease _ _ _ _ => Some (inl (x_lease x), w)
  | ReleaseLease _ => Some (inl tt, w)
  | RecordLeaseVerdict _ _ => Some (inl tt, w)
  | Refused _ => Some (inl tt, w)
  | TrySlot =>
      if w_Slots w <? w_Cap w then Some (inl true, set_Slots (w_Slots w + 1) (w_Quiesced w) w)
      else Some (inl false, w)
  | WaitSlot =>
      if x_ended x then Some (inl false, w) else
      if w_Slots w <? w_Cap w then Some (inl true, set_Slots (w_Slots w + 1) (w_Quiesced w) w) else None
  | ReleaseSlot =>
      if 0 <? w_Slots w then Some (inl tt, set_Slots (w_Slots w - 1) (w_Quiesced w) w) else None
  | Execute _ _ _ => Some (inl (x_action x), w)
  | Verify _ => Some (inl (x_error x), w)
  | ReleaseBudget _ => Some (inl tt, w)
  | QuiesceSlot =>
      if x_ended x then Some (inl false, w) else
      if w_Slots w <? w_Cap w then Some (inl true, set_Slots (w_Slots w + 1) (w_Quiesced w + 1) w) else None
  | StopRuntime => Some (inl tt, w)
  | QuiesceRelease n =>
      if n <=? w_Slots w then Some (inl tt, set_Slots (w_Slots w - n) (w_Quiesced w - n) w) else None
  end.

Inductive operation : Type :=
| OpApply (ctx : Ctx) (ex : Executor) (i : ActionIntent)
| OpQuiesce (cap : nat)
| OpKill (cfg : KillConfig) (pool : bool) (targets : list KillTarget + error) (req : KillRequest)
| OpFreeze (cfg : KillConfig) (pool : bool) (targets : list KillTarget + error) (req : FreezeRequest)
| OpUnfreeze (cfg : KillConfig) (rc : RoleConfig) (pool keyring : bool)
    (targets : list KillTarget + error) (req : UnfreezeRequest)
| OpRelease (cfg : KillConfig) (pool : bool) (req : ReleaseRequest)
| OpReadFlags (pool : bool) (database : string)
| OpSetStatus (pool : bool) (id : string) (to : Status) (reason : string)
| OpUpdate (pool : bool) (id : string) (sponsor : option Z).

Inductive answer : Type :=
| AApplied (r : Z * option ApplyError)
| AQuiesced (all : bool)
| AKilled (r : KillReport + GuardError)
| AUnfrozen (r : UnfreezeResult + GuardError)
| AFlags (r : bool * string + GuardError)
| APrincipal (r : PrincipalRow + GuardError).

Definition program (o : operation) : aprog answer :=
  match o with
  | OpApply ctx ex i => do* r := Apply ctx ex i in Ret (AApplied r)
  | OpQuiesce cap => do* r := Quiesce cap in Ret (AQuiesced r)
  | OpKill cfg pool targets req => do* r := control (Kill cfg pool targets req) in Ret (AKilled r)
  | OpFreeze cfg pool targets req => do* r := control (Freeze cfg pool targets req) in Ret (AKilled r)
  | OpUnfreeze cfg rc pool keyring targets req =>
      do* r := control (Unfreeze cfg rc pool keyring targets req) in Ret (AUnfrozen r)
  | OpRelease cfg pool req => do* r := control (Release cfg pool req) in Ret (AUnfrozen r)
  | OpReadFlags pool database => do* r := control (ReadFlags pool database) in Ret (AFlags r)
  | OpSetStatus pool id to reason =>
      do* r := control (SetStatus pool id to reason) in Ret (APrincipal r)
  | OpUpdate pool id sponsor => do* r := control (Update pool id sponsor) in Ret (APrincipal r)
  end.

Definition world_event (e : event) (w : World) : option World :=
  (fun g => set_Guard g w) <$> happens e (w_Guard w).

#[export] Instance containment : Machine astmt failure Answers World event operation answer :=
  { m_exec := @aexec; m_event := world_event; m_program := program }.

Abbreviation System := (Interleave.System astmt failure World operation answer).
Abbreviation action := (Interleave.action Answers event operation).

(** Nothing frozen, nothing held, every slot free. *)
Definition fresh_world (w : World) : Prop :=
  g_Freezes (w_Guard w) = [] /\ g_Requests (w_Guard w) = [] /\ g_Holds (w_Guard w) = [] /\
  0 < g_Next (w_Guard w) /\ 0 <= w_Cap w /\ w_Slots w = 0 /\ w_Quiesced w = 0.
