(* ===== verification/ApplyProtocol.v ===== *)
(** * The protocol of the pipeline

    What a change may do when, as an abstract specification: a phase is what a change
    holds and how far it was authorized, [allowed] says which statement may come next,
    and [next] what its answer makes of the phase.  [Apply], and every other operation
    that shares its executor and its control database, follows it on every path,
    failures included, and ends holding nothing. *)

From S2P Require Import Prelude.
From S2P Require Import GoStd.
From S2P Require Import PolicyTypes.
From S2P Require Import Gate.
From S2P Require Import Principal.
From S2P Require Import Lease.
From S2P Require LeaseStore.
From S2P Require Import LeaseQueue.
From S2P Require Import Guard.
From S2P Require Import GuardRoles.
From S2P Require Import GuardKill.
From S2P Require Import GuardSafety.
From S2P Require Import Apply.

(** ** Phases *)

(** [ph_first]: the first decision; [ph_final]: the decision that lets the change run
    now, lost as soon as anything is waited for; [ph_targets]: what its lease targets
    resolved to; [ph_unverified]: the action that ran and is not verified yet;
    [ph_budget]: the decisions that hold budget. *)
Record Phase : Type := {
  ph_first : option ActionPolicyDecision;
  ph_final : option ActionPolicyDecision;
  ph_admitted : bool;
  ph_targets : option (list TypedTarget);
  ph_lease : option LeaseID;
  ph_slot : bool;
  ph_hold : option (Z * string * Status);
  ph_quiesce : Z;
  ph_ran : bool;
  ph_unverified : option Z;
  ph_budget : list Z;
}.

Definition start : Phase :=
  {| ph_first := None; ph_final := None; ph_admitted := false; ph_targets := None; ph_lease := None;
     ph_slot := false; ph_hold := None; ph_quiesce := 0; ph_ran := false; ph_unverified := None;
     ph_budget := [] |}.

(** Something was waited for: [admitted], its [targets] and its [lease] then. *)
Definition ph_waited (admitted : bool) (targets : option (list TypedTarget)) (lease : option LeaseID)
    (slot : bool) (ph : Phase) : Phase :=
  {| ph_first := ph_first ph; ph_final := None; ph_admitted := admitted; ph_targets := targets;
     ph_lease := lease; ph_slot := slot; ph_hold := ph_hold ph; ph_quiesce := ph_quiesce ph;
     ph_ran := ph_ran ph; ph_unverified := ph_unverified ph; ph_budget := ph_budget ph |}.
Definition waited (ph : Phase) : Phase :=
  ph_waited (ph_admitted ph) (ph_targets ph) (ph_lease ph) (ph_slot ph) ph.
(** A decision that lets the change run or not, with what it holds of the budget. *)
Definition ph_decided (d : ActionPolicyDecision) (runs : bool) (budget : list Z) (ph : Phase) : Phase :=
  {| ph_first := match ph_first ph with Some first => Some first | None => Some d end;
     ph_final := if runs then Some d else None; ph_admitted := ph_admitted ph;
     ph_targets := ph_targets ph; ph_lease := ph_lease ph; ph_slot := ph_slot ph;
     ph_hold := ph_hold ph; ph_quiesce := ph_quiesce ph; ph_ran := ph_ran ph;
     ph_unverified := ph_unverified ph; ph_budget := ph_budget ph ++ budget |}.
Definition ph_set_hold (h : option (Z * string * Status)) (ph : Phase) : Phase :=
  {| ph_first := ph_first ph; ph_final := ph_final ph; ph_admitted := ph_admitted ph;
     ph_targets := ph_targets ph; ph_lease := ph_lease ph; ph_slot := ph_slot ph; ph_hold := h;
     ph_quiesce := ph_quiesce ph; ph_ran := ph_ran ph; ph_unverified := ph_unverified ph;
     ph_budget := ph_budget ph |}.
Definition ph_set_quiesce (n : Z) (ph : Phase) : Phase :=
  {| ph_first := ph_first ph; ph_final := None; ph_admitted := ph_admitted ph;
     ph_targets := ph_targets ph; ph_lease := ph_lease ph; ph_slot := ph_slot ph;
     ph_hold := ph_hold ph; ph_quiesce := n; ph_ran := ph_ran ph;
     ph_unverified := ph_unverified ph; ph_budget := ph_budget ph |}.
Definition ph_set_ran (unverified : option Z) (ph : Phase) : Phase :=
  {| ph_first := ph_first ph; ph_final := None; ph_admitted := ph_admitted ph;
     ph_targets := ph_targets ph; ph_lease := ph_lease ph; ph_slot := ph_slot ph;
     ph_hold := ph_hold ph; ph_quiesce := ph_quiesce ph; ph_ran := true;
     ph_unverified := unverified; ph_budget := ph_budget ph |}.
Definition ph_given_back (ids : list Z) (ph : Phase) : Phase :=
  {| ph_first := ph_first ph; ph_final := ph_final ph; ph_admitted := ph_admitted ph;
     ph_targets := ph_targets ph; ph_lease := ph_lease ph; ph_slot := ph_slot ph;
     ph_hold := ph_hold ph; ph_quiesce := ph_quiesce ph; ph_ran := ph_ran ph;
     ph_unverified := ph_unverified ph;
     ph_budget := List.filter (fun id => negb (existsb (Z.eqb id) ids)) (ph_budget ph) |}.

(** The decision an answer lets run. *)
Definition gate_decision (r : option Decision + failure) : ActionPolicyDecision :=
  match answered None r with Some d => standingPolicyDecision d | None => no_standing_policy end.

Definition caller_decision (r : (ActionPolicyDecision * option error) + failure)
    : ActionPolicyDecision * option error := answered (no_standing_policy, Some "") r.

(** A decision on record holds its budget. *)
Definition on_record (d : ActionPolicyDecision) : list Z :=
  if 0 <? ad_DecisionID d then [ad_DecisionID d] else [].

Definition next_control (ph : Phase) {X} (st : GuardKill.stmt X) : X + failure -> Phase :=
  match st in GuardKill.stmt X return X + failure -> Phase with
  | HoldRow id => fun r => match r with
                           | inl (Some (h, s)) => ph_set_hold (Some (h, id, s)) ph
                           | _ => ph
                           end
  | EndHold _ => fun _ => ph_set_hold None ph
  | _ => fun _ => ph
  end.

Definition next (ph : Phase) {X} (st : astmt X) : X + failure -> Phase :=
  match st in astmt X return X + failure -> Phase with
  | Control st => next_control ph st
  | GateAuthorize _ => fun r =>
      let d := gate_decision r in
      ph_decided d (ad_Decision d =s PolicyDecisionExecute) (on_record d) ph
  | CallerAuthorize => fun r =>
      let '(d, e) := caller_decision r in
      ph_decided d (match e with None => true | Some _ => false end) [] ph
  | Admit _ => fun r =>
      ph_waited (match r with inl None => true | _ => false end) (ph_targets ph) (ph_lease ph) (ph_slot ph) ph
  | ResolveTargets _ => fun r =>
      ph_waited (ph_admitted ph) (match r with inl (inl targets) => Some targets | _ => None end)
        (ph_lease ph) (ph_slot ph) ph
  | AcquireLease _ _ _ _ => fun r =>
      ph_waited (ph_admitted ph) (ph_targets ph) (match r with inl (inl id) => Some id | _ => ph_lease ph end)
        (ph_slot ph) ph
  | ReleaseLease _ => fun _ => ph_waited (ph_admitted ph) (ph_targets ph) None (ph_slot ph) ph
  | RecordLeaseVerdict _ _ => fun _ => waited ph
  | Refused _ => fun _ => waited ph
  | TrySlot => fun r => ph_waited (ph_admitted ph) (ph_targets ph) (ph_lease ph) (answered false r) ph
  | WaitSlot => fun r => ph_waited (ph_admitted ph) (ph_targets ph) (ph_lease ph) (answered false r) ph
  | ReleaseSlot => fun _ => ph_waited (ph_admitted ph) (ph_targets ph) (ph_lease ph) false ph
  | Execute _ _ _ => fun r => ph_set_ran (match r with inl (id, None) => Some id | _ => None end) ph
  | Verify _ => fun _ => ph_set_ran None ph
  | ReleaseBudget ids => fun _ => ph_given_back ids ph
  | QuiesceSlot => fun r => if answered false r then ph_set_quiesce (ph_quiesce ph + 1) ph else ph
  | StopRuntime => fun _ => ph
  | QuiesceRelease _ => fun _ => ph_set_quiesce 0 ph
  end.

(** ** What may come next *)

(** Who runs: a change, or another operation, in single-operator mode or not, that
    sets a principal active or none. *)
Inductive job : Type :=
| JChange (ctx : Ctx) (ex : Executor) (i : ActionIntent)
| JOther (single : bool) (activates : option string).

Definition single_mode (j : job) : Prop := match j with JOther true _ => True | _ => False end.

Definition sets_active (j : job) (id : string) : Prop :=
  match j with JOther _ a => a = Some id | JChange _ _ _ => False end.

(** A condition on changes, which other operations cannot meet. *)
Definition a_change (j : job) (P : Ctx -> Executor -> ActionIntent -> Prop) : Prop :=
  match j with JChange ctx ex i => P ctx ex i | JOther _ _ => False end.
Definition no_change (j : job) : Prop := match j with JChange _ _ _ => False | JOther _ _ => True end.

Definition holds_nothing (ph : Phase) : Prop :=
  ph_lease ph = None /\ ph_slot ph = false /\ ph_hold ph = None /\ ph_quiesce ph = 0.

(** Where a change begins: with the decision its caller made at the gate, if any. *)
Definition start_of (j : job) : Phase :=
  match j with
  | JChange _ _ i =>
      match ai_Authorize i, ai_FirstDecision i with
      | false, Some d => ph_decided d false (on_record d) start
      | _, _ => start
      end
  | JOther _ _ => start
  end.

(** How a change ends: with nothing held, its budget asked back, and not without
    verifying what ran. *)
Record ends (ex : Executor) (i : ActionIntent) (ph : Phase) : Prop := {
  en_nothing : holds_nothing ph;
  en_budget : ex_Pool ex = true -> ph_budget ph = [];
  en_verified : ai_Verify i = true -> ph_unverified ph = None;
}.

(** A change of a finding takes a lease when its statement is one that does. *)
Definition wants_lease (i : ActionIntent) : Prop :=
  is_Some (ai_TargetLease i) \/ exists f, ai_Lease i = Some f /\ isLeasedMutation (fi_RecommendedSQL f) = true.

(** With its first decision on record it may not go without, where it has targets. *)
Definition leased (i : ActionIntent) (ph : Phase) : Prop :=
  wants_lease i -> (exists d, ph_first ph = Some d /\ 0 < ad_DecisionID d) ->
  exists targets, ph_targets ph = Some targets /\ (targets <> [] -> is_Some (ph_lease ph)).

Definition admitted (i : ActionIntent) (ph : Phase) : Prop := ai_Admit i = true -> ph_admitted ph = true.

(** The change is of an agent and does not narrow access. *)
Definition of_agent (ctx : Ctx) (i : ActionIntent) (agent : string) : Prop :=
  agent <> "" /\ IsNarrowing (ai_Request i) = false /\
  exists ref, RequestPrincipal ctx (ai_Request i) = Some ref /\ pr_ID ref = agent.

(** A change may run: admitted, authorized since it last waited, once, with its lease,
    its slot and, for an agent, its agent held active. *)
Record may_run (ctx : Ctx) (ex : Executor) (i : ActionIntent) (req : ActionRequest)
    (d : ActionPolicyDecision) (hold : option Z) (ph : Phase) : Prop := {
  mr_final : ph_final ph = Some d;
  mr_once : ph_ran ph = false;
  mr_request : req = set_LeaseHeld (bool_decide (is_Some (ph_lease ph))) (ai_Request i);
  mr_admitted : admitted i ph;
  mr_lease : leased i ph;
  mr_slot : ph_slot ph = true \/ ai_SlotHeld i = true \/ ex_Sem ex = false;
  mr_hold : forall agent, of_agent ctx i agent ->
    exists h, hold = Some h /\ ph_hold ph = Some (h, agent, StatusActive);
  mr_free : (forall agent, ~ of_agent ctx i agent) -> hold = None /\ ph_hold ph = None;
}.

(** What the gate is asked: the request, and, once something was waited for, whether
    its own lease is held. *)
Definition asked_of_gate (i : ActionIntent) (ph : Phase) : ActionRequest :=
  match ph_first ph with
  | None => ai_Request i
  | Some _ => set_LeaseHeld (bool_decide (is_Some (ph_lease ph))) (ai_Request i)
  end.

(** The decision a lease is taken under. *)
Definition under (ph : Phase) (decisionID : Z) : Prop :=
  0 < decisionID /\ ad_DecisionID <$> ph_first ph = Some decisionID.

Definition allowed_control (j : job) (ph : Phase) {X} (st : GuardKill.stmt X) : Prop :=
  match st with
  | HoldRow _ => ph_hold ph = None
  | EndHold h => exists id s, ph_hold ph = Some (h, id, s)
  | st => stmt_ok (single_mode j) (sets_active j) _ st
  end.

Definition allowed (j : job) (ph : Phase) {X} (st : astmt X) : Prop :=
  match st with
  | Control st => allowed_control j ph st
  | GateAuthorize req =>
      ph_hold ph = None /\ ph_ran ph = false /\
      a_change j (fun _ _ i => ai_Authorize i = false /\ req = asked_of_gate i ph)
  | CallerAuthorize =>
      ph_hold ph = None /\ ph_ran ph = false /\ a_change j (fun _ _ i => ai_Authorize i = true)
  | Admit id =>
      holds_nothing ph /\ ph_ran ph = false /\
      a_change j (fun _ _ i => ai_Admit i = true /\ ad_DecisionID <$> ph_first ph = Some id)
  | ResolveTargets names =>
      holds_nothing ph /\ ph_ran ph = false /\
      a_change j (fun _ _ i => admitted i ph /\ wants_lease i /\
        exists spec, leaseSpecFor i = Some spec /\ names = tl_Targets spec)
  | AcquireLease queue spec targets id =>
      holds_nothing ph /\ ph_ran ph = false /\
      a_change j (fun _ _ i => admitted i ph /\ leaseSpecFor i = Some spec /\ under ph id /\
        ph_targets ph = Some targets /\ targets <> [] /\
        Some queue = (fun d => ad_SerializeMode d =s "queue") <$> ph_first ph)
  | RecordLeaseVerdict id _ | Refused id =>
      holds_nothing ph /\ a_change j (fun _ _ i => wants_lease i /\ under ph id)
  | ReleaseLease id => ph_lease ph = Some id /\ ph_slot ph = false /\ ph_hold ph = None
  | TrySlot | WaitSlot =>
      ph_slot ph = false /\ ph_hold ph = None /\ ph_ran ph = false /\
      a_change j (fun _ _ i => admitted i ph /\ leased i ph)
  | ReleaseSlot => ph_slot ph = true /\ ph_hold ph = None
  | Execute req d hold => a_change j (fun ctx ex i => may_run ctx ex i req d hold ph)
  | Verify id => ph_unverified ph = Some id /\ ph_hold ph = None /\ a_change j (fun _ _ i => ai_Verify i = true)
  | ReleaseBudget ids => holds_nothing ph /\ ids = ph_budget ph /\ ids <> []
  | QuiesceSlot => ph_slot ph = false /\ no_change j
  | StopRuntime => ph_hold ph = None /\ no_change j
  | QuiesceRelease n => n = ph_quiesce ph /\ 0 <= n /\ no_change j
  end.

(** A program keeps to the protocol from a phase. *)
Abbreviation follows j ph := (Interleave.follows (fun now X (st : astmt X) => allowed j now st)
  (fun now X (st : astmt X) r => next now st r) ph).

(** ** Other operations

    They take no hold, and everything they send is [stmt_ok]. *)

Definition plain (solo : Prop) (by_hand : string -> Prop) X (st : GuardKill.stmt X) : Prop :=
  stmt_ok solo by_hand X st /\ match st with HoldRow _ | EndHold _ => False | _ => True end.

Lemma follows_control j ph {A} (p : GuardKill.prog A) : always (plain (single_mode j) (sets_active j)) p ->
  follows j ph (fun _ ph' => ph' = ph) (control p).
Proof.
  induction p as [a|X st k IH]; cbn; [done|]. intros [[Hok Hplain] Hk]. split.
  - destruct st; try done.
  - intros r. specialize (IH r (Hk r)). by destruct st.
Qed.

Section Plain.
Context (solo : Prop) (by_hand : string -> Prop).

Lemma always_Get pool id : always (plain solo by_hand) (Get pool id).
Proof. unfold Get. do 2 (case_match; [done|]). done. Qed.

Lemma always_mutate pool id (st : GuardKill.stmt bool) : plain solo by_hand _ st -> always (plain solo by_hand) (mutate pool id st).
Proof.
  intros Hst. unfold mutate. do 2 (case_match; [done|]). split; [done|]. intros [[|]|f]; [apply always_Get| |done].
  apply always_bind; [apply always_Get|by intros [p|e]].
Qed.

Lemma always_markFrozen pool m : fm_flagScope m <> ScopePrincipal -> always (plain solo by_hand) (markFrozen pool m).
Proof.
  intros Hm. unfold markFrozen. case_match; [done|]. case_match; [done|]. split; [done|]. by intros [s|f].
Qed.

Lemma always_retry pool m n e : fm_flagScope m <> ScopePrincipal -> always (plain solo by_hand) (retryFreeze pool m n e).
Proof.
  intros Hm. revert e. induction n as [|n IH]; intros e; cbn; [done|]. case_match; [done|].
  apply always_bind; [by apply always_markFrozen|]. intros [ids|e']; [done|apply IH].
Qed.

Lemma mark_scope k : fm_flagScope (freezeMarkFor k) <> ScopePrincipal.
Proof. unfold freezeMarkFor. cbn. repeat case_match; discriminate. Qed.

Lemma always_revoke pool ids actor : always (plain solo by_hand) (revokeTokens pool ids actor).
Proof. unfold revokeTokens. destruct (negb pool); [done|]. by destruct ids. Qed.

Lemma always_report pool k id revoked errors dbs : always (plain solo by_hand) (finishReport pool k id revoked errors dbs).
Proof. unfold finishReport. by destruct (_ || _). Qed.

Lemma always_contain cfg pool targets k kill : always (plain solo by_hand) (contain cfg pool targets k kill).
Proof.
  unfold contain. apply always_bind.
  { unfold scopeTargets. case_match; [|done]. apply always_bind; [apply always_Get|]. by intros [p|e]. }
  intros [ts|e]; [|done]. apply always_bind.
  { case_match; [|done]. unfold startKill. by case_match. }
  intros started. apply always_bind; [by case_match|]. intros _.
  apply always_bind; [apply always_markFrozen, mark_scope|]. intros froze. apply always_bind.
  { destruct (kill && _); [apply always_revoke|done]. }
  intros revoked. split; [done|]. intros _. apply always_bind.
  { destruct froze as [ids|e]; [done|]. apply always_retry, mark_scope. }
  intros failed. apply always_bind; [by destruct failed|]. intros _. split; [done|]. intros dbs.
  apply always_bind; [apply always_report|done].
Qed.

Lemma always_SetStatus pool id to reason : (to = StatusActive -> by_hand id) ->
  always (plain solo by_hand) (SetStatus pool id to reason).
Proof.
  intros Hto. unfold SetStatus. case_match; [done|]. case_match; [done|]. by apply always_mutate.
Qed.

Lemma approver_user reason actor id : checkApprover reason actor id = None -> 0 < id.
Proof.
  unfold checkApprover, first_bad. cbn. destruct (checkText "reason" _ _ _); [done|].
  destruct (checkText "actor" _ _ _); [done|]. by destruct (Z.leb_spec id 0).
Qed.

Lemma always_Unfreeze cfg rc pool keyring targets req : (kc_SingleOperatorMode cfg = true -> solo) ->
  always (plain solo by_hand) (Unfreeze cfg rc pool keyring targets req).
Proof.
  intros Hsolo. unfold Unfreeze. destruct (UnfreezeRequest_Validate req) eqn:Ev; [done|].
  assert (Hu : 0 < uq_ActorUserID req).
  { unfold UnfreezeRequest_Validate in Ev. case_match; [done|]. by eapply approver_user. }
  case_match; [done|]. apply always_bind; [apply always_Get|]. intros [p|e]; [|done].
  case_match; [done|]. apply always_bind; [|by intros [plan|e]; [split|]].
  unfold unfreezePlan. by do 3 (case_match; [done|]).
Qed.

Lemma always_Release cfg pool req : (kc_SingleOperatorMode cfg = true -> solo) ->
  always (plain solo by_hand) (Release cfg pool req).
Proof.
  intros Hsolo. unfold Release. destruct (ReleaseRequest_Validate req) eqn:Ev; [done|].
  assert (Hu : 0 < lq_ActorUserID req).
  { unfold ReleaseRequest_Validate in Ev. destruct (lq_Scope req =s KillScopeAll).
    - destruct (lq_Database req <>s ""); [done|]. by eapply approver_user.
    - destruct (lq_Scope req =s KillScopeDatabase); [|done]. unfold first_bad in Ev. cbn [fold_right] in Ev.
      destruct (checkText "database" _ _ _); [done|].
      destruct (checkApprover _ _ _) eqn:E; [done|]. by eapply approver_user. }
  case_match; [done|]. split; [|done]. split; [|done]. split; [done|]. split; [|done]. case_match; discriminate.
Qed.
End Plain.

(** ** The stages of Apply *)

Lemma wants_lease_spec i : wants_lease i <-> is_Some (leaseSpecFor i).
Proof.
  unfold wants_lease, leaseSpecFor. destruct (ai_TargetLease i) as [spec|]; [by split; [|left]|].
  destruct (ai_Lease i) as [f|].
  - destruct (isLeasedMutation (fi_RecommendedSQL f)) eqn:E; cbn [negb]; split; intros H.
    + done.
    + right. by exists f.
    + destruct H as [[? ?]|(f' & [= <-] & H)]; [done|congruence].
    + by destruct H.
  - split; [|by intros [? ?]]. by intros [[? ?]|(f & ? & _)].
Qed.

Lemma governed_agent ctx i agent : governed ctx i = Some agent <-> of_agent ctx i agent.
Proof.
  unfold governed, of_agent. destruct (RequestPrincipal ctx (ai_Request i)) as [ref|]; [|naive_solver].
  destruct (String.eqb_spec (pr_ID ref) "") as [E|E]; cbn [orb].
  - split; [done|]. intros (Hn & _ & ref' & [= <-] & Hr). congruence.
  - destruct (IsNarrowing (ai_Request i)); naive_solver.
Qed.

Section Stages.
Context (ctx : Ctx) (ex : Executor) (i : ActionIntent).
Let j : job := JChange ctx ex i.

(** What is held stays. *)
Definition same_held (ph ph' : Phase) : Prop :=
  ph_admitted ph' = ph_admitted ph /\ ph_targets ph' = ph_targets ph /\ ph_lease ph' = ph_lease ph /\
  ph_slot ph' = ph_slot ph /\ ph_hold ph' = ph_hold ph /\ ph_quiesce ph' = ph_quiesce ph /\
  ph_ran ph' = ph_ran ph /\ ph_unverified ph' = ph_unverified ph.

(** What a decision of [Apply] holds of the budget. *)
Definition takes (d : ActionPolicyDecision) : list Z := if ai_Authorize i then [] else on_record d.

Lemma follows_authorize leased re ph : ph_hold ph = None -> ph_ran ph = false ->
  (re = false -> ph = start_of j) ->
  (re = true -> is_Some (ph_first ph) /\ leased = bool_decide (is_Some (ph_lease ph))) ->
  follows j ph (fun r ph' => same_held ph ph' /\ (re = true -> r.2 = None -> ph_final ph' = Some r.1) /\
    ph_first ph' = (if re then ph_first ph else Some r.1) /\
    ph_budget ph' = (if re then ph_budget ph else []) ++ takes r.1)
    (authorizeIntent i leased re).
Proof.
  intros Hh Hr Hst Hfst. unfold authorizeIntent, takes. destruct (ai_Authorize i) eqn:Ea.
  - cbn. split; [done|]. intros r. unfold caller_decision. destruct (answered _ r) as [d e]. cbn.
    split; [done|]. destruct re.
    + destruct Hfst as [[first ->] _]; [done|]. split_and!; [by destruct e|done..].
    + rewrite (Hst eq_refl). cbn. rewrite Ea. by split_and!.
  - assert (Hask : forall req, req = asked_of_gate i ph -> follows j ph (fun r ph' => same_held ph ph' /\
      (re = true -> r.2 = None -> ph_final ph' = Some r.1) /\
      ph_first ph' = (match ph_first ph with Some first => Some first | None => Some r.1 end) /\
      ph_budget ph' = ph_budget ph ++ on_record r.1)
      (do~ r := GateAuthorize req in
       Ret (gate_decision r, if executes (gate_decision r) then None else Some (WithheldError (gate_decision r) re)))).
    { intros req ->. cbn. split; [done|]. intros r. split; [done|]. split_and!; try done.
      intros _. unfold executes. by destruct (_ =s _). }
    destruct re; [|destruct (ai_FirstDecision i) as [d|] eqn:Ef].
    + destruct Hfst as [[first Hf] ->]; [done|].
      eapply follows_mono; [apply Hask; unfold asked_of_gate; by rewrite Hf|]. by rewrite Hf.
    + cbn. rewrite (Hst eq_refl). cbn. by rewrite Ea, Ef.
    + assert (Hs : ph = start) by (rewrite (Hst eq_refl); cbn; by rewrite Ea, Ef).
      eapply follows_mono; [apply Hask; by rewrite Hs|]. intros r ph' (H1 & _ & H3 & H4).
      by rewrite Hs in H3, H4.
Qed.

(** After the first decision, before the change runs: what it holds. *)
Record held_ok (first : ActionPolicyDecision) (budget : list Z) (lease : option LeaseID) (taken : bool)
    (ph : Phase) : Prop := {
  ho_first : ph_first ph = Some first;
  ho_lease : ph_lease ph = lease;
  ho_slot : ph_slot ph = taken;
  ho_hold : ph_hold ph = None;
  ho_quiesce : ph_quiesce ph = 0;
  ho_ran : ph_ran ph = false;
  ho_unverified : ph_unverified ph = None;
  ho_budget : ph_budget ph = budget;
}.

Section Prepare.
Context (d : ActionPolicyDecision) (budget : list Z).

Lemma held_nothing ph : held_ok d budget None false ph -> holds_nothing ph /\ ph_ran ph = false.
Proof. by intros []. Qed.

Lemma held_waited ph lease taken lease' taken' admitted targets : held_ok d budget lease taken ph ->
  held_ok d budget lease' taken' (ph_waited admitted targets lease' taken' ph).
Proof. by intros []. Qed.

Lemma under_first ph lease taken : held_ok d budget lease taken ph -> 0 < ad_DecisionID d -> under ph (ad_DecisionID d).
Proof. intros [H _ _ _ _ _ _ _] Hd. split; [done|]. by rewrite H. Qed.

Lemma follows_recorded ph verdict : held_ok d budget None false ph -> wants_lease i ->
  follows j ph (fun _ ph' => held_ok d budget None false ph') (recordLeaseVerdict ex (ad_DecisionID d) verdict).
Proof.
  intros H Hw. unfold recordLeaseVerdict. destruct (_ || _) eqn:E; [done|].
  apply orb_false_elim in E as [_ E%Z.leb_gt]. split.
  - split; [by apply held_nothing|]. split; [done|]. by eapply under_first.
  - intros r. unfold next, waited. destruct (H) as [_ -> -> _ _ _ _ _]. by eapply held_waited.
Qed.

Lemma follows_refused ph spec e : held_ok d budget None false ph -> wants_lease i -> 0 < ad_DecisionID d ->
  follows j ph (fun _ ph' => held_ok d budget None false ph') (leaseRefused ex i spec (ad_DecisionID d) e).
Proof.
  intros H Hw Hd. unfold leaseRefused.
  destruct (_ && _); [|destruct (isLeaseConflict e); [|destruct (ai_Refused i); [|done]]].
  1, 2: eapply follows_bind; [by apply follows_recorded|done].
  split.
  - split; [by apply held_nothing|]. split; [done|]. by eapply under_first.
  - intros r. unfold next, waited. destruct (H) as [_ -> -> _ _ _ _ _]. by eapply held_waited.
Qed.

(** Ready for its slot. *)
Definition lease_ready (lease : option LeaseID) (ph : Phase) : Prop :=
  held_ok d budget lease false ph /\ admitted i ph /\ leased i ph.

Lemma follows_target ph spec : held_ok d budget None false ph -> admitted i ph -> leaseSpecFor i = Some spec ->
  0 < ad_DecisionID d ->
  follows j ph (fun r ph' => match r with
    | inl lease => lease_ready lease ph'
    | inr _ => held_ok d budget None false ph'
    end) (acquireTargetLease ex spec d).
Proof.
  intros H Ha Hs Hd. assert (Hw : wants_lease i) by (apply wants_lease_spec; by rewrite Hs).
  unfold acquireTargetLease. destruct (negb (ex_Pool ex)); [done|].
  destruct (held_nothing _ H) as [Hn Hr]. split.
  { split; [done|]. split; [done|]. split; [done|]. split; [done|]. by exists spec. }
  intros r. set (ph1 := next ph (ResolveTargets (tl_Targets spec)) r).
  assert (H1 : held_ok d budget None false ph1).
  { unfold ph1, next. destruct (H) as [_ -> -> _ _ _ _ _]. by eapply held_waited. }
  destruct r as [[[|t ts]|e]|f]; cbn [answered]; try done.
  { split; [done|]. split; [done|]. intros _ _. by exists []. }
  destruct (held_nothing _ H1) as [Hn1 Hr1]. split.
  { split; [done|]. split; [done|]. split; [done|]. split; [done|]. split; [by eapply under_first|].
    split; [done|]. split; [done|]. by rewrite (ho_first _ _ _ _ _ H1). }
  intros r'. destruct r' as [[id|e]|f]; cbn [answered].
  - split; [|split; [done|]].
    + unfold next. rewrite (ho_slot _ _ _ _ _ H1). by eapply held_waited.
    + intros _ _. by exists (t :: ts).
  - unfold next. destruct (H1) as [_ E -> _ _ _ _ _]. rewrite E. by eapply held_waited.
  - unfold next. destruct (H1) as [_ E -> _ _ _ _ _]. rewrite E. by eapply held_waited.
Qed.

Lemma follows_lease ph : held_ok d budget None false ph -> admitted i ph ->
  follows j ph (fun r ph' => match r with
    | inl lease => lease_ready lease ph'
    | inr _ => held_ok d budget None false ph'
    end) (intentLease ex i d).
Proof.
  intros H Ha. unfold intentLease. destruct (leaseSpecFor i) as [spec|] eqn:Es.
  - assert (Hw : wants_lease i) by (apply wants_lease_spec; by rewrite Es).
    destruct (Z.leb_spec (ad_DecisionID d) 0) as [Hd|Hd].
    + split; [done|]. split; [done|]. intros _ (d' & Hd' & Hpos). rewrite (ho_first _ _ _ _ _ H) in Hd'.
      injection Hd' as <-. lia.
    + eapply follows_bind; [by apply follows_target|]. intros [lease|e] ph'; [done|].
      intros Hl. eapply follows_bind; [by apply follows_refused|]. done.
  - split; [done|]. split; [done|]. intros [s Hs]%wants_lease_spec. congruence.
Qed.

(** Ready to be authorized again. *)
Record prepared_ok (taken : bool) (lease : option LeaseID) (ph : Phase) : Prop := {
  po_held : held_ok d budget lease taken ph;
  po_admitted : admitted i ph;
  po_leased : leased i ph;
  po_room : taken = true \/ ai_SlotHeld i = true \/ ex_Sem ex = false;
}.

Lemma follows_slot lease ph : lease_ready lease ph ->
  follows j ph (fun r ph' => match r with
    | inl taken => prepared_ok taken lease ph'
    | inr _ => held_ok d budget lease false ph'
    end) (intentSlot ex i).
Proof.
  intros (H & Ha & Hl). assert (H' := H). destruct H' as [H1 H2 H3 H4 H5 H6 H7 H8]. unfold intentSlot.
  destruct (ai_SlotHeld i || negb (ex_Sem ex)) eqn:E.
  { split; try done. apply orb_prop in E as [E|E%negb_true_iff]; auto. }
  destruct (ai_WaitForSlot i); (split; [done|]); intros r; cbn [next];
    (destruct (answered false r); [split; try done; by left|done]).
Qed.

Lemma follows_release_lease lease ph : ph_lease ph = lease -> ph_slot ph = false -> ph_hold ph = None ->
  ph_quiesce ph = 0 ->
  follows j ph (fun _ ph' => holds_nothing ph' /\ ph_budget ph' = ph_budget ph /\ ph_unverified ph' = ph_unverified ph /\
    ph_ran ph' = ph_ran ph)
    (release_lease lease).
Proof. intros H1 H2 H3 H4. unfold release_lease. by destruct lease. Qed.

(** Nothing prepared. *)
Definition refused_ok (ph : Phase) : Prop :=
  holds_nothing ph /\ ph_budget ph = budget /\ ph_unverified ph = None.

Lemma held_refused ph : held_ok d budget None false ph -> refused_ok ph.
Proof. by intros []. Qed.

Lemma follows_prepare ph : held_ok d budget None false ph ->
  follows j ph (fun r ph' => match r with
    | inl (taken, lease) => prepared_ok taken lease ph'
    | inr _ => refused_ok ph'
    end) (prepareIntent ex i d).
Proof.
  intros H. unfold prepareIntent.
  assert (Hprep : forall ph, held_ok d budget None false ph -> admitted i ph ->
    follows j ph (fun r ph' => match r with
      | inl (taken, lease) => prepared_ok taken lease ph'
      | inr _ => refused_ok ph'
      end)
      (do* lease := intentLease ex i d in
       match lease with
       | inr e => Ret (inr e)
       | inl lease =>
           do* slot := intentSlot ex i in
           match slot with
           | inl taken => Ret (inl (taken, lease))
           | inr e => do* _ := release_lease lease in Ret (inr e)
           end
       end)).
  { clear ph H. intros ph H Ha. eapply follows_bind; [by apply follows_lease|].
    intros [lease|e] ph'; [|intros Hl; by apply held_refused]. intros Hl.
    eapply follows_bind; [by apply follows_slot|]. intros [taken|e] ph''; [done|].
    intros [G1 G2 G3 G4 G5 G6 G7 G8]. eapply follows_bind; [by apply follows_release_lease|].
    intros _ ph3 (Hn & Hb & Hv & _). split; [done|]. by rewrite Hb, Hv. }
  destruct (ai_Admit i) eqn:Ea; [|apply Hprep; [done|]; unfold admitted; by rewrite Ea].
  destruct (held_nothing _ H) as [Hn Hr]. split.
  { split; [done|]. split; [done|]. split; [done|]. by rewrite (ho_first _ _ _ _ _ H). }
  intros r. set (ph1 := next _ _ r). assert (H1 : held_ok d budget None false ph1).
  { unfold ph1, next. destruct (H) as [_ -> -> _ _ _ _ _]. by eapply held_waited. }
  destruct r as [[e|]|f]; cbn [answered]; [by apply held_refused| |by apply held_refused].
  by apply Hprep.
Qed.
End Prepare.

(** What a change still holds when it has run, or was refused. *)
Record given_back (taken : bool) (lease : option LeaseID) (budget : list Z) (ph : Phase) : Prop := {
  gb_lease : ph_lease ph = lease;
  gb_slot : ph_slot ph = taken;
  gb_hold : ph_hold ph = None;
  gb_quiesce : ph_quiesce ph = 0;
  gb_budget : ph_budget ph = budget;
}.

(** What [run_change] and [executeHeld] leave to verify. *)
Definition ran_as (r : Z * option ApplyError) (ph : Phase) : Prop :=
  match r.2 with
  | None => ph_ran ph = true /\ ph_unverified ph = Some r.1
  | Some _ => ph_unverified ph = None
  end.

Lemma follows_change first budget taken lease ph d hold :
  prepared_ok first budget taken lease (ph_set_hold None ph) -> ph_final ph = Some d ->
  match governed ctx i with
  | Some agent => exists h, hold = Some h /\ ph_hold ph = Some (h, agent, StatusActive)
  | None => hold = None /\ ph_hold ph = None
  end ->
  follows j ph (fun r ph' => exists u, ph' = ph_set_ran u ph /\ ran_as r ph')
    (run_change i (match lease with Some _ => true | None => false end) d hold).
Proof.
  intros [[H1 H2 H3 H4 H5 H6 H7 H8] Ha Hl Hroom] Hf Hg. unfold run_change. cbn in *. split.
  - split; try done; [|by rewrite H3|..].
    + f_equal. rewrite H2. by destruct lease.
    + intros agent Hag%governed_agent. by rewrite Hag in Hg.
    + intros Hno. destruct (governed ctx i) as [agent|] eqn:E; [|done].
      apply governed_agent in E. by destruct (Hno agent).
  - intros [[id [e|]]|f]; cbn; by eexists.
Qed.

Lemma follows_held first budget taken lease ph d : prepared_ok first budget taken lease ph -> ph_final ph = Some d ->
  follows j ph (fun r ph' => given_back taken lease budget ph' /\ ran_as r ph')
    (executeHeld ctx ex i (match lease with Some _ => true | None => false end) d).
Proof.
  intros Hp Hf. assert (Hp' := Hp). destruct Hp' as [[H1 H2 H3 H4 H5 H6 H7 H8] _ _ _]. unfold executeHeld.
  assert (Hself : ph_set_hold None ph = ph) by (destruct ph; cbn in *; by subst).
  destruct (governed ctx i) as [agent|] eqn:Eg.
  - destruct (negb (ex_Hold ex)); [by split|]. unfold HoldActive.
    destruct (agent =s ""); [by split|]. destruct (negb (ex_Control ex)); [by split|].
    split; [done|]. intros [[[h s]|]|f]; [|by split..].
    change (next ph (Control (HoldRow agent)) (inl (Some (h, s)))) with (ph_set_hold (Some (h, agent, s)) ph).
    destruct (s =s StatusActive) eqn:Es.
    + apply String.eqb_eq in Es as ->. cbn [control pbind].
      eapply follows_bind; [apply (follows_change first budget taken lease);
        [by rewrite <- Hself in Hp|done|rewrite Eg; by exists h]|].
      intros r ph' (u & -> & Hr). split; [by eexists _, _|]. intros r'. by split.
    + split; [by eexists _, _|]. intros r'. by split.
  - eapply follows_mono; [apply (follows_change first budget taken lease); [by rewrite Hself|done|by rewrite Eg]|].
    intros r ph' (u & -> & Hr). by split.
Qed.

Lemma filter_on_record ids : List.filter (fun id => 0 <? id) (map ad_DecisionID ids) = concat (map on_record ids).
Proof. induction ids as [|d ids IH]; [done|]. cbn. rewrite IH. unfold on_record. by destruct (0 <? _). Qed.

Lemma given_back_all ph : ph_budget (ph_given_back (ph_budget ph) ph) = [].
Proof.
  cbn. assert (H : forall l, (forall x, x ∈ l -> x ∈ ph_budget ph) ->
    List.filter (fun id => negb (existsb (Z.eqb id) (ph_budget ph))) l = []); [|by apply H].
  induction l as [|x l IH]; intros Hin; [done|]. cbn.
  assert (existsb (Z.eqb x) (ph_budget ph) = true) as ->.
  { apply existsb_exists. exists x. rewrite Z.eqb_refl. split; [|done]. apply list_elem_of_In, Hin, elem_of_cons. by left. }
  apply IH. intros y Hy. apply Hin, elem_of_cons. by right.
Qed.

Lemma follows_budget ph ds : holds_nothing ph -> ph_budget ph = concat (map takes ds) ->
  (ai_Verify i = true -> ph_unverified ph = None) ->
  follows j ph (fun _ ph' => ends ex i ph' /\ ph_ran ph' = ph_ran ph) (releaseBudget ex i (map ad_DecisionID ds)).
Proof.
  intros H Hb Hv. unfold releaseBudget.
  assert (Hnone : (ex_Pool ex = true -> ph_budget ph = []) -> ends ex i ph) by (intros Hp; by split).
  unfold takes in Hb. destruct (ai_Authorize i).
  { split; [|done]. apply Hnone. intros _. rewrite Hb. clear. by induction ds. }
  rewrite filter_on_record. destruct (concat (map on_record ds)) as [|id ids] eqn:E.
  { split; [|done]. apply Hnone. by rewrite Hb. }
  destruct (ex_Pool ex) eqn:Ep; [|split; [apply Hnone; congruence|done]]. split.
  - split; [done|]. by rewrite Hb.
  - intros r. split; [|done]. split; [done| |done]. intros _. rewrite <- Hb. apply given_back_all.
Qed.

(** The end of a change that came so far. *)
Lemma follows_end taken lease ph ds (r : Z * option ApplyError) :
  given_back taken lease (concat (map takes ds)) ph ->
  (ai_Verify i = true -> ph_unverified ph = None) -> (r.2 = None -> ph_ran ph = true) ->
  follows j ph (fun r ph' => ends ex i ph' /\ (r.2 = None -> ph_ran ph' = true))
    (do* _ := release_slot taken in
     do* _ := release_lease lease in
     do* _ := releaseBudget ex i (map ad_DecisionID ds) in
     Ret r).
Proof.
  intros [H1 H2 H3 H4 H5] Hv Hr.
  assert (Hslot : follows j ph (fun _ ph' => given_back false lease (concat (map takes ds)) ph' /\
    ph_unverified ph' = ph_unverified ph /\ ph_ran ph' = ph_ran ph) (release_slot taken)) by by destruct taken.
  eapply follows_bind; [exact Hslot|]. intros _ ph1 ([G1 G2 G3 G4 G5] & Gv & Gr).
  eapply follows_bind; [by apply follows_release_lease|]. intros _ ph2 (Hn & Hb & Hv2 & Hr2).
  eapply follows_bind; [apply (follows_budget _ ds); [done|congruence|by rewrite Hv2, Gv]|].
  intros _ ph3 [He Hr3]. split; [done|]. by rewrite Hr3, Hr2, Gr.
Qed.

Lemma apply_keeps : follows j (start_of j)
  (fun r ph => ends ex i ph /\ (r.2 = None -> ph_ran ph = true)) (Apply ctx ex i).
Proof.
  unfold Apply. assert (Hb : ph_admitted (start_of j) = false /\ ph_targets (start_of j) = None /\
    ph_lease (start_of j) = None /\ ph_slot (start_of j) = false /\ ph_hold (start_of j) = None /\
    ph_quiesce (start_of j) = 0 /\ ph_ran (start_of j) = false /\ ph_unverified (start_of j) = None).
  { unfold j. cbn. destruct (ai_Authorize i); [done|]. by destruct (ai_FirstDecision i). }
  destruct Hb as (B1 & B2 & B3 & B4 & B5 & B6 & B7 & B8).
  eapply follows_bind; [by apply follows_authorize|].
  intros [first e] ph ((S1 & S2 & S3 & S4 & S5 & S6 & S7 & S8) & _ & Hfirst & Hbud). cbn [fst snd app] in *.
  assert (Hbud1 : ph_budget ph = concat (map takes [first])) by (cbn; by rewrite app_nil_r).
  change [ad_DecisionID first] with (map ad_DecisionID [first]).
  destruct e as [e|].
  { eapply follows_bind; [apply (follows_budget _ [first]); [by unfold holds_nothing; split_and!; congruence|done|congruence]|].
    by intros _ ph' [He _]. }
  eapply follows_bind; [apply (follows_prepare first (takes first)); by split; congruence|].
  intros [[taken lease]|e] ph1 Hprep.
  2:{ destruct Hprep as (Hn & Hb1 & Hv1).
    eapply follows_bind; [apply (follows_budget _ [first]); [done|by rewrite Hb1; cbn; rewrite app_nil_r|done]|].
    by intros _ ph' [He _]. }
  assert (Hprep' := Hprep). destruct Hprep' as [[P1 P2 P3 P4 P5 P6 P7 P8] P9 P10 P11].
  eapply follows_bind; [apply follows_authorize; [done|done|done|]|].
  { intros _. split; [by rewrite P1|]. rewrite P2. by destruct lease. }
  intros [final e] ph2 ((R1 & R2 & R3 & R4 & R5 & R6 & R7 & R8) & Hfinal & Hf2 & Hbud2). cbn [fst snd] in *.
  assert (Hbud3 : ph_budget ph2 = concat (map takes [first; final])) by (rewrite Hbud2, P8; cbn; by rewrite app_nil_r).
  assert (Hprep2 : prepared_ok first (concat (map takes [first; final])) taken lease ph2).
  { split; [by split; congruence| | |done].
    - unfold admitted in *. by rewrite R1.
    - unfold leased in *. by rewrite Hf2, R2, R3. }
  eapply follows_bind with (Q := fun r ph' => given_back taken lease (concat (map takes [first; final])) ph' /\
    (ai_Verify i = true -> ph_unverified ph' = None) /\ (r.2 = None -> ph_ran ph' = true));
    [|intros r ph3 (Hg & Hv & Hr); exact (follows_end taken lease ph3 [first; final] r Hg Hv Hr)].
  destruct e as [e|].
  { destruct Hprep2 as [[Q1 Q2 Q3 Q4 Q5 Q6 Q7 Q8] _ _ _]. split; [by split|]. by split. }
  eapply follows_bind; [apply (follows_held first (concat (map takes [first; final])) taken lease); [done|by apply Hfinal]|].
  intros [id e] ph3 [Hg Hran]. unfold ran_as in Hran. cbn [fst snd] in *. destruct e as [e|].
  { split; [done|]. split; [done|]. intros [=]. }
  destruct Hran as [Hran Hun]. destruct (ai_Verify i) eqn:Ev; [|done].
  split; [split; [done|]; split; [apply (gb_hold _ _ _ _ Hg)|done]|].
  intros r. destruct Hg. by split; [|split].
Qed.
End Stages.

(** ** Draining *)

Lemma follows_quiesce n held ph : ph_quiesce ph = held -> 0 <= held -> ph_slot ph = false ->
  ph_hold ph = None -> ph_lease ph = None ->
  follows (JOther false None) ph (fun r ph' => ph_quiesce ph' = r.1 /\ 0 <= r.1 /\ ph_slot ph' = false /\
    ph_hold ph' = None /\ ph_lease ph' = None) (quiesce n held).
Proof.
  revert held ph. induction n as [|n IH]; intros held ph Hq H0 Hs Hh Hl; [done|]. cbn. split; [done|].
  intros r. destruct (answered false r); [|done]. apply IH; cbn; try done; lia.
Qed.

Lemma quiesce_follows cap : follows (JOther false None) start (fun _ ph => holds_nothing ph) (Quiesce cap).
Proof.
  unfold Quiesce. eapply follows_bind; [by apply follows_quiesce|].
  intros [n all] ph (Hq & Hn & Hs & Hh & Hl). split; [done|]. intros r. split; [by split|]. by intros r'.
Qed.

(** ** Every operation *)

Definition job_of (o : operation) : job :=
  match o with
  | OpApply ctx ex i => JChange ctx ex i
  | OpUnfreeze cfg _ _ _ _ _ | OpRelease cfg _ _ => JOther (kc_SingleOperatorMode cfg) None
  | OpSetStatus _ id to _ => JOther false (if to =s StatusActive then Some id else None)
  | _ => JOther false None
  end.

Lemma control_follows b a {A B} (p : GuardKill.prog A) (f : A -> B) :
  always (plain (single_mode (JOther b a)) (sets_active (JOther b a))) p ->
  follows (JOther b a) start (fun _ ph => holds_nothing ph) (do* r := control p in Ret (f r)).
Proof. intros Hp. eapply follows_bind; [by apply follows_control|]. by intros x ph' ->. Qed.

Lemma program_follows o : follows (job_of o) (start_of (job_of o)) (fun _ ph => holds_nothing ph) (program o).
Proof.
  destruct o; cbn [program job_of]; try (apply control_follows).
  - eapply follows_bind; [apply apply_keeps|]. by intros r ph [[Hn _ _] _].
  - eapply follows_bind; [apply quiesce_follows|done].
  - unfold Kill. destruct (KillRequest_Validate req); [done|apply always_contain].
  - unfold Freeze. destruct (FreezeRequest_Validate req); [done|apply always_contain].
  - apply always_Unfreeze. by intros ->.
  - apply always_Release. by intros ->.
  - unfold ReadFlags. by destruct (negb pool).
  - apply always_SetStatus. by intros ->.
  - unfold Update. destruct (match sponsor with Some _ => _ | None => _ end); [done|]. by apply always_mutate.
Qed.

(** C12: [Apply] keeps to the protocol on every path, failures included: it asks the
    gate about its request, is admitted first where it must be, leases the targets of
    its change and takes its slot holding nothing else, is authorized again after
    everything it waited for, runs at most once and only by that authorization with
    what it must hold, verifies exactly what ran, asks for the budget of every
    decision on record back, ends holding nothing, and answers no error only when the
    change ran. *)
Theorem apply_follows ctx ex i :
  follows (JChange ctx ex i) (start_of (JChange ctx ex i))
    (fun r ph => ends ex i ph /\ (r.2 = None -> ph_ran ph = true)) (Apply ctx ex i).
Proof. apply apply_keeps. Qed.
