(* ===== verification/ApplySafety.v ===== *)
(** * What the pipeline and the kill switch keep together

    However changes, drains, kills, freezes, unfreezes, releases and set statuses
    interleave, with failures, lost sessions and time: an agent's change runs only while
    its agent is held active, changes on slots of their own never run beyond the slots
    a drain left, and what a recorded kill stopped is not let go by one person. *)

From S2P Require Import Prelude.
From S2P Require Import GoStd.
From S2P Require Import PolicyTypes.
From S2P Require Import Gate.
From S2P Require Import Samples.
From S2P Require Import LeaseQueue.
From S2P Require Import Principal.
From S2P Require Import Guard.
From S2P Require Import GuardRoles.
From S2P Require Import GuardKill.
From S2P Require Import GuardSafety.
From S2P Require Import Apply.
From S2P Require Import ApplyProtocol.

(** ** The invariant *)

Definition total (l : list Z) : Z := foldr Z.add 0 l.

(** The slots an operation has taken. *)
Definition slots_of (ph : Phase) : Z := (if ph_slot ph then 1 else 0) + ph_quiesce ph.

Definition thread_ok (t : operation * aprog answer) (ph : Phase) : Prop :=
  follows (job_of t.1) ph (fun _ ph' => holds_nothing ph') t.2.

Definition hold_known (g : Guard) (ph : Phase) : Prop :=
  match ph_hold ph with Some (h, id, s) => hold_is h id s g | None => True end.

Record world_ok (solo : Prop) (by_hand : string -> Prop) (w : World) (phs : list Phase) : Prop := {
  wo_guard : guard_ok solo by_hand (w_Guard w);
  wo_holds : holds_ok (w_Guard w);
  wo_known : forall ph, ph ∈ phs -> hold_known (w_Guard w) ph;
  wo_slots : w_Slots w = total (map slots_of phs);
  wo_quiesced : w_Quiesced w = total (map ph_quiesce phs);
  wo_nonneg : forall ph, ph ∈ phs -> 0 <= ph_quiesce ph;
  wo_cap : w_Slots w <= w_Cap w;
}.

(** An operation in single-operator mode was started. *)
Definition solo_started (os : list operation) : Prop := exists o, o ∈ os /\ single_mode (job_of o).

Definition solo (sy : System) : Prop := solo_started (map fst (sy_Threads sy)).

(** An operation that sets the principal active by hand was started. *)
Definition activation_started (os : list operation) (id : string) : Prop :=
  exists o, o ∈ os /\ sets_active (job_of o) id.

Definition activated (sy : System) : string -> Prop := activation_started (map fst (sy_Threads sy)).

Abbreviation known os := (world_ok (solo_started os) (activation_started os)).

Definition sys_ok (sy : System) : Prop :=
  exists phs, Forall2 thread_ok (sy_Threads sy) phs /\ world_ok (solo sy) (activated sy) (sy_Server sy) phs.

(** ** Sums *)

Lemma total_app l l' : total (l ++ l') = total l + total l'.
Proof. unfold total. induction l as [|x l IH]; cbn; [done|]. rewrite IH. lia. Qed.

Lemma total_insert {A} (f : A -> Z) l i x y : l !! i = Some x ->
  total (map f (<[i := y]> l)) = total (map f l) - f x + f y.
Proof.
  revert i. induction l as [|z l IH]; intros [|i]; cbn; try done.
  - intros [= ->]. lia.
  - intros H. specialize (IH i H). unfold total in IH. etransitivity; [exact (f_equal (Z.add (f z)) IH)|]. lia.
Qed.

Lemma total_nonneg {A} (f : A -> Z) l : (forall x, x ∈ l -> 0 <= f x) -> 0 <= total (map f l).
Proof.
  induction l as [|x l IH]; intros H; cbn; [done|]. fold (total (map f l)).
  assert (0 <= f x) by (apply H, elem_of_cons; by left).
  assert (0 <= total (map f l)); [|lia]. apply IH. intros y Hy. apply H, elem_of_cons. by right.
Qed.

Lemma total_member {A} (f : A -> Z) l x : (forall x, x ∈ l -> 0 <= f x) -> x ∈ l -> f x <= total (map f l).
Proof.
  intros H [i Hi]%list_elem_of_lookup. revert i Hi.
  induction l as [|z l IH]; intros [|i]; cbn; try done; fold (total (map f l)).
  - intros [= ->]. assert (0 <= total (map f l)); [|lia]. apply total_nonneg.
    intros y Hy. apply H, elem_of_cons. by right.
  - intros Hi. assert (0 <= f z) by (apply H, elem_of_cons; by left).
    assert (f x <= total (map f l)); [|lia]. eapply IH; [|done]. intros y Hy. apply H, elem_of_cons. by right.
Qed.

(** ** One statement *)

Lemma stmt_ok_weaken (P Q : Prop) (by_P by_Q : string -> Prop) X (st : GuardKill.stmt X) :
  (P -> Q) -> (forall id, by_P id -> by_Q id) -> stmt_ok P by_P X st -> stmt_ok Q by_Q X st.
Proof. intros H Hby. destruct st; cbn; naive_solver. Qed.

Lemma allowed_stmt_ok (P : Prop) (by_P : string -> Prop) j ph X (st : GuardKill.stmt X) :
  (single_mode j -> P) -> (forall id, sets_active j id -> by_P id) ->
  allowed_control j ph st -> stmt_ok P by_P X st.
Proof. intros H Hby. destruct st; try done; by apply stmt_ok_weaken. Qed.

Lemma aexec_guard (P : Prop) (by_P : string -> Prop) j ph x X (st : astmt X) w r w' :
  (single_mode j -> P) -> (forall id, sets_active j id -> by_P id) -> allowed j ph st ->
  guard_ok P by_P (w_Guard w) -> holds_ok (w_Guard w) -> hold_known (w_Guard w) ph ->
  aexec x st w = Some (r, w') ->
  guard_ok P by_P (w_Guard w') /\ holds_ok (w_Guard w') /\
  (forall ph', hold_known (w_Guard w) ph' -> hold_known (w_Guard w') ph') /\
  hold_known (w_Guard w') (next ph st r).
Proof.
  intros HP Hby Ha Hg Hh Hk.
  destruct st; cbn [aexec];
    try (intros [= <- <-]; split_and!; try done; cbn; by repeat case_match);
    try (repeat case_match; try done; intros [= <- <-]; split_and!; done).
  destruct (GuardKill.exec (x_guard x) st (w_Guard w)) as [[a g]|] eqn:E; [|done]. intros [= <- <-]. cbn.
  pose proof (exec_holds_ok _ _ _ _ _ _ Hh E) as Hh'.
  assert (Hkeep : forall ph', hold_known (w_Guard w) ph' -> hold_known g ph').
  { intros ph'. unfold hold_known. destruct (ph_hold ph') as [[[h id] s]|]; [|done].
    intros Hi. by eapply exec_hold_is. }
  split_and!; [eapply ok_exec; [exact Hg|by eapply allowed_stmt_ok|exact E]|done|done|].
  destruct st; try exact (Hkeep _ Hk); [|exact I].
  destruct a as [[[h s]|]|f]; try exact (Hkeep _ Hk). unfold hold_known. cbn. eapply exec_HoldRow; [exact Hh|exact E].
Qed.

Lemma aexec_slots j ph x X (st : astmt X) w r w' : allowed j ph st -> 0 <= ph_quiesce ph ->
  aexec x st w = Some (r, w') ->
  w_Slots w' = w_Slots w - slots_of ph + slots_of (next ph st r) /\
  w_Quiesced w' = w_Quiesced w - ph_quiesce ph + ph_quiesce (next ph st r) /\
  (w_Slots w <= w_Cap w -> w_Slots w' <= w_Cap w') /\ 0 <= ph_quiesce (next ph st r).
Proof.
  intros Ha Hq.
  destruct st; cbn [aexec];
    try (intros [= <- <-]; cbn; repeat case_match; unfold slots_of; cbn; split_and!; done || lia).
  - destruct (GuardKill.exec (x_guard x) st (w_Guard w)) as [[a g]|] eqn:E; [|done]. intros [= <- <-]. cbn.
    assert (Hs : slots_of (next_control ph st a) = slots_of ph /\ ph_quiesce (next_control ph st a) = ph_quiesce ph).
    { destruct st; try done. by destruct a as [[[h s]|]|f]. }
    destruct Hs as [-> ->]. split_and!; try done; lia.
  - cbn in Ha. destruct Ha as (Hs & _). destruct (Z.ltb_spec (w_Slots w) (w_Cap w)); intros [= <- <-];
      unfold slots_of; cbn; rewrite Hs; split_and!; lia.
  - cbn in Ha. destruct Ha as (Hs & _). destruct (x_ended x); [|destruct (Z.ltb_spec (w_Slots w) (w_Cap w)); [|done]];
      intros [= <- <-]; unfold slots_of; cbn; rewrite Hs; split_and!; lia.
  - cbn in Ha. destruct Ha as (Hs & _). destruct (Z.ltb_spec 0 (w_Slots w)); [|done]. intros [= <- <-].
    unfold slots_of; cbn; rewrite Hs; split_and!; lia.
  - destruct (x_ended x); [|destruct (Z.ltb_spec (w_Slots w) (w_Cap w)); [|done]];
      intros [= <- <-]; unfold slots_of; cbn; split_and!; lia.
  - cbn in Ha. destruct Ha as [-> _]. destruct (Z.leb_spec (ph_quiesce ph) (w_Slots w)); [|done].
    intros [= <- <-]. unfold slots_of; cbn; split_and!; lia.
Qed.

(** ** Every reachable system *)

Lemma solo_weaken (P Q : Prop) (by_P by_Q : string -> Prop) w phs : (P -> Q) -> (forall id, by_P id -> by_Q id) ->
  world_ok P by_P w phs -> world_ok Q by_Q w phs.
Proof. intros H Hby [H1 H2 H3 H4 H5 H6 H7]. split; try done. by eapply guard_ok_weaken. Qed.

Lemma start_holds_nothing j : holds_nothing (start_of j).
Proof. destruct j as [ctx ex i|]; [|done]. cbn. destruct (ai_Authorize i); [done|]. by destruct (ai_FirstDecision i). Qed.

Ltac nothing_in := by intros; match goal with H : _ ∈ [] |- _ => apply not_elem_of_nil in H end.

Lemma ok_idle w : fresh_world w -> known [] w [].
Proof.
  intros (Hf & Hr & Hh & Hn & Hc & Hs & Hq). split; cbn; try congruence; try nothing_in.
  - split; cbn; rewrite ?Hf, ?Hr, ?Hh; try done; try nothing_in.
    + split; [constructor|nothing_in..].
    + split; [constructor|nothing_in..].
  - split; cbn; rewrite Hh; nothing_in.
Qed.

Lemma ok_start os w phs o : known os w phs ->
  known (os ++ [o]) w (phs ++ [start_of (job_of o)]).
Proof.
  intros Hw. destruct (start_holds_nothing (job_of o)) as (_ & Hs & Hh & Hq).
  apply (solo_weaken (solo_started os) _ (activation_started os)).
  { intros (x & Hx & Hm). exists x. split; [|done]. apply elem_of_app. by left. }
  { intros id (x & Hx & Hm). exists x. split; [|done]. apply elem_of_app. by left. }
  destruct Hw as [H1 H2 H3 H4 H5 H6 H7]. split; try done.
  - intros ph [Hin| ->]%elem_of_snoc; [by apply H3|]. unfold hold_known. by rewrite Hh.
  - rewrite map_app, total_app. cbn. unfold slots_of at 2. rewrite Hs, Hq. lia.
  - rewrite map_app, total_app. cbn. rewrite Hq. lia.
  - intros ph [Hin| ->]%elem_of_snoc; [by apply H6|]. lia.
Qed.

Lemma ok_run os w phs i o ph X (st : astmt X) how r w' : known os w phs ->
  os !! i = Some o -> phs !! i = Some ph -> allowed (job_of o) ph st -> aexec how st w = Some (r, w') ->
  known os w' (<[i := next ph st r]> phs).
Proof.
  intros [H1 H2 H3 H4 H5 H6 H7] Hi Hph Ha Hex.
  assert (Hin : ph ∈ phs) by (apply list_elem_of_lookup; by exists i).
  assert (Hsolo : single_mode (job_of o) -> solo_started os).
  { intros Hm. exists o. split; [|done]. apply list_elem_of_lookup. by exists i. }
  assert (Hby : forall id, sets_active (job_of o) id -> activation_started os id).
  { intros id Hm. exists o. split; [|done]. apply list_elem_of_lookup. by exists i. }
  destruct (aexec_guard (solo_started os) (activation_started os) _ ph how X st _ r w' Hsolo Hby Ha H1 H2 (H3 _ Hin) Hex) as (G1 & G2 & G3 & G4).
  destruct (aexec_slots _ ph how X st _ r w' Ha (H6 _ Hin) Hex) as (S1 & S2 & S3 & S4).
  split; try done; [| | | |by apply S3].
  - intros ph' [Hin'| ->]%in_insert; [by apply G3, H3|done].
  - rewrite (total_insert _ _ _ _ _ Hph), S1, H4. lia.
  - rewrite (total_insert _ _ _ _ _ Hph), S2, H5. lia.
  - intros ph' [Hin'| ->]%in_insert; [by apply H6|done].
Qed.

Lemma ok_world_event P by_P w phs e w' : world_ok P by_P w phs -> world_event e w = Some w' ->
  world_ok P by_P w' phs.
Proof.
  intros [H1 H2 H3 H4 H5 H6 H7]. unfold world_event.
  destruct (happens e (w_Guard w)) as [g|] eqn:E; [|done]. intros [= <-].
  pose proof (event_fewer _ _ _ E) as Hfew. split; try done; cbn.
  - by eapply ok_event.
  - by eapply fewer_ok.
  - intros ph Hin. specialize (H3 ph Hin). unfold hold_known in *. destruct (ph_hold ph) as [[[h id] s]|]; [|done].
    by eapply fewer_hold_is.
Qed.

Lemma system_ok (sy : System) : reachable fresh_world sy -> sys_ok sy.
Proof.
  intros Hr. refine (reachable_phases (fun o now X (st : astmt X) => allowed (job_of o) now st)
    (fun now X (st : astmt X) r => next now st r) (fun o => start_of (job_of o))
    (fun _ _ ph => holds_nothing ph) fresh_world (fun os => known os) _ _ _ _ _ sy Hr).
  - apply ok_idle.
  - intros o. apply program_follows.
  - intros os s phs o. apply ok_start.
  - intros os s phs i o ph X st how r s'. apply ok_run.
  - intros os s phs e s'. apply ok_world_event.
Qed.


(** ** Slots *)

(** A change that runs on a slot of its own. *)
Definition executing_now (t : operation * aprog answer) : bool :=
  match t with
  | (OpApply _ ex i, Do st _) =>
      match st with Execute _ _ _ => ex_Sem ex && negb (ai_SlotHeld i) | _ => false end
  | _ => false
  end.

Definition running (sy : System) : Z := Z.of_nat (length (List.filter executing_now (sy_Threads sy))).

(** Statements that give slots back. *)
Definition gives_back {X} (st : astmt X) : Prop :=
  match st with ReleaseSlot => True | QuiesceRelease _ => True | _ => False end.

Lemma executing_slot t ph : thread_ok t ph -> executing_now t = true -> ph_slot ph = true.
Proof.
  destruct t as [o [a|X st k]]; [by destruct o|]. intros [Ha _] He. destruct o; try done.
  destruct st; try done. cbn in *. apply andb_prop in He as [Hs Hh%negb_true_iff]. destruct Ha as [_ _ _ _ _ Ha _].
  naive_solver congruence.
Qed.

Lemma running_slots ts phs : Forall2 thread_ok ts phs -> (forall ph, ph ∈ phs -> 0 <= ph_quiesce ph) ->
  Z.of_nat (length (List.filter executing_now ts)) + total (map ph_quiesce phs) <= total (map slots_of phs).
Proof.
  induction 1 as [|t ph ts phs Ht _ IH]; intros Hq; [done|]. cbn [map total foldr].
  fold (total (map ph_quiesce phs)) (total (map slots_of phs)).
  assert (IH' := IH (fun p Hp => Hq p (proj2 (elem_of_cons _ _ _) (or_intror Hp)))). cbn [List.filter].
  unfold slots_of at 1. destruct (executing_now t) eqn:E.
  - rewrite (executing_slot t ph Ht E). cbn [length]. lia.
  - destruct (ph_slot ph); lia.
Qed.

Lemma give_back_runs j ph x X (st : astmt X) w : allowed j ph st -> gives_back st ->
  slots_of ph <= w_Slots w -> 0 <= ph_quiesce ph -> is_Some (aexec x st w).
Proof.
  intros Ha Hg Hs Hq. destruct st; try done; cbn in *; unfold slots_of in Hs.
  - destruct Ha as [Hsl _]. rewrite Hsl in Hs. rewrite (proj2 (Z.ltb_lt _ _)) by lia. done.
  - destruct Ha as [-> _]. rewrite (proj2 (Z.leb_le _ _)) by (destruct (ph_slot ph); lia). done.
Qed.

(** C13: the changes that run on a slot of their own and the slots drains hold never
    exceed the semaphore's capacity together, so no such change runs beside a drain
    that has every slot; giving slots back never blocks; and with every operation ended
    every slot is free.  A change whose caller holds its slot, or says so, is not
    counted. *)
Theorem slots_bounded (sy : System) : reachable fresh_world sy ->
  let w := sy_Server sy in
  0 <= w_Quiesced w /\ running sy <= InFlightActions w /\ running sy + w_Quiesced w <= w_Slots w <= w_Cap w /\
  (forall n o X (st : astmt X) k how, sy_Threads sy !! n = Some (o, Do st k) -> gives_back st ->
     is_Some (aexec how st w)) /\
  ((forall t, t ∈ sy_Threads sy -> exists a, t.2 = Ret a) -> w_Slots w = 0).
Proof.
  intros Hr. destruct (system_ok sy Hr) as (phs & Hf & [_ _ _ H4 H5 H6 H7]).
  pose proof (running_slots _ _ Hf H6) as Hrun. fold (running sy) in Hrun.
  assert (Hslot : forall ph, ph ∈ phs -> 0 <= slots_of ph).
  { intros ph Hin. specialize (H6 ph Hin). unfold slots_of. destruct (ph_slot ph); lia. }
  assert (H0 : 0 <= w_Quiesced (sy_Server sy)) by (rewrite H5; by apply total_nonneg).
  split; [done|]. unfold InFlightActions. split; [lia|]. split; [lia|]. split.
  - intros n o X st k how Hn Hgb. destruct (Forall2_lookup_l _ _ _ _ _ Hf Hn) as (ph & Hph & [Ha _]).
    assert (Hin : ph ∈ phs) by (apply list_elem_of_lookup; by exists n).
    eapply give_back_runs; [done|done| |by apply H6]. rewrite H4. by apply total_member.
  - intros Hend. rewrite H4. clear -Hf Hend. induction Hf as [|t ph ts phs Ht _ IH]; [done|].
    cbn [map total foldr]. fold (total (map slots_of phs)).
    rewrite IH by (intros t' Hin; apply Hend, elem_of_cons; by right).
    destruct (Hend t) as [a Ha]; [apply elem_of_cons; by left|]. destruct t as [o p]. cbn in Ha. subst p.
    destruct Ht as (_ & Hs & _ & Hq). unfold slots_of. rewrite Hs, Hq. done.
Qed.

(** C11: a principal under an open freeze is not active unless an operation sets it
    active by hand, and a flag, or a freeze whose row names a recorded kill, that is
    open no longer was lifted by a person completing, in time, another person's
    request, or by one person with the reason on record where an operation ran in
    single-operator mode; however kills, freezes, unfreezes, releases and set statuses
    interleave. *)
Theorem kill_lifted_by_two (sy : System) : reachable fresh_world sy ->
  let g := w_Guard (sy_Server sy) in
  forall f, f ∈ g_Freezes g ->
    (is_open f = true -> fz_Scope f = ScopePrincipal -> activated sy (fz_Target f) \/ inactive (fz_Target f) g) /\
    (is_open f = false -> guarded f -> two_people (g_Requests g) f \/ single_operator (solo sy) f).
Proof.
  intros Hr g f Hf. destruct (system_ok sy Hr) as (phs & _ & [H1 _ _ _ _ _ _]). split.
  - intros Ho Hs. by apply (go_status _ _ _ H1).
  - intros Ho Hg. by apply (qo_lifted _ _ _ _ (go_requests _ _ _ H1)).
Qed.

(** ** A change, a drain and a kill *)

Definition sample_decision : Decision := set_record_ids "e" 7 (mk_decision VerdictExecute ReasonAuthorized "").

Definition at_time (t : Time) : Answers :=
  {| x_guard := Done {| x_started := t; x_applies := []; x_roles := []; x_reports := [] |};
     x_gate := Some sample_decision; x_caller := (no_standing_policy, None); x_error := None;
     x_targets := inl []; x_lease := inr LeaseBusy; x_action := (1, None); x_ended := false |}.

Definition sample_executor : Executor :=
  {| ex_Pool := true; ex_Sem := true; ex_Hold := true; ex_Control := true |}.

Definition agp : string := "agp_aaaaaaaaaaaaaaaaaaaa".

Definition sample_intent : ActionIntent :=
  {| ai_Request := approved_request (Some {| pr_ID := agp; pr_SponsorID := 4; pr_TaskID := "";
       pr_OnBehalfOf := ""; pr_Tool := "execute_sql" |});
     ai_Authorize := false; ai_FirstDecision := None; ai_Lease := None; ai_TargetLease := None;
     ai_WaitForSlot := false; ai_SlotHeld := false; ai_Admit := false; ai_Verify := false;
     ai_Refused := false |}.

Definition sample_kill_config : KillConfig :=
  {| kc_Attempts := 1; kc_ApprovalTTL := 100; kc_SingleOperatorMode := false |}.

Definition kill_all : operation :=
  OpKill sample_kill_config true (inl [{| kt_Name := "orders"; kt_ClusterKey := "main"; kt_Executor := true |}])
    {| kq_Scope := KillScopeAll; kq_ID := ""; kq_Reason := "leak"; kq_Actor := "ann" |}.

Definition empty_world (cap : Z) : World :=
  {| w_Guard := {| g_Now := 0; g_Principals := []; g_Kills := []; g_Freezes := []; g_Requests := [];
                   g_Tokens := []; g_Holds := []; g_Next := 1 |};
     w_Cap := cap; w_Slots := 0; w_Quiesced := 0 |}.

Lemma empty_fresh cap : 0 <= cap -> fresh_world (empty_world cap).
Proof. intros H. unfold fresh_world. cbn. split_and!; done || lia. Qed.

Definition runs (thread n : nat) (t : Time) : list action := repeat (Run thread (at_time t)) n.

(** The change stands at its execution with its hold; a kill of everything waits for
    it, and so does a drain. *)
Definition held_run : list action :=
  [Event (NewPrincipal agp (Some 4)); Start (OpApply sample_ctx sample_executor sample_intent)] ++ runs 0 4 0 ++
  Start kill_all :: runs 1 3 0 ++ Start (OpQuiesce 1) :: [].

Definition at_execution (t : operation * aprog answer) : option (option Z) :=
  match t with
  | (_, Do st _) => match st with Execute _ _ hold => Some hold | _ => None end
  | _ => None
  end.

Definition waits (sy : System) (n : nat) : bool :=
  match act (Run n (at_time 0)) sy with Some _ => false | None => true end.

Lemma held_run_ends :
  option_map (fun sy => (option_map (fun t => (t.1, at_execution t)) (sy_Threads sy !! 0%nat), waits sy 1, waits sy 2,
                         map ho_ID (g_Holds (w_Guard (sy_Server sy))), running sy))
    (acts held_run (idle (empty_world 1))) = 
  Some (Some (OpApply sample_ctx sample_executor sample_intent, Some (Some 1)), true, true, [1], 1).
Proof. vm_compute. reflexivity. Qed.

Lemma at_execution_spec t hold : at_execution t = Some hold -> exists req d k, t.2 = Do (Execute req d hold) k.
Proof. destruct t as [o [a|X st k]]; [done|]. destruct st; try done. cbn. intros [= ->]. by eexists _, _, _. Qed.


Lemma slots_bounded_witness : exists sy, reachable fresh_world sy /\ running sy = 1 /\ waits sy 2 = true /\
  running sy + w_Quiesced (sy_Server sy) <= w_Slots (sy_Server sy) <= w_Cap (sy_Server sy).
Proof.
  destruct (acts_read fresh_world _ _ _ _ (empty_fresh 1 (Z.le_0_1)) held_run_ends) as (sy & Hr & H).
  injection H as _ _ Hw _ Hrun. exists sy. split_and!; [done..| |]; by apply (slots_bounded sy Hr).
Defined.

(** A kill of everything; one admin asks to lift it, cannot complete that alone, and
    another admin does. *)
Definition unfreeze_by (user : Z) : operation :=
  OpUnfreeze sample_kill_config {| rc_ConnectionLimit := 1; rc_BrokerConnectionLimit := 1 |} true true (inl [])
    {| uq_PrincipalID := agp; uq_Reason := "resolved"; uq_Actor := "ann"; uq_ActorUserID := user |}.

Definition lifted_run : list action :=
  [Event (Pass 5); Event (NewPrincipal agp (Some 4)); Start kill_all] ++ runs 0 8 0 ++
  Start (unfreeze_by 8) :: runs 1 3 1 ++ Start (unfreeze_by 8) :: runs 2 3 2 ++ Start (unfreeze_by 9) :: runs 3 3 3.

Lemma lifted_run_ends :
  option_map (fun sy => (map is_open (g_Freezes (w_Guard (sy_Server sy))),
                         map fz_KillID (g_Freezes (w_Guard (sy_Server sy))),
                         gp_Status <$> get_principal agp (w_Guard (sy_Server sy))))
    (acts lifted_run (idle (empty_world 1))) = Some ([false; true], [Some 1; Some 1], Some StatusActive).
Proof. vm_compute. reflexivity. Qed.

Lemma kill_lifted_by_two_witness : exists sy f, reachable fresh_world sy /\
  f ∈ g_Freezes (w_Guard (sy_Server sy)) /\ is_open f = false /\ guarded f /\
  (two_people (g_Requests (w_Guard (sy_Server sy))) f \/ single_operator (solo sy) f).
Proof.
  destruct (acts_read fresh_world _ _ _ _ (empty_fresh 1 (Z.le_0_1)) lifted_run_ends) as (sy & Hr & H).
  injection H as Ho Hk _. destruct (g_Freezes (w_Guard (sy_Server sy))) as [|f fs] eqn:E; [done|].
  injection Ho as Hf _. injection Hk as Hk _. exists sy, f.
  assert (Hin : f ∈ g_Freezes (w_Guard (sy_Server sy))) by (rewrite E; apply elem_of_cons; by left).
  assert (Hg : guarded f) by (left; by rewrite Hk). split_and!; [done|done|done|done|].
  by apply (kill_lifted_by_two sy Hr f Hin).
Defined.

(** ** Three gaps

    A freeze that timed out on a lock and succeeded when retried leaves the tokens
    of the principals it froze alive, and the report names no error. *)
Definition timed_out : Answers :=
  {| x_guard := Fails false {| x_started := 0; x_applies := []; x_roles := []; x_reports := [] |} LockTimeout;
     x_gate := None; x_caller := (no_standing_policy, None); x_error := None;
     x_targets := inl []; x_lease := inr LeaseBusy; x_action := (0, None); x_ended := false |}.

Definition kill_agent (cfg : KillConfig) : operation :=
  OpKill cfg true (inl [{| kt_Name := "orders"; kt_ClusterKey := "main"; kt_Executor := true |}])
    {| kq_Scope := KillScopePrincipal; kq_ID := agp; kq_Reason := "leak"; kq_Actor := "ann" |}.

Definition three_attempts : KillConfig :=
  {| kc_Attempts := 3; kc_ApprovalTTL := 100; kc_SingleOperatorMode := false |}.

Definition retried_run : list action :=
  [Event (NewPrincipal agp (Some 4)); Event (NewToken agp); Start (kill_agent three_attempts)] ++ runs 0 3 0 ++
  [Run 0 (at_time 0); Run 0 timed_out] ++ runs 0 5 0.

Lemma retried_kill_keeps_tokens :
  option_map (fun sy => (match ended_with sy 0 with
                         | Some (AKilled (inl r)) => Some (kr_TokensRevoked r, kr_ControlError r)
                         | _ => None
                         end,
                         gp_Status <$> get_principal agp (w_Guard (sy_Server sy)),
                         map tk_RevokedAt (g_Tokens (w_Guard (sy_Server sy)))))
    (acts retried_run (idle (empty_world 1))) = Some (Some (0, []), Some StatusFrozen, [None]).
Proof. vm_compute. reflexivity. Qed.

(** A kill whose record could not be written is lifted by one person. *)
Definition lost_record : Answers :=
  {| x_guard := Fails false {| x_started := 0; x_applies := []; x_roles := []; x_reports := [] |} (OtherFailure "down");
     x_gate := None; x_caller := (no_standing_policy, None); x_error := None;
     x_targets := inl []; x_lease := inr LeaseBusy; x_action := (0, None); x_ended := false |}.

Definition unrecorded_run : list action :=
  [Event (NewPrincipal agp (Some 4)); Start (kill_agent three_attempts); Run 0 (at_time 0); Run 0 lost_record] ++
  runs 0 6 0 ++ Start (unfreeze_by 8) :: runs 1 3 0.

Lemma unrecorded_kill_needs_one :
  option_map (fun sy => (match ended_with sy 1 with
                         | Some (AUnfrozen (inl r)) => Some (ur_Applied r, ur_Quorum r)
                         | _ => None
                         end,
                         gp_Status <$> get_principal agp (w_Guard (sy_Server sy))))
    (acts unrecorded_run (idle (empty_world 1))) = Some (Some (true, 1), Some StatusActive).
Proof. vm_compute. reflexivity. Qed.

(** A frozen principal set active by hand is active while the kill's freeze is open. *)
Definition by_hand_run : list action :=
  [Event (NewPrincipal agp (Some 4)); Start (kill_agent sample_kill_config)] ++ runs 0 9 0 ++
  Start (OpSetStatus true agp StatusActive "") :: runs 1 2 0.

Lemma set_active_keeps_freeze :
  option_map (fun sy => (map is_open (g_Freezes (w_Guard (sy_Server sy))),
                         gp_Status <$> get_principal agp (w_Guard (sy_Server sy))))
    (acts by_hand_run (idle (empty_world 1))) = Some ([true], Some StatusActive).
Proof. vm_compute. reflexivity. Qed.
